(* ===== verification/_CoqProject ===== *)
-Q . S2P
Prelude.v
PyText.v
PyHash.v
PyFloat.v
PyJson.v
FloatRound.v
Tables.v
Acts.v
ScanSchemas.v
JobStore.v
JobSteps.v
JobLease.v
JobClaim.v
JobProps.v
Compare.v
DpkgVersion.v
Versioning.v
VersionOrder.v
VersionProps.v
Severity.v
Cvss.v
Osv.v
OsvProps.v
Detect.v
DetectProps.v
Coverage.v
CoverageProps.v
Correlate.v
Guard.v
CorrelateProps.v
GuardProps.v
Lifecycle.v
LifecycleProps.v
IngestLedger.v
LedgerProps.v
AgentIdentity.v
AgentSteps.v
AgentProps.v
Posture.v
Predict.v
PredictSteps.v
PredictProps.v
Lineage.v
RecordStore.v
StoreProps.v
Chunks.v
ChunkProps.v
AnalyzerClient.v
AnalyzerClientProps.v
Reports.v
ReportProps.v
PageProps.v
ProjectionCache.v
CacheProps.v
Schedules.v
ScheduleProps.v
KaliTracker.v
Kali.v
KaliProps.v
PyTime.v
TimeOrder.v
Envelopes.v
Derived.v
Ingest.v
Defender.v
DerivedProps.v
PassProps.v
DerivedExamples.v
IngestProps.v
DefenderProps.v
DefenderClient.v
DefenderClientProps.v
Mdvm.v
MdvmProps.v
DefenderFlow.v
Mde.v
MdeProps.v
Settings.v
ScanWorker.v
WorkerProps.v
