(* ===== verification/Prelude.v ===== *)
(** * kcatta: a verification library for the analyzer and the form services

    kcatta collects host inventories, traces and guard events with agents (Rust,
    not modelled), receives them through the form service
    ([form/src/kcatta_form]), which also schedules and leases scan jobs, and
    derives findings and alerts in the analyzer ([analyzer/src/analyzer]).  This
    library models the decision-making core of the two Python services and
    proves what makes it correct.  Paths below are relative to these packages.

    ** Conventions

    - A [str] is the list of its code points; [u "..."] is an ASCII literal.
      Python's tables for code points above 255 are the class [PyText.Unicode],
      over which every theorem is quantified.
    - A [float] is an executable IEEE-754 binary64 ([PyFloat]); a [datetime] is
      its number of microseconds; SHA-1 and SHA-256 are the FIPS functions
      ([PyHash]).
    - A call returns a [res]: a value or the exception that escapes.  A database
      transaction is a function on the tables; an exception keeps the old tables.
    - A Python dict whose order shows is an association list ([od_get],
      [od_set]); a table keyed by a column is a [gmap].
    - A string constraint of a schema is Pydantic's: [PyText.trim], then the
      length.  Sizes of JSON dumps, PEP 440 versions (the [packaging] library)
      and the advisory index are parameters.
    - Loops that are not structural run on fuel computed from their input;
      [VersionProps.comparators_terminate] shows that it is enough.

    ** Scan jobs ([job_store.py], [schemas/scan.py])

    - [ScanSchemas]: jobs, results, options and the model validator.
    - [JobStore]: the three tables of [ScanJobRepository] and every call on them,
      one definition per method and transaction.
    - [JobSteps]: a call as data ([call], [exec]), an abstract state machine of
      one row ([row_step]), and the refinement: every call moves every row along
      the machine and keeps columns and payload consistent.
    - [JobLease]: holders of a target; at most one is live at any time, over any
      history ([run]); superseded claims.
    - [JobClaim]: the order of the claim query, the limits, idempotency keys.
    - [JobProps]: the properties and their witnesses.

    ** Schedules ([schedule_store.py], [schedule_worker.py], [api/schedules.py])

    - [Schedules]: the table of schedules, the routes on it and a tick of the
      worker, which creates scan jobs in the repository.  [ScheduleProps]: what a
      tick does to each schedule; over any history two jobs of a schedule are at
      least its interval apart.
    - [FloatRound]: rounding in binary64, how far a stored timestamp is from the
      instant it was made of, quotients of integers rounded up.

    ** Vulnerability detection ([detect/])

    - [Compare]: three-way comparisons as a class ([Ordered]) with instances for
      pairs, lists and padded lists; [DpkgVersion] ([debversion.py]),
      [Versioning] ([versioning.py]): the comparators as written;
      [VersionOrder]: keys of versions and the proof that the comparators compare
      keys; [VersionProps]: total preorders, termination, what breaks them.
    - [Severity], [Cvss] ([cvss.py], [scoring.py]): scores; the v3 base score is
      compared with exact rational arithmetic on all 2592 base vectors.
    - [Osv], [OsvProps] ([osv.py]): records and affected-version matching, against
      membership in intervals of an arbitrary order.
    - [Detect], [DetectProps] ([engine.py], [combine.py], [limits.py]): the join
      of packages and advisories under finding limits; soundness, and
      completeness of unflagged results; merging with scanner findings.
    - [Coverage], [CoverageProps] ([coverage.py], [matrix.py]): what a result says
      about the corpus it was matched against.
    - [KaliTracker] ([debian_tracker.py]), [Kali] ([kali.py]): the index of the
      Debian tracker, from the decoded feed to its lookups, and the matching of
      Kali packages by exact source version; [KaliProps]: the index lists what the
      feed lists, findings are exact, COMPLETE is truthful.

    ** Correlation ([correlate/])

    - [Correlate] ([limits.py], [identity.py], [trace.py]), [Guard] ([guard.py],
      [cross.py]): alerts from batches, compound alerts.
    - [CorrelateProps]: the grouping loops compute, key by key, what a separate
      pass would ([collect_spec]), shared by trace and guard; [GuardProps]: every
      event is covered, compound alerts, alert keys.
    - [Lifecycle], [LifecycleProps] ([lifecycle.py]): the merged read model equals
      its per-key definition.

    ** Ingest ledger and storage ([analyzer/api], [analyzer/storage])

    - [IngestLedger], [LedgerProps] ([api/ingest_queue.py]): the table of accepted
      envelopes and every transaction on it; acknowledged work is kept, an outcome
      is recorded once, a due task is claimed.
    - [Lineage] ([storage/lineage.py]): chunk identifiers.  [RecordStore],
      [StoreProps] ([storage/sqlite.py]): a table of records under its budgets;
      pruning removes the least, walking along cursors misses nothing although
      records come and go, equal fingerprints mean equal contents.
    - [Reports] ([api/reports.py]): pages, lineages and the report projection over
      the record store; [PageProps]: pages cover the records.
    - [ProjectionCache], [CacheProps] ([api/report_projection_cache.py] and its use):
      the cache keeps its limits and never answers with a projection older than the
      request.

    ** Ingest ([api/ingest.py])

    - [Envelopes]: the models the handlers read and write.  [Derived]: from an
      envelope to derived records, in a small monad ([io]) over the analyzer's
      stores in which writes can fail: the budget of one envelope, detection
      (OSV, tracker, scanner findings, coverage) and correlation as the handlers
      compose them.  [Ingest]: the routes over the ledger, with the calls of other
      threads as arguments, and the status of an envelope.  [Defender]: the two
      Defender batches; [PyTime]: [isoformat].
    - [DerivedProps]: alerts are stored once over any history of deliveries; a
      complete trace outcome covers every indicator.  [PassProps]: a complete
      detection outcome covers every package, and processing again.
      [IngestProps]: what each answer means.  [DefenderProps]: snapshots.
      [DerivedExamples]: an instance on which their hypotheses hold.

    ** Telemetry chunks ([telemetry_chunks.py])

    - [Chunks], [ChunkProps]: splitting a report or a batch under byte and item
      limits, over an interface ([ReportWire], [BatchWire]) that says how long the
      JSON of a model is; the chunks hold everything, and splitting succeeds when
      each item fits.
    - [ReportProps]: the two services together: what the form splits and the
      analyzer stores under the same root is put together again.

    ** Agent identities ([agent_identity_store.py])

    - [AgentIdentity]: the two tables of the certificate registry and every call on
      them; [AgentSteps]: the lifecycle machine of a certificate and the invariant
      of the tables; [AgentProps]: revocation is final, verification, rotation, at
      most two certificates accepted.

    ** Attack-path prediction ([predict/])

    - [Posture] ([graph.py]): the posture graph of stored telemetry.  [Predict]
      ([engine.py]): the forward chain with the provenance of its facts, goals,
      scores, convergence.  [PredictSteps]: the facts that follow, as an inductive
      relation, and the invariant of the chain; [PredictProps]: the chain reaches
      exactly these facts, paths are grounded in them.

    ** Microsoft Defender connectors ([mde.py], [mdvm.py])

    - [DefenderClient]: the HTTP client both connectors have, over a script of answers
      and a clock: tokens, retries, pages; the readers of remote records; the map from
      devices to hosts; the row with the watermark and the lease.  [DefenderClientProps]:
      its requests are bounded and go to the allowed URLs only; the texts of instants
      with [Z].
    - [Mdvm]: the vulnerability connector, [Mde]: the endpoint connector, from the answers
      of the service to the batches the analyzer is sent.
    - [MdvmProps], [MdeProps]: a delta leaves the findings that are active in the remote
      history; the watermark moves only when everything was delivered; the newest copy of
      an alert is sent.  [DefenderFlow]: a snapshot of the connector in the analyzer.
    - [TimeOrder]: the texts of instants come in the order of the instants and are read
      back.
    - [Settings] ([from_env] of both connectors and of the scan worker): from the
      environment to settings in range, or a configuration error.

    ** The scan worker ([scan_worker.py], [scan_artifacts.py], [provenance.py])

    - [AnalyzerClient], [AnalyzerClientProps] ([analyzer_client.py],
      [derived_reconciler.py]): the paths that may be called, envelopes in chunks, the
      answers, pending outcomes.
    - [ScanWorker]: one claim from its dispatch to the recorded state.  Its state
      ([world]) holds the repository ([JobStore]), the identity registry
      ([AgentIdentity]), the spool of artifacts, the signals of the execution and the
      state of everything outside, which the class [Outside] operates on: deployment,
      targets, analyzer, certificate authority.  At every awaited call a batch of a
      schedule ([happening]) takes place: clock, heartbeat, deadline, shutdown,
      cancellation, calls of other replicas and of the API; theorems hold for every
      schedule.  The call that records a state is an argument of the end of a claim.
    - [WorkerProps]: the spool reads back what it saved; a stored artifact is not
      collected again; a success was acknowledged by the analyzer; a state is recorded
      only when the lease, the result and the compensation of a guard justify it;
      a form with one target on which the hypotheses hold.

    ** Files of shared material

    This file: exceptions and the [res] monad with [inv_ok], ordered dicts,
    stable sorting, record update ([r <| f := v |>]), the hint database
    [kcatta].  [PyText], [PyHash], [PyFloat], [PyJson]: the parts of Python's
    library the code uses.  [Tables]: the queries of SQL the transactions use.
    [Acts]: calls on a state that can raise ([act]).

    ** Findings proved on the way

    [JobProps]: re-creating an evicted job violates a uniqueness constraint;
    a failed job over the record limit blocks all claims; microseconds are lost
    in timestamp conversion.  [VersionProps]: superscript digits raise;
    malformed versions are not ordered.  [Cvss]: the changed-scope impact formula
    is not the base formula.  [CoverageProps]: the grouped row claims scans that
    did not happen.  [GuardProps]: an overflowing label list drops hosts from
    guard alerts; the key separator can occur in identifiers.  [LedgerProps]: the
    lineage query folds the case of identifiers.  [ChunkProps]: a report that
    declares too few findings can be refused although every item fits.
    [ScheduleProps]: a schedule deleted while the worker visits it comes back.
    [KaliProps]: a long package name fails the detection of its report.
    [PassProps]: a replayed report takes the result of any source's report, a
    partial outcome becomes complete by a replay, a long OS text fails detection.
    [MdvmProps]: devices without findings left are forgotten by a baseline.
    [DefenderFlow]: a long software name fails the snapshot of its device.  [MdeProps]:
    update times with fractions of a second are not compared in their order.
    [AnalyzerClientProps]: a path encoded five times is not seen through.
    [WorkerProps]: a guard job cancelled between two attempts leaves its guard running.

    ** Not modelled

    Network, file and process I/O (deployment over SSH and WinRM, certificates through
    the [cryptography] package, advisory download, HTTP routers), SQLite's engine (page
    budget, PRAGMAs, migration), the JSONL store, cursor tokens, the parsers of unbounded
    telemetry documents, threads and tasks other than as calls between awaited calls (SQLite
    serialises the transactions that are modelled), the forced cancellation of a worker's
    tasks, metrics counters, the agent and the admin console. *)

From stdpp Require Import base gmap sets list strings numbers sorting.
From Stdlib Require Import ZArith Lia.
From Stdlib Require Ascii String.

#[global] Open Scope Z_scope.

(** ** Python strings *)

(** A Python [str] is the list of its code points. *)
Abbreviation str := (list N).

(** [u "abc"] is the Python literal ["abc"] (ASCII literals only). *)
Definition u (s : String.string) : str :=
  map Ascii.N_of_ascii (String.list_ascii_of_string s).
Arguments u s%_string.

(** ** Exceptions *)

(** The exceptions the modelled code raises or lets escape: Python's own
    ([ValueError], which pydantic's validation error extends, [KeyError],
    [RuntimeError]), SQLite's [IntegrityError] and the classes of the code. *)
Inductive exn :=
| ValueError
| KeyError
| IndexError
| StopIteration
| RuntimeError
| OverflowError
| StorageCapacityError
| StorageCursorError
| HTTPException (status : Z)
| JobNotFoundError
| JobConflictError
| LeaseLostError
| AgentIdentityNotFoundError
| AgentCertificateNotFoundError
| AgentIdentityConflictError
| LedgerConflictError
| IntegrityError
| OSError
| JSONDecodeError
| MdeConfigurationError
| MdeUpstreamError
| AnalyzerUpstreamError (status_code : option Z)
| TypeError
| AssertionError
| TimeoutError
| ConnectionError
| FileNotFoundError
| PermissionError
| InterruptedError
| CancelledError
| ProvenanceConflict
| ScanExecutionInterrupted
| GuardReconciliationRequired
| GuardDeploymentUncertainError
| AgentPkiError.

#[global] Instance exn_eq_dec : EqDecision exn.
Proof. solve_decision. Defined.

(** The outcome of a call: a value or the exception that escaped it. *)
Inductive res (A : Type) :=
| Ok (a : A)
| Raise (e : exn).
Arguments Ok {A} a.
Arguments Raise {A} e.

#[global] Instance res_ret : MRet res := fun A a => Ok a.
#[global] Instance res_bind : MBind res := fun A B k m =>
  match m with Ok a => k a | Raise e => Raise e end.
#[global] Instance res_fmap : FMap res := fun A B f m =>
  match m with Ok a => Ok (f a) | Raise e => Raise e end.

(** [if cond: raise e] *)
Definition raise_if (cond : bool) (e : exn) : res unit :=
  if cond then Raise e else Ok tt.

Lemma bind_Ok_inv {A B} (m : res A) (k : A -> res B) b :
  m ≫= k = Ok b <-> exists a, m = Ok a /\ k a = Ok b.
Proof. destruct m; simpl; naive_solver. Qed.

Lemma fmap_Ok_inv {A B} (f : A -> B) (m : res A) b : f <$> m = Ok b <-> exists a, m = Ok a /\ b = f a.
Proof. destruct m; simpl; naive_solver. Qed.

Lemma raise_if_Ok_inv c e x : raise_if c e = Ok x <-> c = false.
Proof. destruct c, x; simpl; naive_solver. Qed.

Lemma mapM_Ok {A B} (f : A -> res B) xs ys : mapM f xs = Ok ys <-> Forall2 (fun x y => f x = Ok y) xs ys.
Proof.
  revert ys. induction xs as [|x xs IH]; intros ys; cbn.
  - split; [intros [= <-]; constructor|by inversion 1].
  - rewrite bind_Ok_inv. split.
    + intros (y & Hy & E). apply bind_Ok_inv in E as (zs & Hzs & E). injection E as <-. constructor; [done|by apply IH].
    + inversion 1 as [|? y ? zs Hy Hzs]; subst. exists y. split; [done|]. apply bind_Ok_inv. exists zs. by rewrite IH.
Qed.

(** The lemmas that automate the common cases of the development. *)
Create HintDb kcatta.

(** Takes a successful call apart: every bind, guard and value on the way. *)
Ltac inv_ok :=
  repeat match goal with
  | H : _ ≫= _ = Ok _ |- _ => apply bind_Ok_inv in H as (? & ? & H)
  | H : mbind _ _ = Ok _ |- _ => apply bind_Ok_inv in H as (? & ? & H)
  | H : raise_if _ _ = Ok _ |- _ => apply raise_if_Ok_inv in H
  | H : Ok _ = Ok _ |- _ => injection H as H
  | H : Raise _ = Ok _ |- _ => discriminate H
  | H : Ok _ = Raise _ |- _ => discriminate H
  end.

(** ** Insertion-ordered dictionaries

    A Python [dict] keeps its keys in first-insertion order; where the code
    iterates over one, the order is visible and the model is an association
    list with distinct keys. *)

Section Odict.
Context {K V : Type} `{EqDecision K}.

(** [d.get(k)] *)
Fixpoint od_get (k : K) (d : list (K * V)) : option V :=
  match d with
  | [] => None
  | (k', v) :: d' => if decide (k = k') then Some v else od_get k d'
  end.

(** [d[k] = v]: in place when [k] is a key, at the end otherwise. *)
Fixpoint od_set (k : K) (v : V) (d : list (K * V)) : list (K * V) :=
  match d with
  | [] => [(k, v)]
  | (k', v') :: d' =>
      if decide (k = k') then (k', v) :: d' else (k', v') :: od_set k v d'
  end.

(** [d.pop(k, None)] *)
Fixpoint od_pop (k : K) (d : list (K * V)) : list (K * V) :=
  match d with
  | [] => []
  | (k', v') :: d' => if decide (k = k') then d' else (k', v') :: od_pop k d'
  end.

Lemma od_get_set k k' v d :
  od_get k' (od_set k v d) = if decide (k' = k) then Some v else od_get k' d.
Proof.
  induction d as [|[k0 v0] d IH]; simpl; [done|].
  repeat (case_decide || simpl || subst); try congruence; done.
Qed.

Lemma od_get_set_eq k v d : od_get k (od_set k v d) = Some v.
Proof. rewrite od_get_set. by rewrite decide_True. Qed.

Lemma od_get_set_ne k k' v d : k' <> k -> od_get k' (od_set k v d) = od_get k' d.
Proof. intros. rewrite od_get_set. by rewrite decide_False. Qed.

Lemma od_get_None k d : od_get k d = None <-> k ∉ d.*1.
Proof.
  induction d as [|[k0 v0] d IH]; simpl; [set_solver|].
  case_decide; set_solver.
Qed.

Lemma od_get_Some_elem k v d : od_get k d = Some v -> (k, v) ∈ d.
Proof.
  induction d as [|[k0 v0] d IH]; simpl; [done|].
  case_decide; [intros [= ->]; subst; set_solver|set_solver].
Qed.

Lemma od_elem_get k v d : NoDup d.*1 -> (k, v) ∈ d -> od_get k d = Some v.
Proof.
  induction d as [|[k0 v0] d IH]; simpl; [set_solver|].
  intros [Hn Hd]%NoDup_cons [Heq|Hin]%elem_of_cons.
  - injection Heq as -> ->. by rewrite decide_True.
  - rewrite decide_False; [auto|]. intros ->. apply Hn.
    apply list_elem_of_fmap. by exists (k0, v).
Qed.

Lemma od_set_keys k v d :
  (od_set k v d).*1 = if decide (k ∈ d.*1) then d.*1 else d.*1 ++ [k].
Proof.
  induction d as [|[k0 v0] d IH]; simpl; [done|].
  destruct (decide (k = k0)) as [->|Hk]; csimpl.
  - by rewrite decide_True by left.
  - rewrite IH.
    destruct (decide (k ∈ d.*1)), (decide (k ∈ k0 :: d.*1)); [done| | |done];
      exfalso; set_solver.
Qed.

Lemma od_set_NoDup k v d : NoDup d.*1 -> NoDup (od_set k v d).*1.
Proof.
  intros Hd. rewrite od_set_keys. case_decide; [done|].
  apply NoDup_app. split; [done|]. split; [set_solver|]. apply NoDup_singleton.
Qed.

Lemma od_set_length k v d :
  length (od_set k v d) = (length d + if od_get k d is Some _ then 0 else 1)%nat.
Proof.
  induction d as [|[k0 v0] d IH]; simpl; [done|].
  case_decide; simpl; [lia|]. rewrite IH. lia.
Qed.

Lemma od_pop_get k d : NoDup d.*1 -> od_get k (od_pop k d) = None.
Proof.
  induction d as [|[k0 v0] d IH]; simpl; [done|].
  intros [Hn Hd]%NoDup_cons. case_decide; subst.
  - by apply od_get_None.
  - simpl. rewrite decide_False by done. auto.
Qed.

Lemma od_pop_get_ne k k' d : k' <> k -> od_get k' (od_pop k d) = od_get k' d.
Proof.
  intros Hne. induction d as [|[k0 v0] d IH]; simpl; [done|].
  repeat (case_decide; simpl; subst); congruence.
Qed.

Lemma od_pop_sublist k d : od_pop k d `sublist_of` d.
Proof.
  induction d as [|[k0 v0] d IH]; simpl; [done|].
  case_decide; [by apply sublist_cons|by apply sublist_skip].
Qed.

Lemma sublist_keys (d1 d2 : list (K * V)) :
  d1 `sublist_of` d2 -> d1.*1 `sublist_of` d2.*1.
Proof.
  induction 1; csimpl;
    [apply sublist_nil|by apply sublist_skip|by apply sublist_cons].
Qed.

Lemma od_pop_NoDup k d : NoDup d.*1 -> NoDup (od_pop k d).*1.
Proof.
  intros Hd. eapply sublist_NoDup; [exact Hd|].
  apply sublist_keys, od_pop_sublist.
Qed.

Lemma od_set_id k v d : od_get k d = Some v -> od_set k v d = d.
Proof.
  induction d as [|[k0 v0] d IH]; simpl; [done|].
  case_decide; [by intros [= ->]|]. intros. f_equal. auto.
Qed.

(** An update in place keeps the other entries where they are. *)
Lemma od_set_Forall (P : K * V -> Prop) k v d :
  Forall P d -> (forall k', k' = k -> P (k', v)) -> Forall P (od_set k v d).
Proof.
  intros Hd Hk. induction Hd as [|[k0 v0] d H0 Hd IH]; simpl.
  - constructor; [by apply Hk|done].
  - case_decide; constructor; auto.
Qed.
End Odict.

Lemma filter_none {A} (P : A -> Prop) `{!forall x, Decision (P x)} (l : list A) :
  (forall x, x ∈ l -> ~ P x) -> base.filter P l = [].
Proof.
  induction l as [|x l IH]; intros Hl; [done|]. rewrite filter_cons_False by (apply Hl; by left).
  apply IH. intros y Hy. apply Hl. by right.
Qed.

Lemma filter_all {A} (P : A -> Prop) `{!forall x, Decision (P x)} (l : list A) :
  (forall x, x ∈ l -> P x) -> base.filter P l = l.
Proof.
  induction l as [|x l IH]; intros Hl; [done|]. rewrite filter_cons_True by (apply Hl; by left).
  f_equal. apply IH. intros y Hy. apply Hl. by right.
Qed.

Lemma elem_of_rev {A} (x : A) l : x ∈ rev l <-> x ∈ l.
Proof. by rewrite !list_elem_of_In, <-in_rev. Qed.

(** ** Python's stable [sorted]

    [sorted] only asks "is [x] strictly below [y]", and keeps the order of the
    elements it does not separate. *)
Section Isort.
Context {A : Type} (lt : A -> A -> bool).

Fixpoint insert_sorted (x : A) (l : list A) : list A :=
  match l with
  | [] => [x]
  | y :: l' => if lt y x then y :: insert_sorted x l' else x :: l
  end.

Fixpoint isort (l : list A) : list A :=
  match l with
  | [] => []
  | x :: l' => insert_sorted x (isort l')
  end.

Lemma insert_sorted_perm x l : insert_sorted x l ≡ₚ x :: l.
Proof.
  induction l as [|y l IH]; simpl; [done|].
  destruct (lt y x); [|done]. rewrite IH. by rewrite Permutation_swap.
Qed.

Lemma isort_perm l : isort l ≡ₚ l.
Proof.
  induction l as [|x l IH]; simpl; [done|].
  rewrite insert_sorted_perm. by constructor.
Qed.

Lemma isort_elem x l : x ∈ isort l <-> x ∈ l.
Proof. by rewrite isort_perm. Qed.

Lemma isort_length l : length (isort l) = length l.
Proof. by rewrite isort_perm. Qed.

(** With a strict weak order the result never steps down. *)
Context (lt_total : forall x y, lt x y = false -> lt y x = true \/ lt y x = false).
Context (lt_asym : forall x y, lt x y = true -> lt y x = false).
Context (nlt_trans : forall x y z, lt y x = false -> lt z y = false -> lt z x = false).

Lemma insert_sorted_Sorted x l :
  StronglySorted (fun a b => lt b a = false) l ->
  StronglySorted (fun a b => lt b a = false) (insert_sorted x l).
Proof.
  induction 1 as [|y l Hs IH Hy]; simpl; [repeat constructor|].
  destruct (lt y x) eqn:E.
  - constructor; [done|]. rewrite insert_sorted_perm.
    constructor; [by apply lt_asym|done].
  - constructor; [by constructor|]. constructor; [done|].
    eapply Forall_impl; [exact Hy|]. intros z Hz. simpl in Hz.
    eapply nlt_trans; eauto.
Qed.

Lemma isort_Sorted l : StronglySorted (fun a b => lt b a = false) (isort l).
Proof.
  induction l as [|x l IH]; simpl; [constructor|].
  by apply insert_sorted_Sorted.
Qed.
End Isort.

(** ** Record update

    [r <| f := v |>] is the record [r] with field [f] set to [v], as in an
    attribute assignment [r.f = v] on a private copy.  A record type provides
    its [Eta] expansion; the setter of a field replaces the projection in it. *)
Class Eta (R : Type) := eta : R -> R.
Class Setter {R T : Type} (field : R -> T) := upd : (T -> T) -> R -> R.

Ltac solve_setter field :=
  match type of field with
  | ?R -> ?T =>
      let inst := constr:(ltac:(typeclasses eauto) : Eta R) in
      let body := eval hnf in inst in
      match eval pattern field in body with
      | ?abs field => exact (fun (f : T -> T) => abs (fun x : R => f (field x)))
      end
  end.

#[global] Hint Extern 1 (Setter ?field) => solve_setter field : typeclass_instances.

Declare Scope kcatta_scope.
Delimit Scope kcatta_scope with kcatta.
#[global] Open Scope kcatta_scope.

Notation "x <| f := v |>" := (upd (field := f) (fun _ => v) x)
  (at level 12, f constr at level 200, left associativity, format "x  <| f  :=  v |>") : kcatta_scope.
