(* ===== verification/PyText.v ===== *)
(** * Python text: the [str] operations the code uses

    Character classes, [strip], [lower], [split], [partition], [rpartition],
    [startswith], [isdigit], [int], string ordering and decimal printing, on
    strings as lists of code points.  Code points below 256 follow the Unicode
    tables exactly; the classification of the others is a parameter
    ([Unicode]), so that every theorem holds whatever the tables say. *)

From S2P Require Import Prelude.
From stdpp Require Import base list sets numbers.
From Stdlib Require Import ZArith Lia.

(** ** Character classes *)

(** What Python's tables answer for a code point above 255. *)
Class Unicode := {
  wide_alpha : N -> bool;
  wide_digit : N -> bool;
  wide_alnum : N -> bool;
  wide_space : N -> bool;
  wide_decimal : N -> option N;
  wide_lower : N -> list N;
  wide_upper : N -> list N;
}.

(** The tables of a Python that knows no character above 255. *)
#[export] Instance latin1_only : Unicode | 100 := {|
  wide_alpha := fun _ => false;
  wide_digit := fun _ => false;
  wide_alnum := fun _ => false;
  wide_space := fun _ => false;
  wide_decimal := fun _ => None;
  wide_lower := fun c => [c];
  wide_upper := fun c => [c];
|}.

Definition between (lo c hi : N) : bool := ((lo <=? c) && (c <=? hi))%N.

Section Chars.
Context {U : Unicode}.
Local Open Scope N_scope.

(** [c.isdigit()] *)
Definition isdigit_c (c : N) : bool :=
  if c <? 256 then between 48 c 57 || (c =? 178) || (c =? 179) || (c =? 185)
  else wide_digit c.

(** [c.isalpha()] *)
Definition isalpha_c (c : N) : bool :=
  if c <? 256 then
    between 65 c 90 || between 97 c 122 || (c =? 170) || (c =? 181) || (c =? 186)
    || between 192 c 214 || between 216 c 246 || between 248 c 255
  else wide_alpha c.

(** [c.isalnum()] *)
Definition isalnum_c (c : N) : bool :=
  if c <? 256 then isalpha_c c || isdigit_c c || between 188 c 190
  else wide_alnum c.

(** [c.isspace()], the characters [strip] removes *)
Definition isspace_c (c : N) : bool :=
  if c <? 256 then between 9 c 13 || between 28 c 32 || (c =? 133) || (c =? 160)
  else wide_space c.

(** Unicode [White_Space]: the characters Pydantic's [str_strip_whitespace]
    removes (the separators 28-31 are [isspace] but not among them) *)
Definition iswhite_c (c : N) : bool :=
  if c <? 256 then between 9 c 13 || (c =? 32) || (c =? 133) || (c =? 160)
  else wide_space c.

(** [c.isascii()] *)
Definition isascii_c (c : N) : bool := c <? 128.

(** The value [int] gives a decimal digit; [None] where it raises. *)
Definition decimal_c (c : N) : option N :=
  if c <? 256 then (if between 48 c 57 then Some (c - 48) else None)
  else wide_decimal c.

(** [c.lower()] *)
Definition lower_c (c : N) : list N :=
  if c <? 256 then
    (if between 65 c 90 || between 192 c 214 || between 216 c 222 then [c + 32] else [c])
  else wide_lower c.

(** [c.upper()] *)
Definition upper_c (c : N) : list N :=
  if c <? 256 then
    (if between 97 c 122 || between 224 c 246 || between 248 c 254 then [c - 32]
     else if c =? 181 then [924] else if c =? 223 then [83; 83] else if c =? 255 then [376] else [c])
  else wide_upper c.

(** ** Strings *)

(** [s.isdigit()] *)
Definition isdigit (s : str) : bool :=
  match s with [] => false | _ => forallb isdigit_c s end.

Definition lower (s : str) : str := concat (map lower_c s).
Definition upper (s : str) : str := concat (map upper_c s).

(** Drop the longest prefix whose characters satisfy [p]. *)
Fixpoint drop_while (p : N -> bool) (s : str) : str :=
  match s with
  | [] => []
  | c :: s' => if p c then drop_while p s' else s
  end.

(** The longest prefix whose characters satisfy [p]. *)
Fixpoint take_while (p : N -> bool) (s : str) : str :=
  match s with
  | [] => []
  | c :: s' => if p c then c :: take_while p s' else []
  end.

(** [s.lstrip()] and [s.strip()] *)
Definition lstrip (s : str) : str := drop_while isspace_c s.
Definition strip (s : str) : str := rev (drop_while isspace_c (rev (lstrip s))).

(** Pydantic's [str_strip_whitespace] *)
Definition trim (s : str) : str := rev (drop_while iswhite_c (rev (drop_while iswhite_c s))).

(** [s.startswith(p)]: the rest after [p], or [None]. *)
Fixpoint after_prefix (p s : str) : option str :=
  match p, s with
  | [], _ => Some s
  | c :: p', d :: s' => if c =? d then after_prefix p' s' else None
  | _ :: _, [] => None
  end.

Definition startswith (p s : str) : bool := if after_prefix p s is Some _ then true else false.

(** [s.partition(sep)]: what is before and after the first occurrence of
    [sep]; [None] when there is none. *)
Fixpoint partition (sep s : str) : option (str * str) :=
  match after_prefix sep s with
  | Some r => Some ([], r)
  | None =>
      match s with
      | [] => None
      | c :: s' =>
          match partition sep s' with
          | Some (a, b) => Some (c :: a, b)
          | None => None
          end
      end
  end.

(** [s.rpartition(sep)]: around the last occurrence. *)
Fixpoint rpartition (sep s : str) : option (str * str) :=
  let here := match after_prefix sep s with Some r => Some ([], r) | None => None end in
  match s with
  | [] => here
  | c :: s' =>
      match rpartition sep s' with
      | Some (a, b) => Some (c :: a, b)
      | None => here
      end
  end.

(** [s.split(c)] for a one-character separator: never empty. *)
Fixpoint split_on (sep : N) (s : str) : list str :=
  match s with
  | [] => [[]]
  | c :: s' =>
      if c =? sep then [] :: split_on sep s'
      else match split_on sep s' with
           | [] => [[c]]
           | w :: ws => (c :: w) :: ws
           end
  end.

(** [sep.join(parts)] *)
Fixpoint join (sep : str) (parts : list str) : str :=
  match parts with
  | [] => []
  | [p] => p
  | p :: ps => p ++ sep ++ join sep ps
  end.

(** The [int] of a string of digits.  CPython refuses more than 4300 digits,
    and a digit that is no decimal digit (a superscript, say). *)
Definition max_str_digits : nat := 4300.

Fixpoint digits_value (acc : N) (s : str) : option N :=
  match s with
  | [] => Some acc
  | c :: s' => d ← decimal_c c; digits_value (10 * acc + d) s'
  end.

Definition int_of (s : str) : res Z :=
  if (max_str_digits <? length s)%nat then Raise ValueError
  else match s with
       | [] => Raise ValueError
       | _ => match digits_value 0 s with
              | Some n => Ok (Z.of_N n)
              | None => Raise ValueError
              end
       end.

(** ** Decimal printing, [str(n)] for [n >= 0] *)
Fixpoint dec_aux (fuel : nat) (n : N) (acc : str) : str :=
  match fuel with
  | O => acc
  | S f =>
      let acc' := (48 + n mod 10) :: acc in
      if n <? 10 then acc' else dec_aux f (n / 10) acc'
  end.

Definition dec (n : N) : str := dec_aux (S (N.size_nat n)) n [].
End Chars.

Definition dec_nat (n : nat) : str := dec (N.of_nat n).

(** [str(z)] of an integer; code point 45 is the minus sign. *)
Definition dec_Z (z : Z) : str := if (z <? 0)%Z then 45%N :: dec (Z.to_N (- z)) else dec (Z.to_N z).

(** ** Lemmas *)

Section TextFacts.
Context {U : Unicode}.

Lemma drop_while_suffix p s : exists t, s = t ++ drop_while p s.
Proof.
  induction s as [|c s [t IH]]; simpl; [by exists []|].
  destruct (p c); [exists (c :: t); simpl; by f_equal|by exists []].
Qed.

Lemma take_drop_while p s : take_while p s ++ drop_while p s = s.
Proof. induction s as [|c s IH]; simpl; [done|]. destruct (p c); simpl; congruence. Qed.

Lemma drop_while_length p s : (length (drop_while p s) <= length s)%nat.
Proof. induction s as [|c s IH]; simpl; [done|]. destruct (p c); simpl; lia. Qed.

Lemma take_while_Forall p s : Forall (fun c => p c = true) (take_while p s).
Proof. induction s as [|c s IH]; simpl; [done|]. by destruct (p c) eqn:?; constructor. Qed.

Lemma drop_while_head p s c r : drop_while p s = c :: r -> p c = false.
Proof.
  induction s as [|d s IH]; simpl; [done|].
  destruct (p d) eqn:E; [done|]. by intros [= <- <-].
Qed.

Lemma drop_while_none p s : Forall (fun c => p c = false) s -> drop_while p s = s.
Proof. intros [|c s' Hc _]; simpl; [done|]. by rewrite Hc. Qed.

Lemma trim_length s : (length (trim s) <= length s)%nat.
Proof.
  unfold trim. rewrite length_rev. etransitivity; [apply drop_while_length|]. rewrite length_rev.
  apply drop_while_length.
Qed.

Lemma trim_none s : Forall (fun c => iswhite_c c = false) s -> trim s = s.
Proof.
  intros Hs. unfold trim. rewrite (drop_while_none _ s) by done.
  rewrite drop_while_none; [apply rev_involutive|]. by apply List.Forall_rev.
Qed.

Lemma after_prefix_Some p s r : after_prefix p s = Some r <-> s = p ++ r.
Proof.
  revert s. induction p as [|c p IH]; intros [|d s]; simpl; try naive_solver.
  destruct (N.eqb_spec c d) as [->|Hne]; [|naive_solver].
  rewrite IH. naive_solver.
Qed.

Lemma after_prefix_app p r : after_prefix p (p ++ r) = Some r.
Proof. by apply after_prefix_Some. Qed.

Lemma partition_Some sep s a b : partition sep s = Some (a, b) -> s = a ++ sep ++ b.
Proof.
  revert a. induction s as [|c s IH]; intros a; cbn [partition];
    destruct (after_prefix sep _) eqn:E; try discriminate.
  - intros [= <- <-]. by apply after_prefix_Some in E.
  - intros [= <- <-]. by apply after_prefix_Some in E.
  - destruct (partition sep s) as [[a' b']|]; [|discriminate].
    intros [= <- <-]. simpl. f_equal. by apply IH.
Qed.

Lemma split_on_nonempty sep s : split_on sep s <> [].
Proof. destruct s as [|c s]; simpl; [done|]. destruct (c =? sep)%N; [done|]. by destruct split_on. Qed.

Lemma join_split sep s : join [sep] (split_on sep s) = s.
Proof.
  induction s as [|c s IH]; [done|]. simpl.
  pose proof (split_on_nonempty sep s) as Hne.
  destruct (N.eqb_spec c sep) as [->|_].
  - destruct (split_on sep s); [done|]. simpl in *. by f_equal.
  - destruct (split_on sep s) as [|w [|w' ws]]; [done| |]; simpl in *; by f_equal.
Qed.

(** Splitting a join of separator-free parts gives the parts back. *)
Lemma split_on_free sep w : sep ∉ w -> split_on sep w = [w].
Proof.
  induction w as [|c w IH]; intros Hn; [done|]. simpl.
  destruct (N.eqb_spec c sep) as [->|_]; [set_solver|].
  rewrite IH by set_solver. done.
Qed.

Lemma split_on_app sep w s : sep ∉ w ->
  split_on sep (w ++ sep :: s) = w :: split_on sep s.
Proof.
  induction w as [|c w IH]; intros Hn; simpl.
  - by rewrite N.eqb_refl.
  - destruct (N.eqb_spec c sep) as [->|_]; [set_solver|].
    rewrite IH by set_solver. done.
Qed.

Lemma split_join sep ps :
  ps <> [] -> Forall (fun p => sep ∉ p) ps -> split_on sep (join [sep] ps) = ps.
Proof.
  intros Hne Hf. induction Hf as [|p ps Hp Hf IH]; [done|].
  destruct ps as [|q ps].
  - by apply split_on_free.
  - change (join [sep] (p :: q :: ps)) with (p ++ sep :: join [sep] (q :: ps)).
    rewrite split_on_app by done. by rewrite IH.
Qed.

Lemma join_inj sep ps qs :
  ps <> [] -> qs <> [] ->
  Forall (fun p => sep ∉ p) ps -> Forall (fun p => sep ∉ p) qs ->
  join [sep] ps = join [sep] qs -> ps = qs.
Proof.
  intros ?? Hp Hq E. rewrite <-(split_join sep ps), <-(split_join sep qs) by done.
  by rewrite E.
Qed.
End TextFacts.

(** ** Printing a number and reading it back *)

Section DecFacts.
Context {U : Unicode}.
Local Open Scope N_scope.

Lemma decimal_digit d : d < 10 -> decimal_c (48 + d) = Some d.
Proof.
  intros Hd. unfold decimal_c, between.
  replace (48 + d <? 256) with true by (symmetry; apply N.ltb_lt; lia).
  replace (48 <=? 48 + d) with true by (symmetry; apply N.leb_le; lia).
  replace (48 + d <=? 57) with true by (symmetry; apply N.leb_le; lia).
  simpl. f_equal. lia.
Qed.

Lemma isdigit_digit d : d < 10 -> isdigit_c (48 + d) = true.
Proof.
  intros Hd. unfold isdigit_c, between.
  replace (48 + d <? 256) with true by (symmetry; apply N.ltb_lt; lia).
  replace (48 <=? 48 + d) with true by (symmetry; apply N.leb_le; lia).
  replace (48 + d <=? 57) with true by (symmetry; apply N.leb_le; lia).
  done.
Qed.

Lemma digits_value_app a s t :
  digits_value a (s ++ t) = (b ← digits_value a s; digits_value b t).
Proof.
  revert a. induction s as [|c s IH]; intros a; simpl; [done|].
  destruct (decimal_c c); simpl; auto.
Qed.

(** [dec_aux] prints the value in front of the accumulator. *)
Lemma dec_aux_spec fuel n acc :
  n < 2 ^ N.of_nat fuel ->
  exists ds, dec_aux (S fuel) n acc = ds ++ acc /\ ds <> [] /\
    Forall (fun c => exists d, d < 10 /\ c = 48 + d) ds /\
    digits_value 0 ds = Some n.
Proof.
  revert n acc. induction fuel as [|fuel IH]; intros n acc Hn.
  - assert (n = 0) as -> by (simpl in Hn; lia). exists [48].
    repeat split; [done|]. constructor; [|done]. exists 0. lia.
  - cbn [dec_aux]. destruct (N.ltb_spec n 10) as [Hlt|Hge].
    + exists [48 + n mod 10]. repeat split; [done| |].
      * constructor; [|done]. exists (n mod 10). split; [|done].
        apply N.mod_lt. lia.
      * cbn [digits_value]. rewrite decimal_digit by (apply N.mod_lt; lia).
        simpl. by rewrite N.mod_small.
    + destruct (IH (n / 10) ((48 + n mod 10) :: acc)) as (ds & Hds & Hne & Hf & Hv).
      { apply N.Div0.div_lt_upper_bound. rewrite Nat2N.inj_succ, N.pow_succ_r' in Hn. lia. }
      exists (ds ++ [48 + n mod 10]). cbn [dec_aux] in Hds. rewrite Hds. repeat split.
      * by rewrite <-app_assoc.
      * by destruct ds.
      * apply Forall_app. split; [done|]. constructor; [|done].
        exists (n mod 10). split; [|done]. apply N.mod_lt. lia.
      * rewrite digits_value_app, Hv. cbn [mbind option_bind digits_value].
        rewrite decimal_digit by (apply N.mod_lt; lia). simpl. f_equal.
        rewrite (N.Div0.div_mod n 10) at 3. done.
Qed.

Lemma size_nat_bound n : n < 2 ^ N.of_nat (N.size_nat n).
Proof.
  destruct n as [|p]; [done|].
  change (N.size_nat (N.pos p)) with (Pos.size_nat p).
  induction p as [p IH|p IH|]; cbn [Pos.size_nat]; try done;
    rewrite Nat2N.inj_succ, N.pow_succ_r'; lia.
Qed.

Lemma dec_spec n :
  dec n <> [] /\ Forall (fun c => exists d, d < 10 /\ c = 48 + d) (dec n) /\
  digits_value 0 (dec n) = Some n.
Proof.
  destruct (dec_aux_spec (N.size_nat n) n [] (size_nat_bound n)) as (ds & Hds & ?).
  unfold dec. rewrite Hds, app_nil_r. done.
Qed.

Lemma dec_inj m n : dec m = dec n -> m = n.
Proof.
  intros E. pose proof (dec_spec m) as (_ & _ & Hm).
  pose proof (dec_spec n) as (_ & _ & Hn). congruence.
Qed.
End DecFacts.
