(* ===== verification/PyHash.v ===== *)
(** * Python's [hashlib]: SHA-256 and SHA-1

    The code derives identifiers and lease-token fingerprints with
    [hashlib.sha256(s.encode("utf-8")).hexdigest()] and
    [hashlib.sha1(...).hexdigest()].  Both are modelled bit for bit (FIPS 180-4
    on 32-bit words), so the derived identifiers can be evaluated; the theorems
    use only the length of a digest.  Strings hold no lone surrogate (the
    schemas refuse them), so [encode] never fails. *)

From S2P Require Import Prelude PyText.
From stdpp Require Import base list strings numbers.
From Stdlib Require Import ZArith Lia.

Section Words.
Local Open Scope N_scope.

Definition w32 (x : N) : N := x mod 2 ^ 32.
Definition add32 (x y : N) : N := w32 (x + y).
Definition not32 (x : N) : N := N.lxor x (2 ^ 32 - 1).
Definition rotl (n x : N) : N := w32 (N.lor (N.shiftl x n) (N.shiftr x (32 - n))).
Definition rotr (n x : N) : N := rotl (32 - n) x.

(** [s.encode("utf-8")] *)
Definition utf8_c (c : N) : list N :=
  if c <? 128 then [c]
  else if c <? 2048 then [192 + c / 64; 128 + c mod 64]
  else if c <? 65536 then [224 + c / 4096; 128 + (c / 64) mod 64; 128 + c mod 64]
  else [240 + c / 262144; 128 + (c / 4096) mod 64; 128 + (c / 64) mod 64; 128 + c mod 64].

Definition utf8 (s : str) : list N := concat (map utf8_c s).

(** [n] bytes of a number, most significant first. *)
Fixpoint be_bytes (n : nat) (x : N) : list N :=
  match n with
  | O => []
  | S n' => be_bytes n' (x / 256) ++ [x mod 256]
  end.

Definition pad (msg : list N) : list N :=
  let l := length msg in
  msg ++ [128] ++ repeat 0 ((119 - l mod 64) mod 64) ++ be_bytes 8 (8 * N.of_nat l).

(** Group bytes into big-endian words, and words into blocks of sixteen. *)
Fixpoint words (bs : list N) : list N :=
  match bs with
  | a :: b :: c :: d :: r => (((a * 256 + b) * 256 + c) * 256 + d) :: words r
  | _ => []
  end.

Fixpoint blocks (fuel : nat) (ws : list N) : list (list N) :=
  match fuel, ws with
  | _, [] => []
  | O, _ => []
  | S f, _ => take 16 ws :: blocks f (drop 16 ws)
  end.

(** The message schedule, newest word first. *)
Fixpoint schedule (next : list N -> N) (n : nat) (rev_ws : list N) : list N :=
  match n with
  | O => rev_ws
  | S n' => schedule next n' (next rev_ws :: rev_ws)
  end.

(** ** SHA-256 *)

(** The round constants are the first 32 bits of the fractional parts of the
    cube roots of the first 64 primes, the initial state those of the square
    roots of the first eight. *)
Definition is_prime (n : nat) : bool :=
  forallb (fun d => negb (Nat.eqb (Nat.modulo n d) 0)) (seq 2 (n - 2)).

Definition small_primes : list N :=
  Eval vm_compute in map N.of_nat (base.filter (fun n => is_prime n = true) (seq 2 310)).

(** The largest [r] of at most [k] bits, above [r0], with [r ^ 3 <= n]. *)
Fixpoint cube_root (k : nat) (r0 n : N) : N :=
  match k with
  | O => r0
  | S k' => let r := r0 + 2 ^ N.of_nat k' in cube_root k' (if r * r * r <=? n then r else r0) n
  end.

Definition sha256_k : list N :=
  Eval vm_compute in map (fun p => w32 (cube_root 35 0 (p * 2 ^ 96))) small_primes.

Definition sha256_start : list N :=
  Eval vm_compute in map (fun p => w32 (N.sqrt (p * 2 ^ 64))) (take 8 small_primes).

Definition sha256_next (w : list N) : N :=
  let s0 x := N.lxor (N.lxor (rotr 7 x) (rotr 18 x)) (N.shiftr x 3) in
  let s1 x := N.lxor (N.lxor (rotr 17 x) (rotr 19 x)) (N.shiftr x 10) in
  w32 (s1 (nth 1 w 0) + nth 6 w 0 + s0 (nth 14 w 0) + nth 15 w 0).

Record h8 := H8 { h8a : N; h8b : N; h8c : N; h8d : N; h8e : N; h8f : N; h8g : N; h8h : N }.

Definition sha256_round (v : h8) (kw : N * N) : h8 :=
  let '(H8 a b c d e f g h) := v in
  let s1 := N.lxor (N.lxor (rotr 6 e) (rotr 11 e)) (rotr 25 e) in
  let ch := N.lxor (N.land e f) (N.land (not32 e) g) in
  let t1 := w32 (h + s1 + ch + kw.1 + kw.2) in
  let s0 := N.lxor (N.lxor (rotr 2 a) (rotr 13 a)) (rotr 22 a) in
  let mj := N.lxor (N.lxor (N.land a b) (N.land a c)) (N.land b c) in
  H8 (add32 t1 (add32 s0 mj)) a b c (add32 d t1) e f g.

Definition sha256_block (v : h8) (block : list N) : h8 :=
  let w := rev (schedule sha256_next 48 (rev block)) in
  let '(H8 a b c d e f g h) := v in
  let '(H8 a' b' c' d' e' f' g' h') := foldl sha256_round v (zip sha256_k w) in
  H8 (add32 a a') (add32 b b') (add32 c c') (add32 d d')
     (add32 e e') (add32 f f') (add32 g g') (add32 h h').

Definition sha256_words (msg : list N) : list N :=
  let ws := words (pad msg) in
  let '(H8 a b c d e f g h) :=
    foldl sha256_block
      (let v i := nth i sha256_start 0 in H8 (v 0%nat) (v 1%nat) (v 2%nat) (v 3%nat) (v 4%nat) (v 5%nat) (v 6%nat) (v 7%nat))
      (blocks (length ws) ws) in
  [a; b; c; d; e; f; g; h].

(** ** SHA-1 *)

Definition sha1_next (w : list N) : N :=
  rotl 1 (N.lxor (N.lxor (nth 2 w 0) (nth 7 w 0)) (N.lxor (nth 13 w 0) (nth 15 w 0))).

Record h5 := H5 { h5a : N; h5b : N; h5c : N; h5d : N; h5e : N }.

Definition sha1_round (v : h5) (tw : nat * N) : h5 :=
  let '(H5 a b c d e) := v in
  let '(t, w) := tw in
  let '(f, k) :=
    if (t <? 20)%nat then (N.lxor (N.land b c) (N.land (not32 b) d), 0x5a827999)
    else if (t <? 40)%nat then (N.lxor (N.lxor b c) d, 0x6ed9eba1)
    else if (t <? 60)%nat then
      (N.lxor (N.lxor (N.land b c) (N.land b d)) (N.land c d), 0x8f1bbcdc)
    else (N.lxor (N.lxor b c) d, 0xca62c1d6) in
  H5 (w32 (rotl 5 a + f + e + k + w)) a (rotl 30 b) c d.

Definition sha1_block (v : h5) (block : list N) : h5 :=
  let w := rev (schedule sha1_next 64 (rev block)) in
  let '(H5 a b c d e) := v in
  let '(H5 a' b' c' d' e') := foldl sha1_round v (zip (seq 0 80) w) in
  H5 (add32 a a') (add32 b b') (add32 c c') (add32 d d') (add32 e e').

Definition sha1_words (msg : list N) : list N :=
  let ws := words (pad msg) in
  let '(H5 a b c d e) :=
    foldl sha1_block (H5 0x67452301 0xefcdab89 0x98badcfe 0x10325476 0xc3d2e1f0)
      (blocks (length ws) ws) in
  [a; b; c; d; e].

(** ** Hexadecimal digests *)

Definition hex_digit (n : N) : N := if n <? 10 then 48 + n else 87 + n.

Fixpoint hex_word (digits : nat) (x : N) : str :=
  match digits with
  | O => []
  | S n => hex_word n (x / 16) ++ [hex_digit (x mod 16)]
  end.

Definition hexdigest (ws : list N) : str := concat (map (hex_word 8) ws).
End Words.

(** [hashlib.sha256(s.encode("utf-8")).hexdigest()] *)
Definition sha256_hex (s : str) : str := hexdigest (sha256_words (utf8 s)).

(** [hashlib.sha1(s.encode("utf-8")).hexdigest()] *)
Definition sha1_hex (s : str) : str := hexdigest (sha1_words (utf8 s)).

(** ** Facts *)

Example sha256_abc :
  sha256_hex (u "abc") =
  u "ba7816bf8f01cfea414140de5dae2223b00361a396177a9cb410ff61f20015ad".
Proof. vm_compute. reflexivity. Qed.

Example sha256_two_blocks :
  sha256_hex (u "abcdbcdecdefdefgefghfghighijhijkijkljklmklmnlmnomnopnopq") =
  u "248d6a61d20638b8e5c026930c3e6039a33ce45964ff2167f6ecedd419db06c1".
Proof. vm_compute. reflexivity. Qed.

Example sha1_abc :
  sha1_hex (u "abc") = u "a9993e364706816aba3e25717850c26c9cd0d89d".
Proof. vm_compute. reflexivity. Qed.

Lemma hex_word_length n x : length (hex_word n x) = n.
Proof. revert x. induction n as [|n IH]; intros x; simpl; [done|]. rewrite length_app, IH. simpl. lia. Qed.

Lemma hexdigest_length ws : length (hexdigest ws) = (8 * length ws)%nat.
Proof.
  unfold hexdigest. induction ws as [|w ws IH]; [done|].
  cbn [map concat]. rewrite length_app, hex_word_length, IH. simpl. lia.
Qed.

Lemma sha256_hex_length s : length (sha256_hex s) = 64%nat.
Proof.
  unfold sha256_hex. rewrite hexdigest_length.
  unfold sha256_words. by destruct foldl.
Qed.

Lemma sha1_hex_length s : length (sha1_hex s) = 40%nat.
Proof.
  unfold sha1_hex. rewrite hexdigest_length.
  unfold sha1_words. by destruct foldl.
Qed.

(** A digest has only hexadecimal digits. *)
Definition hex_c (c : N) : bool := (PyText.between 48 c 57 || PyText.between 97 c 102)%N.

Lemma hex_digit_hex n : (n < 16)%N -> hex_c (hex_digit n) = true.
Proof.
  intros Hn. unfold hex_c, hex_digit, PyText.between. destruct (N.ltb_spec n 10%N).
  - rewrite (proj2 (N.leb_le 48%N _)), (proj2 (N.leb_le _ 57%N)) by lia. done.
  - rewrite (proj2 (N.leb_le 97%N _)), (proj2 (N.leb_le _ 102%N)) by lia. by rewrite orb_true_r.
Qed.

Lemma hex_word_hex n x : Forall (fun c => hex_c c = true) (hex_word n x).
Proof.
  revert x. induction n as [|n IH]; intros x; simpl; [constructor|].
  apply Forall_app. split; [done|]. constructor; [|constructor]. by apply hex_digit_hex, N.mod_lt.
Qed.

Lemma sha1_hex_hex s : Forall (fun c => hex_c c = true) (sha1_hex s).
Proof.
  unfold sha1_hex, hexdigest. induction (sha1_words (utf8 s)) as [|w ws IH]; [constructor|].
  cbn [map concat]. apply Forall_app. split; [apply hex_word_hex|done].
Qed.

#[global] Arguments sha256_hex : simpl never.
#[global] Arguments sha1_hex : simpl never.
