(* ===== verification/PyFloat.v ===== *)
(** * Python floats and timestamps

    A Python [float] is an IEEE-754 binary64 number; it is modelled by the
    executable [spec_float] of the standard library with 53 bits of precision,
    so every operation below rounds exactly as the interpreter does.

    A [datetime] is the number of microseconds since the Unix epoch (the code
    normalises every instant with [_utc] before using it, which does not move
    it), a [timedelta] a number of microseconds. *)

From S2P Require Import Prelude.
From stdpp Require Import base list numbers.
From Stdlib Require Import ZArith Lia SpecFloat.

#[local] Open Scope Z_scope.

Abbreviation float := spec_float.

#[global] Instance float_eq_dec : EqDecision float.
Proof. solve_decision. Defined.

Definition fl_of_Z (n : Z) : float := binary_normalize 53 1024 n 0 false.
Definition fl_add (x y : float) : float := SFadd 53 1024 x y.
Definition fl_sub (x y : float) : float := SFsub 53 1024 x y.
Definition fl_mul (x y : float) : float := SFmul 53 1024 x y.
Definition fl_div (x y : float) : float := SFdiv 53 1024 x y.

(** A decimal literal such as [0.85], as [fl_lit 85 100]. *)
Definition fl_lit (num den : Z) : float := fl_div (fl_of_Z num) (fl_of_Z den).

(** [x ** n] for a finite [x] and a small positive [n]: the exact power,
    rounded once (the C library's [pow] is within one unit of this). *)
Definition fl_pow (x : float) (n : positive) : float :=
  match x with
  | S754_finite s m e =>
      binary_round 53 1024 (s && negb (Z.even (Zpos n))) (Pos.pow m n) (e * Zpos n)
  | _ => x
  end.

Definition fl_ltb (x y : float) : bool := SFltb x y.
Definition fl_leb (x y : float) : bool := SFleb x y.

(** [min(x, y)] and [max(x, y)]: the first argument unless the second is
    strictly smaller (larger). *)
Definition fl_min (x y : float) : float := if fl_ltb y x then y else x.
Definition fl_max (x y : float) : float := if fl_ltb x y then y else x.

(** The exact value of a finite float as [n / 2 ^ k]. *)
Definition fl_frac (x : float) : Z * Z :=
  match x with
  | S754_finite s m e =>
      let n := (if s then - Zpos m else Zpos m)%Z in
      if (0 <=? e)%Z then (n * 2 ^ e, 0)%Z else (n, - e)%Z
  | _ => (0, 0)%Z
  end.

(** [int(x)], [math.floor(x)] and [round(x)] of a finite float. *)
Definition fl_trunc (x : float) : Z := let '(n, k) := fl_frac x in (n ÷ 2 ^ k)%Z.
Definition fl_floor (x : float) : Z := let '(n, k) := fl_frac x in (n / 2 ^ k)%Z.
Definition fl_round (x : float) : Z :=
  let '(n, k) := fl_frac x in
  let d := (2 ^ k)%Z in
  let q := (n / d)%Z in
  match (2 * (n - q * d) ?= d)%Z with
  | Lt => q
  | Gt => q + 1
  | Eq => if Z.even q then q else q + 1
  end.

(** ** Timestamps *)

(** [int(value.timestamp() * 1_000_000)]: [timestamp] divides the exact number
    of microseconds by [10**6] in floating point.  (A [datetime] of the years
    1685 to 2255 has fewer than 53 bits of microseconds.) *)
Definition micros (t : Z) : Z :=
  fl_trunc (fl_mul (fl_div (fl_of_Z t) (fl_of_Z 1000000)) (fl_of_Z 1000000)).

#[global] Arguments micros : simpl never.

(** [_micros] of an optional instant *)
Definition micros_opt (t : option Z) : option Z := micros <$> t.

(** [datetime.fromtimestamp(value / 1_000_000, tz=UTC)]: the whole seconds and the
    fraction of the quotient, the fraction rounded half to even to
    microseconds. *)
Definition from_micros (v : Z) : Z :=
  let d := fl_div (fl_of_Z v) (fl_of_Z 1000000) in
  let seconds := fl_trunc d in
  seconds * 1000000 + fl_round (fl_mul (fl_sub d (fl_of_Z seconds)) (fl_of_Z 1000000)).

#[global] Arguments from_micros : simpl never.

Example lit_example : fl_lit 85 100 = S754_finite false 7656119366529843 (-53).
Proof. vm_compute. reflexivity. Qed.

Example round_half_even :
  map fl_round [fl_lit 1 2; fl_lit 3 2; fl_lit 5 2; fl_lit (-1) 2; fl_lit 7 4] = [0; 2; 2; 0; 2].
Proof. vm_compute. reflexivity. Qed.

Example micros_2024 : micros 1720000000123457 = 1720000000123457.
Proof. vm_compute. reflexivity. Qed.

Example from_micros_2024 : from_micros 1720000000123457 = 1720000000123457.
Proof. vm_compute. reflexivity. Qed.
