(* ===== verification/PyJson.v ===== *)
(** * Decoded JSON and numbers

    The values of [json.loads], and the accesses the code makes of them.  An object
    is a dict, with the order of its keys; a number is an [int] or a [float].  Then
    [float(s)] and [int(s)] of a text and [timedelta] of a float. *)

From stdpp Require Import base strings list numbers.
From Stdlib Require Import ZArith Lia SpecFloat.
From S2P Require Import Prelude PyText PyFloat.

#[local] Open Scope Z_scope.

Inductive json :=
| JNull
| JBool (b : bool)
| JInt (n : Z)
| JFloat (x : float)
| JString (s : str)
| JArray (items : list json)
| JObject (fields : list (str * json)).

(** [d.get(key)] *)
Definition get_value (key : str) (fields : list (str * json)) : json := default JNull (od_get key fields).

(** [isinstance(value, str)] and [isinstance(value, dict)] of [d.get(key)] *)
Definition get_string (key : str) (fields : list (str * json)) : option str :=
  match od_get key fields with Some (JString s) => Some s | _ => None end.
Definition get_object (key : str) (fields : list (str * json)) : option (list (str * json)) :=
  match od_get key fields with Some (JObject f) => Some f | _ => None end.

(** ** Numbers as text, and durations given as floats *)

(** The float nearest to [num / den], for [0 <= num] and [0 < den]: the quotient with
    60 bits and a bit for the rest, rounded once. *)
Definition fl_ratio (negative : bool) (num den : Z) : float :=
  if num =? 0 then S754_zero negative
  else
    let shift := Z.max 0 (Z.log2 den - Z.log2 num + 60) in
    let q := num * 2 ^ shift / den in
    let m := 2 * q + (if num * 2 ^ shift mod den =? 0 then 0 else 1) in
    binary_normalize 53 1024 (if negative then - m else m) (- (shift + 1)) negative.

Section Texts.
Context {U : Unicode}.

(** Digits, with single underscores between them: their value, their number and
    the rest *)
Fixpoint digit_part (value : N) (count : Z) (s : str) : N * Z * str :=
  match s with
  | [] => (value, count, [])
  | c :: s' =>
      match decimal_c c with
      | Some d => digit_part (10 * value + d) (count + 1) s'
      | None =>
          match s' with
          | c' :: s'' =>
              match decimal_c c' with
              | Some d => if (c =? 95)%N && (0 <? count) then digit_part (10 * value + d) (count + 1) s'' else (value, count, s)
              | None => (value, count, s)
              end
          | [] => (value, count, s)
          end
      end
  end.

(** An optional sign: whether it is a minus, and the rest *)
Definition sign_of (s : str) : bool * str :=
  match s with 43%N :: s => (false, s) | 45%N :: s => (true, s) | _ => (false, s) end.

Definition is_char (cs : list N) (s : str) : option str :=
  match s with c :: s => if bool_decide (c ∈ cs) then Some s else None | [] => None end.

(** [value * 10 ** exponent]; beyond the exponents of a float without the power *)
Definition decimal_float (negative : bool) (value digits exponent : Z) : float :=
  if value =? 0 then S754_zero negative
  else if 400 <? digits + exponent then S754_infinity negative
  else if digits + exponent <? -400 then S754_zero negative
  else if 0 <=? exponent then fl_ratio negative (value * 10 ^ exponent) 1
  else fl_ratio negative value (10 ^ (- exponent)).

(** The finite number that is written in a text without blanks around it *)
Definition decimal_text (negative : bool) (s : str) : option float :=
  let '(whole, n, s) := digit_part 0 0 s in
  let '(value, digits, s) :=
    match is_char [46%N] s with
    | Some s => let '(v, k, s) := digit_part 0 0 s in ((whole * 10 ^ Z.to_N k + v)%N, k, s)
    | None => (whole, 0, s)
    end in
  if n + digits =? 0 then None
  else
    let number e := Some (decimal_float negative (Z.of_N value) (n + digits) (e - digits)) in
    match is_char [101%N; 69%N] s with
    | Some s =>
        let '(minus, s) := sign_of s in
        let '(e, k, s) := digit_part 0 0 s in
        if (k =? 0) || negb (bool_decide (s = [])) then None else number (if minus then - Z.of_N e else Z.of_N e)
    | None => if bool_decide (s = []) then number 0 else None
    end.

(** [float(s)]; [None] when it raises [ValueError]. *)
Definition float_of_text (s : str) : option float :=
  let '(negative, s) := sign_of (strip s) in
  if bool_decide (lower s ∈ [u "inf"; u "infinity"]) then Some (S754_infinity negative)
  else if bool_decide (lower s = u "nan") then Some S754_nan
  else decimal_text negative s.

(** [int(s)]; [None] when it raises [ValueError]. *)
Definition int_of_text (s : str) : option Z :=
  let '(negative, s) := sign_of (strip s) in
  let '(n, k, s) := digit_part 0 0 s in
  if (k =? 0) || negb (bool_decide (s = [])) || (Z.of_nat max_str_digits <? k) then None
  else Some (if negative then - Z.of_N n else Z.of_N n).
End Texts.

(** [math.isfinite] *)
Definition isfinite (x : float) : bool :=
  match x with S754_zero _ | S754_finite _ _ _ => true | _ => false end.

(** [math.ceil(x)] of a finite float *)
Definition fl_ceil (x : float) : Z := let '(n, k) := fl_frac x in - (- n / 2 ^ k).

(** [datetime.timestamp()]: the microseconds divided by a million *)
Definition timestamp_of (t : Z) : float := fl_ratio (t <? 0) (Z.abs t) 1000000.

(** ** Durations *)

(** The range of a [timedelta]: its days have at most nine digits. *)
Definition in_timedelta_range (us : Z) : bool :=
  (-999999999 * 86400000000 <=? us) && (us <? 1000000000 * 86400000000).

(** [timedelta(unit=x)] in microseconds, [factor] to the unit: the whole units
    exactly, the rest multiplied as a float and rounded half to even. *)
Definition timedelta_of (factor : Z) (x : float) : res Z :=
  if negb (isfinite x) then Raise (match x with S754_nan => ValueError | _ => OverflowError end)
  else
    let whole := fl_trunc x in
    let rest := fl_mul (fl_of_Z factor) (fl_sub x (fl_of_Z whole)) in
    let us := whole * factor + fl_round rest in
    if in_timedelta_range us then Ok us else Raise OverflowError.

Definition seconds_of : float -> res Z := timedelta_of 1000000.
Definition hours_of : float -> res Z := timedelta_of 3600000000.

Section Examples.
Example tenth : float_of_text (u " 0.1 ") = Some (fl_lit 1 10).
Proof. vm_compute. reflexivity. Qed.
Example grouped : float_of_text (u "-1_000.25e-3") = Some (fl_div (fl_of_Z (-100025)) (fl_of_Z 100000)).
Proof. vm_compute. reflexivity. Qed.
Example least_subnormal : float_of_text (u "5e-324") = Some (S754_finite false 1 (-1074)).
Proof. vm_compute. reflexivity. Qed.
Example half_of_it : float_of_text (u "2.4e-324") = Some (S754_zero false).
Proof. vm_compute. reflexivity. Qed.
Example overflow : float_of_text (u "1.8e308") = Some (S754_infinity false).
Proof. vm_compute. reflexivity. Qed.
Example greatest : float_of_text (u "1.7976931348623157e308") = Some (S754_finite false 9007199254740991 971).
Proof. vm_compute. reflexivity. Qed.
Example no_number : float_of_text (u "1__0") = None.
Proof. vm_compute. reflexivity. Qed.
Example an_integer : int_of_text (u " +1_0 ") = Some 10.
Proof. vm_compute. reflexivity. Qed.
Example six_hours : hours_of (fl_of_Z 6) = Ok 21600000000.
Proof. vm_compute. reflexivity. Qed.
Example a_third : seconds_of (fl_lit 1 3) = Ok 333333.
Proof. vm_compute. reflexivity. Qed.
End Examples.
