(* ===== verification/FloatRound.v ===== *)
(** * Rounding of binary64 arithmetic

    The operations of [PyFloat] are the executable ones of the standard library.
    Here is what is needed of their accuracy: a result with a full mantissa is the
    exact value rounded to 53 bits, half a unit in the last place away at most.
    From it, [micros] of an instant before the year 2112 is the instant or one
    microsecond less.  The ceiling of a quotient of integers in floats is that of the
    fraction as long as the dividend is below [2 ^ 51]. *)

From stdpp Require Import base list numbers.
From Stdlib Require Import ZArith Lia SpecFloat.
From S2P Require Import Prelude PyText PyFloat PyJson.

#[local] Open Scope Z_scope.

(** ** Mantissas *)

(** [num / den] is [m] and the fraction [l] tells. *)
Definition inbetween (m : Z) (l : location) (num den : Z) : Prop :=
  match l with
  | loc_Exact => num = m * den
  | loc_Inexact Lt => m * den < num /\ 2 * num < (2 * m + 1) * den
  | loc_Inexact Eq => 2 * num = (2 * m + 1) * den
  | loc_Inexact Gt => (2 * m + 1) * den < 2 * num /\ num < (m + 1) * den
  end.

Definition tells (r : shr_record) (num den : Z) : Prop := inbetween (shr_m r) (loc_of_shr_record r) num den.

Lemma shr_1_tells r num den : 0 <= shr_m r -> 0 < den -> tells r num den ->
  tells (shr_1 r) num (2 * den) /\ shr_m (shr_1 r) = shr_m r / 2.
Proof.
  destruct r as [m b c]. unfold tells. cbn. intros Hm Hden H. split.
  - destruct m as [|[p|p|]|p]; [| | | |lia]; destruct b, c; cbn in H |- *; lia.
  - destruct m as [|[p|p|]|p]; [done| | |done|lia]; cbn.
    + rewrite (Pos2Z.inj_xI p). apply Z.div_unique with 1; lia.
    + rewrite (Pos2Z.inj_xO p). apply Z.div_unique with 0; lia.
Qed.

Lemma iter_pos_nat {A} (f : A -> A) n : forall x, iter_pos f n x = Nat.iter (Pos.to_nat n) f x.
Proof.
  induction n as [n IH|n IH|]; intros x; cbn [iter_pos]; [| |done].
  - rewrite !IH, Pos2Nat.inj_xI, <-Nat.iter_add. replace (S (2 * Pos.to_nat n)) with ((Pos.to_nat n + Pos.to_nat n) + 1)%nat by lia.
    rewrite (Nat.iter_add _ 1). reflexivity.
  - rewrite !IH, Pos2Nat.inj_xO, <-Nat.iter_add. f_equal. lia.
Qed.

Lemma shr_steps_tells n r num den : 0 <= shr_m r -> 0 < den -> tells r num den ->
  let r' := Nat.iter n shr_1 r in tells r' num (2 ^ Z.of_nat n * den) /\ shr_m r' = shr_m r / 2 ^ Z.of_nat n.
Proof.
  intros Hm Hden H. cbv zeta. induction n as [|n IH]; [|change (Nat.iter (S n) shr_1 r) with (shr_1 (Nat.iter n shr_1 r))].
  - change (2 ^ Z.of_nat 0) with 1. rewrite Z.div_1_r. split; [|done]. by rewrite Z.mul_1_l.
  - destruct IH as [IH1 IH2]. rewrite Nat2Z.inj_succ, Z.pow_succ_r by lia. set (r' := Nat.iter n shr_1 r) in *.
    assert (0 < 2 ^ Z.of_nat n) by (apply Z.pow_pos_nonneg; lia).
    destruct (shr_1_tells r' num (2 ^ Z.of_nat n * den)) as [T E]; [rewrite IH2; apply Z.div_pos; lia|nia|done|].
    rewrite Z.mul_assoc in T. split; [done|]. rewrite E, IH2, Z.div_div by lia. f_equal. lia.
Qed.

Lemma tells_of_loc m l num den : inbetween m l num den -> tells (shr_record_of_loc m l) num den /\ shr_m (shr_record_of_loc m l) = m.
Proof. destruct l as [|[]]; done. Qed.

(** Rounding to the nearest integer. *)
Lemma round_nearest_near m l num den : 0 < den -> inbetween m l num den ->
  Z.abs (2 * (round_nearest_even m l * den) - 2 * num) <= den /\ m <= round_nearest_even m l <= m + 1.
Proof.
  intros Hden H. destruct l as [|[]]; cbn in *; [lia| |lia|lia]. destruct (Z.even m); lia.
Qed.

(** ** Digits *)

Lemma digits_bound m : 2 ^ (Zpos (digits2_pos m) - 1) <= Zpos m < 2 ^ Zpos (digits2_pos m).
Proof.
  induction m as [m IH|m IH|]; cbn [digits2_pos]; [| |cbn; lia].
  all: rewrite Pos2Z.inj_succ; replace (Z.succ (Zpos (digits2_pos m)) - 1) with (Z.succ (Zpos (digits2_pos m) - 1)) by lia.
  all: rewrite !Z.pow_succ_r by lia; lia.
Qed.

Lemma digits_unique m d : 0 < d -> 2 ^ (d - 1) <= Zpos m < 2 ^ d -> Zpos (digits2_pos m) = d.
Proof.
  intros Hd Hm. pose proof (digits_bound m) as Hb. set (k := Zpos (digits2_pos m)) in *.
  assert (0 < k) by (unfold k; lia).
  destruct (Z.lt_trichotomy k d) as [H1|[H1|H1]]; [|done|].
  - assert (2 ^ k <= 2 ^ (d - 1)) by (apply Z.pow_le_mono_r; lia). lia.
  - assert (2 ^ d <= 2 ^ (k - 1)) by (apply Z.pow_le_mono_r; lia). lia.
Qed.

(** ** Rounding to 53 bits *)

Lemma fexp_normal e : -1074 <= e - 53 -> fexp 53 1024 e = e - 53.
Proof. intros He. unfold fexp, emin. lia. Qed.

(** A result with a full mantissa, in the normal range: the exact value [num / den]
    in units of [2 ^ k], rounded to [r]; when [r] is [2 ^ 53] it is renormalised. *)
Lemma round_aux_spec mx ex lx num den : 0 < den -> inbetween (Zpos mx) lx num den ->
  let k := Zpos (digits2_pos mx) - 53 in
  0 <= k -> -1074 <= ex + k -> ex + k < 971 ->
  exists m e r, binary_round_aux 53 1024 false (Zpos mx) ex lx = S754_finite false m e /\
    2 ^ 52 <= r <= 2 ^ 53 /\ Z.abs (2 * (r * (2 ^ k * den)) - 2 * num) <= 2 ^ k * den /\
    (Zpos m = r /\ e = ex + k \/ Zpos m = 2 ^ 52 /\ r = 2 ^ 53 /\ e = ex + k + 1).
Proof.
  intros Hden H k Hk He1 He2. unfold binary_round_aux, shr_fexp.
  destruct (tells_of_loc _ _ _ _ H) as [T Em]. set (r0 := shr_record_of_loc (Zpos mx) lx) in *.
  change (Zdigits2 (Zpos mx)) with (Zpos (digits2_pos mx)).
  rewrite fexp_normal by lia. replace (Zpos (digits2_pos mx) + ex - 53 - ex) with k by (unfold k; lia).
  assert (Hs : exists r1, shr r0 ex k = (r1, ex + k) /\ tells r1 num (2 ^ k * den) /\ shr_m r1 = Zpos mx / 2 ^ k).
  { unfold shr. destruct k as [|p|p] eqn:Ek; [|  |lia].
    - exists r0. rewrite Z.add_0_r. split; [done|]. rewrite Z.pow_0_r, Z.mul_1_l, Z.div_1_r. done.
    - exists (iter_pos shr_1 p r0). split; [done|]. rewrite iter_pos_nat.
      destruct (shr_steps_tells (Pos.to_nat p) r0 num den) as [T1 E1]; [lia|done|done|].
      rewrite positive_nat_Z in T1, E1. rewrite Em in E1. done. }
  destruct Hs as (r1 & -> & T1 & E1). assert (H2k : 0 < 2 ^ k) by (apply Z.pow_pos_nonneg; lia).
  destruct (round_nearest_near _ _ num (2 ^ k * den) ltac:(nia) T1) as [Hnear Hle].
  set (r := round_nearest_even (shr_m r1) (loc_of_shr_record r1)) in *.
  assert (Hm1 : 2 ^ 52 <= shr_m r1 < 2 ^ 53).
  { rewrite E1. pose proof (digits_bound mx) as [D1 D2]. split.
    - apply Z.div_le_lower_bound; [done|]. rewrite <-Z.pow_add_r by lia. replace (k + 52) with (Zpos (digits2_pos mx) - 1) by (unfold k; lia). done.
    - apply Z.div_lt_upper_bound; [done|]. rewrite <-Z.pow_add_r by lia. replace (k + 53) with (Zpos (digits2_pos mx)) by (unfold k; lia). done. }
  assert (Hr : 2 ^ 52 <= r <= 2 ^ 53) by lia.
  destruct r as [|m|m] eqn:Er; [lia| |lia]. cbn [shr_record_of_loc].
  change (Zdigits2 (Zpos m)) with (Zpos (digits2_pos m)).
  destruct (decide (Zpos m = 2 ^ 53)) as [Hc|Hc].
  - rewrite (digits_unique m 54) by (rewrite ?Hc; lia). rewrite fexp_normal by lia.
    replace (54 + (ex + k) - 53 - (ex + k)) with 1 by lia. cbn [shr iter_pos shr_1].
    assert (m = 9007199254740992%positive) as -> by (apply (inj Zpos); rewrite Hc; reflexivity). cbn [shr_m shr_record_of_loc shr_1].
    rewrite (proj2 (Z.leb_le _ _)) by lia. exists 4503599627370496%positive, (ex + k + 1), 9007199254740992. split; [done|].
    split; [done|]. split; [exact Hnear|]. by right.
  - rewrite (digits_unique m 53) by lia. rewrite fexp_normal by lia.
    replace (53 + (ex + k) - 53 - (ex + k)) with 0 by lia. cbn [shr shr_m].
    rewrite (proj2 (Z.leb_le _ _)) by lia. exists m, (ex + k), (Zpos m). split; [done|]. split; [lia|]. split; [exact Hnear|]. by left.
Qed.

(** ** Timestamps *)

(** An integer below [2 ^ 53] is a float. *)
Lemma fl_of_pos t : 0 < t < 2 ^ 53 -> exists m e, fl_of_Z t = S754_finite false m e /\ -52 <= e <= 0 /\
  2 ^ 52 <= Zpos m < 2 ^ 53 /\ Zpos m = t * 2 ^ (- e) /\ (t < 2 ^ 52 -> e < 0).
Proof.
  intros Ht. destruct t as [|p|p]; [lia| |lia]. unfold fl_of_Z, binary_normalize, binary_round.
  pose proof (digits_bound p) as Hd. set (d := Zpos (digits2_pos p)) in *. assert (Hd0 : 0 < d) by (unfold d; lia).
  assert (Hd53 : d <= 53).
  { destruct (Z.le_gt_cases d 53) as [|Hgt]; [done|]. exfalso. assert (2 ^ 53 <= 2 ^ (d - 1)) by (apply Z.pow_le_mono_r; lia). lia. }
  rewrite fexp_normal by lia. rewrite Z.add_0_r. set (e := d - 53).
  assert (Hmz : exists m, shl_align p 0 e = (m, e) /\ Zpos m = Zpos p * 2 ^ (- e)).
  { unfold shl_align. destruct (e - 0) as [|q|q] eqn:Eq; [|lia|].
    - exists p. replace e with 0 by lia. split; [done|]. rewrite Z.pow_0_r. lia.
    - exists (Pos.iter xO p q). split; [done|]. replace (- e) with (Zpos q) by lia. clear.
      induction q as [|q IH] using Pos.peano_ind; [cbn; lia|]. rewrite Pos.iter_succ, Pos2Z.inj_succ, Z.pow_succ_r by lia.
      rewrite Pos2Z.inj_xO, IH. lia. }
  destruct Hmz as (m & -> & Em).
  assert (Hm : 2 ^ 52 <= Zpos m < 2 ^ 53).
  { rewrite Em. replace (2 ^ 52) with (2 ^ (d - 1) * 2 ^ (- e)) by (rewrite <-Z.pow_add_r by lia; f_equal; lia).
    replace (2 ^ 53) with (2 ^ d * 2 ^ (- e)) by (rewrite <-Z.pow_add_r by lia; f_equal; lia).
    assert (0 < 2 ^ (- e)) by (apply Z.pow_pos_nonneg; lia). nia. }
  assert (Ed : Zpos (digits2_pos m) = 53) by (by apply digits_unique).
  destruct (round_aux_spec m e loc_Exact (Zpos m) 1) as (m' & e' & r & -> & Hr & Hn & Hc); [lia|cbn; lia|lia|lia|lia|].
  rewrite Ed in Hn, Hc. cbn in Hn. exists m', e'. assert (r = Zpos m) by lia.
  destruct Hc as [[E1 E2]|(_ & E1 & _)]; [|lia]. assert (m' = m) as -> by lia. replace e' with e by lia.
  split; [done|]. split; [lia|]. split; [done|]. split; [done|]. intros Hlt.
  destruct (Z.lt_ge_cases e 0) as [|Hge]; [done|]. exfalso. replace e with 0 in Em by lia. cbn in Em. lia.
Qed.

Lemma million : fl_of_Z 1000000 = S754_finite false 8589934592000000 (-33).
Proof. vm_compute. reflexivity. Qed.

(** The quotient by a million, as [q / 2 ^ a]. *)
Lemma fl_div_million t : 0 < t < 2 ^ 52 -> exists m e q a,
  fl_div (fl_of_Z t) (fl_of_Z 1000000) = S754_finite false m e /\ 20 <= a <= 75 /\ 2 ^ 52 <= q <= 2 ^ 53 /\
  Z.abs (2 * (q * 1000000) - 2 * (t * 2 ^ a)) <= 1000000 /\
  (Zpos m = q /\ e = - a \/ Zpos m = 2 ^ 52 /\ q = 2 ^ 53 /\ e = - a + 1).
Proof.
  intros Ht. destruct (fl_of_pos t ltac:(lia)) as (mt & et & -> & He & Hmt & Emt & Het). specialize (Het ltac:(lia)). rewrite million.
  unfold fl_div, SFdiv, SFdiv_core_binary.
  change (Zdigits2 (Zpos mt)) with (Zpos (digits2_pos mt)). rewrite (digits_unique mt 53) by lia.
  change (Zdigits2 8589934592000000) with 53. rewrite fexp_normal by lia.
  replace (Z.min (53 + et - (53 + -33) - 53) (et - -33)) with (et - 20) by lia.
  replace (et - -33 - (et - 20)) with 53 by lia. rewrite Z.shiftl_mul_pow2 by lia.
  set (num := Zpos mt * 2 ^ 53). set (den := 8589934592000000).
  pose proof (Z_div_mod num den ltac:(unfold den; lia)) as Hdm.
  destruct (Z.div_eucl num den) as [q r] eqn:Eq. destruct Hdm as [Hnum Hr].
  assert (Hq : 2 ^ 52 < q < 2 ^ 54) by (unfold num, den in *; lia).
  assert (Hin : inbetween q (new_location den r) num den).
  { unfold new_location. change (Z.even den) with true. unfold new_location_even. destruct (Z.eqb_spec r 0) as [->|Hr0]; [cbn; lia|].
    unfold den in *. destruct (Z.compare_spec (2 * r) 8589934592000000); cbn; lia. }
  destruct q as [|mq|mq]; [lia| |lia]. cbn [xorb].
  assert (Hd : 0 <= Zpos (digits2_pos mq) - 53 <= 1).
  { pose proof (digits_bound mq) as Hb. set (d := Zpos (digits2_pos mq)) in *. split.
    - destruct (Z.le_gt_cases 53 d) as [|Hlt]; [lia|]. exfalso. assert (2 ^ d <= 2 ^ 52) by (apply Z.pow_le_mono_r; lia). lia.
    - destruct (Z.le_gt_cases d 54) as [|Hgt]; [lia|]. exfalso. assert (2 ^ 54 <= 2 ^ (d - 1)) by (apply Z.pow_le_mono_r; lia). lia. }
  set (k := Zpos (digits2_pos mq) - 53) in *.
  destruct (round_aux_spec mq (et - 20) (new_location den r) num den) as (m & e & q & -> & Hr1 & Hn & Hc);
    [unfold den; lia|done|lia|lia|lia|]. fold k in Hn, Hc.
  exists m, e, q, (20 - et - k). split; [done|]. split; [lia|]. split; [done|]. split.
  - replace (20 - et - k) with ((- et) + (20 - k)) by lia. rewrite Z.pow_add_r by lia.
    assert (E2 : 2 ^ 20 = 2 ^ k * 2 ^ (20 - k)) by (rewrite <-Z.pow_add_r by lia; f_equal; lia).
    assert (0 < 2 ^ k) by (apply Z.pow_pos_nonneg; lia).
    unfold num, den in Hn. rewrite Emt in Hn. set (w := t * 2 ^ (- et)) in *. rewrite (Z.mul_assoc t). fold w.
    replace (w * 2 ^ 53) with (w * (2 ^ k * 2 ^ (20 - k)) * 2 ^ 33) in Hn by (rewrite <-E2; lia).
    set (z := 2 ^ (20 - k)) in *. set (y := 2 ^ k) in *. change (2 ^ 33) with 8589934592 in Hn. nia.
  - destruct Hc as [[? ?]|(? & ? & ?)]; [left|right]; lia.
Qed.

Lemma trunc_finite m e : e <= 0 -> fl_trunc (S754_finite false m e) = Zpos m / 2 ^ (- e).
Proof.
  intros He. unfold fl_trunc, fl_frac. destruct (Z.leb_spec 0 e) as [Hz|Hz].
  - assert (e = 0) as -> by lia. rewrite Z.quot_div_nonneg by lia. f_equal. lia.
  - apply Z.quot_div_nonneg; [lia|]. apply Z.pow_pos_nonneg; lia.
Qed.

Lemma abs_scale b x y : 0 <= b -> Z.abs x <= y -> Z.abs (x * b) <= y * b.
Proof. intros Hb Hxy. rewrite Z.abs_mul, (Z.abs_eq b) by done. by apply Z.mul_le_mono_nonneg_r. Qed.

(** A stored timestamp: [_micros] of an instant before 2112 is the instant or one
    microsecond less. *)
Lemma micros_near t : 0 <= t < 2 ^ 52 -> t - 1 <= micros t <= t.
Proof.
  intros Ht. destruct (decide (t = 0)) as [->|H0]; [vm_compute; split; discriminate|].
  destruct (fl_div_million t ltac:(lia)) as (m & e & q & a & Ediv & Ha & Hq & Hn & Hc).
  unfold micros. rewrite Ediv, million. unfold fl_mul, SFmul. cbn [xorb].
  assert (HA : 2 ^ 20 <= 2 ^ a) by (apply Z.pow_le_mono_r; lia). set (A := 2 ^ a) in *.
  set (P := (m * 8589934592000000)%positive).
  assert (Hm : 2 ^ 52 <= Zpos m <= 2 ^ 53) by lia.
  assert (Hd : 105 <= Zpos (digits2_pos P) <= 107).
  { pose proof (digits_bound P) as Hb. set (d := Zpos (digits2_pos P)) in *.
    assert (HP : 2 ^ 104 <= Zpos P < 2 ^ 107) by (unfold P; rewrite Pos2Z.inj_mul; nia). split.
    - destruct (Z.le_gt_cases 105 d) as [|Hlt]; [lia|]. exfalso. assert (2 ^ d <= 2 ^ 104) by (apply Z.pow_le_mono_r; lia). lia.
    - destruct (Z.le_gt_cases d 107) as [|Hgt]; [lia|]. exfalso. assert (2 ^ 107 <= 2 ^ (d - 1)) by (apply Z.pow_le_mono_r; lia). lia. }
  set (k := Zpos (digits2_pos P) - 53) in *.
  destruct (round_aux_spec P (e + -33) loc_Exact (Zpos P) 1) as (m2 & e2 & r & -> & Hr & Hn2 & Hc2); [lia|cbn; lia|lia|lia|lia|].
  fold k in Hn2, Hc2. rewrite !Z.mul_1_r in Hn2.
  set (s := if decide (Zpos m = q) then 0 else 1).
  assert (Hs : e = - a + s /\ Zpos m * 2 ^ s = q).
  { unfold s. destruct (decide _) as [Hd0|Hd0]; [|lia]. destruct Hc as [?|(? & ? & ?)]; lia. }
  destruct Hs as [He Hms].
  (* [b] is the negated exponent of the product before renormalisation. *)
  set (b := a - s + 33 - k).
  assert (Hs01 : 0 <= s <= 1) by (unfold s; destruct (decide _); lia).
  assert (HK : 0 < 2 ^ k) by (apply Z.pow_pos_nonneg; lia).
  assert (Hqt : q * 1000000 * 2 <= 2 * t * A + 1000000) by lia.
  assert (HP : Zpos P * 2 ^ s = q * 1000000 * 2 ^ 33).
  { unfold P. rewrite Pos2Z.inj_mul, <-Hms. lia. }
  assert (Hnear : Z.abs (2 * (r * (2 ^ k * 2 ^ s)) - 2 * (q * 1000000 * 2 ^ 33)) <= 2 ^ k * 2 ^ s).
  { assert (0 < 2 ^ s) by (apply Z.pow_pos_nonneg; lia). rewrite <-HP. set (y := 2 ^ k) in *. set (z := 2 ^ s) in *. nia. }
  assert (Hks : 2 ^ k * 2 ^ s = 2 ^ (a + 33 - b)) by (rewrite <-Z.pow_add_r by lia; f_equal; unfold b; lia).
  rewrite Hks in Hnear.
  assert (Hb : 1 <= b).
  { destruct (Z.le_gt_cases 1 b) as [|Hb0]; [done|]. exfalso.
    assert (HKA : A * 2 ^ 33 <= 2 ^ (a + 33 - b)) by (unfold A; rewrite <-Z.pow_add_r by lia; apply Z.pow_le_mono_r; lia).
    set (w := 2 ^ (a + 33 - b)) in *. change (2 ^ 33) with 8589934592 in *. nia. }
  assert (HB : 2 <= 2 ^ b) by (change 2 with (2 ^ 1) at 1; apply Z.pow_le_mono_r; lia).
  assert (HBw : 2 ^ (a + 33 - b) * 2 ^ b = A * 2 ^ 33) by (unfold A; rewrite <-!Z.pow_add_r by (unfold b in *; lia); f_equal; lia).
  assert (Hfin : t - 1 <= r / 2 ^ b <= t).
  { set (B := 2 ^ b) in *. set (w := 2 ^ (a + 33 - b)) in *. change (2 ^ 33) with 8589934592 in *.
    assert (H1 : Z.abs (2 * (r * A) - 2 * (q * 1000000 * B)) <= A).
    { apply (abs_scale B) in Hnear; [|lia]. rewrite HBw in Hnear.
      replace ((2 * (r * w) - 2 * (q * 1000000 * 8589934592)) * B) with (2 * (r * (w * B)) - 2 * (q * 1000000 * B) * 8589934592) in Hnear by ring.
      rewrite HBw in Hnear. lia. }
    assert (H2 : Z.abs (2 * (q * 1000000 * B) - 2 * (t * A * B)) <= 1000000 * B).
    { apply (abs_scale B) in Hn; [|lia]. lia. }
    assert (H3 : Z.abs (2 * (r * A) - 2 * (t * A * B)) <= A + 1000000 * B) by lia.
    assert (H4 : (t - 1) * B < r < (t + 1) * B).
    { assert (G1 : 2 * A <= A * B) by (rewrite Z.mul_comm; apply Z.mul_le_mono_nonneg_l; lia).
      assert (G2 : 1048576 * B <= A * B) by (apply Z.mul_le_mono_nonneg_r; lia).
      assert (G3 : Z.abs (r - t * B) * A < B * A).
      { rewrite <-(Z.abs_eq A) at 1 by lia. rewrite <-Z.abs_mul. replace ((r - t * B) * A) with (r * A - t * A * B) by ring. lia. }
      apply Z.mul_lt_mono_pos_r in G3; lia. }
    split; [apply Z.div_le_lower_bound; lia|]. apply Z.lt_succ_r, Z.div_lt_upper_bound; lia. }
  destruct Hc2 as [[E1 E2]|(E1 & E3 & E2)].
  - rewrite trunc_finite by (unfold b in *; lia). rewrite E1. replace (- e2) with b by (unfold b; lia). exact Hfin.
  - rewrite trunc_finite by (unfold b in *; lia). replace (- e2) with (b - 1) by (unfold b; lia).
    rewrite E1. rewrite E3 in Hfin. replace (2 ^ 52 / 2 ^ (b - 1)) with (2 ^ 53 / 2 ^ b); [exact Hfin|].
    replace b with (Z.succ (b - 1)) at 1 by lia. rewrite Z.pow_succ_r by lia.
    change (2 ^ 53) with (2 * 2 ^ 52). apply Z.div_mul_cancel_l; [|lia]. assert (0 < 2 ^ (b - 1)) by (apply Z.pow_pos_nonneg; lia). lia.
Qed.

Lemma micros_mono s t : 0 <= s -> s <= t -> t < 2 ^ 52 -> micros s <= micros t.
Proof.
  intros H0 Hle Hlt. destruct (decide (s = t)) as [->|]; [done|].
  pose proof (micros_near s ltac:(lia)). pose proof (micros_near t ltac:(lia)). lia.
Qed.

(** What a timestamp loses in the database: [_micros], which goes through a
    double, yields the instant or one microsecond less, for every instant up to the
    year 2112, and never reorders two instants. *)
Theorem stored_timestamp_bounds s t : 0 <= s <= t -> t < 2 ^ 52 ->
  t - 1 <= micros t <= t /\ micros s <= micros t.
Proof. intros Hs Ht. split; [apply micros_near; lia|apply micros_mono; lia]. Qed.

(** In 2040 the microsecond is lost. *)
Lemma stored_timestamp_bounds_witness : micros 2234584346000003 = 2234584346000002 /\
  micros 2234584346000002 <= micros 2234584346000003.
Proof.
  split; [vm_compute; reflexivity|].
  apply (stored_timestamp_bounds 2234584346000002 2234584346000003); [split; discriminate|reflexivity].
Defined.

(** ** Division of integers as floats *)

Lemma new_location_between q r den num : 0 < den -> num = q * den + r -> 0 <= r < den -> inbetween q (new_location den r) num den.
Proof.
  intros Hden -> Hr. unfold new_location. destruct (Z.even den) eqn:Ee.
  - unfold new_location_even. destruct (Z.eqb_spec r 0) as [->|Hr0]; [cbn; lia|].
    destruct (Z.compare_spec (2 * r) den); cbn; lia.
  - unfold new_location_odd. destruct (Z.eqb_spec r 0) as [->|Hr0]; [cbn; lia|].
    assert (Ho : Z.odd den = true) by (rewrite <-Z.negb_even, Ee; done). apply Z.odd_spec in Ho as [h Hh].
    destruct (Z.compare_spec (2 * r + 1) den); cbn; lia.
Qed.

(** The quotient, as [q / 2 ^ a] *)
Lemma fl_div_pos n d : 0 < n < 2 ^ 52 -> 0 < d < 2 ^ 52 -> exists m e q a,
  fl_div (fl_of_Z n) (fl_of_Z d) = S754_finite false m e /\ 0 <= a /\ 2 ^ 52 <= q <= 2 ^ 53 /\
  Z.abs (2 * (q * d) - 2 * (n * 2 ^ a)) <= d /\
  (Zpos m = q /\ e = - a \/ Zpos m = 2 ^ 52 /\ q = 2 ^ 53 /\ e = - a + 1).
Proof.
  intros Hn Hd. destruct (fl_of_pos n ltac:(lia)) as (mn & en & -> & Hen & Hmn & Emn & Hne). specialize (Hne ltac:(lia)).
  destruct (fl_of_pos d ltac:(lia)) as (md & ed & -> & Hed & Hmd & Emd & Hde). specialize (Hde ltac:(lia)).
  unfold fl_div, SFdiv, SFdiv_core_binary.
  change (Zdigits2 (Zpos mn)) with (Zpos (digits2_pos mn)). change (Zdigits2 (Zpos md)) with (Zpos (digits2_pos md)).
  rewrite (digits_unique mn 53), (digits_unique md 53) by lia. rewrite fexp_normal by lia.
  replace (Z.min (53 + en - (53 + ed) - 53) (en - ed)) with (en - ed - 53) by lia.
  replace (en - ed - (en - ed - 53)) with 53 by lia. rewrite Z.shiftl_mul_pow2 by lia.
  set (num := Zpos mn * 2 ^ 53). set (den := Zpos md).
  pose proof (Z_div_mod num den ltac:(unfold den; lia)) as Hdm.
  destruct (Z.div_eucl num den) as [q r] eqn:Eq. destruct Hdm as [Hnum Hr].
  assert (Hq : 2 ^ 52 <= q < 2 ^ 54).
  { unfold num, den in *. clear Eq. change (2 ^ 53) with 9007199254740992 in *. change (2 ^ 52) with 4503599627370496 in *.
    change (2 ^ 54) with 18014398509481984. split; nia. }
  assert (Hin : inbetween q (new_location den r) num den) by (apply new_location_between; unfold den in *; lia).
  destruct q as [|mq|mq]; [lia| |lia]. cbn [xorb].
  assert (Hdg : 0 <= Zpos (digits2_pos mq) - 53 <= 1).
  { pose proof (digits_bound mq) as Hb. set (x := Zpos (digits2_pos mq)) in *. split.
    - destruct (Z.le_gt_cases 53 x) as [|Hlt]; [lia|]. exfalso. assert (2 ^ x <= 2 ^ 52) by (apply Z.pow_le_mono_r; lia). lia.
    - destruct (Z.le_gt_cases x 54) as [|Hgt]; [lia|]. exfalso. assert (2 ^ 54 <= 2 ^ (x - 1)) by (apply Z.pow_le_mono_r; lia). lia. }
  set (k := Zpos (digits2_pos mq) - 53) in *.
  destruct (round_aux_spec mq (en - ed - 53) (new_location den r) num den) as (m & e & q & -> & Hr1 & Hnear & Hc);
    [unfold den; lia|done|lia|lia|lia|]. fold k in Hnear, Hc.
  set (a := 53 + ed - en - k).
  assert (Ha : Z.abs (2 * (q * d) - 2 * (n * 2 ^ a)) <= d \/ a < 0).
  { destruct (Z.lt_ge_cases a 0) as [|Ha]; [by right|left].
    unfold num, den in Hnear. rewrite Emn, Emd in Hnear.
    assert (E : n * 2 ^ (- en) * 2 ^ 53 = n * 2 ^ a * (2 ^ k * 2 ^ (- ed))).
    { rewrite <-!Z.mul_assoc. f_equal. rewrite <-!Z.pow_add_r by lia. f_equal. unfold a. lia. }
    rewrite E in Hnear. assert (0 < 2 ^ k * 2 ^ (- ed)) by (apply Z.mul_pos_pos; apply Z.pow_pos_nonneg; lia).
    replace (2 ^ k * (d * 2 ^ (- ed))) with (d * (2 ^ k * 2 ^ (- ed))) in Hnear by lia.
    set (w := 2 ^ k * 2 ^ (- ed)) in *. set (z := n * 2 ^ a) in *. nia. }
  assert (Ha0 : 0 <= a).
  { destruct (Z.lt_ge_cases a 0) as [Hneg|]; [|done]. exfalso. unfold num, den in Hnear. rewrite Emn, Emd in Hnear.
    assert (E : 2 ^ k * (d * 2 ^ (- ed)) = d * (2 ^ (- en) * 2 ^ 53 * 2 ^ (- a))).
    { rewrite (Z.mul_comm (2 ^ k)), <-Z.mul_assoc. f_equal. rewrite <-!Z.pow_add_r by lia. f_equal. unfold a. lia. }
    rewrite E in Hnear. assert (2 ^ 1 <= 2 ^ (- a)) by (apply Z.pow_le_mono_r; lia). change (2 ^ 1) with 2 in *.
    assert (0 < 2 ^ (- en) * 2 ^ 53) by (apply Z.mul_pos_pos; apply Z.pow_pos_nonneg; lia).
    rewrite <-(Z.mul_assoc n) in Hnear. set (w := 2 ^ (- en) * 2 ^ 53) in *. set (x := 2 ^ (- a)) in *. clearbody w x. clear E. nia. }
  destruct Ha as [Ha|?]; [|lia]. exists m, e, q, a. split; [done|]. split; [done|]. split; [done|]. split; [done|].
  destruct Hc as [[? ?]|(? & ? & ?)]; [left|right]; unfold a; lia.
Qed.

(** [math.ceil(n / d)] *)
Lemma ceil_of_quotient n d : 0 <= n < 2 ^ 51 -> 0 < d < 2 ^ 51 -> fl_ceil (fl_div (fl_of_Z n) (fl_of_Z d)) = - (- n / d).
Proof.
  intros Hn Hd. destruct (Z.eq_dec n 0) as [->|Hn0].
  { destruct (fl_of_pos d ltac:(lia)) as (md & ed & -> & _). reflexivity. }
  destruct (fl_div_pos n d ltac:(lia) ltac:(lia)) as (m & e & q & a & -> & Ha & Hq & Hnear & Hc).
  assert (Hx : fl_ceil (S754_finite false m e) = - (- q / 2 ^ a)).
  { unfold fl_ceil, fl_frac. destruct Hc as [[-> ->]|(-> & -> & ->)].
    - destruct (Z.leb_spec 0 (- a)) as [Hz|Hz]; [|by rewrite Z.opp_involutive].
      assert (a = 0) as -> by lia. cbn -[Z.div]. rewrite !Z.div_1_r. lia.
    - destruct (Z.leb_spec 0 (- a + 1)) as [Hz|Hz].
      + assert (a = 0 \/ a = 1) as [-> | ->] by lia; vm_compute; reflexivity.
      + replace (- (- a + 1)) with (a - 1) by lia. f_equal. replace (2 ^ a) with (2 * 2 ^ (a - 1)).
        2: { rewrite <-Z.pow_succ_r by lia. f_equal. lia. }
        change (2 ^ 53) with (2 * 2 ^ 52). rewrite <-Z.mul_opp_r. rewrite Z.div_mul_cancel_l; [done| |lia].
        apply Z.pow_nonzero; lia. }
  rewrite Hx. set (p := 2 ^ a) in *. assert (Hp : 0 < p) by (apply Z.pow_pos_nonneg; lia). clearbody p. clear Hx Hc.
  pose proof (Z.div_mod (- n) d ltac:(lia)) as Edm. pose proof (Z.mod_pos_bound (- n) d ltac:(lia)) as Hm.
  set (c := - (- n / d)) in *. replace (- n / d) with (- c) in Edm by lia.
  assert (Hpd : d < 2 * p) by nia.
  assert (Hup : q <= c * p) by nia. assert (Hlo : (c - 1) * p < q) by nia.
  clear - Hup Hlo Hp. pose proof (Z.div_mod (- q) p ltac:(lia)) as E. pose proof (Z.mod_pos_bound (- q) p ltac:(lia)).
  set (x := - q / p) in *. clearbody x. assert (x = - c) by nia. lia.
Qed.
