(* ===== verification/Tables.v ===== *)
(** * SQL tables as lists of rows

    A table is the list of its rows in insertion order; the statements the code
    issues are [select_where], [select_one], [update_where] and an append.  A
    transaction takes the tables to a result and the next tables, or raises and
    leaves them as they were. *)

From stdpp Require Import base strings numbers list sorting.
From Stdlib Require Import ZArith Lia.
From S2P Require Import Prelude.

Section Statements.
Context {R : Type}.

(** [SELECT * FROM t WHERE p] *)
Definition select_where (p : R -> bool) (t : list R) : list R := base.filter (fun r => p r = true) t.

(** ... and [.fetchone()] *)
Definition select_one (p : R -> bool) (t : list R) : option R := hd_error (select_where p t).

(** [UPDATE t SET f WHERE p]: the table and [rowcount]. *)
Definition update_where (p : R -> bool) (f : R -> R) (t : list R) : list R * nat :=
  ((fun r => if p r then f r else r) <$> t, length (select_where p t)).

Lemma elem_select_where p t r : r ∈ select_where p t <-> p r = true /\ r ∈ t.
Proof. unfold select_where. by rewrite list_elem_of_filter. Qed.

Lemma select_one_Some p t r : select_one p t = Some r -> p r = true /\ r ∈ t.
Proof.
  unfold select_one. intros Hh. apply elem_select_where. destruct (select_where p t); [done|].
  injection Hh as ->. by left.
Qed.

Lemma select_one_None p t : select_one p t = None <-> forall r, r ∈ t -> p r = false.
Proof.
  unfold select_one. split.
  - intros Hh r Hr. destruct (p r) eqn:E; [|done].
    assert (Hin : r ∈ select_where p t) by (by apply elem_select_where).
    destruct (select_where p t); [by apply not_elem_of_nil in Hin|done].
  - intros Hp. destruct (select_where p t) as [|x l] eqn:E; [done|].
    assert (Hin : x ∈ select_where p t) by (rewrite E; by left).
    apply elem_select_where in Hin as [Hx Hin]. by rewrite Hp in Hx.
Qed.

Lemma select_one_exists p t r : r ∈ t -> p r = true -> exists r', select_one p t = Some r'.
Proof.
  intros Hr Hp. destruct (select_one p t) as [r'|] eqn:E; [by exists r'|].
  by rewrite (proj1 (select_one_None p t) E r Hr) in Hp.
Qed.

Lemma elem_update_where p f t r' :
  r' ∈ (update_where p f t).1 <-> exists r, r ∈ t /\ r' = if p r then f r else r.
Proof. unfold update_where. cbn [fst]. rewrite list_elem_of_fmap. naive_solver. Qed.

Lemma update_where_void p f t : (forall r, r ∈ t -> p r = false) -> update_where p f t = (t, 0%nat).
Proof.
  intros Hp. unfold update_where, select_where. f_equal.
  - rewrite <-(list_fmap_id t) at 2. apply list_fmap_ext. intros i r Hr%list_elem_of_lookup_2. by rewrite Hp.
  - induction t as [|x t IH]; [done|]. rewrite filter_cons, Hp by (by left). apply IH. intros; apply Hp; by right.
Qed.

Lemma update_where_count p f t n t' : update_where p f t = (t', S n) -> exists r, r ∈ t /\ p r = true.
Proof.
  unfold update_where. intros E. injection E as _ E. destruct (select_where p t) as [|x l] eqn:Ex; [done|].
  assert (Hin : x ∈ select_where p t) by (rewrite Ex; by left). apply elem_select_where in Hin as [? ?]. by exists x.
Qed.

(** ** Unique columns *)

Section Unique.
Context {K : Type} (key : R -> K).

Lemma unique_rows t r1 r2 : NoDup (key <$> t) -> r1 ∈ t -> r2 ∈ t -> key r1 = key r2 -> r1 = r2.
Proof.
  intros Hn H1 H2 Hk. induction t as [|x t IH]; [by apply not_elem_of_nil in H1|].
  csimpl in Hn. apply NoDup_cons in Hn as [Hx Hn].
  assert (Hmem : forall r, r ∈ t -> key r <> key x).
  { intros r Hr E. apply Hx. rewrite <-E. apply list_elem_of_fmap. by exists r. }
  apply elem_of_cons in H1 as [->|H1], H2 as [->|H2]; [done| | |by apply IH].
  - by destruct (Hmem r2 H2).
  - by destruct (Hmem r1 H1).
Qed.

Lemma select_one_unique p t r : NoDup (key <$> t) -> (forall r', r' ∈ t -> p r' = true -> key r' = key r) ->
  r ∈ t -> p r = true -> select_one p t = Some r.
Proof.
  intros Hn Hp Hr Hpr. destruct (select_one_exists p t r Hr Hpr) as [r' E].
  rewrite E. apply select_one_Some in E as [Hpr' Hr']. f_equal. eapply unique_rows; [exact Hn|done..|]. by apply Hp.
Qed.

Lemma update_where_column p f t : (forall r, key (f r) = key r) -> key <$> (update_where p f t).1 = key <$> t.
Proof.
  intros Hf. unfold update_where. cbn [fst]. rewrite <-list_fmap_compose. apply list_fmap_ext.
  intros i r _. cbn. by destruct (p r).
Qed.
End Unique.
End Statements.

(** [BEGIN IMMEDIATE ... commit], or [rollback] when the body raises. *)
Definition transaction {D A} (body : D -> res (A * D)) (d : D) : res A * D :=
  match body d with
  | Ok (a, d') => (Ok a, d')
  | Raise e => (Raise e, d)
  end.
