(* ===== verification/Acts.v ===== *)
(** * Stateful calls that can raise

    The monad of calls on a state [S] that return a value or raise, what is known when a
    sequence of them succeeds, what part of the state a call keeps, and the delivery of a
    list of batches. *)

From stdpp Require Import base gmap strings list numbers.
From Stdlib Require Import ZArith Lia.
From S2P Require Import Prelude PyText.

Definition act (S A : Type) : Type := S -> res A * S.
Definition act_ret {S A} (a : A) : act S A := fun s => (Ok a, s).
Definition act_bind {S A B} (m : act S A) (k : A -> act S B) : act S B := fun s =>
  match m s with
  | (Ok a, s) => k a s
  | (Raise e, s) => (Raise e, s)
  end.
Definition act_lift {S A} (r : res A) : act S A := fun s => (r, s).
Definition act_do {S} (f : S -> S) : act S unit := fun s => (Ok tt, f s).
Definition act_get {S A} (f : S -> A) : act S A := fun s => (Ok (f s), s).

Notation "x <~ m ;; k" := (act_bind m (fun x => k)) (at level 60, m at next level, right associativity).

(** One call for each item, with and without the results *)
Fixpoint act_mapM {S A B} (f : A -> act S B) (xs : list A) : act S (list B) :=
  match xs with
  | [] => act_ret []
  | x :: xs => y <~ f x ;; ys <~ act_mapM f xs ;; act_ret (y :: ys)
  end.
Fixpoint act_iter {S A} (f : A -> act S unit) (xs : list A) : act S unit :=
  match xs with
  | [] => act_ret tt
  | x :: xs => _ <~ f x ;; act_iter f xs
  end.

(** ** Success *)

Lemma act_bind_ok {S A B} (m : act S A) (k : A -> act S B) s b s' :
  act_bind m k s = (Ok b, s') <-> exists a s1, m s = (Ok a, s1) /\ k a s1 = (Ok b, s').
Proof. unfold act_bind. destruct (m s) as [[a|e] s1]; naive_solver. Qed.

Lemma act_bind_raises {S A B} (m : act S A) (k : A -> act S B) s e s' :
  act_bind m k s = (Raise e, s') -> m s = (Raise e, s') \/ exists a s1, m s = (Ok a, s1) /\ k a s1 = (Raise e, s').
Proof. unfold act_bind. destruct (m s) as [[a|x] s1]; naive_solver. Qed.

Lemma act_lift_ok {S B} (r : res B) (s : S) b s' : act_lift r s = (Ok b, s') <-> r = Ok b /\ s' = s.
Proof. unfold act_lift. split; [by intros [= -> <-]|by intros [-> ->]]. Qed.

(** The analyzer answered to each of the batches, in order, that it is derived. *)
Inductive delivered {A B} (ingest : B -> act A (option str)) : list B -> A -> A -> Prop :=
| delivered_none a : delivered ingest [] a a
| delivered_one b bs a a1 a2 : ingest b a = (Ok (Some (u "complete")), a1) -> delivered ingest bs a1 a2 -> delivered ingest (b :: bs) a a2.

(** ** What a call keeps *)
Section Keeps.
Context {S X : Type} (f : S -> X).

(** The call keeps [f], however it ends; it keeps [f] when it raises. *)
Definition keeps {A} (m : act S A) : Prop := forall s, f (m s).2 = f s.
Definition keeps_raising {A} (m : act S A) : Prop := forall s e s', m s = (Raise e, s') -> f s' = f s.

Lemma act_keeps_bind {A B} (m : act S A) (k : A -> act S B) : keeps m -> (forall a, keeps (k a)) -> keeps (act_bind m k).
Proof.
  intros Hm Hk s. unfold act_bind. specialize (Hm s). destruct (m s) as [[a|e] s1]; cbn [snd] in *; [|done]. by rewrite Hk.
Qed.

Lemma act_keeps_raising_bind {A B} (m : act S A) (k : A -> act S B) : keeps m -> (forall a, keeps_raising (k a)) -> keeps_raising (act_bind m k).
Proof.
  intros Hm Hk s e s'. unfold act_bind. specialize (Hm s). destruct (m s) as [[a|x] s1]; cbn [snd] in *; [|intros [= _ <-]; done].
  intros E. by rewrite (Hk _ _ _ _ E).
Qed.

Lemma act_keeps_raises {A} (m : act S A) : keeps m -> keeps_raising m.
Proof. intros Hm s e s' E. specialize (Hm s). by rewrite E in Hm. Qed.

Lemma act_keeps_lift {A} (r : res A) : keeps (act_lift r).
Proof. done. Qed.
Lemma act_keeps_ret {A} (a : A) : keeps (act_ret a).
Proof. done. Qed.
Lemma act_keeps_get {A} (g : S -> A) : keeps (act_get g).
Proof. done. Qed.
End Keeps.

Create HintDb keeps.
#[export] Hint Resolve act_keeps_bind act_keeps_raising_bind act_keeps_lift act_keeps_ret act_keeps_get : keeps.
