(* ===== verification/ScanSchemas.v ===== *)
(** * Scan orchestration models ([form/src/kcatta_form/schemas/scan.py])

    The durable scan job, its options and its result.  Timestamps are instants
    in microseconds.  [validate_job] is what [ScanJob.model_validate] does to a
    well-typed value: the field constraints and the [_derive_mode] validator. *)

From S2P Require Import Prelude.
From stdpp Require Import base list strings numbers.
From Stdlib Require Import ZArith Lia.

#[local] Open Scope Z_scope.

Inductive ScanCapability := HOST | TRACE | GUARD.
Inductive ScanMode := ONESHOT | RESIDENT.

Inductive ScanJobState :=
| PENDING | RETRYING | RUNNING | CANCELLING | SUCCEEDED | FAILED | CANCELLED.

Inductive DerivedState := D_PENDING | D_PROCESSING | D_COMPLETE | D_PARTIAL.

Inductive WindowsDefenderScan := WD_NONE | WD_QUICK | WD_FULL.

#[global] Instance capability_eq_dec : EqDecision ScanCapability.
Proof. solve_decision. Defined.
#[global] Instance mode_eq_dec : EqDecision ScanMode.
Proof. solve_decision. Defined.
#[global] Instance job_state_eq_dec : EqDecision ScanJobState.
Proof. solve_decision. Defined.
#[global] Instance derived_state_eq_dec : EqDecision DerivedState.
Proof. solve_decision. Defined.

Definition mode_for_capability (c : ScanCapability) : ScanMode :=
  match c with GUARD => RESIDENT | _ => ONESHOT end.

Record ScanJobOptions := mkOptions {
  so_scan_target : str;
  so_malware : bool;
  so_windows_defender_scan : WindowsDefenderScan;
  so_posture : bool;
  so_secrets : bool;
  so_pcap : bool;
  so_iface : str;
  so_duration : Z;
  so_bpf : str;
  so_intel : bool;
  so_ebpf : bool;
  so_guard_network : bool;
  so_guard_onaccess : bool;
}.

(** [ScanJobOptions()] *)
Definition default_options : ScanJobOptions :=
  mkOptions (u "all") true WD_QUICK true false false (u "any") 5
    (u "tcp or udp or icmp") true false true false.

Record ScanResult := mkResult {
  sr_kind : ScanCapability;
  sr_report_id : option str;
  sr_batch_id : option str;
  sr_host_id : option str;
  sr_pid : option str;
  sr_detail : option str;
  sr_derived_state : option DerivedState;
  sr_derived_records : Z;
  sr_derived_truncated : bool;
  sr_derived_reason : option str;
  sr_derived_attempts : Z;
  sr_derived_updated_at : option Z;
}.

#[global] Instance eta_result : Eta ScanResult := fun r =>
  mkResult (sr_kind r) (sr_report_id r) (sr_batch_id r) (sr_host_id r) (sr_pid r)
    (sr_detail r) (sr_derived_state r) (sr_derived_records r) (sr_derived_truncated r)
    (sr_derived_reason r) (sr_derived_attempts r) (sr_derived_updated_at r).

Record ScanJob := mkJob {
  sj_job_id : str;
  sj_target_id : str;
  sj_address : str;
  sj_capability : ScanCapability;
  sj_mode : option ScanMode;
  sj_state : ScanJobState;
  sj_options : ScanJobOptions;
  sj_created_at : Z;
  sj_updated_at : option Z;
  sj_available_at : option Z;
  sj_started_at : option Z;
  sj_finished_at : option Z;
  sj_cancel_requested_at : option Z;
  sj_attempt : Z;
  sj_max_attempts : Z;
  sj_result : option ScanResult;
  sj_error : option str;
}.

#[global] Instance eta_job : Eta ScanJob := fun j =>
  mkJob (sj_job_id j) (sj_target_id j) (sj_address j) (sj_capability j) (sj_mode j)
    (sj_state j) (sj_options j) (sj_created_at j) (sj_updated_at j) (sj_available_at j)
    (sj_started_at j) (sj_finished_at j) (sj_cancel_requested_at j) (sj_attempt j)
    (sj_max_attempts j) (sj_result j) (sj_error j).

(** The [ge]/[le] constraints of [ScanResult] and [ScanJob]. *)
Definition result_fields_ok (r : ScanResult) : bool :=
  (0 <=? sr_derived_records r) && (0 <=? sr_derived_attempts r).

Definition job_fields_ok (j : ScanJob) : bool :=
  (0 <=? sj_attempt j) && (1 <=? sj_max_attempts j) && (sj_max_attempts j <=? 20)
  && match sj_result j with Some r => result_fields_ok r | None => true end.

(** The [_derive_mode] model validator. *)
Definition derive_mode (j : ScanJob) : ScanJob :=
  let j := match sj_mode j with
           | None => j <| sj_mode := Some (mode_for_capability (sj_capability j)) |>
           | Some _ => j
           end in
  let j := match sj_updated_at j with
           | None => j <| sj_updated_at := Some (sj_created_at j) |>
           | Some _ => j
           end in
  match sj_available_at j, sj_state j with
  | None, (PENDING | RETRYING) => j <| sj_available_at := Some (sj_created_at j) |>
  | _, _ => j
  end.

(** [ScanJob.model_validate(job.model_dump(mode="python"))] *)
Definition validate_job (j : ScanJob) : res ScanJob :=
  if job_fields_ok j then Ok (derive_mode j) else Raise ValueError.

(** ** Facts *)

Lemma derive_mode_state j : sj_state (derive_mode j) = sj_state j.
Proof. destruct j as [? ? ? ? [] [] ? ? [] []]; reflexivity. Qed.

Lemma derive_mode_job_id j : sj_job_id (derive_mode j) = sj_job_id j.
Proof. destruct j as [? ? ? ? [] [] ? ? [] []]; reflexivity. Qed.

Lemma derive_mode_target_id j : sj_target_id (derive_mode j) = sj_target_id j.
Proof. destruct j as [? ? ? ? [] [] ? ? [] []]; reflexivity. Qed.

Lemma derive_mode_attempts j :
  sj_attempt (derive_mode j) = sj_attempt j /\
  sj_max_attempts (derive_mode j) = sj_max_attempts j.
Proof. destruct j as [? ? ? ? [] [] ? ? [] []]; split; reflexivity. Qed.

Lemma derive_mode_idem j : derive_mode (derive_mode j) = derive_mode j.
Proof. destruct j as [? ? ? ? [] [] ? ? [] []]; reflexivity. Qed.

Lemma validate_job_Ok j j' :
  validate_job j = Ok j' <-> job_fields_ok j = true /\ j' = derive_mode j.
Proof. unfold validate_job. destruct job_fields_ok; naive_solver. Qed.
