(* ===== verification/JobStore.v ===== *)
(** * The durable scan-job repository ([form/src/kcatta_form/job_store.py])

    The three SQLite tables of [ScanJobRepository] as one [db] record, and one
    function per operation.  An operation takes the database to its result and
    the next database, or to an exception; [transaction] is the code's
    [_transaction]: what raised leaves the database as it was.

    Tables with a primary key are finite maps ([scan_job_heads] by [job_id],
    [target_operation_leases] by [target_id]); [scan_job_events] is the list of
    rows in [id] order.  The [payload] column holds the validated job itself:
    Pydantic reads back from JSON what it dumped, and the [_derive_mode]
    validator is idempotent ([ScanSchemas.derive_mode_idem]).  The size of that
    JSON, [json_bytes], is Pydantic's and a parameter.  Instants are integers,
    stored as [micros] of themselves.  SQLite's own failures (disk full, busy)
    are exceptions that roll back, and are not represented further. *)

From S2P Require Import Prelude PyText PyHash PyFloat ScanSchemas.
From stdpp Require Import base gmap list strings numbers.
From Stdlib Require Import ZArith Lia.

#[local] Open Scope Z_scope.

(** ** Tables *)

(** A row of [scan_job_heads]. *)
Record job_head := mkHead {
  hd_payload : ScanJob;
  hd_payload_bytes : Z;
  hd_state : ScanJobState;
  hd_target_id : str;
  hd_created_at_us : Z;
  hd_updated_at_us : Z;
  hd_available_at_us : option Z;
  hd_attempt : Z;
  hd_max_attempts : Z;
  hd_revision : Z;
  hd_lease_owner : option str;
  hd_lease_token_hash : option str;
  hd_lease_epoch : Z;
  hd_lease_expires_at_us : option Z;
  hd_heartbeat_at_us : option Z;
  hd_idempotency_key : option str;
  hd_request_fingerprint : option str;
}.

#[global] Instance eta_head : Eta job_head := fun h =>
  mkHead (hd_payload h) (hd_payload_bytes h) (hd_state h) (hd_target_id h)
    (hd_created_at_us h) (hd_updated_at_us h) (hd_available_at_us h) (hd_attempt h)
    (hd_max_attempts h) (hd_revision h) (hd_lease_owner h) (hd_lease_token_hash h)
    (hd_lease_epoch h) (hd_lease_expires_at_us h) (hd_heartbeat_at_us h)
    (hd_idempotency_key h) (hd_request_fingerprint h).

(** A row of [target_operation_leases], under its [target_id]. *)
Record op_lease := mkOp {
  op_lease_owner : str;
  op_lease_token_hash : str;
  op_lease_expires_at_us : Z;
}.

#[global] Instance eta_op : Eta op_lease := fun o =>
  mkOp (op_lease_owner o) (op_lease_token_hash o) (op_lease_expires_at_us o).

(** A row of [scan_job_events]. *)
Record event := mkEvent {
  ev_job_id : str;
  ev_revision : Z;
  ev_state : ScanJobState;
  ev_at_us : Z;
  ev_payload : ScanJob;
  ev_payload_bytes : Z;
}.

Record db := mkDb {
  heads : gmap str job_head;
  ops : gmap str op_lease;
  events : list event;
}.

#[global] Instance eta_db : Eta db := fun d => mkDb (heads d) (ops d) (events d).

(** The schema created by [_ensure_schema]: empty tables. *)
Definition empty_db : db := mkDb ∅ ∅ [].

(** The limits of the constructor; 0 disables one. *)
Record limits := mkLimits {
  max_record_bytes : Z;
  max_jobs : Z;
  max_history : Z;
}.

Definition default_limits : limits := mkLimits (64 * 1024) 100000 100000.

(** [ClaimedScanJob] and [TargetOperationLease] *)
Record claimed := mkClaim {
  cl_job : ScanJob;
  cl_lease_token : str;
  cl_lease_epoch : Z;
  cl_lease_owner : str;
  cl_lease_expires_at : Z;
}.

Record op_claim := mkOpClaim {
  oc_target_id : str;
  oc_lease_token : str;
  oc_lease_owner : str;
  oc_lease_expires_at : Z;
}.

(** [_TERMINAL] and [_ACTIVE], and the SQL [state IN (...)] tests *)
Definition terminal (s : ScanJobState) : bool :=
  match s with SUCCEEDED | FAILED | CANCELLED => true | _ => false end.
Definition active (s : ScanJobState) : bool :=
  match s with RUNNING | CANCELLING => true | _ => false end.
Definition waiting (s : ScanJobState) : bool :=
  match s with PENDING | RETRYING => true | _ => false end.

(** [_token_hash] *)
Definition token_hash (token : str) : str := sha256_hex token.

(** SQL comparisons with a nullable column: [NULL] makes them false. *)
Definition gt_sql (a : option Z) (b : Z) : bool :=
  match a with Some x => b <? x | None => false end.
Definition le_or_null (a : option Z) (b : Z) : bool :=
  match a with Some x => x <=? b | None => true end.
Definition eq_sql (a : option str) (b : str) : bool := bool_decide (a = Some b).

(** [transaction]: commit the new database, or roll back. *)
Definition transaction {A} (body : db -> res (A * db)) (d : db) : res A * db :=
  match body d with
  | Ok (a, d') => (Ok a, d')
  | Raise e => (Raise e, d)
  end.

(** ** String and row ordering used by [ORDER BY] *)
Fixpoint str_lt (a b : str) : bool :=
  match a, b with
  | _, [] => false
  | [], _ :: _ => true
  | x :: a', y :: b' => (x <? y)%N || ((x =? y)%N && str_lt a' b')
  end.

(** Lexicographic strict order on (keys, job_id). *)
Fixpoint keys_lt (a b : list Z) (ja jb : str) : bool :=
  match a, b with
  | x :: a', y :: b' => (x <? y) || ((x =? y) && keys_lt a' b' ja jb)
  | _, _ => str_lt ja jb
  end.

(** [ORDER BY key(row) ASC, job_id ASC] *)
Definition order_rows (key : job_head -> list Z) (rows : list (str * job_head)) : list (str * job_head) :=
  isort (fun a b => keys_lt (key a.2) (key b.2) a.1 b.1) rows.

Definition rows_where (p : str -> job_head -> bool) (d : db) : list (str * job_head) :=
  base.filter (fun r => p r.1 r.2) (map_to_list (heads d)).

Section Repository.
Context {U : Unicode} (json_bytes : ScanJob -> Z) (cfg : limits).

(** [_encode] *)
Definition encode (job : ScanJob) : res (ScanJob * Z) :=
  validated ← validate_job job;
  let payload_bytes := json_bytes validated in
  if negb (max_record_bytes cfg =? 0) && (max_record_bytes cfg <? payload_bytes)
  then Raise StorageCapacityError
  else Ok (validated, payload_bytes).

(** [_event]: append, then trim the oldest rows over the history limit.
    [UNIQUE(job_id, revision)] is enforced by SQLite. *)
Definition add_event (job : ScanJob) (revision : Z) (at_ : Z) (payload_bytes : Z)
    (d : db) : res db :=
  if existsb (fun e => bool_decide (ev_job_id e = sj_job_id job) && (ev_revision e =? revision))
       (events d)
  then Raise IntegrityError
  else
    let evs := events d ++
      [mkEvent (sj_job_id job) revision (sj_state job) (micros at_) job payload_bytes] in
    if max_history cfg =? 0 then Ok (d <| events := evs |>)
    else
      let overflow := Z.of_nat (length evs) - max_history cfg in
      if 0 <? overflow then Ok (d <| events := drop (Z.to_nat overflow) evs |>)
      else Ok (d <| events := evs |>).

(** [_make_room_for_job] *)
Definition make_room_for_job (d : db) : res db :=
  if max_jobs cfg =? 0 then Ok d
  else
    let count := Z.of_nat (size (heads d)) in
    if count <? max_jobs cfg then Ok d
    else
      let low_water := Z.max 0 (max_jobs cfg - Z.max 1 (max_jobs cfg / 10)) in
      let remove := count - low_water in
      let rows := take (Z.to_nat remove)
        (order_rows (fun h => [hd_updated_at_us h])
          (rows_where (fun _ h => terminal (hd_state h)) d)) in
      match rows with
      | [] => Raise StorageCapacityError
      | _ => Ok (d <| heads := foldr (fun r m => delete r.1 m) (heads d) rows |>)
      end.

(** The row [create] inserts. *)
Definition new_head (job : ScanJob) (payload_bytes : Z) (key fingerprint : option str) : job_head :=
  mkHead job payload_bytes (sj_state job) (sj_target_id job)
    (micros (sj_created_at job))
    (micros (default (sj_created_at job) (sj_updated_at job)))
    (micros_opt (sj_available_at job)) (sj_attempt job) (sj_max_attempts job)
    0 None None 0 None None key fingerprint.

(** The normalisation of an [Idempotency-Key] *)
Definition normalize_key (key fingerprint : option str) : res (option str) :=
  match key with
  | None => Ok None
  | Some k =>
      let k := strip k in
      _ ← raise_if (bool_decide (k = []) || (256 <? length k)%nat) ValueError;
      _ ← raise_if (bool_decide (default [] fingerprint = [])) ValueError;
      Ok (Some k)
  end.

Definition find_by_key (key : str) (d : db) : option (str * job_head) :=
  hd_error (rows_where (fun _ h => bool_decide (hd_idempotency_key h = Some key)) d).

(** The transaction of [create]. *)
Definition create_tx (job : ScanJob) (payload_bytes : Z) (key fingerprint : option str)
    (d : db) : res ((ScanJob * bool) * db) :=
  match (k ← key; find_by_key k d) with
  | Some (_, existing) =>
      if bool_decide (hd_request_fingerprint existing = fingerprint)
      then Ok ((hd_payload existing, false), d)
      else Raise JobConflictError
  | None =>
      match heads d !! sj_job_id job with
      | Some _ => Raise JobConflictError
      | None =>
          d ← make_room_for_job d;
          let d := d <| heads := <[sj_job_id job := new_head job payload_bytes key fingerprint]>
                                   (heads d) |> in
          d ← add_event job 0 (default (sj_created_at job) (sj_updated_at job)) payload_bytes d;
          Ok ((job, true), d)
      end
  end.

Definition create (job : ScanJob) (key fingerprint : option str) (d : db)
    : res (ScanJob * bool) * db :=
  match (p ← encode job; k ← normalize_key key fingerprint; Ok (p, k)) with
  | Ok ((job, bytes), k) => transaction (create_tx job bytes k fingerprint) d
  | Raise e => (Raise e, d)
  end.

(** ** Reads *)

Definition get (job_id : str) (d : db) : option ScanJob := hd_payload <$> heads d !! job_id.

Definition descending (key : job_head -> list Z) (rows : list (str * job_head)) : list (str * job_head) :=
  isort (fun a b => keys_lt (key b.2) (key a.2) b.1 a.1) rows.

Definition list_jobs (limit : Z) (states : option (list ScanJobState)) (d : db) : list ScanJob :=
  if limit <=? 0 then []
  else
    let rows := match states with
                | Some ((_ :: _) as ss) =>
                    rows_where (fun _ h => bool_decide (hd_state h ∈ ss)) d
                | _ => rows_where (fun _ _ => true) d
                end in
    (fun r => hd_payload r.2) <$> take (Z.to_nat limit)
      (descending (fun h => [hd_created_at_us h]) rows).

(** [json_extract(payload, '$.result.derived_state') IN ('pending', 'processing')] *)
Definition derived_open (job : ScanJob) : bool :=
  match r ← sj_result job; sr_derived_state r with
  | Some (D_PENDING | D_PROCESSING) => true
  | _ => false
  end.

Definition list_derived_incomplete (limit : Z) (d : db) : list ScanJob :=
  if limit <=? 0 then []
  else (fun r => hd_payload r.2) <$> take (Z.to_nat limit)
    (order_rows (fun h => [hd_updated_at_us h])
      (rows_where (fun _ h => bool_decide (hd_state h = SUCCEEDED) && derived_open (hd_payload h)) d)).

Definition history (job_id : str) (limit : Z) (d : db) : list ScanJob :=
  ev_payload <$> take (Z.to_nat (Z.max 0 limit))
    (isort (fun a b => ev_revision b <? ev_revision a)
      (base.filter (fun e => ev_job_id e = job_id) (events d))).

Definition fingerprint (d : db) : Z * Z :=
  (Z.of_nat (size (heads d)),
   foldr (fun r acc => hd_revision r.2 + acc) 0 (map_to_list (heads d))).

Definition retains_artifact (job_id : str) (d : db) : bool :=
  match heads d !! job_id with
  | Some h => bool_decide (hd_state h ∈ [PENDING; RETRYING; RUNNING; CANCELLING])
  | None => false
  end.

(** ** State changes *)

(** The columns every rewrite of a head sets from the encoded job. *)
Definition put_job (job : ScanJob) (payload_bytes : Z) (at_us : Z) (revision : Z) (h : job_head) : job_head :=
  h <| hd_payload := job |> <| hd_payload_bytes := payload_bytes |>
    <| hd_state := sj_state job |> <| hd_updated_at_us := at_us |>
    <| hd_revision := revision |>.

(** [lease_owner=NULL, lease_token_hash=NULL, lease_expires_at_us=NULL,
    heartbeat_at_us=NULL] *)
Definition clear_lease (h : job_head) : job_head :=
  h <| hd_lease_owner := None |> <| hd_lease_token_hash := None |>
    <| hd_lease_expires_at_us := None |> <| hd_heartbeat_at_us := None |>.

Definition set_head (job_id : str) (h : job_head) (d : db) : db :=
  d <| heads := <[job_id := h]> (heads d) |>.

(** The detail text [update_derived_result] composes. *)
Definition derived_detail (capability : ScanCapability) (state : DerivedState)
    (reason : option str) : str :=
  let subject := match capability with HOST => u "detection" | _ => u "correlation" end in
  let prefix := u "artifact stored; Analyzer " ++ subject in
  match state with
  | D_COMPLETE => prefix ++ u " is complete"
  | D_PARTIAL =>
      let suffix := match reason with
                    | Some ((_ :: _) as r) => u " (" ++ r ++ u ")"
                    | _ => []
                    end in
      prefix ++ u " is partial" ++ suffix
  | D_PROCESSING => prefix ++ u " is processing"
  | D_PENDING => prefix ++ u " is queued"
  end.

Definition update_derived_tx (job_id : str) (state : DerivedState) (records : Z)
    (truncated : bool) (reason : option str) (attempts now : Z) (d : db)
    : res (option ScanJob * db) :=
  match heads d !! job_id with
  | None => Ok (None, d)
  | Some row =>
      let job := hd_payload row in
      match sj_state job, sj_result job with
      | SUCCEEDED, Some r =>
          if derived_open job then
            let r := r <| sr_derived_state := Some state |>
                       <| sr_derived_records := Z.max 0 records |>
                       <| sr_derived_truncated := truncated |>
                       <| sr_derived_reason := reason |>
                       <| sr_derived_attempts := Z.max 0 attempts |>
                       <| sr_derived_updated_at := Some now |>
                       <| sr_detail := Some (derived_detail (sj_capability job) state reason) |> in
            let job := job <| sj_result := Some r |> <| sj_updated_at := Some now |> in
            p ← encode job;
            let '(job, bytes) := p in
            let revision := hd_revision row + 1 in
            if bool_decide (hd_state row = SUCCEEDED) then
              let row := row <| hd_payload := job |> <| hd_payload_bytes := bytes |>
                             <| hd_updated_at_us := micros now |>
                             <| hd_revision := revision |> in
              d ← add_event job revision now bytes (set_head job_id row d);
              Ok (Some job, d)
            else Raise JobConflictError
          else Ok (Some job, d)
      | _, _ => Ok (Some job, d)
      end
  end.

Definition update_derived_result (job_id : str) (state : DerivedState) (records : Z)
    (truncated : bool) (reason : option str) (attempts now : Z) (d : db)
    : res (option ScanJob) * db :=
  transaction (update_derived_tx job_id state records truncated reason attempts now) d.

(** [_fail_exhausted]: the rows it selects, and what it does to one. *)
Definition exhausted (now_us : Z) (h : job_head) : bool :=
  (hd_max_attempts h <=? hd_attempt h) && waiting (hd_state h)
  && le_or_null (hd_available_at_us h) now_us.

Definition fail_job (now : Z) (job : ScanJob) : ScanJob :=
  job <| sj_state := FAILED |>
      <| sj_error := Some (u "scan exhausted its configured execution attempts") |>
      <| sj_available_at := None |> <| sj_finished_at := Some now |>
      <| sj_updated_at := Some now |>.

Definition fail_row (now : Z) (d : db) (r : str * job_head) : res db :=
  let '(_, row) := r in
  p ← encode (fail_job now (hd_payload row));
  let '(job, bytes) := p in
  let revision := hd_revision row + 1 in
  let row' := clear_lease (put_job job bytes (micros now) revision row)
                <| hd_available_at_us := None |> in
  let d := match heads d !! sj_job_id job with
           | Some h => if hd_revision h =? hd_revision row
                       then set_head (sj_job_id job) row' d else d
           | None => d
           end in
  add_event job revision now bytes d.

Fixpoint foldm {S X} (f : S -> X -> res S) (s : S) (xs : list X) : res S :=
  match xs with
  | [] => Ok s
  | x :: xs' => s' ← f s x; foldm f s' xs'
  end.

Definition fail_exhausted (now : Z) (d : db) : res db :=
  foldm (fail_row now) d (rows_where (fun _ h => exhausted (micros now) h) d).

(** [DELETE FROM target_operation_leases WHERE lease_expires_at_us <= ?] *)
Definition expire_ops (now_us : Z) (d : db) : db :=
  d <| ops := base.filter (fun r => now_us < op_lease_expires_at_us r.2) (ops d) |>.

(** [state IN ('running', 'cancelling') AND lease_expires_at_us > ?] *)
Definition live (now_us : Z) (h : job_head) : bool :=
  active (hd_state h) && gt_sql (hd_lease_expires_at_us h) now_us.

Definition live_op (now_us : Z) (o : op_lease) : bool := now_us <? op_lease_expires_at_us o.

(** A lease that another owner may take over. *)
Definition lapsed (now_us : Z) (h : job_head) : bool := le_or_null (hd_lease_expires_at_us h) now_us.

(** The [WHERE] clause of the claim query. *)
Definition runnable (now_us : Z) (h : job_head) : bool :=
  (waiting (hd_state h) && (hd_attempt h <? hd_max_attempts h)
     && le_or_null (hd_available_at_us h) now_us)
  || (active (hd_state h) && lapsed now_us h).

Definition target_busy (now_us : Z) (d : db) (job_id : str) (h : job_head) : bool :=
  existsb (fun r => bool_decide (hd_target_id r.2 = hd_target_id h)
                    && negb (bool_decide (r.1 = job_id)) && live now_us r.2)
    (map_to_list (heads d))
  || match ops d !! hd_target_id h with Some o => live_op now_us o | None => false end.

Definition claimable (now_us : Z) (d : db) (exclude : list str) (job_id : str) (h : job_head) : bool :=
  runnable now_us h && negb (target_busy now_us d job_id h)
  && negb (bool_decide (job_id ∈ exclude)).

(** The [ORDER BY] of the claim query. *)
Definition claim_rank (h : job_head) : list Z :=
  [match hd_state h with CANCELLING => 0 | RUNNING => 1 | _ => 2 end;
   default (hd_created_at_us h) (hd_available_at_us h);
   hd_created_at_us h].

Definition select_candidate (now_us : Z) (exclude : list str) (d : db) : option (str * job_head) :=
  hd_error (order_rows claim_rank (rows_where (claimable now_us d exclude) d)).

Definition active_count (now_us : Z) (d : db) : nat :=
  length (rows_where (fun _ h => live now_us h) d).

(** The payload a claim writes: a waiting or lapsed running job starts a new
    execution, a cancelling one only changes owner. *)
Definition claim_job (now : Z) (job : ScanJob) : ScanJob :=
  let job :=
    match sj_state job with
    | CANCELLING => job
    | _ =>
        let reconciliation_only :=
          bool_decide (sj_state job = RUNNING) && (sj_max_attempts job <=? sj_attempt job) in
        job <| sj_state := RUNNING |>
            <| sj_attempt := if reconciliation_only then sj_max_attempts job + 1
                             else sj_attempt job + 1 |>
            <| sj_started_at := Some (default now (sj_started_at job)) |>
            <| sj_available_at := None |>
            <| sj_error := None |>
    end in
  job <| sj_updated_at := Some now |>.

(** The row after [claim_next]'s [UPDATE]. *)
Definition claim_row (job : ScanJob) (bytes now expires : Z) (worker_id token : str) (row : job_head)
    : job_head :=
  put_job job bytes (micros now) (hd_revision row + 1) row
    <| hd_available_at_us := micros_opt (sj_available_at job) |>
    <| hd_attempt := sj_attempt job |>
    <| hd_max_attempts := sj_max_attempts job |>
    <| hd_lease_owner := Some worker_id |>
    <| hd_lease_token_hash := Some (token_hash token) |>
    <| hd_lease_epoch := hd_lease_epoch row + 1 |>
    <| hd_lease_expires_at_us := Some (micros expires) |>
    <| hd_heartbeat_at_us := Some (micros now) |>.

(** The transaction of [claim_next]; [token] is what the token factory draws. *)
Definition claim_tx (worker_id : str) (now ttl max_running : Z) (exclude : list str)
    (token : str) (d : db) : res (option claimed * db) :=
  d ← fail_exhausted now d;
  let d := expire_ops (micros now) d in
  if max_running <=? Z.of_nat (active_count (micros now) d) then Ok (None, d)
  else
    match select_candidate (micros now) exclude d with
    | None => Ok (None, d)
    | Some (_, row) =>
        p ← encode (claim_job now (hd_payload row));
        let '(job, bytes) := p in
        _ ← raise_if (bool_decide (token = [])) RuntimeError;
        let expires := now + ttl in
        let row' := claim_row job bytes now expires worker_id token row in
        match heads d !! sj_job_id job with
        | Some h =>
            if hd_revision h =? hd_revision row then
              d ← add_event job (hd_revision row + 1) now bytes (set_head (sj_job_id job) row' d);
              Ok (Some (mkClaim job token (hd_lease_epoch row + 1) worker_id expires), d)
            else Ok (None, d)
        | None => Ok (None, d)
        end
    end.

Definition claim_next (worker_id : str) (now ttl max_running : Z) (exclude : list str)
    (token : str) (d : db) : res (option claimed) * db :=
  if bool_decide (worker_id = []) || (max_running <=? 0) || (ttl <=? 0)
  then (Raise ValueError, d)
  else transaction (claim_tx worker_id now ttl max_running exclude token) d.

(** ** Direct target operations *)

Definition busy_with_job (now_us : Z) (target_id : str) (d : db) : bool :=
  existsb (fun r => bool_decide (hd_target_id r.2 = target_id) && live now_us r.2)
    (map_to_list (heads d)).

(** Clearing the lapsed capabilities of the target's in-flight jobs. *)
Definition fence_row (now_us : Z) (target_id : str) (h : job_head) : job_head :=
  if bool_decide (hd_target_id h = target_id) && active (hd_state h) && lapsed now_us h
  then clear_lease h <| hd_lease_epoch := hd_lease_epoch h + 1 |>
  else h.

Definition acquire_tx (target_id owner : str) (now ttl : Z) (token : str) (d : db)
    : res (option op_claim * db) :=
  let expires := now + ttl in
  let d := expire_ops (micros now) d in
  if busy_with_job (micros now) target_id d then Ok (None, d)
  else
    _ ← raise_if (bool_decide (token = [])) RuntimeError;
    match ops d !! target_id with
    | Some _ => Ok (None, d)
    | None =>
        let d := d <| ops := <[target_id := mkOp owner (token_hash token) (micros expires)]>
                               (ops d) |>
                   <| heads := fence_row (micros now) target_id <$> heads d |> in
        Ok (Some (mkOpClaim target_id token owner expires), d)
    end.

Definition acquire_target_operation (target_id owner : str) (now ttl : Z) (token : str) (d : db)
    : res (option op_claim) * db :=
  let target_id := strip target_id in
  let owner := strip owner in
  if bool_decide (target_id = []) || bool_decide (owner = []) || (ttl <=? 0)
     || (256 <? length owner)%nat
  then (Raise ValueError, d)
  else transaction (acquire_tx target_id owner now ttl token) d.

Definition op_matches (lease : op_claim) (o : op_lease) : bool :=
  bool_decide (op_lease_owner o = oc_lease_owner lease)
  && bool_decide (op_lease_token_hash o = token_hash (oc_lease_token lease)).

Definition release_tx (lease : op_claim) (d : db) : res (unit * db) :=
  match ops d !! oc_target_id lease with
  | Some o => if op_matches lease o
              then Ok (tt, d <| ops := delete (oc_target_id lease) (ops d) |>)
              else Raise LeaseLostError
  | None => Raise LeaseLostError
  end.

Definition release_target_operation (lease : op_claim) (d : db) : res unit * db :=
  transaction (release_tx lease) d.

Definition renew_op_tx (lease : op_claim) (now ttl : Z) (d : db) : res (op_claim * db) :=
  let expires := now + ttl in
  match ops d !! oc_target_id lease with
  | Some o =>
      if op_matches lease o && live_op (micros now) o then
        Ok (mkOpClaim (oc_target_id lease) (oc_lease_token lease) (oc_lease_owner lease) expires,
            d <| ops := <[oc_target_id lease := o <| op_lease_expires_at_us := micros expires |>]>
                          (ops d) |>)
      else Raise LeaseLostError
  | None => Raise LeaseLostError
  end.

Definition renew_target_operation (lease : op_claim) (now ttl : Z) (d : db) : res op_claim * db :=
  if ttl <=? 0 then (Raise ValueError, d) else transaction (renew_op_tx lease now ttl) d.

(** ** Leased job operations *)

(** [_leased_row] *)
Definition leased_row (claim : claimed) (now : Z) (d : db) : res job_head :=
  let now_us := micros now in
  match heads d !! sj_job_id (cl_job claim) with
  | Some h =>
      if eq_sql (hd_lease_owner h) (cl_lease_owner claim)
         && eq_sql (hd_lease_token_hash h) (token_hash (cl_lease_token claim))
         && (hd_lease_epoch h =? cl_lease_epoch claim)
         && live now_us h
         && le_or_null (hd_heartbeat_at_us h) now_us
         && negb (match ops d !! hd_target_id h with Some o => live_op now_us o | None => false end)
      then Ok h
      else Raise LeaseLostError
  | None => Raise LeaseLostError
  end.

Definition renew_tx (claim : claimed) (now ttl : Z) (d : db) : res (claimed * db) :=
  let expires := now + ttl in
  row ← leased_row claim now d;
  let row' := row <| hd_lease_expires_at_us := Some (micros expires) |>
                  <| hd_heartbeat_at_us := Some (micros now) |> in
  Ok (mkClaim (hd_payload row) (cl_lease_token claim) (cl_lease_epoch claim)
        (cl_lease_owner claim) expires,
      set_head (sj_job_id (cl_job claim)) row' d).

Definition renew (claim : claimed) (now ttl : Z) (d : db) : res claimed * db :=
  if ttl <=? 0 then (Raise ValueError, d) else transaction (renew_tx claim now ttl) d.

(** Whether a completion may still land once a cancellation was requested. *)
Definition lands_after_cancel (job : ScanJob) : bool :=
  bool_decide (sj_state job ∈ [CANCELLED; FAILED])
  || (bool_decide (sj_state job = SUCCEEDED)
      && match sj_result job with Some _ => true | None => false end
      && negb (bool_decide (sj_capability job = GUARD))).

Definition complete_tx (claim : claimed) (job : ScanJob) (bytes now : Z) (d : db)
    : res (ScanJob * db) :=
  let at_ := default now (sj_updated_at job) in
  row ← leased_row claim now d;
  _ ← raise_if (bool_decide (hd_state row = CANCELLING) && negb (lands_after_cancel job))
        LeaseLostError;
  let revision := hd_revision row + 1 in
  let row' := clear_lease (put_job job bytes (micros at_) revision row)
                <| hd_available_at_us := micros_opt (sj_available_at job) |>
                <| hd_attempt := sj_attempt job |>
                <| hd_max_attempts := sj_max_attempts job |> in
  d ← add_event job revision at_ bytes (set_head (sj_job_id job) row' d);
  Ok (job, d).

Definition complete (claim : claimed) (updated_job : ScanJob) (now : Z) (d : db)
    : res ScanJob * db :=
  match encode updated_job with
  | Raise e => (Raise e, d)
  | Ok (job, bytes) =>
      if negb (bool_decide (sj_job_id job = sj_job_id (cl_job claim))) then (Raise ValueError, d)
      else if bool_decide (sj_state job ∈ [PENDING; RUNNING; CANCELLING]) then (Raise ValueError, d)
      else transaction (complete_tx claim job bytes now) d
  end.

(** ** Operator actions *)

Definition cancel_job (now : Z) (job : ScanJob) : ScanJob :=
  let job := job <| sj_cancel_requested_at := Some now |> <| sj_updated_at := Some now |> in
  if waiting (sj_state job) then
    job <| sj_state := CANCELLED |> <| sj_finished_at := Some now |>
        <| sj_available_at := None |> <| sj_error := Some (u "scan cancelled by operator") |>
  else job <| sj_state := CANCELLING |>.

Definition request_cancel_tx (job_id : str) (now : Z) (d : db) : res (ScanJob * db) :=
  match heads d !! job_id with
  | None => Raise JobNotFoundError
  | Some row =>
      let job := hd_payload row in
      if bool_decide (sj_state job ∈ [SUCCEEDED; FAILED; CANCELLED; CANCELLING]) then Ok (job, d)
      else
        p ← encode (cancel_job now job);
        let '(job, bytes) := p in
        let revision := hd_revision row + 1 in
        let row' := put_job job bytes (micros now) revision row
                      <| hd_available_at_us := micros_opt (sj_available_at job) |> in
        d ← add_event job revision now bytes (set_head job_id row' d);
        Ok (job, d)
  end.

Definition request_cancel (job_id : str) (now : Z) (d : db) : res ScanJob * db :=
  transaction (request_cancel_tx job_id now) d.

Definition retry_job (now : Z) (job : ScanJob) : ScanJob :=
  job <| sj_state := PENDING |> <| sj_attempt := 0 |> <| sj_available_at := Some now |>
      <| sj_updated_at := Some now |> <| sj_started_at := None |> <| sj_finished_at := None |>
      <| sj_cancel_requested_at := None |> <| sj_result := None |> <| sj_error := None |>.

Definition manual_retry_tx (job_id : str) (now : Z) (d : db) : res (ScanJob * db) :=
  match heads d !! job_id with
  | None => Raise JobNotFoundError
  | Some row =>
      let job := hd_payload row in
      if negb (bool_decide (sj_state job ∈ [FAILED; CANCELLED])) then Raise JobConflictError
      else
        p ← encode (retry_job now job);
        let '(job, bytes) := p in
        let revision := hd_revision row + 1 in
        let row' := clear_lease (put_job job bytes (micros now) revision row)
                      <| hd_available_at_us := micros_opt (sj_available_at job) |>
                      <| hd_attempt := sj_attempt job |> in
        d ← add_event job revision now bytes (set_head job_id row' d);
        Ok (job, d)
  end.

Definition manual_retry (job_id : str) (now : Z) (d : db) : res ScanJob * db :=
  transaction (manual_retry_tx job_id now) d.

(** [import_legacy] on rows that validate: in-flight work fails safe, known
    jobs and conflicts are skipped, any other exception escapes. *)
Definition legacy_job (now : Z) (job : ScanJob) : ScanJob :=
  if active (sj_state job) then
    job <| sj_state := FAILED |>
        <| sj_error := Some (u "legacy Form stopped while this job was in-flight") |>
        <| sj_finished_at := Some now |> <| sj_available_at := None |>
        <| sj_updated_at := Some now |>
  else job.

Fixpoint import_legacy (jobs : list (option ScanJob)) (now : Z) (imported : Z) (d : db)
    : res Z * db :=
  match jobs with
  | [] => (Ok imported, d)
  | None :: jobs' => import_legacy jobs' now imported d
  | Some job :: jobs' =>
      match get (sj_job_id job) d with
      | Some _ => import_legacy jobs' now imported d
      | None =>
          match create (legacy_job now job) None None d with
          | (Ok (_, created), d') =>
              import_legacy jobs' now (imported + if created then 1 else 0) d'
          | (Raise JobConflictError, d') => import_legacy jobs' now imported d'
          | (Raise e, d') => (Raise e, d')
          end
      end
  end.
End Repository.
