(* ===== verification/JobSteps.v ===== *)
(** * The life of one job: a state machine the repository refines

    [row_step] is the abstract machine of a single [scan_job_heads] row: what
    may happen to it, with which guard, whatever the rest of the database
    holds.  [exec] runs one repository call; [exec_refines] shows that every
    call moves every row along [row_step] only, so that facts about one job
    over any history follow by induction on the machine. *)

From S2P Require Import Prelude PyText PyHash PyFloat ScanSchemas JobStore.
From stdpp Require Import base gmap list strings numbers relations.
From Stdlib Require Import ZArith Lia.

#[local] Open Scope Z_scope.

(** ** The calls of the repository *)

Inductive call :=
| Create (job : ScanJob) (key fp : option str)
| UpdateDerived (job_id : str) (state : DerivedState) (records : Z) (truncated : bool)
    (reason : option str) (attempts now : Z)
| ClaimNext (worker_id : str) (now ttl max_running : Z) (exclude : list str) (token : str)
| AcquireOp (target_id owner : str) (now ttl : Z) (token : str)
| ReleaseOp (lease : op_claim)
| RenewOp (lease : op_claim) (now ttl : Z)
| Renew (claim : claimed) (now ttl : Z)
| Complete (claim : claimed) (job : ScanJob) (now : Z)
| RequestCancel (job_id : str) (now : Z)
| ManualRetry (job_id : str) (now : Z).

(** The instant a call reads from the clock, when it takes one. *)
Definition call_time (c : call) : option Z :=
  match c with
  | Create _ _ _ | ReleaseOp _ => None
  | UpdateDerived _ _ _ _ _ _ now | ClaimNext _ now _ _ _ _ | AcquireOp _ _ now _ _
  | RenewOp _ now _ | Renew _ now _ | Complete _ _ now | RequestCancel _ now
  | ManualRetry _ now => Some now
  end.

Section Machine.
Context {U : Unicode} (json_bytes : ScanJob -> Z) (cfg : limits).

Abbreviation encode := (JobStore.encode json_bytes cfg).

(** The database after a call, whether it returned or raised. *)
Definition exec (c : call) (d : db) : db :=
  match c with
  | Create job key fp => (create json_bytes cfg job key fp d).2
  | UpdateDerived j s n t r a now => (update_derived_result json_bytes cfg j s n t r a now d).2
  | ClaimNext w now ttl m ex tok => (claim_next json_bytes cfg w now ttl m ex tok d).2
  | AcquireOp t o now ttl tok => (acquire_target_operation t o now ttl tok d).2
  | ReleaseOp l => (release_target_operation l d).2
  | RenewOp l now ttl => (renew_target_operation l now ttl d).2
  | Renew cl now ttl => (renew cl now ttl d).2
  | Complete cl job now => (complete json_bytes cfg cl job now d).2
  | RequestCancel j now => (request_cancel json_bytes cfg j now d).2
  | ManualRetry j now => (manual_retry json_bytes cfg j now d).2
  end.

(** ** The machine of one row *)

(** The two ways a job starts over. *)
Inductive restart := ByCreate | ByRetry.

(** [row_step allow id]: the restarts [allow] admits, and everything else. *)
Inductive row_step (allow : restart -> Prop) (id : str) : option job_head -> option job_head -> Prop :=
| rs_create job0 job bytes key fp :
    allow ByCreate -> encode job0 = Ok (job, bytes) -> sj_job_id job = id ->
    row_step allow id None (Some (new_head job bytes key fp))
| rs_evict h :
    terminal (hd_state h) = true -> row_step allow id (Some h) None
| rs_derived h job0 job bytes now :
    encode job0 = Ok (job, bytes) -> hd_state h = SUCCEEDED -> sj_state job = SUCCEEDED ->
    sj_job_id job = sj_job_id (hd_payload h) ->
    sj_attempt job = sj_attempt (hd_payload h) ->
    sj_max_attempts job = sj_max_attempts (hd_payload h) ->
    row_step allow id (Some h)
      (Some (h <| hd_payload := job |> <| hd_payload_bytes := bytes |>
               <| hd_updated_at_us := micros now |> <| hd_revision := hd_revision h + 1 |>))
| rs_fail h job bytes now :
    exhausted (micros now) h = true -> encode (fail_job now (hd_payload h)) = Ok (job, bytes) ->
    row_step allow id (Some h)
      (Some (clear_lease (put_job job bytes (micros now) (hd_revision h + 1) h)
               <| hd_available_at_us := None |>))
| rs_claim h job bytes now expires worker token :
    runnable (micros now) h = true -> encode (claim_job now (hd_payload h)) = Ok (job, bytes) ->
    row_step allow id (Some h) (Some (claim_row job bytes now expires worker token h))
| rs_fence h now target :
    row_step allow id (Some h) (Some (fence_row (micros now) target h))
| rs_renew h now expires :
    live (micros now) h = true ->
    row_step allow id (Some h)
      (Some (h <| hd_lease_expires_at_us := Some (micros expires) |>
               <| hd_heartbeat_at_us := Some (micros now) |>))
| rs_complete h job0 job bytes at_us now :
    live (micros now) h = true -> encode job0 = Ok (job, bytes) ->
    sj_job_id job = id ->
    sj_state job ∉ [PENDING; RUNNING; CANCELLING] ->
    (hd_state h = CANCELLING -> lands_after_cancel job = true) ->
    row_step allow id (Some h)
      (Some (clear_lease (put_job job bytes at_us (hd_revision h + 1) h)
               <| hd_available_at_us := micros_opt (sj_available_at job) |>
               <| hd_attempt := sj_attempt job |>
               <| hd_max_attempts := sj_max_attempts job |>))
| rs_cancel h job bytes now :
    sj_state (hd_payload h) ∉ [SUCCEEDED; FAILED; CANCELLED; CANCELLING] ->
    encode (cancel_job now (hd_payload h)) = Ok (job, bytes) ->
    row_step allow id (Some h)
      (Some (put_job job bytes (micros now) (hd_revision h + 1) h
               <| hd_available_at_us := micros_opt (sj_available_at job) |>))
| rs_retry h job bytes now :
    allow ByRetry -> sj_state (hd_payload h) ∈ [FAILED; CANCELLED] ->
    encode (retry_job now (hd_payload h)) = Ok (job, bytes) ->
    row_step allow id (Some h)
      (Some (clear_lease (put_job job bytes (micros now) (hd_revision h + 1) h)
               <| hd_available_at_us := micros_opt (sj_available_at job) |>
               <| hd_attempt := sj_attempt job |>)).

(** ** What every row satisfies *)

(** Columns agree with the payload, and only an in-flight row holds a lease. *)
Definition row_ok (id : str) (h : job_head) : Prop :=
  sj_job_id (hd_payload h) = id /\
  sj_state (hd_payload h) = hd_state h /\
  sj_attempt (hd_payload h) = hd_attempt h /\
  sj_max_attempts (hd_payload h) = hd_max_attempts h /\
  (active (hd_state h) = false -> hd_lease_expires_at_us h = None).

Definition consistent (d : db) : Prop := map_Forall row_ok (heads d).

(** ** Helper lemmas *)

Lemma encode_Ok j j' b :
  encode j = Ok (j', b) -> job_fields_ok j = true /\ j' = derive_mode j /\ b = json_bytes j'.
Proof.
  unfold JobStore.encode. destruct (validate_job j) as [v|] eqn:E; simpl; [|done].
  apply validate_job_Ok in E as [Hf ->]. case_match; [done|]. intros [= <- <-]. done.
Qed.

Lemma encode_facts j j' b :
  encode j = Ok (j', b) ->
  sj_state j' = sj_state j /\ sj_job_id j' = sj_job_id j /\
  sj_attempt j' = sj_attempt j /\ sj_max_attempts j' = sj_max_attempts j.
Proof.
  intros (_ & -> & _)%encode_Ok.
  pose proof (derive_mode_attempts j) as [??].
  rewrite derive_mode_state, derive_mode_job_id. done.
Qed.

Lemma add_event_tables job rev at_ bytes d d' :
  add_event cfg job rev at_ bytes d = Ok d' -> heads d' = heads d /\ ops d' = ops d.
Proof using Type. clear json_bytes. unfold add_event. repeat case_match; naive_solver. Qed.

Lemma set_head_heads id h d : heads (set_head id h d) = <[id := h]> (heads d).
Proof. done. Qed.

Lemma transaction_Ok {A} (body : db -> res (A * db)) d a d' :
  body d = Ok (a, d') -> transaction body d = (Ok a, d').
Proof using Type. unfold transaction. by intros ->. Qed.

(** What a transaction leaves behind satisfies [P] when the database before it
    does and every commit establishes it. *)
Lemma transaction_inv {A} (P : db -> Prop) (body : db -> res (A * db)) d :
  P d -> (forall a d', body d = Ok (a, d') -> P d') -> P (transaction body d).2.
Proof using Type. unfold transaction. intros Hd Hb. destruct (body d) as [[a d']|] eqn:E; [by eapply Hb|done]. Qed.

Lemma elem_rows_where (p : str -> job_head -> bool) d i h :
  (i, h) ∈ rows_where p d <-> p i h = true /\ heads d !! i = Some h.
Proof.
  unfold rows_where. rewrite list_elem_of_filter, elem_of_map_to_list. simpl.
  by rewrite Is_true_true.
Qed.

Lemma rows_where_NoDup (p : str -> job_head -> bool) d : NoDup (rows_where p d).*1.
Proof.
  unfold rows_where. eapply sublist_NoDup; [apply (NoDup_fst_map_to_list (heads d))|].
  apply sublist_keys, sublist_filter.
Qed.

Lemma elem_order_rows key rows x : x ∈ order_rows key rows <-> x ∈ rows.
Proof. apply isort_elem. Qed.

Lemma foldm_ind {S X} (P : S -> list X -> Prop) (f : S -> X -> res S) :
  (forall s x xs s', P s (x :: xs) -> f s x = Ok s' -> P s' xs) ->
  forall xs s s', P s xs -> foldm f s xs = Ok s' -> P s' [].
Proof.
  intros Hstep. induction xs as [|x xs IH]; simpl; intros s s' HP.
  - by intros [= <-].
  - intros (s1 & E & Hf)%bind_Ok_inv. eauto.
Qed.

(** The rows of [d'] are reached from those of [d] by machine steps. *)
Definition refines (allow : str -> restart -> Prop) (d d' : db) : Prop :=
  forall id, rtc (row_step (allow id) id) (heads d !! id) (heads d' !! id).

(** The restarts a call may perform. *)
Definition restarts (c : call) (id : str) (r : restart) : Prop :=
  match c, r with
  | Create job _ _, ByCreate => sj_job_id job = id
  | ManualRetry j _, ByRetry => j = id
  | _, _ => False
  end.

#[export] Instance refines_preorder allow : PreOrder (refines allow).
Proof. split; [by intros d id|]. intros a b c H1 H2 id. by transitivity (heads b !! id). Qed.

Lemma refines_same_heads allow d d' : heads d' = heads d -> refines allow d d'.
Proof. intros E id. by rewrite E. Qed.

Lemma refines_set_head allow id h' d :
  row_step (allow id) id (heads d !! id) (Some h') -> refines allow d (set_head id h' d).
Proof.
  intros Hs i. rewrite set_head_heads. destruct (decide (i = id)) as [->|Hne].
  - rewrite lookup_insert_eq. by apply rtc_once.
  - by rewrite lookup_insert_ne.
Qed.

Lemma refines_set_head_event allow id h' d d' job rev at_ bytes :
  row_step (allow id) id (heads d !! id) (Some h') ->
  add_event cfg job rev at_ bytes (set_head id h' d) = Ok d' -> refines allow d d'.
Proof.
  intros Hs [E _]%add_event_tables. etransitivity; [by apply refines_set_head|].
  by apply refines_same_heads.
Qed.

(** ** Each operation refines the machine *)

Lemma lookup_foldr_delete (rows : list (str * job_head)) (m : gmap str job_head) id :
  foldr (fun r m => delete r.1 m) m rows !! id = if decide (id ∈ rows.*1) then None else m !! id.
Proof.
  induction rows as [|[i h] rows IH]; simpl; [done|].
  destruct (decide (i = id)) as [->|Hne].
  - rewrite lookup_delete_eq, decide_True; [done|by left].
  - rewrite lookup_delete_ne, IH by done.
    repeat case_decide; set_solver.
Qed.

Lemma make_room_spec d d' :
  make_room_for_job cfg d = Ok d' ->
  ops d' = ops d /\ events d' = events d /\
  forall id, heads d' !! id = heads d !! id \/
    exists h, heads d !! id = Some h /\ terminal (hd_state h) = true /\ heads d' !! id = None.
Proof.
  unfold make_room_for_job. repeat case_match; try naive_solver. intros [= <-].
  split; [done|]. split; [done|]. intros id. simpl.
  change (delete p.1 (foldr (fun r m => delete r.1 m) (heads d) l))
    with (foldr (fun r m => delete r.1 m) (heads d) (p :: l)).
  rewrite lookup_foldr_delete. case_decide as Hin; [|by left]. right.
  apply list_elem_of_fmap in Hin as ([i h] & -> & Hin).
  match goal with E : take _ _ = _ |- _ => rewrite <-E in Hin end.
  apply (subseteq_take _ _) in Hin. rewrite elem_order_rows, elem_rows_where in Hin.
  naive_solver.
Qed.

Lemma make_room_refines allow d d' : make_room_for_job cfg d = Ok d' -> refines allow d d'.
Proof.
  intros (_ & _ & Hr)%make_room_spec id.
  destruct (Hr id) as [->|(h & -> & Ht & ->)]; [done|]. by apply rtc_once, rs_evict.
Qed.

Lemma create_refines job key fp d : refines (restarts (Create job key fp)) d (exec (Create job key fp) d).
Proof.
  simpl. unfold create. destruct (encode job) as [[j b]|] eqn:Ej; simpl; [|done].
  destruct (normalize_key key fp) as [k|]; simpl; [|done].
  apply (transaction_inv (refines _ d)); [done|]. intros a d'. unfold create_tx.
  case_match eqn:Ek; [by repeat case_match; intros [= <- <-]|].
  destruct (heads d !! sj_job_id j) eqn:El; [done|].
  intros (d1 & Hr & Hd)%bind_Ok_inv. apply bind_Ok_inv in Hd as (d2 & He & [= <- <-]).
  etransitivity; [by apply make_room_refines|].
  eapply (refines_set_head_event _ (sj_job_id j)); [|exact He].
  destruct (make_room_spec _ _ Hr) as (_ & _ & Hh).
  destruct (Hh (sj_job_id j)) as [->|(? & ? & ? & ?)]; [|congruence].
  rewrite El. eapply rs_create; [|exact Ej|done].
  simpl. by destruct (encode_facts _ _ _ Ej) as (_ & -> & _).
Qed.

Lemma update_derived_refines j st n t r a now d :
  consistent d -> refines (restarts (UpdateDerived j st n t r a now)) d (exec (UpdateDerived j st n t r a now) d).
Proof.
  intros Hc. simpl. apply (transaction_inv (refines _ d)); [done|]. intros x d'.
  unfold update_derived_tx. destruct (heads d !! j) as [row|] eqn:El; [|by intros [= <- <-]].
  specialize (Hc j row El) as (Hid & Hst & _ & _ & _). simpl.
  destruct (sj_state (hd_payload row)) eqn:Es; try by intros [= <- <-].
  destruct (sj_result (hd_payload row)) as [res|]; [|by intros [= <- <-]].
  destruct (derived_open (hd_payload row)); [|by intros [= <- <-]].
  intros ([job bytes] & He & Hx)%bind_Ok_inv. case_bool_decide as Hs; [|done].
  apply bind_Ok_inv in Hx as (d2 & Ha & [= <- <-]).
  pose proof (encode_facts _ _ _ He) as (Hs1 & Hs2 & Hs3 & Hs4). simpl in *.
  eapply refines_set_head_event; [|exact Ha]. rewrite El.
  eapply rs_derived; eauto; congruence.
Qed.

(** The rows [_fail_exhausted] has still to visit are as they were read. *)
Definition fail_inv allow (now : Z) (d0 d : db) (rows : list (str * job_head)) : Prop :=
  refines allow d0 d /\ consistent d /\ NoDup rows.*1 /\
  forall i h, (i, h) ∈ rows -> heads d !! i = Some h /\ exhausted (micros now) h = true.

Lemma row_ok_put id h' job :
  sj_job_id job = id -> hd_payload h' = job -> hd_state h' = sj_state job ->
  hd_attempt h' = sj_attempt job -> hd_max_attempts h' = sj_max_attempts job ->
  (active (sj_state job) = false -> hd_lease_expires_at_us h' = None) -> row_ok id h'.
Proof using Type. clear json_bytes. unfold row_ok. intros Hi -> -> -> -> Hl. naive_solver. Qed.

Lemma consistent_set_head id h d : row_ok id h -> consistent d -> consistent (set_head id h d).
Proof. intros Hr Hc. by apply map_Forall_insert_2. Qed.

Lemma consistent_heads d d' : heads d' = heads d -> consistent d -> consistent d'.
Proof. unfold consistent. by intros ->. Qed.

Lemma fail_row_step allow now d0 d r rows d' :
  fail_inv allow now d0 d (r :: rows) -> fail_row json_bytes cfg now d r = Ok d' ->
  fail_inv allow now d0 d' rows.
Proof.
  intros (Hr & Hc & Hn & Hrows). destruct r as [i row]. unfold fail_row.
  destruct (Hrows i row) as [Hi Hx]; [by left|].
  destruct (Hc i row Hi) as (Hid & Hst & Hat & Hmx & _).
  intros ([job bytes] & He & Hf)%bind_Ok_inv.
  pose proof (encode_facts _ _ _ He) as (Hs1 & Hs2 & Hs3 & Hs4). simpl in *.
  rewrite Hs2, Hid, Hi, Z.eqb_refl in Hf. pose proof (add_event_tables _ _ _ _ _ _ Hf) as [Hh _].
  apply NoDup_cons in Hn as [Hni Hn]. split; [|split; [|split; [done|]]].
  - etransitivity; [exact Hr|]. eapply refines_set_head_event; [|exact Hf]. rewrite Hi.
    by apply rs_fail.
  - eapply consistent_heads; [exact Hh|]. apply consistent_set_head; [|done].
    apply (row_ok_put _ _ job); simpl; congruence || done.
  - intros i' h' Hin. rewrite Hh, set_head_heads, lookup_insert_ne; [apply Hrows; by right|].
    intros <-. apply Hni, list_elem_of_fmap. by exists (i, h').
Qed.

Lemma fail_exhausted_spec allow now d d' :
  consistent d -> fail_exhausted json_bytes cfg now d = Ok d' -> refines allow d d' /\ consistent d'.
Proof.
  intros Hc Hf. unfold fail_exhausted in Hf.
  eapply (foldm_ind (fail_inv allow now d)) in Hf as (? & ? & _); [done| |].
  - intros. by eapply fail_row_step.
  - split; [done|]. split; [done|]. split; [apply rows_where_NoDup|].
    intros i h. rewrite elem_rows_where. naive_solver.
Qed.

Lemma select_candidate_spec now_us exclude d i h :
  select_candidate now_us exclude d = Some (i, h) ->
  heads d !! i = Some h /\ claimable now_us d exclude i h = true.
Proof.
  unfold select_candidate. destruct (order_rows _ _) as [|x l] eqn:E; [done|].
  intros [= ->]. assert (Hin : (i, h) ∈ (i, h) :: l) by by left.
  rewrite <-E, elem_order_rows, elem_rows_where in Hin. naive_solver.
Qed.

(** The two outcomes of a claim, seen from the database after the sweep. *)
Lemma claim_tx_spec allow worker now ttl m ex token d r d' :
  consistent d -> claim_tx json_bytes cfg worker now ttl m ex token d = Ok (r, d') ->
  exists d1, refines allow d d1 /\ consistent d1 /\
  fail_exhausted json_bytes cfg now d = Ok d1 /\
  let d2 := expire_ops (micros now) d1 in
    (r = None /\ d' = d2) \/
    (exists id row job bytes,
        (Z.of_nat (active_count (micros now) d2) < m) /\
  select_candidate (micros now) ex d2 = Some (id, row) /\
  heads d2 !! id = Some row /\ claimable (micros now) d2 ex id row = true /\
  encode (claim_job now (hd_payload row)) = Ok (job, bytes) /\ token <> [] /\
  sj_job_id job = id /\
  r = Some (mkClaim job token (hd_lease_epoch row + 1) worker (now + ttl)) /\
  add_event cfg job (hd_revision row + 1) now bytes
          (set_head id (claim_row job bytes now (now + ttl) worker token row) d2) = Ok d').
Proof.
  intros Hc. unfold claim_tx. intros (d1 & Hf & Hx)%bind_Ok_inv.
  destruct (fail_exhausted_spec allow _ _ _ Hc Hf) as [Hr Hc1].
  exists d1. split; [done|]. split; [done|]. split; [done|]. cbv zeta. set (d2 := expire_ops (micros now) d1) in *.
  destruct (_ <=? _) eqn:Hcap; [left; naive_solver|]. apply Z.leb_gt in Hcap.
  destruct (select_candidate _ _ _) as [[id row]|] eqn:Hsel; [|left; naive_solver].
  destruct (select_candidate_spec _ _ _ _ _ Hsel) as [Hrow Hcl].
  apply bind_Ok_inv in Hx as ([job bytes] & He & Hx).
  apply bind_Ok_inv in Hx as (? & Htok%raise_if_Ok_inv & Hx).
  apply bool_decide_eq_false in Htok.
  destruct (encode_facts _ _ _ He) as (_ & Hid & _ & _).
  assert (sj_job_id job = id) as Hj.
  { rewrite Hid. destruct (Hc1 id row Hrow) as (<- & _).
    unfold claim_job. by destruct (sj_state (hd_payload row)). }
  rewrite Hj, Hrow, Z.eqb_refl in Hx. apply bind_Ok_inv in Hx as (d3 & Ha & [= <- <-]).
  right. by exists id, row, job, bytes.
Qed.

Lemma claim_refines worker now ttl m ex token d :
  consistent d -> refines (restarts (ClaimNext worker now ttl m ex token)) d (exec (ClaimNext worker now ttl m ex token) d).
Proof.
  intros Hc. simpl. unfold claim_next. case_match; [done|].
  apply (transaction_inv (refines _ d)); [done|]. intros r d' Hx.
  destruct (claim_tx_spec (restarts (ClaimNext worker now ttl m ex token)) _ _ _ _ _ _ _ _ _ Hc Hx) as (d1 & Hr & _ & _ & Hcase).
  etransitivity; [exact Hr|].
  destruct Hcase as [[_ ->]|(id & row & job & bytes & _ & _ & Hrow & Hcl & He & _ & Hid & _ & Ha)];
    [by apply refines_same_heads|].
  etransitivity; [by apply (refines_same_heads _ d1 (expire_ops (micros now) d1))|].
  eapply refines_set_head_event; [|exact Ha]. rewrite Hrow.
  apply rs_claim; [|done]. unfold claimable in Hcl. by apply andb_prop in Hcl as [[]%andb_prop _].
Qed.

Lemma acquire_refines t o now ttl token d :
  refines (restarts (AcquireOp t o now ttl token)) d (exec (AcquireOp t o now ttl token) d).
Proof.
  simpl. unfold acquire_target_operation. case_match; [done|].
  apply (transaction_inv (refines _ d)); [done|]. intros r d'. unfold acquire_tx. cbv zeta.
  destruct (busy_with_job _ _ _); [intros [= <- <-]; by apply refines_same_heads|].
  intros (? & _ & Hx)%bind_Ok_inv. revert Hx.
  destruct (_ !! _); intros [= <- <-]; [by apply refines_same_heads|]. intros i. simpl. rewrite lookup_fmap.
  destruct (heads d !! i) as [h|]; [|done]. apply rtc_once, rs_fence.
Qed.

Lemma release_refines l d : refines (restarts (ReleaseOp l)) d (exec (ReleaseOp l) d).
Proof.
  simpl. apply (transaction_inv (refines _ d)); [done|]. intros a d'. unfold release_tx.
  repeat case_match; intros [= <- <-]; by apply refines_same_heads.
Qed.

Lemma renew_op_refines l now ttl d : refines (restarts (RenewOp l now ttl)) d (exec (RenewOp l now ttl) d).
Proof.
  simpl. unfold renew_target_operation. case_match; [done|].
  apply (transaction_inv (refines _ d)); [done|]. intros a d'. unfold renew_op_tx.
  repeat case_match; intros [= <- <-]; by apply refines_same_heads.
Qed.

(** What a successful fence check found. *)
Lemma leased_row_spec claim now d h :
  leased_row claim now d = Ok h <->
  heads d !! sj_job_id (cl_job claim) = Some h /\
  hd_lease_owner h = Some (cl_lease_owner claim) /\
  hd_lease_token_hash h = Some (token_hash (cl_lease_token claim)) /\
  hd_lease_epoch h = cl_lease_epoch claim /\
  live (micros now) h = true /\ le_or_null (hd_heartbeat_at_us h) (micros now) = true /\
  (forall o, ops d !! hd_target_id h = Some o -> live_op (micros now) o = false).
Proof.
  unfold leased_row. destruct (heads d !! _) as [h0|]; [|split; [done|naive_solver]].
  unfold eq_sql. case_match eqn:E.
  - rewrite !andb_true_iff, !bool_decide_eq_true, Z.eqb_eq, negb_true_iff in E.
    destruct E as (((((? & ?) & ?) & ?) & ?) & E). split.
    + intros [= <-]. repeat (split; [done|]). intros o Ho. by rewrite Ho in E.
    + intros ([= ->] & _). done.
  - split; [done|]. intros ([= ->] & Ho & Ht & He & Hl & Hh & Hop). exfalso.
    rewrite Ho, Ht, He, Hl, Hh, Z.eqb_refl, !bool_decide_true in E by done. simpl in E.
    destruct (ops d !! hd_target_id h) as [o|]; [|done]. by rewrite (Hop o) in E.
Qed.

Lemma renew_refines claim now ttl d : refines (restarts (Renew claim now ttl)) d (exec (Renew claim now ttl) d).
Proof.
  simpl. unfold renew. case_match; [done|].
  apply (transaction_inv (refines _ d)); [done|]. intros a d'. unfold renew_tx.
  intros (row & Hl & [= <- <-])%bind_Ok_inv.
  apply leased_row_spec in Hl as (Hi & _ & _ & _ & Hlive & _).
  apply refines_set_head. rewrite Hi. by apply rs_renew.
Qed.

Lemma complete_refines claim job now d : refines (restarts (Complete claim job now)) d (exec (Complete claim job now) d).
Proof.
  simpl. unfold complete. destruct (encode job) as [[j b]|] eqn:Ej; [|done].
  case_bool_decide as Hid; simpl; [|done]. case_bool_decide as Hst; [done|].
  apply (transaction_inv (refines _ d)); [done|]. intros a d'. unfold complete_tx.
  intros (row & Hl & Hx)%bind_Ok_inv.
  apply leased_row_spec in Hl as (Hi & _ & _ & _ & Hlive & _).
  apply bind_Ok_inv in Hx as (? & Hland%raise_if_Ok_inv & Hx).
  apply bind_Ok_inv in Hx as (d2 & Ha & [= <- <-]).
  eapply refines_set_head_event; [|exact Ha]. rewrite Hid, Hi.
  eapply rs_complete; [done|exact Ej|done|done|]. intros Hcan.
  rewrite bool_decide_true in Hland by done. by apply negb_false_iff in Hland.
Qed.

Lemma cancel_refines j now d : refines (restarts (RequestCancel j now)) d (exec (RequestCancel j now) d).
Proof.
  simpl. apply (transaction_inv (refines _ d)); [done|]. intros a d'. unfold request_cancel_tx.
  destruct (heads d !! j) as [row|] eqn:Hi; [|done]. simpl.
  case_bool_decide as Hs; [by intros [= <- <-]|].
  intros ([job bytes] & He & Hx)%bind_Ok_inv.
  apply bind_Ok_inv in Hx as (d2 & Ha & [= <- <-]).
  eapply refines_set_head_event; [|exact Ha]. rewrite Hi. by apply rs_cancel.
Qed.

Lemma retry_refines j now d : refines (restarts (ManualRetry j now)) d (exec (ManualRetry j now) d).
Proof.
  simpl. apply (transaction_inv (refines _ d)); [done|]. intros a d'. unfold manual_retry_tx.
  destruct (heads d !! j) as [row|] eqn:Hi; [|done]. simpl.
  case_bool_decide as Hs; simpl; [|done].
  intros ([job bytes] & He & Hx)%bind_Ok_inv.
  apply bind_Ok_inv in Hx as (d2 & Ha & [= <- <-]).
  eapply refines_set_head_event; [|exact Ha]. rewrite Hi. by apply rs_retry.
Qed.

(** Every call moves every row along the machine. *)
Lemma exec_refines_machine c d : consistent d -> refines (restarts c) d (exec c d).
Proof.
  intros Hc. destruct c.
  - apply create_refines.
  - by apply update_derived_refines.
  - by apply claim_refines.
  - apply acquire_refines.
  - apply release_refines.
  - apply renew_op_refines.
  - apply renew_refines.
  - apply complete_refines.
  - apply cancel_refines.
  - apply retry_refines.
Qed.

(** ** The machine keeps rows well formed *)

Lemma claim_job_id now j : sj_job_id (claim_job now j) = sj_job_id j.
Proof. unfold claim_job. by destruct (sj_state j). Qed.

Lemma claim_job_active now j : active (sj_state (claim_job now j)) = true.
Proof. unfold claim_job. by destruct (sj_state j) eqn:E; simpl; rewrite ?E. Qed.

Lemma cancel_job_facts now j :
  sj_job_id (cancel_job now j) = sj_job_id j /\ sj_attempt (cancel_job now j) = sj_attempt j /\
  sj_max_attempts (cancel_job now j) = sj_max_attempts j /\
  (active (sj_state (cancel_job now j)) = false -> waiting (sj_state j) = true).
Proof. unfold cancel_job. simpl. by destruct (waiting (sj_state j)). Qed.

#[local] Opaque claim_job cancel_job.

Lemma row_step_ok allow id o h' :
  (forall h, o = Some h -> row_ok id h) -> row_step allow id o (Some h') -> row_ok id h'.
Proof.
  intros Ho Hs. inversion Hs; subst; clear Hs;
    repeat match goal with H : encode _ = Ok _ |- _ => apply encode_facts in H as (? & ? & ? & ?) end;
    try (specialize (Ho _ eq_refl) as (Hid & Hst & Hat & Hmx & Hle)); simpl in *.
  - apply (row_ok_put _ _ job); done.
  - apply (row_ok_put _ _ job); simpl; try congruence. intros _. apply Hle.
    by match goal with H : hd_state h = SUCCEEDED |- _ => rewrite H end.
  - apply (row_ok_put _ _ job); simpl; congruence || done.
  - apply (row_ok_put _ _ job); simpl; try congruence.
    + rewrite <-Hid, <-(claim_job_id now (hd_payload h)). done.
    + intros E. pose proof (claim_job_active now (hd_payload h)). congruence.
  - unfold fence_row. case_match; done.
  - split; [done|]. repeat (split; [done|]). simpl. intros E.
    unfold live in *. simpl in *. rewrite E in *. done.
  - apply (row_ok_put _ _ job); done.
  - destruct (cancel_job_facts now (hd_payload h)) as (? & ? & ? & Hw).
    apply (row_ok_put _ _ job); simpl; try congruence. intros E. apply Hle.
    assert (waiting (sj_state (hd_payload h)) = true) by (apply Hw; congruence).
    rewrite <-Hst. by destruct (sj_state (hd_payload h)).
  - apply (row_ok_put _ _ job); simpl; congruence || done.
Qed.

Lemma rtc_row_ok allow id o o' :
  rtc (row_step allow id) o o' -> (forall h, o = Some h -> row_ok id h) ->
  forall h, o' = Some h -> row_ok id h.
Proof.
  induction 1 as [|o1 o2 o3 Hs _ IH]; [done|]. intros Ho. apply IH. intros h ->.
  by eapply row_step_ok.
Qed.

Lemma refines_consistent allow d d' : refines allow d d' -> consistent d -> consistent d'.
Proof. intros Hr Hc i h Hi. eapply rtc_row_ok; [exact (Hr i)| |done]. intros; by apply Hc. Qed.

Lemma exec_consistent c d : consistent d -> consistent (exec c d).
Proof. intros Hc. eapply refines_consistent; [by apply exec_refines_machine|done]. Qed.
End Machine.
