(* ===== verification/JobLease.v ===== *)
(** * One holder per target ([form/src/kcatta_form/job_store.py])

    A target is held by the worker of a scan job or by a direct operation.
    [run] is a sequence of repository calls, each by whichever process, whose
    clocks do not step back between transactions ([timed]); over any of them at
    most one unexpired lease exists per target, a lease that was taken over
    never writes again, and a finished job stays finished. *)

From S2P Require Import Prelude PyText PyHash PyFloat ScanSchemas JobStore JobSteps.
From stdpp Require Import base gmap list strings numbers relations.
From Stdlib Require Import ZArith Lia.

#[local] Open Scope Z_scope.

Inductive holder := ByJob (job_id : str) | ByOperation.

(** [x] holds an unexpired lease on [target] at the instant [t]. *)
Definition holds (t : Z) (d : db) (target : str) (x : holder) : Prop :=
  match x with
  | ByJob id => exists h, heads d !! id = Some h /\ hd_target_id h = target /\ live t h = true
  | ByOperation => exists o, ops d !! target = Some o /\ live_op t o = true
  end.

Definition exclusive (t : Z) (d : db) : Prop :=
  forall target x y, holds t d target x -> holds t d target y -> x = y.

(** No lease appears at [t] between [d] and [d']. *)
Definition shrinks (t : Z) (d d' : db) : Prop :=
  forall target x, holds t d' target x -> holds t d target x.

#[export] Instance shrinks_preorder t : PreOrder (shrinks t).
Proof. split; [by intros ???|]. intros a b c H1 H2 target x Hx. apply H1, H2, Hx. Qed.

(** Sequences of calls whose clocks do not step back; [end_time] is the last. *)
Fixpoint timed (t : Z) (cs : list call) : Prop :=
  match cs with
  | [] => True
  | c :: cs' =>
      match call_time c with
      | Some now => t <= micros now /\ timed (micros now) cs'
      | None => timed t cs'
      end
  end.

Fixpoint end_time (t : Z) (cs : list call) : Z :=
  match cs with
  | [] => t
  | c :: cs' => end_time (match call_time c with Some now => micros now | None => t end) cs'
  end.

Lemma shrinks_exclusive t d d' : shrinks t d d' -> exclusive t d -> exclusive t d'.
Proof. intros Hs He target x y Hx Hy. eapply He; by apply Hs. Qed.

Lemma live_later t t' h : t <= t' -> live t' h = true -> live t h = true.
Proof.
  unfold live, gt_sql. intros Hle [Ha He]%andb_prop. rewrite Ha. simpl.
  destruct (hd_lease_expires_at_us h); lia.
Qed.

Lemma exclusive_later t t' d : t <= t' -> exclusive t d -> exclusive t' d.
Proof.
  intros Hle He target x y Hx Hy.
  assert (Hw : forall z, holds t' d target z -> holds t d target z).
  { intros [id|]; simpl.
    - intros (h & ? & ? & ?). exists h. split; [done|]. split; [done|]. by eapply live_later.
    - unfold live_op. intros (o & ? & ?). exists o. split; [done|]. lia. }
  eapply He; by apply Hw.
Qed.

Lemma live_lapsed t h : live t h = true -> lapsed t h = true -> False.
Proof.
  unfold live, lapsed, gt_sql, le_or_null. destruct (hd_lease_expires_at_us h); rewrite andb_true_iff; lia.
Qed.

Lemma live_clear_lease t h : live t (clear_lease h) = false.
Proof. unfold live. simpl. by rewrite andb_false_r. Qed.

Lemma shrinks_tables t d d' : heads d' = heads d -> ops d' = ops d -> shrinks t d d'.
Proof. intros Hh Ho target [id|]; simpl; by rewrite ?Hh, ?Ho. Qed.

(** Replacing a row shrinks the holders unless it makes the row live. *)
Lemma shrinks_set_head t id h' d :
  (live t h' = true -> exists h, heads d !! id = Some h /\ hd_target_id h = hd_target_id h' /\
                       live t h = true) ->
  shrinks t d (set_head id h' d).
Proof.
  intros Hl target [i|]; [|done]. simpl. intros (h & Hi & Ht & Hv).
  destruct (decide (i = id)) as [->|Hne].
  - rewrite lookup_insert_eq in Hi. injection Hi as <-.
    destruct (Hl Hv) as (h & ? & ? & ?). exists h. split; [done|]. split; [congruence|done].
  - rewrite lookup_insert_ne in Hi by done. by exists h.
Qed.

Section Leases.
Context {U : Unicode} (json_bytes : ScanJob -> Z) (cfg : limits).

Abbreviation exec := (JobSteps.exec json_bytes cfg).
Abbreviation encode := (JobStore.encode json_bytes cfg).

Definition run (cs : list call) (d : db) : db := foldl (fun d c => exec c d) d cs.

Lemma shrinks_set_head_event t id h' d d' job rev at_ bytes :
  add_event cfg job rev at_ bytes (set_head id h' d) = Ok d' ->
  (live t h' = true -> exists h, heads d !! id = Some h /\ hd_target_id h = hd_target_id h' /\
                       live t h = true) ->
  shrinks t d d'.
Proof.
  intros [Hh Ho]%add_event_tables Hl. transitivity (set_head id h' d);
    [by apply shrinks_set_head|by apply shrinks_tables].
Qed.

Lemma shrinks_expire_ops t now_us d : shrinks t d (expire_ops now_us d).
Proof.
  intros target [id|]; [done|]. simpl. intros (o & [Ho _]%map_lookup_filter_Some & Hl). by exists o.
Qed.

Lemma fail_row_shrinks t now d r d' :
  fail_row json_bytes cfg now d r = Ok d' -> shrinks t d d'.
Proof.
  destruct r as [i row]. unfold fail_row. intros ([job bytes] & He & Hf)%bind_Ok_inv.
  assert (Hx : forall d1, add_event cfg job (hd_revision row + 1) now bytes d1 = Ok d' ->
                 shrinks t d d1 -> shrinks t d d').
  { intros d1 [Hh Ho]%add_event_tables Hs. transitivity d1; [exact Hs|by apply shrinks_tables]. }
  eapply Hx; [exact Hf|]. repeat case_match; try done.
  apply shrinks_set_head. unfold live. simpl. by rewrite andb_false_r.
Qed.

Lemma fail_exhausted_shrinks t now d d' :
  fail_exhausted json_bytes cfg now d = Ok d' -> shrinks t d d'.
Proof.
  apply (foldm_ind (fun d' _ => shrinks t d d')); [|done].
  intros d1 r rows d2 Hs Hf%(fail_row_shrinks t). by transitivity d1.
Qed.

(** Granting [target] to [x], which nobody else held, keeps the leases exclusive. *)
Lemma grant_exclusive t d d' target x :
  exclusive t d ->
  (forall y, holds t d target y -> y = x) ->
  (forall target' y, holds t d' target' y -> holds t d target' y \/ (target' = target /\ y = x)) ->
  exclusive t d'.
Proof.
  intros He Hf Hg target' y z Hy Hz.
  destruct (Hg _ _ Hy) as [Hy'|[-> ->]], (Hg _ _ Hz) as [Hz'|[E ->]]; subst; try done.
  - by eapply He.
  - by apply Hf.
  - symmetry. by apply Hf.
Qed.

Lemma target_busy_false t d id h y :
  target_busy t d id h = false -> holds t d (hd_target_id h) y -> y = ByJob id.
Proof.
  unfold target_busy. intros [Hj Ho]%orb_false_iff. destruct y as [i|]; simpl.
  - intros (h' & Hi & Ht & Hl). f_equal. destruct (decide (i = id)); [done|]. exfalso.
    rewrite <-not_true_iff_false, existsb_exists in Hj. apply Hj. exists (i, h').
    split; [by apply list_elem_of_In, elem_of_map_to_list|]. simpl.
    rewrite Ht, Hl. by repeat case_bool_decide.
  - intros (o & Hop & Hl). by rewrite Hop, Hl in Ho.
Qed.

Lemma busy_with_job_false t d target id h :
  busy_with_job t target d = false -> heads d !! id = Some h -> hd_target_id h = target ->
  live t h = true -> False.
Proof.
  unfold busy_with_job. intros Hb Hi Ht Hl.
  rewrite <-not_true_iff_false, existsb_exists in Hb. apply Hb. exists (id, h).
  split; [by apply list_elem_of_In, elem_of_map_to_list|]. simpl. rewrite Ht, Hl. by case_bool_decide.
Qed.

(** ** Every call keeps the leases exclusive *)

(** Calls other than the two that grant a lease only shrink the holders at
    their own instant. *)
Definition grants (c : call) : bool :=
  match c with ClaimNext _ _ _ _ _ _ | AcquireOp _ _ _ _ _ => true | _ => false end.

Lemma make_room_shrinks t d d' : make_room_for_job cfg d = Ok d' -> shrinks t d d'.
Proof.
  intros (Ho & _ & Hr)%make_room_spec target [id|]; simpl; [|by rewrite Ho].
  intros (h & Hi & ? & ?). exists h. split; [|done].
  destruct (Hr id) as [Hs|(? & ? & ? & ?)]; congruence.
Qed.

Lemma create_shrinks t job key fp d : shrinks t d (exec (Create job key fp) d).
Proof.
  simpl. unfold create. destruct (_ ≫= _) as [[[j b] k]|]; [|done].
  apply (transaction_inv (shrinks t d)); [done|]. intros a d'. unfold create_tx.
  case_match; [by repeat case_match; intros [= <- <-]|].
  destruct (heads d !! sj_job_id j) eqn:El; [done|].
  intros (d1 & Hr & Hd)%bind_Ok_inv. apply bind_Ok_inv in Hd as (d2 & He & [= <- <-]).
  transitivity d1; [by apply make_room_shrinks|].
  eapply shrinks_set_head_event; [exact He|]. unfold live. simpl. by rewrite andb_false_r.
Qed.

Lemma update_derived_shrinks t j st n tr r a now d :
  shrinks t d (exec (UpdateDerived j st n tr r a now) d).
Proof.
  simpl. apply (transaction_inv (shrinks t d)); [done|]. intros x d'. unfold update_derived_tx.
  destruct (heads d !! j) as [row|] eqn:El; [|by intros [= <- <-]]. cbv zeta.
  destruct (sj_state (hd_payload row)); try by intros [= <- <-].
  destruct (sj_result (hd_payload row)) as [res|]; [|by intros [= <- <-]].
  destruct (derived_open (hd_payload row)); [|by intros [= <- <-]].
  intros ([job bytes] & He & Hx)%bind_Ok_inv. case_bool_decide as Hs; [|done].
  apply bind_Ok_inv in Hx as (d2 & Ha & [= <- <-]).
  eapply shrinks_set_head_event; [exact Ha|]. intros Hl. by exists row.
Qed.

Lemma release_shrinks t l d : shrinks t d (exec (ReleaseOp l) d).
Proof.
  simpl. apply (transaction_inv (shrinks t d)); [done|]. intros x d'. unfold release_tx.
  repeat case_match; intros [= <- <-]. intros target [id|]; [done|]. simpl.
  intros (o' & [? ?]%lookup_delete_Some & ?). by exists o'.
Qed.

Lemma renew_op_shrinks l now ttl d : shrinks (micros now) d (exec (RenewOp l now ttl) d).
Proof.
  simpl. unfold renew_target_operation. case_match; [done|].
  apply (transaction_inv (shrinks _ d)); [done|]. intros x d'. unfold renew_op_tx.
  destruct (ops d !! _) as [o|] eqn:Eo; [|done]. destruct (op_matches l o); [|done].
  simpl. destruct (live_op (micros now) o) eqn:El; [|done]. intros [= <- <-].
  intros target [id|]; [done|]. simpl. intros (o' & Hl & ?).
  destruct (decide (oc_target_id l = target)) as [<-|Hne]; [by exists o|].
  rewrite lookup_insert_ne in Hl by done. by exists o'.
Qed.

Lemma renew_shrinks claim now ttl d : shrinks (micros now) d (exec (Renew claim now ttl) d).
Proof.
  simpl. unfold renew. case_match; [done|].
  apply (transaction_inv (shrinks _ d)); [done|]. intros x d'. unfold renew_tx.
  intros (row & (Hi & _ & _ & _ & Hl & _)%leased_row_spec & [= <- <-])%bind_Ok_inv.
  apply shrinks_set_head. intros _. by exists row.
Qed.

Lemma complete_shrinks t claim job now d : shrinks t d (exec (Complete claim job now) d).
Proof.
  simpl. unfold complete. repeat (case_match; try done).
  apply (transaction_inv (shrinks t d)); [done|]. intros x d'. unfold complete_tx.
  intros (row & _ & Hx)%bind_Ok_inv. apply bind_Ok_inv in Hx as (? & _ & Hx).
  apply bind_Ok_inv in Hx as (d2 & Ha & [= <- <-]).
  eapply shrinks_set_head_event; [exact Ha|]. unfold live. simpl. by rewrite andb_false_r.
Qed.

Lemma cancel_shrinks t j now d :
  consistent d -> shrinks t d (exec (RequestCancel j now) d).
Proof.
  intros Hc. simpl. apply (transaction_inv (shrinks t d)); [done|]. intros x d'. unfold request_cancel_tx.
  destruct (heads d !! j) as [row|] eqn:Hi; [|done]. cbv zeta.
  case_bool_decide as Hs; [by intros [= <- <-]|].
  intros ([job bytes] & He & Hx)%bind_Ok_inv.
  apply bind_Ok_inv in Hx as (d2 & Ha & [= <- <-]).
  eapply shrinks_set_head_event; [exact Ha|]. unfold live at 1. simpl.
  intros [_ Hl]%andb_prop. exists row. split; [done|]. split; [done|].
  unfold live. rewrite Hl, andb_true_r. destruct (Hc j row Hi) as (_ & _ & _ & _ & Hn).
  destruct (active (hd_state row)); [done|]. rewrite Hn in Hl by done. done.
Qed.

Lemma retry_shrinks t j now d : shrinks t d (exec (ManualRetry j now) d).
Proof.
  simpl. apply (transaction_inv (shrinks t d)); [done|]. intros x d'. unfold manual_retry_tx.
  destruct (heads d !! j) as [row|] eqn:Hi; [|done]. simpl.
  case_bool_decide; simpl; [|done]. intros ([job bytes] & He & Hx)%bind_Ok_inv.
  apply bind_Ok_inv in Hx as (d2 & Ha & [= <- <-]).
  eapply shrinks_set_head_event; [exact Ha|]. unfold live. simpl. by rewrite andb_false_r.
Qed.

Lemma exec_shrinks c t d :
  grants c = false -> consistent d -> (forall now, call_time c = Some now -> t = micros now) ->
  shrinks t d (exec c d).
Proof.
  intros Hg Hc Ht. destruct c; try discriminate Hg.
  - apply create_shrinks.
  - apply update_derived_shrinks.
  - apply release_shrinks.
  - rewrite (Ht now eq_refl). apply renew_op_shrinks.
  - rewrite (Ht now eq_refl). apply renew_shrinks.
  - apply complete_shrinks.
  - by apply cancel_shrinks.
  - apply retry_shrinks.
Qed.

Lemma claim_exclusive worker now ttl m ex token d :
  consistent d -> exclusive (micros now) d ->
  exclusive (micros now) (exec (ClaimNext worker now ttl m ex token) d).
Proof.
  intros Hc He. simpl. unfold claim_next. case_match; [done|].
  apply (transaction_inv (exclusive (micros now))); [done|]. intros r d' Hx.
  destruct (claim_tx_spec json_bytes cfg (fun _ _ => False) _ _ _ _ _ _ _ _ _ Hc Hx)
    as (d1 & _ & _ & Hf & Hcase).
  assert (exclusive (micros now) (expire_ops (micros now) d1)) as He2.
  { eapply shrinks_exclusive; [apply shrinks_expire_ops|].
    eapply shrinks_exclusive; [by eapply fail_exhausted_shrinks|done]. }
  destruct Hcase as [[_ ->]|(id & row & job & bytes & _ & _ & Hrow & Hcl & _ & _ & _ & _ & Ha)]; [done|].
  apply add_event_tables in Ha as [Hh Ho]. unfold claimable in Hcl.
  apply andb_prop in Hcl as [[_ Hb%negb_true_iff]%andb_prop _].
  apply (grant_exclusive _ _ d' (hd_target_id row) (ByJob id) He2).
  - intros y. by apply target_busy_false.
  - intros target [i|]; simpl; rewrite ?Hh, ?Ho; [|by left].
    intros (h & Hi & Ht & Hl). rewrite set_head_heads in Hi.
    destruct (decide (i = id)) as [->|Hne].
    + rewrite lookup_insert_eq in Hi. injection Hi as <-. right. by rewrite <-Ht.
    + rewrite lookup_insert_ne in Hi by done. left. by exists h.
Qed.

Lemma fence_row_live t now target h : live t (fence_row now target h) = true ->
  hd_target_id (fence_row now target h) = hd_target_id h /\ live t h = true.
Proof.
  unfold fence_row. case_match; [|done]. unfold live. simpl. by rewrite andb_false_r.
Qed.

Lemma acquire_exclusive tg owner now ttl token d :
  exclusive (micros now) d -> exclusive (micros now) (exec (AcquireOp tg owner now ttl token) d).
Proof.
  intros He. simpl. unfold acquire_target_operation. case_match; [done|].
  apply (transaction_inv (exclusive (micros now))); [done|]. intros r d'. unfold acquire_tx. cbv zeta.
  set (d1 := expire_ops (micros now) d).
  assert (exclusive (micros now) d1) as He1.
  { eapply shrinks_exclusive; [apply shrinks_expire_ops|done]. }
  destruct (busy_with_job _ _ _) eqn:Hb; [by intros [= <- <-]|].
  intros (? & _ & Hx)%bind_Ok_inv. revert Hx. destruct (ops d1 !! strip tg) eqn:Eo; intros [= <- <-]; [done|].
  apply (grant_exclusive _ d1 _ (strip tg) ByOperation He1).
  - intros [id|]; [|done]. simpl. intros (h & Hi & Ht & Hl). exfalso.
    by eapply busy_with_job_false.
  - intros target [i|]; simpl.
    + rewrite lookup_fmap. intros (h & Hi & Ht & Hl). left.
      apply fmap_Some in Hi as (h0 & Hi & ->). apply fence_row_live in Hl as [E Hl].
      exists h0. split; [done|]. by rewrite <-E.
    + intros (o & Hl & Ho). destruct (decide (strip tg = target)) as [<-|Hne]; [by right|].
      rewrite lookup_insert_ne in Hl by done. left. by exists o.
Qed.

Lemma run_consistent cs d : consistent d -> consistent (run cs d).
Proof.
  revert d. induction cs as [|c cs IH]; intros d Hc; [done|]. apply IH, exec_consistent, Hc.
Qed.

(** One call at a clock that did not step back. *)
Lemma exec_exclusive c t d :
  consistent d -> exclusive t d -> (forall now, call_time c = Some now -> t <= micros now) ->
  exclusive (match call_time c with Some now => micros now | None => t end) (exec c d).
Proof.
  intros Hc He Ht.
  assert (exclusive (match call_time c with Some now => micros now | None => t end) d) as He'.
  { destruct (call_time c); [|done]. eapply exclusive_later; [|done]. by apply Ht. }
  destruct (grants c) eqn:Hg.
  - destruct c; try discriminate Hg; [by apply claim_exclusive|by apply acquire_exclusive].
  - eapply shrinks_exclusive; [|exact He']. apply exec_shrinks; [done|done|].
    by intros now ->.
Qed.

Lemma run_exclusive cs t d :
  consistent d -> exclusive t d -> timed t cs -> exclusive (end_time t cs) (run cs d).
Proof.
  revert t d. induction cs as [|c cs IH]; intros t d Hc He Ht; [done|].
  change (run (c :: cs) d) with (run cs (exec c d)). simpl in *.
  apply IH; [by apply exec_consistent| |by destruct (call_time c) as [now|]; [destruct Ht|]].
  apply exec_exclusive; [done|done|]. intros now E. rewrite E in Ht. by destruct Ht.
Qed.

(** ** A lease that was taken over never writes again *)

(** The job is not created anew: its row is there with its epoch, or gone. *)
Definition outdated (id : str) (epoch : Z) (d : db) : Prop :=
  forall h, heads d !! id = Some h -> epoch < hd_lease_epoch h.

Lemma row_step_epoch allow id o h' :
  ~ allow ByCreate -> row_step json_bytes cfg allow id o (Some h') ->
  exists h, o = Some h /\ hd_lease_epoch h <= hd_lease_epoch h'.
Proof.
  intros Hn Hs. inversion Hs; subst; clear Hs; [done|..]; eexists; (split; [done|]); simpl; try lia.
  unfold fence_row. case_match; simpl; lia.
Qed.

Lemma rtc_epoch allow id o o' :
  ~ allow ByCreate -> rtc (row_step json_bytes cfg allow id) o o' ->
  forall h', o' = Some h' -> exists h, o = Some h /\ hd_lease_epoch h <= hd_lease_epoch h'.
Proof.
  intros Hn. induction 1 as [|o1 o2 o3 Hs _ IH]; [intros h ->; by exists h|].
  intros h' E. destruct (IH h' E) as (h2 & -> & Hle).
  destruct (row_step_epoch _ _ _ _ Hn Hs) as (h1 & -> & ?).
  exists h1. split; [done|lia].
Qed.

(** No call of [cs] starts the job over the way [r] does. *)
Definition no_restart (id : str) (r : restart) (cs : list call) : Prop :=
  Forall (fun c => ~ restarts c id r) cs.

Lemma run_epoch cs id d :
  consistent d -> no_restart id ByCreate cs ->
  forall h', heads (run cs d) !! id = Some h' ->
  exists h, heads d !! id = Some h /\ hd_lease_epoch h <= hd_lease_epoch h'.
Proof.
  intros Hc Hn. revert d Hc. induction Hn as [|c cs Hn _ IH]; intros d Hc h' Hh; [by exists h'|].
  destruct (IH (exec c d) (exec_consistent json_bytes cfg c d Hc) h' Hh) as (h1 & H1 & ?).
  destruct (rtc_epoch _ _ _ _ Hn (exec_refines_machine json_bytes cfg c d Hc id) h1 H1) as (h & ? & ?).
  exists h. split; [done|lia].
Qed.

Lemma run_outdated cs id epoch d :
  consistent d -> no_restart id ByCreate cs -> outdated id epoch d -> outdated id epoch (run cs d).
Proof.
  intros Hc Hn Ho h' Hh. destruct (run_epoch cs id d Hc Hn h' Hh) as (h & Hi & ?).
  specialize (Ho h Hi). lia.
Qed.

Lemma outdated_rejected claim now d :
  outdated (sj_job_id (cl_job claim)) (cl_lease_epoch claim) d ->
  leased_row claim now d = Raise LeaseLostError.
Proof.
  intros Ho. destruct (leased_row claim now d) as [h|e] eqn:E.
  - apply leased_row_spec in E as (Hi & _ & _ & He & _). specialize (Ho h Hi). lia.
  - unfold leased_row in E. repeat case_match; congruence.
Qed.
End Leases.
