(* ===== verification/JobClaim.v ===== *)
(** * Claims, capacity and retention of the job repository

    The order the claim query ranks rows by is a strict order, so the row it
    takes is the best one; the tables stay within the constructor's limits; and
    an idempotency key names at most one row.  Lemmas behind [JobProps]. *)

From S2P Require Import Prelude PyText PyHash PyFloat ScanSchemas JobStore JobSteps JobLease.
From stdpp Require Import base gmap list strings numbers relations sorting.
From Stdlib Require Import ZArith Lia.

#[local] Open Scope Z_scope.

(** ** [ORDER BY] *)

(** [lia] over comparisons of code points. *)
Ltac nlia := rewrite ?N.ltb_lt, ?N.ltb_ge, ?N.eqb_eq, ?N.eqb_neq in *; lia.

Lemma str_lt_irrefl a : str_lt a a = false.
Proof. induction a as [|x a IH]; simpl; [done|]. rewrite IH, andb_false_r, orb_false_r. apply N.ltb_irrefl. Qed.

Lemma str_lt_asym a b : str_lt a b = true -> str_lt b a = false.
Proof.
  revert b. induction a as [|x a IH]; intros [|y b]; simpl; try done.
  destruct (N.lt_trichotomy x y) as [?|[->|?]].
  - intros _. apply orb_false_iff. split; [nlia|]. apply andb_false_iff. left. nlia.
  - rewrite !N.ltb_irrefl, !N.eqb_refl. simpl. apply IH.
  - intros Hx. exfalso. apply orb_true_iff in Hx as [?|[? _]%andb_prop]; nlia.
Qed.

Lemma str_nlt_trans a b c : str_lt b a = false -> str_lt c b = false -> str_lt c a = false.
Proof.
  revert b c. induction a as [|x a IH]; intros [|y b] [|z c]; simpl; try done.
  rewrite !orb_false_iff, !andb_false_iff. intros [? H1] [? H2].
  split; [nlia|]. destruct (N.eq_dec z x) as [->|]; [|left; nlia].
  assert (y = x) as -> by nlia. right.
  destruct H1 as [?|H1]; [nlia|]. destruct H2 as [?|H2]; [nlia|]. by eapply IH.
Qed.

Lemma keys_lt_asym a b ja jb :
  length a = length b -> keys_lt a b ja jb = true -> keys_lt b a jb ja = false.
Proof.
  revert b. induction a as [|x a IH]; intros [|y b]; simpl; try done.
  - intros _. apply str_lt_asym.
  - intros [= Hl]. destruct (Z.lt_trichotomy x y) as [?|[->|?]].
    + intros _. apply orb_false_iff. split; [lia|]. apply andb_false_iff. left. lia.
    + rewrite !Z.ltb_irrefl, !Z.eqb_refl. simpl. by apply IH.
    + intros Hx. exfalso. apply orb_true_iff in Hx as [?|[? _]%andb_prop]; lia.
Qed.

Lemma keys_nlt_trans a b c ja jb jc :
  length a = length b -> length b = length c ->
  keys_lt b a jb ja = false -> keys_lt c b jc jb = false -> keys_lt c a jc ja = false.
Proof.
  revert b c. induction a as [|x a IH]; intros [|y b] [|z c]; simpl; try done.
  - intros _ _. apply str_nlt_trans.
  - intros [= H1] [= H2]. rewrite !orb_false_iff, !andb_false_iff. intros [? E1] [? E2].
    split; [lia|]. destruct (Z.eq_dec z x) as [->|]; [|left; lia].
    assert (y = x) as -> by lia. right.
    destruct E1 as [?|E1]; [lia|]. destruct E2 as [?|E2]; [lia|]. by eapply (IH b).
Qed.

(** With keys of one length, [order_rows] is sorted. *)
Lemma order_rows_Sorted key n rows :
  (forall h, length (key h) = n) ->
  StronglySorted (fun a b => keys_lt (key b.2) (key a.2) b.1 a.1 = false) (order_rows key rows).
Proof.
  intros Hn. unfold order_rows.
  apply (isort_Sorted (fun a b => keys_lt (key a.2) (key b.2) a.1 b.1)).
  - intros x y. apply keys_lt_asym. by rewrite !Hn.
  - intros x y z. apply keys_nlt_trans; by rewrite !Hn.
Qed.

(** The first row is not above any other. *)
Lemma order_rows_head key n rows x :
  (forall h, length (key h) = n) -> hd_error (order_rows key rows) = Some x ->
  x ∈ rows /\ forall y, y ∈ rows -> keys_lt (key y.2) (key x.2) y.1 x.1 = false.
Proof.
  intros Hn Hx. pose proof (order_rows_Sorted key n rows Hn) as Hs.
  destruct (order_rows key rows) as [|z l] eqn:E; [done|]. injection Hx as ->.
  assert (Hin : forall y, y ∈ rows <-> y ∈ x :: l) by (intros y; by rewrite <-E, elem_order_rows).
  split; [apply Hin; by left|]. intros y [->|Hy]%Hin%elem_of_cons.
  - destruct (keys_lt _ _ _ _) eqn:K; [|done].
    pose proof (keys_lt_asym _ _ _ _ eq_refl K). congruence.
  - apply StronglySorted_inv in Hs as [_ Hf]. by eapply Forall_forall in Hf.
Qed.

Section Claims.
Context {U : Unicode} (json_bytes : ScanJob -> Z) (cfg : limits).

Abbreviation exec := (JobSteps.exec json_bytes cfg).
Abbreviation run := (JobLease.run json_bytes cfg).

(** ** Capacity *)

Lemma rows_where_set_head p id h d :
  (length (rows_where p (set_head id h d)) <= S (length (rows_where p d)))%nat.
Proof.
  unfold rows_where. rewrite set_head_heads.
  rewrite <-insert_delete_eq, map_to_list_insert by apply lookup_delete_eq.
  trans (S (length (base.filter (fun r : str * job_head => p r.1 r.2) (map_to_list (delete id (heads d)))))).
  { rewrite filter_cons. case_decide; simpl; lia. }
  apply le_n_S. destruct (heads d !! id) as [h0|] eqn:E.
  - rewrite <-(insert_delete_id (heads d) id h0 E) at 2.
    rewrite map_to_list_insert by apply lookup_delete_eq.
    rewrite filter_cons. case_decide; simpl; lia.
  - by rewrite delete_id.
Qed.

Lemma active_count_heads t d d' : heads d' = heads d -> active_count t d' = active_count t d.
Proof. unfold active_count, rows_where. by intros ->. Qed.

(** ** Retention limits *)

Definition within_limits (d : db) : Prop :=
  (max_jobs cfg = 0 \/ Z.of_nat (size (heads d)) <= max_jobs cfg) /\
  (max_history cfg = 0 \/ Z.of_nat (length (events d)) <= max_history cfg).

Lemma add_event_limit job rev at_ bytes d d' :
  0 <= max_history cfg -> add_event cfg job rev at_ bytes d = Ok d' ->
  max_history cfg = 0 \/ Z.of_nat (length (events d')) <= max_history cfg.
Proof using Type.
  clear json_bytes. intros Hp. unfold add_event. case_match; [done|].
  case_match; [left; lia|]. case_match; intros [= <-]; right; simpl.
  - rewrite length_drop. lia.
  - lia.
Qed.

Lemma make_room_size d d' :
  make_room_for_job cfg d = Ok d' -> 0 <= max_jobs cfg ->
  (max_jobs cfg = 0 \/ Z.of_nat (size (heads d)) <= max_jobs cfg) ->
  max_jobs cfg = 0 \/ Z.of_nat (size (heads d')) < max_jobs cfg.
Proof.
  unfold make_room_for_job. intros Hm Hp Hb.
  destruct (max_jobs cfg =? 0) eqn:E0; [left; lia|]. right. simplify_eq.
  destruct (_ <? _) eqn:El; [simplify_eq; lia|].
  destruct (take _ _) as [|r rows] eqn:Et; [done|]. simplify_eq. simpl.
  assert (Hr : r ∈ rows_where (fun _ h => terminal (hd_state h)) d).
  { rewrite <-(elem_order_rows (fun h => [hd_updated_at_us h])).
    eapply (subseteq_take _ _). rewrite Et. by left. }
  destruct r as [i h]. apply elem_rows_where in Hr as [_ Hi]. simpl.
  set (m := foldr _ _ rows).
  assert (Hsub : delete i m ⊆ delete i (heads d)).
  { apply delete_mono. subst m. clear Et. induction rows as [|r rows IH]; simpl; [done|].
    etransitivity; [apply delete_subseteq|exact IH]. }
  pose proof (map_subseteq_size _ _ Hsub) as Hs.
  rewrite (map_size_delete i (heads d)), Hi in Hs.
  assert (size (heads d) <> 0%nat) by (intros Hz%map_size_empty_inv; rewrite Hz in Hi; done).
  lia.
Qed.

Lemma set_head_size id h h0 d : heads d !! id = Some h0 -> size (heads (set_head id h d)) = size (heads d).
Proof. intros Hi. rewrite set_head_heads, map_size_insert, Hi. done. Qed.

Definition history_ok (d : db) : Prop :=
  max_history cfg = 0 \/ Z.of_nat (length (events d)) <= max_history cfg.

Lemma exec_history c d : 0 <= max_history cfg -> history_ok d -> history_ok (exec c d).
Proof.
  intros Hp Hd. unfold history_ok in *.
  assert (Hfail : forall now d1, fail_exhausted json_bytes cfg now d = Ok d1 -> history_ok d1).
  { intros now d1. apply (foldm_ind (fun d _ => history_ok d)); [|done].
    intros d0 [i row] rows d2 _. unfold fail_row. intros ([jx bx] & _ & Ha)%bind_Ok_inv.
    by eapply add_event_limit. }
  destruct c; simpl.
  - unfold create. destruct (_ ≫= _) as [[[j b] k]|]; [|done].
    apply (transaction_inv history_ok); [done|]. intros ? d'. unfold create_tx.
    case_match; [by repeat case_match; intros [= <- <-]|]. case_match; [done|].
    intros (d1 & _ & (d2 & Ha & [= <- <-])%bind_Ok_inv)%bind_Ok_inv. by eapply add_event_limit.
  - apply (transaction_inv history_ok); [done|]. intros ? d'. unfold update_derived_tx. cbv zeta.
    destruct (heads d !! _) as [row|]; [|by intros [= <- <-]].
    destruct (sj_state (hd_payload row)), (sj_result (hd_payload row)); try by intros [= <- <-].
    destruct (derived_open _); [|by intros [= <- <-]].
    intros ([jx bx] & _ & Hx)%bind_Ok_inv. destruct (bool_decide _); [|done].
    apply bind_Ok_inv in Hx as (d2 & Ha & [= <- <-]). by eapply add_event_limit.
  - unfold claim_next. case_match; [done|]. apply (transaction_inv history_ok); [done|].
    intros ? d'. unfold claim_tx. intros (d1 & Hf & Hx)%bind_Ok_inv. specialize (Hfail _ _ Hf).
    revert Hx. cbv zeta. destruct (max_running <=? Z.of_nat _); [intros [= <- <-]; exact Hfail|].
    destruct (select_candidate _ _ _) as [[id row]|]; [|intros [= <- <-]; exact Hfail].
    intros ([jx bx] & _ & (? & _ & Hx)%bind_Ok_inv)%bind_Ok_inv. revert Hx.
    destruct (_ !! _) as [h|]; [|intros [= <- <-]; exact Hfail].
    destruct (hd_revision h =? _); [|intros [= <- <-]; exact Hfail].
    intros (d2 & Ha & [= <- <-])%bind_Ok_inv. by eapply add_event_limit.
  - unfold acquire_target_operation. case_match; [done|].
    apply (transaction_inv history_ok); [done|]. intros ? d'. unfold acquire_tx. cbv zeta.
    case_match; [by intros [= <- <-]|]. intros (? & _ & Hx)%bind_Ok_inv. revert Hx.
    by case_match; intros [= <- <-].
  - apply (transaction_inv history_ok); [done|]. intros ? d'. unfold release_tx.
    by repeat case_match; intros [= <- <-].
  - unfold renew_target_operation. case_match; [done|].
    apply (transaction_inv history_ok); [done|]. intros ? d'. unfold renew_op_tx.
    by repeat case_match; intros [= <- <-].
  - unfold renew. case_match; [done|]. apply (transaction_inv history_ok); [done|].
    intros ? d'. unfold renew_tx. by intros (row & _ & [= <- <-])%bind_Ok_inv.
  - unfold complete. repeat (case_match; try done). apply (transaction_inv history_ok); [done|].
    intros ? d'. unfold complete_tx.
    intros (row & _ & (? & _ & (d2 & Ha & [= <- <-])%bind_Ok_inv)%bind_Ok_inv)%bind_Ok_inv.
    by eapply add_event_limit.
  - apply (transaction_inv history_ok); [done|]. intros ? d'. unfold request_cancel_tx. cbv zeta.
    destruct (heads d !! _) as [row|]; [|done]. destruct (bool_decide _); [by intros [= <- <-]|].
    intros ([jx bx] & _ & (d2 & Ha & [= <- <-])%bind_Ok_inv)%bind_Ok_inv. by eapply add_event_limit.
  - apply (transaction_inv history_ok); [done|]. intros ? d'. unfold manual_retry_tx. simpl.
    destruct (heads d !! _) as [row|]; [|done]. destruct (bool_decide _); simpl; [|done].
    intros ([jx bx] & _ & (d2 & Ha & [= <- <-])%bind_Ok_inv)%bind_Ok_inv. by eapply add_event_limit.
Qed.

(** Only a creation adds a row. *)
Lemma rtc_no_create allow id o :
  ~ allow ByCreate -> rtc (row_step json_bytes cfg allow id) None o -> o = None.
Proof.
  intros Hn Hr. remember None as o0 eqn:E. revert E. induction Hr as [|o1 o2 o3 Hs _ IH]; [done|].
  intros ->. inversion Hs; subst; done.
Qed.

Lemma refines_size allow d d' :
  refines json_bytes cfg allow d d' -> (forall id, ~ allow id ByCreate) ->
  (size (heads d') <= size (heads d))%nat.
Proof.
  intros Hr Hn. rewrite <-!(size_dom (D := gset str)). apply subseteq_size.
  intros id. rewrite !elem_of_dom. intros [h' Hh']. specialize (Hr id).
  destruct (heads d !! id) as [h|] eqn:E; [done|].
  apply rtc_no_create in Hr; [congruence|by apply Hn].
Qed.

Lemma exec_rows c d : 0 <= max_jobs cfg -> consistent d ->
  (max_jobs cfg = 0 \/ Z.of_nat (size (heads d)) <= max_jobs cfg) ->
  max_jobs cfg = 0 \/ Z.of_nat (size (heads (exec c d))) <= max_jobs cfg.
Proof.
  intros Hp Hc Hb. destruct (match c with Create _ _ _ => true | _ => false end) eqn:Ecr.
  - destruct c as [job key fp| | | | | | | | |]; try discriminate Ecr. simpl.
    unfold create. destruct (_ ≫= _) as [[[j b] k]|]; [|done].
    apply (transaction_inv (fun d => max_jobs cfg = 0 \/ Z.of_nat (size (heads d)) <= max_jobs cfg));
      [done|]. intros a d'. unfold create_tx.
    case_match; [by repeat case_match; intros [= <- <-]|]. case_match; [done|].
    intros (d1 & Hm & (d2 & [Hh _]%add_event_tables & [= <- <-])%bind_Ok_inv)%bind_Ok_inv.
    rewrite Hh. destruct (make_room_size _ _ Hm Hp Hb) as [?|?]; [by left|right].
    simpl. rewrite map_size_insert. case_match; simpl; lia.
  - destruct Hb as [?|Hb]; [by left|right].
    pose proof (refines_size _ _ _ (exec_refines_machine json_bytes cfg c d Hc)) as Hs.
    assert (size (heads (exec c d)) <= size (heads d))%nat 
      by (apply Hs; intros id; destruct c; naive_solver).
    lia.
Qed.

Lemma exec_within_limits c d :
  0 <= max_jobs cfg -> 0 <= max_history cfg -> consistent d -> within_limits d ->
  within_limits (exec c d).
Proof. intros ??? [??]. split; [by apply exec_rows|by apply exec_history]. Qed.

(** ** Idempotency keys *)

(** A key names at most one row. *)
Definition keys_unique (d : db) : Prop :=
  forall i j h h' k, heads d !! i = Some h -> heads d !! j = Some h' ->
    hd_idempotency_key h = Some k -> hd_idempotency_key h' = Some k -> i = j.

Definition same_request (h h' : job_head) : Prop :=
  hd_idempotency_key h = hd_idempotency_key h' /\
  hd_request_fingerprint h = hd_request_fingerprint h'.

Lemma rtc_request allow id o o' :
  ~ allow ByCreate -> rtc (row_step json_bytes cfg allow id) o o' ->
  forall h', o' = Some h' -> exists h, o = Some h /\ same_request h h'.
Proof.
  intros Hn. induction 1 as [|o1 o2 o3 Hs _ IH]; [intros h ->; by exists h|].
  intros h' E. destruct (IH h' E) as (h2 & -> & Hr2).
  inversion Hs; subst; clear Hs; try done; eexists; (split; [done|]);
    revert Hr2; unfold same_request, fence_row; try case_match; done.
Qed.

Lemma find_by_key_Some k d i h :
  find_by_key k d = Some (i, h) -> heads d !! i = Some h /\ hd_idempotency_key h = Some k.
Proof.
  unfold find_by_key. destruct (rows_where _ d) as [|x l] eqn:E; [done|]. intros [= ->].
  assert (Hin : (i, h) ∈ (i, h) :: l) by by left.
  rewrite <-E, elem_rows_where, bool_decide_eq_true in Hin. naive_solver.
Qed.

Lemma find_by_key_None k d i h :
  find_by_key k d = None -> heads d !! i = Some h -> hd_idempotency_key h = Some k -> False.
Proof.
  unfold find_by_key. destruct (rows_where _ d) as [|x l] eqn:E; [|done]. intros _ Hi Hk.
  assert ((i, h) ∈ rows_where (fun _ h => bool_decide (hd_idempotency_key h = Some k)) d) as Hin.
  { apply elem_rows_where. by rewrite bool_decide_true. }
  rewrite E in Hin. by apply not_elem_of_nil in Hin.
Qed.

Lemma keys_unique_incl d d' :
  (forall i h', heads d' !! i = Some h' -> exists h, heads d !! i = Some h /\ same_request h h') ->
  keys_unique d -> keys_unique d'.
Proof.
  intros Hi Hu i j h h' k H1 H2 K1 K2.
  destruct (Hi _ _ H1) as (h1 & ? & E1 & _), (Hi _ _ H2) as (h2 & ? & E2 & _).
  eapply (Hu i j h1 h2 k); congruence.
Qed.

Lemma exec_keys_unique c d : consistent d -> keys_unique d -> keys_unique (exec c d).
Proof.
  intros Hc Hu. destruct (match c with Create _ _ _ => true | _ => false end) eqn:Ecr.
  - destruct c as [job key fp| | | | | | | | |]; try discriminate Ecr. simpl.
    unfold create. destruct (_ ≫= _) as [[[j b] key']|]; [|done].
    apply (transaction_inv keys_unique); [done|]. intros a d'. unfold create_tx.
    destruct (key' ≫= _) as [[? ?]|] eqn:Ek; [by repeat case_match; intros [= <- <-]|].
    destruct (heads d !! sj_job_id j) eqn:El; [done|].
    intros (d1 & (_ & _ & Hr)%make_room_spec & (d2 & [Hh _]%add_event_tables & [= <- <-])%bind_Ok_inv)%bind_Ok_inv.
    assert (Hold : forall i h, i <> sj_job_id j -> heads d2 !! i = Some h -> heads d !! i = Some h).
    { intros i h Hne Hi. rewrite Hh in Hi. simpl in Hi. rewrite lookup_insert_ne in Hi by done.
      destruct (Hr i) as [E|(? & ? & ? & ?)]; congruence. }
    assert (Hnew : forall h, heads d2 !! sj_job_id j = Some h -> hd_idempotency_key h = key').
    { intros h Hi. rewrite Hh in Hi. simpl in Hi. rewrite lookup_insert_eq in Hi. by injection Hi as <-. }
    assert (Hno : forall i h k, i <> sj_job_id j -> heads d2 !! i = Some h ->
                    hd_idempotency_key h = Some k -> key' = Some k -> False).
    { intros i h k Hne Hi Hk ->. eapply find_by_key_None; [exact Ek|by eapply Hold|done]. }
    intros i i' h h' k H1 H2 K1 K2.
    destruct (decide (i = sj_job_id j)) as [->|Hi], (decide (i' = sj_job_id j)) as [->|Hi']; [done| | |].
    + exfalso. eapply Hno; [exact Hi'|exact H2|exact K2|]. by rewrite <-(Hnew h H1).
    + exfalso. eapply Hno; [exact Hi|exact H1|exact K1|]. by rewrite <-(Hnew h' H2).
    + eapply Hu; eauto.
  - eapply keys_unique_incl; [|exact Hu]. intros i h' Hi.
    eapply (rtc_request _ i _ _ _ (exec_refines_machine json_bytes cfg c d Hc i)); exact Hi.
    Unshelve. destruct c; naive_solver.
Qed.

Lemma run_keys_unique cs d : consistent d -> keys_unique d -> keys_unique (run cs d).
Proof.
  revert d. induction cs as [|c cs IH]; intros d Hc Hu; [done|].
  apply IH; [by apply exec_consistent|by apply exec_keys_unique].
Qed.

Lemma run_request cs id d :
  consistent d -> no_restart id ByCreate cs ->
  forall h', heads (run cs d) !! id = Some h' ->
  exists h, heads d !! id = Some h /\ same_request h h'.
Proof.
  intros Hc Hn. revert d Hc. induction Hn as [|c cs Hn _ IH]; intros d Hc h' Hh; [by exists h'|].
  destruct (IH (exec c d) (exec_consistent json_bytes cfg c d Hc) h' Hh) as (h1 & H1 & ? & ?).
  destruct (rtc_request _ id _ _ Hn (exec_refines_machine json_bytes cfg c d Hc id) h1 H1) as (h & ? & ? & ?).
  exists h. split; [done|]. split; congruence.
Qed.

(** ** Finished and cancelled jobs *)

(** States a job cannot leave without being started over. *)
Definition closing (s : ScanJobState) : bool := terminal s || bool_decide (s = CANCELLING).

Lemma row_step_closing allow id o h' :
  (forall r, ~ allow r) -> (forall h, o = Some h -> row_ok id h) ->
  row_step json_bytes cfg allow id o (Some h') ->
  exists h, o = Some h /\
    (terminal (hd_state h) = true -> hd_state h' = hd_state h) /\
    (closing (hd_state h) = true -> closing (hd_state h') = true).
Proof.
  intros Hn Hok Hs. inversion Hs; subst; clear Hs; try (by exfalso; eapply Hn);
    eexists; (split; [done|]); destruct (Hok _ eq_refl) as (_ & Hst & _); simpl;
    repeat match goal with H : JobStore.encode _ _ _ = Ok _ |- _ => apply encode_facts in H as (Es & _) end.
  - done.
  - unfold exhausted in *. simpl in *. destruct (hd_state h); try done;
      exfalso; rewrite andb_false_r in *; done.
  - unfold runnable in *. unfold claim_job in *. rewrite Hst in *.
    destruct (hd_state h) eqn:E; simpl in *; try done; rewrite ?Es; simpl; try done.
    rewrite Hst. done.
  - unfold fence_row. by case_match.
  - done.
  - unfold live in *. destruct (hd_state h) eqn:E; try done. split; [done|]. intros _.
    match goal with H : CANCELLING = CANCELLING -> _ |- _ => specialize (H eq_refl) end.
    unfold lands_after_cancel in *. rewrite Es in *.
    destruct (sj_state job0); try done;
      match goal with H : _ ∉ _ |- _ => exfalso; apply H; clear; set_solver end.
  - rewrite Hst in *. destruct (hd_state h); try done;
      match goal with H : _ ∉ _ |- _ => exfalso; apply H; clear; set_solver end.
Qed.

Lemma row_step_ok_opt allow id o o' :
  (forall h, o = Some h -> row_ok id h) -> row_step json_bytes cfg allow id o o' ->
  forall h, o' = Some h -> row_ok id h.
Proof. intros Hok Hs h ->. by eapply row_step_ok. Qed.

Lemma run_closing cs id d :
  consistent d -> (forall r, no_restart id r cs) ->
  forall h', heads (run cs d) !! id = Some h' ->
  exists h, heads d !! id = Some h /\
    (terminal (hd_state h) = true -> hd_state h' = hd_state h) /\
    (closing (hd_state h) = true -> closing (hd_state h') = true).
Proof.
  revert d. induction cs as [|c cs IH]; intros d Hc Hn h' Hh; [by exists h'|].
  destruct (IH (exec c d) (exec_consistent json_bytes cfg c d Hc)
              (fun r => Forall_inv_tail (Hn r)) h' Hh) as (h1 & H1 & Ht1 & Hc1).
  assert (Hn1 : forall r, ~ restarts c id r) by (intros r; exact (Forall_inv (Hn r))).
  pose proof (exec_refines_machine json_bytes cfg c d Hc id) as Hr. rewrite H1 in Hr.
  clear H1 Hh IH Hn. remember (Some h1) as o1 eqn:E. revert h1 E Ht1 Hc1.
  assert (Hok : forall h, heads d !! id = Some h -> row_ok id h) by (intros; by apply Hc).
  induction Hr as [|o o2 o3 Hs Hr IH]; intros h1 -> Ht1 Hc1; [by exists h1|].
  destruct (IH (row_step_ok_opt _ _ _ _ Hok Hs) h1 eq_refl Ht1 Hc1) as (h2 & -> & Ht2 & Hc2).
  destruct (row_step_closing _ _ _ _ Hn1 Hok Hs) as (h & -> & Ht & Hcl).
  exists h. split; [done|]. split; [|auto]. intros Hth. rewrite <-(Ht Hth). apply Ht2. by rewrite (Ht Hth).
Qed.
End Claims.
