(* ===== verification/JobProps.v ===== *)
(** * What the job repository promises ([form/src/kcatta_form/job_store.py])

    Properties of any history of repository calls from the empty database:
    mutual exclusion on a target, fencing of taken-over leases, the choice and
    the capacity of [claim_next], finality, idempotent creation, retention. *)

From S2P Require Import Prelude PyText PyHash PyFloat ScanSchemas JobStore JobSteps JobLease JobClaim.
From stdpp Require Import base gmap list strings numbers relations.
From Stdlib Require Import ZArith Lia.

#[local] Open Scope Z_scope.

(** ** Sample data for the witnesses *)

Definition sample_job (id target : String.string) (created : Z) : ScanJob :=
  mkJob (u id) (u target) (u "10.0.0.1") HOST None PENDING default_options created None None
    None None None 0 3 None None.

Definition no_claim : claimed := mkClaim (sample_job "" "" 0) [] 0 [] 0.

(** The claim a call returned. *)
Definition granted (r : res (option claimed) * db) : claimed :=
  match r.1 with Ok (Some cl) => cl | _ => no_claim end.

Definition sample_bytes (j : ScanJob) : Z := 200.

Definition second : Z := 1000000.

Lemma empty_consistent : consistent empty_db.
Proof. intros i h Hi. by destruct (lookup_empty_Some _ _ Hi). Qed.

Lemma empty_exclusive t : exclusive t empty_db.
Proof. intros target [id|] y Hx; simpl in Hx; destruct Hx as (? & Hi & _); by destruct (lookup_empty_Some _ _ Hi). Qed.

Lemma empty_keys_unique : keys_unique empty_db.
Proof. intros i j h h' k Hi. by destruct (lookup_empty_Some _ _ Hi). Qed.

Section Props.
Context {U : Unicode} (json_bytes : ScanJob -> Z) (cfg : limits).

Abbreviation exec := (JobSteps.exec json_bytes cfg).
Abbreviation run := (JobLease.run json_bytes cfg).
Abbreviation encode := (JobStore.encode json_bytes cfg).

(** What a claim that returned wrote, from the swept database [d2]. *)
Lemma claim_next_Ok worker now ttl m ex token d r d' :
  consistent d -> claim_next json_bytes cfg worker now ttl m ex token d = (Ok r, d') ->
  exists d1, consistent d1 /\ fail_exhausted json_bytes cfg now d = Ok d1 /\
    refines json_bytes cfg (fun _ _ => False) d d1 /\
    (let d2 := expire_ops (micros now) d1 in
     (r = None /\ d' = d2 /\
        (m <= Z.of_nat (active_count (micros now) d2) \/ select_candidate (micros now) ex d2 = None)) \/
     exists id row job bytes,
       Z.of_nat (active_count (micros now) d2) < m /\
       select_candidate (micros now) ex d2 = Some (id, row) /\
       claimable (micros now) d2 ex id row = true /\ heads d2 !! id = Some row /\
       encode (claim_job now (hd_payload row)) = Ok (job, bytes) /\ sj_job_id job = id /\
       r = Some (mkClaim job token (hd_lease_epoch row + 1) worker (now + ttl)) /\
       heads d' = heads (set_head id (claim_row job bytes now (now + ttl) worker token row) d2) /\
       ops d' = ops d2).
Proof.
  intros Hc. unfold claim_next. case_match; [done|]. unfold transaction.
  destruct (claim_tx _ _ _ _ _ _ _ _ _) as [[r0 d0]|] eqn:Hx; [|done]. intros [= <- <-].
  pose proof Hx as Hx0.
  destruct (claim_tx_spec json_bytes cfg (fun _ _ => False) _ _ _ _ _ _ _ _ _ Hc Hx)
    as (d1 & Hr & Hc1 & Hf & Hcase).
  exists d1. split; [done|]. split; [done|]. split; [done|]. cbv zeta in *.
  destruct Hcase as [[-> ->]|(id & row & job & bytes & Hm & Hs & Hrow & Hcl & He & _ & Hid & -> & Ha)].
  - left. split; [done|]. split; [done|]. unfold claim_tx in Hx0. rewrite Hf in Hx0. simpl in Hx0.
    destruct (m <=? Z.of_nat _) eqn:Em; [left; lia|].
    destruct (select_candidate _ _ _) as [[id row]|] eqn:Es; [|by right].
    exfalso. apply bind_Ok_inv in Hx0 as ([job bytes] & He & (? & _ & Hx0)%bind_Ok_inv).
    destruct (select_candidate_spec _ _ _ _ _ Es) as [Hrow _].
    assert (sj_job_id job = id) as Hid.
    { destruct (encode_facts _ _ _ _ _ He) as (_ & -> & _). rewrite claim_job_id.
      by destruct (Hc1 id row Hrow) as (-> & _). }
    simpl in Hrow. rewrite Hid, Hrow, Z.eqb_refl in Hx0.
    by apply bind_Ok_inv in Hx0 as (d2 & _ & ?).
  - right. exists id, row, job, bytes. apply add_event_tables in Ha as [-> ->]. done.
Qed.

(** The row a granted claim left, and the one it was taken from. *)
Lemma claim_next_granted worker now ttl m ex token d cl d' :
  consistent d -> claim_next json_bytes cfg worker now ttl m ex token d = (Ok (Some cl), d') ->
  exists h, heads d' !! sj_job_id (cl_job cl) = Some h /\
    hd_lease_epoch h = cl_lease_epoch cl /\ exists h0, heads d !! sj_job_id (cl_job cl) = Some h0 /\ (hd_lease_epoch h0 < cl_lease_epoch cl)%Z.
Proof.
  intros Hc Hx. destruct (claim_next_Ok _ _ _ _ _ _ _ _ _ Hc Hx) as (d1 & _ & _ & Hr & Hcase).
  destruct Hcase as [(? & _)|(id & row & job & bytes & _ & _ & _ & Hrow & _ & Hid & Hcl & Hh & _)]; [done|].
  injection Hcl as ->. simpl. rewrite Hid, Hh, set_head_heads, lookup_insert_eq.
  eexists. split; [done|]. split; [done|].
  destruct (rtc_epoch json_bytes cfg _ _ _ _ (fun f => f) (Hr id) row Hrow) as (h0 & ? & ?).
  exists h0. split; [done|lia].
Qed.

(** The row a creation stored. *)
Lemma create_stores job key fp d job' d' :
  create json_bytes cfg job (Some key) fp d = (Ok (job', true), d') ->
  exists k, normalize_key (Some key) fp = Ok (Some k) /\
  exists h, heads d' !! sj_job_id job' = Some h /\ hd_idempotency_key h = Some k /\
    hd_request_fingerprint h = fp.
Proof.
  unfold create. destruct (normalize_key (Some key) fp) as [k|] eqn:Ek;
    destruct (encode job) as [[j b]|]; simpl; try done.
  assert (exists k', k = Some k') as [k' ->].
  { unfold normalize_key in Ek. apply bind_Ok_inv in Ek as (? & _ & (? & _ & [= <-])%bind_Ok_inv). by eexists. }
  unfold transaction. destruct (create_tx _ _ _ _ _ _) as [[x d0]|] eqn:Et; [|done].
  intros [= -> ->]. exists k'. split; [done|]. unfold create_tx in Et.
  destruct (_ ≫= _) as [[? ?]|]; [by case_match|].
  destruct (heads d !! _); [done|].
  apply bind_Ok_inv in Et as (d1 & _ & (d2 & [Hh _]%add_event_tables & [= <- <-])%bind_Ok_inv).
  rewrite Hh. simpl. rewrite lookup_insert_eq. by eexists.
Qed.

(** The rows after a creation. *)
Lemma create_row job key fp d x d' :
  create json_bytes cfg job key fp d = (Ok x, d') ->
  forall id h, heads d' !! id = Some h ->
    heads d !! id = Some h \/
    (id = sj_job_id job /\ hd_state h = sj_state job /\ hd_lease_expires_at_us h = None).
Proof.
  unfold create. destruct (encode job) as [[j b]|] eqn:Ej; simpl; [|done].
  destruct (normalize_key key fp) as [k|]; simpl; [|done].
  destruct (encode_facts _ _ _ _ _ Ej) as (Hs & Hid & _).
  unfold transaction. destruct (create_tx _ _ _ _ _ _) as [[x0 d0]|] eqn:Et; [|done].
  intros [= -> ->] id h Hi. unfold create_tx in Et.
  destruct (_ ≫= _) as [[? ?]|]; [case_bool_decide; simplify_eq; by left|].
  destruct (heads d !! _) eqn:El; [done|].
  apply bind_Ok_inv in Et as (d1 & (_ & _ & Hr)%make_room_spec & (d2 & [Hh _]%add_event_tables & [= <- <-])%bind_Ok_inv).
  rewrite Hh in Hi. simpl in Hi. destruct (decide (id = sj_job_id j)) as [->|Hne].
  - rewrite lookup_insert_eq in Hi. injection Hi as <-. right. rewrite <-Hid, <-Hs. done.
  - rewrite lookup_insert_ne in Hi by done. left.
    destruct (Hr id) as [E|(? & ? & ? & ?)]; congruence.
Qed.


(** C2. Once [claim_next] hands a job out again, the previous claim of the job
    has a smaller lease epoch and is dead for good: whatever happens next, and
    whatever the clocks say, its [renew] raises [LeaseLostError], its
    [complete] raises, and neither changes the database. *)
Theorem stale_claim_rejected cs0 cs1 cs2 w1 now1 ttl1 m1 ex1 tok1 w2 now2 ttl2 m2 ex2 tok2
    cl1 cl2 d1 d2 :
  let id := sj_job_id (cl_job cl1) in
  claim_next json_bytes cfg w1 now1 ttl1 m1 ex1 tok1 (run cs0 empty_db) = (Ok (Some cl1), d1) ->
  claim_next json_bytes cfg w2 now2 ttl2 m2 ex2 tok2 (run cs1 d1) = (Ok (Some cl2), d2) ->
  sj_job_id (cl_job cl2) = id ->
  no_restart id ByCreate cs1 -> no_restart id ByCreate cs2 ->
  let d3 := run cs2 d2 in
  cl_lease_epoch cl1 < cl_lease_epoch cl2 /\
  (forall now ttl, 0 < ttl -> renew cl1 now ttl d3 = (Raise LeaseLostError, d3)) /\
  (forall job now, exists e, complete json_bytes cfg cl1 job now d3 = (Raise e, d3)).
Proof.
  intros id H1 H2 Hid Hn1 Hn2 d3.
  assert (Hc0 : consistent (run cs0 empty_db)) by apply run_consistent, empty_consistent.
  assert (Hc1 : consistent d1).
  { pose proof (exec_consistent json_bytes cfg (ClaimNext w1 now1 ttl1 m1 ex1 tok1) _ Hc0) as H.
    simpl in H. by rewrite H1 in H. }
  pose proof (run_consistent json_bytes cfg cs1 d1 Hc1) as Hc1'.
  assert (Hc2 : consistent d2).
  { pose proof (exec_consistent json_bytes cfg (ClaimNext w2 now2 ttl2 m2 ex2 tok2) _ Hc1') as H.
    simpl in H. by rewrite H2 in H. }
  destruct (claim_next_granted _ _ _ _ _ _ _ _ _ Hc0 H1) as (h1 & Hh1 & He1 & _).
  destruct (claim_next_granted _ _ _ _ _ _ _ _ _ Hc1' H2) as (h2 & Hh2 & He2 & hp & Hhp & Hep).
  rewrite Hid in Hh2, Hhp.
  destruct (run_epoch json_bytes cfg cs1 id d1 Hc1 Hn1 hp Hhp) as (hx & Hx & ?).
  fold id in Hh1. assert (hx = h1) as -> by congruence.
  assert (Hout : outdated id (cl_lease_epoch cl1) d3).
  { apply run_outdated; [done|done|]. intros h Hh. assert (h = h2) as -> by congruence. lia. }
  split; [lia|]. split.
  - intros now ttl Ht. unfold renew. rewrite (proj2 (Z.leb_gt _ _)) by lia.
    unfold transaction, renew_tx. by rewrite outdated_rejected.
  - intros job now. unfold complete. destruct (encode job) as [[j b]|e]; [|by exists e].
    repeat (case_match; [by eexists|]). unfold transaction, complete_tx.
    rewrite outdated_rejected by done. by eexists.
Qed.


(** C4. A claim takes, among the rows that may run now after the sweep of
    exhausted jobs and lapsed operations, the first one in the order of the
    claim query: cancelled work before interrupted work before queued work,
    then by availability, then by age.  The row becomes in-flight under the
    worker's lease, its target was not held by anybody else, a queued job does
    not exceed its attempts, and the capacity is respected. *)
Theorem claim_next_grants_best worker now ttl m ex token d cl d' :
  consistent d -> claim_next json_bytes cfg worker now ttl m ex token d = (Ok (Some cl), d') ->
  let id := sj_job_id (cl_job cl) in
  exists d1 row h',
    fail_exhausted json_bytes cfg now d = Ok d1 /\
    let d2 := expire_ops (micros now) d1 in
    heads d2 !! id = Some row /\ claimable (micros now) d2 ex id row = true /\
    (forall i h, heads d2 !! i = Some h -> claimable (micros now) d2 ex i h = true ->
       keys_lt (claim_rank h) (claim_rank row) i id = false) /\
    (forall x, holds (micros now) d2 (hd_target_id row) x -> x = ByJob id) /\
    heads d' !! id = Some h' /\ hd_payload h' = cl_job cl /\ active (hd_state h') = true /\
    hd_lease_owner h' = Some worker /\
    hd_lease_token_hash h' = Some (token_hash (cl_lease_token cl)) /\
    hd_lease_expires_at_us h' = Some (micros (now + ttl)) /\
    hd_lease_epoch h' = cl_lease_epoch cl /\
    (waiting (hd_state row) = true -> hd_attempt h' = hd_attempt row + 1 /\
                                      hd_attempt h' <= hd_max_attempts h') /\
    Z.of_nat (active_count (micros now) d') <= m.
Proof.
  intros Hc Hx id. destruct (claim_next_Ok _ _ _ _ _ _ _ _ _ Hc Hx) as (d1 & Hc1 & Hf & Hr & Hcase).
  cbv zeta in Hcase. set (d2 := expire_ops (micros now) d1) in *.
  destruct Hcase as [(? & _)|(i & row & job & bytes & Hm & Hs & Hcl & Hrow & He & Hid & Hr' & Hh & _)]; [done|].
  injection Hr' as ->. subst id. simpl. subst i.
  destruct (order_rows_head claim_rank 3 _ _ (fun _ => eq_refl) Hs) as [_ Hmin].
  pose proof Hcl as [[Hrun Hb%negb_true_iff]%andb_prop _]%andb_prop.
  destruct (Hc1 _ row Hrow) as (_ & Hst & Hat & Hmx & _).
  destruct (encode_facts _ _ _ _ _ He) as (Es & _ & Ea & Em).
  eexists d1, row, _. split; [done|]. split; [done|]. split; [done|].
  split. { intros i h Hi Hci. apply (Hmin (i, h)), elem_rows_where. done. }
  split. { intros x. by apply target_busy_false. }
  rewrite Hh, set_head_heads, lookup_insert_eq. split; [done|]. simpl.
  split; [done|]. split; [rewrite Es; apply claim_job_active|].
  repeat (split; [done|]). split.
  - intros Hw. unfold runnable in Hrun. rewrite Ea, Em. unfold claim_job. rewrite Hst.
    destruct (hd_state row); try done; simpl; rewrite Hat, Hmx; simpl in Hrun; lia.
  - rewrite (active_count_heads _ _ _ Hh). unfold active_count.
    pose proof (rows_where_set_head (fun _ h => live (micros now) h) (sj_job_id job)
      (claim_row job bytes now (now + ttl) worker token row) d2) as Hle.
    unfold active_count in Hm. lia.
Qed.

(** [claim_next] returns no job only for a reason: the worker capacity is
    exhausted by unexpired leases, or no row may run. *)
Theorem claim_next_none worker now ttl m ex token d d' :
  consistent d -> claim_next json_bytes cfg worker now ttl m ex token d = (Ok None, d') ->
  exists d1, fail_exhausted json_bytes cfg now d = Ok d1 /\ d' = expire_ops (micros now) d1 /\
    (m <= Z.of_nat (active_count (micros now) d') \/
     forall i h, heads d' !! i = Some h -> claimable (micros now) d' ex i h = false).
Proof.
  intros Hc Hx. destruct (claim_next_Ok _ _ _ _ _ _ _ _ _ Hc Hx) as (d1 & _ & Hf & _ & Hcase).
  exists d1. split; [done|].
  destruct Hcase as [(_ & -> & Hw)|(i & row & job & bytes & _ & _ & _ & _ & _ & _ & ? & _)]; [|done].
  split; [done|]. destruct Hw as [?|Hs]; [by left|right]. intros i h Hi.
  destruct (claimable _ _ _ _ _) eqn:E; [|done]. exfalso.
  assert ((i, h) ∈ order_rows claim_rank
            (rows_where (claimable (micros now) (expire_ops (micros now) d1) ex)
               (expire_ops (micros now) d1))) as Hin by by rewrite elem_order_rows, elem_rows_where.
  unfold select_candidate in Hs. destruct (order_rows _ _); [by apply not_elem_of_nil in Hin|done].
Qed.

(** Finality: as long as nobody creates or retries the job, a succeeded,
    failed or cancelled job keeps its state until it is evicted, and a job
    whose cancellation was requested never runs to a retry: it stays
    [CANCELLING] or finishes. *)
Theorem finished_stays_finished cs0 cs id h h' :
  let d := run cs0 empty_db in
  heads d !! id = Some h -> (forall r, no_restart id r cs) ->
  heads (run cs d) !! id = Some h' ->
  (terminal (hd_state h) = true -> hd_state h' = hd_state h) /\
  (hd_state h = CANCELLING -> closing (hd_state h') = true).
Proof.
  intros d Hh Hn Hh'.
  destruct (run_closing json_bytes cfg cs id d (run_consistent json_bytes cfg cs0 _ empty_consistent) Hn h' Hh')
    as (h0 & Hh0 & Ht & Hcl).
  assert (h0 = h) as -> by congruence. split; [done|]. intros E. apply Hcl. by rewrite E.
Qed.

(** Idempotent creation: after a creation under a key, and until the row is
    evicted or created anew, a second request under that key returns the same
    job without touching the database when the request is the same, and raises
    [JobConflictError] when it differs. *)
Theorem create_idempotent cs0 cs job key fp job' d' h job2 p fp2 :
  let d := run cs0 empty_db in
  create json_bytes cfg job (Some key) (Some fp) d = (Ok (job', true), d') ->
  no_restart (sj_job_id job') ByCreate cs ->
  heads (run cs d') !! sj_job_id job' = Some h ->
  encode job2 = Ok p -> fp2 <> [] ->
  create json_bytes cfg job2 (Some key) (Some fp2) (run cs d') =
    ((if bool_decide (fp2 = fp) then Ok (hd_payload h, false) else Raise JobConflictError), run cs d').
Proof.
  intros d Hcr Hn Hh He Hfp.
  assert (Hc : consistent d) by apply run_consistent, empty_consistent.
  assert (Hc' : consistent d') by (pose proof (exec_consistent json_bytes cfg (Create job (Some key) (Some fp)) d Hc) as H;
    simpl in H; by rewrite Hcr in H).
  assert (Hu : keys_unique (run cs d')).
  { apply run_keys_unique; [done|].
    pose proof (exec_keys_unique json_bytes cfg (Create job (Some key) (Some fp)) d Hc) as H.
    simpl in H. rewrite Hcr in H. apply H, run_keys_unique; [apply empty_consistent|apply empty_keys_unique]. }
  destruct (create_stores _ _ _ _ _ _ Hcr) as (k & Hk & h0 & Hh0 & Hk0 & Hf0).
  destruct (run_request json_bytes cfg cs _ d' Hc' Hn h Hh) as (hx & Hx & Hkx & Hfx).
  assert (hx = h0) as -> by congruence.
  unfold create. rewrite He. simpl in *. unfold normalize_key in *. simpl in *.
  revert Hk. destruct (_ || _); [done|]. simpl. destruct (bool_decide (fp = [])); [done|].
  intros [= <-]. rewrite bool_decide_false by done. simpl. destruct p as [j b].
  unfold transaction, create_tx. simpl.
  destruct (find_by_key (strip key) (run cs d')) as [[i hf]|] eqn:Ef.
  - apply find_by_key_Some in Ef as [Hi Hki].
    assert (i = sj_job_id job') as -> by (eapply Hu; [exact Hi|exact Hh|exact Hki|congruence]).
    assert (hf = h) as -> by congruence. rewrite <-Hfx, Hf0.
    repeat case_bool_decide; congruence.
  - exfalso. eapply find_by_key_None; [exact Ef|exact Hh|congruence].
Qed.

(** Retention: from the empty database the job table and the event history
    never outgrow the constructor's limits (0 disables a limit). *)
Theorem tables_within_limits cs :
  0 <= max_jobs cfg -> 0 <= max_history cfg -> within_limits cfg (run cs empty_db).
Proof.
  intros Hj Hh.
  assert (H : forall d, consistent d -> within_limits cfg d -> within_limits cfg (run cs d)).
  { induction cs as [|c cs IH]; intros d Hc Hw; [done|].
    apply IH; [by apply exec_consistent|by apply exec_within_limits]. }
  apply H; [apply empty_consistent|]. split; simpl; rewrite ?map_size_empty; lia.
Qed.

(** A completion that returns was fenced: the row existed and carried this
    claim's owner, token hash and epoch, its lease was unexpired, and a job
    being cancelled only accepted an outcome that may land.  It stores exactly
    the validated job, clears the lease, adds one to the revision and touches
    no other row. *)
Theorem complete_lands claim job now d j d' :
  complete json_bytes cfg claim job now d = (Ok j, d') ->
  let id := sj_job_id (cl_job claim) in
  exists row row',
    heads d !! id = Some row /\ hd_lease_owner row = Some (cl_lease_owner claim) /\
    hd_lease_token_hash row = Some (token_hash (cl_lease_token claim)) /\
    hd_lease_epoch row = cl_lease_epoch claim /\ live (micros now) row = true /\
    (hd_state row = CANCELLING -> lands_after_cancel j = true) /\
    validate_job job = Ok j /\ (sj_state j ∉ [PENDING; RUNNING; CANCELLING]) /\
    heads d' = <[id := row']> (heads d) /\ ops d' = ops d /\ get id d' = Some j /\
    hd_state row' = sj_state j /\ hd_lease_expires_at_us row' = None /\
    hd_lease_owner row' = None /\ hd_revision row' = hd_revision row + 1 /\
    hd_lease_epoch row' = hd_lease_epoch row.
Proof.
  unfold complete. destruct (encode job) as [[j0 b]|] eqn:Ej; [|done].
  case_bool_decide as Hid; simpl; [|done]. case_bool_decide as Hst; [done|].
  unfold transaction. destruct (complete_tx _ _ _ _ _ _) as [[x d0]|] eqn:Ec; [|done].
  intros [= -> ->]. unfold complete_tx in Ec.
  apply bind_Ok_inv in Ec as (row & (Hi & Ho & Ht & He & Hl & _)%leased_row_spec & Ec).
  apply bind_Ok_inv in Ec as (? & Hland%raise_if_Ok_inv & Ec).
  apply bind_Ok_inv in Ec as (d2 & [Hh Hop]%add_event_tables & [= -> ->]).
  assert (validate_job job = Ok j) as Hv.
  { unfold JobStore.encode in Ej. apply bind_Ok_inv in Ej as (v & -> & Ej). by case_match; simplify_eq. }
  eexists row, _. repeat (split; [done|]). split.
  { intros E. rewrite bool_decide_true in Hland by done. by apply negb_false_iff in Hland. }
  repeat (split; [done|]). rewrite Hh, Hid. split; [done|]. split; [done|].
  split; [|done]. unfold get. by rewrite Hh, Hid, set_head_heads, lookup_insert_eq.
Qed.

(** A job id whose row was evicted cannot be created again while the event
    of its creation is still in the history: the insert breaks the
    [UNIQUE(job_id, revision)] constraint and SQLite's [IntegrityError], which
    no caller catches, escapes instead of [JobConflictError]. *)
Theorem recreate_evicted_raises job fp d e :
  heads d !! sj_job_id job = None ->
  e ∈ events d -> ev_job_id e = sj_job_id job -> ev_revision e = 0 ->
  (exists p, encode job = Ok p) -> (exists d1, make_room_for_job cfg d = Ok d1) ->
  create json_bytes cfg job None fp d = (Raise IntegrityError, d).
Proof.
  intros Hn He Hid Hrev [[j b] Hj] [d1 Hm]. unfold create. rewrite Hj. simpl.
  destruct (encode_facts _ _ _ _ _ Hj) as (_ & Hjid & _).
  unfold transaction, create_tx. simpl. rewrite Hjid, Hn, Hm. simpl.
  unfold add_event. simpl. rewrite (proj2 (existsb_exists _ _)); [done|].
  destruct (make_room_spec _ _ _ Hm) as (_ & -> & _).
  exists e. rewrite <-list_elem_of_In. split; [done|].
  rewrite Hjid, Hrev, bool_decide_true by done. done.
Qed.

(** One exhausted row whose failure record cannot be stored stops the
    queue: [claim_next] raises for every worker, whatever other work waits, and
    leaves the database as it is. *)
Theorem exhausted_row_blocks_claims worker now ttl m ex token d id row e :
  heads d !! id = Some row -> exhausted (micros now) row = true ->
  encode (fail_job now (hd_payload row)) = Raise e ->
  exists e', claim_next json_bytes cfg worker now ttl m ex token d = (Raise e', d).
Proof.
  intros Hi Hx He. unfold claim_next. case_match; [by eexists|].
  assert (exists e', fail_exhausted json_bytes cfg now d = Raise e') as [e' Hf].
  { unfold fail_exhausted.
    assert (Hin : (id, row) ∈ rows_where (fun _ h => exhausted (micros now) h) d)
      by by apply elem_rows_where.
    set (rows := rows_where _ d) in *. clearbody rows. revert Hin. generalize d at 1.
    induction rows as [|r rows IH]; intros d0 Hin; [by apply not_elem_of_nil in Hin|]. simpl.
    apply elem_of_cons in Hin as [<-|Hin].
    - unfold fail_row. rewrite He. by eexists.
    - destruct (fail_row _ _ _ _ _) as [d1|e1]; [|by eexists]. simpl. by apply IH. }
  unfold transaction, claim_tx. rewrite Hf. by eexists.
Qed.

(** A row an import may have added: not in flight, without a lease, and in the
    state of its file or failed when that was in flight. *)
Definition imported (jobs : list (option ScanJob)) (id : str) (h : job_head) : Prop :=
  active (hd_state h) = false /\ hd_lease_expires_at_us h = None /\
  exists job, Some job ∈ jobs /\ sj_job_id job = id /\
    (hd_state h = sj_state job \/ (active (sj_state job) = true /\ hd_state h = FAILED)).

Lemma imported_cons x jobs id h : imported jobs id h -> imported (x :: jobs) id h.
Proof using Type.
  clear. intros (Ha & Hl & job & Hin & Hx). split; [done|]. split; [done|].
  exists job. split; [by right|done].
Qed.

(** Importing the legacy files never leaves a job in flight: every row it
    adds is in the state of its file, or failed when the file said running or
    cancelling; the rows that were there are unchanged while they stay. *)
Theorem import_legacy_fails_safe jobs now n d r d' :
  import_legacy json_bytes cfg jobs now n d = (r, d') ->
  forall id h, heads d' !! id = Some h -> heads d !! id = Some h \/ imported jobs id h.
Proof.
  revert n d. induction jobs as [|[job|] jobs IH]; intros n d; simpl.
  - intros [= <- <-]. by left.
  - assert (Hskip : forall n, import_legacy json_bytes cfg jobs now n d = (r, d') ->
      forall id h, heads d' !! id = Some h ->
      heads d !! id = Some h \/ imported (Some job :: jobs) id h).
    { intros n' Hx id h Hi. destruct (IH _ _ Hx id h Hi); [by left|right]. by apply imported_cons. }
    destruct (get _ d); [apply Hskip|].
    destruct (create json_bytes cfg (legacy_job now job) None None d) as [[[x created]|e] d1] eqn:Ec.
    + intros Hx id h Hi. destruct (IH _ _ Hx id h Hi) as [H1|?]; [|right; by apply imported_cons].
      destruct (create_row _ _ _ _ _ _ Ec id h H1) as [?|(-> & E1 & E2)]; [by left|right].
      unfold imported. rewrite E1, E2. unfold legacy_job.
      split; [by destruct (active (sj_state job)) eqn:E|]. split; [done|].
      exists job. split; [by left|]. destruct (active (sj_state job)); split; auto.
    + assert (d1 = d) as ->.
      { revert Ec. unfold create. destruct (_ ≫= _) as [[[? ?] ?]|]; [|by intros [= _ <-]].
        unfold transaction. by repeat case_match; intros [= _ <-]. }
      destruct e; try (by apply Hskip); by intros [= <- <-]; left.
  - intros Hx id h Hi. destruct (IH _ _ Hx id h Hi); [by left|right]. by apply imported_cons.
Qed.
End Props.

(** ** The properties at concrete histories *)

Section Witnesses.

Definition wl : limits := mkLimits 65536 10 100.
Definition job_a : ScanJob := sample_job "a" "host-1" 0.
Definition job_b : ScanJob := sample_job "b" "host-1" 1.

(** Two jobs for one target, a claim, and a direct operation that finds the
    target taken. *)
Definition history_1 : list call :=
  [Create job_a None None; Create job_b None None;
   ClaimNext (u "w1") second (10 * second) 4 [] (u "t1");
   AcquireOp (u "host-1") (u "op") (2 * second) second (u "t2")].


Definition claim_a (now : Z) (token : String.string) (d : db) : res (option claimed) * db :=
  claim_next sample_bytes wl (u "w") now second 4 [] (u token) d.

Lemma stale_claim_rejected_witness :
  let r1 := claim_a second "t1" (JobLease.run sample_bytes wl [Create job_a None None] empty_db) in
  let r2 := claim_a (5 * second) "t2" r1.2 in
  cl_lease_epoch (granted r1) < cl_lease_epoch (granted r2) /\
  renew (granted r1) second second r2.2 = (Raise LeaseLostError, r2.2).
Proof.
  intros r1 r2.
  destruct (stale_claim_rejected sample_bytes wl [Create job_a None None] [] []
    (u "w") second second 4 [] (u "t1") (u "w") (5 * second) second 4 [] (u "t2")
    (granted r1) (granted r2) r1.2 r2.2) as (He & Hr & _).
  - vm_compute. reflexivity.
  - vm_compute. reflexivity.
  - vm_compute. reflexivity.
  - constructor.
  - constructor.
  - split; [exact He|]. apply Hr. reflexivity.
Defined.

Lemma claim_next_grants_best_witness :
  let d := JobLease.run sample_bytes wl [Create job_a None None] empty_db in
  let r := claim_a second "t1" d in
  heads d !! u "a" <> None /\ exists h', heads r.2 !! u "a" = Some h' /\ active (hd_state h') = true.
Proof.
  intros d r. split; [vm_compute; discriminate|].
  destruct (claim_next_grants_best sample_bytes wl (u "w") second second 4 [] (u "t1") d
    (granted r) r.2) as (d1 & row & h' & _ & _ & _ & _ & _ & Hh & _ & Ha & _).
  - apply run_consistent, empty_consistent.
  - vm_compute. reflexivity.
  - exists h'. split; [exact Hh|exact Ha].
Defined.

Lemma claim_next_none_witness :
  let r1 := claim_a second "t1" (JobLease.run sample_bytes wl [Create job_a None None] empty_db) in
  let r2 := claim_next sample_bytes wl (u "w") (2 * second - 1) second 1 [] (u "t2") r1.2 in
  r2.1 = Ok None /\ exists d1, fail_exhausted sample_bytes wl (2 * second - 1) r1.2 = Ok d1.
Proof.
  intros r1 r2. split; [vm_compute; reflexivity|].
  destruct (claim_next_none sample_bytes wl (u "w") (2 * second - 1) second 1 [] (u "t2") r1.2 r2.2)
    as (d1 & Hd & _).
  - unfold r1, claim_a.
    pose proof (exec_consistent sample_bytes wl (ClaimNext (u "w") second second 4 [] (u "t1"))) as H.
    apply H, run_consistent, empty_consistent.
  - vm_compute. reflexivity.
  - exists d1. exact Hd.
Defined.

Lemma finished_stays_finished_witness :
  let cs0 := [Create job_a None None; RequestCancel (u "a") second] in
  let d := JobLease.run sample_bytes wl cs0 empty_db in
  let cs := [ClaimNext (u "w") (2 * second) second 4 [] (u "t")] in
  hd_state <$> heads (JobLease.run sample_bytes wl cs d) !! u "a" = Some CANCELLED.
Proof.
  intros cs0 d cs.
  assert (Hd : heads d !! u "a" = Some _) by (vm_compute; reflexivity).
  assert (Hd' : heads (JobLease.run sample_bytes wl cs d) !! u "a" = Some _) by (vm_compute; reflexivity).
  rewrite Hd'. cbn [fmap option_fmap option_map]. apply f_equal.
  refine (eq_trans (proj1 (finished_stays_finished sample_bytes wl cs0 cs (u "a") _ _ Hd _ Hd') eq_refl) eq_refl).
  intros []; repeat constructor; vm_compute; tauto.
Defined.

Lemma create_idempotent_witness :
  let key := u "k1" in
  let d' := (create sample_bytes wl job_a (Some key) (Some (u "f")) empty_db).2 in
  create sample_bytes wl job_b (Some key) (Some (u "f")) d' = (Ok (derive_mode job_a, false), d') /\
  create sample_bytes wl job_b (Some key) (Some (u "g")) d' = (Raise JobConflictError, d').
Proof.
  intros key d'.
  assert (H : forall fp2 h p, fp2 <> [] -> heads d' !! u "a" = Some h ->
    JobStore.encode sample_bytes wl job_b = Ok p ->
    create sample_bytes wl job_b (Some key) (Some fp2) d' =
      ((if bool_decide (fp2 = u "f") then Ok (hd_payload h, false) else Raise JobConflictError), d')).
  { intros fp2 h p Hne Hh Hp.
    apply (create_idempotent sample_bytes wl [] [] job_a key (u "f") (derive_mode job_a) d' h job_b p fp2).
    - vm_compute. reflexivity.
    - constructor.
    - exact Hh.
    - exact Hp.
    - exact Hne. }
  split.
  - etransitivity; [eapply H; [discriminate|vm_compute; reflexivity|vm_compute; reflexivity]|].
    vm_compute. reflexivity.
  - etransitivity; [eapply H; [discriminate|vm_compute; reflexivity|vm_compute; reflexivity]|].
    vm_compute. reflexivity.
Defined.

Lemma tables_within_limits_witness :
  within_limits wl (JobLease.run sample_bytes wl history_1 empty_db).
Proof. apply (tables_within_limits sample_bytes wl history_1); discriminate. Defined.

Lemma complete_lands_witness :
  let r := claim_a second "t1" (JobLease.run sample_bytes wl [Create job_a None None] empty_db) in
  let job := cl_job (granted r) <| sj_state := SUCCEEDED |> in
  let done := complete sample_bytes wl (granted r) job (second + 1) r.2 in
  done.1 = Ok job /\ get (u "a") done.2 = Some job.
Proof.
  intros r job done.
  assert (H : complete sample_bytes wl (granted r) job (second + 1) r.2 = (Ok job, done.2))
    by (vm_compute; reflexivity).
  split; [unfold done; rewrite H; reflexivity|].
  destruct (complete_lands sample_bytes wl (granted r) job (second + 1) r.2 job done.2 H)
    as (row & row' & _ & _ & _ & _ & _ & _ & _ & _ & _ & _ & Hg & _).
  exact Hg.
Defined.

(** A repository of one job: the second creation evicts the cancelled first. *)
Definition one_job : limits := mkLimits 65536 1 100.

Definition evicted : db :=
  JobLease.run sample_bytes one_job
    [Create job_a None None; RequestCancel (u "a") second; Create job_b None None;
     RequestCancel (u "b") second] empty_db.

Lemma recreate_evicted_raises_witness :
  create sample_bytes one_job job_a None None evicted = (Raise IntegrityError, evicted).
Proof.
  destruct (events evicted) as [|e l] eqn:E; [vm_compute in E; discriminate|].
  assert (He : hd_error (events evicted) = Some e) by (rewrite E; reflexivity).
  vm_compute in He. injection He as <-.
  eapply (recreate_evicted_raises sample_bytes one_job job_a None evicted).
  - vm_compute. reflexivity.
  - rewrite E. left.
  - reflexivity.
  - reflexivity.
  - eexists. vm_compute. reflexivity.
  - eexists. vm_compute. reflexivity.
Defined.

(** A job that grew past the record limit when it failed, and one that waits. *)
Definition growing_bytes (j : ScanJob) : Z := if bool_decide (sj_state j = FAILED) then 99 else 10.
Definition tight : limits := mkLimits 50 10 100.
Definition spent_job : ScanJob := job_a <| sj_state := RETRYING |> <| sj_attempt := 3 |>.

Lemma exhausted_row_blocks_claims_witness :
  let d := JobLease.run growing_bytes tight [Create spent_job None None; Create job_b None None] empty_db in
  exists e, claim_next growing_bytes tight (u "w") second second 4 [] (u "t") d = (Raise e, d).
Proof.
  intros d. assert (Hd : heads d !! u "a" = Some _) by (vm_compute; reflexivity).
  eapply (exhausted_row_blocks_claims growing_bytes tight (u "w") second second 4 [] (u "t") d
            (u "a") _ StorageCapacityError Hd).
  - vm_compute. reflexivity.
  - vm_compute. reflexivity.
Defined.

Lemma import_legacy_fails_safe_witness :
  let r := import_legacy sample_bytes wl [Some (job_a <| sj_state := RUNNING |>); None] second 0 empty_db in
  exists h, heads r.2 !! u "a" = Some h /\ active (hd_state h) = false.
Proof.
  intros r. assert (Hh : heads r.2 !! u "a" = Some _) by (vm_compute; reflexivity).
  eexists. split; [exact Hh|].
  destruct (import_legacy_fails_safe sample_bytes wl [Some (job_a <| sj_state := RUNNING |>); None]
    second 0 empty_db r.1 r.2 (surjective_pairing r) (u "a") _ Hh) as [He|[Ha _]].
  - destruct (lookup_empty_Some _ _ He).
  - exact Ha.
Defined.

(** [_micros] is not exact: the double [timestamp()] goes through drops a
    microsecond from instants between 2038 and 2041, so a lease of one
    microsecond granted then has already lapsed when it is granted. *)
Theorem micros_drops_a_microsecond :
  let now := 2234584346000002 in
  micros now = now /\ micros (now + 1) = now /\
  forall h, active (hd_state h) = true -> hd_lease_expires_at_us h = Some (micros (now + 1)) ->
    live (micros now) h = false.
Proof.
  intros now. assert (H1 : micros now = now) by (vm_compute; reflexivity).
  assert (H2 : micros (now + 1) = now) by (vm_compute; reflexivity).
  split; [done|]. split; [done|]. intros h _ Hl. unfold live, gt_sql.
  by rewrite Hl, H1, H2, Z.ltb_irrefl, andb_false_r.
Qed.
End Witnesses.
