(* ===== verification/Compare.v ===== *)
(** * Three-way comparators

    The version comparators of the analyzer return -1, 0 or 1.  A comparator is
    [Ordered] when it is a total preorder read that way; the combinators the
    code is built from (pull back along a key, compare in turn, compare lists
    up to the first difference, padded or not) keep it one. *)

From S2P Require Import Prelude PyText.
From stdpp Require Import base list strings numbers.
From Stdlib Require Import ZArith Lia.

#[local] Open Scope Z_scope.

Class Ordered {A} (cmp : A -> A -> Z) : Prop := {
  cmp_range a b : cmp a b = -1 \/ cmp a b = 0 \/ cmp a b = 1;
  cmp_flip a b : cmp b a = - cmp a b;
  cmp_trans a b c : cmp a b <= 0 -> cmp b c <= 0 -> cmp a c <= 0;
}.

Section OrderedFacts.
Context {A} (cmp : A -> A -> Z) `{!Ordered cmp}.

Lemma cmp_refl a : cmp a a = 0.
Proof. pose proof (cmp_flip a a). lia. Qed.

Lemma cmp_eq_l a b c : cmp a b = 0 -> cmp a c = cmp b c.
Proof.
  intros Hab. pose proof (cmp_flip a b). pose proof (cmp_flip a c). pose proof (cmp_flip b c).
  pose proof (cmp_trans a b c). pose proof (cmp_trans b a c).
  pose proof (cmp_trans c a b). pose proof (cmp_trans c b a).
  destruct (cmp_range a c) as [?|[?|?]], (cmp_range b c) as [?|[?|?]]; lia.
Qed.

Lemma cmp_eq_r a b c : cmp a b = 0 -> cmp c a = cmp c b.
Proof. intros Hab. rewrite (cmp_flip a c), (cmp_flip b c). by rewrite (cmp_eq_l a b c). Qed.

Lemma cmp_lt_trans a b c : cmp a b = -1 -> cmp b c <= 0 -> cmp a c = -1.
Proof.
  intros Hab Hbc. pose proof (cmp_trans a b c). pose proof (cmp_flip a c).
  destruct (cmp_range a c) as [?|[?|?]]; [done| |lia].
  pose proof (cmp_eq_l a c b). pose proof (cmp_flip b c).
  assert (cmp a b = cmp c b) by auto. lia.
Qed.
End OrderedFacts.

(** ** Base comparators: [0 if x == y else (-1 if x < y else 1)] *)

Definition cmp_Z (x y : Z) : Z := if x =? y then 0 else if x <? y then -1 else 1.

#[export] Instance cmp_Z_ordered : Ordered cmp_Z.
Proof. split; intros; unfold cmp_Z in *; repeat case_match; lia. Qed.

(** Python's order on strings: by code point, a prefix first. *)
Fixpoint str_ltb (a b : str) : bool :=
  match a, b with
  | _, [] => false
  | [], _ :: _ => true
  | x :: a', y :: b' => (x <? y)%N || ((x =? y)%N && str_ltb a' b')
  end.

Lemma str_ltb_irrefl a : str_ltb a a = false.
Proof. induction a as [|x a IH]; [done|]. cbn. by rewrite N.ltb_irrefl, N.eqb_refl. Qed.

Lemma str_ltb_trans a b c : str_ltb a b = true -> str_ltb b c = true -> str_ltb a c = true.
Proof.
  revert b c. induction a as [|x a IH]; intros [|y b] [|z c]; cbn; try done.
  rewrite !orb_true_iff, !andb_true_iff, !N.ltb_lt, !N.eqb_eq. intros [?|[-> ?]] [?|[-> ?]]; [left; lia|by left|by left|right].
  split; [done|]. by eapply IH.
Qed.

Lemma str_ltb_asym a b : str_ltb a b = true -> str_ltb b a = false.
Proof.
  intros Hab. destruct (str_ltb b a) eqn:E; [|done]. pose proof (str_ltb_trans _ _ _ Hab E) as H. by rewrite str_ltb_irrefl in H.
Qed.

Lemma str_ltb_nlt_trans a b c : str_ltb b a = false -> str_ltb c b = false -> str_ltb c a = false.
Proof.
  revert b c. induction a as [|x a IH]; intros [|y b] [|z c]; cbn; try done.
  rewrite !orb_false_iff, !andb_false_iff, !N.ltb_ge, !N.eqb_neq. intros [? H1] [? H2]. split; [lia|].
  destruct (decide (z = x)) as [->|]; [right|by left]. destruct H1; [lia|]. destruct H2; [lia|]. by eapply IH.
Qed.

Definition str_eqb (a b : str) : bool := bool_decide (a = b).

Definition cmp_str (a b : str) : Z := if str_eqb a b then 0 else if str_ltb a b then -1 else 1.

(** ** Combinators *)

Definition cmp_on {A B} (f : A -> B) (cmp : B -> B -> Z) (x y : A) : Z := cmp (f x) (f y).

Definition cmp_then (c d : Z) : Z := if c =? 0 then d else c.

Definition cmp_pair {A B} (ca : A -> A -> Z) (cb : B -> B -> Z) (x y : A * B) : Z :=
  cmp_then (ca x.1 y.1) (cb x.2 y.2).

(** Up to the first difference; a proper prefix is smaller. *)
Fixpoint cmp_lex {A} (cmp : A -> A -> Z) (xs ys : list A) : Z :=
  match xs, ys with
  | [], [] => 0
  | [], _ => -1
  | _, [] => 1
  | x :: xs', y :: ys' => cmp_then (cmp x y) (cmp_lex cmp xs' ys')
  end.

(** Up to the first difference, the shorter list continued with [d]. *)
Fixpoint cmp_pad_nil {A} (d : A) (cmp : A -> A -> Z) (ys : list A) : Z :=
  match ys with
  | [] => 0
  | y :: ys' => cmp_then (cmp d y) (cmp_pad_nil d cmp ys')
  end.

Fixpoint cmp_pad {A} (d : A) (cmp : A -> A -> Z) (xs ys : list A) : Z :=
  match xs, ys with
  | [], _ => cmp_pad_nil d cmp ys
  | x :: xs', [] => cmp_then (cmp x d) (cmp_pad d cmp xs' [])
  | x :: xs', y :: ys' => cmp_then (cmp x y) (cmp_pad d cmp xs' ys')
  end.

#[export] Instance cmp_on_ordered {A B} (f : A -> B) cmp `{!Ordered cmp} : Ordered (cmp_on f cmp).
Proof.
  split; intros; unfold cmp_on in *; [apply cmp_range|apply cmp_flip|by eapply cmp_trans].
Qed.

Section Then.
Context {A B} (ca : A -> A -> Z) (cb : B -> B -> Z) `{!Ordered ca}.

(** One lexicographic step: only the second comparator's laws at these points
    are needed, so that it serves recursive comparators. *)
Lemma then_range x y c : (c = -1 \/ c = 0 \/ c = 1) ->
  cmp_then (ca x y) c = -1 \/ cmp_then (ca x y) c = 0 \/ cmp_then (ca x y) c = 1.
Proof. unfold cmp_then. pose proof (cmp_range x y). case_match; lia. Qed.

Lemma then_flip x y c c' : c' = - c -> cmp_then (ca y x) c' = - cmp_then (ca x y) c.
Proof. unfold cmp_then. pose proof (cmp_flip x y). repeat case_match; lia. Qed.

Lemma then_trans x y z c1 c2 c3 :
  (c1 <= 0 -> c2 <= 0 -> c3 <= 0) ->
  cmp_then (ca x y) c1 <= 0 -> cmp_then (ca y z) c2 <= 0 -> cmp_then (ca x z) c3 <= 0.
Proof.
  unfold cmp_then. intros Hc.
  destruct (ca x y =? 0) eqn:E1, (ca y z =? 0) eqn:E2; intros H1 H2.
  - rewrite (cmp_eq_l ca x y z) by lia. rewrite E2. auto.
  - rewrite (cmp_eq_l ca x y z) by lia. rewrite E2. lia.
  - rewrite <-(cmp_eq_r ca y z x) by lia. rewrite E1. lia.
  - assert (ca x z = -1) as ->; [|done].
    destruct (cmp_range x y) as [?|[?|?]]; [|lia|lia]. by eapply (cmp_lt_trans ca x y z).
Qed.
End Then.

#[export] Instance cmp_pair_ordered {A B} (ca : A -> A -> Z) (cb : B -> B -> Z)
  `{!Ordered ca} `{!Ordered cb} : Ordered (cmp_pair ca cb).
Proof.
  split; intros; unfold cmp_pair in *.
  - apply then_range; [done|]. apply cmp_range.
  - apply then_flip; [done|]. apply cmp_flip.
  - eapply (then_trans ca); [apply cmp_trans|done|done].
Qed.

#[export] Instance cmp_lex_ordered {A} (cmp : A -> A -> Z) `{!Ordered cmp} : Ordered (cmp_lex cmp).
Proof.
  split.
  - intros xs. induction xs as [|x xs IH]; intros [|y ys]; simpl; try lia. by apply then_range.
  - intros xs. induction xs as [|x xs IH]; intros [|y ys]; simpl; try lia. by apply then_flip.
  - intros xs. induction xs as [|x xs IH]; intros [|y ys] [|z zs]; simpl; try lia.
    apply then_trans; [done|]. apply IH.
Qed.

Lemma cmp_pad_cons {A} (d : A) (cmp : A -> A -> Z) `{!Ordered cmp} xs ys :
  cmp_pad d cmp xs ys =
    cmp_then (cmp (default d (hd_error xs)) (default d (hd_error ys))) (cmp_pad d cmp (tail xs) (tail ys)).
Proof.
  destruct xs as [|x xs], ys as [|y ys]; simpl; try done.
  unfold cmp_then. by rewrite (cmp_refl cmp d).
Qed.

#[export] Instance cmp_pad_ordered {A} (d : A) (cmp : A -> A -> Z) `{!Ordered cmp} :
  Ordered (cmp_pad d cmp).
Proof.
  assert (Hind : forall P : list A -> list A -> Prop, P [] [] ->
    (forall xs ys, P (tail xs) (tail ys) -> P xs ys) -> forall xs ys, P xs ys).
  { intros P H0 HS xs ys. remember (length xs + length ys)%nat as n eqn:Hn.
    revert xs ys Hn. induction n as [n IH] using lt_wf_ind. intros [|x xs] [|y ys] ->; [done|..];
      apply HS; (eapply IH; [|done]); simpl; lia. }
  split.
  - apply (Hind (fun xs ys => cmp_pad d cmp xs ys = -1 \/ cmp_pad d cmp xs ys = 0 \/ cmp_pad d cmp xs ys = 1)); [by right; left|].
    intros xs ys IH. rewrite !(cmp_pad_cons _ _ xs ys). by apply then_range.
  - apply (Hind (fun xs ys => cmp_pad d cmp ys xs = - cmp_pad d cmp xs ys)); [done|].
    intros xs ys IH. rewrite (cmp_pad_cons _ _ xs ys), (cmp_pad_cons _ _ ys xs). by apply then_flip.
  - intros xs ys zs. remember (length xs + length ys + length zs)%nat as n eqn:Hn.
    revert xs ys zs Hn. induction n as [n IH] using lt_wf_ind. intros xs ys zs ->.
    destruct (decide (xs = [] /\ ys = [] /\ zs = [])) as [(-> & -> & ->)|Hne]; [done|].
    rewrite (cmp_pad_cons _ _ xs ys), (cmp_pad_cons _ _ ys zs), (cmp_pad_cons _ _ xs zs).
    apply (then_trans cmp). eapply IH; [|done].
    destruct xs, ys, zs; simpl; try lia. by exfalso; apply Hne.
Qed.

(** [cmp_str] is the lexicographic order of the code points. *)
Lemma cmp_str_lex a b : cmp_str a b = cmp_lex (cmp_on Z.of_N cmp_Z) a b.
Proof.
  unfold cmp_str, str_eqb. revert b. induction a as [|x a IH]; intros [|y b]; simpl; try done.
  specialize (IH b). unfold cmp_on, cmp_then, cmp_Z in *.
  destruct (N.compare_spec x y) as [->|Hl|Hl].
  - rewrite Z.eqb_refl, N.ltb_irrefl, N.eqb_refl. simpl. rewrite <-IH.
    repeat case_bool_decide; congruence.
  - assert (Hne : x <> y) by lia.
    rewrite (proj2 (N.ltb_lt x y)), (proj2 (Z.eqb_neq (Z.of_N x) (Z.of_N y))),
      (proj2 (Z.ltb_lt (Z.of_N x) (Z.of_N y))) by lia. simpl.
    rewrite bool_decide_false by congruence. done.
  - assert (Hne : x <> y) by lia.
    rewrite (proj2 (N.ltb_ge x y)), (proj2 (Z.eqb_neq (Z.of_N x) (Z.of_N y))),
      (proj2 (Z.ltb_ge (Z.of_N x) (Z.of_N y))), (proj2 (N.eqb_neq x y)) by lia. simpl.
    rewrite bool_decide_false by congruence. done.
Qed.

#[export] Instance cmp_str_ordered : Ordered cmp_str.
Proof.
  assert (H : Ordered (cmp_lex (cmp_on Z.of_N cmp_Z))) by apply _.
  split; intros *; rewrite !cmp_str_lex; [apply cmp_range|apply cmp_flip|apply cmp_trans].
Qed.
