(* ===== verification/DpkgVersion.v ===== *)
(** * Debian versions ([analyzer/src/analyzer/detect/debversion.py])

    [_order], [_split], [_compare_segment] and [dpkg_compare] as the code has
    them: an index into a string is the rest of the string from that index, the
    loops run on fuel.  [blocks] is the reference the loop is compared with: the
    alternating non-digit and digit runs, compared run by run. *)

From stdpp Require Import base list strings numbers.
From Stdlib Require Import ZArith Lia.
From S2P Require Import Prelude PyText Compare.

#[local] Open Scope Z_scope.

Section Dpkg.
Context {U : Unicode}.

(** [_order]; [None] is the end of the run. *)
Definition order (c : option N) : Z :=
  match c with
  | None => 0
  | Some c =>
      if (c =? 126)%N then -1
      else if isalpha_c c then Z.of_N c
      else Z.of_N c + 256
  end.

(** [_split] *)
Definition split_version (version : str) : res (Z * str * str) :=
  p ← (match partition (u ":") version with
       | Some (head, tail) =>
           if isdigit head then epoch ← int_of head; Ok (epoch, tail)
           else Ok (0, version)
       | None => Ok (0, version)
       end);
  let '(epoch, rest) := p in
  match rpartition (u "-") rest with
  | Some (upstream, revision) => Ok (epoch, upstream, revision)
  | None => Ok (epoch, rest, [])
  end.

(** The character a run still has, if any. *)
Definition nondigit (s : str) : option N :=
  match s with
  | c :: _ => if isdigit_c c then None else Some c
  | [] => None
  end.

(** The inner loop on non-digit runs: an answer, or where both runs end. *)
Fixpoint nondigit_loop (fuel : nat) (a b : str) : option (Z + str * str) :=
  match fuel with
  | O => None
  | S f =>
      match nondigit a, nondigit b with
      | None, None => Some (inr (a, b))
      | ca, cb =>
          let oa := order ca in
          let ob := order cb in
          if negb (oa =? ob) then Some (inl (if oa <? ob then -1 else 1))
          else nondigit_loop f (if ca is Some _ then tail a else a)
                               (if cb is Some _ then tail b else b)
      end
  end.

(** The zeros a digit run starts with are skipped. *)
Definition is_zero (c : N) : bool := (c =? 48)%N.

(** [_compare_segment] *)
Fixpoint compare_segment (fuel : nat) (a b : str) : option Z :=
  match fuel with
  | O => None
  | S f =>
      match a, b with
      | [], [] => Some 0
      | _, _ =>
          r ← nondigit_loop (S (length a + length b)) a b;
          match r with
          | inl c => Some c
          | inr (a, b) =>
              let a := drop_while is_zero a in
              let b := drop_while is_zero b in
              let da := take_while isdigit_c a in
              let db := take_while isdigit_c b in
              if negb (length da =? length db)%nat
              then Some (if (length da <? length db)%nat then -1 else 1)
              else if negb (str_eqb da db) then Some (if str_ltb da db then -1 else 1)
              else compare_segment f (drop_while isdigit_c a) (drop_while isdigit_c b)
          end
      end
  end.

Definition segment_fuel (a b : str) : nat := S (length a + length b).

(** [dpkg_compare]; [None] would be a loop that did not stop. *)
Definition dpkg_compare (a b : str) : res (option Z) :=
  ka ← split_version a;
  kb ← split_version b;
  let '(ea, ua, ra) := ka in
  let '(eb, ub, rb) := kb in
  if negb (ea =? eb) then Ok (Some (if ea <? eb then -1 else 1))
  else Ok (c ← compare_segment (segment_fuel ua ub) ua ub;
           if negb (c =? 0) then Some c
           else compare_segment (segment_fuel ra rb) ra rb).

(** ** Reference: the runs of a version *)

(** The weights of the non-digit run [s] starts with, and the number after it
    without its leading zeros, then the rest. *)
Fixpoint blocks (fuel : nat) (s : str) : list (list Z * str) :=
  match fuel, s with
  | O, _ | _, [] => []
  | S f, _ =>
      let rest := drop_while is_zero (drop_while (fun c => negb (isdigit_c c)) s) in
      ((fun c => order (Some c)) <$> take_while (fun c => negb (isdigit_c c)) s,
       take_while isdigit_c rest)
      :: blocks f (drop_while isdigit_c rest)
  end.

Definition runs (s : str) : list (list Z * str) := blocks (length s) s.

(** Weights compare position by position, the end of a run weighing 0; numbers
    compare by length, then digit by digit. *)
Definition cmp_weights : list Z -> list Z -> Z := cmp_pad 0 cmp_Z.
Definition cmp_number (a b : str) : Z :=
  cmp_on (fun d => (Z.of_nat (length d), d)) (cmp_pair cmp_Z cmp_str) a b.
Definition cmp_run : list Z * str -> list Z * str -> Z := cmp_pair cmp_weights cmp_number.
Definition cmp_runs : list (list Z * str) -> list (list Z * str) -> Z := cmp_pad ([], []) cmp_run.

Definition dpkg_key (s : str) : res (Z * (list (list Z * str) * list (list Z * str))) :=
  '(epoch, upstream, revision) ← split_version s;
  Ok (epoch, (runs upstream, runs revision)).

Definition cmp_dpkg : Z * (list (list Z * str) * list (list Z * str)) -> _ -> Z :=
  cmp_pair cmp_Z (cmp_pair cmp_runs cmp_runs).

#[export] Instance cmp_run_ordered : Ordered cmp_run.
Proof. unfold cmp_run, cmp_weights, cmp_number. apply _. Qed.
#[export] Instance cmp_runs_ordered : Ordered cmp_runs.
Proof. unfold cmp_runs. apply _. Qed.
#[export] Instance cmp_dpkg_ordered : Ordered cmp_dpkg.
Proof. unfold cmp_dpkg. apply _. Qed.

(** ** The loop computes the reference *)

Lemma cmp_Z_lt x y : negb (x =? y) = true -> (if x <? y then -1 else 1) = cmp_Z x y.
Proof. unfold cmp_Z. intros E. by destruct (x =? y). Qed.

Definition weights (s : str) : list Z :=
  (fun c => order (Some c)) <$> take_while (fun c => negb (isdigit_c c)) s.

Definition skip_weights (s : str) : str := drop_while (fun c => negb (isdigit_c c)) s.

Lemma nondigit_spec s :
  match nondigit s with
  | Some c => exists s', s = c :: s' /\ weights s = order (Some c) :: weights s' /\
                         skip_weights s = skip_weights s'
  | None => weights s = [] /\ skip_weights s = s
  end.
Proof.
  unfold weights, skip_weights. destruct s as [|c s]; simpl; [done|].
  destruct (isdigit_c c); simpl; eauto.
Qed.

(** One comparison of the inner loop is one position of the padded order. *)
Lemma nondigit_loop_step f oa ob a b wa wb :
  nondigit_loop f a b =
    Some (let c := cmp_weights (weights a) (weights b) in
          if c =? 0 then inr (skip_weights a, skip_weights b) else inl c) ->
  cmp_weights wa wb = cmp_then (cmp_Z oa ob) (cmp_weights (weights a) (weights b)) ->
  (if negb (oa =? ob) then Some (inl (if oa <? ob then -1 else 1)) else nondigit_loop f a b) =
    Some (if cmp_weights wa wb =? 0 then inr (skip_weights a, skip_weights b)
          else inl (cmp_weights wa wb)).
Proof.
  intros Hl ->. unfold cmp_then. destruct (negb (oa =? ob)) eqn:E.
  - rewrite (cmp_Z_lt _ _ E). unfold cmp_Z. destruct (oa =? ob); [done|]. by destruct (oa <? ob).
  - rewrite Hl. unfold cmp_Z. by destruct (oa =? ob).
Qed.

#[local] Arguments order : simpl never.

Lemma nondigit_loop_spec fuel a b :
  (length a + length b < fuel)%nat ->
  nondigit_loop fuel a b =
    Some (let c := cmp_weights (weights a) (weights b) in
          if c =? 0 then inr (skip_weights a, skip_weights b) else inl c).
Proof.
  revert a b. induction fuel as [|f IH]; intros a b Hf; [lia|].
  cbn [nondigit_loop]. pose proof (nondigit_spec a) as Ha. pose proof (nondigit_spec b) as Hb.
  destruct (nondigit a) as [ca|], (nondigit b) as [cb|].
  - destruct Ha as (a' & -> & -> & ->), Hb as (b' & -> & -> & ->). cbn in Hf.
    apply nondigit_loop_step; [apply IH; lia|done].
  - destruct Ha as (a' & -> & -> & ->), Hb as (Hw & Hs). cbn in Hf.
    apply nondigit_loop_step; [apply IH; cbn; lia|]. by rewrite Hw.
  - destruct Ha as (Hw & Hs), Hb as (b' & -> & -> & ->). cbn in Hf.
    apply nondigit_loop_step; [apply IH; cbn; lia|]. by rewrite Hw.
  - destruct Ha as (-> & ->), Hb as (-> & ->). done.
Qed.

(** ** Runs, unfolded *)

Definition number (s : str) : str := take_while isdigit_c (drop_while is_zero (skip_weights s)).
Definition after_run (s : str) : str := drop_while isdigit_c (drop_while is_zero (skip_weights s)).

Lemma after_run_length s : s <> [] -> (length (after_run s) < length s)%nat.
Proof.
  intros Hs. unfold after_run.
  pose proof (drop_while_length isdigit_c (drop_while is_zero (skip_weights s))) as H1.
  pose proof (drop_while_length is_zero (skip_weights s)) as H2.
  destruct s as [|c s]; [done|]. unfold skip_weights in *. simpl in *.
  pose proof (drop_while_length (fun c => negb (isdigit_c c)) s) as H3.
  destruct (isdigit_c c) eqn:Ed; simpl in *; [|lia].
  destruct (is_zero c) eqn:Ez; simpl in *.
  - pose proof (drop_while_length is_zero s). lia.
  - rewrite Ed in *. pose proof (drop_while_length isdigit_c s). lia.
Qed.

Lemma blocks_fuel n m s : (length s <= n)%nat -> (length s <= m)%nat -> blocks n s = blocks m s.
Proof.
  revert m s. induction n as [|n IH]; intros m s Hn Hm.
  - destruct s; [|simpl in Hn; lia]. by destruct m.
  - destruct s as [|c s]; [by destruct m|]. destruct m as [|m]; [simpl in Hm; lia|].
    pose proof (after_run_length (c :: s)) as Hl. unfold after_run, skip_weights in Hl.
    cbn [blocks]. f_equal. cbn [length] in *. apply IH; specialize (Hl ltac:(done)); lia.
Qed.

Lemma runs_cons s : s <> [] -> runs s = (weights s, number s) :: runs (after_run s).
Proof.
  intros Hs. unfold runs. pose proof (after_run_length s Hs) as Hl.
  destruct s as [|c s]; [done|]. cbn [length] in *. cbn [blocks].
  rewrite (blocks_fuel (length s) (length (after_run (c :: s)))) by (unfold after_run, skip_weights in *; lia).
  done.
Qed.

Lemma runs_head s : default ([], []) (hd_error (runs s)) = (weights s, number s).
Proof. destruct s as [|c s]; [done|]. by rewrite runs_cons. Qed.

Lemma runs_tail s : tail (runs s) = runs (after_run s).
Proof. destruct s as [|c s]; [done|]. by rewrite runs_cons. Qed.

Lemma cmp_runs_step a b :
  cmp_runs (runs a) (runs b) =
    cmp_then (cmp_run (weights a, number a) (weights b, number b))
             (cmp_runs (runs (after_run a)) (runs (after_run b))).
Proof. unfold cmp_runs. by rewrite cmp_pad_cons, !runs_head, !runs_tail by apply _. Qed.

Lemma cmp_number_spec da db :
  cmp_number da db =
    if negb (length da =? length db)%nat then (if (length da <? length db)%nat then -1 else 1)
    else if negb (str_eqb da db) then (if str_ltb da db then -1 else 1)
    else 0.
Proof.
  unfold cmp_number, cmp_on, cmp_pair, cmp_then, cmp_Z, cmp_str, str_eqb. simpl.
  destruct (Nat.eqb_spec (length da) (length db)) as [E|E]; simpl.
  - rewrite E, Z.eqb_refl. simpl. by case_bool_decide.
  - rewrite (proj2 (Z.eqb_neq (Z.of_nat (length da)) (Z.of_nat (length db)))) by lia.
    destruct (Nat.ltb_spec (length da) (length db)), (Z.ltb_spec (Z.of_nat (length da)) (Z.of_nat (length db)));
      done || lia.
Qed.

Lemma compare_segment_spec fuel a b :
  (length a + length b < fuel)%nat ->
  compare_segment fuel a b = Some (cmp_runs (runs a) (runs b)).
Proof.
  revert a b. induction fuel as [|f IH]; intros a b Hf; [lia|].
  assert (Hstep : (a <> [] \/ b <> []) ->
    compare_segment (S f) a b = Some (cmp_runs (runs a) (runs b))).
  { intros Hab. rewrite cmp_runs_step. unfold cmp_run at 1, cmp_pair. cbn [fst snd].
    transitivity (r ← nondigit_loop (S (length a + length b)) a b;
      match r with
      | inl c => Some c
      | inr (a, b) =>
          if negb (length (take_while isdigit_c (drop_while is_zero a)) =?
                   length (take_while isdigit_c (drop_while is_zero b)))%nat
          then Some (if (length (take_while isdigit_c (drop_while is_zero a)) <?
                         length (take_while isdigit_c (drop_while is_zero b)))%nat then -1 else 1)
          else if negb (str_eqb (take_while isdigit_c (drop_while is_zero a))
                                (take_while isdigit_c (drop_while is_zero b)))
          then Some (if str_ltb (take_while isdigit_c (drop_while is_zero a))
                                (take_while isdigit_c (drop_while is_zero b)) then -1 else 1)
          else compare_segment f (drop_while isdigit_c (drop_while is_zero a))
                                 (drop_while isdigit_c (drop_while is_zero b))
      end).
    { destruct a, b; try done. by destruct Hab. }
    rewrite nondigit_loop_spec by lia. cbv zeta. simpl.
    destruct (cmp_weights (weights a) (weights b) =? 0) eqn:Ew; unfold cmp_then; rewrite Ew; [|by rewrite Ew].
    fold (number a) (number b). fold (after_run a) (after_run b). rewrite cmp_number_spec.
    destruct (negb (length (number a) =? length (number b))%nat); [by case_match|].
    destruct (negb (str_eqb (number a) (number b))); [by case_match|]. simpl.
    apply IH.
    assert (length (after_run a) <= length a)%nat.
    { destruct a as [|x a]; [done|]. pose proof (after_run_length (x :: a)). specialize (H ltac:(done)). lia. }
    assert (length (after_run b) <= length b)%nat.
    { destruct b as [|x b]; [done|]. pose proof (after_run_length (x :: b)). specialize (H0 ltac:(done)). lia. }
    destruct Hab as [Ha|Hb]; [pose proof (after_run_length a Ha)|pose proof (after_run_length b Hb)]; lia. }
  destruct a as [|x a]; [|by apply Hstep; left].
  destruct b as [|y b]; [|by apply Hstep; right]. done.
Qed.

(** The loops stop within their fuel, on any input. *)
Lemma compare_segment_total a b :
  compare_segment (segment_fuel a b) a b = Some (cmp_runs (runs a) (runs b)).
Proof. apply compare_segment_spec. unfold segment_fuel. lia. Qed.

#[local] Arguments segment_fuel : simpl never.
#[local] Arguments compare_segment : simpl never.

Lemma dpkg_compare_keys a b :
  dpkg_compare a b = (ka ← dpkg_key a; kb ← dpkg_key b; Ok (Some (cmp_dpkg ka kb))).
Proof.
  unfold dpkg_compare, dpkg_key.
  destruct (split_version a) as [[[ea ua] ra]|]; [|done]. cbn.
  destruct (split_version b) as [[[eb ub] rb]|]; [|done]. cbn.
  rewrite !compare_segment_total. unfold cmp_dpkg, cmp_pair, cmp_then. cbn.
  destruct (negb (ea =? eb)) eqn:E.
  - rewrite (cmp_Z_lt _ _ E). unfold cmp_Z. destruct (ea =? eb); [done|]. by destruct (ea <? eb).
  - unfold cmp_Z. apply negb_false_iff in E. rewrite E. simpl.
    by destruct (cmp_runs (runs ua) (runs ub) =? 0).
Qed.
End Dpkg.
