(* ===== verification/Versioning.v ===== *)
(** * Per-ecosystem version comparators ([analyzer/src/analyzer/detect/versioning.py])

    SemVer, rpm and apk comparison as the code has them, and [comparator_for].
    [packaging.version] (PEP 440) is third-party: its parser and order are the
    class [Packaging].  An [int] of something [isdigit] accepts may raise, so
    comparators return [res]; [None] inside is a loop that did not stop. *)

From stdpp Require Import base list strings numbers.
From Stdlib Require Import ZArith Lia.
From S2P Require Import Prelude PyText Compare DpkgVersion.

#[local] Open Scope Z_scope.

(** [packaging.version.Version]: parsing (None is [InvalidVersion]) and [<]. *)
Class Packaging := {
  pep_version : Type;
  pep_parse : str -> option pep_version;
  pep_lt : pep_version -> pep_version -> bool;
}.

Section Versions.
Context {U : Unicode}.

(** ** SemVer *)

(** [s.partition(sep)] as (before, after), [s] and nothing without [sep] *)
Definition cut (sep s : str) : str * str :=
  match partition sep s with Some p => p | None => (s, []) end.

Definition release_part (part : str) : res Z :=
  if isdigit part then int_of part else Ok 0.

(** [_split_semver] *)
Definition split_semver (version : str) : res (list Z * list str) :=
  let text := strip version in
  let text := match text with
              | c :: t => if (c =? 118)%N || (c =? 86)%N then t else text
              | [] => text
              end in
  let text := (cut (u "+") text).1 in
  let '(main, pre) := cut (u "-") text in
  release ← mapM release_part (split_on 46 main);
  Ok (release, if str_eqb pre [] then [] else split_on 46 pre).

(** The loop of [_compare_prerelease] over [zip_longest]. *)
Fixpoint compare_identifiers (a b : list str) : res Z :=
  match a, b with
  | [], [] => Ok 0
  | [], _ => Ok (-1)
  | _, [] => Ok 1
  | x :: a', y :: b' =>
      if isdigit x && isdigit y then
        xi ← int_of x;
        yi ← int_of y;
        if negb (xi =? yi) then Ok (if xi <? yi then -1 else 1) else compare_identifiers a' b'
      else if negb (Bool.eqb (isdigit x) (isdigit y)) then Ok (if isdigit x then -1 else 1)
      else if negb (str_eqb x y) then Ok (if str_ltb x y then -1 else 1)
      else compare_identifiers a' b'
  end.

Definition compare_prerelease (a b : list str) : res Z :=
  match a, b with
  | [], [] => Ok 0
  | [], _ => Ok 1
  | _, [] => Ok (-1)
  | _, _ => compare_identifiers a b
  end.

(** [semver_compare]; the release loop is [cmp_pad] with fill value 0. *)
Definition semver_compare (a b : str) : res Z :=
  '(a_rel, a_pre) ← split_semver a;
  '(b_rel, b_pre) ← split_semver b;
  let c := cmp_pad 0 cmp_Z a_rel b_rel in
  if negb (c =? 0) then Ok c else compare_prerelease a_pre b_pre.

(** [pep440_compare] *)
Definition pep440_compare `{Packaging} (a b : str) : res Z :=
  match pep_parse a, pep_parse b with
  | Some va, Some vb => Ok (if pep_lt va vb then -1 else if pep_lt vb va then 1 else 0)
  | _, _ => semver_compare a b
  end.

(** ** rpm *)

Definition is_tilde (s : str) : bool := match s with c :: _ => (c =? 126)%N | [] => false end.
Definition is_caret (s : str) : bool := match s with c :: _ => (c =? 94)%N | [] => false end.

Definition separator (c : N) : bool := negb (isalnum_c c || (c =? 126)%N || (c =? 94)%N).
Definition skip_separators (s : str) : str := drop_while separator s.

Definition not_zero (s : str) : str := drop_while is_zero s.

(** The end of [_rpmvercmp], once one string is exhausted. *)
Definition rpm_leftover (a b : str) : Z :=
  match a, b with
  | [], [] => 0
  | [], _ => -1
  | _, _ => 1
  end.

(** The comparison of two segments; [None] when they are equal. *)
Definition compare_rpm_segment (isnum : bool) (seg_a seg_b : str) : option Z :=
  if str_eqb seg_b [] then Some (if isnum then 1 else -1)
  else
    let seg_a := if isnum then not_zero seg_a else seg_a in
    let seg_b := if isnum then not_zero seg_b else seg_b in
    if isnum && negb (length seg_a =? length seg_b)%nat
    then Some (if (length seg_b <? length seg_a)%nat then 1 else -1)
    else if negb (str_eqb seg_a seg_b) then Some (if str_ltb seg_b seg_a then 1 else -1)
    else None.

Fixpoint rpm_loop (fuel : nat) (a b : str) : option Z :=
  match fuel with
  | O => None
  | S f =>
      match a, b with
      | [], [] => Some 0
      | _, _ =>
          let a := skip_separators a in
          let b := skip_separators b in
          if is_tilde a || is_tilde b then
            if negb (is_tilde a) then Some 1
            else if negb (is_tilde b) then Some (-1)
            else rpm_loop f (tail a) (tail b)
          else if is_caret a || is_caret b then
            if str_eqb a [] then Some (-1)
            else if str_eqb b [] then Some 1
            else if negb (is_caret a) then Some 1
            else if negb (is_caret b) then Some (-1)
            else rpm_loop f (tail a) (tail b)
          else
            match a, b with
            | ca :: _, _ :: _ =>
                let isnum := isdigit_c ca in
                let run := if isnum then isdigit_c else isalpha_c in
                match compare_rpm_segment isnum (take_while run a) (take_while run b) with
                | Some c => Some c
                | None => rpm_loop f (drop_while run a) (drop_while run b)
                end
            | _, _ => Some (rpm_leftover a b)
            end
      end
  end.

(** [_rpmvercmp] *)
Definition rpmvercmp (a b : str) : option Z :=
  if str_eqb a b then Some 0 else rpm_loop (segment_fuel a b) a b.

(** [_split_evr] *)
Definition split_evr (value : str) : res (Z * str * str) :=
  p ← (match partition (u ":") value with
       | Some (head, tail) =>
           if isdigit head then epoch ← int_of head; Ok (epoch, tail) else Ok (0, value)
       | None => Ok (0, value)
       end);
  let '(epoch, rest) := p in
  let '(version, release) := cut (u "-") rest in
  Ok (epoch, version, release).

(** [rpm_compare] *)
Definition rpm_compare (a b : str) : res (option Z) :=
  '(ea, va, ra) ← split_evr a;
  '(eb, vb, rb) ← split_evr b;
  if negb (ea =? eb) then Ok (Some (if ea <? eb then -1 else 1))
  else Ok (c ← rpmvercmp va vb; if negb (c =? 0) then Some c else rpmvercmp ra rb).

(** ** apk *)

Definition apk_release_order : Z := 100.

Definition apk_suffix_order (letters : str) : Z :=
  default apk_release_order (od_get letters
    [(u "alpha", 0); (u "beta", 1); (u "pre", 2); (u "rc", 3); (u "cvs", 101);
     (u "svn", 102); (u "git", 103); (u "hg", 104); (u "p", 105)]).

Definition apk_suffix (chunk : str) : res (Z * Z) :=
  let letters := base.filter isalpha_c chunk in
  let digits := base.filter isdigit_c chunk in
  n ← (if str_eqb digits [] then Ok 0 else int_of digits);
  Ok (apk_suffix_order letters, n).

(** [_split_apk] *)
Definition split_apk (value : str) : res (list str * str * list (Z * Z) * Z) :=
  let core := strip value in
  p ← (match rpartition (u "-r") core with
       | Some (dash, tail) =>
           if isdigit tail then rev ← int_of tail; Ok (dash, rev) else Ok (core, 0)
       | None => Ok (core, 0)
       end);
  let '(core, rev) := p in
  let '(core, suffix_str) := cut (u "_") core in
  suffixes ← (if str_eqb suffix_str [] then Ok [] else mapM apk_suffix (split_on 95 suffix_str));
  let '(letter, core) :=
    match List.rev core with
    | c :: before => if isalpha_c c then ([c], List.rev before) else ([], core)
    | [] => ([], core)
    end in
  Ok (if str_eqb core [] then [] else split_on 46 core, letter, suffixes, rev).

(** [s.ljust(width, "0")] *)
Definition ljust (width : nat) (s : str) : str := s ++ replicate (width - length s) 48%N.

Definition is_int (s : str) : bool := str_eqb s [] || isdigit s.

Definition int_or_zero (s : str) : res Z := if str_eqb s [] then Ok 0 else int_of s.

(** [_apk_cmp_numpart] *)
Definition apk_cmp_numpart (a b : str) (first : bool) : res Z :=
  if negb first && (startswith (u "0") a || startswith (u "0") b) then
    let width := Nat.max (length a) (length b) in
    Ok (cmp_str (ljust width a) (ljust width b))
  else if negb (is_int a) || negb (is_int b) then Ok (cmp_str a b)
  else
    ai ← int_or_zero a;
    bi ← int_or_zero b;
    Ok (cmp_Z ai bi).

(** [_apk_cmp_suffixes]: tuples, the missing ones the release marker *)
Definition apk_cmp_suffixes (a b : list (Z * Z)) : Z :=
  cmp_pad (apk_release_order, 0) (cmp_pair cmp_Z cmp_Z) a b.

(** The loop over the numeric components. *)
Fixpoint apk_cmp_parts (first : bool) (a b : list str) : res Z :=
  match a, b with
  | [], [] => Ok 0
  | [], _ => Ok (-1)
  | _, [] => Ok 1
  | x :: a', y :: b' =>
      c ← apk_cmp_numpart x y first;
      if negb (c =? 0) then Ok c else apk_cmp_parts false a' b'
  end.

(** [apk_compare] *)
Definition apk_compare (a b : str) : res Z :=
  '(pa, la, sa, ra) ← split_apk a;
  '(pb, lb, sb, rb) ← split_apk b;
  c ← apk_cmp_parts true pa pb;
  if negb (c =? 0) then Ok c
  else if negb (str_eqb la lb) then Ok (if str_ltb la lb then -1 else 1)
  else
    let c := apk_cmp_suffixes sa sb in
    if negb (c =? 0) then Ok c else Ok (cmp_Z ra rb).

(** ** [comparator_for] *)

Inductive Comparator := DPKG | PEP440 | RPM | APK | SEMVER.

Definition dpkg_ecosystems : list str := [u "debian"; u "ubuntu"].
Definition pep440_ecosystems : list str := [u "pypi"].
Definition rpm_ecosystems : list str :=
  [u "rocky linux"; u "almalinux"; u "alma linux"; u "red hat"; u "centos"; u "oracle linux";
   u "opensuse"; u "suse"; u "mageia"].
Definition apk_ecosystems : list str := [u "alpine"; u "chainguard"; u "wolfi"].

Definition comparator_for (ecosystem : str) : Comparator :=
  let base := lower (strip (cut (u ":") ecosystem).1) in
  if bool_decide (base ∈ dpkg_ecosystems) then DPKG
  else if bool_decide (base ∈ pep440_ecosystems) then PEP440
  else if bool_decide (base ∈ rpm_ecosystems) then RPM
  else if bool_decide (base ∈ apk_ecosystems) then APK
  else SEMVER.

(** Calling the comparator. *)
Definition compare `{Packaging} (c : Comparator) (a b : str) : res (option Z) :=
  match c with
  | DPKG => dpkg_compare a b
  | PEP440 => Some <$> pep440_compare a b
  | RPM => rpm_compare a b
  | APK => Some <$> apk_compare a b
  | SEMVER => Some <$> semver_compare a b
  end.
End Versions.
