(* ===== verification/VersionOrder.v ===== *)
(** * The version comparators as total preorders

    Each comparator of [DpkgVersion] and [Versioning] equals the comparison of
    structured keys with the combinators of [Compare], hence is a total preorder
    on the versions whose key exists; outside of them the code raises or loses
    antisymmetry, on inputs exhibited here. *)

From stdpp Require Import base list strings numbers.
From Stdlib Require Import ZArith Lia.
From S2P Require Import Prelude PyText Compare DpkgVersion Versioning.

#[local] Open Scope Z_scope.

Section VersionOrder.
Context {U : Unicode}.

Lemma cmp_str_if a b :
  cmp_str a b = if negb (str_eqb a b) then (if str_ltb a b then -1 else 1) else 0.
Proof. unfold cmp_str. by destruct (str_eqb a b). Qed.

Lemma cmp_Z_if x y : cmp_Z x y = if negb (x =? y) then (if x <? y then -1 else 1) else 0.
Proof. unfold cmp_Z. by destruct (x =? y). Qed.

Lemma cmp_then_if c d : cmp_then c d = if negb (c =? 0) then c else d.
Proof. unfold cmp_then. by destruct (c =? 0). Qed.

Lemma mapM_Ok_cons {A B} (f : A -> res B) x xs r :
  mapM f (x :: xs) = Ok r -> exists y ys, r = y :: ys /\ f x = Ok y /\ mapM f xs = Ok ys.
Proof.
  cbn. intros (y & Hy & (ys & Hys & [= <-])%bind_Ok_inv)%bind_Ok_inv. by exists y, ys.
Qed.

Lemma str_eqb_eq a b : str_eqb a b = true <-> a = b.
Proof. unfold str_eqb. by rewrite bool_decide_eq_true. Qed.

Lemma str_eqb_sym a b : str_eqb a b = str_eqb b a.
Proof. unfold str_eqb. apply bool_decide_ext. split; congruence. Qed.

(** ** SemVer *)

(** A prerelease identifier: numeric ones below the others. *)
Definition ident_key (x : str) : res (Z * (Z * str)) :=
  if isdigit x then n ← int_of x; Ok (0, (n, [])) else Ok (1, (0, x)).

Definition cmp_ident : Z * (Z * str) -> Z * (Z * str) -> Z := cmp_pair cmp_Z (cmp_pair cmp_Z cmp_str).

(** Release numbers, then whether there is no prerelease, then it. *)
Definition semver_key (v : str) : res (list Z * (Z * list (Z * (Z * str)))) :=
  '(rel, pre) ← split_semver v;
  ids ← mapM ident_key pre;
  Ok (rel, ((if pre is [] then 1 else 0), ids)).

Definition cmp_semver : list Z * (Z * list (Z * (Z * str))) -> _ -> Z :=
  cmp_pair (cmp_pad 0 cmp_Z) (cmp_pair cmp_Z (cmp_lex cmp_ident)).

#[export] Instance cmp_ident_ordered : Ordered cmp_ident.
Proof. unfold cmp_ident. apply _. Qed.
#[export] Instance cmp_semver_ordered : Ordered cmp_semver.
Proof. unfold cmp_semver. apply _. Qed.

Lemma compare_identifiers_spec a b ka kb :
  mapM ident_key a = Ok ka -> mapM ident_key b = Ok kb ->
  compare_identifiers a b = Ok (cmp_lex cmp_ident ka kb).
Proof.
  revert b ka kb. induction a as [|x a IH]; intros [|y b] ka kb Ha Hb.
  - injection Ha as <-. by injection Hb as <-.
  - injection Ha as <-. by apply mapM_Ok_cons in Hb as (? & ? & -> & _).
  - injection Hb as <-. by apply mapM_Ok_cons in Ha as (? & ? & -> & _).
  - apply mapM_Ok_cons in Ha as (kx & kas & -> & Hx & Ha).
    apply mapM_Ok_cons in Hb as (ky & kbs & -> & Hy & Hb).
    specialize (IH b kas kbs Ha Hb). cbn [compare_identifiers cmp_lex]. unfold ident_key in *.
    destruct (isdigit x) eqn:Ex, (isdigit y) eqn:Ey; simpl.
    + apply bind_Ok_inv in Hx as (n & -> & [= <-]). apply bind_Ok_inv in Hy as (m & -> & [= <-]).
      unfold cmp_ident, cmp_pair, cmp_then, cmp_Z. simpl.
      destruct (n =? m); [done|]. by destruct (n <? m).
    + apply bind_Ok_inv in Hx as (n & _ & [= <-]). by injection Hy as <-.
    + apply bind_Ok_inv in Hy as (n & _ & [= <-]). by injection Hx as <-.
    + injection Hx as <-. injection Hy as <-. unfold cmp_ident, cmp_pair, cmp_then, cmp_str. simpl.
      destruct (str_eqb x y); [done|]. by destruct (str_ltb x y).
Qed.

Lemma semver_compare_keys a b ka kb :
  semver_key a = Ok ka -> semver_key b = Ok kb -> semver_compare a b = Ok (cmp_semver ka kb).
Proof.
  unfold semver_key, semver_compare.
  destruct (split_semver a) as [[ra pa]|]; [|done]. destruct (split_semver b) as [[rb pb]|]; [|done].
  simpl. intros (ia & Ha & [= <-])%bind_Ok_inv (ib & Hb & [= <-])%bind_Ok_inv.
  unfold cmp_semver, cmp_pair. simpl. rewrite (cmp_then_if (cmp_pad _ _ _ _)).
  destruct (negb _); [done|].
  destruct pa as [|x pa], pb as [|y pb]; simpl; try done.
  - injection Ha as <-. by injection Hb as <-.
  - by apply (compare_identifiers_spec (x :: pa) (y :: pb)).
Qed.

(** ** rpm *)

(** A token: [~] sorts below the end, the end below [^], then letters, then
    numbers. *)
Definition token : Type := Z * (Z * str).
Definition rpm_end : token := (1, (0, [])).

(** The token at the start of a string without leading separators. *)
Definition rpm_token (s : str) : option (token * str) :=
  match s with
  | [] => None
  | c :: t =>
      Some (if (c =? 126)%N then ((0, (0, [])), t)
            else if (c =? 94)%N then ((2, (0, [])), t)
            else if isdigit_c c then
              let n := not_zero (take_while isdigit_c s) in
              ((4, (Z.of_nat (length n), n)), drop_while isdigit_c s)
            else ((3, (0, take_while isalpha_c s)), drop_while isalpha_c s))
  end.

Fixpoint rpm_tokens (fuel : nat) (s : str) : list token :=
  match fuel with
  | O => []
  | S f =>
      match rpm_token (skip_separators s) with
      | None => []
      | Some (t, r) => t :: rpm_tokens f r
      end
  end.

Definition rpm_key (s : str) : list token := rpm_tokens (length s) s.

Definition cmp_token : token -> token -> Z := cmp_pair cmp_Z (cmp_pair cmp_Z cmp_str).
Definition cmp_tokens : list token -> list token -> Z := cmp_pad rpm_end cmp_token.

#[export] Instance cmp_token_ordered : Ordered cmp_token.
Proof. unfold cmp_token. apply _. Qed.
#[export] Instance cmp_tokens_ordered : Ordered cmp_tokens.
Proof. unfold cmp_tokens. apply _. Qed.

(** Every alphanumeric character is a digit or a letter, and not both. *)
Definition plain_c (c : N) : bool := negb (isalnum_c c) || xorb (isdigit_c c) (isalpha_c c).
Definition plain (s : str) : bool := forallb plain_c s.

Lemma take_drop_length p s : (length (take_while p s) + length (drop_while p s) = length s)%nat.
Proof. rewrite <-length_app. by rewrite take_drop_while. Qed.

Lemma drop_while_shorter p c s :
  p c = true -> (length (drop_while p (c :: s)) <= length s)%nat.
Proof. intros Hp. simpl. rewrite Hp. apply drop_while_length. Qed.

(** A comparison that finds two segments equal consumed something. *)
Lemma compare_rpm_segment_progress isnum a b :
  compare_rpm_segment isnum a b = None -> b <> [].
Proof.
  unfold compare_rpm_segment. destruct (str_eqb b []) eqn:E; [done|]. intros _ ->. done.
Qed.

(** One round of the loop, after the separators. *)
Definition rpm_round (f : nat) (a b : str) : option Z :=
  if is_tilde a || is_tilde b then
    if negb (is_tilde a) then Some 1 else if negb (is_tilde b) then Some (-1)
    else rpm_loop f (tail a) (tail b)
  else if is_caret a || is_caret b then
    if str_eqb a [] then Some (-1) else if str_eqb b [] then Some 1
    else if negb (is_caret a) then Some 1 else if negb (is_caret b) then Some (-1)
    else rpm_loop f (tail a) (tail b)
  else match a, b with
       | ca :: _, _ :: _ =>
           let run := if isdigit_c ca then isdigit_c else isalpha_c in
           match compare_rpm_segment (isdigit_c ca) (take_while run a) (take_while run b) with
           | Some c => Some c
           | None => rpm_loop f (drop_while run a) (drop_while run b)
           end
       | _, _ => Some (rpm_leftover a b)
       end.

Lemma rpm_loop_S f a b :
  rpm_loop (S f) a b = rpm_round f (skip_separators a) (skip_separators b).
Proof. destruct a, b; reflexivity. Qed.

Lemma rpm_loop_total fuel a b :
  (length a + length b < fuel)%nat -> exists c, rpm_loop fuel a b = Some c.
Proof.
  revert a b. induction fuel as [|f IH]; intros a b Hf; [lia|]. rewrite rpm_loop_S.
  pose proof (drop_while_length separator a) as Hla. pose proof (drop_while_length separator b) as Hlb.
  unfold skip_separators in *.
  set (sa := drop_while separator a) in *. set (sb := drop_while separator b) in *.
  assert (Htail : is_tilde sa || is_caret sa = true -> exists c, rpm_loop f (tail sa) (tail sb) = Some c).
  { intros Ht. apply IH. destruct sa as [|x sa']; [done|]. destruct sb; simpl in *; lia. }
  unfold rpm_round. destruct (is_tilde sa) eqn:E1, (is_tilde sb) eqn:E2; simpl; try by eexists.
  - by apply Htail.
  - destruct (is_caret sa) eqn:E3, (is_caret sb) eqn:E4; simpl.
    + destruct (str_eqb sa []); [by eexists|]. destruct (str_eqb sb []); [by eexists|]. by apply Htail.
    + repeat case_match; by eexists.
    + repeat case_match; by eexists.
    + clearbody sa sb. destruct sa as [|ca sa]; [by eexists|]. destruct sb as [|cb sb]; [by eexists|].
      set (run := if isdigit_c ca then isdigit_c else isalpha_c).
      destruct (compare_rpm_segment _ _ _) as [c|] eqn:Ec; [by eexists|].
      apply compare_rpm_segment_progress in Ec. apply IH.
      pose proof (drop_while_length run (ca :: sa)). pose proof (take_drop_length run (cb :: sb)).
      destruct (take_while run (cb :: sb)) as [|]; [done|]. cbn [length] in *. lia.
Qed.

Lemma plain_drop p s : plain s = true -> plain (drop_while p s) = true.
Proof.
  intros Hs. destruct (drop_while_suffix p s) as [t Ht]. rewrite Ht in Hs.
  unfold plain in *. rewrite forallb_app in Hs. by apply andb_prop in Hs as [_ ?].
Qed.

(** What the first token of a plain string is, and what it leaves. *)
Inductive token_at : str -> option (token * str) -> Prop :=
| at_end : token_at [] None
| at_tilde t : token_at (126%N :: t) (Some ((0, (0, [])), t))
| at_caret t : token_at (94%N :: t) (Some ((2, (0, [])), t))
| at_number c t :
    isdigit_c c = true -> isalpha_c c = false -> c <> 126%N -> c <> 94%N ->
    token_at (c :: t)
      (Some ((4, (Z.of_nat (length (not_zero (take_while isdigit_c (c :: t)))),
                  not_zero (take_while isdigit_c (c :: t)))), drop_while isdigit_c (c :: t)))
| at_letters c t :
    isdigit_c c = false -> isalpha_c c = true -> c <> 126%N -> c <> 94%N ->
    token_at (c :: t)
      (Some ((3, (0, take_while isalpha_c (c :: t))), drop_while isalpha_c (c :: t))).

Lemma rpm_token_at s : plain s = true -> token_at (skip_separators s) (rpm_token (skip_separators s)).
Proof.
  intros Hp%(plain_drop separator). unfold skip_separators.
  pose proof (drop_while_head separator s) as Hh.
  destruct (drop_while separator s) as [|c t]; [constructor|].
  specialize (Hh c t eq_refl). unfold rpm_token. simpl in Hp. apply andb_prop in Hp as [Hc _].
  destruct (N.eqb_spec c 126) as [->|H1]; [constructor|].
  destruct (N.eqb_spec c 94) as [->|H2]; [constructor|].
  unfold separator in Hh. rewrite (proj2 (N.eqb_neq c 126)), (proj2 (N.eqb_neq c 94)) in Hh by done.
  rewrite !orb_false_r in Hh. apply negb_false_iff in Hh. unfold plain_c in Hc. rewrite Hh in Hc.
  destruct (isdigit_c c) eqn:Ed, (isalpha_c c) eqn:Ea; try done; by constructor.
Qed.

Lemma token_at_shorter s t r : token_at s (Some (t, r)) -> (length r < length s)%nat.
Proof.
  inversion 1; subst; simpl; try lia.
  - match goal with E : isdigit_c c = true |- _ => rewrite E end.
    pose proof (drop_while_length isdigit_c t0). lia.
  - match goal with E : isalpha_c c = true |- _ => rewrite E end.
    pose proof (drop_while_length isalpha_c t0). lia.
Qed.

Lemma token_at_plain s t r : plain s = true -> token_at s (Some (t, r)) -> plain r = true.
Proof.
  intros Hp. inversion 1; subst.
  - by apply andb_prop in Hp as [_ ?].
  - by apply andb_prop in Hp as [_ ?].
  - by apply (plain_drop isdigit_c (c :: t0)).
  - by apply (plain_drop isalpha_c (c :: t0)).
Qed.

Lemma rpm_tokens_fuel n m s :
  plain s = true -> (length s <= n)%nat -> (length s <= m)%nat -> rpm_tokens n s = rpm_tokens m s.
Proof.
  revert m s. induction n as [|n IH]; intros m s Hp Hn Hm.
  - destruct s; [|simpl in Hn; lia]. by destruct m.
  - destruct m as [|m]; [destruct s; [done|simpl in Hm; lia]|]. simpl.
    pose proof (rpm_token_at s Hp) as Ht. destruct (rpm_token _) as [[t r]|]; [|done].
    pose proof (token_at_shorter _ _ _ Ht). pose proof (drop_while_length separator s).
    unfold skip_separators in *. f_equal. apply IH; [|lia..].
    eapply token_at_plain; [|exact Ht]. by apply plain_drop.
Qed.

(** The key of a plain string, token by token. *)
Lemma rpm_key_step s : plain s = true ->
  rpm_key s = match rpm_token (skip_separators s) with
              | None => []
              | Some (t, r) => t :: rpm_key r
              end.
Proof.
  intros Hp. unfold rpm_key. destruct s as [|c s]; [done|]. cbn [length rpm_tokens].
  pose proof (rpm_token_at _ Hp) as Ht. destruct (rpm_token _) as [[t r]|]; [|done].
  pose proof (token_at_shorter _ _ _ Ht). pose proof (drop_while_length separator (c :: s)).
  unfold skip_separators in *. cbn [length] in *. f_equal. apply rpm_tokens_fuel; [|lia..].
  eapply token_at_plain; [|exact Ht]. by apply plain_drop.
Qed.

(** Two numbers, or two runs of letters. *)
Lemma compare_rpm_numbers a b : b <> [] ->
  compare_rpm_segment true a b =
    (let c := cmp_pair cmp_Z cmp_str (Z.of_nat (length (not_zero a)), not_zero a)
                (Z.of_nat (length (not_zero b)), not_zero b) in
     if negb (c =? 0) then Some c else None).
Proof.
  intros Hb. unfold compare_rpm_segment. destruct (str_eqb b []) eqn:E; [by apply str_eqb_eq in E|].
  set (x := not_zero a). set (y := not_zero b). unfold cmp_pair, cmp_then. simpl.
  destruct (Nat.eqb_spec (length x) (length y)) as [El|El]; simpl.
  - rewrite El. rewrite (cmp_refl cmp_Z). simpl. unfold cmp_str.
    pose proof (cmp_flip x y) as Hf. unfold cmp_str in Hf.
    rewrite (str_eqb_sym y x) in Hf. destruct (str_eqb x y); [done|]. simpl.
    by destruct (str_ltb x y), (str_ltb y x).
  - unfold cmp_Z. rewrite (proj2 (Z.eqb_neq (Z.of_nat (length x)) (Z.of_nat (length y)))) by lia. simpl.
    destruct (Nat.ltb_spec (length y) (length x)), (Z.ltb_spec (Z.of_nat (length x)) (Z.of_nat (length y)));
      done || lia.
Qed.

Lemma compare_rpm_letters a b : b <> [] ->
  compare_rpm_segment false a b = (if negb (cmp_str a b =? 0) then Some (cmp_str a b) else None).
Proof.
  intros Hb. unfold compare_rpm_segment. destruct (str_eqb b []) eqn:E; [by apply str_eqb_eq in E|].
  simpl. pose proof (cmp_flip a b) as Hf. unfold cmp_str in *.
  rewrite (str_eqb_sym b a) in Hf. destruct (str_eqb a b); [done|]. simpl.
  by destruct (str_ltb a b), (str_ltb b a).
Qed.

Definition tokens_of (o : option (token * str)) : list token :=
  match o with Some (t, r) => t :: rpm_key r | None => [] end.

Lemma is_tilde_ne c t : c <> 126%N -> is_tilde (c :: t) = false.
Proof. simpl. by intros ?%N.eqb_neq. Qed.
Lemma is_caret_ne c t : c <> 94%N -> is_caret (c :: t) = false.
Proof. simpl. by intros ?%N.eqb_neq. Qed.

Lemma take_while_nil p c t : p c = false -> take_while p (c :: t) = [].
Proof. simpl. by intros ->. Qed.
Lemma take_while_cons p c t : p c = true -> take_while p (c :: t) <> [].
Proof. simpl. by intros ->. Qed.

#[local] Arguments take_while : simpl never.
#[local] Arguments drop_while : simpl never.
#[local] Arguments is_tilde : simpl never.
#[local] Arguments is_caret : simpl never.

Lemma cmp_pair_same {A} (c : A -> A -> Z) k x y : cmp_pair cmp_Z c (k, x) (k, y) = c x y.
Proof. unfold cmp_pair. simpl. by rewrite (cmp_refl cmp_Z). Qed.

Lemma cmp_token_same k x y : cmp_token (k, x) (k, y) = cmp_pair cmp_Z cmp_str x y.
Proof. apply cmp_pair_same. Qed.

Lemma rpm_round_spec f a b oa ob :
  token_at a oa -> token_at b ob ->
  (forall ta ra tb rb, oa = Some (ta, ra) -> ob = Some (tb, rb) ->
     rpm_loop f ra rb = Some (cmp_tokens (rpm_key ra) (rpm_key rb))) ->
  rpm_round f a b = Some (cmp_tokens (tokens_of oa) (tokens_of ob)).
Proof.
  unfold cmp_tokens. rewrite cmp_pad_cons by apply _. unfold rpm_round.
  intros [|ta|ta|ca ta Da Aa Na1 Na2|ca ta Da Aa Na1 Na2]
    [|tb|tb|cb tb Db Ab Nb1 Nb2|cb tb Db Ab Nb1 Nb2] Hrec;
    rewrite ?(is_tilde_ne ca), ?(is_caret_ne ca), ?(is_tilde_ne cb), ?(is_caret_ne cb) by done;
    try reflexivity; try exact (Hrec _ _ _ _ eq_refl eq_refl).
  all: specialize (Hrec _ _ _ _ eq_refl eq_refl); simpl; rewrite Da.
  - rewrite compare_rpm_numbers by by apply take_while_cons.
    rewrite cmp_token_same, cmp_then_if. cbv zeta. by destruct (negb _).
  - rewrite (take_while_nil isdigit_c cb) by done. done.
  - rewrite (take_while_nil isalpha_c cb) by done. done.
  - rewrite compare_rpm_letters by by apply take_while_cons.
    rewrite cmp_token_same, cmp_pair_same, cmp_then_if. by destruct (negb _).
Qed.

Lemma rpm_loop_spec fuel a b :
  plain a = true -> plain b = true -> (length a + length b < fuel)%nat ->
  rpm_loop fuel a b = Some (cmp_tokens (rpm_key a) (rpm_key b)).
Proof.
  revert a b. induction fuel as [|f IH]; intros a b Pa Pb Hf; [lia|]. rewrite rpm_loop_S.
  rewrite (rpm_key_step a Pa), (rpm_key_step b Pb).
  pose proof (drop_while_length separator a) as La. pose proof (drop_while_length separator b) as Lb.
  pose proof (rpm_token_at a Pa) as Ta. pose proof (rpm_token_at b Pb) as Tb.
  pose proof (plain_drop separator a Pa) as Qa. pose proof (plain_drop separator b Pb) as Qb.
  fold (skip_separators a) in *. fold (skip_separators b) in *.
  apply rpm_round_spec; [done|done|]. intros ta ra tb rb Ea Eb. rewrite Ea in Ta. rewrite Eb in Tb.
  apply IH; [exact (token_at_plain _ _ _ Qa Ta)|exact (token_at_plain _ _ _ Qb Tb)|].
  pose proof (token_at_shorter _ _ _ Ta). pose proof (token_at_shorter _ _ _ Tb). lia.
Qed.

Lemma rpmvercmp_spec a b :
  plain a = true -> plain b = true -> rpmvercmp a b = Some (cmp_tokens (rpm_key a) (rpm_key b)).
Proof.
  intros Pa Pb. unfold rpmvercmp. destruct (str_eqb a b) eqn:E.
  - apply str_eqb_eq in E as ->. by rewrite (cmp_refl cmp_tokens).
  - apply rpm_loop_spec; [done|done|]. unfold segment_fuel. lia.
Qed.

Lemma cut_spec sep s : s = (cut sep s).1 ++ (cut sep s).2 \/
  s = (cut sep s).1 ++ sep ++ (cut sep s).2.
Proof.
  unfold cut. destruct (partition sep s) as [[a b]|] eqn:E; simpl.
  - right. by apply partition_Some.
  - left. by rewrite app_nil_r.
Qed.

Lemma plain_app s t : plain (s ++ t) = plain s && plain t.
Proof. apply forallb_app. Qed.

Lemma cut_plain sep s : plain s = true -> plain (cut sep s).1 = true /\ plain (cut sep s).2 = true.
Proof.
  destruct (cut_spec sep s) as [E|E]; intros Hs; rewrite E in Hs at 1;
    rewrite !plain_app, !andb_true_iff in Hs; naive_solver.
Qed.

Definition rpm_evr_key (s : str) : res (Z * (list token * list token)) :=
  '(epoch, version, release) ← split_evr s;
  Ok (epoch, (rpm_key version, rpm_key release)).

Definition cmp_evr : Z * (list token * list token) -> _ -> Z :=
  cmp_pair cmp_Z (cmp_pair cmp_tokens cmp_tokens).

#[export] Instance cmp_evr_ordered : Ordered cmp_evr.
Proof. unfold cmp_evr. apply _. Qed.

Lemma split_evr_plain s e v r :
  plain s = true -> split_evr s = Ok (e, v, r) -> plain v = true /\ plain r = true.
Proof.
  unfold split_evr. intros Hs Hx. apply bind_Ok_inv in Hx as ([e' rest] & Hp & Hx).
  assert (plain rest = true) as Hr.
  { destruct (partition (u ":") s) as [[h t]|] eqn:E; [|by injection Hp as <- <-].
    apply partition_Some in E. destruct (isdigit h).
    - apply bind_Ok_inv in Hp as (? & _ & [= <- <-]). rewrite E, !plain_app, !andb_true_iff in Hs. naive_solver.
    - by injection Hp as <- <-. }
  pose proof (cut_plain (u "-") rest Hr) as Hc. destruct (cut _ rest) as [v' r'].
  injection Hx as <- <- <-. done.
Qed.

Lemma rpm_compare_keys a b :
  plain a = true -> plain b = true ->
  rpm_compare a b = (ka ← rpm_evr_key a; kb ← rpm_evr_key b; Ok (Some (cmp_evr ka kb))).
Proof.
  intros Pa Pb. unfold rpm_compare, rpm_evr_key.
  destruct (split_evr a) as [[[ea va] ra]|] eqn:Ea; [|done].
  destruct (split_evr b) as [[[eb vb] rb]|] eqn:Eb; [|done]. simpl.
  destruct (split_evr_plain _ _ _ _ Pa Ea), (split_evr_plain _ _ _ _ Pb Eb).
  rewrite !rpmvercmp_spec by done. unfold cmp_evr, cmp_pair. cbn [fst snd].
  rewrite !cmp_then_if, cmp_Z_if. simpl.
  destruct (negb (ea =? eb)); [by destruct (ea <? eb)|]. simpl. by destruct (negb _).
Qed.

(** ** apk *)

Definition ascii_digit (c : N) : bool := between 48 c 57.

(** A component of decimal digits, short enough for [int]. *)
Definition dec_part (s : str) : bool :=
  forallb ascii_digit s && (length s <=? max_str_digits)%nat.

Definition dec_value (s : str) : Z :=
  match digits_value 0 s with Some n => Z.of_N n | None => 0 end.

(** A fraction sorts below an integer; an empty component is the fraction of
    no digits. *)
Definition part_key (first : bool) (s : str) : Z * (Z * str) :=
  if negb first && (str_eqb s [] || startswith (u "0") s) then (0, (0, s)) else (1, (dec_value s, [])).

Definition cmp_fraction : str -> str -> Z := cmp_pad 48%N (cmp_on Z.of_N cmp_Z).
Definition cmp_part : Z * (Z * str) -> Z * (Z * str) -> Z := cmp_pair cmp_Z (cmp_pair cmp_Z cmp_fraction).

Definition parts_key (parts : list str) : list (Z * (Z * str)) :=
  match parts with [] => [] | x :: xs => part_key true x :: (part_key false <$> xs) end.

Definition apk_key (s : str) : res (list (Z * (Z * str)) * (str * (list (Z * Z) * Z))) :=
  '(parts, letter, suffixes, rev) ← split_apk s;
  Ok (parts_key parts, (letter, (suffixes, rev))).

Definition cmp_apk : list (Z * (Z * str)) * (str * (list (Z * Z) * Z)) -> _ -> Z :=
  cmp_pair (cmp_lex cmp_part) (cmp_pair cmp_str (cmp_pair apk_cmp_suffixes cmp_Z)).

(** Every numeric component of the version is one. *)
Definition apk_wellformed (s : str) : bool :=
  match split_apk s with
  | Ok (parts, _, _, _) => forallb dec_part parts
  | Raise _ => false
  end.

#[export] Instance cmp_part_ordered : Ordered cmp_part.
Proof. unfold cmp_part, cmp_fraction. apply _. Qed.
#[export] Instance cmp_apk_ordered : Ordered cmp_apk.
Proof. unfold cmp_apk, apk_cmp_suffixes. apply _. Qed.

Lemma decimal_between c : ascii_digit c = true -> decimal_c c = Some (c - 48)%N /\ isdigit_c c = true.
Proof.
  intros Hc. unfold decimal_c, isdigit_c, ascii_digit in *. rewrite Hc. unfold between in Hc.
  apply andb_prop in Hc as [?%N.leb_le ?%N.leb_le].
  rewrite (proj2 (N.ltb_lt c 256)) by lia. done.
Qed.

Lemma digits_value_dec s acc :
  forallb ascii_digit s = true -> exists n, digits_value acc s = Some n /\ (acc <= n)%N.
Proof.
  revert acc. induction s as [|c s IH]; intros acc; simpl; [eexists; split; [done|lia]|].
  intros [Hc Hs]%andb_prop. destruct (decimal_between c Hc) as [-> _]. simpl.
  destruct (IH (10 * acc + (c - 48))%N Hs) as (n & -> & ?). exists n. split; [done|lia].
Qed.

Lemma dec_part_isdigit s : dec_part s = true -> s <> [] -> isdigit s = true.
Proof.
  unfold dec_part. intros [Hs _]%andb_prop Hne. unfold isdigit. destruct s as [|c s]; [done|].
  revert Hs. generalize (c :: s). induction l as [|x l IH]; simpl; [done|].
  intros [Hx Hl]%andb_prop. destruct (decimal_between x Hx) as [_ ->]. by apply IH.
Qed.

Lemma dec_part_int s : dec_part s = true -> int_or_zero s = Ok (dec_value s) /\ 0 <= dec_value s.
Proof.
  intros Hs. unfold dec_part in Hs. apply andb_prop in Hs as [Hd Hl%Nat.leb_le].
  unfold int_or_zero, dec_value. destruct (digits_value_dec s 0 Hd) as (n & Hn & _). rewrite Hn.
  split; [|lia]. destruct (str_eqb s []) eqn:E.
  - apply str_eqb_eq in E as ->. by injection Hn as <-.
  - unfold int_of. rewrite (proj2 (Nat.ltb_ge _ _)) by done. destruct s; [done|]. by rewrite Hn.
Qed.

(** A component that starts with a digit other than zero is at least one. *)
Lemma dec_value_positive c s :
  dec_part (c :: s) = true -> c <> 48%N -> 1 <= dec_value (c :: s).
Proof.
  unfold dec_part, dec_value. simpl. intros [[Hc Hs]%andb_prop _]%andb_prop Hne.
  destruct (decimal_between c Hc) as [-> _]. simpl.
  destruct (digits_value_dec s (10 * 0 + (c - 48))%N Hs) as (n & Hn & Hle). simpl in *. rewrite Hn.
  unfold ascii_digit, between in Hc. apply andb_prop in Hc as [?%N.leb_le _]. lia.
Qed.

Lemma cmp_str_ljust w a b :
  (length a <= w)%nat -> (length b <= w)%nat ->
  cmp_str (ljust w a) (ljust w b) = cmp_fraction a b.
Proof.
  rewrite cmp_str_lex. unfold ljust, cmp_fraction. revert w b.
  assert (Hnil : forall b, cmp_lex (cmp_on Z.of_N cmp_Z) (replicate (length b) 48%N) b =
                           cmp_pad 48%N (cmp_on Z.of_N cmp_Z) [] b).
  { induction b as [|y b IH]; [done|]. simpl in *. by rewrite IH. }
  induction a as [|x a IH]; intros w b Ha Hb.
  - simpl. revert w Ha Hb. induction b as [|y b IHb]; intros w Ha Hb; simpl.
    + rewrite Nat.sub_0_r. apply (cmp_refl (cmp_lex (cmp_on Z.of_N cmp_Z))).
    + rewrite Nat.sub_0_r. destruct w as [|w]; [simpl in Hb; lia|]. simpl. f_equal.
      specialize (IHb w). rewrite Nat.sub_0_r in IHb. apply IHb; simpl in *; lia.
  - destruct w as [|w]; [simpl in Ha; lia|]. destruct b as [|y b]; simpl.
    + f_equal. specialize (IH w []). simpl in IH. rewrite Nat.sub_0_r in IH.
      apply IH; simpl in *; lia.
    + f_equal. apply IH; simpl in *; lia.
Qed.

Lemma startswith_zero s : startswith (u "0") s = match s with c :: _ => (c =? 48)%N | [] => false end.
Proof.
  unfold startswith. change (u "0") with [48%N]. destruct s as [|c s]; [done|]. cbn [after_prefix].
  rewrite (N.eqb_sym 48 c). by destruct (c =? 48)%N.
Qed.

Lemma cmp_Z_spec x y : (x < y /\ cmp_Z x y = -1) \/ (x = y /\ cmp_Z x y = 0) \/ (y < x /\ cmp_Z x y = 1).
Proof. unfold cmp_Z. repeat case_match; lia. Qed.

Lemma cmp_pair_nil x y : cmp_pair cmp_Z cmp_fraction (x, []) (y, []) = cmp_Z x y.
Proof. unfold cmp_pair, cmp_then. simpl. by destruct (cmp_Z_spec x y) as [[_ ->]|[[_ ->]|[_ ->]]]. Qed.

Lemma cmp_fraction_zero y a b :
  dec_part (y :: b) = true -> y <> 48%N -> cmp_fraction (48%N :: a) (y :: b) = -1.
Proof.
  unfold dec_part. simpl. intros [[Hc _]%andb_prop _]%andb_prop Hne.
  unfold ascii_digit, between in Hc. apply andb_prop in Hc as [?%N.leb_le _].
  unfold cmp_fraction. simpl. unfold cmp_on at 1, cmp_then.
  destruct (cmp_Z_spec (Z.of_N 48) (Z.of_N y)) as [[_ ->]|[[? _]|[? _]]]; [done|lia|lia].
Qed.

Lemma apk_cmp_numpart_keys first a b :
  dec_part a = true -> dec_part b = true ->
  apk_cmp_numpart a b first = Ok (cmp_part (part_key first a) (part_key first b)).
Proof.
  intros Ha Hb. destruct (dec_part_int a Ha) as [Ia Pa], (dec_part_int b Hb) as [Ib Pb].
  assert (Hint : forall x, dec_part x = true -> is_int x = true).
  { intros x Hx. unfold is_int. destruct (str_eqb x []) eqn:E; [done|]. apply dec_part_isdigit; [done|].
    intros ->. done. }
  assert (Hints : (if negb (is_int a) || negb (is_int b) then Ok (cmp_str a b)
    else ai ← int_or_zero a; bi ← int_or_zero b; Ok (cmp_Z ai bi)) = Ok (cmp_Z (dec_value a) (dec_value b))).
  { by rewrite !Hint, Ia, Ib by done. }
  unfold apk_cmp_numpart. rewrite Hints. clear Hints. unfold part_key, cmp_part.
  destruct first; simpl.
  { by rewrite cmp_pair_same, cmp_pair_nil. }
  rewrite !startswith_zero.
  rewrite cmp_str_ljust by lia.
  destruct a as [|x a], b as [|y b]; simpl.
  - done.
  - destruct (y =? 48)%N eqn:Ey; [by rewrite !cmp_pair_same|].
    apply N.eqb_neq in Ey. pose proof (dec_value_positive y b Hb Ey).
    change (dec_value []) with 0. unfold cmp_pair. simpl.
    by destruct (cmp_Z_spec 0 (dec_value (y :: b))) as [[_ ->]|[[? _]|[? _]]]; [|lia|lia].
  - rewrite orb_false_r. destruct (x =? 48)%N eqn:Ex; [by rewrite !cmp_pair_same|].
    apply N.eqb_neq in Ex. pose proof (dec_value_positive x a Ha Ex).
    change (dec_value []) with 0. unfold cmp_pair. simpl.
    by destruct (cmp_Z_spec (dec_value (x :: a)) 0) as [[? _]|[[? _]|[_ ->]]]; [lia|lia|].
  - destruct (x =? 48)%N eqn:Ex, (y =? 48)%N eqn:Ey; simpl.
    + by rewrite !cmp_pair_same.
    + apply N.eqb_eq in Ex as ->. rewrite cmp_fraction_zero; [done|done|by apply N.eqb_neq].
    + apply N.eqb_eq in Ey as ->. rewrite (cmp_flip (48%N :: b) (x :: a)).
      rewrite cmp_fraction_zero; [done|done|by apply N.eqb_neq].
    + by rewrite cmp_pair_same, cmp_pair_nil.
Qed.

Lemma apk_cmp_parts_later a b :
  forallb dec_part a = true -> forallb dec_part b = true ->
  apk_cmp_parts false a b = Ok (cmp_lex cmp_part (part_key false <$> a) (part_key false <$> b)).
Proof.
  revert b. induction a as [|x a IH]; intros [|y b]; cbn [forallb apk_cmp_parts]; try done.
  intros [Hx Ha]%andb_prop [Hy Hb]%andb_prop. rewrite apk_cmp_numpart_keys by done. csimpl.
  rewrite cmp_then_if. destruct (negb _); [done|]. by apply IH.
Qed.

Lemma apk_cmp_parts_keys a b :
  forallb dec_part a = true -> forallb dec_part b = true ->
  apk_cmp_parts true a b = Ok (cmp_lex cmp_part (parts_key a) (parts_key b)).
Proof.
  destruct a as [|x a], b as [|y b]; cbn [forallb apk_cmp_parts parts_key]; try done.
  intros [Hx Ha]%andb_prop [Hy Hb]%andb_prop. rewrite apk_cmp_numpart_keys by done. cbn.
  rewrite cmp_then_if. destruct (negb _); [done|]. by apply apk_cmp_parts_later.
Qed.

Lemma apk_compare_keys a b :
  apk_wellformed a = true -> apk_wellformed b = true ->
  apk_compare a b = (ka ← apk_key a; kb ← apk_key b; Ok (cmp_apk ka kb)).
Proof.
  unfold apk_wellformed, apk_compare, apk_key.
  destruct (split_apk a) as [[[[pa la] sa] ra]|]; [|done].
  destruct (split_apk b) as [[[[pb lb] sb] rb]|]; [|done]. simpl. intros Ha Hb.
  rewrite apk_cmp_parts_keys by done. unfold cmp_apk, cmp_pair at 1 2 3. cbn [fst snd mbind res_bind].
  rewrite !cmp_then_if, cmp_str_if.
  destruct (negb _); [done|]. destruct (negb (str_eqb la lb)); [by destruct (str_ltb la lb)|]. simpl.
  by destruct (negb _).
Qed.
End VersionOrder.
