(* ===== verification/VersionProps.v ===== *)
(** * What the version comparators promise

    Each native comparator is a total preorder on the versions it parses, equal
    to the comparison of structured keys; the loops always stop; and the
    malformed versions where an answer is lost or inconsistent. *)

From stdpp Require Import base list strings numbers.
From Stdlib Require Import ZArith Lia.
From S2P Require Import Prelude PyText Compare DpkgVersion Versioning VersionOrder.

#[local] Open Scope Z_scope.

(** On [dom] the comparator answers -1, 0 or 1, oppositely when swapped, and
    "not above" is transitive. *)
Definition total_preorder (cmp : str -> str -> res (option Z)) (dom : str -> Prop) : Prop :=
  forall a b c, dom a -> dom b -> dom c ->
  exists x y z, cmp a b = Ok (Some x) /\ cmp b a = Ok (Some (- x)) /\
    cmp b c = Ok (Some y) /\ cmp a c = Ok (Some z) /\
    (x = -1 \/ x = 0 \/ x = 1) /\ (x <= 0 -> y <= 0 -> z <= 0).

Lemma keyed_preorder {K} (key : str -> res K) (ord : K -> K -> Z) `{!Ordered ord} cmp (dom : str -> Prop) :
  (forall a b ka kb, dom a -> dom b -> key a = Ok ka -> key b = Ok kb ->
     cmp a b = Ok (Some (ord ka kb))) ->
  (forall a, dom a -> exists k, key a = Ok k) ->
  total_preorder cmp dom.
Proof.
  intros Hc Hd a b c Ha Hb Hc'.
  destruct (Hd a Ha) as [ka Ka], (Hd b Hb) as [kb Kb], (Hd c Hc') as [kc Kc].
  exists (ord ka kb), (ord kb kc), (ord ka kc). rewrite <-cmp_flip.
  repeat (split; [by apply Hc|]). split; [apply cmp_range|apply cmp_trans].
Qed.

Section VersionProps.
Context {U : Unicode}.


(** [semver_compare] is SemVer precedence on the versions whose numbers
    [int] accepts: release numbers padded with zeros, a release above its
    prereleases, identifiers numeric below alphanumeric, a prefix first; it is
    a total preorder there. *)
Theorem semver_compare_order :
  (forall a b ka kb, semver_key a = Ok ka -> semver_key b = Ok kb ->
     semver_compare a b = Ok (cmp_semver ka kb)) /\
  total_preorder (fun a b => Some <$> semver_compare a b) (fun s => exists k, semver_key s = Ok k).
Proof.
  split; [apply semver_compare_keys|].
  apply (keyed_preorder semver_key cmp_semver); [|done].
  intros a b ka kb _ _ Ka Kb. by rewrite (semver_compare_keys a b ka kb).
Qed.

(** On versions whose alphanumeric characters are each a digit or a letter,
    [rpm_compare] compares epoch, version and release token by token ([~] below
    the end below [^] below letters below numbers) and is a total preorder. *)
Theorem rpm_compare_order :
  (forall a b, plain a = true -> plain b = true ->
     rpm_compare a b = (ka ← rpm_evr_key a; kb ← rpm_evr_key b; Ok (Some (cmp_evr ka kb)))) /\
  total_preorder rpm_compare (fun s => plain s = true /\ exists k, rpm_evr_key s = Ok k).
Proof.
  split; [apply rpm_compare_keys|].
  apply (keyed_preorder rpm_evr_key cmp_evr); [|naive_solver].
  intros a b ka kb [Pa _] [Pb _] Ka Kb. by rewrite rpm_compare_keys, Ka, Kb.
Qed.

(** On versions whose numeric components are decimal digits, [apk_compare]
    compares the components (the first as a number, later ones as fractions
    when they start with zero), then letter, suffixes and revision, and is a
    total preorder. *)
Theorem apk_compare_order :
  (forall a b, apk_wellformed a = true -> apk_wellformed b = true ->
     apk_compare a b = (ka ← apk_key a; kb ← apk_key b; Ok (cmp_apk ka kb))) /\
  total_preorder (fun a b => Some <$> apk_compare a b) (fun s => apk_wellformed s = true).
Proof.
  split; [apply apk_compare_keys|].
  apply (keyed_preorder apk_key cmp_apk).
  - intros a b ka kb Pa Pb Ka Kb. by rewrite apk_compare_keys, Ka, Kb.
  - intros a. unfold apk_wellformed, apk_key.
    destruct (split_apk a) as [[[[p l] s] r]|]; [by eexists|done].
Qed.

(** C24. Termination: whatever the ecosystem and the strings, the comparator
    returns or raises; no loop runs forever. *)
Theorem comparators_terminate `{Packaging} c a b : compare c a b <> Ok None.
Proof.
  destruct c; simpl.
  - rewrite dpkg_compare_keys. destruct (dpkg_key a); [|done]. simpl. by destruct (dpkg_key b).
  - by destruct (pep440_compare a b).
  - unfold rpm_compare. destruct (split_evr a) as [[[ea va] ra]|]; [|done].
    destruct (split_evr b) as [[[eb vb] rb]|]; [|done]. simpl. destruct (negb _); [done|].
    assert (Ht : forall x y, exists k, rpmvercmp x y = Some k).
    { intros x y. unfold rpmvercmp. destruct (str_eqb x y); [by eexists|]. apply rpm_loop_total.
      unfold segment_fuel. lia. }
    destruct (Ht va vb) as [k ->], (Ht ra rb) as [k' ->]. simpl. by destruct (negb _).
  - by destruct (apk_compare a b).
  - by destruct (semver_compare a b).
Qed.

(** [isdigit] accepts digits that [int] does not, so the comparators raise
    [ValueError] on a superscript two although they mean to degrade. *)
Theorem superscript_versions_raise :
  let two := 178%N in
  apk_compare (u "1." ++ [two]) (u "1.1") = Raise ValueError /\
  semver_compare [two] (u "1") = Raise ValueError /\
  dpkg_compare ([two] ++ u ":1") (u "1") = Raise ValueError /\
  rpm_compare ([two] ++ u ":1") (u "1") = Raise ValueError.
Proof. repeat split; vm_compute; reflexivity. Qed.

(** Outside the domains of C22 and C23 the answers are inconsistent: two
    vulgar fractions are each older than the other for rpm, and three apk
    versions form a cycle. *)
Theorem malformed_versions_break_order :
  rpm_compare [188%N] [189%N] = Ok (Some (-1)) /\ rpm_compare [189%N] [188%N] = Ok (Some (-1)) /\
  apk_compare (u "10") (u "1:1") = Ok (-1) /\ apk_compare (u "1:1") (u "9") = Ok (-1) /\
  apk_compare (u "9") (u "10") = Ok (-1).
Proof. repeat split; vm_compute; reflexivity. Qed.
End VersionProps.

(** ** At concrete versions *)
Section Witnesses.


Lemma semver_compare_order_witness :
  semver_compare (u "v1.2.0-rc.2") (u "1.2-rc.11+x") = Ok (-1) /\
  exists k, semver_key (u "v1.2.0-rc.2") = Ok k.
Proof.
  split; [|eexists; vm_compute; reflexivity].
  etransitivity; [eapply (proj1 semver_compare_order); vm_compute; reflexivity|].
  vm_compute. reflexivity.
Defined.

Lemma rpm_compare_order_witness :
  rpm_compare (u "2:1.0^git1-2") (u "2:1.0-3") = Ok (Some 1) /\
  plain (u "2:1.0^git1-2") = true.
Proof.
  split; [|vm_compute; reflexivity].
  rewrite (proj1 rpm_compare_order) by (vm_compute; reflexivity). vm_compute. reflexivity.
Defined.

Lemma apk_compare_order_witness :
  apk_compare (u "1.2.05_rc1-r3") (u "1.2.5_p1-r1") = Ok (-1) /\
  apk_wellformed (u "1.2.05_rc1-r3") = true.
Proof.
  split; [|vm_compute; reflexivity].
  rewrite (proj1 apk_compare_order) by (vm_compute; reflexivity). vm_compute. reflexivity.
Defined.
End Witnesses.
