(* ===== verification/Severity.v ===== *)
(** * Severities and their scores

    [Severity] ([analyzer/src/analyzer/schemas/common.py]), its ranks in
    [detect/osv.py] and the scores of [scoring.py]. *)

From stdpp Require Import base list strings numbers.
From Stdlib Require Import ZArith Lia.
From S2P Require Import Prelude.

#[local] Open Scope Z_scope.

Inductive Severity := INFO | LOW | MEDIUM | HIGH | CRITICAL.

#[global] Instance severity_eq_dec : EqDecision Severity.
Proof. solve_decision. Defined.

(** [_SEVERITY_RANK] *)
Definition severity_rank (s : Severity) : Z :=
  match s with INFO => 0 | LOW => 1 | MEDIUM => 2 | HIGH => 3 | CRITICAL => 4 end.

(** [max(candidates, key=rank)]: the first of the largest. *)
Fixpoint max_by {A} (rank : A -> Z) (best : A) (l : list A) : A :=
  match l with
  | [] => best
  | x :: l' => max_by rank (if rank best <? rank x then x else best) l'
  end.

Lemma max_by_spec {A} (rank : A -> Z) best l :
  max_by rank best l ∈ best :: l /\ Forall (fun x => rank x <= rank (max_by rank best l)) (best :: l).
Proof.
  revert best. induction l as [|x l IH]; intros best; simpl.
  - split; [by left|]. repeat constructor. lia.
  - destruct (IH (if rank best <? rank x then x else best)) as [Hin Hall].
    inversion Hall as [|? ? Hb Hl]; subst. split.
    + apply elem_of_cons in Hin as [->|Hin]; [destruct (_ <? _); [right; left|left]|right; by right].
    + destruct (rank best <? rank x) eqn:E; repeat constructor; try done; lia.
Qed.

Lemma severity_rank_inj a b : severity_rank a = severity_rank b -> a = b.
Proof. by destruct a, b. Qed.

(** ** Scores ([scoring.py]); every value is a small integer, exact as a float *)

Definition severity_score (s : Severity) : Z :=
  match s with INFO => 10 | LOW => 25 | MEDIUM => 50 | HIGH => 75 | CRITICAL => 95 end.

Definition blast_per_asset : Z := 3.
Definition blast_cap : Z := 12.

Definition score_for_severity (s : Severity) : Z := severity_score s.

Definition alert_score (s : Severity) (blast_radius : Z) : Z :=
  let base := severity_score s in
  let bonus := Z.min blast_cap (Z.max 0 (blast_radius - 1) * blast_per_asset) in
  Z.min 100 (base + bonus).

Lemma alert_score_range s n : 10 <= alert_score s n <= 100.
Proof. unfold alert_score, blast_cap, blast_per_asset. destruct s; simpl; lia. Qed.

(** The blast-radius bonus never lifts an alert out of its tier: a more
    severe alert scores strictly higher whatever the radii; within a tier the
    score does not decrease with the radius, an isolated finding scores its
    base, and every score is in 10..100. *)
Theorem alert_score_tiers s t n m :
  (severity_rank s < severity_rank t -> alert_score s n < alert_score t m) /\
  (n <= m -> alert_score s n <= alert_score s m) /\
  (n <= 1 -> alert_score s n = score_for_severity s) /\
  10 <= alert_score s n <= 100.
Proof.
  unfold alert_score, score_for_severity, blast_cap, blast_per_asset.
  destruct s, t; simpl; lia.
Qed.
