(* ===== verification/Cvss.v ===== *)
(** * CVSS base scores ([analyzer/src/analyzer/detect/cvss.py])

    The v3 base score in binary64, and the v4 base severity.  The metrics of a
    vector are Python dicts, kept in insertion order. *)

From stdpp Require Import base list strings numbers.
From Stdlib Require Import ZArith Lia QArith Qround SpecFloat.
From S2P Require Import Prelude PyText PyFloat Severity.

#[local] Open Scope Z_scope.

(** [table.get(key)] for one-letter keys *)
Definition lookup {A} (table : list (str * A)) (key : str) : option A := od_get key table.

Definition av_weight : list (str * float) :=
  [(u "N", fl_lit 85 100); (u "A", fl_lit 62 100); (u "L", fl_lit 55 100); (u "P", fl_lit 2 10)].
Definition ac_weight : list (str * float) := [(u "L", fl_lit 77 100); (u "H", fl_lit 44 100)].
Definition ui_weight : list (str * float) := [(u "N", fl_lit 85 100); (u "R", fl_lit 62 100)].
Definition impact_weight : list (str * float) :=
  [(u "H", fl_lit 56 100); (u "L", fl_lit 22 100); (u "N", fl_of_Z 0)].
Definition pr_unchanged : list (str * float) :=
  [(u "N", fl_lit 85 100); (u "L", fl_lit 62 100); (u "H", fl_lit 27 100)].
Definition pr_changed : list (str * float) :=
  [(u "N", fl_lit 85 100); (u "L", fl_lit 68 100); (u "H", fl_lit 50 100)].

Definition required : list str :=
  [u "AV"; u "AC"; u "PR"; u "UI"; u "S"; u "C"; u "I"; u "A"].

(** [_roundup] *)
Definition roundup (value : float) : float :=
  let scaled := fl_round (fl_mul value (fl_of_Z 100000)) in
  if scaled mod 10000 =? 0 then fl_div (fl_of_Z scaled) (fl_of_Z 100000)
  else fl_div (fl_of_Z (fl_floor (fl_div (fl_of_Z scaled) (fl_of_Z 10000)) + 1)) (fl_of_Z 10).

(** [_impact] *)
Definition impact_of (iss : float) (scope_changed : bool) : float :=
  if scope_changed then
    fl_sub (fl_mul (fl_lit 752 100) (fl_sub iss (fl_lit 29 1000)))
           (fl_mul (fl_lit 325 100)
              (fl_pow (fl_sub (fl_mul iss (fl_lit 9731 10000)) (fl_lit 2 100)) 13))
  else fl_mul (fl_lit 642 100) iss.

(** The loop both parsers share: [metrics[key] = val] for each [key:val]. *)
Definition vector_metrics (vector : str) : list (str * str) :=
  foldl (fun metrics part =>
           match partition (u ":") part with
           | Some (key, val) => if bool_decide (key = u "CVSS") then metrics else od_set key val metrics
           | None => metrics
           end) [] (split_on 47 vector).

Definition has_key (metrics : list (str * str)) (k : str) : bool :=
  match od_get k metrics with Some _ => true | None => false end.

(** [parse_vector] *)
Definition parse_vector (vector : str) : option (list (str * str)) :=
  let metrics := vector_metrics vector in
  if forallb (has_key metrics) required then Some metrics else None.

Definition metric (metrics : list (str * str)) (k : str) : str := default [] (od_get k metrics).

(** The final sum, capped and rounded up. *)
Definition combine_score (scope_changed : bool) (impact exploitability : float) : float :=
  if fl_leb impact (fl_of_Z 0) then fl_of_Z 0
  else
    let raw := fl_add impact exploitability in
    let raw := if scope_changed then fl_mul raw (fl_lit 108 100) else raw in
    roundup (fl_min raw (fl_of_Z 10)).

Definition exploitability_of (av ac pr ui : float) : float :=
  fl_mul (fl_mul (fl_mul (fl_mul (fl_lit 822 100) av) ac) pr) ui.

Definition iss_of (conf integ avail : float) : float :=
  let one := fl_of_Z 1 in
  fl_sub one (fl_mul (fl_mul (fl_sub one conf) (fl_sub one integ)) (fl_sub one avail)).

(** [base_score_from_vector] *)
Definition base_score_from_vector (vector : str) : option float :=
  metrics ← parse_vector vector;
  let scope_changed := bool_decide (metric metrics (u "S") = u "C") in
  let pr_table := if scope_changed then pr_changed else pr_unchanged in
  av ← lookup av_weight (metric metrics (u "AV"));
  ac ← lookup ac_weight (metric metrics (u "AC"));
  ui ← lookup ui_weight (metric metrics (u "UI"));
  pr ← lookup pr_table (metric metrics (u "PR"));
  conf ← lookup impact_weight (metric metrics (u "C"));
  integ ← lookup impact_weight (metric metrics (u "I"));
  avail ← lookup impact_weight (metric metrics (u "A"));
  Some (combine_score scope_changed (impact_of (iss_of conf integ avail) scope_changed)
          (exploitability_of av ac pr ui)).

(** [severity_from_score] *)
Definition severity_from_score (score : float) : Severity :=
  if fl_leb score (fl_of_Z 0) then INFO
  else if fl_ltb score (fl_of_Z 4) then LOW
  else if fl_ltb score (fl_of_Z 7) then MEDIUM
  else if fl_ltb score (fl_of_Z 9) then HIGH
  else CRITICAL.

(** ** CVSS v4 *)

Definition v4_base_metrics : list (str * str) :=
  [(u "AV", u "NALP"); (u "AC", u "LH"); (u "AT", u "NP"); (u "PR", u "NLH"); (u "UI", u "NPA");
   (u "VC", u "HLN"); (u "VI", u "HLN"); (u "VA", u "HLN"); (u "SC", u "HLN"); (u "SI", u "HLN");
   (u "SA", u "HLN")].

(** [val in frozenset(letters)] *)
Definition one_of (letters val : str) : bool :=
  match val with [c] => bool_decide (c ∈ letters) | _ => false end.

Definition v4_impact_weight (val : str) : Z :=
  if bool_decide (val = u "H") then 2 else if bool_decide (val = u "L") then 1 else 0.

Section V4.
Context {U : Unicode}.

(** [is_cvss_v4_vector] *)
Definition is_cvss_v4_vector (vector : str) : bool := startswith (u "CVSS:4.0/") (upper (strip vector)).

(** [parse_v4_vector] *)
Definition parse_v4_vector (vector : str) : option (list (str * str)) :=
  if is_cvss_v4_vector vector then
    let metrics := vector_metrics vector in
    mapM (fun '(key, allowed) =>
            val ← od_get key metrics;
            if one_of allowed val then Some (key, val) else None) v4_base_metrics
  else None.

(** [severity_from_v4_vector] *)
Definition severity_from_v4_vector (vector : str) : option Severity :=
  base ← parse_v4_vector vector;
  let impacts := (fun m => v4_impact_weight (metric base m)) <$>
    [u "VC"; u "VI"; u "VA"; u "SC"; u "SI"; u "SA"] in
  let worst := foldr Z.max 0 impacts in
  let easily_reachable :=
    bool_decide (metric base (u "AV") = u "N") && bool_decide (metric base (u "AC") = u "L")
    && bool_decide (metric base (u "AT") = u "N") && bool_decide (metric base (u "PR") = u "N")
    && bool_decide (metric base (u "UI") = u "N") in
  Some (if worst =? 0 then INFO
        else if worst =? 2 then (if easily_reachable then CRITICAL else HIGH)
        else (if easily_reachable then HIGH else MEDIUM)).
End V4.

(** ** Reference: the formula over the rationals *)

Record base_metrics := mkBase {
  bm_av : N; bm_ac : N; bm_pr : N; bm_ui : N; bm_s : N; bm_c : N; bm_i : N; bm_a : N;
}.

Definition letters (s : String.string) : list N := u s.
Definition is_letter (s : String.string) (c : N) : bool := bool_decide ([c] = u s).

Definition vector_of (m : base_metrics) : str :=
  u "CVSS:3.1/AV:" ++ [bm_av m] ++ u "/AC:" ++ [bm_ac m] ++ u "/PR:" ++ [bm_pr m]
  ++ u "/UI:" ++ [bm_ui m] ++ u "/S:" ++ [bm_s m] ++ u "/C:" ++ [bm_c m]
  ++ u "/I:" ++ [bm_i m] ++ u "/A:" ++ [bm_a m].

(** Each metric has one of its letters: the 2592 base vectors. *)
Definition base_ok (m : base_metrics) : Prop :=
  bm_av m ∈ letters "NALP" /\ bm_ac m ∈ letters "LH" /\ bm_pr m ∈ letters "NLH" /\
  bm_ui m ∈ letters "NR" /\ bm_s m ∈ letters "UC" /\
  bm_c m ∈ letters "HLN" /\ bm_i m ∈ letters "HLN" /\ bm_a m ∈ letters "HLN".

Definition q_av (c : N) : Q :=
  if is_letter "N" c then 85 # 100 else if is_letter "A" c then 62 # 100
  else if is_letter "L" c then 55 # 100 else 20 # 100.
Definition q_ac (c : N) : Q := if is_letter "L" c then 77 # 100 else 44 # 100.
Definition q_ui (c : N) : Q := if is_letter "N" c then 85 # 100 else 62 # 100.
Definition q_cia (c : N) : Q :=
  if is_letter "H" c then 56 # 100 else if is_letter "L" c then 22 # 100 else 0.
Definition q_pr (changed : bool) (c : N) : Q :=
  if is_letter "N" c then 85 # 100
  else if is_letter "L" c then (if changed then 68 # 100 else 62 # 100)
  else (if changed then 50 # 100 else 27 # 100).

(** [term] is the last power of the impact of a changed scope. *)
Definition q_impact (term : Q -> Q) (changed : bool) (c i a : N) : Q :=
  let iss := (1 - (1 - q_cia c) * (1 - q_cia i) * (1 - q_cia a))%Q in
  (if changed then (752 # 100) * (iss - (29 # 1000)) - (325 # 100) * term iss
   else (642 # 100) * iss)%Q.

Definition q_exploitability (changed : bool) (av ac pr ui : N) : Q :=
  ((822 # 100) * q_av av * q_ac ac * q_pr changed pr * q_ui ui)%Q.

(** Ten times the exact sum, capped at ten. *)
Definition q_raw (changed : bool) (impact exploitability : Q) : Q :=
  (if Qle_bool impact 0 then 0
   else let raw := 10 * (if changed then (108 # 100) * (impact + exploitability)
                         else impact + exploitability) in
        if Qle_bool 100 raw then 100 else raw)%Q.

(** The exact score in tenths, rounded up. *)
Definition q_score (term : Q -> Q) (m : base_metrics) : Z :=
  let changed := is_letter "C" (bm_s m) in
  Qceiling (q_raw changed (q_impact term changed (bm_c m) (bm_i m) (bm_a m))
              (q_exploitability changed (bm_av m) (bm_ac m) (bm_pr m) (bm_ui m))).

(** The changed-scope term of the code, and the one of the FIRST base formula. *)
Definition code_term (iss : Q) : Q := ((iss * (9731 # 10000) - (2 # 100)) ^ 13)%Q.
Definition first_term (iss : Q) : Q := ((iss - (2 # 100)) ^ 15)%Q.

(** ** The float computation against the exact one *)

Definition weight (table : list (str * float)) (c : N) : float := default (fl_of_Z 0) (lookup table [c]).

(** The two halves of a score, in floats and exactly. *)
Definition impacts (changed : bool) : list (float * Q) :=
  c ← letters "HLN"; i ← letters "HLN"; a ← letters "HLN";
  [(impact_of (iss_of (weight impact_weight c) (weight impact_weight i) (weight impact_weight a)) changed,
    Qred (q_impact code_term changed c i a))].

Definition exploitabilities (changed : bool) : list (float * Q) :=
  av ← letters "NALP"; ac ← letters "LH"; pr ← letters "NLH"; ui ← letters "NR";
  [(exploitability_of (weight av_weight av) (weight ac_weight ac)
      (weight (if changed then pr_changed else pr_unchanged) pr) (weight ui_weight ui),
    Qred (q_exploitability changed av ac pr ui))].

(** The tenths of a score. *)
Definition tenths (score : float) : Z := fl_round (fl_mul score (fl_of_Z 10)).

Definition pair_exact (changed : bool) (imp expl : float * Q) : bool :=
  let score := combine_score changed imp.1 expl.1 in
  let k := tenths score in
  let raw := q_raw changed imp.2 expl.2 in
  bool_decide (score = fl_lit k 10) && Qle_bool raw (inject_Z k)
  && negb (Qle_bool raw (inject_Z (k - 1))) && (0 <=? k) && (k <=? 100).

Lemma pairs_exact changed :
  forallb (fun imp => forallb (pair_exact changed imp) (exploitabilities changed)) (impacts changed) = true.
Proof. destruct changed; vm_compute; reflexivity. Qed.

(** ** From pairs to vectors *)

Lemma Qle_bool_morph a a' b b' : a == a' -> b == b' -> Qle_bool a b = Qle_bool a' b'.
Proof.
  intros Ha Hb. destruct (Qle_bool a b) eqn:E1, (Qle_bool a' b') eqn:E2; try done.
  - apply Qle_bool_iff in E1. rewrite Ha, Hb in E1. apply Qle_bool_iff in E1. congruence.
  - apply Qle_bool_iff in E2. rewrite <-Ha, <-Hb in E2. apply Qle_bool_iff in E2. congruence.
Qed.

Lemma q_raw_morph ch a a' b b' : a == a' -> b == b' -> q_raw ch a b == q_raw ch a' b'.
Proof.
  intros Ha Hb. unfold q_raw. rewrite (Qle_bool_morph a a' 0 0 Ha (Qeq_refl 0)).
  destruct (Qle_bool a' 0); [reflexivity|].
  set (r := (10 * _)%Q). set (r' := (10 * (if ch then _ * (a' + b') else _))%Q).
  assert (r == r') as Hr by (unfold r, r'; destruct ch; by rewrite Ha, Hb).
  rewrite (Qle_bool_morph 100 100 r r' (Qeq_refl _) Hr). by destruct (Qle_bool 100 r').
Qed.

Lemma Qceiling_between q k :
  Qle_bool q (inject_Z k) = true -> Qle_bool q (inject_Z (k - 1)) = false -> Qceiling q = k.
Proof.
  intros Hle%Qle_bool_iff Hlt. apply Z.le_antisymm.
  - rewrite <-(Qceiling_Z k). by apply Qceiling_resp_le.
  - destruct (Z_lt_le_dec (Qceiling q) k) as [Hk|]; [|done]. exfalso.
    assert (q <= inject_Z (k - 1))%Q as H.
    { eapply Qle_trans; [apply Qle_ceiling|]. rewrite <-Zle_Qle. lia. }
    apply Qle_bool_iff in H. congruence.
Qed.

(** The letters of a base vector are no separators, so it parses as written. *)
Definition no_slash (s : String.string) : bool := forallb (fun c => negb (c =? 47)%N) (letters s).

Lemma letter_not_slash s c : c ∈ letters s -> no_slash s = true -> (c =? 47)%N = false.
Proof.
  intros Hc Hs. apply negb_true_iff. unfold no_slash in Hs. rewrite forallb_forall in Hs.
  by apply Hs, list_elem_of_In.
Qed.

Definition metrics_of (m : base_metrics) : list (str * str) :=
  [(u "AV", [bm_av m]); (u "AC", [bm_ac m]); (u "PR", [bm_pr m]); (u "UI", [bm_ui m]);
   (u "S", [bm_s m]); (u "C", [bm_c m]); (u "I", [bm_i m]); (u "A", [bm_a m])].

Lemma parse_vector_of m : base_ok m -> parse_vector (vector_of m) = Some (metrics_of m).
Proof.
  intros (H1 & H2 & H3 & H4 & H5 & H6 & H7 & H8).
  assert (Hs : split_on 47 (vector_of m) =
    [u "CVSS:3.1"; u "AV:" ++ [bm_av m]; u "AC:" ++ [bm_ac m]; u "PR:" ++ [bm_pr m];
     u "UI:" ++ [bm_ui m]; u "S:" ++ [bm_s m]; u "C:" ++ [bm_c m]; u "I:" ++ [bm_i m];
     u "A:" ++ [bm_a m]]).
  { apply letter_not_slash in H1, H2, H3, H4, H5, H6, H7, H8; [|reflexivity..].
    destruct m as [av ac pr ui s c i a]. simpl in *. cbn.
    by rewrite H1, H2, H3, H4, H5, H6, H7, H8. }
  unfold parse_vector, vector_metrics. rewrite Hs. reflexivity.
Qed.

Lemma elem_impacts (ch : bool) (c i a : N) :
  c ∈ letters "HLN" -> i ∈ letters "HLN" -> a ∈ letters "HLN" ->
  (impact_of (iss_of (weight impact_weight c) (weight impact_weight i) (weight impact_weight a)) ch,
   Qred (q_impact code_term ch c i a)) ∈ impacts ch.
Proof.
  intros Hc Hi Ha. unfold impacts. apply list_elem_of_bind. exists c. split; [|done].
  apply list_elem_of_bind. exists i. split; [|done].
  apply list_elem_of_bind. exists a. split; [by left|done].
Qed.

Lemma elem_exploitabilities (ch : bool) (av ac pr ui : N) :
  av ∈ letters "NALP" -> ac ∈ letters "LH" -> pr ∈ letters "NLH" -> ui ∈ letters "NR" ->
  (exploitability_of (weight av_weight av) (weight ac_weight ac)
     (weight (if ch then pr_changed else pr_unchanged) pr) (weight ui_weight ui),
   Qred (q_exploitability ch av ac pr ui)) ∈ exploitabilities ch.
Proof.
  intros Hav Hac Hpr Hui. unfold exploitabilities. apply list_elem_of_bind. exists av. split; [|done].
  apply list_elem_of_bind. exists ac. split; [|done].
  apply list_elem_of_bind. exists pr. split; [|done].
  apply list_elem_of_bind. exists ui. split; [by left|done].
Qed.

Definition changed (m : base_metrics) : bool := is_letter "C" (bm_s m).

Definition impact_half (m : base_metrics) : float * Q :=
  (impact_of (iss_of (weight impact_weight (bm_c m)) (weight impact_weight (bm_i m))
                (weight impact_weight (bm_a m))) (changed m),
   Qred (q_impact code_term (changed m) (bm_c m) (bm_i m) (bm_a m))).

Definition exploitability_half (m : base_metrics) : float * Q :=
  (exploitability_of (weight av_weight (bm_av m)) (weight ac_weight (bm_ac m))
     (weight (if changed m then pr_changed else pr_unchanged) (bm_pr m)) (weight ui_weight (bm_ui m)),
   Qred (q_exploitability (changed m) (bm_av m) (bm_ac m) (bm_pr m) (bm_ui m))).

Lemma halves_exact m : base_ok m -> pair_exact (changed m) (impact_half m) (exploitability_half m) = true.
Proof.
  intros (H1 & H2 & H3 & H4 & H5 & H6 & H7 & H8).
  pose proof (pairs_exact (changed m)) as Hp. rewrite forallb_forall in Hp.
  specialize (Hp (impact_half m)). rewrite forallb_forall in Hp.
  apply Hp; apply list_elem_of_In; [by apply elem_impacts|by apply elem_exploitabilities].
Qed.

Lemma q_score_halves m :
  q_score code_term m = Qceiling (q_raw (changed m) (impact_half m).2 (exploitability_half m).2).
Proof. unfold q_score. apply Qceiling_comp, q_raw_morph; symmetry; apply Qred_correct. Qed.

(** Every letter of a metric has its weight. *)
Lemma lookup_weight table s (c : N) :
  forallb (fun c => match lookup table [c] with Some _ => true | None => false end) (letters s) = true ->
  c ∈ letters s -> lookup table [c] = Some (weight table c).
Proof.
  intros Hf Hc. rewrite forallb_forall in Hf. specialize (Hf c (proj1 (list_elem_of_In _ _) Hc)).
  unfold weight. by destruct (lookup table [c]).
Qed.

Lemma base_score_halves m : base_ok m ->
  base_score_from_vector (vector_of m) =
    Some (combine_score (changed m) (impact_half m).1 (exploitability_half m).1).
Proof.
  intros Hm. unfold base_score_from_vector. rewrite parse_vector_of by done.
  destruct Hm as (H1 & H2 & H3 & H4 & H5 & H6 & H7 & H8).
  cbn [mbind option_bind]. cbv zeta.
  change (metric (metrics_of m) (u "S")) with [bm_s m].
  change (metric (metrics_of m) (u "AV")) with [bm_av m].
  change (metric (metrics_of m) (u "AC")) with [bm_ac m].
  change (metric (metrics_of m) (u "UI")) with [bm_ui m].
  change (metric (metrics_of m) (u "PR")) with [bm_pr m].
  change (metric (metrics_of m) (u "C")) with [bm_c m].
  change (metric (metrics_of m) (u "I")) with [bm_i m].
  change (metric (metrics_of m) (u "A")) with [bm_a m].
  fold (is_letter "C" (bm_s m)). fold (changed m).
  rewrite (lookup_weight av_weight "NALP"), (lookup_weight ac_weight "LH"),
    (lookup_weight ui_weight "NR"), (lookup_weight impact_weight "HLN" (bm_c m)),
    (lookup_weight impact_weight "HLN" (bm_i m)), (lookup_weight impact_weight "HLN" (bm_a m))
    by (done || reflexivity).
  assert (Hpr : lookup (if changed m then pr_changed else pr_unchanged) [bm_pr m] =
    Some (weight (if changed m then pr_changed else pr_unchanged) (bm_pr m))).
  { destruct (changed m); by apply (lookup_weight _ "NLH"). }
  rewrite Hpr. reflexivity.
Qed.

Definition band (k : Z) : Severity :=
  if k =? 0 then INFO else if k <? 40 then LOW else if k <? 70 then MEDIUM
  else if k <? 90 then HIGH else CRITICAL.

Lemma bands_exact k : 0 <= k <= 100 -> severity_from_score (fl_lit k 10) = band k.
Proof.
  intros Hk.
  assert (Hall : forallb (fun n => bool_decide (severity_from_score (fl_lit (Z.of_nat n) 10) = band (Z.of_nat n)))
                   (seq 0 101) = true) by (vm_compute; reflexivity).
  rewrite forallb_forall in Hall. specialize (Hall (Z.to_nat k)).
  rewrite Z2Nat.id in Hall by lia. apply (bool_decide_unpack _), Is_true_true, Hall, in_seq. lia.
Qed.

(** Whatever the vector, a score is a tenth between 0 and 10. *)
Definition table_ok (table : list (str * float)) (s : String.string) : bool :=
  forallb (fun kw => match kw.1 with
                     | [c] => bool_decide (c ∈ letters s) && bool_decide (kw.2 = weight table c)
                     | _ => false
                     end) table.

Lemma lookup_letter table s key w :
  table_ok table s = true -> lookup table key = Some w ->
  exists c, c ∈ letters s /\ w = weight table c.
Proof.
  unfold table_ok. rewrite forallb_forall. intros Hf Hl%od_get_Some_elem%list_elem_of_In.
  specialize (Hf _ Hl). simpl in Hf. destruct key as [|c [|]]; try done.
  apply andb_prop in Hf as [H1%bool_decide_eq_true H2%bool_decide_eq_true]. by exists c.
Qed.

Lemma base_score_tenths vector s :
  base_score_from_vector vector = Some s -> exists k, 0 <= k <= 100 /\ s = fl_lit k 10.
Proof.
  unfold base_score_from_vector. intros (metrics & _ & Hs)%bind_Some. cbv zeta in Hs.
  set (ch := bool_decide _) in Hs.
  apply bind_Some in Hs as (av & (xav & Hav & ->)%(lookup_letter _ "NALP") & Hs); [|reflexivity].
  apply bind_Some in Hs as (ac & (xac & Hac & ->)%(lookup_letter _ "LH") & Hs); [|reflexivity].
  apply bind_Some in Hs as (ui & (xui & Hui & ->)%(lookup_letter _ "NR") & Hs); [|reflexivity].
  apply bind_Some in Hs as (pr & (xpr & Hpr & ->)%(lookup_letter _ "NLH") & Hs); [|by destruct ch].
  apply bind_Some in Hs as (cf & (xc & Hc & ->)%(lookup_letter _ "HLN") & Hs); [|reflexivity].
  apply bind_Some in Hs as (it & (xi & Hi & ->)%(lookup_letter _ "HLN") & Hs); [|reflexivity].
  apply bind_Some in Hs as (al & (xa & Ha & ->)%(lookup_letter _ "HLN") & [= <-]); [|reflexivity].
  pose proof (pairs_exact ch) as Hp. rewrite forallb_forall in Hp.
  specialize (Hp _ (proj1 (list_elem_of_In _ _) (elem_impacts ch xc xi xa Hc Hi Ha))).
  rewrite forallb_forall in Hp.
  specialize (Hp _ (proj1 (list_elem_of_In _ _) (elem_exploitabilities ch xav xac xpr xui Hav Hac Hpr Hui))).
  unfold pair_exact in Hp. simpl in Hp. rewrite !andb_true_iff, bool_decide_eq_true in Hp.
  destruct Hp as ((((Hs & _) & _) & ?) & ?). eexists. split; [|exact Hs]. lia.
Qed.

(** Comparing scores is comparing tenths. *)
Lemma tenths_ltb j k : 0 <= j <= 100 -> 0 <= k <= 100 ->
  fl_ltb (fl_lit j 10) (fl_lit k 10) = (j <? k).
Proof.
  intros Hj Hk.
  assert (Hall : (let scores := (fun n => (Z.of_nat n, fl_lit (Z.of_nat n) 10)) <$> seq 0 101 in
    forallb (fun x => forallb (fun y => Bool.eqb (fl_ltb x.2 y.2) (x.1 <? y.1)) scores) scores) = true)
    by (vm_compute; reflexivity).
  cbv zeta in Hall. rewrite forallb_forall in Hall.
  assert (Hin : forall i, 0 <= i <= 100 ->
    In (i, fl_lit i 10) ((fun n => (Z.of_nat n, fl_lit (Z.of_nat n) 10)) <$> seq 0 101)).
  { intros i Hi. apply list_elem_of_In, list_elem_of_fmap. exists (Z.to_nat i).
    rewrite Z2Nat.id by lia. split; [done|]. apply list_elem_of_In, in_seq. lia. }
  specialize (Hall _ (Hin j Hj)). rewrite forallb_forall in Hall. specialize (Hall _ (Hin k Hk)).
  by apply eqb_prop in Hall.
Qed.

Lemma tenths_lit k : 0 <= k <= 100 -> tenths (fl_lit k 10) = k.
Proof.
  intros Hk.
  assert (Hall : forallb (fun n => tenths (fl_lit (Z.of_nat n) 10) =? Z.of_nat n) (seq 0 101) = true)
    by (vm_compute; reflexivity).
  rewrite forallb_forall in Hall. specialize (Hall (Z.to_nat k)).
  rewrite Z2Nat.id in Hall by lia. apply Z.eqb_eq, Hall, in_seq. lia.
Qed.

(** On each of the 2592 base vectors the binary64 computation equals the
    formula over the rationals, rounded up to a tenth: no floating-point error
    shows, the score is a tenth between 0 and 10, and the severity is its band. *)
Theorem base_score_exact m : base_ok m ->
  let k := q_score code_term m in
  base_score_from_vector (vector_of m) = Some (fl_lit k 10) /\ 0 <= k <= 100 /\
  severity_from_score (fl_lit k 10) = band k.
Proof.
  intros Hm k. pose proof (halves_exact m Hm) as Hp. unfold pair_exact in Hp.
  rewrite !andb_true_iff, negb_true_iff, bool_decide_eq_true in Hp.
  destruct Hp as ((((Hs & H1) & H2) & H3) & H4).
  assert (Hk : k = tenths (combine_score (changed m) (impact_half m).1 (exploitability_half m).1)).
  { unfold k. rewrite q_score_halves. by apply Qceiling_between. }
  rewrite <-Hk in *. rewrite base_score_halves, Hs by done. split; [done|]. split; [lia|].
  apply bands_exact. lia.
Qed.

(** A vector from its letters, in the order AV AC PR UI S C I A. *)
Definition metrics8 (s : String.string) : base_metrics :=
  match u s with
  | [av; ac; pr; ui; sc; c; i; a] => mkBase av ac pr ui sc c i a
  | _ => mkBase 0 0 0 0 0 0 0 0
  end.

Lemma base_score_exact_witness :
  let m := metrics8 "NLNRCLLN" in
  base_score_from_vector (vector_of m) = Some (fl_lit (q_score code_term m) 10) /\
  q_score code_term m = 61.
Proof.
  intros m. split; [|vm_compute; reflexivity].
  apply (base_score_exact m). unfold base_ok. vm_compute.
  repeat split; repeat (left || right).
Defined.

(** The changed-scope impact is not the one of the CVSS v3.1 base formula,
    3.25 * (ISS - 0.02) ^ 15: the vector CVSS:3.1/AV:N/AC:L/PR:N/UI:R/S:C/C:H/I:H/A:H
    scores 9.7 instead of 9.6, and AV:P/AC:H/PR:L/UI:N/S:C/C:H/I:H/A:L scores
    6.9, medium, instead of 7.0, high. *)
Theorem changed_scope_deviates :
  base_score_from_vector (vector_of (metrics8 "NLNRCHHH")) = Some (fl_lit 97 10) /\
  q_score first_term (metrics8 "NLNRCHHH") = 96 /\
  base_score_from_vector (vector_of (metrics8 "PHLNCHHL")) = Some (fl_lit 69 10) /\
  severity_from_score (fl_lit 69 10) = MEDIUM /\
  q_score first_term (metrics8 "PHLNCHHL") = 70 /\ severity_from_score (fl_lit 70 10) = HIGH.
Proof. repeat split; vm_compute; reflexivity. Qed.
