(* ===== verification/Osv.v ===== *)
(** * OSV records and affected-version matching ([analyzer/src/analyzer/detect/osv.py])

    JSON records are typed to the fields the code reads ([raw_record]).  A
    comparator is any function that may raise; the sort of the events is a
    stable insertion sort that raises when a comparison it makes raises. *)

From stdpp Require Import base list strings numbers.
From Stdlib Require Import ZArith Lia.
From S2P Require Import Prelude PyText PyFloat Compare Severity Cvss.

#[local] Open Scope Z_scope.

(** ** Records *)

(** An event dict: the keys it has. *)
Record osv_event := mkOsvEvent {
  oe_introduced : option str;
  oe_fixed : option str;
  oe_last_affected : option str;
}.

Record osv_range := mkRange {
  rng_type : str;
  rng_events : list osv_event;
}.

(** An entry of [affected]; a missing or null [versions] is the empty list. *)
Record osv_entry := mkEntry {
  ent_ecosystem : option str;
  ent_name : option str;
  ent_versions : list str;
  ent_ranges : list osv_range;
}.

(** [OsvRecord] *)
Record osv_record := mkRecord {
  rec_id : str;
  rec_aliases : list str;
  rec_affected : list osv_entry;
  rec_references : list str;
  rec_severity_word : option str;
  rec_cvss_vector : option str;
  rec_cvss_v4_vector : option str;
  rec_withdrawn : option str;
}.

(** A [severity] entry of the JSON record: [""] for a missing value. *)
Record raw_severity := mkRawSeverity {
  rs_type : str;
  rs_score : str;
  rs_base_severity : str;
}.

Record raw_record := mkRaw {
  raw_id : str;
  raw_aliases : list str;
  raw_affected : list osv_entry;
  raw_reference_urls : list str;
  raw_database_severity : str;
  raw_ecosystem_severity : str;
  raw_severities : list raw_severity;
  raw_withdrawn : str;
}.

(** [value or None] for a string *)
Definition nonempty (s : str) : option str := match s with [] => None | _ => Some s end.

Definition first_some {A} (l : list (option A)) : option A :=
  hd_error (omap (fun x => x) l).

(** [_severity_word] *)
Definition raw_severity_word (raw : raw_record) : option str :=
  first_some (nonempty (raw_database_severity raw) :: nonempty (raw_ecosystem_severity raw)
              :: ((fun e => nonempty (rs_base_severity e)) <$> raw_severities raw)).

Section Osv.
Context {U : Unicode}.

(** [_SEVERITY_WORDS] and [_word_severity] *)
Definition severity_words : list (str * Severity) :=
  [(u "negligible", INFO); (u "info", INFO); (u "unimportant", LOW); (u "low", LOW);
   (u "minor", LOW); (u "moderate", MEDIUM); (u "medium", MEDIUM); (u "high", HIGH);
   (u "important", HIGH); (u "critical", CRITICAL)].

Definition word_severity (word : option str) : option Severity :=
  w ← word; _ ← nonempty w; od_get (lower w) severity_words.

(** The vectors of the record's severity entries of one CVSS type. *)
Definition typed_vectors (prefix : str) (raw : raw_record) : list str :=
  omap (fun e => if startswith prefix (rs_type e) then nonempty (rs_score e) else None)
       (raw_severities raw).

(** The loop of [_cvss_vector] and [_cvss_v4_vector]: the first vector, unless a
    later one has a strictly better score. *)
Fixpoint pick_vector {S} (score : str -> option S) (better : S -> S -> bool)
    (best_vector : option str) (best_score : option S) (vectors : list str) : option str :=
  match vectors with
  | [] => best_vector
  | v :: vs =>
      let best_vector := match best_vector with None => Some v | Some b => Some b end in
      match score v with
      | Some s =>
          if (match best_score with None => true | Some b => better s b end)
          then pick_vector score better (Some v) (Some s) vs
          else pick_vector score better best_vector best_score vs
      | None => pick_vector score better best_vector best_score vs
      end
  end.

Definition raw_cvss_vector (raw : raw_record) : option str :=
  pick_vector base_score_from_vector (fun s b => fl_ltb b s) None None (typed_vectors (u "CVSS_V3") raw).

Definition raw_cvss_v4_vector (raw : raw_record) : option str :=
  pick_vector (fun v => severity_rank <$> severity_from_v4_vector v) (fun s b => b <? s) None None
    (typed_vectors (u "CVSS_V4") raw).

(** [OsvRecord.from_dict] *)
Definition from_dict (raw : raw_record) : osv_record :=
  mkRecord (raw_id raw) (raw_aliases raw) (raw_affected raw)
    (base.filter (fun url => url <> []) (raw_reference_urls raw))
    (raw_severity_word raw) (raw_cvss_vector raw) (raw_cvss_v4_vector raw)
    (nonempty (raw_withdrawn raw)).

(** [primary_id] *)
Definition primary_id (r : osv_record) : str :=
  default (rec_id r) (hd_error (base.filter (fun a => startswith (u "CVE-") a = true) (rec_aliases r))).

(** [cvss_score] *)
Definition cvss_score (r : osv_record) : option float :=
  v ← rec_cvss_vector r; _ ← nonempty v; base_score_from_vector v.

(** [severity] *)
Definition severity (r : osv_record) : Severity :=
  let candidates :=
    omap (fun x => x)
      [severity_from_score <$> cvss_score r;
       (v ← rec_cvss_v4_vector r; _ ← nonempty v; severity_from_v4_vector v);
       word_severity (rec_severity_word r)] in
  match candidates with
  | [] => MEDIUM
  | c :: cs => max_by severity_rank c cs
  end.

(** [affected_entries] *)
Definition affected_entries (r : osv_record) (ecosystem name : str) : list osv_entry :=
  base.filter (fun e => ent_ecosystem e = Some ecosystem /\ ent_name e = Some name) (rec_affected r).

(** ** Matching a version *)

Inductive kind := K_introduced | K_fixed | K_last_affected.

(** A point of the line; [None] is the beginning of time. *)
Definition point : Type := option str * kind.

Definition points_of (events : list osv_event) : list point :=
  omap (fun ev =>
    match oe_introduced ev, oe_fixed ev, oe_last_affected ev with
    | Some intro, _, _ => Some (if str_eqb intro (u "0") then None else Some intro, K_introduced)
    | None, Some f, _ => Some (Some f, K_fixed)
    | None, None, Some l => Some (Some l, K_last_affected)
    | None, None, None => None
    end) events.

Definition cmp_points (compare : str -> str -> res Z) (p q : point) : res Z :=
  match p.1, q.1 with
  | None, None => Ok 0
  | None, Some _ => Ok (-1)
  | Some _, None => Ok 1
  | Some vp, Some vq => compare vp vq
  end.

Fixpoint insert_point (compare : str -> str -> res Z) (x : point) (l : list point) : res (list point) :=
  match l with
  | [] => Ok [x]
  | y :: l' =>
      c ← cmp_points compare y x;
      if c <? 0 then r ← insert_point compare x l'; Ok (y :: r) else Ok (x :: l)
  end.

Fixpoint sort_points (compare : str -> str -> res Z) (l : list point) : res (list point) :=
  match l with
  | [] => Ok []
  | x :: l' => r ← sort_points compare l'; insert_point compare x r
  end.

(** The loop of [_match_range] over the sorted points. *)
Fixpoint walk (compare : str -> str -> res Z) (version : str) (affected : bool) (points : list point)
    : res (bool * option str) :=
  match points with
  | [] => Ok (affected, None)
  | (point_version, k) :: ps =>
      rel ← (match point_version with None => Ok 1 | Some v => compare version v end);
      match k with
      | K_introduced => walk compare version (if 0 <=? rel then true else affected) ps
      | K_fixed =>
          if 0 <=? rel then walk compare version false ps
          else if affected then Ok (true, point_version)
          else walk compare version affected ps
      | K_last_affected => walk compare version (if 0 <? rel then false else affected) ps
      end
  end.

(** [_match_range] *)
Definition match_range (version : str) (events : list osv_event) (compare : str -> str -> res Z)
    : res (bool * option str) :=
  points ← sort_points compare (points_of events);
  walk compare version false points.

(** [is_version_affected] *)
Fixpoint any_range (version : str) (compare : str -> str -> res Z)
    (semver : option (str -> str -> res Z)) (ranges : list osv_range) : res (bool * option str) :=
  match ranges with
  | [] => Ok (false, None)
  | rng :: rs =>
      match (if str_eqb (rng_type rng) (u "ECOSYSTEM") then Some compare
             else if str_eqb (rng_type rng) (u "SEMVER") then semver else None) with
      | None => any_range version compare semver rs
      | Some cmp =>
          r ← match_range version (rng_events rng) cmp;
          let '(affected, fixed) := r in
          if (affected : bool) then Ok (true, fixed) else any_range version compare semver rs
      end
  end.

Definition is_version_affected (version : str) (entry : osv_entry) (compare : str -> str -> res Z)
    (semver : option (str -> str -> res Z)) : res (bool * option str) :=
  if bool_decide (version ∈ ent_versions entry) then Ok (true, None)
  else any_range version compare semver (ent_ranges entry).
End Osv.
