(* ===== verification/OsvProps.v ===== *)
(** * What OSV matching promises

    [match_range] decides membership in the intervals the events describe and
    names the next fix; a record's severity is the worst signal it carries. *)

From stdpp Require Import base list strings numbers sorting.
From Stdlib Require Import ZArith Lia.
From S2P Require Import Prelude PyText PyFloat Compare DpkgVersion Versioning VersionOrder Severity Cvss Osv.

#[local] Open Scope Z_scope.

(** ** Ranges *)
Section Ranges.
Context {U : Unicode}.
(** A comparator that answers like the total preorder [c] on the versions at hand. *)
Context (compare : str -> str -> res Z) (c : str -> str -> Z) `{Oc : !Ordered c} (D : str -> Prop).
Context (compare_c : forall a b, D a -> D b -> compare a b = Ok (c a b)).

Definition point_in (p : point) : Prop := match p.1 with Some v => D v | None => True end.

Definition cmp_point (p q : point) : Z :=
  match p.1, q.1 with
  | None, None => 0
  | None, Some _ => -1
  | Some _, None => 1
  | Some a, Some b => c a b
  end.

#[local] Instance cmp_point_ordered : Ordered cmp_point.
Proof using Oc.
  clear compare_c D compare. unfold cmp_point.
  split; intros [[a|] ?] [[b|] ?]; simpl; try lia; try apply cmp_range; try apply cmp_flip;
    intros [[d|] ?]; simpl; try lia; apply cmp_trans.
Qed.

Definition point_lt (p q : point) : bool := cmp_point p q <? 0.

Lemma cmp_points_c p q : point_in p -> point_in q -> cmp_points compare p q = Ok (cmp_point p q).
Proof using compare_c.
  destruct p as [[a|] ?], q as [[b|] ?]; unfold point_in, cmp_points, cmp_point; simpl; auto.
Qed.

Lemma insert_point_c x l :
  point_in x -> Forall point_in l -> insert_point compare x l = Ok (insert_sorted point_lt x l).
Proof using compare_c.
  intros Hx. induction 1 as [|y l Hy Hl IH]; simpl; [done|].
  rewrite cmp_points_c by done. simpl. unfold point_lt at 1.
  destruct (cmp_point y x <? 0); [|done]. by rewrite IH.
Qed.

Lemma sort_points_c l : Forall point_in l -> sort_points compare l = Ok (isort point_lt l).
Proof using compare_c.
  induction 1 as [|x l Hx Hl IH]; simpl; [done|]. rewrite IH. simpl.
  apply insert_point_c; [done|]. by rewrite isort_perm.
Qed.

Lemma isort_points_sorted l :
  StronglySorted (fun p q => cmp_point p q <= 0) (isort point_lt l).
Proof using Oc.
  clear compare_c.
  assert (H : StronglySorted (fun p q => point_lt q p = false) (isort point_lt l)).
  { apply isort_Sorted; unfold point_lt.
    - intros p q Hpq. pose proof (@cmp_flip _ cmp_point _ p q). apply Z.ltb_ge. apply Z.ltb_lt in Hpq. lia.
    - intros p q r Hqp Hrq. apply Z.ltb_ge in Hqp, Hrq. apply Z.ltb_ge.
      pose proof (@cmp_flip _ cmp_point _ q p). pose proof (@cmp_flip _ cmp_point _ r q). pose proof (@cmp_flip _ cmp_point _ r p).
      pose proof (@cmp_trans _ cmp_point _ p q r). lia. }
  revert H. generalize (isort point_lt l). induction 1 as [|p ps Hs IH Hp]; constructor; [done|].
  eapply Forall_impl; [exact Hp|]. intros q Hq. unfold point_lt in Hq. apply Z.ltb_ge in Hq.
  pose proof (@cmp_flip _ cmp_point _ p q). lia.
Qed.

(** Whether [version] has reached a point; a last-affected version must be passed. *)
Definition reached (version : str) (p : point) : bool :=
  match p with
  | (None, _) => true
  | (Some v, K_last_affected) => 0 <? c version v
  | (Some v, _) => 0 <=? c version v
  end.

Definition is_introduced (p : point) : bool := match p.2 with K_introduced => true | _ => false end.

(** The state at [version]: that of the last point it reached. *)
Definition state_at (version : str) (affected : bool) (points : list point) : bool :=
  fold_left (fun a p => if reached version p then is_introduced p else a) points affected.

(** A fix above [version]. *)
Definition fix_above (version : str) (p : point) (v : str) : Prop :=
  p = (Some v, K_fixed) /\ c version v < 0.

Lemma state_at_cons version a p ps :
  state_at version a (p :: ps) = state_at version (if reached version p then is_introduced p else a) ps.
Proof. done. Qed.

Lemma state_at_unreached version a ps :
  Forall (fun p => reached version p = false) ps -> state_at version a ps = a.
Proof. revert a. induction ps as [|p ps IH]; intros a; [done|]. inversion 1; subst. simpl. by rewrite H2; apply IH. Qed.

(** Past a fix above [version] nothing is reached. *)
Lemma sorted_above version v k ps :
  StronglySorted (fun p q => cmp_point p q <= 0) ((Some v, k) :: ps) -> c version v < 0 ->
  Forall (fun p => reached version p = false) ps.
Proof using Oc.
  clear compare_c. intros [_ Hp]%StronglySorted_inv Hv. eapply Forall_impl; [exact Hp|].
  intros [[w|] k'] Hw; unfold cmp_point in Hw; simpl in *; [|lia].
  assert (c version w = -1).
  { apply (cmp_lt_trans c version v w); [|done]. destruct (cmp_range version v) as [?|[?|?]]; lia. }
  destruct k'; lia.
Qed.

Lemma walk_spec version a ps :
  D version -> Forall point_in ps -> Forall (fun p => p.1 = None -> is_introduced p = true) ps ->
  StronglySorted (fun p q => cmp_point p q <= 0) ps ->
  exists fixed, walk compare version a ps = Ok (state_at version a ps, fixed) /\
    match fixed with
    | Some v => state_at version a ps = true /\ (exists p, p ∈ ps /\ fix_above version p v) /\
                forall p w, p ∈ ps -> fix_above version p w -> c v w <= 0
    | None => state_at version a ps = true -> forall p w, p ∈ ps -> ~ fix_above version p w
    end.
Proof using Oc compare_c.
  intros Hd. revert a. induction ps as [|[v k] ps IH]; intros a Hin Hz Hs.
  { exists None. split; [done|]. intros _ p w Hp. by apply not_elem_of_nil in Hp. }
  inversion Hin as [|? ? Hv Hin']; subst. inversion Hz as [|? ? Hz0 Hz']; subst.
  pose proof Hs as [Hs' Hhd]%StronglySorted_inv.
  (* a step that only moves on *)
  assert (Hmove : forall a', (forall w, ~ fix_above version (v, k) w) ->
    state_at version a ((v, k) :: ps) = state_at version a' ps ->
    exists fixed, walk compare version a' ps = Ok (state_at version a ((v, k) :: ps), fixed) /\
    match fixed with
    | Some v' => state_at version a ((v, k) :: ps) = true /\
                 (exists p, p ∈ (v, k) :: ps /\ fix_above version p v') /\
                 forall p w, p ∈ (v, k) :: ps -> fix_above version p w -> c v' w <= 0
    | None => state_at version a ((v, k) :: ps) = true ->
              forall p w, p ∈ (v, k) :: ps -> ~ fix_above version p w
    end).
  { intros a' Hno ->. destruct (IH a' Hin' Hz' Hs') as (fixed & -> & Hf). exists fixed. split; [done|].
    destruct fixed as [v'|].
    - destruct Hf as (? & (p & ? & ?) & Hmin). split; [done|]. split; [exists p; split; [by right|done]|].
      intros q w [->|Hq]%elem_of_cons Hw; [by destruct (Hno w)|by eapply Hmin].
    - intros Ht q w [->|Hq]%elem_of_cons Hw; [by destruct (Hno w)|by eapply Hf]. }
  destruct v as [v|].
  - cbn [walk]. rewrite (compare_c version v) by done. cbn [mbind res_bind]. destruct k.
    + apply Hmove; [intros w [? _]; done|]. rewrite state_at_cons. cbn [reached].
      by destruct (0 <=? c version v).
    + destruct (0 <=? c version v) eqn:E.
      * apply Hmove; [intros w [[= <-] ?]; lia|]. rewrite state_at_cons. cbn [reached]. by rewrite E.
      * assert (Hv' : c version v < 0) by lia.
        pose proof (sorted_above version v K_fixed ps Hs Hv') as Hnone.
        assert (Hst : forall a, state_at version a ((Some v, K_fixed) :: ps) = a).
        { intros a'. rewrite state_at_cons. cbn [reached]. rewrite E. by apply state_at_unreached. }
        rewrite Hst. destruct a.
        -- exists (Some v). split; [done|]. split; [done|].
           split; [exists (Some v, K_fixed); split; [by left|done]|].
           intros p w [->|Hp]%elem_of_cons [Ep Hw].
           { injection Ep as <-. rewrite (cmp_refl c). lia. }
           subst p. rewrite Forall_forall in Hhd. exact (Hhd _ Hp).
        -- destruct (IH false Hin' Hz' Hs') as (fixed & Hw & Hf).
           rewrite (state_at_unreached version false ps Hnone) in Hw, Hf. exists fixed.
           split; [exact Hw|]. destruct fixed; [by destruct Hf|done].
    + apply Hmove; [intros w [? _]; done|]. rewrite state_at_cons. cbn [reached].
      by destruct (0 <? c version v).
  - cbn [walk mbind res_bind]. specialize (Hz0 eq_refl). destruct k; try done.
    apply Hmove; [intros w [? _]; done|done].
Qed.

(** The versions the events of a range name. *)
Definition events_in (events : list osv_event) : Prop := Forall point_in (points_of events).

Lemma points_of_start events : Forall (fun p : point => p.1 = None -> is_introduced p = true) (points_of events).
Proof.
  apply Forall_forall. intros [v k] Hp. unfold points_of in Hp. apply list_elem_of_omap in Hp as (ev & _ & He).
  intros Hn. simpl in Hn. subst. repeat case_match; simplify_eq; done.
Qed.

(** C15. Matching a version against a range, with a comparator that is a total
    preorder on the versions involved: the version is affected exactly when the
    last point of the sorted events it reached is an [introduced] one; the
    version reported as the fix is a [fixed] event above the version, the
    lowest one, and one is reported whenever an affected version has one. *)
Theorem match_range_spec version events :
  D version -> events_in events ->
  exists affected fixed, match_range version events compare = Ok (affected, fixed) /\
    affected = state_at version false (isort point_lt (points_of events)) /\
    (forall v, fixed = Some v -> affected = true /\ c version v < 0 /\
       (Some v, K_fixed) ∈ points_of events /\
       forall w, (Some w, K_fixed) ∈ points_of events -> c version w < 0 -> c v w <= 0) /\
    (fixed = None -> affected = true ->
       forall w, (Some w, K_fixed) ∈ points_of events -> 0 <= c version w).
Proof using Oc compare_c.
  intros Hd He. unfold match_range. rewrite sort_points_c by done. cbn [mbind res_bind].
  pose proof (isort_perm point_lt (points_of events)) as Hperm.
  destruct (walk_spec version false (isort point_lt (points_of events))) as (fixed & Hw & Hf).
  - done.
  - by rewrite Hperm.
  - rewrite Hperm. apply points_of_start.
  - apply isort_points_sorted.
  - eexists _, fixed. split; [exact Hw|]. split; [done|]. split.
    + intros v ->. destruct Hf as (Ht & (p & Hp & -> & Hv) & Hmin). split; [done|]. split; [done|].
      split; [by rewrite <-Hperm|]. intros w Hw' Hlt. apply (Hmin (Some w, K_fixed)); [by rewrite Hperm|done].
    + intros -> Ht w Hin. destruct (Z.le_gt_cases 0 (c version w)); [done|]. exfalso.
      apply (Hf Ht (Some w, K_fixed) w); [by rewrite Hperm|done].
Qed.
End Ranges.

(** ** Severity *)
Section Worst.
Context {U : Unicode}.

(** [pick_vector] keeps a vector whose score no later one exceeds; [f] measures
    the scores that occur. *)
Lemma pick_vector_spec {S} (score : str -> option S) (better : S -> S -> bool) (f : S -> Z)
    (P : S -> Prop) best_vector best_score vectors :
  (forall v s, score v = Some s -> P s) ->
  (forall s b, P s -> P b -> better s b = (f b <? f s)) ->
  match best_score with
  | Some b => P b /\ exists v, best_vector = Some v /\ score v = Some b
  | None => True
  end ->
  let r := pick_vector score better best_vector best_score vectors in
  (forall b, best_score = Some b -> exists v s, r = Some v /\ score v = Some s /\ f b <= f s) /\
  (forall v s, v ∈ vectors -> score v = Some s -> exists v' s', r = Some v' /\ score v' = Some s' /\ f s <= f s') /\
  (forall v, r = Some v -> v ∈ vectors \/ best_vector = Some v).
Proof.
  intros HP Hb. revert best_vector best_score.
  induction vectors as [|w vs IH]; intros bv bs Hinv; cbn [pick_vector].
  - split; [|split].
    + intros b ->. destruct Hinv as (_ & v & -> & Hv). exists v, b. done.
    + intros v s Hv. by apply not_elem_of_nil in Hv.
    + intros v Hv. by right.
  - destruct (score w) as [sw|] eqn:Ew.
    + pose proof (HP w sw Ew) as Pw.
      destruct (match bs with None => true | Some b => better sw b end) eqn:Eb.
      * destruct (IH (Some w) (Some sw)) as (H1 & H2 & H3); [by split; [|exists w]|].
        destruct (H1 sw eq_refl) as (v & s & Hr & Hs & Hle). split; [|split].
        -- intros b ->. exists v, s. split; [done|]. split; [done|]. destruct Hinv as [Pb _].
           rewrite (Hb sw b Pw Pb) in Eb. lia.
        -- intros v' s' [->|Hv']%elem_of_cons Hs'; [|by eapply H2].
           assert (s' = sw) as -> by congruence. by exists v, s.
        -- intros v' Hv'. destruct (H3 v' Hv') as [?|[= <-]]; left; [by right|by left].
      * destruct bs as [b|]; [|done]. destruct Hinv as (Pb & v0 & -> & Hv0).
        destruct (IH (Some v0) (Some b)) as (H1 & H2 & H3); [by split; [|exists v0]|].
        destruct (H1 b eq_refl) as (v & s & Hr & Hs & Hle). split; [|split].
        -- intros b' [= <-]. by exists v, s.
        -- intros v' s' [->|Hv']%elem_of_cons Hs'; [|by eapply H2].
           assert (s' = sw) as -> by congruence. exists v, s. split; [done|]. split; [done|].
           rewrite (Hb sw b Pw Pb) in Eb. lia.
        -- intros v' Hv'. destruct (H3 v' Hv') as [?|?]; [left; by right|by right].
    + destruct (IH (match bv with None => Some w | Some b => Some b end) bs) as (H1 & H2 & H3).
      { destruct bs as [b|]; [|done]. destruct Hinv as (Pb & v0 & -> & Hv0). split; [done|by exists v0]. }
      split; [exact H1|]. split.
      * intros v s [->|Hv]%elem_of_cons Hs; [congruence|by eapply H2].
      * intros v Hv. destruct (H3 v Hv) as [?|Hbv]; [left; by right|].
        destruct bv; [by right|]. injection Hbv as <-. left. by left.
Qed.

Lemma typed_vectors_nonempty prefix raw v : v ∈ typed_vectors prefix raw -> nonempty v = Some v.
Proof.
  unfold typed_vectors. intros (e & _ & He)%list_elem_of_omap. case_match; [|done].
  unfold nonempty in *. by destruct (rs_score e); [|injection He as <-].
Qed.

Lemma severity_from_score_mono j k : 0 <= j <= k -> k <= 100 ->
  severity_rank (severity_from_score (fl_lit j 10)) <= severity_rank (severity_from_score (fl_lit k 10)).
Proof.
  intros ??. rewrite !bands_exact by lia. unfold band. repeat case_match; simpl; lia.
Qed.

(** The severity of a record is at least each of its candidates. *)
Lemma severity_max r s :
  s ∈ omap (fun x => x)
      [severity_from_score <$> cvss_score r;
       (v ← rec_cvss_v4_vector r; _ ← nonempty v; severity_from_v4_vector v);
       word_severity (rec_severity_word r)] ->
  severity_rank s <= severity_rank (severity r).
Proof.
  unfold severity. destruct (omap _ _) as [|c cs]; [by intros ?%not_elem_of_nil|].
  intros Hs. destruct (max_by_spec severity_rank c cs) as [_ Hall].
  rewrite Forall_forall in Hall. by apply Hall.
Qed.

(** Severity is never understated: the severity of a parsed record is at
    least that of each of its CVSS v3 vectors, of each of its CVSS v4 vectors
    and of its severity word, and MEDIUM when it carries none of them. *)
Theorem severity_never_understated raw :
  let worst := severity_rank (severity (from_dict raw)) in
  (forall v s, v ∈ typed_vectors (u "CVSS_V3") raw -> base_score_from_vector v = Some s ->
     severity_rank (severity_from_score s) <= worst) /\
  (forall v s, v ∈ typed_vectors (u "CVSS_V4") raw -> severity_from_v4_vector v = Some s ->
     severity_rank s <= worst) /\
  (forall s, word_severity (raw_severity_word raw) = Some s -> severity_rank s <= worst) /\
  (typed_vectors (u "CVSS_V3") raw = [] -> typed_vectors (u "CVSS_V4") raw = [] ->
   word_severity (raw_severity_word raw) = None -> severity (from_dict raw) = MEDIUM).
Proof.
  cbv zeta. split; [|split; [|split]].
  - intros v s Hv Hs.
    destruct (pick_vector_spec base_score_from_vector (fun s b => fl_ltb b s) tenths
      (fun s => exists k, 0 <= k <= 100 /\ s = fl_lit k 10) None None (typed_vectors (u "CVSS_V3") raw))
      as (_ & Hbest & Hin).
    + intros v' s' H'. by eapply base_score_tenths.
    + intros s1 b (j & Hj & ->) (k & Hk & ->). by rewrite tenths_ltb, !tenths_lit by done.
    + done.
    + destruct (Hbest v s Hv Hs) as (v' & s' & Hr & Hs' & Hle).
      destruct (base_score_tenths _ _ Hs) as (j & Hj & ->), (base_score_tenths _ _ Hs') as (k & Hk & ->).
      rewrite !tenths_lit in Hle by done.
      etransitivity; [apply (severity_from_score_mono j k); lia|]. apply severity_max.
      apply list_elem_of_omap. exists (severity_from_score <$> cvss_score (from_dict raw)).
      split; [by left|]. unfold cvss_score, from_dict. simpl. unfold raw_cvss_vector. rewrite Hr. simpl.
      destruct (Hin v' Hr) as [Hv'|]; [|done].
      rewrite (typed_vectors_nonempty _ _ _ Hv'). simpl. by rewrite Hs'.
  - intros v s Hv Hs.
    destruct (pick_vector_spec (fun v => severity_rank <$> severity_from_v4_vector v) (fun s b => b <? s)
      (fun z => z) (fun _ => True) None None (typed_vectors (u "CVSS_V4") raw))
      as (_ & Hbest & Hin); [done|done|done|].
    destruct (Hbest v (severity_rank s) Hv) as (v' & s' & Hr & Hs' & Hle); [by rewrite Hs|].
    apply fmap_Some in Hs' as (sev & Hsev & ->).
    etransitivity; [exact Hle|]. apply severity_max. apply list_elem_of_omap.
    exists (v ← rec_cvss_v4_vector (from_dict raw); _ ← nonempty v; severity_from_v4_vector v).
    split; [right; by left|]. unfold from_dict. simpl. unfold raw_cvss_v4_vector. rewrite Hr. simpl.
    destruct (Hin v' Hr) as [Hv'|]; [|done]. rewrite (typed_vectors_nonempty _ _ _ Hv'). exact Hsev.
  - intros s Hs. apply severity_max, list_elem_of_omap.
    exists (word_severity (raw_severity_word raw)). split; [|done]. right. right. by left.
  - intros H3 H4 Hw. unfold severity, cvss_score, from_dict. simpl.
    unfold raw_cvss_vector, raw_cvss_v4_vector. rewrite H3, H4, Hw. done.
Qed.
End Worst.

(** ** At concrete records *)
Section Witnesses.

Definition ev (i f l : option String.string) : osv_event := mkOsvEvent (u <$> i) (u <$> f) (u <$> l).

Definition two_intervals : list osv_event :=
  [ev (Some "3.0") None None; ev (Some "0") None None; ev None (Some "2.0-rc.1") None; ev None (Some "4.1") None].

Definition semver_rank (s : str) : list Z * (Z * list (Z * (Z * str))) :=
  match semver_key s with Ok k => k | Raise _ => ([], (0, [])) end.

Lemma match_range_spec_witness :
  match_range (u "1.9") two_intervals semver_compare = Ok (true, Some (u "2.0-rc.1")) /\
  match_range (u "2.0") two_intervals semver_compare = Ok (false, None) /\
  exists affected fixed, match_range (u "3.5") two_intervals semver_compare = Ok (affected, fixed).
Proof.
  split; [vm_compute; reflexivity|]. split; [vm_compute; reflexivity|].
  destruct (match_range_spec semver_compare (cmp_on semver_rank cmp_semver)
    (fun s => match semver_key s with Ok _ => True | Raise _ => False end)) with
    (version := u "3.5") (events := two_intervals) as (b & f & H & _).
  - intros x y Hx Hy. unfold cmp_on, semver_rank.
    destruct (semver_key x) eqn:Ex; [|destruct Hx]. destruct (semver_key y) eqn:Ey; [|destruct Hy].
    apply semver_compare_keys; assumption.
  - vm_compute. exact I.
  - unfold events_in. vm_compute. repeat constructor.
  - exists b, f. exact H.
Defined.

Definition labelled : raw_record :=
  mkRaw (u "GHSA-1") [u "CVE-2024-1"] [] [] (u "LOW") []
    [mkRawSeverity (u "CVSS_V3") (vector_of (metrics8 "LHHRULLL")) [];
     mkRawSeverity (u "CVSS_V3") (vector_of (metrics8 "NLNNUHHH")) []] [].

Lemma severity_never_understated_witness :
  severity (from_dict labelled) = CRITICAL /\
  severity_rank LOW <= severity_rank (severity (from_dict labelled)).
Proof.
  split; [vm_compute; reflexivity|].
  apply (severity_never_understated labelled). vm_compute. reflexivity.
Defined.
End Witnesses.
