(* ===== verification/Detect.v ===== *)
(** * Vulnerability detection ([analyzer/src/analyzer/detect/engine.py], [combine.py], [limits.py])

    Packages joined with advisories, under the finding limits.  The advisory
    store is the function [lookup]; the size of a finding's JSON is Pydantic's
    and the parameter [finding_bytes].  The limit state is always supplied. *)

From stdpp Require Import base list strings numbers.
From Stdlib Require Import ZArith Lia.
From S2P Require Import Prelude PyText PyFloat Compare DpkgVersion Versioning Severity Cvss Osv.

#[local] Open Scope Z_scope.

(** ** Data *)

Record package := mkPackage {
  pk_asset_id : str;
  pk_parent_asset_id : option str;
  pk_name : str;
  pk_version : str;
  pk_ecosystem : option str;
}.

(** The [Asset] union, as far as detection looks at it. *)
Inductive asset := APackage (p : package) | AOther.

(** [Vulnerability] *)
Record vulnerability := mkVuln {
  vu_id : str;
  vu_severity : Severity;
  vu_cvss_score : option float;
  vu_affected_asset_id : str;
  vu_parent_asset_id : option str;
  vu_source : str;
  vu_evidence : option str;
  vu_references : list str;
}.

(** [FindingLimitState] *)
Record limit_state := mkLimit {
  ls_truncated : bool;
  ls_reason : option str;
  ls_incomplete : bool;
  ls_incomplete_reason : option str;
}.

#[global] Instance eta_limit : Eta limit_state := fun l =>
  mkLimit (ls_truncated l) (ls_reason l) (ls_incomplete l) (ls_incomplete_reason l).

Definition fresh_limit : limit_state := mkLimit false None false None.

Definition max_findings_default : Z := 4096.
Definition max_finding_bytes_default : Z := 3 * 1024 * 1024.

(** [mark] and [mark_incomplete] *)
Definition mark (reason : str) (l : limit_state) : limit_state :=
  l <| ls_truncated := true |>
    <| ls_reason := match ls_reason l with None => Some reason | Some r => Some r end |>.
Definition mark_incomplete (reason : str) (l : limit_state) : limit_state :=
  l <| ls_incomplete := true |>
    <| ls_incomplete_reason := match ls_incomplete_reason l with None => Some reason | Some r => Some r end |>.

Definition max_wire_string : nat := 4096.
Definition max_correlation_identifier : nat := 256.
Definition max_nested_items : nat := 256.

Section Engine.
Context {U : Unicode} `{Packaging}.
Context (finding_bytes : vulnerability -> Z) (lookup : str -> str -> list osv_record).
Context (max_findings max_bytes : Z).

(** Constructing a [Vulnerability]: Pydantic strips the strings and checks their
    lengths. *)
Definition validate_vulnerability (v : vulnerability) : res vulnerability :=
  let v := mkVuln (trim (vu_id v)) (vu_severity v) (vu_cvss_score v) (trim (vu_affected_asset_id v))
             (trim <$> vu_parent_asset_id v) (trim (vu_source v)) (trim <$> vu_evidence v)
             (trim <$> vu_references v) in
  let short (n : nat) (s : str) := (length s <=? n)%nat in
  if short max_correlation_identifier (vu_id v)
     && match vu_cvss_score v with Some s => fl_leb (fl_of_Z 0) s && fl_leb s (fl_of_Z 10) | None => true end
     && short max_wire_string (vu_affected_asset_id v)
     && match vu_parent_asset_id v with Some s => short max_wire_string s | None => true end
     && short max_correlation_identifier (vu_source v)
     && match vu_evidence v with Some s => short max_wire_string s | None => true end
     && (length (vu_references v) <=? max_nested_items)%nat
     && forallb (short max_wire_string) (vu_references v)
  then Ok v else Raise ValueError.

(** [_to_vulnerability] *)
Definition to_vulnerability (p : package) (r : osv_record) (vuln_id : str) (fixed : option str)
    : res vulnerability :=
  let evidence := pk_name p ++ u " " ++ pk_version p ++ u " affected by " ++ vuln_id in
  let evidence := match fixed with
                  | Some ((_ :: _) as f) => evidence ++ u " (fixed in " ++ f ++ u ")"
                  | _ => evidence
                  end in
  let osv_url := u "https://osv.dev/vulnerability/" ++ rec_id r in
  let references := if bool_decide (osv_url ∈ rec_references r) then rec_references r
                    else osv_url :: rec_references r in
  validate_vulnerability
    (mkVuln vuln_id (severity r) (cvss_score r) (pk_asset_id p) (pk_parent_asset_id p) (u "osv")
       (Some evidence) references).

(** What the loops thread: findings so far, keys seen, bytes, limit state. *)
Record detection := mkDetection {
  dt_findings : list vulnerability;
  dt_seen : list (str * str);
  dt_bytes : Z;
  dt_limit : limit_state;
}.

#[export] Instance eta_detection : Eta detection := fun d =>
  mkDetection (dt_findings d) (dt_seen d) (dt_bytes d) (dt_limit d).

(** How a round of a loop ends: on to the next, [return findings], or an
    exception caught by the record's [except]. *)
Inductive outcome := Next (d : detection) | Return (d : detection) | Failed (d : detection).

(** The comparator the engine passes; the [None] of a runaway loop never occurs
    ([comparators_terminate]). *)
Definition run_comparator (c : Comparator) (a b : str) : res Z :=
  r ← compare c a b;
  match r with Some x => Ok x | None => Raise RuntimeError end.

(** The loop over the affected entries of one record. *)
Fixpoint match_entries (p : package) (r : osv_record) (cmp : str -> str -> res Z)
    (entries : list osv_entry) (d : detection) : outcome :=
  match entries with
  | [] => Next d
  | e :: es =>
      match is_version_affected (pk_version p) e cmp (Some semver_compare) with
      | Raise _ => Failed d
      | Ok (false, _) => match_entries p r cmp es d
      | Ok (true, fixed) =>
          let vuln_id := primary_id r in
          let key := (pk_asset_id p, vuln_id) in
          if bool_decide (key ∈ dt_seen d) then match_entries p r cmp es d
          else
            let d := d <| dt_seen := key :: dt_seen d |> in
            match to_vulnerability p r vuln_id fixed with
            | Raise _ => Failed d
            | Ok finding =>
                let full := max_findings <=? Z.of_nat (length (dt_findings d)) in
                if full || (max_bytes <? dt_bytes d + finding_bytes finding) then
                  Return (d <| dt_limit := mark (if full then u "osv_max_findings" else u "osv_max_bytes")
                                                (dt_limit d) |>)
                else Next (d <| dt_findings := dt_findings d ++ [finding] |>
                             <| dt_bytes := dt_bytes d + finding_bytes finding |>)
            end
      end
  end.

(** The loop over the records of one package. *)
Fixpoint match_records (p : package) (ecosystem : str) (cmp : str -> str -> res Z)
    (records : list osv_record) (d : detection) : outcome :=
  match records with
  | [] => Next d
  | r :: rs =>
      match match_entries p r cmp (affected_entries r ecosystem (pk_name p)) d with
      | Next d => match_records p ecosystem cmp rs d
      | Return d => Return d
      | Failed d =>
          match_records p ecosystem cmp rs
            (d <| dt_limit := mark_incomplete (u "osv_record_comparison_failed") (dt_limit d) |>)
      end
  end.

(** [asset.ecosystem or ecosystem]; [None] when neither is a non-empty string. *)
Definition package_ecosystem (p : package) (default_ecosystem : option str) : option str :=
  match e ← pk_ecosystem p; nonempty e with
  | Some e => Some e
  | None => e ← default_ecosystem; nonempty e
  end.

(** The loop over the assets. *)
Fixpoint match_assets (ecosystem : option str) (assets : list asset) (d : detection) : detection :=
  match assets with
  | [] => d
  | AOther :: rest => match_assets ecosystem rest d
  | APackage p :: rest =>
      match package_ecosystem p ecosystem with
      | None => match_assets ecosystem rest d
      | Some eco =>
          match match_records p eco (run_comparator (comparator_for eco)) (lookup eco (pk_name p)) d with
          | Next d => match_assets ecosystem rest d
          | Return d | Failed d => d
          end
      end
  end.

Definition no_detection (l : limit_state) : detection := mkDetection [] [] 0 l.

(** [detect_report] *)
Definition detect_report (ecosystem : option str) (assets : list asset) (l : limit_state)
    : list vulnerability * limit_state :=
  let d := match_assets ecosystem assets (no_detection l) in
  (dt_findings d, dt_limit d).

(** ** Merging ([combine.py]) *)

Definition scanner_sources : list str :=
  [u "kcatta-malware"; u "posture"; u "secret"; u "clamav"; u "microsoft-defender";
   u "microsoft-defender-event"].

(** [scanner_findings] *)
Fixpoint scanner_loop (vs : list vulnerability) (acc : list vulnerability) (consumed : Z) (l : limit_state)
    : list vulnerability * limit_state :=
  match vs with
  | [] => (acc, l)
  | v :: vs' =>
      if negb (bool_decide (vu_source v ∈ scanner_sources))
      then scanner_loop vs' acc consumed (mark_incomplete (u "untrusted_scanner_source") l)
      else
        let full := max_findings <=? Z.of_nat (length acc) in
        if full || (max_bytes <? consumed + finding_bytes v)
        then (acc, mark (if full then u "scanner_max_findings" else u "scanner_max_bytes") l)
        else scanner_loop vs' (acc ++ [v]) (consumed + finding_bytes v) l
  end.

Definition scanner_findings (vs : list vulnerability) (l : limit_state) := scanner_loop vs [] 0 l.

(** [combine_findings] *)
Fixpoint combine_loop (vs : list vulnerability) (acc : list vulnerability) (consumed : Z) (l : limit_state)
    : list vulnerability * limit_state :=
  match vs with
  | [] => (acc, l)
  | v :: vs' =>
      let full := max_findings <=? Z.of_nat (length acc) in
      if full || (max_bytes <? consumed + finding_bytes v)
      then (acc, mark (if full then u "combined_max_findings" else u "combined_max_bytes") l)
      else combine_loop vs' (acc ++ [v]) (consumed + finding_bytes v) l
  end.

Definition combine_findings (osv scanner : list vulnerability) (l : limit_state) :=
  combine_loop (osv ++ scanner) [] 0 l.
End Engine.

(** ** The host's ecosystem ([ecosystem_for_os]) *)
Section Os.
Context {U : Unicode}.

Definition ascii_digit_c (c : N) : bool := isascii_c c && isdigit_c c.
Definition word_c (c : N) : bool := isalnum_c c || (c =? 95)%N.

(** [not previous or not (previous.isalnum() or previous == "_")] *)
Definition not_word (c : option N) : bool := match c with Some c => negb (word_c c) | None => true end.

(** [_first_standalone_ascii_number]: [prev] is the character before the run
    being read, [run] the run itself (latest first), if one is open. *)
Fixpoint standalone_number (before : option N) (run : option (option N * str)) (text : str) : option str :=
  match text with
  | [] =>
      match run with
      | Some (prev, digits) => if not_word prev then Some (rev digits) else None
      | None => None
      end
  | c :: text' =>
      if ascii_digit_c c then
        standalone_number (Some c)
          (match run with
           | None => Some (before, [c])
           | Some (prev, digits) => Some (prev, c :: digits)
           end) text'
      else
        match run with
        | None => standalone_number (Some c) None text'
        | Some (prev, digits) =>
            if not_word prev && negb (word_c c) then Some (rev digits)
            else standalone_number (Some c) None text'
        end
  end.

Definition first_standalone_ascii_number (text : str) : option str := standalone_number None None text.

(** [_first_dotted_ascii_version]; the fuel is the text's length plus one. *)
Fixpoint dotted_version (fuel max_digits : nat) (text : str) : option str :=
  match fuel, text with
  | O, _ | _, [] => None
  | S f, c :: text' =>
      if negb (ascii_digit_c c) then dotted_version f max_digits text'
      else
        let major := take_while ascii_digit_c text in
        match drop_while ascii_digit_c text with
        | d :: rest =>
            if (d =? 46)%N then
              let minor := take_while ascii_digit_c rest in
              let after := drop_while ascii_digit_c rest in
              if str_eqb minor [] then dotted_version f max_digits rest
              else if (length major <=? max_digits)%nat && (length minor <=? max_digits)%nat
                   then Some (major ++ [46%N] ++ minor)
                   else dotted_version f max_digits after
            else dotted_version f max_digits (d :: rest)
        | [] => None
        end
  end.

Definition first_dotted_ascii_version (text : str) : option str :=
  dotted_version (S (length text)) 4 text.

(** [sub in text] *)
Definition contains (sub text : str) : bool :=
  match partition sub text with Some _ => true | None => false end.

(** [re.search(r"\b(1[01]|8\.1|8)\b", text)] *)
Fixpoint windows_release (before : option N) (text : str) : option str :=
  let try (p : str) : option str :=
    match after_prefix p text with
    | Some rest => if not_word before && not_word (hd_error rest) then Some p else None
    | None => None
    end in
  match try (u "10"), try (u "11"), try (u "8.1"), try (u "8") with
  | Some p, _, _, _ | None, Some p, _, _ | None, None, Some p, _ | None, None, None, Some p => Some p
  | None, None, None, None =>
      match text with
      | [] => None
      | c :: text' => windows_release (Some c) text'
      end
  end.

Definition ecosystem_for_os (os : str) : option str :=
  let text := strip os in
  let lowered := lower text in
  match (if contains (u "ubuntu") lowered then first_dotted_ascii_version text else None) with
  | Some v => Some (u "Ubuntu:" ++ v)
  | None =>
      match (if contains (u "debian") lowered then first_standalone_ascii_number text else None) with
      | Some v => Some (u "Debian:" ++ v)
      | None =>
          if contains (u "windows") lowered then
            Some (u "Windows:" ++ default (u "10") (windows_release None text))
          else None
      end
  end.

(** [resolve_ecosystem] *)
Definition resolve_ecosystem (os : str) (pinned : option str) : option str :=
  match p ← pinned; nonempty p with Some p => Some p | None => ecosystem_for_os os end.
End Os.
