(* ===== verification/DetectProps.v ===== *)
(** * What detection promises

    The findings stay within the limits, each one is justified by a package, an
    advisory and an affected version, and a result that is neither truncated
    nor incomplete misses none. *)

From stdpp Require Import base list strings numbers.
From Stdlib Require Import ZArith Lia.
From S2P Require Import Prelude PyText PyFloat Compare DpkgVersion Versioning Severity Cvss Osv Detect.

#[local] Open Scope Z_scope.

Section DetectProps.
Context {U : Unicode} `{Packaging}.
Context (finding_bytes : vulnerability -> Z) (lookup : str -> str -> list osv_record).
Context (max_findings max_bytes : Z) (ecosystem : option str).

Abbreviation match_entries := (Detect.match_entries finding_bytes max_findings max_bytes).
Abbreviation match_records := (Detect.match_records finding_bytes max_findings max_bytes).
Abbreviation match_assets := (Detect.match_assets finding_bytes lookup max_findings max_bytes).

Definition end_of (o : outcome) : detection :=
  match o with Next d | Return d | Failed d => d end.

(** ** A predicate kept by every round *)

(** The findings a record may contribute for a package. *)
Definition justified (p : package) (eco : str) (r : osv_record) (f : vulnerability) : Prop :=
  exists e fixed, e ∈ affected_entries r eco (pk_name p) /\
    is_version_affected (pk_version p) e (run_comparator (comparator_for eco)) (Some semver_compare)
      = Ok (true, fixed) /\
    to_vulnerability p r (primary_id r) fixed = Ok f.

Definition sum_bytes (fs : list vulnerability) : Z := foldr (fun f n => finding_bytes f + n) 0 fs.

Lemma sum_bytes_app fs gs : sum_bytes (fs ++ gs) = sum_bytes fs + sum_bytes gs.
Proof. induction fs as [|f fs IH]; simpl; [done|]. rewrite IH. lia. Qed.

(** The limits, and the flags' meaning for completeness: a key that was seen has
    its finding unless the record failed or the output was cut. *)
Definition flagged (l : limit_state) : Prop := ls_truncated l = true \/ ls_incomplete l = true.

Definition has_finding (d : detection) (key : str * str) : Prop :=
  exists f, f ∈ dt_findings d /\ vu_affected_asset_id f = trim key.1 /\ vu_id f = trim key.2.

Definition within (d : detection) : Prop :=
  Z.of_nat (length (dt_findings d)) <= Z.max 0 max_findings /\
  dt_bytes d = sum_bytes (dt_findings d) /\ dt_bytes d <= Z.max 0 max_bytes.

Definition seen_found (d : detection) : Prop :=
  flagged (dt_limit d) \/ Forall (has_finding d) (dt_seen d).

(** [d'] comes after [d]: findings, keys and flags only grow. *)
Definition later (d d' : detection) : Prop :=
  (exists fs, dt_findings d' = dt_findings d ++ fs) /\
  (forall k, k ∈ dt_seen d -> k ∈ dt_seen d') /\
  (flagged (dt_limit d) -> flagged (dt_limit d')).

#[export] Instance later_preorder : PreOrder later.
Proof.
  split.
  - intros d. split; [exists []; by rewrite app_nil_r|done].
  - intros a b c ((fs & Hf) & Hs & Hl) ((gs & Hg) & Hs' & Hl'). split; [|auto].
    exists (fs ++ gs). by rewrite Hg, Hf, app_assoc.
Qed.

Lemma flagged_mark s l : flagged (mark s l).
Proof. by left. Qed.
Lemma flagged_incomplete s l : flagged (mark_incomplete s l).
Proof. by right. Qed.
#[local] Hint Resolve flagged_mark flagged_incomplete : core.

Lemma has_finding_later d d' k : later d d' -> has_finding d k -> has_finding d' k.
Proof.
  intros ((fs & Hf) & _) (f & Hin & ?). exists f. rewrite Hf. split; [|done]. apply elem_of_app. by left.
Qed.

Lemma to_vulnerability_ids p r id fixed f :
  to_vulnerability p r id fixed = Ok f ->
  vu_affected_asset_id f = trim (pk_asset_id p) /\ vu_id f = trim id.
Proof.
  unfold to_vulnerability, validate_vulnerability. cbv zeta. destruct (_ && _); [|done].
  by intros [= <-].
Qed.

(** One record: what its loop leaves, however it ends. *)
Lemma match_entries_spec p r eco entries d :
  (forall e, e ∈ entries -> e ∈ affected_entries r eco (pk_name p)) ->
  within d -> seen_found d ->
  let o := match_entries p r (run_comparator (comparator_for eco)) entries d in
  let d' := end_of o in
  later d d' /\ within d' /\
  (forall f, f ∈ dt_findings d' -> f ∈ dt_findings d \/ justified p eco r f) /\
  match o with
  | Next d' => seen_found d' /\
      forall e fixed, e ∈ entries ->
        is_version_affected (pk_version p) e (run_comparator (comparator_for eco)) (Some semver_compare)
          = Ok (true, fixed) -> (pk_asset_id p, primary_id r) ∈ dt_seen d'
  | Return d' => flagged (dt_limit d')
  | Failed _ => True
  end.
Proof.
  revert d. induction entries as [|e es IH]; intros d Hes Hw Hs; cbn [Detect.match_entries].
  { split; [done|]. split; [done|]. split; [by left|]. split; [done|].
    intros e fixed He. by apply not_elem_of_nil in He. }
  assert (Hes' : forall e', e' ∈ es -> e' ∈ affected_entries r eco (pk_name p)).
  { intros e' He'. apply Hes. by right. }
  destruct (is_version_affected _ e _ _) as [[[] fixed]|err] eqn:Ea.
  - destruct (bool_decide _) eqn:Ek.
    + apply bool_decide_eq_true in Ek. destruct (IH d Hes' Hw Hs) as (Hl & Hw' & Hf & Ho).
      split; [done|]. split; [done|]. split; [done|].
      destruct (match_entries p r _ es d) as [d'|d'|d'] eqn:Eo; [|done..].
      destruct Ho as [Hsf Hall]. split; [done|]. intros e' fx [->|He']%elem_of_cons Hv.
      * by apply Hl.
      * by eapply Hall.
    + clear IH. set (key := (pk_asset_id p, primary_id r)) in *.
      destruct (to_vulnerability p r (primary_id r) fixed) as [f|err] eqn:Ef; simpl.
      2:{ split; [split; [exists []; by rewrite app_nil_r|split; [by right|done]]|].
          split; [done|]. split; [by left|done]. }
      destruct ((max_findings <=? Z.of_nat (length (dt_findings d))) || (max_bytes <? dt_bytes d + finding_bytes f))
        eqn:Efull; simpl.
      * split; [split; [exists []; by rewrite app_nil_r|split; [by right|intros _; apply flagged_mark]]|].
        split; [done|]. split; [by left|]. apply flagged_mark.
      * apply orb_false_iff in Efull as [E1 E2].
        match goal with |- later d ?x /\ _ => set (d' := x) end.
        assert (Hlater : later d d') by (split; [by exists [f]|split; [by right|done]]).
        assert (Hkey : has_finding d' key).
        { exists f. split; [simpl; apply elem_of_app; right; by left|]. by apply (to_vulnerability_ids p r _ fixed). }
        split; [exact Hlater|]. split.
        { destruct Hw as (Hn & Hb & Hm). unfold within. simpl. rewrite length_app, sum_bytes_app. simpl. lia. }
        split.
        { intros g [Hg|Hg]%elem_of_app; [by left|right]. apply list_elem_of_singleton in Hg as ->.
          exists e, fixed. split; [apply Hes; by left|done]. }
        split.
        { destruct Hs as [?|Hs]; [by left|right]. apply List.Forall_cons; [exact Hkey|].
          rewrite Forall_forall in Hs. apply Forall_forall. intros k Hk.
          apply (has_finding_later d); [exact Hlater|]. by apply Hs. }
        intros e' fx _ _. by left.
  - destruct (IH d Hes' Hw Hs) as (Hl & Hw' & Hf & Ho). split; [done|]. split; [done|]. split; [done|].
    destruct (match_entries p r _ es d) as [d'|d'|d'] eqn:Eo; [|done..].
    destruct Ho as [Hsf Hall]. split; [done|]. intros e' fx [->|He']%elem_of_cons Hv; [congruence|].
    by eapply Hall.
  - split; [done|]. split; [done|]. split; [by left|done].
Qed.

(** An advisory that affects a package. *)
Definition affects (p : package) (eco : str) (r : osv_record) : Prop :=
  exists e fixed, e ∈ affected_entries r eco (pk_name p) /\
    is_version_affected (pk_version p) e (run_comparator (comparator_for eco)) (Some semver_compare)
      = Ok (true, fixed).

Lemma flagged_seen_found d : flagged (dt_limit d) -> seen_found d.
Proof. by left. Qed.

Lemma match_records_spec p eco records d :
  within d -> seen_found d ->
  let o := match_records p eco (run_comparator (comparator_for eco)) records d in
  let d' := end_of o in
  later d d' /\ within d' /\ seen_found d' /\
  (forall f, f ∈ dt_findings d' -> f ∈ dt_findings d \/ exists r, r ∈ records /\ justified p eco r f) /\
  (flagged (dt_limit d') \/ (o = Next d' /\
     forall r, r ∈ records -> affects p eco r -> (pk_asset_id p, primary_id r) ∈ dt_seen d')).
Proof.
  revert d. induction records as [|r rs IH]; intros d Hw Hs; cbn [Detect.match_records].
  { split; [done|]. split; [done|]. split; [done|]. split; [by left|]. right. split; [done|].
    intros r Hr. by apply not_elem_of_nil in Hr. }
  destruct (match_entries_spec p r eco (affected_entries r eco (pk_name p)) d (fun _ He => He) Hw Hs)
    as (Hl & Hw' & Hf & Ho).
  assert (Hrest : forall d1, later d d1 -> within d1 -> seen_found d1 ->
    (forall f, f ∈ dt_findings d1 -> f ∈ dt_findings d \/ justified p eco r f) ->
    (flagged (dt_limit d1) \/ (affects p eco r -> (pk_asset_id p, primary_id r) ∈ dt_seen d1)) ->
    let o := match_records p eco (run_comparator (comparator_for eco)) rs d1 in
    let d' := end_of o in
    later d d' /\ within d' /\ seen_found d' /\
    (forall f, f ∈ dt_findings d' -> f ∈ dt_findings d \/ exists r', r' ∈ r :: rs /\ justified p eco r' f) /\
    (flagged (dt_limit d') \/ (o = Next d' /\
       forall r', r' ∈ r :: rs -> affects p eco r' -> (pk_asset_id p, primary_id r') ∈ dt_seen d'))).
  { intros d1 Hl1 Hw1 Hs1 Hf1 Hk1. destruct (IH d1 Hw1 Hs1) as (Hl2 & Hw2 & Hs2 & Hf2 & Hk2).
    split; [by transitivity d1|]. split; [done|]. split; [done|]. split.
    - intros f [Hin|(r' & Hr' & ?)]%Hf2.
      + destruct (Hf1 f Hin) as [?|?]; [by left|right]. exists r. split; [by left|done].
      + right. exists r'. split; [by right|done].
    - destruct Hk1 as [Hfl|Hk1]; [left; by apply Hl2|]. destruct Hk2 as [?|[Ho2 Hk2]]; [by left|right].
      split; [exact Ho2|]. intros r' [->|Hr']%elem_of_cons Ha; [by apply Hl2, Hk1|by apply Hk2]. }
  destruct (match_entries p r _ _ d) as [d1|d1|d1]; simpl in Hl, Hw', Hf.
  - destruct Ho as [Hs1 Hk]. apply Hrest; [done..|]. right. intros (e & fx & He & Ha). by eapply Hk.
  - split; [done|]. split; [done|]. split; [by left|]. split.
    + intros f [?|?]%Hf; [by left|right]. exists r. split; [by left|done].
    + by left.
  - apply Hrest.
    + destruct Hl as (? & ? & ?). split; [done|]. split; [done|]. intros _. apply flagged_incomplete.
    + done.
    + left. apply flagged_incomplete.
    + done.
    + left. apply flagged_incomplete.
Qed.

Lemma match_assets_spec assets d :
  within d -> seen_found d ->
  let d' := match_assets ecosystem assets d in
  later d d' /\ within d' /\ seen_found d' /\
  (forall f, f ∈ dt_findings d' -> f ∈ dt_findings d \/
     exists p eco r, APackage p ∈ assets /\ package_ecosystem p ecosystem = Some eco /\
       r ∈ lookup eco (pk_name p) /\ justified p eco r f) /\
  (flagged (dt_limit d') \/
     forall p eco r, APackage p ∈ assets -> package_ecosystem p ecosystem = Some eco ->
       r ∈ lookup eco (pk_name p) -> affects p eco r -> (pk_asset_id p, primary_id r) ∈ dt_seen d').
Proof.
  revert d. induction assets as [|a rest IH]; intros d Hw Hs; cbn [Detect.match_assets].
  { split; [done|]. split; [done|]. split; [done|]. split; [by left|]. right.
    intros p eco r Hp. by apply not_elem_of_nil in Hp. }
  destruct a as [p|].
  2:{ destruct (IH d Hw Hs) as (Hl & Hw' & Hs' & Hf & Hk). split; [done|]. split; [done|]. split; [done|]. split.
      - intros f [?|(q & eco & r & ? & ?)]%Hf; [by left|right]. exists q, eco, r. split; [by right|done].
      - destruct Hk as [?|Hk]; [by left|right]. intros q eco r [?|?]%elem_of_cons; [done|by apply Hk]. }
  destruct (package_ecosystem p ecosystem) as [eco|] eqn:Ee.
  2:{ destruct (IH d Hw Hs) as (Hl & Hw' & Hs' & Hf & Hk). split; [done|]. split; [done|]. split; [done|]. split.
      - intros f [?|(q & eco & r & ? & ?)]%Hf; [by left|right]. exists q, eco, r. split; [by right|done].
      - destruct Hk as [?|Hk]; [by left|right].
        intros q eco r [[= ->]|?]%elem_of_cons He; [congruence|by apply Hk]. }
  destruct (match_records_spec p eco (lookup eco (pk_name p)) d Hw Hs) as (Hl1 & Hw1 & Hs1 & Hf1 & Hk1).
  assert (Hhere : forall d1, (forall f, f ∈ dt_findings d1 -> f ∈ dt_findings d \/
                               exists r, r ∈ lookup eco (pk_name p) /\ justified p eco r f) ->
    forall f, f ∈ dt_findings d1 -> f ∈ dt_findings d \/
      exists q eco' r, APackage q ∈ APackage p :: rest /\ package_ecosystem q ecosystem = Some eco' /\
        r ∈ lookup eco' (pk_name q) /\ justified q eco' r f).
  { intros d1 Hd1 f [?|(r & ? & ?)]%Hd1; [by left|right]. exists p, eco, r. split; [by left|done]. }
  destruct (match_records p eco _ _ d) as [d1|d1|d1]; simpl in Hl1, Hw1, Hs1, Hf1, Hk1.
  - destruct (IH d1 Hw1 Hs1) as (Hl & Hw' & Hs' & Hf & Hk).
    split; [by transitivity d1|]. split; [done|]. split; [done|]. split.
    + intros f [Hin|(q & eco' & r & ? & ?)]%Hf; [by apply (Hhere d1)|].
      right. exists q, eco', r. split; [by right|done].
    + destruct Hk1 as [?|[_ Hk1]]; [left; by apply Hl|]. destruct Hk as [?|Hk]; [by left|right].
      intros q eco' r [[= ->]|?]%elem_of_cons He Hr Ha; [|by eapply Hk].
      assert (eco' = eco) as -> by congruence. by apply Hl, Hk1.
  - split; [done|]. split; [done|]. split; [done|]. split; [by apply Hhere|]. left.
    by destruct Hk1 as [?|[? _]].
  - split; [done|]. split; [done|]. split; [done|]. split; [by apply Hhere|]. left.
    by destruct Hk1 as [?|[? _]].
Qed.

Lemma no_detection_ok l : within (no_detection l) /\ seen_found (no_detection l).
Proof. split; [unfold within; simpl; lia|right; constructor]. Qed.

(** Whatever the report and the advisories, detection returns at most
    [max_findings] findings of at most [max_bytes] in total, and every one of
    them comes from a package of the report, an advisory looked up under the
    package's ecosystem and name, and an entry that affects its version. *)
Theorem detect_report_sound assets l :
  let '(findings, l') := detect_report finding_bytes lookup max_findings max_bytes ecosystem assets l in
  Z.of_nat (length findings) <= Z.max 0 max_findings /\
  sum_bytes findings <= Z.max 0 max_bytes /\
  forall f, f ∈ findings -> exists p eco r,
    APackage p ∈ assets /\ package_ecosystem p ecosystem = Some eco /\
    r ∈ lookup eco (pk_name p) /\ justified p eco r f.
Proof.
  unfold detect_report. destruct (no_detection_ok l) as [Hw Hs].
  destruct (match_assets_spec assets (no_detection l) Hw Hs) as (_ & (Hn & Hb & Hm) & _ & Hf & _).
  split; [done|]. split; [by rewrite <-Hb|]. intros f [Hin|?]%Hf; [by apply not_elem_of_nil in Hin|done].
Qed.

(** A result that is neither truncated nor incomplete misses nothing: each
    package with an ecosystem and each advisory that affects its version has a
    finding with the package's asset id and the advisory's primary id. *)
Theorem detect_report_complete assets findings l' :
  detect_report finding_bytes lookup max_findings max_bytes ecosystem assets fresh_limit = (findings, l') ->
  ls_truncated l' = false -> ls_incomplete l' = false ->
  forall p eco r, APackage p ∈ assets -> package_ecosystem p ecosystem = Some eco ->
    r ∈ lookup eco (pk_name p) -> affects p eco r ->
    exists f, f ∈ findings /\ vu_affected_asset_id f = trim (pk_asset_id p) /\
              vu_id f = trim (primary_id r).
Proof.
  unfold detect_report. intros [= <- <-] Ht Hi p eco r Hp He Hr Ha.
  destruct (no_detection_ok fresh_limit) as [Hw Hs].
  destruct (match_assets_spec assets (no_detection fresh_limit) Hw Hs) as (_ & _ & Hsf & _ & Hk).
  assert (Hno : ~ flagged (dt_limit (match_assets ecosystem assets (no_detection fresh_limit)))).
  { intros [?|?]; congruence. }
  destruct Hk as [?|Hk]; [done|]. destruct Hsf as [?|Hsf]; [done|].
  rewrite Forall_forall in Hsf. exact (Hsf _ (proj1 (list_elem_of_In _ _) (Hk p eco r Hp He Hr Ha))).
Qed.
End DetectProps.

(** ** Merging *)
Section CombineProps.
Context (finding_bytes : vulnerability -> Z) (max_findings max_bytes : Z).

Abbreviation bytes := (sum_bytes finding_bytes).

(** What stops a merge: the next finding does not fit. *)
Definition cut (out rest : list vulnerability) : Prop :=
  exists v rest', rest = v :: rest' /\
    (max_findings <= Z.of_nat (length out) \/ max_bytes < bytes out + finding_bytes v).

Definition fits (out : list vulnerability) : Prop :=
  Z.of_nat (length out) <= Z.max 0 max_findings /\ bytes out <= Z.max 0 max_bytes.

Lemma fits_snoc out v : fits out ->
  (max_findings <=? Z.of_nat (length out)) || (max_bytes <? bytes out + finding_bytes v) = false ->
  fits (out ++ [v]).
Proof.
  intros [Hn Hb] [E1 E2]%orb_false_iff. unfold fits. rewrite length_app, sum_bytes_app. simpl. lia.
Qed.

Lemma cut_intro out v rest :
  (max_findings <=? Z.of_nat (length out)) || (max_bytes <? bytes out + finding_bytes v) = true ->
  cut out (v :: rest).
Proof. intros Hc. exists v, rest. split; [done|]. apply orb_true_iff in Hc as [?|?]; lia. Qed.

Lemma combine_loop_spec vs acc l : fits acc ->
  let '(out, l') := combine_loop finding_bytes max_findings max_bytes vs acc (bytes acc) l in
  exists kept rest, vs = kept ++ rest /\ out = acc ++ kept /\ fits out /\
    ((rest = [] /\ l' = l) \/ (cut out rest /\ ls_truncated l' = true)).
Proof.
  revert acc. induction vs as [|v vs IH]; intros acc Hfit; cbn [combine_loop].
  { exists [], []. rewrite !app_nil_r. split_and!; auto. }
  cbv zeta. destruct (_ || _) eqn:E.
  - exists [], (v :: vs). rewrite !app_nil_r. split_and!; [done..|]. right. split; [by apply cut_intro|done].
  - specialize (IH (acc ++ [v]) (fits_snoc _ _ Hfit E)). rewrite sum_bytes_app in IH. simpl in IH.
    rewrite Z.add_0_r in IH. destruct (combine_loop _ _ _ vs _ _ l) as [out l'].
    destruct IH as (kept & rest & -> & -> & Hf & Ho). exists (v :: kept), rest.
    split_and!; [done|by rewrite <-app_assoc|done|done].
Qed.

(** A trusted scanner source. *)
Definition trusted (v : vulnerability) : bool := bool_decide (vu_source v ∈ scanner_sources).

Lemma scanner_loop_spec vs acc l : fits acc ->
  let '(out, l') := scanner_loop finding_bytes max_findings max_bytes vs acc (bytes acc) l in
  exists kept rest, vs = kept ++ rest /\ out = acc ++ base.filter (fun v => trusted v = true) kept /\ fits out /\
    (ls_incomplete l' = ls_incomplete l || negb (forallb trusted kept)) /\
    ((rest = [] /\ ls_truncated l' = ls_truncated l) \/ (cut out rest /\ ls_truncated l' = true)).
Proof.
  revert acc l. induction vs as [|v vs IH]; intros acc l Hfit; cbn [scanner_loop].
  { exists [], []. rewrite !app_nil_r, orb_false_r. split_and!; auto. }
  cbv zeta. fold (trusted v). destruct (trusted v) eqn:Et; cbn [negb].
  - destruct (_ || _) eqn:E.
    + exists [], (v :: vs). rewrite !app_nil_r. simpl. rewrite orb_false_r. split_and!; [done..|].
      right. split; [by apply cut_intro|done].
    + specialize (IH (acc ++ [v]) l (fits_snoc _ _ Hfit E)). rewrite sum_bytes_app in IH. simpl in IH.
      rewrite Z.add_0_r in IH. destruct (scanner_loop _ _ _ vs _ _ l) as [out l'].
      destruct IH as (kept & rest & -> & -> & Hf & Hi & Ho). exists (v :: kept), rest.
      rewrite filter_cons_True by done. simpl. rewrite Et.
      split_and!; [done|by rewrite <-app_assoc|done|done|done].
  - specialize (IH acc (mark_incomplete (u "untrusted_scanner_source") l) Hfit).
    destruct (scanner_loop _ _ _ vs _ _ _) as [out l'].
    destruct IH as (kept & rest & -> & -> & Hf & Hi & Ho). exists (v :: kept), rest.
    rewrite filter_cons_False by (by rewrite Et). simpl. rewrite Et. simpl.
    split_and!; [done|done|done| |done]. rewrite Hi. simpl. by rewrite orb_true_r.
Qed.

Lemma fits_nil : fits [].
Proof. unfold fits. simpl. lia. Qed.

(** Merging keeps a prefix of the OSV findings followed by the scanner
    findings, within both limits; it drops findings only when the next one does
    not fit, and then the result is flagged truncated. *)
Theorem combine_findings_prefix osv scanner l :
  let '(out, l') := combine_findings finding_bytes max_findings max_bytes osv scanner l in
  exists rest, osv ++ scanner = out ++ rest /\ fits out /\
    ((rest = [] /\ l' = l) \/ (cut out rest /\ ls_truncated l' = true)).
Proof.
  pose proof (combine_loop_spec (osv ++ scanner) [] l fits_nil) as Hc. unfold combine_findings. simpl in Hc.
  destruct (combine_loop _ _ _ _ [] 0 l) as [out l']. destruct Hc as (kept & rest & ? & -> & ? & ?).
  by exists rest.
Qed.

(** Only findings of trusted scanner sources are accepted, in order and
    within the limits; an untrusted one that was looked at flags the result
    incomplete, and one that does not fit flags it truncated. *)
Theorem scanner_findings_trusted vs l :
  let '(out, l') := scanner_findings finding_bytes max_findings max_bytes vs l in
  exists kept rest, vs = kept ++ rest /\ out = base.filter (fun v => trusted v = true) kept /\ fits out /\
    ls_incomplete l' = ls_incomplete l || negb (forallb trusted kept) /\
    ((rest = [] /\ ls_truncated l' = ls_truncated l) \/ (cut out rest /\ ls_truncated l' = true)).
Proof.
  pose proof (scanner_loop_spec vs [] l fits_nil) as Hc. unfold scanner_findings. simpl in Hc.
  by destruct (scanner_loop _ _ _ vs [] 0 l) as [out l'].
Qed.
End CombineProps.

(** ** A concrete report *)
Section Witnesses.

(** The report has no Python package: no text is a PEP 440 version. *)
#[local] Instance no_python : Packaging := {|
  pep_version := Z; pep_parse := fun _ => None; pep_lt := Z.ltb |}.

Definition entry_before (fixed : String.string) : osv_entry :=
  mkEntry (Some (u "Debian:12")) (Some (u "openssl")) []
    [mkRange (u "ECOSYSTEM") [mkOsvEvent (Some (u "0")) None None; mkOsvEvent None (Some (u fixed)) None]].
Arguments entry_before fixed%_string.

Definition advisory (id : String.string) (fixed : String.string) : osv_record :=
  mkRecord (u id) [u "CVE-2024-1"] [entry_before fixed] [] None None None None.
Arguments advisory (id fixed)%_string.

Definition advisories (eco name : str) : list osv_record :=
  [advisory "DSA-1" "3.0.2"; advisory "DSA-2" "1.0"].

Definition openssl : package :=
  mkPackage (u "pkg-1") (Some (u "host-1")) (u "openssl") (u "3.0.1-1") (Some (u "Debian:12")).

Lemma detect_report_complete_witness :
  let report := detect_report (fun _ => 100) advisories 4096 1000 None [AOther; APackage openssl] fresh_limit in
  ls_truncated report.2 = false /\
  exists f, f ∈ report.1 /\ vu_affected_asset_id f = u "pkg-1" /\ vu_id f = u "CVE-2024-1".
Proof.
  split; [vm_compute; reflexivity|].
  apply (detect_report_complete (fun _ => 100) advisories 4096 1000 None [AOther; APackage openssl])
    with (p := openssl) (eco := u "Debian:12") (r := advisory "DSA-1" "3.0.2") (1 := surjective_pairing _).
  - vm_compute. reflexivity.
  - vm_compute. reflexivity.
  - right. left.
  - vm_compute. reflexivity.
  - left.
  - exists (entry_before "3.0.2"), (Some (u "3.0.2")). split; [vm_compute; left|vm_compute; reflexivity].
Defined.
End Witnesses.
