(* ===== verification/Coverage.v ===== *)
(** * Corpus coverage ([analyzer/src/analyzer/detect/coverage.py], [matrix.py])

    Which packages can honestly be matched against the synchronized advisories,
    and the matrix of detector rows a result carries.  [Counter] and the
    per-ecosystem dict keep insertion order; [sorted] on them is stable. *)

From stdpp Require Import base list strings numbers.
From Stdlib Require Import ZArith Lia.
From S2P Require Import Prelude PyText PyHash Compare Osv Detect.

#[local] Open Scope Z_scope.

Inductive CoverageStatus := C_COMPLETE | C_PARTIAL | C_DISABLED | C_FAILED | C_UNKNOWN.
Inductive DetectionStatus := S_COMPLETE | S_PARTIAL | S_DISABLED | S_FAILED.
Inductive DetectorKind := OSV | DEBIAN_TRACKER | DEFENDER | MALWARE | POSTURE | SECRET.

#[global] Instance coverage_status_eq_dec : EqDecision CoverageStatus.
Proof. solve_decision. Defined.
#[global] Instance detector_kind_eq_dec : EqDecision DetectorKind.
Proof. solve_decision. Defined.

(** ** [package_coverage] *)

(** [EcosystemCoverage]; the list of five counters of the code by name. *)
Record ecosystem_counts := mkCounts {
  ct_total : Z;
  ct_covered : Z;
  ct_unresolved : Z;
  ct_not_synced : Z;
  ct_unsupported : Z;
}.

#[global] Instance eta_counts : Eta ecosystem_counts := fun c =>
  mkCounts (ct_total c) (ct_covered c) (ct_unresolved c) (ct_not_synced c) (ct_unsupported c).

Definition no_counts : ecosystem_counts := mkCounts 0 0 0 0 0.

Definition ct_uncovered (c : ecosystem_counts) : Z := ct_not_synced c + ct_unsupported c.

Inductive package_class := P_covered | P_unresolved | P_not_synced | P_unsupported.

(** [count(ecosystem, index)] *)
Definition count_in (k : package_class) (c : ecosystem_counts) : ecosystem_counts :=
  let c := c <| ct_total := ct_total c + 1 |> in
  match k with
  | P_covered => c <| ct_covered := ct_covered c + 1 |>
  | P_unresolved => c <| ct_unresolved := ct_unresolved c + 1 |>
  | P_not_synced => c <| ct_not_synced := ct_not_synced c + 1 |>
  | P_unsupported => c <| ct_unsupported := ct_unsupported c + 1 |>
  end.

(** [PackageCoverage] *)
Record package_coverage_t := mkCoverage {
  pc_detection_packages : list package;
  pc_total : Z;
  pc_resolved : Z;
  pc_covered : Z;
  pc_unresolved : Z;
  pc_uncovered : Z;
  pc_unsupported : Z;
  pc_uncovered_ecosystems : list str;
  pc_unsupported_ecosystems : list str;
  pc_ecosystems : list (option str * ecosystem_counts);
}.

Section Coverage.
Context {U : Unicode} (default_ecosystem : option str) (synced : option (list str)).

Definition unsupported_collected : list str := [u "Windows"].

(** [ecosystem_family] *)
Definition ecosystem_family (ecosystem : str) : str :=
  strip (match partition (u ":") ecosystem with Some (a, _) => a | None => ecosystem end).

(** The branch of the loop a package takes, with its ecosystem. *)
Definition classify (p : package) : option str * package_class :=
  match package_ecosystem p default_ecosystem with
  | None => (None, P_unresolved)
  | Some eco =>
      let family := ecosystem_family eco in
      (Some eco,
       if bool_decide (family ∈ unsupported_collected) then P_unsupported
       else match synced with
            | Some known => if bool_decide (family ∈ known) then P_covered else P_not_synced
            | None => P_covered
            end)
  end.

Definition packages_of (assets : list asset) : list package :=
  omap (fun a => match a with APackage p => Some p | AOther => None end) assets.

(** [counts.setdefault(ecosystem, [0, ...])], then [count] *)
Definition count_package (rows : list (option str * ecosystem_counts)) (p : package)
    : list (option str * ecosystem_counts) :=
  let '(eco, k) := classify p in
  od_set eco (count_in k (default no_counts (od_get eco rows))) rows.

Definition count_class (q : package_class -> bool) (ps : list package) : Z :=
  Z.of_nat (length (base.filter (fun p => q (classify p).2 = true) ps)).

(** A set of ecosystem labels, sorted. *)
Definition sorted_labels (ps : list package) (q : package_class -> bool) : list str :=
  isort str_ltb (remove_dups (omap (fun p => if q (classify p).2 then (classify p).1 else None) ps)).

Definition is_class (k k' : package_class) : bool :=
  match k, k' with
  | P_covered, P_covered | P_unresolved, P_unresolved
  | P_not_synced, P_not_synced | P_unsupported, P_unsupported => true
  | _, _ => false
  end.
Definition is_uncovered (k : package_class) : bool := is_class P_not_synced k || is_class P_unsupported k.

Definition package_coverage (assets : list asset) : package_coverage_t :=
  let packages := packages_of assets in
  let covered := base.filter (fun p => is_class P_covered (classify p).2 = true) packages in
  let unresolved := count_class (is_class P_unresolved) packages in
  mkCoverage covered (Z.of_nat (length packages)) (Z.of_nat (length packages) - unresolved)
    (Z.of_nat (length covered)) unresolved
    (count_class is_uncovered packages) (count_class (is_class P_unsupported) packages)
    (sorted_labels packages is_uncovered) (sorted_labels packages (is_class P_unsupported))
    (isort (fun a b => str_ltb (default [] a.1) (default [] b.1)) (fold_left count_package packages [])).
End Coverage.

(** ** [coverage_matrix] *)

(** [DetectionCoverage] *)
Record coverage_row := mkRow {
  row_detector : DetectorKind;
  row_ecosystem : option str;
  row_status : CoverageStatus;
  row_scanned_count : Z;
  row_skipped_count : Z;
  row_finding_count : Z;
  row_reason : option str;
}.

(** A producer's detector run. *)
Record detector_run := mkRun {
  run_detector : DetectorKind;
  run_status : CoverageStatus;
  run_finding_count : Z;
  run_reason : option str;
}.

Definition max_osv_rows : nat := 250.

(** [_scope] *)
Definition scope (value : option str) : option str :=
  match value with
  | Some v =>
      if (length v <=? 256)%nat then Some v
      else Some (take 183 v ++ u "~sha256:" ++ sha256_hex v)
  | None => None
  end.

Section Matrix.
Context {U : Unicode} (store_available sync_known : bool) (status : DetectionStatus)
  (status_reason incomplete_reason scanner_incomplete_reason : option str).

Definition truthy (s : option str) : bool := match s with Some (_ :: _) => true | _ => false end.

(** [_osv_row] *)
Definition osv_row (item : option str * ecosystem_counts) (finding_count : Z) : coverage_row :=
  let '(eco, c) := item in
  let row st scanned skipped reason :=
    mkRow OSV (scope eco) st scanned skipped finding_count reason in
  let scanned := ct_covered c in
  let skipped := ct_total c - ct_covered c in
  if negb store_available then row C_DISABLED 0 (ct_total c) (Some (u "osv_store_empty"))
  else if match status with S_FAILED => true | _ => false end
  then row C_FAILED scanned skipped
         (Some (match status_reason with Some ((_ :: _) as r) => r | _ => u "osv_detection_failed" end))
  else if match eco with None => true | Some _ => false end
  then row C_PARTIAL scanned skipped (Some (u "ecosystem_unresolved"))
  else if negb (ct_unsupported c =? 0)
  then row C_PARTIAL scanned skipped (Some (u "osv_ecosystem_unsupported"))
  else if negb (ct_uncovered c =? 0)
  then row C_PARTIAL scanned skipped (Some (u "osv_ecosystem_not_synced"))
  else if negb sync_known then row C_PARTIAL scanned skipped (Some (u "osv_sync_incomplete"))
  else if truthy incomplete_reason then row C_PARTIAL scanned skipped incomplete_reason
  else row C_COMPLETE scanned skipped None.

(** [Counter]: the occurrences of a key. *)
Definition count_key {K} `{EqDecision K} (k : K) (l : list K) : Z :=
  Z.of_nat (length (base.filter (fun x => x = k) l)).

Definition sum_of {A} (f : A -> Z) (l : list A) : Z := foldr (fun x n => f x + n) 0 l.

Definition source_kind (source : str) : option DetectorKind :=
  od_get source
    [(u "microsoft-defender", DEFENDER); (u "microsoft-defender-event", DEFENDER);
     (u "kcatta-malware", MALWARE); (u "clamav", MALWARE); (u "posture", POSTURE); (u "secret", SECRET)].

Definition scanner_kinds : list DetectorKind := [DEFENDER; MALWARE; POSTURE; SECRET].

(** The latest run declared for a kind: a dict comprehension keeps the last. *)
Definition declared_run (runs : list detector_run) (k : DetectorKind) : option detector_run :=
  hd_error (base.filter (fun r => run_detector r = k /\ run_detector r <> OSV) (rev runs)).

Definition scanner_row (runs : option (list detector_run)) (actual : Z) (k : DetectorKind) : coverage_row :=
  let row st reason := mkRow k None st 0 0 actual reason in
  match runs with
  | None => row C_UNKNOWN (Some (u "producer_detector_coverage_unknown"))
  | Some runs =>
      match declared_run runs k with
      | None => row C_DISABLED (Some (u "detector_not_enabled"))
      | Some run =>
          let '(st, reason) :=
            if negb (run_finding_count run =? actual)
            then (C_PARTIAL, Some (u "detector_finding_count_mismatch"))
            else (run_status run, run_reason run) in
          if truthy scanner_incomplete_reason && bool_decide (st = C_COMPLETE)
          then row C_PARTIAL scanner_incomplete_reason
          else row st reason
      end
  end.

(** [package_ecosystems]: the ecosystem of each package id, the last package of
    an id winning. *)
Definition asset_ecosystems (default_ecosystem : option str) (assets : list asset)
    : list (str * option str) :=
  fold_left (fun m p => od_set (pk_asset_id p)
      (match e ← pk_ecosystem p; nonempty e with Some e => Some e | None => default_ecosystem end) m)
    (packages_of assets) [].

(** The row of the ecosystems beyond the row limit. *)
Definition grouped_rows (osv_count : option str * ecosystem_counts -> Z)
    (omitted : list (option str * ecosystem_counts)) : list coverage_row :=
  match omitted with
  | [] => []
  | _ => [mkRow OSV (Some (u "other")) C_PARTIAL
            (sum_of (fun i => ct_covered i.2) omitted)
            (sum_of (fun i => ct_total i.2 - ct_covered i.2) omitted)
            (sum_of osv_count omitted) (Some (u "coverage_matrix_grouped"))]
  end.

(** [coverage_matrix] *)
Definition coverage_matrix (assets : list asset) (ecosystems : list (option str * ecosystem_counts))
    (osv_findings scanner : list vulnerability) (default_ecosystem : option str)
    (runs : option (list detector_run)) (debian_tracker : option coverage_row) : list coverage_row :=
  let package_ecosystems := asset_ecosystems default_ecosystem assets in
  let osv_ecosystems :=
    (fun f => match od_get (vu_affected_asset_id f) package_ecosystems with
              | Some eco => eco | None => None end) <$> osv_findings in
  let osv_count (item : option str * ecosystem_counts) := count_key item.1 osv_ecosystems in
  let ecosystem_rows := match ecosystems with [] => [(None, no_counts)] | _ => ecosystems end in
  let max_rows := match debian_tracker with Some _ => max_osv_rows | None => S max_osv_rows end in
  let omitted := drop max_rows ecosystem_rows in
  let source_kinds := omap (fun f => source_kind (vu_source f)) scanner in
  ((fun item => osv_row item (osv_count item)) <$> take max_rows ecosystem_rows) ++
  grouped_rows osv_count omitted ++
  option_list debian_tracker ++
  ((fun k => scanner_row runs (count_key k source_kinds) k) <$> scanner_kinds).
End Matrix.
