(* ===== verification/CoverageProps.v ===== *)
(** * What coverage accounting promises

    Every package is counted once, and a matrix row says [COMPLETE] only when
    every package of its ecosystem was matched against a known corpus. *)

From stdpp Require Import base sets list strings numbers.
From Stdlib Require Import ZArith Lia.
From S2P Require Import Prelude PyText PyHash Compare Osv Detect Coverage.

#[local] Open Scope Z_scope.

(** ** Sums *)

Lemma sum_of_app {A} (f : A -> Z) l1 l2 : sum_of f (l1 ++ l2) = sum_of f l1 + sum_of f l2.
Proof. induction l1 as [|x l1 IH]; simpl; [done|]. rewrite IH. lia. Qed.

#[export] Instance sum_of_proper {A} (f : A -> Z) : Proper ((≡ₚ) ==> eq) (sum_of f).
Proof. induction 1; simpl; lia. Qed.

Lemma sum_of_ext {A} (f g : A -> Z) l : (forall x, x ∈ l -> f x = g x) -> sum_of f l = sum_of g l.
Proof.
  induction l as [|x l IH]; intros Hfg; simpl; [done|].
  rewrite (Hfg x) by (by left). rewrite IH; [done|]. intros y Hy. apply Hfg. by right.
Qed.

Lemma sum_of_fmap {A B} (f : B -> Z) (g : A -> B) l : sum_of f (g <$> l) = sum_of (fun x => f (g x)) l.
Proof. induction l as [|x l IH]; csimpl; [done|]. by rewrite IH. Qed.

Lemma sum_of_add {A} (f g : A -> Z) l : sum_of (fun x => f x + g x) l = sum_of f l + sum_of g l.
Proof. induction l as [|x l IH]; simpl; [done|]. rewrite IH. lia. Qed.

Lemma sum_take_drop {A} (f : A -> Z) n l : sum_of f (take n l) + sum_of f (drop n l) = sum_of f l.
Proof. by rewrite <-sum_of_app, take_drop. Qed.

Definition indicator (b : bool) : Z := if b then 1 else 0.

Lemma filter_length_sum {A} (q : A -> bool) l :
  Z.of_nat (length (base.filter (fun x => q x = true) l)) = sum_of (fun x => indicator (q x)) l.
Proof.
  induction l as [|x l IH]; [done|]. rewrite filter_cons. simpl.
  destruct (q x); simpl; rewrite <-IH; [|done]. unfold indicator. lia.
Qed.

Section Props.
Context {U : Unicode} (default_ecosystem : option str) (synced : option (list str)).

Abbreviation classify := (Coverage.classify default_ecosystem synced).
Abbreviation count_package := (Coverage.count_package default_ecosystem synced).
Abbreviation package_coverage := (Coverage.package_coverage default_ecosystem synced).

(** ** The rows of [package_coverage] *)

Lemma sum_od_set (f : ecosystem_counts -> Z) (k : option str) v rows : f no_counts = 0 ->
  sum_of (fun i => f i.2) (od_set k v rows) =
  sum_of (fun i => f i.2) rows - f (default no_counts (od_get k rows)) + f v.
Proof.
  intros Hf. induction rows as [|[k' v'] rows IH]; simpl; [lia|].
  case_decide; simpl; [lia|]. rewrite IH. lia.
Qed.

(** A counter that grows by [q] of the class of each package counted. *)
Definition counter (f : ecosystem_counts -> Z) (q : package_class -> bool) : Prop :=
  f no_counts = 0 /\ forall k c, f (count_in k c) = f c + indicator (q k).

Lemma counter_total : counter ct_total (fun _ => true).
Proof. split; [done|]. by intros []. Qed.
Lemma counter_covered : counter ct_covered (is_class P_covered).
Proof. split; [done|]. intros []; simpl; lia. Qed.
Lemma counter_unresolved : counter ct_unresolved (is_class P_unresolved).
Proof. split; [done|]. intros []; simpl; lia. Qed.
Lemma counter_uncovered : counter ct_uncovered is_uncovered.
Proof. split; [done|]. intros [] c; unfold ct_uncovered, is_uncovered, count_in, indicator; simpl; lia. Qed.
Lemma counter_unsupported : counter ct_unsupported (is_class P_unsupported).
Proof. split; [done|]. intros []; simpl; lia. Qed.

Lemma rows_sum f q ps rows : counter f q ->
  sum_of (fun i => f i.2) (fold_left count_package ps rows) =
  sum_of (fun i => f i.2) rows + sum_of (fun p => indicator (q (classify p).2)) ps.
Proof.
  intros [H0 Hq]. revert rows. induction ps as [|p ps IH]; intros rows; simpl; [lia|].
  rewrite IH. unfold Coverage.count_package at 1. destruct (classify p) as [eco k]. simpl.
  rewrite sum_od_set, Hq by done. lia.
Qed.

(** A row's counter counts the packages of its ecosystem and class. *)
Lemma rows_get f q ps rows eco : counter f q ->
  f (default no_counts (od_get eco (fold_left count_package ps rows))) =
  f (default no_counts (od_get eco rows)) +
  sum_of (fun p => indicator (bool_decide ((classify p).1 = eco) && q (classify p).2)) ps.
Proof.
  intros [H0 Hq]. revert rows. induction ps as [|p ps IH]; intros rows; simpl; [lia|].
  rewrite IH. unfold Coverage.count_package at 1. destruct (classify p) as [eco' k]. simpl.
  rewrite od_get_set. case_decide as Heq; [subst; rewrite bool_decide_true by done|
    rewrite bool_decide_false by done]; simpl; rewrite ?Hq; unfold indicator; lia.
Qed.

Lemma rows_NoDup ps rows : NoDup rows.*1 -> NoDup (fold_left count_package ps rows).*1.
Proof.
  revert rows. induction ps as [|p ps IH]; intros rows Hr; simpl; [done|].
  apply IH. unfold Coverage.count_package. destruct (classify p). by apply od_set_NoDup.
Qed.

Lemma ecosystems_perm assets :
  pc_ecosystems (package_coverage assets) ≡ₚ fold_left count_package (packages_of assets) [].
Proof. apply isort_perm. Qed.

Lemma ecosystems_row assets eco c : (eco, c) ∈ pc_ecosystems (package_coverage assets) ->
  forall f q, counter f q ->
  f c = sum_of (fun p => indicator (bool_decide ((classify p).1 = eco) && q (classify p).2)) (packages_of assets).
Proof.
  rewrite ecosystems_perm. intros Hin f q Hq.
  assert (Hget : od_get eco (fold_left count_package (packages_of assets) []) = Some c).
  { apply od_elem_get; [|done]. apply rows_NoDup, NoDup_nil_2. }
  pose proof (rows_get f q (packages_of assets) [] eco Hq) as Hr. rewrite Hget in Hr. simpl in Hr.
  rewrite Hr. destruct Hq as [-> _]. lia.
Qed.

Lemma ecosystems_sum assets f q : counter f q ->
  sum_of (fun i => f i.2) (pc_ecosystems (package_coverage assets)) =
  sum_of (fun p => indicator (q (classify p).2)) (packages_of assets).
Proof. intros Hq. rewrite ecosystems_perm, (rows_sum f q) by done. simpl. lia. Qed.

Lemma classify_resolved p : (classify p).1 = package_ecosystem p default_ecosystem.
Proof. unfold Coverage.classify. by destruct (package_ecosystem _ _). Qed.

Lemma classify_unresolved p : (classify p).2 = P_unresolved <-> (classify p).1 = None.
Proof.
  unfold Coverage.classify. destruct (package_ecosystem _ _) as [e|]; simpl; [|done].
  split; [|done]. destruct (bool_decide _); [done|]. destruct synced as [known|]; [|done].
  by destruct (bool_decide _).
Qed.
End Props.

#[export] Hint Resolve counter_total counter_covered counter_unresolved counter_uncovered
  counter_unsupported : kcatta.

(** ** The matrix *)
Section MatrixProps.
Context {U : Unicode} (default_ecosystem : option str) (synced : option (list str)).
Context (store_available sync_known : bool) (status : DetectionStatus)
  (status_reason incomplete_reason scanner_incomplete_reason : option str).

Abbreviation osv_row := (Coverage.osv_row store_available sync_known status status_reason incomplete_reason).
Abbreviation coverage_matrix := (Coverage.coverage_matrix store_available sync_known status status_reason
  incomplete_reason scanner_incomplete_reason).

Definition row_packages (r : coverage_row) : Z := row_scanned_count r + row_skipped_count r.
Definition is_osv (r : coverage_row) : bool := bool_decide (row_detector r = OSV).

Lemma osv_row_shape item n : row_detector (osv_row item n) = OSV /\ row_packages (osv_row item n) = ct_total item.2.
Proof.
  destruct item as [eco c]. unfold Coverage.osv_row, row_packages. cbv zeta.
  repeat case_match; simpl; (split; [done|lia]).
Qed.

Lemma osv_row_complete item n : row_status (osv_row item n) = C_COMPLETE ->
  store_available = true /\ status <> S_FAILED /\ sync_known = true /\ truthy incomplete_reason = false /\
  ct_uncovered item.2 = 0 /\ (exists eco, item.1 = Some eco) /\
  row_scanned_count (osv_row item n) = ct_covered item.2.
Proof.
  destruct item as [eco c]. unfold Coverage.osv_row. cbv zeta. simpl.
  destruct store_available; simpl; [|done]. destruct status; simpl; try done;
    (destruct eco as [e|]; simpl; [|done]);
    (destruct (negb (ct_unsupported c =? 0)) eqn:E1; simpl; [done|]);
    (destruct (negb (ct_uncovered c =? 0)) eqn:E2; simpl; [done|]);
    (destruct sync_known; simpl; [|done]); (destruct (truthy _) eqn:E3; simpl; [done|]);
    (intros _; split_and!; try done; [apply negb_false_iff, Z.eqb_eq in E2; done|by eexists]).
Qed.

Lemma scanner_row_detector runs n k : row_detector (scanner_row scanner_incomplete_reason runs n k) = k.
Proof. unfold scanner_row. repeat case_match; done. Qed.

Lemma scanner_rows_not_osv runs (count : DetectorKind -> Z) r :
  r ∈ ((fun k => scanner_row scanner_incomplete_reason runs (count k) k) <$> scanner_kinds) -> is_osv r = false.
Proof.
  intros (k & -> & Hk)%list_elem_of_fmap. unfold is_osv. rewrite scanner_row_detector.
  apply bool_decide_false. intros ->. unfold scanner_kinds in Hk. set_solver.
Qed.

(** The rows of the matrix, apart from the order of the code's list building. *)
Lemma matrix_osv_rows assets ecosystems osv scanner dflt runs tracker :
  (forall r, tracker = Some r -> row_detector r = DEBIAN_TRACKER) ->
  exists (count : option str * ecosystem_counts -> Z) max_rows omitted_row,
    let rows := match ecosystems with [] => [(None, no_counts)] | _ => ecosystems end in
    (max_rows + length (option_list tracker) = 251)%nat /\
    base.filter (fun r => is_osv r = true)
      (coverage_matrix assets ecosystems osv scanner dflt runs tracker) =
      ((fun i => osv_row i (count i)) <$> take max_rows rows) ++ omitted_row /\
    match omitted_row with
    | [] => drop max_rows rows = []
    | [r] => row_status r = C_PARTIAL /\
             row_packages r = sum_of (fun i => ct_total i.2) (drop max_rows rows)
    | _ => False
    end /\
    length (coverage_matrix assets ecosystems osv scanner dflt runs tracker) =
      (length (take max_rows rows) + length omitted_row + length (option_list tracker) + 4)%nat.
Proof.
  intros Htr. unfold Coverage.coverage_matrix. cbv zeta.
  match goal with |- context [(fun item => osv_row item (@?c item)) <$> _] => exists c end.
  exists (match tracker with Some _ => max_osv_rows | None => S max_osv_rows end).
  set (rows := match ecosystems with [] => _ | _ => _ end).
  set (m := match tracker with Some _ => max_osv_rows | None => _ end).
  match goal with |- context [grouped_rows ?c ?o] => exists (grouped_rows c o) end.
  split; [unfold m, max_osv_rows; by destruct tracker|].
  rewrite !list.filter_app. split; [|split].
  - rewrite (filter_all _ ((fun _ => _) <$> _)).
    2:{ intros r (i & -> & _)%list_elem_of_fmap. apply bool_decide_true, osv_row_shape. }
    f_equal. rewrite (filter_all _ (grouped_rows _ _)).
    2:{ intros r. destruct (drop m rows); simpl; [by intros ?%not_elem_of_nil|].
        by intros ->%list_elem_of_singleton. }
    rewrite (filter_none _ (option_list tracker)).
    2:{ intros r. destruct tracker as [t|]; simpl; [|set_solver].
        intros ->%list_elem_of_singleton. unfold is_osv. by rewrite (Htr t). }
    rewrite (filter_none _ (_ <$> scanner_kinds)).
    2:{ intros r Hr. by rewrite (scanner_rows_not_osv _ _ _ Hr). }
    by rewrite !app_nil_r.
  - destruct (drop m rows) as [|i l] eqn:E; [done|]. cbn [grouped_rows]. split; [done|].
    unfold row_packages. cbn [row_scanned_count row_skipped_count]. rewrite <-sum_of_add.
    apply sum_of_ext. intros; lia.
  - rewrite !length_app, !length_fmap. simpl. lia.
Qed.
End MatrixProps.

(** ** Properties *)
Section CoverageTheorems.
Context {U : Unicode}.

Definition row_count (f : ecosystem_counts -> Z) (c : package_coverage_t) : Z :=
  sum_of (fun i => f i.2) (pc_ecosystems c).

Lemma filter_class_sum (q : package_class -> bool) {A} (k : A -> package_class) (l : list A) :
  Z.of_nat (length (base.filter (fun x => q (k x) = true) l)) = sum_of (fun x => indicator (q (k x))) l.
Proof. exact (filter_length_sum (fun x => q (k x)) l). Qed.

Lemma classes_partition (k : package_class) :
  1 = indicator (is_class P_covered k) + indicator (is_class P_unresolved k) + indicator (is_uncovered k).
Proof. by destruct k. Qed.

Lemma sum_of_one {A} (l : list A) : sum_of (fun _ => 1) l = Z.of_nat (length l).
Proof. induction l as [|x l IH]; simpl; [done|]. lia. Qed.

Lemma sum_of_mono {A} (f g : A -> Z) l : (forall x, f x <= g x) -> sum_of f l <= sum_of g l.
Proof. intros Hfg. induction l as [|x l IH]; simpl; [lia|]. specialize (Hfg x). lia. Qed.

Lemma sum_indicator_nonneg {A} (q : A -> bool) l : 0 <= sum_of (fun x => indicator (q x)) l.
Proof. rewrite <-filter_length_sum. lia. Qed.

(** A resolved row without uncovered packages is covered entirely. *)
Lemma row_all_covered default_ecosystem synced assets eco ct :
  (Some eco, ct) ∈ pc_ecosystems (package_coverage default_ecosystem synced assets) ->
  ct_uncovered ct = 0 ->
  ct_covered ct = ct_total ct /\
  ct_total ct = sum_of (fun p => indicator (bool_decide (package_ecosystem p default_ecosystem = Some eco)))
                  (packages_of assets).
Proof.
  intros Hin Hu. pose proof (ecosystems_row _ _ _ _ _ Hin) as Hget.
  rewrite (Hget _ _ counter_uncovered) in Hu. rewrite (Hget _ _ counter_covered), (Hget _ _ counter_total).
  split.
  - rewrite <-(Z.add_0_r (sum_of _ _)), <-Hu, <-sum_of_add. apply sum_of_ext. intros p _.
    destruct (bool_decide _) eqn:Ep; [|done]. apply bool_decide_eq_true in Ep.
    assert ((classify default_ecosystem synced p).2 <> P_unresolved) by (rewrite classify_unresolved; congruence).
    by destruct (classify default_ecosystem synced p).2.
  - apply sum_of_ext. intros p _. by rewrite andb_true_r, classify_resolved.
Qed.

(** Coverage accounting loses no package: the covered, unresolved and
    uncovered packages add up to the inventory, unsupported ones are among the
    uncovered, the ecosystem rows have distinct labels and add up to the same
    totals, and exactly the covered packages are passed on to matching. *)
Theorem package_coverage_partition default_ecosystem synced assets :
  let c := package_coverage default_ecosystem synced assets in
  pc_total c = pc_covered c + pc_unresolved c + pc_uncovered c /\
  pc_resolved c = pc_covered c + pc_uncovered c /\
  0 <= pc_unsupported c <= pc_uncovered c /\
  NoDup (pc_ecosystems c).*1 /\
  row_count ct_total c = pc_total c /\ row_count ct_covered c = pc_covered c /\
  row_count ct_unresolved c = pc_unresolved c /\ row_count ct_uncovered c = pc_uncovered c /\
  row_count ct_unsupported c = pc_unsupported c /\
  (forall p, p ∈ pc_detection_packages c <->
     APackage p ∈ assets /\ (classify default_ecosystem synced p).2 = P_covered).
Proof.
  intros c. unfold row_count.
  assert (Hsum : forall f q, counter f q ->
    sum_of (fun i => f i.2) (pc_ecosystems c) =
    sum_of (fun p => indicator (q (classify default_ecosystem synced p).2)) (packages_of assets))
    by (intros; by apply ecosystems_sum).
  rewrite (Hsum _ _ counter_total), (Hsum _ _ counter_covered), (Hsum _ _ counter_unresolved),
    (Hsum _ _ counter_uncovered), (Hsum _ _ counter_unsupported).
  unfold c, package_coverage, count_class. cbn -[is_class is_uncovered].
  rewrite !filter_class_sum, <-(sum_of_one (packages_of assets)).
  assert (Hpart : sum_of (fun _ => 1) (packages_of assets) =
    sum_of (fun p => indicator (is_class P_covered (classify default_ecosystem synced p).2)) (packages_of assets) +
    sum_of (fun p => indicator (is_class P_unresolved (classify default_ecosystem synced p).2)) (packages_of assets) +
    sum_of (fun p => indicator (is_uncovered (classify default_ecosystem synced p).2)) (packages_of assets)).
  { rewrite <-!sum_of_add. apply sum_of_ext. intros p _. apply classes_partition. }
  split_and!; try lia; try done.
  - apply sum_indicator_nonneg.
  - apply sum_of_mono. intros p. by destruct (classify default_ecosystem synced p).2.
  - rewrite isort_perm. apply rows_NoDup, NoDup_nil_2.
  - intros p. rewrite list_elem_of_filter. unfold packages_of. rewrite list_elem_of_omap.
    split.
    + intros [Hc ([q|] & Hq & [= ->])]. split; [done|]. by destruct (classify default_ecosystem synced p).2.
    + intros [Hp ->]. split; [done|]. by exists (APackage p).
Qed.

End CoverageTheorems.

(** ** Concrete reports *)
Section Witnesses.
Definition pkg (id eco : str) : asset := APackage (mkPackage id None (u "openssl") (u "1.0") (Some eco)).

Definition two_debian : list asset :=
  [pkg (u "a") (u "Debian:12"); AOther; pkg (u "b") (u "Debian:12"); pkg (u "c") (u "Windows:10")].


(** One package in each of 252 ecosystems. *)
Definition many_ecosystems : list asset :=
  (fun i => pkg (dec_nat i) (u "Eco:" ++ dec_nat i)) <$> seq 0 252.

(** The grouped row of a report with more than 251 ecosystems counts its
    packages as scanned although the advisory store is empty, when every row of
    its own says [DISABLED] with nothing scanned. *)
Theorem grouped_row_overstates_scan :
  let c := package_coverage None None many_ecosystems in
  let m := coverage_matrix false false S_DISABLED (Some (u "osv_store_empty")) None None many_ecosystems
             (pc_ecosystems c) [] [] None None None in
  (forall r, r ∈ take 251 m -> row_status r = C_DISABLED /\ row_scanned_count r = 0) /\
  exists r, m !! 251%nat = Some r /\ row_detector r = OSV /\ row_status r = C_PARTIAL /\ row_scanned_count r = 1.
Proof.
  intros c m. split.
  - assert (Hall : forallb (fun r => bool_decide (row_status r = C_DISABLED) && (row_scanned_count r =? 0))
      (take 251 m) = true) by (vm_compute; reflexivity).
    intros r Hr%list_elem_of_In. apply (proj1 (List.forallb_forall _ _) Hall) in Hr.
    apply andb_true_iff in Hr as [Hs Hn]. split; [by apply bool_decide_eq_true in Hs|by apply Z.eqb_eq].
  - eexists. split; [vm_compute; reflexivity|]. split_and!; reflexivity.
Qed.
End Witnesses.
