(* ===== verification/Correlate.v ===== *)
(** * Correlation ([analyzer/src/analyzer/correlate/])

    [limits.py], [identity.py], [trace.py], [guard.py] and [cross.py]: alerts
    from trace and guard batches, and compound alerts joining them with the
    vulnerability findings of their hosts.  An optional [limit_state] is always
    supplied and is threaded; IP addresses are their [str()].  Batches are the
    validated schema objects. *)

From stdpp Require Import base list strings numbers.
From Stdlib Require Import ZArith Lia.
From S2P Require Import Prelude PyText PyHash Compare Severity Osv Detect.

#[local] Open Scope Z_scope.

(** ** Limits *)

Definition max_alerts_per_ingest : nat := 128.
Definition max_related_ids : nat := 64.
Definition max_group_labels : nat := 8.
Definition max_alert_text_chars : nat := 4096.
Definition max_alert_id_chars : nat := 256.

(** [CorrelationLimitState] *)
Record corr_limit := mkCorrLimit {
  cl_truncated : bool;
  cl_reason : option str;
}.

Definition fresh_corr : corr_limit := mkCorrLimit false None.

(** [mark] *)
Definition corr_mark (reason : str) (l : corr_limit) : corr_limit :=
  mkCorrLimit true (match cl_reason l with None => Some reason | r => r end).

(** [append_unique_bounded]: the list and whether a new value was omitted. *)
Definition append_unique_bounded (items : list str) (value : str) (limit : nat) : list str * bool :=
  if bool_decide (value ∈ items) then (items, false)
  else if (limit <=? length items)%nat then (items, true)
  else (items ++ [value], false).

(** The ellipsis character and the text after it. *)
Definition truncation_mark : str := 8230%N :: u "[truncated]".

Definition bounded_text (value : str) : str :=
  if (length value <=? max_alert_text_chars)%nat then value
  else take (max_alert_text_chars - 14) value ++ truncation_mark.

Definition bounded_id (value : str) : str :=
  if (length value <=? max_alert_id_chars)%nat then value
  else
    let digest := sha256_hex value in
    take (max_alert_id_chars - length digest - 1) value ++ u "-" ++ digest.

(** ** Identity *)

(** The unit separator. *)
Definition key_sep : str := [31%N].

Definition alert_key_for (parts : list str) : str :=
  u "ak-" ++ take 24 (sha1_hex (join key_sep parts)).

(** ** Alerts *)

(** [Alert], without the triage fields, which correlation leaves at their
    defaults. *)
Record alert := mkAlert {
  al_alert_id : str;
  al_alert_key : option str;
  al_severity : Severity;
  al_score : Z;
  al_title : str;
  al_description : str;
  al_related_asset_ids : list str;
  al_related_vuln_ids : list str;
  al_related_trace_ids : list str;
  al_evidence_truncated : bool;
  al_created_at : Z;
}.

Definition short (n : nat) (s : str) : bool := (length s <=? n)%nat.

Section Correlate.
Context {U : Unicode}.

(** Constructing an [Alert]: Pydantic strips the strings, then checks lengths
    and the score's range. *)
Definition validate_alert (a : alert) : res alert :=
  let a := mkAlert (trim (al_alert_id a)) (trim <$> al_alert_key a) (al_severity a) (al_score a)
             (trim (al_title a)) (trim (al_description a)) (trim <$> al_related_asset_ids a)
             (trim <$> al_related_vuln_ids a) (trim <$> al_related_trace_ids a)
             (al_evidence_truncated a) (al_created_at a) in
  let ids (l : list str) := (length l <=? max_nested_items)%nat && forallb (short max_correlation_identifier) l in
  if short max_correlation_identifier (al_alert_id a)
     && match al_alert_key a with Some k => short max_correlation_identifier k | None => true end
     && (0 <=? al_score a) && (al_score a <=? 100)
     && short max_wire_string (al_title a) && short max_wire_string (al_description a)
     && ids (al_related_asset_ids a) && ids (al_related_vuln_ids a) && ids (al_related_trace_ids a)
  then Ok a else Raise ValueError.

(** ** Trace batches ([trace.py]) *)

Inductive IndicatorType := IP | DOMAIN | JA3.

#[global] Instance indicator_type_eq_dec : EqDecision IndicatorType.
Proof. solve_decision. Defined.

Definition indicator_value (t : IndicatorType) : str :=
  match t with IP => u "ip" | DOMAIN => u "domain" | JA3 => u "ja3" end.

(** [ThreatMatch] *)
Record threat_match := mkMatch {
  tm_indicator : str;
  tm_indicator_type : IndicatorType;
  tm_category : str;
  tm_severity : Severity;
  tm_source : str;
}.

(** The fields of [TraceEvent] that correlation reads. *)
Record trace_event := mkTrace {
  te_trace_id : str;
  te_host_id : str;
  te_src_ip : str;
  te_dst_ip : str;
  te_threat_intel : list threat_match;
}.

Record trace_batch := mkTraceBatch {
  tb_batch_id : str;
  tb_collected_at : Z;
  tb_events : list trace_event;
}.

(** [_Group] *)
Record group := mkGroup {
  gr_indicator : str;
  gr_indicator_type : IndicatorType;
  gr_severity : Severity;
  gr_categories : list str;
  gr_sources : list str;
  gr_trace_ids : list str;
  gr_observer_ids : list str;
  gr_endpoint_ips : list str;
  gr_evidence_truncated : bool;
}.

Definition new_group (m : threat_match) : group :=
  mkGroup (tm_indicator m) (tm_indicator_type m) INFO [] [] [] [] [] false.

(** [_worst] *)
Definition worst (current candidate : Severity) : Severity :=
  if severity_rank current <? severity_rank candidate then candidate else current.

(** [for v in values: truncated |= append_unique_bounded(items, v, limit)] *)
Definition append_all (limit : nat) (items : list str) (values : list str) : list str * bool :=
  fold_left (fun '(acc, t) v => let '(acc, t') := append_unique_bounded acc v limit in (acc, t || t'))
    values (items, false).

(** [observe] *)
Definition observe (e : trace_event) (m : threat_match) (g : group) : group :=
  let '(categories, t1) := append_unique_bounded (gr_categories g) (tm_category m) max_group_labels in
  let '(sources, t2) := append_unique_bounded (gr_sources g) (tm_source m) max_group_labels in
  let '(trace_ids, t3) := append_unique_bounded (gr_trace_ids g) (te_trace_id e) max_related_ids in
  let '(observer_ids, t4) := append_unique_bounded (gr_observer_ids g) (te_host_id e) max_related_ids in
  let '(endpoint_ips, t5) := append_all max_related_ids (gr_endpoint_ips g) [te_src_ip e; te_dst_ip e] in
  mkGroup (gr_indicator g) (gr_indicator_type g) (worst (gr_severity g) (tm_severity m))
    categories sources trace_ids observer_ids endpoint_ips
    (gr_evidence_truncated g || t1 || t2 || t3 || t4 || t5).

(** [asset_ids]; [None] and the empty index fall back to the observers. *)
Definition asset_ids (g : group) (ip_index : option (list (str * str))) : list str :=
  let resolved :=
    match ip_index with
    | Some index =>
        (append_all max_related_ids [] (omap (fun ip => od_get ip index) (gr_endpoint_ips g))).1
    | None => []
    end in
  match resolved with [] => gr_observer_ids g | _ => resolved end.

Definition comma (l : list str) : str := join (u ", ") l.

(** [_alert_for_group] *)
Definition alert_for_group (batch : trace_batch) (ip_index : option (list (str * str))) (g : group) : res alert :=
  let categories := join (u "/") (gr_categories g) in
  let assets := asset_ids g ip_index in
  let count := dec_nat (length (gr_trace_ids g)) in
  let itype := indicator_value (gr_indicator_type g) in
  let title := count ++ u " trace(s) matched threat indicator " ++ gr_indicator g ++
               u " (" ++ categories ++ u ")" in
  let description :=
    u "Indicator " ++ gr_indicator g ++ u " (" ++ itype ++ u ", " ++ categories ++ u ") was hit by " ++
    count ++ u " trace(s) observed at " ++ comma (gr_observer_ids g) ++
    u " per feed(s): " ++ comma (gr_sources g) ++ u "." in
  validate_alert
    (mkAlert (bounded_id (u "alert-ioc-" ++ tb_batch_id batch ++ u "-" ++ itype ++ u "-" ++ gr_indicator g))
       (Some (alert_key_for [u "ioc"; itype; gr_indicator g])) (gr_severity g)
       (alert_score (gr_severity g) (Z.of_nat (length assets)))
       (bounded_text title) (bounded_text description) assets [] (gr_trace_ids g)
       (gr_evidence_truncated g) (tb_collected_at batch)).

Definition groups_t : Type := list ((IndicatorType * str) * group).

(** The body of the loop over the matches of an event. *)
Definition collect_match (e : trace_event) (acc : groups_t * corr_limit) (m : threat_match) : groups_t * corr_limit :=
  let '(groups, l) := acc in
  let key := (tm_indicator_type m, tm_indicator m) in
  match od_get key groups with
  | Some g => (od_set key (observe e m g) groups, l)
  | None =>
      if (max_alerts_per_ingest <=? length groups)%nat then (groups, corr_mark (u "trace_max_alerts") l)
      else (od_set key (observe e m (new_group m)) groups, l)
  end.

Definition collect_trace (events : list trace_event) (l : corr_limit) : groups_t * corr_limit :=
  fold_left (fun acc e => fold_left (collect_match e) (te_threat_intel e) acc) events ([], l).

(** [for x in xs: out.append(f(x))] with an [f] that may raise *)
Fixpoint traverse {A B} (f : A -> res B) (l : list A) : res (list B) :=
  match l with
  | [] => Ok []
  | x :: l' => y ← f x; ys ← traverse f l'; Ok (y :: ys)
  end.

(** [correlate_trace_batch] *)
Definition correlate_trace_batch (batch : trace_batch) (ip_index : option (list (str * str))) (l : corr_limit)
    : res (list alert * corr_limit) :=
  let '(groups, l) := collect_trace (tb_events batch) l in
  alerts ← traverse (fun kg => alert_for_group batch ip_index kg.2) groups;
  Ok (alerts, l).
End Correlate.
