(* ===== verification/Guard.v ===== *)
(** * Guard events ([analyzer/src/analyzer/correlate/guard.py]) and compound
    alerts ([cross.py])

    The five kinds of events share one grouping loop, here [collect]; a kind
    supplies its key, its empty group and its update. *)

From stdpp Require Import base list strings numbers.
From Stdlib Require Import ZArith Lia.
From S2P Require Import Prelude PyText PyHash Compare Severity Osv Detect Correlate.

#[local] Open Scope Z_scope.

Inductive ActionTaken :=
| ACT_NONE | LOGGED | QUARANTINED | BLOCKED_OPEN | BLOCKED_CONNECTION | KILLED | SUSPENDED.

Definition action_value (a : ActionTaken) : str :=
  match a with
  | ACT_NONE => u "none" | LOGGED => u "logged" | QUARANTINED => u "quarantined"
  | BLOCKED_OPEN => u "blocked_open" | BLOCKED_CONNECTION => u "blocked_connection"
  | KILLED => u "killed" | SUSPENDED => u "suspended"
  end.

Inductive FimChange := CREATED | MODIFIED | DELETED | METADATA.

Definition change_value (c : FimChange) : str :=
  match c with
  | CREATED => u "created" | MODIFIED => u "modified" | DELETED => u "deleted" | METADATA => u "metadata"
  end.

#[global] Instance fim_change_eq_dec : EqDecision FimChange.
Proof. solve_decision. Defined.

(** The fields of every event that correlation reads. *)
Record guard_base := mkBase {
  gb_severity : Severity;
  gb_host_id : str;
  gb_action_taken : ActionTaken;
}.

(** [GuardEvent] *)
Inductive guard_event :=
| FileIntegrityEvent (b : guard_base) (path : str) (change_type : FimChange)
| MalwareEvent (b : guard_base) (path signature source : str)
| ProcessEvent (b : guard_base) (pid : Z) (process_name behavior rule_id : str) (evidence : option str)
| NetworkEvent (b : guard_base) (indicator : str) (indicator_type : IndicatorType) (category source : str)
| IdsEvent (b : guard_base) (signature_id signature_name : str).

Record guard_batch := mkGuardBatch {
  bt_batch_id : str;
  bt_collected_at : Z;
  bt_events : list guard_event;
}.

(** [_append_group]: the truncation flag is short-circuiting, so a list is not
    looked at any more once the group is truncated. *)
Definition append_group (truncated : bool) (items : list str) (value : str) (limit : nat) : list str * bool :=
  if truncated then (items, true) else append_unique_bounded items value limit.

Definition append_action (truncated : bool) (acts : list str) (a : ActionTaken) : list str * bool :=
  match a with
  | ACT_NONE => (acts, truncated)
  | a => append_group truncated acts (action_value a) max_group_labels
  end.

(** ** The grouping loop *)
Section Collect.
Context {E K G : Type} `{EqDecision K} (key : E -> option K) (fresh : E -> G) (add : E -> G -> G) (reason : str).

Fixpoint collect (events : list E) (groups : list (K * G)) (l : corr_limit) : list (K * G) * corr_limit :=
  match events with
  | [] => (groups, l)
  | e :: events' =>
      match key e with
      | None => collect events' groups l
      | Some k =>
          match od_get k groups with
          | Some g => collect events' (od_set k (add e g) groups) l
          | None =>
              if (max_alerts_per_ingest <=? length groups)%nat
              then collect events' groups (corr_mark reason l)
              else collect events' (od_set k (add e (fresh e)) groups) l
          end
      end
  end.
End Collect.

Definition endpoint_actions (acts : list str) : str :=
  match acts with [] => [] | _ => u " Endpoint action(s): " ++ comma acts ++ u "." end.

Section Guard.
Context {U : Unicode} (batch : guard_batch).

(** The alert of one host's findings of one kind. *)
Definition host_alert (id : str) (key_parts : list str) (sev : Severity) (title description : str)
    (hosts : list str) (radius : Z) (truncated : bool) : res alert :=
  validate_alert
    (mkAlert (bounded_id id) (Some (alert_key_for key_parts)) sev (alert_score sev radius)
       (bounded_text title) (bounded_text description) hosts [] [] truncated (bt_collected_at batch)).

(** ** [_fim_alerts] *)
Record fim_group := mkFim { fg_sev : Severity; fg_acts : list str; fg_n : nat; fg_truncated : bool }.

Definition fim_key (e : guard_event) : option (str * str * FimChange) :=
  match e with FileIntegrityEvent b path c => Some (gb_host_id b, path, c) | _ => None end.

Definition fim_add (e : guard_event) (g : fim_group) : fim_group :=
  match e with
  | FileIntegrityEvent b _ _ =>
      let '(acts, t) := append_action (fg_truncated g) (fg_acts g) (gb_action_taken b) in
      mkFim (worst (fg_sev g) (gb_severity b)) acts (S (fg_n g)) t
  | _ => g
  end.

Definition fim_alert (kg : (str * str * FimChange) * fim_group) : res alert :=
  let '((host_id, path, c), g) := kg in
  let change := change_value c in
  host_alert
    (u "alert-guard-fim-" ++ bt_batch_id batch ++ u "-" ++ host_id ++ u "-" ++ change ++ u "-" ++ path)
    [u "guard-fim"; host_id; change; path] (fg_sev g)
    (u "File integrity " ++ change ++ u ": " ++ path ++ u " on " ++ host_id)
    (u "agent-respond observed " ++ dec_nat (fg_n g) ++ u " " ++ change ++ u " event(s) for " ++ path ++
     u " on host " ++ host_id ++ u "." ++ endpoint_actions (fg_acts g))
    [host_id] 1 (fg_truncated g).

Definition fim_alerts (l : corr_limit) : res (list alert * corr_limit) :=
  let '(groups, l) := collect fim_key (fun _ => mkFim INFO [] 0 false) fim_add (u "guard_fim_max_alerts")
                        (bt_events batch) [] l in
  alerts ← traverse fim_alert groups; Ok (alerts, l).

(** ** [_process_alerts] *)
Record process_group := mkProcess {
  pg_sev : Severity;
  pg_behaviors : list str;
  pg_evidence : list str;
  pg_pids : list str;
  pg_n : nat;
  pg_truncated : bool;
}.

Definition process_key (e : guard_event) : option (str * str * str) :=
  match e with ProcessEvent b _ name _ rule _ => Some (gb_host_id b, rule, name) | _ => None end.

Definition process_add (e : guard_event) (g : process_group) : process_group :=
  match e with
  | ProcessEvent b pid _ behavior _ evidence =>
      let '(behaviors, t) := append_group (pg_truncated g) (pg_behaviors g) behavior max_group_labels in
      let '(pids, t) := append_group t (pg_pids g) (dec_Z pid) max_group_labels in
      let '(evs, t) :=
        match evidence with
        | Some ((_ :: _) as ev) => append_group t (pg_evidence g) ev max_group_labels
        | _ => (pg_evidence g, t)
        end in
      mkProcess (worst (pg_sev g) (gb_severity b)) behaviors evs pids (S (pg_n g)) t
  | _ => g
  end.

Definition process_alert (kg : (str * str * str) * process_group) : res alert :=
  let '((host_id, rule_id, process_name), g) := kg in
  let note := match pg_evidence g with [] => [] | ev => u " Evidence: " ++ comma ev ++ u "." end in
  host_alert
    (u "alert-guard-process-" ++ bt_batch_id batch ++ u "-" ++ host_id ++ u "-" ++ rule_id ++ u "-" ++ process_name)
    [u "guard-process"; host_id; rule_id; process_name] (pg_sev g)
    (u "Process behavior rule " ++ rule_id ++ u " fired for " ++ process_name ++ u " on " ++ host_id)
    (u "agent-respond observed " ++ dec_nat (pg_n g) ++ u " process event(s) for " ++ process_name ++
     u " (PID(s) " ++ comma (pg_pids g) ++ u ") on host " ++ host_id ++ u "; behavior(s): " ++
     comma (pg_behaviors g) ++ u "." ++ note)
    [host_id] 1 (pg_truncated g).

Definition process_alerts (l : corr_limit) : res (list alert * corr_limit) :=
  let '(groups, l) := collect process_key (fun _ => mkProcess INFO [] [] [] 0 false) process_add
                        (u "guard_process_max_alerts") (bt_events batch) [] l in
  alerts ← traverse process_alert groups; Ok (alerts, l).

(** ** [_network_alerts] *)
Record network_group := mkNetwork {
  ng_sev : Severity;
  ng_cats : list str;
  ng_srcs : list str;
  ng_hosts : list str;
  ng_acts : list str;
  ng_n : nat;
  ng_truncated : bool;
}.

Definition network_key (e : guard_event) : option (IndicatorType * str) :=
  match e with NetworkEvent _ indicator itype _ _ => Some (itype, indicator) | _ => None end.

Definition network_add (e : guard_event) (g : network_group) : network_group :=
  match e with
  | NetworkEvent b _ _ category source =>
      let '(cats, t) := append_group (ng_truncated g) (ng_cats g) category max_group_labels in
      let '(srcs, t) := append_group t (ng_srcs g) source max_group_labels in
      let '(hosts, t) := append_group t (ng_hosts g) (gb_host_id b) max_related_ids in
      let '(acts, t) := append_action t (ng_acts g) (gb_action_taken b) in
      mkNetwork (worst (ng_sev g) (gb_severity b)) cats srcs hosts acts (S (ng_n g)) t
  | _ => g
  end.

Definition network_alert (kg : (IndicatorType * str) * network_group) : res alert :=
  let '((itype, indicator), g) := kg in
  let cats := join (u "/") (ng_cats g) in
  let ty := indicator_value itype in
  host_alert (u "alert-guard-net-" ++ bt_batch_id batch ++ u "-" ++ ty ++ u "-" ++ indicator)
    [u "ioc"; ty; indicator] (ng_sev g)
    (dec_nat (ng_n g) ++ u " live connection(s) matched threat indicator " ++ indicator ++ u " (" ++ cats ++ u ")")
    (u "agent-respond observed " ++ dec_nat (ng_n g) ++ u " live connection(s) to indicator " ++ indicator ++
     u " (" ++ ty ++ u ", " ++ cats ++ u ") on host(s) " ++ comma (ng_hosts g) ++ u " per feed(s): " ++
     comma (ng_srcs g) ++ u "." ++ endpoint_actions (ng_acts g))
    (ng_hosts g) (Z.of_nat (length (ng_hosts g))) (ng_truncated g).

Definition network_alerts (l : corr_limit) : res (list alert * corr_limit) :=
  let '(groups, l) := collect network_key (fun _ => mkNetwork INFO [] [] [] [] 0 false) network_add
                        (u "guard_network_max_alerts") (bt_events batch) [] l in
  alerts ← traverse network_alert groups; Ok (alerts, l).

(** ** [_malware_alerts] *)
Record malware_group := mkMalware {
  mg_sev : Severity;
  mg_paths : list str;
  mg_srcs : list str;
  mg_acts : list str;
  mg_n : nat;
  mg_truncated : bool;
}.

Definition malware_key (e : guard_event) : option (str * str) :=
  match e with MalwareEvent b _ signature _ => Some (signature, gb_host_id b) | _ => None end.

Definition malware_add (e : guard_event) (g : malware_group) : malware_group :=
  match e with
  | MalwareEvent b path _ source =>
      let '(paths, t) := append_group (mg_truncated g) (mg_paths g) path max_group_labels in
      let '(srcs, t) := append_group t (mg_srcs g) source max_group_labels in
      let '(acts, t) := append_action t (mg_acts g) (gb_action_taken b) in
      mkMalware (worst (mg_sev g) (gb_severity b)) paths srcs acts (S (mg_n g)) t
  | _ => g
  end.

Definition malware_alert (kg : (str * str) * malware_group) : res alert :=
  let '((signature, host_id), g) := kg in
  host_alert (u "alert-guard-mal-" ++ bt_batch_id batch ++ u "-" ++ host_id ++ u "-" ++ signature)
    [u "guard-malware"; signature; host_id] (mg_sev g)
    (u "Malware signature " ++ signature ++ u " detected on " ++ host_id ++ u " (" ++ dec_nat (mg_n g) ++ u " hit(s))")
    (u "agent-respond on-access scan flagged " ++ dec_nat (mg_n g) ++ u " file(s) as " ++ signature ++
     u " on host " ++ host_id ++ u ": " ++ comma (mg_paths g) ++ u " (scanner: " ++ comma (mg_srcs g) ++ u ")." ++
     endpoint_actions (mg_acts g))
    [host_id] 1 (mg_truncated g).

Definition malware_alerts (l : corr_limit) : res (list alert * corr_limit) :=
  let '(groups, l) := collect malware_key (fun _ => mkMalware INFO [] [] [] 0 false) malware_add
                        (u "guard_malware_max_alerts") (bt_events batch) [] l in
  alerts ← traverse malware_alert groups; Ok (alerts, l).

(** ** [_ids_alerts] *)
Record ids_group := mkIds { ig_sev : Severity; ig_name : str; ig_n : nat }.

Definition ids_key (e : guard_event) : option (str * str) :=
  match e with IdsEvent b id _ => Some (id, gb_host_id b) | _ => None end.

Definition ids_fresh (e : guard_event) : ids_group :=
  match e with IdsEvent _ _ name => mkIds INFO name 0 | _ => mkIds INFO [] 0 end.

Definition ids_add (e : guard_event) (g : ids_group) : ids_group :=
  match e with
  | IdsEvent b _ _ => mkIds (worst (ig_sev g) (gb_severity b)) (ig_name g) (S (ig_n g))
  | _ => g
  end.

Definition ids_alert (kg : (str * str) * ids_group) : res alert :=
  let '((signature_id, host_id), g) := kg in
  host_alert (u "alert-guard-ids-" ++ bt_batch_id batch ++ u "-" ++ host_id ++ u "-" ++ signature_id)
    [u "guard-ids"; signature_id; host_id] (ig_sev g)
    (u "IDS signature " ++ ig_name g ++ u " (" ++ signature_id ++ u ") fired on " ++ host_id)
    (u "agent-respond IDS matched signature " ++ ig_name g ++ u " (" ++ signature_id ++ u ") " ++
     dec_nat (ig_n g) ++ u " time(s) on host " ++ host_id ++ u ".")
    [host_id] 1 false.

Definition ids_alerts (l : corr_limit) : res (list alert * corr_limit) :=
  let '(groups, l) := collect ids_key ids_fresh ids_add (u "guard_ids_max_alerts") (bt_events batch) [] l in
  alerts ← traverse ids_alert groups; Ok (alerts, l).

(** [correlate_guard_batch] *)
Definition correlate_guard_batch (l : corr_limit) : res (list alert * corr_limit) :=
  '(fim, l) ← fim_alerts l;
  '(process, l) ← process_alerts l;
  '(network, l) ← network_alerts l;
  '(malware, l) ← malware_alerts l;
  '(ids, l) ← ids_alerts l;
  let alerts := fim ++ process ++ network ++ malware ++ ids in
  let l := if (max_alerts_per_ingest <? length alerts)%nat then corr_mark (u "guard_max_alerts") l else l in
  Ok (take max_alerts_per_ingest alerts, l).
End Guard.

(** ** Cross-source correlation ([cross.py]) *)

(** A [DetectionResult], as far as correlation reads it. *)
Record detection_result := mkDetectionResult {
  dr_host_id : str;
  dr_vulnerabilities : list vulnerability;
}.

(** [ip_host_index] over the reports' (host id, addresses), newest first. *)
Definition ip_host_index (reports : list (str * list str)) : list (str * str) :=
  fold_left (fun index r =>
    fold_left (fun index ip => match od_get ip index with Some _ => index | None => od_set ip r.1 index end)
      r.2 index) reports [].

(** [worst_severity_by_host] *)
Definition worst_severity_by_host (detections : list detection_result) : list (str * Severity) :=
  fold_left (fun m d =>
    fold_left (fun m v =>
      match od_get (dr_host_id d) m with
      | Some current =>
          if severity_rank current <? severity_rank (vu_severity v) then od_set (dr_host_id d) (vu_severity v) m else m
      | None => od_set (dr_host_id d) (vu_severity v) m
      end) (dr_vulnerabilities d) m) detections [].

(** The loop of [vuln_ids_for_hosts] over one result's findings. *)
Definition collect_vuln_id (min_rank : Z) (acc : list str * list str * corr_limit) (v : vulnerability)
    : list str * list str * corr_limit :=
  let '(ids, seen, l) := acc in
  if severity_rank (vu_severity v) <? min_rank then acc
  else if bool_decide (vu_id v ∈ seen) then acc
  else if (max_related_ids <=? length ids)%nat
       then (ids, vu_id v :: seen, corr_mark (u "cross_related_vuln_ids") l)
       else (ids ++ [vu_id v], vu_id v :: seen, l).

Definition vuln_ids_for_hosts (detections : list detection_result) (host_ids : list str) (min_rank : Z)
    (l : corr_limit) : list str * corr_limit :=
  let '(ids, _, l) :=
    fold_left (fun acc d =>
      if bool_decide (dr_host_id d ∈ host_ids)
      then fold_left (collect_vuln_id min_rank) (dr_vulnerabilities d) acc else acc)
      detections ([], [], l) in
  (ids, l).

Definition high_risk (s : option Severity) : bool :=
  match s with Some (HIGH | CRITICAL) => true | _ => false end.

(** [sorted({h for h in related_asset_ids if host_severity.get(h) in _HIGH_RISK})] *)
Definition risky_hosts (host_severity : list (str * Severity)) (related : list str) : list str :=
  isort str_ltb (remove_dups (base.filter (fun h => high_risk (od_get h host_severity) = true) related)).

(** [max((host_severity[h] for h in hosts), key=rank)] of a non-empty list *)
Definition worst_of (host_severity : list (str * Severity)) (hosts : list str) : res Severity :=
  match omap (fun h => od_get h host_severity) hosts with
  | s :: ss => Ok (max_by severity_rank s ss)
  | [] => Raise ValueError
  end.

(** [', '.join(vuln_ids) or 'see store'] *)
Definition or_see_store (s : str) : str := match s with [] => u "see store" | _ => s end.

(** [alert.alert_key or alert.alert_id] *)
Definition key_or_id (a : alert) : str :=
  match al_alert_key a with Some ((_ :: _) as k) => k | _ => al_alert_id a end.

Section Cross.
Context {U : Unicode} (batch_id : str) (collected_at : Z) (detections : list detection_result).

(** The two rules differ in their words, in how they treat trace ids and in the
    reason they mark; a rule's own texts. *)
Record rule := mkRule {
  rl_max_alerts : str;
  rl_related_assets : str;
  rl_evidence : str;
  rl_id_prefix : str;
  rl_key_kind : str;
  rl_title : str;
  rl_description : str;
  rl_trace_reason : option str;
}.

Definition ioc_rule : rule :=
  mkRule (u "cross_max_alerts") (u "cross_related_asset_ids") (u "cross_source_evidence")
    (u "alert-cross-") (u "cross") (u " with known vuln(s) also matched threat indicator in: ")
    (u ") and also appeared in IOC alert ") (Some (u "cross_related_trace_ids")).

Definition guard_rule : rule :=
  mkRule (u "guard_cross_max_alerts") (u "guard_cross_related_asset_ids") (u "guard_cross_source_evidence")
    (u "alert-guard-cross-") (u "cross-guard") (u " with known vuln(s) also hit by guard detection: ")
    (u ") and also produced guard alert ") None.

(** The compound alert of one alert whose hosts include [all_risky]. *)
Definition compound (r : rule) (host_severity : list (str * Severity)) (source : alert) (all_risky : list str)
    (l : corr_limit) : res (alert * corr_limit) :=
  let hosts := take max_related_ids all_risky in
  let evidence := if (length hosts <? length all_risky)%nat then corr_mark (rl_related_assets r) fresh_corr
                  else fresh_corr in
  worst_host ← worst_of host_severity hosts;
  let severity := worst (al_severity source) worst_host in
  let '(vuln_ids, evidence) := vuln_ids_for_hosts detections hosts (severity_rank HIGH) evidence in
  let '(trace_ids, evidence) :=
    match rl_trace_reason r with
    | None => ([], evidence)
    | Some reason =>
        let trace_ids := take max_related_ids (al_related_trace_ids source) in
        (trace_ids, if (length trace_ids <? length (al_related_trace_ids source))%nat
                    then corr_mark reason evidence else evidence)
    end in
  let truncated := al_evidence_truncated source || cl_truncated evidence in
  let l := if truncated
           then corr_mark (match cl_reason evidence with Some ((_ :: _) as x) => x | _ => rl_evidence r end) l
           else l in
  a ← validate_alert
    (mkAlert (bounded_id (rl_id_prefix r ++ batch_id ++ u "-" ++ al_alert_id source))
       (Some (alert_key_for [rl_key_kind r; key_or_id source; join (u ",") hosts]))
       severity (alert_score severity (Z.of_nat (length hosts)))
       (bounded_text (u "High-risk host(s) " ++ comma hosts ++ rl_title r ++ al_title source))
       (bounded_text (u "Cross-source correlation: host(s) " ++ comma hosts ++
          u " have high/critical vulnerability findings (" ++ or_see_store (comma vuln_ids) ++
          rl_description r ++ al_alert_id source ++ u " (" ++ al_description source ++ u ")"))
       hosts vuln_ids trace_ids truncated collected_at);
  Ok (a, l).

(** The loop over the alerts. *)
Fixpoint compound_loop (r : rule) (host_severity : list (str * Severity)) (alerts : list alert)
    (extras : list alert) (l : corr_limit) : res (list alert * corr_limit) :=
  match alerts with
  | [] => Ok (extras, l)
  | a :: alerts' =>
      match risky_hosts host_severity (al_related_asset_ids a) with
      | [] => compound_loop r host_severity alerts' extras l
      | all_risky =>
          if (max_alerts_per_ingest <=? length extras)%nat
          then compound_loop r host_severity alerts' extras (corr_mark (rl_max_alerts r) l)
          else
            '(x, l) ← compound r host_severity a all_risky l;
            compound_loop r host_severity alerts' (extras ++ [x]) l
      end
  end.

(** [cross_source_alerts] and [guard_compound_alerts] *)
Definition cross_source_alerts (ioc_alerts : list alert) (l : corr_limit) : res (list alert * corr_limit) :=
  compound_loop ioc_rule (worst_severity_by_host detections) ioc_alerts [] l.

Definition guard_compound_alerts (guard_alerts : list alert) (l : corr_limit) : res (list alert * corr_limit) :=
  compound_loop guard_rule (worst_severity_by_host detections) guard_alerts [] l.
End Cross.
