(* ===== verification/CorrelateProps.v ===== *)
(** * What correlation promises

    The one-pass grouping loops compute, per indicator or finding, what a
    separate pass over its own hits would; alerts are bounded, and evidence is
    complete unless the alert says it was truncated. *)

From stdpp Require Import base sets strings numbers list sorting.
From Stdlib Require Import ZArith Lia.
From S2P Require Import Prelude PyText PyHash Compare Severity Osv Detect Correlate Guard.

#[local] Open Scope Z_scope.

(** ** Distinct values in first-seen order *)
Section FirstSeen.
Context {K : Type} `{EqDecision K}.

Definition see (acc : list K) (k : K) : list K := if bool_decide (k ∈ acc) then acc else acc ++ [k].
Definition first_seen (ks : list K) : list K := fold_left see ks [].

Lemma first_seen_snoc ks k : first_seen (ks ++ [k]) = see (first_seen ks) k.
Proof. unfold first_seen. by rewrite fold_left_app. Qed.

Lemma first_seen_elem ks k : k ∈ first_seen ks <-> k ∈ ks.
Proof.
  induction ks as [|x ks IH] using rev_ind; [done|]. rewrite first_seen_snoc. unfold see.
  case_bool_decide; set_solver.
Qed.

Lemma first_seen_NoDup ks : NoDup (first_seen ks).
Proof.
  induction ks as [|x ks IH] using rev_ind; [apply NoDup_nil_2|]. rewrite first_seen_snoc. unfold see.
  case_bool_decide; [done|]. apply list.NoDup_app. split; [done|]. split; [set_solver|apply NoDup_singleton].
Qed.

Lemma first_seen_length ks : (length (first_seen ks) <= length ks)%nat.
Proof.
  induction ks as [|k ks IH] using rev_ind; [simpl; lia|].
  rewrite first_seen_snoc, length_app. unfold see. case_bool_decide; rewrite ?length_app; simpl; lia.
Qed.

Lemma omap_short {A B} (f : A -> option B) l : (length (omap f l) <= length l)%nat.
Proof. induction l as [|x l IH]; csimpl; [lia|]. destruct (f x); simpl; lia. Qed.

Lemma take_snoc {A} n (l : list A) x :
  take n (l ++ [x]) = if (length l <? n)%nat then take n l ++ [x] else take n l.
Proof.
  rewrite take_app. destruct (Nat.ltb_spec (length l) n).
  - by rewrite (take_ge [x]) by (simpl; lia).
  - replace (n - length l)%nat with 0%nat by lia. by rewrite app_nil_r.
Qed.

(** A dictionary given by its keys and a function. *)
Lemma od_get_table {V} (f : K -> V) ks k :
  od_get k ((fun k => (k, f k)) <$> ks) = if bool_decide (k ∈ ks) then Some (f k) else None.
Proof.
  induction ks as [|x ks IH]; [done|]. cbn. destruct (decide (k = x)) as [->|Hx].
  - by rewrite bool_decide_true by left.
  - rewrite IH. repeat case_bool_decide; set_solver.
Qed.

Lemma od_set_table {V} (f g : K -> V) ks k : k ∈ ks -> NoDup ks -> (forall k', k' <> k -> g k' = f k') ->
  od_set k (g k) ((fun k => (k, f k)) <$> ks) = (fun k => (k, g k)) <$> ks.
Proof.
  intros Hk Hn Hfg. induction ks as [|x ks IH]; [by apply not_elem_of_nil in Hk|].
  apply NoDup_cons in Hn as [Hx Hn]. csimpl. case_decide as Hd.
  - subst. f_equal. apply list_fmap_ext. intros i y Hy. rewrite Hfg; [done|].
    intros ->. apply Hx. by eapply list_elem_of_lookup_2.
  - rewrite (Hfg x) by congruence. f_equal. apply IH; [set_solver|done].
Qed.

Lemma od_set_fresh {V} (v : V) (d : list (K * V)) k : od_get k d = None -> od_set k v d = d ++ [(k, v)].
Proof.
  induction d as [|[k' v'] d IH]; [done|]. simpl. case_decide; [done|]. intros. f_equal. auto.
Qed.
End FirstSeen.

(** ** The grouping loop *)
Section CollectSpec.
Context {E K G : Type} `{EqDecision K} (key : E -> option K) (fresh : E -> G) (add : E -> G -> G) (reason : str).

Abbreviation collect := (Guard.collect key fresh add reason).

Definition mine (k : K) (events : list E) : list E := base.filter (fun e => key e = Some k) events.

Definition group_for (events : list E) (k : K) : option G :=
  match mine k events with
  | [] => None
  | e :: es => Some (fold_left (fun g e => add e g) es (add e (fresh e)))
  end.

Definition keys_of (events : list E) : list K := first_seen (omap key events).

(** What the loop has after [events]. *)
Definition grouped (events : list E) : list (K * option G) :=
  (fun k => (k, group_for events k)) <$> take max_alerts_per_ingest (keys_of events).

Definition marked (events : list E) (l : corr_limit) : corr_limit :=
  if (max_alerts_per_ingest <? length (keys_of events))%nat then corr_mark reason l else l.

Lemma mine_snoc k events e :
  mine k (events ++ [e]) = mine k events ++ (if decide (key e = Some k) then [e] else []).
Proof. unfold mine. rewrite list.filter_app. simpl. rewrite filter_cons. by case_decide. Qed.

Lemma group_for_snoc_ne events e k : key e <> Some k -> group_for (events ++ [e]) k = group_for events k.
Proof. intros Hk. unfold group_for. rewrite mine_snoc, decide_False by done. by rewrite app_nil_r. Qed.

Lemma group_for_snoc_eq events e k : key e = Some k ->
  group_for (events ++ [e]) k = Some (add e (match group_for events k with Some g => g | None => fresh e end)).
Proof.
  intros Hk. unfold group_for. rewrite mine_snoc, decide_True by done.
  destruct (mine k events) as [|x xs]; simpl; [done|]. by rewrite fold_left_app.
Qed.

Lemma group_for_Some events k : k ∈ keys_of events <-> exists g, group_for events k = Some g.
Proof.
  unfold keys_of, group_for. rewrite first_seen_elem, list_elem_of_omap. split.
  - intros (e & He & Hk). destruct (mine k events) as [|x xs] eqn:Em; [|by eexists].
    exfalso. assert (Hin : e ∈ mine k events) by (by apply list_elem_of_filter).
    rewrite Em in Hin. by apply not_elem_of_nil in Hin.
  - intros (g & Hg). destruct (mine k events) as [|x xs] eqn:Em; [done|].
    assert (Hin : x ∈ mine k events) by (rewrite Em; by left).
    apply list_elem_of_filter in Hin as [? ?]. by exists x.
Qed.

Lemma keys_of_snoc events e :
  keys_of (events ++ [e]) = match key e with Some k => see (keys_of events) k | None => keys_of events end.
Proof.
  unfold keys_of. rewrite omap_app. simpl. destruct (key e); [by rewrite first_seen_snoc|by rewrite app_nil_r].
Qed.

Lemma corr_mark_idem r l : corr_mark r (corr_mark r l) = corr_mark r l.
Proof. unfold corr_mark. simpl. by destruct (cl_reason l). Qed.

(** The keys that have a group. *)
Definition table (events : list E) : list K := take max_alerts_per_ingest (keys_of events).

Definition lift (groups : list (K * G)) : list (K * option G) := (fun kg => (kg.1, Some kg.2)) <$> groups.

Lemma lift_get groups k : od_get k (lift groups) = Some <$> od_get k groups.
Proof. induction groups as [|[k' v'] d IH]; [done|]. csimpl. by case_decide. Qed.

Lemma lift_set groups k v : lift (od_set k v groups) = od_set k (Some v) (lift groups).
Proof.
  induction groups as [|[k' v'] d IH]; [done|]. csimpl. case_decide; csimpl; [done|].
  f_equal. exact IH.
Qed.

Lemma groups_get events groups k : lift groups = grouped events ->
  od_get k groups = if bool_decide (k ∈ table events) then group_for events k else None.
Proof.
  intros Hg. pose proof (lift_get groups k) as Hl. rewrite Hg in Hl. unfold grouped in Hl.
  rewrite od_get_table in Hl. unfold table.
  destruct (bool_decide _), (od_get k groups); simplify_eq/=; done.
Qed.

Lemma groups_length events groups : lift groups = grouped events -> length groups = length (table events).
Proof.
  intros Hg. transitivity (length (lift groups)); [by unfold lift; rewrite length_fmap|].
  rewrite Hg. unfold grouped. by rewrite length_fmap.
Qed.

Lemma table_elem events k : k ∈ table events -> k ∈ keys_of events.
Proof. intros (i & Hi & _)%elem_of_take. by eapply list_elem_of_lookup_2. Qed.

Lemma table_NoDup events : NoDup (table events).
Proof. apply (sublist_NoDup _ (keys_of events)); [apply first_seen_NoDup|apply sublist_take]. Qed.

(** An event whose key has no group changes no group. *)
Lemma grouped_skip events e : table (events ++ [e]) = table events ->
  (forall k, key e = Some k -> k ∉ table events) -> grouped (events ++ [e]) = grouped events.
Proof.
  intros Ht Hk. unfold grouped. fold (table (events ++ [e])) (table events). rewrite Ht.
  apply list_fmap_ext. intros i k Hi. f_equal. apply group_for_snoc_ne. intros He.
  apply (Hk k He). by eapply list_elem_of_lookup_2.
Qed.

(** An event whose key has one updates it. *)
Lemma grouped_update events e k g : key e = Some k -> k ∈ table events -> group_for events k = Some g ->
  grouped (events ++ [e]) = od_set k (Some (add e g)) (grouped events).
Proof.
  intros Hk Hin Hg.
  assert (Hkeys : keys_of (events ++ [e]) = keys_of events).
  { rewrite keys_of_snoc, Hk. unfold see. by rewrite bool_decide_true by by apply table_elem. }
  pose proof (group_for_snoc_eq events e k Hk) as Hnew. rewrite Hg in Hnew. rewrite <-Hnew.
  unfold grouped. rewrite Hkeys. symmetry. apply od_set_table; [done|apply table_NoDup|].
  intros k' Hk'. apply group_for_snoc_ne. congruence.
Qed.

(** An event of a new key, while there is room, opens a group. *)
Lemma grouped_new events e k : key e = Some k -> k ∉ keys_of events ->
  (length (keys_of events) < max_alerts_per_ingest)%nat ->
  grouped (events ++ [e]) = grouped events ++ [(k, Some (add e (fresh e)))].
Proof.
  intros Hk Hin Hs. unfold grouped. rewrite keys_of_snoc, Hk. unfold see. rewrite bool_decide_false by done.
  rewrite take_snoc, (proj2 (Nat.ltb_lt _ _)) by done. rewrite fmap_app. f_equal.
  - apply list_fmap_ext. intros i k' Hi. f_equal. apply group_for_snoc_ne. rewrite Hk. intros [= ->].
    apply Hin, table_elem. by eapply list_elem_of_lookup_2.
  - simpl. rewrite (group_for_snoc_eq events e k Hk). destruct (group_for events k) eqn:Eg; [|done].
    exfalso. apply Hin, group_for_Some. by eexists.
Qed.

Lemma marked_full events e k l : key e = Some k -> k ∉ table events ->
  (max_alerts_per_ingest <= length (table events))%nat ->
  table (events ++ [e]) = table events /\ corr_mark reason (marked events l) = marked (events ++ [e]) l.
Proof.
  intros Hk Hin Hfull. unfold table in *. rewrite length_take in Hfull. unfold marked. rewrite keys_of_snoc, Hk.
  unfold see. case_bool_decide as Hd.
  - split; [done|]. assert (max_alerts_per_ingest < length (keys_of events))%nat.
    { destruct (Nat.lt_ge_cases max_alerts_per_ingest (length (keys_of events))); [done|].
      by rewrite take_ge in Hin by done. }
    by rewrite (proj2 (Nat.ltb_lt _ _)), corr_mark_idem by done.
  - rewrite take_snoc, (proj2 (Nat.ltb_ge _ _)) by lia. split; [done|]. rewrite length_app. simpl.
    rewrite (proj2 (Nat.ltb_lt _ (length (keys_of events) + 1))) by lia.
    destruct (_ <? _)%nat; [by rewrite corr_mark_idem|done].
Qed.

Lemma marked_room events e l : (length (keys_of (events ++ [e])) <= max_alerts_per_ingest)%nat \/
  keys_of (events ++ [e]) = keys_of events -> marked (events ++ [e]) l = marked events l.
Proof.
  intros [Hs|Hs]; unfold marked; [|by rewrite Hs].
  assert (length (keys_of events) <= length (keys_of (events ++ [e])))%nat.
  { rewrite keys_of_snoc. destruct (key e) as [k|]; [|done]. unfold see. case_bool_decide; [done|].
    rewrite length_app. lia. }
  rewrite !(proj2 (Nat.ltb_ge _ _)) by lia. done.
Qed.

(** One round of the loop. *)
Lemma collect_round events e rest groups l : lift groups = grouped events ->
  exists groups', lift groups' = grouped (events ++ [e]) /\
    collect (e :: rest) groups (marked events l) = collect rest groups' (marked (events ++ [e]) l).
Proof.
  intros Hg. cbn [Guard.collect]. pose proof (groups_length _ _ Hg) as Hlen.
  destruct (key e) as [k|] eqn:Ek.
  2:{ exists groups. rewrite grouped_skip, marked_room; [done|right| |congruence];
      unfold table; by rewrite keys_of_snoc, Ek. }
  rewrite (groups_get _ _ k Hg). destruct (bool_decide (k ∈ table events)) eqn:Ht.
  - apply bool_decide_eq_true in Ht. destruct (proj1 (group_for_Some events k) (table_elem _ _ Ht)) as [g Hgk].
    rewrite Hgk. eexists. split; [by rewrite lift_set, Hg, (grouped_update _ _ _ _ Ek Ht Hgk)|].
    rewrite marked_room; [done|]. right. rewrite keys_of_snoc, Ek. unfold see.
    by rewrite bool_decide_true by by apply table_elem.
  - apply bool_decide_eq_false in Ht. rewrite Hlen. destruct (_ <=? _)%nat eqn:Ef.
    + apply Nat.leb_le in Ef. destruct (marked_full events e k l Ek Ht Ef) as [Htab ->]. exists groups.
      split; [|done]. rewrite grouped_skip; [done|done|]. by intros k' [= <-]%(eq_trans (eq_sym Ek)).
    + apply Nat.leb_gt in Ef. unfold table in Ef. rewrite length_take in Ef.
      assert (Hin : k ∉ keys_of events) by (unfold table in Ht; by rewrite take_ge in Ht by lia).
      eexists. split.
      * rewrite lift_set, Hg, (grouped_new events e k Ek Hin) by lia. rewrite od_set_fresh; [done|].
        rewrite <-Hg, lift_get, (groups_get _ _ k Hg), bool_decide_false by done. done.
      * rewrite marked_room; [done|]. left. rewrite keys_of_snoc, Ek. unfold see.
        rewrite bool_decide_false, length_app by done. simpl. lia.
Qed.

(** The loop groups every event under its key, for the first 128 distinct keys
    in first-seen order, and marks the limit when there are more. *)
Lemma collect_spec events l :
  exists groups, collect events [] l = (groups, marked events l) /\ lift groups = grouped events.
Proof.
  assert (Hgen : forall rest pre groups, lift groups = grouped pre ->
    exists groups', collect rest groups (marked pre l) = (groups', marked (pre ++ rest) l) /\
      lift groups' = grouped (pre ++ rest)).
  { induction rest as [|e rest IH]; intros pre groups Hg.
    - exists groups. by rewrite app_nil_r.
    - destruct (collect_round pre e rest groups l Hg) as (groups' & Hg' & ->).
      destruct (IH (pre ++ [e]) groups' Hg') as (gs & -> & Hgs). exists gs.
      by rewrite <-app_assoc in *. }
  exact (Hgen events [] [] eq_refl).
Qed.
End CollectSpec.

(** ** Bounded evidence lists *)

(** The first [n] distinct values, and whether some are missing. *)
Definition seen_upto (n : nat) (vs : list str) : list str := take n (first_seen vs).
Definition over (n : nat) (vs : list str) : bool := (n <? length (first_seen vs))%nat.

Lemma seen_upto_length n vs : (length (seen_upto n vs) <= n)%nat.
Proof. unfold seen_upto. rewrite length_take. lia. Qed.

Lemma seen_upto_elem n vs v : v ∈ seen_upto n vs -> v ∈ vs.
Proof. intros (i & Hi & _)%elem_of_take. apply first_seen_elem. by eapply list_elem_of_lookup_2. Qed.

Lemma seen_upto_complete n vs v : over n vs = false -> v ∈ vs -> v ∈ seen_upto n vs.
Proof. unfold over, seen_upto. intros Hn%Nat.ltb_ge Hv. rewrite take_ge by done. by apply first_seen_elem. Qed.

Lemma append_bounded_step n vs v :
  append_unique_bounded (seen_upto n vs) v n =
    (seen_upto n (vs ++ [v]), (append_unique_bounded (seen_upto n vs) v n).2) /\
  over n (vs ++ [v]) = over n vs || (append_unique_bounded (seen_upto n vs) v n).2.
Proof.
  unfold append_unique_bounded, seen_upto, over. rewrite first_seen_snoc. unfold see.
  destruct (decide (v ∈ take n (first_seen vs))) as [Hin|Hin].
  - rewrite (bool_decide_true (v ∈ take n _)) by done.
    assert (v ∈ first_seen vs) by (apply elem_of_take in Hin as (i & Hi & _); by eapply list_elem_of_lookup_2).
    rewrite bool_decide_true by done. by rewrite orb_false_r.
  - rewrite (bool_decide_false (v ∈ take n _)) by done. rewrite length_take.
    destruct (decide (v ∈ first_seen vs)) as [Hf|Hf].
    + rewrite (bool_decide_true (v ∈ first_seen vs)) by done.
      assert (n < length (first_seen vs))%nat.
      { destruct (Nat.lt_ge_cases n (length (first_seen vs))); [done|]. by rewrite take_ge in Hin by done. }
      rewrite (proj2 (Nat.leb_le _ _)) by lia. by rewrite (proj2 (Nat.ltb_lt _ _)) by done.
    + rewrite (bool_decide_false (v ∈ first_seen vs)) by done. rewrite take_snoc, length_app. simpl.
      destruct (Nat.ltb_spec (length (first_seen vs)) n).
      * rewrite (proj2 (Nat.leb_gt _ _)) by lia. simpl. rewrite !(proj2 (Nat.ltb_ge _ _)) by lia. done.
      * rewrite (proj2 (Nat.leb_le _ _)) by lia. simpl. rewrite orb_true_r.
        by rewrite (proj2 (Nat.ltb_lt _ _)) by lia.
Qed.

Lemma append_all_step n vs new :
  append_all n (seen_upto n vs) new =
    (seen_upto n (vs ++ new), (append_all n (seen_upto n vs) new).2) /\
  over n (vs ++ new) =
    over n vs || (append_all n (seen_upto n vs) new).2.
Proof.
  unfold append_all.
  assert (Hgen : forall new vs t, exists t',
    fold_left (fun '(acc, t) v => let '(acc, t') := append_unique_bounded acc v n in (acc, t || t'))
      new (seen_upto n vs, t) = (seen_upto n (vs ++ new), t || t') /\
    over n (vs ++ new) = over n vs || t').
  { clear. induction new as [|v new IH]; intros vs t; cbn [fold_left].
    - exists false. by rewrite !app_nil_r, !orb_false_r.
    - destruct (append_bounded_step n vs v) as [Ha Ho].
      destruct (append_unique_bounded (seen_upto n vs) v n) as [vs' t0].
      cbn [snd] in Ha, Ho. injection Ha as ->. destruct (IH (vs ++ [v]) (t || t0)) as (t' & -> & Ho').
      exists (t0 || t'). rewrite <-!app_assoc in Ho' |- *. cbn [app] in Ho' |- *.
      by rewrite Ho', Ho, !orb_assoc. }
  destruct (Hgen new vs false) as (t' & -> & ->). done.
Qed.

(** ** Indicator groups *)
Section TraceGroups.

Abbreviation hit := (trace_event * threat_match)%type.

Definition hit_key (h : hit) : IndicatorType * str := (tm_indicator_type h.2, tm_indicator h.2).
Definition hits_of (events : list trace_event) : list hit :=
  events ≫= fun e => (fun m => (e, m)) <$> te_threat_intel e.

Definition hit_ips (hits : list hit) : list str := hits ≫= fun h => [te_src_ip h.1; te_dst_ip h.1].
Definition worst_severity (ss : list Severity) : Severity := fold_left worst ss INFO.

(** The group of an indicator from its hits alone. *)
Definition group_of (k : IndicatorType * str) (hits : list hit) : group :=
  let cats := (fun h => tm_category h.2) <$> hits in
  let srcs := (fun h => tm_source h.2) <$> hits in
  let traces := (fun h => te_trace_id h.1) <$> hits in
  let observers := (fun h => te_host_id h.1) <$> hits in
  let ips := hit_ips hits in
  mkGroup k.2 k.1 (worst_severity ((fun h => tm_severity h.2) <$> hits))
    (seen_upto max_group_labels cats) (seen_upto max_group_labels srcs)
    (seen_upto max_related_ids traces) (seen_upto max_related_ids observers) (seen_upto max_related_ids ips)
    (over max_group_labels cats || over max_group_labels srcs || over max_related_ids traces ||
     over max_related_ids observers || over max_related_ids ips).

Lemma observe_group_of k hits h : observe h.1 h.2 (group_of k hits) = group_of k (hits ++ [h]).
Proof.
  unfold observe, group_of. cbn [gr_indicator gr_indicator_type gr_severity gr_categories gr_sources
    gr_trace_ids gr_observer_ids gr_endpoint_ips gr_evidence_truncated].
  rewrite !fmap_app. cbn [fmap list_fmap].
  destruct (append_bounded_step max_group_labels ((fun h => tm_category h.2) <$> hits) (tm_category h.2)) as [-> ->].
  destruct (append_bounded_step max_group_labels ((fun h => tm_source h.2) <$> hits) (tm_source h.2)) as [-> ->].
  destruct (append_bounded_step max_related_ids ((fun h => te_trace_id h.1) <$> hits) (te_trace_id h.1)) as [-> ->].
  destruct (append_bounded_step max_related_ids ((fun h => te_host_id h.1) <$> hits) (te_host_id h.1)) as [-> ->].
  assert (Hips : hit_ips (hits ++ [h]) = hit_ips hits ++ [te_src_ip h.1; te_dst_ip h.1]).
  { unfold hit_ips. by rewrite bind_app. }
  rewrite Hips. destruct (append_all_step max_related_ids (hit_ips hits) [te_src_ip h.1; te_dst_ip h.1]) as [-> ->].
  f_equal.
  - unfold worst_severity. by rewrite fold_left_app.
  - repeat match goal with |- context [(append_unique_bounded ?a ?b ?c).2] =>
      destruct (append_unique_bounded a b c).2 end; rewrite ?orb_true_r, ?orb_false_r; try done;
    by destruct (append_all _ _ _).2; rewrite ?orb_true_r, ?orb_false_r.
Qed.

Lemma new_group_of h : new_group h.2 = group_of (hit_key h) [].
Proof. done. Qed.

(** The nested loop is the grouping loop over the flattened hits. *)
Lemma collect_trace_hits events l :
  collect_trace events l =
  Guard.collect (fun h => Some (hit_key h)) (fun h => new_group h.2) (fun h => observe h.1 h.2)
    (u "trace_max_alerts") (hits_of events) [] l.
Proof.
  unfold collect_trace.
  set (loop := Guard.collect (fun h : hit => Some (hit_key h)) (fun h => new_group h.2) (fun h => observe h.1 h.2)
    (u "trace_max_alerts")).
  assert (Hone : forall (ms : list threat_match) e rest acc,
    loop (((fun m => (e, m)) <$> ms) ++ rest) acc.1 acc.2 =
    loop rest (fold_left (collect_match e) ms acc).1 (fold_left (collect_match e) ms acc).2).
  { induction ms as [|m ms IH]; intros e rest acc; [done|]. cbn [fmap list_fmap app fold_left].
    unfold loop. cbn [Guard.collect]. fold loop. destruct acc as [groups l0]. cbn [fst snd].
    rewrite <-IH. unfold collect_match, hit_key. cbn [fst snd].
    destruct (od_get _ groups); [done|]. by destruct (max_alerts_per_ingest <=? length groups)%nat. }
  assert (Hall : forall es acc, fold_left (fun acc e => fold_left (collect_match e) (te_threat_intel e) acc) es acc =
    loop (hits_of es) acc.1 acc.2).
  { induction es as [|e es IH]; intros acc; [by destruct acc|]. cbn [fold_left].
    unfold hits_of. rewrite bind_cons, Hone. apply IH. }
  apply Hall.
Qed.

(** Every group is the one of its own hits. *)
Lemma group_for_hits hits k g :
  group_for (fun h => Some (hit_key h)) (fun h => new_group h.2) (fun h => observe h.1 h.2) hits k = Some g ->
  g = group_of k (base.filter (fun h => hit_key h = k) hits).
Proof.
  unfold group_for. assert (Hm : mine (fun h => Some (hit_key h)) k hits = base.filter (fun h => hit_key h = k) hits).
  { unfold mine. apply list_filter_iff. intros h. naive_solver. }
  rewrite Hm. destruct (base.filter _ hits) as [|h hs] eqn:E; [done|]. intros [= <-].
  assert (Hk : hit_key h = k).
  { assert (Hin : h ∈ base.filter (fun h => hit_key h = k) hits) by (rewrite E; by left).
    by apply list_elem_of_filter in Hin as [? _]. }
  rewrite new_group_of, Hk, observe_group_of. simpl. clear Hm E Hk.
  change (h :: hs) with ([h] ++ hs). generalize [h] as pre.
  induction hs as [|x hs IH]; intros pre; simpl; [by rewrite app_nil_r|].
  rewrite observe_group_of, IH. by rewrite <-app_assoc.
Qed.
End TraceGroups.

(** ** Well-formed alerts *)
Section Alerts.
Context {U : Unicode}.

(** What the schemas guarantee of an identifier. *)
Definition clean (s : str) : Prop := trim s = s /\ (length s <= max_correlation_identifier)%nat.

Lemma hex_not_white c : hex_c c = true -> iswhite_c c = false.
Proof.
  unfold hex_c, iswhite_c, PyText.between. intros H.
  assert (48 <= c <= 102)%N as [H1 H2].
  { apply orb_true_iff in H as [H|H]; apply andb_true_iff in H as [?%N.leb_le ?%N.leb_le]; lia. }
  rewrite (proj2 (N.ltb_lt c 256)) by lia.
  rewrite (proj2 (N.leb_gt c 13)), andb_false_r by lia.
  by rewrite !(proj2 (N.eqb_neq c _)) by lia.
Qed.

Lemma alert_key_clean parts : clean (alert_key_for parts).
Proof.
  unfold clean, alert_key_for. split.
  - apply trim_none. apply Forall_app. split; [by repeat constructor|]. apply Forall_take.
    eapply Forall_impl; [apply sha1_hex_hex|]. intros c. apply hex_not_white.
  - rewrite length_app, length_take, sha1_hex_length. simpl. unfold max_correlation_identifier. lia.
Qed.

Lemma bounded_text_length s : (length (bounded_text s) <= max_alert_text_chars)%nat.
Proof.
  unfold bounded_text. destruct (Nat.leb_spec (length s) max_alert_text_chars); [done|].
  rewrite length_app, length_take. unfold max_alert_text_chars. simpl length. lia.
Qed.

Lemma bounded_id_length s : (length (bounded_id s) <= max_alert_id_chars)%nat.
Proof.
  unfold bounded_id. destruct (Nat.leb_spec (length s) max_alert_id_chars); [done|]. cbv zeta.
  rewrite !length_app, length_take, sha256_hex_length. unfold max_alert_id_chars. simpl length. lia.
Qed.

Lemma trim_short n s : (length s <= n)%nat -> short n (trim s) = true.
Proof. intros Hs. apply Nat.leb_le. etransitivity; [apply trim_length|done]. Qed.

(** The identifier lists an alert may carry. *)
Definition clean_ids (l : list str) : Prop := Forall clean l /\ (length l <= max_related_ids)%nat.

Lemma clean_ids_trim l : clean_ids l -> trim <$> l = l.
Proof. intros [Hl _]. induction Hl as [|s l [Hs _] _ IH]; csimpl; [done|]. by rewrite Hs, IH. Qed.

Lemma clean_ids_short l : clean_ids l ->
  (length l <=? max_nested_items)%nat && forallb (short max_correlation_identifier) l = true.
Proof.
  intros [Hl Hn]. apply andb_true_iff. split.
  - apply Nat.leb_le. unfold max_nested_items, max_related_ids in *. lia.
  - apply forallb_forall. intros s Hs. apply List.Forall_forall with (x := s) in Hl; [|done].
    by apply Nat.leb_le, Hl.
Qed.

Lemma clean_ids_nil : clean_ids [].
Proof. split; [constructor|simpl; lia]. Qed.

(** The alerts correlation builds always validate. *)
Lemma validate_alert_ok id parts sev n title description assets vulns traces truncated at_ :
  clean_ids assets -> clean_ids vulns -> clean_ids traces ->
  validate_alert (mkAlert (bounded_id id) (Some (alert_key_for parts)) sev (alert_score sev n)
    (bounded_text title) (bounded_text description) assets vulns traces truncated at_) =
  Ok (mkAlert (trim (bounded_id id)) (Some (alert_key_for parts)) sev (alert_score sev n)
    (trim (bounded_text title)) (trim (bounded_text description)) assets vulns traces truncated at_).
Proof.
  intros Ha Hv Ht. unfold validate_alert. cbn [al_alert_id al_alert_key al_severity al_score al_title
    al_description al_related_asset_ids al_related_vuln_ids al_related_trace_ids al_evidence_truncated
    al_created_at fmap option_fmap option_map].
  rewrite !clean_ids_trim by done. destruct (alert_key_clean parts) as [-> Hk].
  rewrite !clean_ids_short by done.
  rewrite (trim_short max_correlation_identifier) by apply bounded_id_length.
  unfold short at 1. rewrite (proj2 (Nat.leb_le _ _)) by done.
  destruct (alert_score_range sev n). rewrite (proj2 (Z.leb_le 0 _)), (proj2 (Z.leb_le _ 100)) by lia.
  by rewrite !trim_short by apply bounded_text_length.
Qed.

Lemma traverse_Forall2 {A B} (f : A -> res B) (P : A -> B -> Prop) l :
  (forall x, x ∈ l -> exists y, f x = Ok y /\ P x y) -> exists ys, traverse f l = Ok ys /\ Forall2 P l ys.
Proof.
  induction l as [|x l IH]; intros Hf; [by exists []|].
  destruct (Hf x) as (y & Hy & HP); [by left|]. destruct IH as (ys & Hys & HPs).
  { intros z Hz. apply Hf. by right. }
  exists (y :: ys). cbn [traverse]. rewrite Hy. simpl. rewrite Hys. split; [done|by constructor].
Qed.
End Alerts.

(** ** Trace correlation *)
Section TraceTheorems.
Context {U : Unicode}.

(** What the schema guarantees of a batch, and of the hosts of an index. *)
Definition valid_trace (batch : trace_batch) : Prop :=
  Forall (fun e => clean (te_trace_id e) /\ clean (te_host_id e)) (tb_events batch).
Definition valid_index (index : option (list (str * str))) : Prop :=
  match index with Some index => Forall (fun e => clean e.2) index | None => True end.

(** The hosts the index knows for the endpoints of some hits. *)
Definition hit_hosts (index : list (str * str)) (hits : list (trace_event * threat_match)) : list str :=
  omap (fun ip => od_get ip index) (hit_ips hits).

Lemma hits_of_event events h : h ∈ hits_of events -> h.1 ∈ events.
Proof. intros (e & Hh & He)%list_elem_of_bind. apply list_elem_of_fmap in Hh as (m & -> & _). done. Qed.

Lemma clean_fmap {A} (f : A -> str) l n : (n <= max_related_ids)%nat -> (forall x, x ∈ l -> clean (f x)) ->
  clean_ids (seen_upto n (f <$> l)).
Proof.
  intros Hn Hf. split; [|pose proof (seen_upto_length n (f <$> l)); lia].
  apply List.Forall_forall. intros s Hs%list_elem_of_In.
  apply seen_upto_elem in Hs. apply list_elem_of_fmap in Hs as (x & -> & Hx). by apply Hf.
Qed.

Lemma append_all_nil vs : append_all max_related_ids [] vs = (seen_upto max_related_ids vs, over max_related_ids vs).
Proof.
  destruct (append_all_step max_related_ids [] vs) as [Ha Ho]. change (seen_upto max_related_ids []) with (@nil str) in Ha, Ho.
  rewrite Ha. simpl in Ha, Ho |- *. by rewrite Ho.
Qed.

(** The assets an alert links to. *)
Lemma asset_ids_group k hits ip_index :
  (forall h, h ∈ hits -> clean (te_host_id h.1)) -> valid_index ip_index ->
  clean_ids (asset_ids (group_of k hits) ip_index) /\
  (gr_evidence_truncated (group_of k hits) = false ->
   match ip_index with
   | Some index => forall host, host ∈ hit_hosts index hits -> host ∈ asset_ids (group_of k hits) ip_index
   | None => forall h, h ∈ hits -> te_host_id h.1 ∈ asset_ids (group_of k hits) ip_index
   end).
Proof.
  intros Hh Hi.
  assert (Hobs : clean_ids (gr_observer_ids (group_of k hits))) by (by apply clean_fmap).
  unfold asset_ids. destruct ip_index as [index|].
  2:{ split; [done|]. intros Ht h Hin. cbn in Ht. repeat apply orb_false_iff in Ht as [Ht ?].
      apply seen_upto_complete; [done|]. apply list_elem_of_fmap. by exists h. }
  rewrite append_all_nil. cbn [fst]. set (hosts := omap _ (gr_endpoint_ips _)).
  assert (Hhosts : Forall clean hosts).
  { apply List.Forall_forall. intros s Hs%list_elem_of_In. apply list_elem_of_omap in Hs as (ip & _ & Hip).
    apply od_get_Some_elem in Hip. cbn in Hi. apply List.Forall_forall with (x := (ip, s)) in Hi; [done|].
    by apply list_elem_of_In. }
  assert (Hclean : clean_ids (seen_upto max_related_ids hosts)).
  { split; [|apply seen_upto_length]. apply List.Forall_forall. intros s Hs%list_elem_of_In.
    apply List.Forall_forall with (x := s) in Hhosts; [done|]. apply list_elem_of_In. by eapply seen_upto_elem. }
  split; [by destruct (seen_upto max_related_ids hosts)|].
  intros Ht host Hhost. cbn in Ht. apply orb_false_iff in Ht as [_ Hover].
  assert (Hlen : (length hosts <= max_related_ids)%nat).
  { unfold hosts. etransitivity; [apply omap_short|]. apply seen_upto_length. }
  assert (Hin : host ∈ hosts).
  { apply list_elem_of_omap in Hhost as (ip & Hip & Hget). apply list_elem_of_omap. exists ip.
    split; [|done]. by apply seen_upto_complete. }
  assert (Hin' : host ∈ seen_upto max_related_ids hosts).
  { apply seen_upto_complete; [|done]. apply Nat.ltb_ge. etransitivity; [|exact Hlen].
    apply first_seen_length. }
  destruct (seen_upto max_related_ids hosts); [by apply not_elem_of_nil in Hin'|done].
Qed.

Lemma collect_trace_spec events l :
  let hits := hits_of events in
  let keys := first_seen (hit_key <$> hits) in
  exists groups, collect_trace events l =
      (groups, if (max_alerts_per_ingest <? length keys)%nat then corr_mark (u "trace_max_alerts") l else l) /\
    groups = (fun k => (k, group_of k (base.filter (fun h => hit_key h = k) hits))) <$> take max_alerts_per_ingest keys.
Proof.
  intros hits keys. rewrite collect_trace_hits. fold hits.
  destruct (collect_spec (fun h => Some (hit_key h)) (fun h => new_group h.2) (fun h => observe h.1 h.2)
    (u "trace_max_alerts") hits l) as (groups & -> & Hg).
  assert (Hkeys : keys_of (fun h => Some (hit_key h)) hits = keys).
  { reflexivity. }
  exists groups. unfold marked. rewrite Hkeys. split; [done|].
  assert (Hlen : length groups = length (take max_alerts_per_ingest keys)).
  { rewrite (groups_length _ _ _ _ _ Hg). unfold table. by rewrite Hkeys. }
  apply list_eq_Forall2, Forall2_same_length_lookup_2; [by rewrite length_fmap|].
  intros i [k g] kg' Hi Hi'. rewrite list_lookup_fmap in Hi'.
  assert (Hlift : lift groups !! i = Some (k, Some g)) by (unfold lift; by rewrite list_lookup_fmap, Hi).
  rewrite Hg in Hlift. unfold grouped in Hlift. rewrite Hkeys, list_lookup_fmap in Hlift.
  destruct (take _ keys !! i) as [k'|]; [|done]. cbn in Hlift, Hi'.
  injection Hlift as -> Hgf. injection Hi' as <-. f_equal. by apply group_for_hits.
Qed.

(** C38. Each of the first 128 distinct indicators hit in a batch gets one
    alert, in first-seen order; it has the indicator's stable key, the worst
    severity among its hits, and the first 64 distinct trace ids; unless it is
    flagged truncated it names every trace and links every asset the index
    knows for an endpoint of its hits (every observer without an index).  Nothing
    raises, and the limit is marked exactly when indicators were left out. *)
Theorem correlate_trace_batch_spec batch ip_index l : valid_trace batch -> valid_index ip_index ->
  let hits := hits_of (tb_events batch) in
  let keys := first_seen (hit_key <$> hits) in
  exists alerts,
    correlate_trace_batch batch ip_index l =
      Ok (alerts, if (max_alerts_per_ingest <? length keys)%nat then corr_mark (u "trace_max_alerts") l else l) /\
    Forall2 (fun k a =>
      let own := base.filter (fun h => hit_key h = k) hits in
      al_alert_key a = Some (alert_key_for [u "ioc"; indicator_value k.1; k.2]) /\
      al_severity a = worst_severity ((fun h => tm_severity h.2) <$> own) /\
      al_related_trace_ids a = seen_upto max_related_ids ((fun h => te_trace_id h.1) <$> own) /\
      clean_ids (al_related_asset_ids a) /\
      (al_evidence_truncated a = false ->
        (forall h, h ∈ own -> te_trace_id h.1 ∈ al_related_trace_ids a) /\
        match ip_index with
        | Some index => forall host, host ∈ hit_hosts index own -> host ∈ al_related_asset_ids a
        | None => forall h, h ∈ own -> te_host_id h.1 ∈ al_related_asset_ids a
        end)) (take max_alerts_per_ingest keys) alerts.
Proof.
  intros Hb Hi hits keys. unfold correlate_trace_batch.
  destruct (collect_trace_spec (tb_events batch) l) as (groups & -> & ->). fold hits. fold keys.
  set (P := fun k a => _).
  destruct (traverse_Forall2 (fun kg => alert_for_group batch ip_index kg.2) (fun kg a => P kg.1 a)
    ((fun k => (k, group_of k (base.filter (fun h => hit_key h = k) hits))) <$> take max_alerts_per_ingest keys))
    as (alerts & Halerts & HP).
  - intros kg (k & -> & _)%list_elem_of_fmap. cbn [fst snd]. set (own := base.filter _ hits).
    assert (Hown : forall h, h ∈ own -> clean (te_trace_id h.1) /\ clean (te_host_id h.1)).
    { intros h [_ Hh]%list_elem_of_filter. apply hits_of_event, list_elem_of_In in Hh.
      by apply (proj1 (List.Forall_forall _ _) Hb) in Hh. }
    destruct (asset_ids_group k own ip_index) as [Hclean Hall]; [by apply Hown|done|].
    unfold alert_for_group. rewrite validate_alert_ok; [|done|apply clean_ids_nil|].
    2:{ apply clean_fmap; [done|]. by apply Hown. }
    eexists. split; [reflexivity|]. unfold P. cbn -[asset_ids group_of clean_ids]. fold own.
    split_and?; try done. intros Ht. split; [|by apply Hall].
    intros h Hh. cbn in Ht. repeat apply orb_false_iff in Ht as [Ht ?].
    apply seen_upto_complete; [done|]. apply list_elem_of_fmap. by exists h.
  - rewrite Halerts. exists alerts. split; [done|]. by apply Forall2_fmap_l in HP.
Qed.
End TraceTheorems.
