(* ===== verification/GuardProps.v ===== *)
(** * What guard and cross-source correlation promise

    Every guard event is covered by an alert; compound alerts and the keys of alerts. *)

From stdpp Require Import base sets strings numbers list sorting.
From Stdlib Require Import ZArith Lia.
From S2P Require Import Prelude PyText PyHash Compare Severity Osv Detect Correlate Guard CorrelateProps.

#[local] Open Scope Z_scope.

(** ** Severities only grow *)

Lemma worst_l s t : severity_rank s <= severity_rank (worst s t).
Proof. unfold worst. destruct (Z.ltb_spec (severity_rank s) (severity_rank t)); lia. Qed.
Lemma worst_r s t : severity_rank t <= severity_rank (worst s t).
Proof. unfold worst. destruct (Z.ltb_spec (severity_rank s) (severity_rank t)); lia. Qed.

(** ** One kind of finding

    [Q k es g] says that [g] is a group of the events [es] under the key [k]. *)
Section Kind.
Context {U : Unicode} {K G : Type} `{EqDecision K}.
Context (key : guard_event -> option K) (fresh : guard_event -> G) (add : guard_event -> G -> G) (reason : str).
Context (alert_of : K * G -> res alert) (valid : guard_event -> Prop) (covers : guard_event -> alert -> Prop).
Context (Q : K -> list guard_event -> G -> Prop).
Context (Q_first : forall k e, key e = Some k -> valid e -> Q k [e] (add e (fresh e))).
Context (Q_add : forall k es e g, Q k es g -> key e = Some k -> valid e -> Q k (es ++ [e]) (add e g)).
Context (Q_alert : forall k es g, Q k es g -> Forall valid es -> Forall (fun e => key e = Some k) es ->
  exists a, alert_of (k, g) = Ok a /\ clean_ids (al_related_asset_ids a) /\ forall e, e ∈ es -> covers e a).

Lemma group_for_Q events k g : Forall valid events -> group_for key fresh add events k = Some g ->
  Q k (mine key k events) g.
Proof using Q_first Q_add.
  intros Hv. unfold group_for. assert (Hm : Forall (fun e => valid e /\ key e = Some k) (mine key k events)).
  { apply List.Forall_forall. intros e He%list_elem_of_In. apply list_elem_of_filter in He as [He Hin].
    split; [|done]. apply list_elem_of_In in Hin. by apply (proj1 (List.Forall_forall _ _) Hv) in Hin. }
  destruct (mine key k events) as [|e es]; [done|]. intros [= <-].
  apply Forall_cons_1 in Hm as [[He Hk] Hes]. revert Hes.
  induction es as [|x es IH] using rev_ind; intros Hes; [by apply Q_first|].
  apply Forall_app in Hes as [Hes Hx]. apply Forall_cons_1 in Hx as [[Hx Hkx] _].
  rewrite fold_left_app. simpl. apply (Q_add k (e :: es)); [by apply IH|done|done].
Qed.

Lemma kind_covered events l : Forall valid events ->
  exists groups alerts,
    collect key fresh add reason events [] l = (groups, marked key reason events l) /\
    traverse alert_of groups = Ok alerts /\ (length alerts <= max_alerts_per_ingest)%nat /\
    Forall (fun a => clean_ids (al_related_asset_ids a)) alerts /\
    (cl_truncated (marked key reason events l) = false -> cl_truncated l = false /\
     forall e, e ∈ events -> key e <> None -> exists a, a ∈ alerts /\ covers e a).
Proof using Q_first Q_add Q_alert.
  intros Hv. destruct (collect_spec key fresh add reason events l) as (groups & -> & Hg). exists groups.
  destruct (traverse_Forall2 alert_of
    (fun kg a => clean_ids (al_related_asset_ids a) /\ forall e, e ∈ mine key kg.1 events -> covers e a) groups)
    as (alerts & Ha & HF).
  { intros [k g] Hin. apply list_elem_of_lookup in Hin as [i Hi].
    assert (Hl : lift groups !! i = Some (k, Some g)) by (unfold lift; by rewrite list_lookup_fmap, Hi).
    rewrite Hg in Hl. unfold grouped in Hl. rewrite list_lookup_fmap in Hl.
    destruct (take _ _ !! i) as [k'|]; [|done]. cbn in Hl. injection Hl as -> Hgf.
    destruct (Q_alert k (mine key k events) g) as (a & ? & ? & ?); [by apply group_for_Q| | |by exists a].
    - apply List.Forall_forall. intros e He%list_elem_of_In. apply list_elem_of_filter in He as [_ Hin].
      apply list_elem_of_In in Hin. by apply (proj1 (List.Forall_forall _ _) Hv) in Hin.
    - apply List.Forall_forall. intros e He%list_elem_of_In. by apply list_elem_of_filter in He as [He _]. }
  exists alerts. split; [done|]. split; [done|].
  assert (Hlen : length alerts = length (table key events)).
  { rewrite <-(groups_length key fresh add events groups Hg). symmetry. by eapply Forall2_length. }
  split; [rewrite Hlen; unfold table; rewrite length_take; lia|]. split.
  { clear -HF. induction HF as [|kg a gs as_ [Hc _] _ IH]; by constructor. }
  intros Ht. unfold marked in Ht. destruct (_ <? _)%nat eqn:Eover; [done|]. split; [done|].
  apply Nat.ltb_ge in Eover. intros e He Hke. destruct (key e) as [k|] eqn:Ek; [|done].
  assert (Hk : k ∈ table key events).
  { unfold table. rewrite take_ge by done. unfold keys_of. apply first_seen_elem, list_elem_of_omap. by exists e. }
  pose proof (groups_get key fresh add events groups k Hg) as Hget. rewrite bool_decide_true in Hget by done.
  destruct (proj1 (group_for_Some key fresh add events k) (table_elem key events k Hk)) as [g Hgk].
  rewrite Hgk in Hget. apply od_get_Some_elem, list_elem_of_lookup in Hget as [i Hi].
  destruct (Forall2_lookup_l _ _ _ _ _ HF Hi) as (a & Hai & _ & Hcov). exists a.
  split; [by eapply list_elem_of_lookup_2|]. apply Hcov. by apply list_elem_of_filter.
Qed.
End Kind.

(** ** The five kinds *)
Section GuardKinds.
Context {U : Unicode} (batch : guard_batch).

Definition event_base (e : guard_event) : guard_base :=
  match e with
  | FileIntegrityEvent b _ _ | MalwareEvent b _ _ _ | ProcessEvent b _ _ _ _ _
  | NetworkEvent b _ _ _ _ | IdsEvent b _ _ => b
  end.

(** The content that identifies a finding. *)
Definition event_key_parts (e : guard_event) : list str :=
  match e with
  | FileIntegrityEvent b path c => [u "guard-fim"; gb_host_id b; change_value c; path]
  | ProcessEvent b _ name _ rule _ => [u "guard-process"; gb_host_id b; rule; name]
  | NetworkEvent _ indicator itype _ _ => [u "ioc"; indicator_value itype; indicator]
  | MalwareEvent b _ signature _ => [u "guard-malware"; signature; gb_host_id b]
  | IdsEvent b id _ => [u "guard-ids"; id; gb_host_id b]
  end.

Definition valid_event (e : guard_event) : Prop := clean (gb_host_id (event_base e)).

(** The alert accounts for the event. *)
Definition covers (e : guard_event) (a : alert) : Prop :=
  al_alert_key a = Some (alert_key_for (event_key_parts e)) /\
  severity_rank (gb_severity (event_base e)) <= severity_rank (al_severity a) /\
  (al_evidence_truncated a = false -> gb_host_id (event_base e) ∈ al_related_asset_ids a).

(** The severity of a group is at least that of each of its events. *)
Definition dominates (sev : Severity) (es : list guard_event) : Prop :=
  Forall (fun e => severity_rank (gb_severity (event_base e)) <= severity_rank sev) es.

Lemma dominates_first e s : dominates (worst s (gb_severity (event_base e))) [e].
Proof. constructor; [apply worst_r|constructor]. Qed.

Lemma dominates_add s es e : dominates s es -> dominates (worst s (gb_severity (event_base e))) (es ++ [e]).
Proof.
  intros Hs. apply Forall_app. split; [|apply dominates_first].
  eapply Forall_impl; [exact Hs|]. intros x Hx. simpl in Hx. pose proof (worst_l s (gb_severity (event_base e))). lia.
Qed.

Lemma clean_ids_one h : clean h -> clean_ids [h].
Proof. intros Hh. split; [constructor; [done|constructor]|]. simpl. unfold max_related_ids. lia. Qed.

(** The alert of a single-host finding covers the group's events. *)
Lemma host_alert_covers id parts sev title description h truncated es :
  clean h -> dominates sev es ->
  Forall (fun e => event_key_parts e = parts /\ gb_host_id (event_base e) = h) es ->
  exists a, host_alert batch id parts sev title description [h] 1 truncated = Ok a /\
    clean_ids (al_related_asset_ids a) /\ forall e, e ∈ es -> covers e a.
Proof.
  intros Hh Hd Hes. unfold host_alert.
  rewrite validate_alert_ok by (done || apply clean_ids_nil || by apply clean_ids_one).
  eexists. split; [reflexivity|]. split; [by apply clean_ids_one|]. intros e He%list_elem_of_In.
  apply (proj1 (List.Forall_forall _ _) Hd) in He as Hs. apply (proj1 (List.Forall_forall _ _) Hes) in He as [<- <-].
  split; [done|]. split; [done|]. intros _. by left.
Qed.

(** A single-host kind: its key gives the key parts and the host. *)
Lemma host_of_key {K} (key : guard_event -> option K) (host : K -> str) (parts : K -> list str) k es :
  (forall e, key e = Some k -> event_key_parts e = parts k /\ gb_host_id (event_base e) = host k) ->
  Forall valid_event es -> Forall (fun e => key e = Some k) es -> es <> [] ->
  clean (host k) /\ Forall (fun e => event_key_parts e = parts k /\ gb_host_id (event_base e) = host k) es.
Proof.
  intros Hk Hv Hes Hne. split.
  - destruct es as [|e es]; [done|]. apply Forall_cons_1 in Hv as [Hv _]. apply Forall_cons_1 in Hes as [He _].
    destruct (Hk e He) as [_ <-]. exact Hv.
  - eapply Forall_impl; [exact Hes|]. exact Hk.
Qed.

Definition spec_of (alerts : corr_limit -> res (list alert * corr_limit)) (sel : guard_event -> Prop) : Prop :=
  Forall valid_event (bt_events batch) -> forall l, exists out l', alerts l = Ok (out, l') /\
    (length out <= max_alerts_per_ingest)%nat /\ Forall (fun a => clean_ids (al_related_asset_ids a)) out /\
    (cl_truncated l' = false -> cl_truncated l = false /\
     forall e, e ∈ bt_events batch -> sel e -> exists a, a ∈ out /\ covers e a).
End GuardKinds.

(** The kinds whose alert names one host. *)
Section HostKind.
Context {U : Unicode} (batch : guard_batch) {K G : Type} `{EqDecision K}.
Context (key : guard_event -> option K) (fresh : guard_event -> G) (add : guard_event -> G -> G) (reason : str).
Context (alert_of : K * G -> res alert) (sev : G -> Severity) (host : K -> str) (parts : K -> list str).
Context (sev_add : forall e g k, key e = Some k -> sev (add e g) = worst (sev g) (gb_severity (event_base e))).
Context (key_parts : forall e k, key e = Some k ->
  event_key_parts e = parts k /\ gb_host_id (event_base e) = host k).
Context (alert_shape : forall k g, exists id title description truncated,
  alert_of (k, g) = host_alert batch id (parts k) (sev g) title description [host k] 1 truncated).

Lemma host_kind_covered :
  spec_of batch (fun l =>
    let '(groups, l) := collect key fresh add reason (bt_events batch) [] l in
    alerts ← traverse alert_of groups; Ok (alerts, l)) (fun e => key e <> None).
Proof using sev_add key_parts alert_shape.
  intros Hv l.
  destruct (kind_covered key fresh add reason alert_of valid_event covers
    (fun _ es g => es <> [] /\ dominates (sev g) es)) with (events := bt_events batch) (l := l)
    as (groups & alerts & -> & -> & Hlen & Hc & Hcov); [| | |done|].
  - intros k e Hk _. split; [done|]. rewrite (sev_add _ _ _ Hk). apply dominates_first.
  - intros k es e g [_ Hd] Hk _. split; [by destruct es|]. rewrite (sev_add _ _ _ Hk). by apply dominates_add.
  - intros k es g [Hne Hd] Hes Hkes.
    destruct (host_of_key key host parts k es) as [Hh Hparts]; [intros; by apply key_parts|done..|].
    destruct (alert_shape k g) as (id & title & description & truncated & ->). by apply host_alert_covers.
  - exists alerts. by eexists.
Qed.
End HostKind.

Section GuardTheorems.
Context {U : Unicode} (batch : guard_batch).

Lemma fim_covered : spec_of batch (fim_alerts batch) (fun e => fim_key e <> None).
Proof.
  apply (host_kind_covered batch fim_key _ fim_add _ (fim_alert batch) fg_sev (fun k => k.1.1)
    (fun k => [u "guard-fim"; k.1.1; change_value k.2; k.1.2])).
  - intros [] g k Hk; try done. unfold fim_add. by destruct (append_action _ _ _).
  - intros [] k Hk; try done. by injection Hk as <-.
  - intros [[h p] c] g. by do 4 eexists.
Qed.

Lemma process_covered : spec_of batch (process_alerts batch) (fun e => process_key e <> None).
Proof.
  apply (host_kind_covered batch process_key _ process_add _ (process_alert batch) pg_sev (fun k => k.1.1)
    (fun k => [u "guard-process"; k.1.1; k.1.2; k.2])).
  - intros [] g k Hk; try done. unfold process_add. repeat case_match; done.
  - intros [] k Hk; try done. by injection Hk as <-.
  - intros [[h r] n] g. by do 4 eexists.
Qed.

Lemma malware_covered : spec_of batch (malware_alerts batch) (fun e => malware_key e <> None).
Proof.
  apply (host_kind_covered batch malware_key _ malware_add _ (malware_alert batch) mg_sev (fun k => k.2)
    (fun k => [u "guard-malware"; k.1; k.2])).
  - intros [] g k Hk; try done. unfold malware_add. repeat case_match; done.
  - intros [] k Hk; try done. by injection Hk as <-.
  - intros [s h] g. by do 4 eexists.
Qed.

Lemma ids_covered : spec_of batch (ids_alerts batch) (fun e => ids_key e <> None).
Proof.
  apply (host_kind_covered batch ids_key _ ids_add _ (ids_alert batch) ig_sev (fun k => k.2)
    (fun k => [u "guard-ids"; k.1; k.2])).
  - by intros [] g k Hk.
  - intros [] k Hk; try done. by injection Hk as <-.
  - intros [s h] g. by do 4 eexists.
Qed.

(** A network group: its hosts are hosts of its events, all of them unless it
    is truncated. *)
Definition network_inv (es : list guard_event) (g : network_group) : Prop :=
  dominates (ng_sev g) es /\ clean_ids (ng_hosts g) /\
  (ng_truncated g = false -> forall e, e ∈ es -> gb_host_id (event_base e) ∈ ng_hosts g).

Lemma append_bounded_keeps (P : str -> Prop) items v n : (length items <= n)%nat -> Forall P items -> P v ->
  let r := append_unique_bounded items v n in
  Forall P r.1 /\ (length r.1 <= n)%nat /\ items `sublist_of` r.1 /\ (r.2 = false -> v ∈ r.1).
Proof.
  intros Hn Hi Hv. unfold append_unique_bounded. case_bool_decide; [done|].
  destruct (Nat.leb_spec n (length items)); [done|]. cbn. rewrite length_app. simpl.
  split; [apply Forall_app; split; [done|by repeat constructor]|]. split; [lia|].
  split; [by apply sublist_inserts_r|]. intros _. set_solver.
Qed.

Lemma append_group_keeps (P : str -> Prop) t items v n : (length items <= n)%nat -> Forall P items -> P v ->
  let r := append_group t items v n in
  Forall P r.1 /\ (length r.1 <= n)%nat /\ items `sublist_of` r.1 /\ (r.2 = false -> t = false /\ v ∈ r.1).
Proof.
  intros Hn Hi Hv. unfold append_group. destruct t; [done|].
  destruct (append_bounded_keeps P items v n Hn Hi Hv) as (? & ? & ? & Hin). split_and?; try done.
  intros Hf. split; [done|by apply Hin].
Qed.

Lemma append_action_flag t acts a : (append_action t acts a).2 = false -> t = false.
Proof. unfold append_action, append_group. by destruct a, t. Qed.
Lemma append_group_flag t items v n : (append_group t items v n).2 = false -> t = false.
Proof. unfold append_group. by destruct t. Qed.

Lemma network_inv_add es e g k : network_inv es g -> network_key e = Some k -> valid_event e ->
  network_inv (es ++ [e]) (network_add e g).
Proof.
  intros (Hd & [Hc Hl] & Hall) Hk He. destruct e as [| | |b indicator itype category source|]; try done.
  unfold network_add.
  destruct (append_group (ng_truncated g) _ _ _) as [cats t1] eqn:E1.
  destruct (append_group t1 _ _ _) as [srcs t2] eqn:E2.
  pose proof (append_group_keeps clean t2 (ng_hosts g) (gb_host_id b) max_related_ids Hl Hc He) as (Hc' & Hl' & Hs & Hin).
  destruct (append_group t2 (ng_hosts g) _ _) as [hosts t3]. destruct (append_action t3 _ _) as [acts t4] eqn:E4.
  cbn in Hc', Hl', Hs, Hin. split; [by apply (dominates_add _ _ (NetworkEvent b indicator itype category source))|].
  split; [done|]. cbn [ng_truncated ng_hosts]. intros ->.
  pose proof (append_action_flag t3 (ng_acts g) (gb_action_taken b)) as H4. rewrite E4 in H4. specialize (H4 eq_refl).
  destruct (Hin H4) as [H3 Hin'].
  pose proof (append_group_flag t1 (ng_srcs g) source max_group_labels) as H2. rewrite E2 in H2. specialize (H2 H3).
  pose proof (append_group_flag (ng_truncated g) (ng_cats g) category max_group_labels) as H1.
  rewrite E1 in H1. specialize (H1 H2).
  intros x [Hx| ->%list_elem_of_singleton]%elem_of_app; [|done].
  eapply elem_of_sublist; [by apply Hall|exact Hs].
Qed.

Lemma network_covered : spec_of batch (network_alerts batch) (fun e => network_key e <> None).
Proof.
  intros Hv l.
  destruct (kind_covered network_key (fun _ => mkNetwork INFO [] [] [] [] 0 false) network_add
    (u "guard_network_max_alerts") (network_alert batch) valid_event covers (fun _ => network_inv))
    with (events := bt_events batch) (l := l) as (groups & alerts & Hg & Ha & Hlen & Hc & Hcov); [| | |done|].
  - intros k e Hk He. apply (network_inv_add [] e _ k); [|done..].
    split; [constructor|]. split; [apply clean_ids_nil|]. intros _ x Hx. by apply not_elem_of_nil in Hx.
  - intros k es e g Hg Hk He. by eapply network_inv_add.
  - intros [ty ind] es g (Hd & Hc & Hall) Hes Hkes. unfold network_alert, host_alert. cbv zeta.
    rewrite validate_alert_ok by (done || apply clean_ids_nil). eexists. split; [reflexivity|]. split; [done|].
    intros e He. split; [|split; [|by intros; apply Hall]].
    + apply list_elem_of_In in He. apply (proj1 (List.Forall_forall _ _) Hkes) in He.
      destruct e; try done. by injection He as <- <-.
    + apply list_elem_of_In in He. by apply (proj1 (List.Forall_forall _ _) Hd) in He.
  - unfold network_alerts. rewrite Hg, Ha. exists alerts. by eexists.
Qed.
Lemma every_event_has_a_kind e :
  fim_key e <> None \/ process_key e <> None \/ network_key e <> None \/ malware_key e <> None \/ ids_key e <> None.
Proof. destruct e; simpl; naive_solver. Qed.

(** C39. Every guard event is accounted for: unless the limit state says alerts
    were left out, the batch has an alert with the event's stable key, at least
    its severity, and - unless the alert's evidence is flagged truncated - its
    host among the related assets.  There are at most 128 alerts, each with at
    most 64 valid asset ids, and nothing raises. *)
Theorem guard_events_covered l : Forall valid_event (bt_events batch) ->
  exists alerts l', correlate_guard_batch batch l = Ok (alerts, l') /\
    (length alerts <= max_alerts_per_ingest)%nat /\
    Forall (fun a => clean_ids (al_related_asset_ids a)) alerts /\
    (cl_truncated l' = false -> forall e, e ∈ bt_events batch -> exists a, a ∈ alerts /\ covers e a).
Proof.
  intros Hv. unfold correlate_guard_batch.
  destruct (fim_covered Hv l) as (a1 & l1 & -> & _ & C1 & T1). cbn [mbind res_bind].
  destruct (process_covered Hv l1) as (a2 & l2 & -> & _ & C2 & T2). cbn [mbind res_bind].
  destruct (network_covered Hv l2) as (a3 & l3 & -> & _ & C3 & T3). cbn [mbind res_bind].
  destruct (malware_covered Hv l3) as (a4 & l4 & -> & _ & C4 & T4). cbn [mbind res_bind].
  destruct (ids_covered Hv l4) as (a5 & l5 & -> & _ & C5 & T5). cbn [mbind res_bind].
  cbv zeta. set (all := a1 ++ a2 ++ a3 ++ a4 ++ a5).
  eexists _, _. split; [reflexivity|]. split; [rewrite length_take; lia|].
  assert (Hall : Forall (fun a => clean_ids (al_related_asset_ids a)) all) by (unfold all; by rewrite !Forall_app).
  split; [by apply Forall_take|].
  destruct (Nat.ltb_spec max_alerts_per_ingest (length all)); [done|]. rewrite take_ge by done.
  intros (Ht4 & H5)%T5. destruct (T4 Ht4) as (Ht3 & H4). destruct (T3 Ht3) as (Ht2 & H3).
  destruct (T2 Ht2) as (Ht1 & H2). destruct (T1 Ht1) as (_ & H1).
  intros e He. unfold all. setoid_rewrite elem_of_app. setoid_rewrite elem_of_app.
  setoid_rewrite elem_of_app. setoid_rewrite elem_of_app.
  destruct (every_event_has_a_kind e) as [K|[K|[K|[K|K]]]];
    [destruct (H1 e He K)|destruct (H2 e He K)|destruct (H3 e He K)|destruct (H4 e He K)|destruct (H5 e He K)];
    naive_solver.
Qed.
End GuardTheorems.

(** ** Compound alerts, and keys of alerts *)

(** ** The worst severity of each host *)

Definition host_severities (detections : list detection_result) : list (str * Severity) :=
  detections ≫= fun d => (fun v => (dr_host_id d, vu_severity v)) <$> dr_vulnerabilities d.

Definition worst_table (m : list (str * Severity)) (seen : list (str * Severity)) : Prop :=
  forall h, match od_get h m with
            | None => forall p, p ∈ seen -> p.1 <> h
            | Some s => (h, s) ∈ seen /\ forall p, p ∈ seen -> p.1 = h -> severity_rank p.2 <= severity_rank s
            end.

Lemma worst_table_keep m seen h s :
  worst_table m seen -> (exists t, od_get h m = Some t /\ severity_rank s <= severity_rank t) ->
  worst_table m (seen ++ [(h, s)]).
Proof.
  intros Hm (t & Ht & Hle) h'. specialize (Hm h'). destruct (od_get h' m) as [t'|] eqn:E.
  - destruct Hm as [Hin Hmax]. split; [set_solver|]. intros p [Hp| ->%list_elem_of_singleton]%elem_of_app Hph; [by apply Hmax|].
    simpl in Hph. subst. simpl. congruence.
  - intros p [Hp| ->%list_elem_of_singleton]%elem_of_app; [by apply Hm|]. simpl. intros ->. congruence.
Qed.

Lemma worst_table_set m seen h s :
  worst_table m seen -> (forall t, od_get h m = Some t -> severity_rank t <= severity_rank s) ->
  worst_table (od_set h s m) (seen ++ [(h, s)]).
Proof.
  intros Hm Ht h'. rewrite od_get_set. case_decide as Hh.
  - subst. split; [set_solver|]. intros p [Hp| ->%list_elem_of_singleton]%elem_of_app Hph; [|simpl; lia].
    specialize (Hm h). destruct (od_get h m) as [t|]; [|by destruct (Hm p Hp)].
    etransitivity; [by apply Hm|by apply Ht].
  - specialize (Hm h'). destruct (od_get h' m) as [t|].
    + destruct Hm as [Hin Hmax]. split; [set_solver|].
      intros p [Hp| ->%list_elem_of_singleton]%elem_of_app Hph; [by apply Hmax|]. simpl in Hph. congruence.
    + intros p [Hp| ->%list_elem_of_singleton]%elem_of_app; [by apply Hm|]. simpl. congruence.
Qed.

Lemma worst_severity_spec detections : worst_table (worst_severity_by_host detections) (host_severities detections).
Proof.
  unfold worst_severity_by_host, host_severities.
  assert (Hone : forall (d : detection_result) vs m seen, worst_table m seen ->
    worst_table (fold_left (fun m v =>
      match od_get (dr_host_id d) m with
      | Some current =>
          if severity_rank current <? severity_rank (vu_severity v) then od_set (dr_host_id d) (vu_severity v) m else m
      | None => od_set (dr_host_id d) (vu_severity v) m
      end) vs m) (seen ++ ((fun v => (dr_host_id d, vu_severity v)) <$> vs))).
  { intros d. induction vs as [|v vs IH]; intros m seen Hm; [by rewrite app_nil_r|].
    cbn [fold_left fmap list_fmap]. change (?x :: ?l) with ([x] ++ l). rewrite app_assoc. apply IH.
    destruct (od_get (dr_host_id d) m) as [t|] eqn:E.
    - destruct (Z.ltb_spec (severity_rank t) (severity_rank (vu_severity v))).
      + apply worst_table_set; [done|]. intros t' Ht'. assert (t' = t) as -> by congruence. lia.
      + apply worst_table_keep; [done|]. by exists t.
    - apply worst_table_set; [done|]. intros t' Ht'. congruence. }
  assert (Hall : forall ds m seen, worst_table m seen -> worst_table
    (fold_left (fun m d => fold_left (fun m v =>
      match od_get (dr_host_id d) m with
      | Some current =>
          if severity_rank current <? severity_rank (vu_severity v) then od_set (dr_host_id d) (vu_severity v) m else m
      | None => od_set (dr_host_id d) (vu_severity v) m
      end) (dr_vulnerabilities d) m) ds m)
    (seen ++ (ds ≫= fun d => (fun v => (dr_host_id d, vu_severity v)) <$> dr_vulnerabilities d))).
  { induction ds as [|d ds IH]; intros m seen Hm; [by rewrite app_nil_r|].
    cbn [fold_left]. rewrite bind_cons, app_assoc. apply IH, Hone, Hm. }
  apply (Hall detections [] []). intros h p Hp. by apply not_elem_of_nil in Hp.
Qed.

(** A host with a high or critical finding. *)
Definition risky (detections : list detection_result) (h : str) : Prop :=
  exists d v, d ∈ detections /\ dr_host_id d = h /\ v ∈ dr_vulnerabilities d /\
    severity_rank HIGH <= severity_rank (vu_severity v).

Lemma host_severities_elem detections h s :
  (h, s) ∈ host_severities detections <->
  exists d v, d ∈ detections /\ dr_host_id d = h /\ v ∈ dr_vulnerabilities d /\ vu_severity v = s.
Proof.
  unfold host_severities. rewrite list_elem_of_bind. split.
  - intros (d & (v & [= -> ->] & Hv)%list_elem_of_fmap & Hd). by exists d, v.
  - intros (d & v & Hd & <- & Hv & <-). exists d. split; [|done]. apply list_elem_of_fmap. by exists v.
Qed.

Lemma high_risk_rank s : high_risk (Some s) = true <-> severity_rank HIGH <= severity_rank s.
Proof. destruct s; simpl; intuition (try lia; try done). Qed.

Lemma high_risk_risky detections h :
  high_risk (od_get h (worst_severity_by_host detections)) = true <-> risky detections h.
Proof.
  pose proof (worst_severity_spec detections h) as Hw. unfold risky. split.
  - destruct (od_get h _) as [s|]; [|done]. rewrite high_risk_rank. intros Hs. destruct Hw as [Hin _].
    apply host_severities_elem in Hin as (d & v & ? & ? & ? & <-). by exists d, v.
  - intros (d & v & Hd & Hh & Hv & Hs).
    assert (Hin : (h, vu_severity v) ∈ host_severities detections) by (apply host_severities_elem; by exists d, v).
    destruct (od_get h _) as [s|].
    + rewrite high_risk_rank. destruct Hw as [_ Hmax]. specialize (Hmax _ Hin eq_refl). simpl in Hmax. lia.
    + by destruct (Hw _ Hin).
Qed.

Lemma risky_hosts_elem detections related h :
  h ∈ risky_hosts (worst_severity_by_host detections) related <-> h ∈ related /\ risky detections h.
Proof.
  unfold risky_hosts. rewrite isort_elem, elem_of_remove_dups, list_elem_of_filter, high_risk_risky. tauto.
Qed.

(** ** The finding ids of a set of hosts *)

Definition risky_ids (detections : list detection_result) (hosts : list str) (min_rank : Z) : list str :=
  detections ≫= fun d =>
    if bool_decide (dr_host_id d ∈ hosts)
    then vu_id <$> base.filter (fun v => min_rank <= severity_rank (vu_severity v)) (dr_vulnerabilities d) else [].

Definition vuln_state (l0 : corr_limit) (ids : list str) (st : list str * list str * corr_limit) : Prop :=
  st.1.1 = seen_upto max_related_ids ids /\ (forall x, x ∈ st.1.2 <-> x ∈ ids) /\
  cl_truncated st.2 = cl_truncated l0 || over max_related_ids ids.

Lemma collect_vuln_id_step l0 min_rank ids st v : vuln_state l0 ids st ->
  vuln_state l0 (ids ++ (if decide (min_rank <= severity_rank (vu_severity v)) then [vu_id v] else []))
    (collect_vuln_id min_rank st v).
Proof.
  destruct st as [[out seen] l]. intros (Ho & Hs & Hl). cbn [fst snd] in Ho, Hs, Hl. subst out. unfold collect_vuln_id.
  case_decide as Hr; [rewrite (proj2 (Z.ltb_ge _ _)) by done|
    rewrite (proj2 (Z.ltb_lt _ _)) by lia; by rewrite app_nil_r].
  unfold vuln_state, seen_upto, over. rewrite first_seen_snoc. unfold see.
  destruct (decide (vu_id v ∈ seen)) as [Hin|Hin].
  - rewrite (bool_decide_true (vu_id v ∈ seen)) by done.
    rewrite bool_decide_true by by apply first_seen_elem, Hs. split; [done|]. split; [|done].
    intros x. cbn. rewrite Hs, elem_of_app, list_elem_of_singleton. rewrite Hs in Hin. naive_solver.
  - rewrite (bool_decide_false (vu_id v ∈ seen)) by done.
    rewrite (bool_decide_false (vu_id v ∈ first_seen ids)) by (by rewrite first_seen_elem, <-Hs).
    assert (Hseen : forall x, x ∈ vu_id v :: seen <-> x ∈ ids ++ [vu_id v]).
    { intros x. rewrite elem_of_cons, Hs, elem_of_app, list_elem_of_singleton. tauto. }
    rewrite length_take, length_app. cbn [length]. rewrite take_snoc.
    destruct (Nat.ltb_spec (length (first_seen ids)) max_related_ids).
    + rewrite (proj2 (Nat.leb_gt _ _)) by lia. split; [done|]. split; [done|]. cbn [snd]. rewrite Hl. unfold over.
      by rewrite !(proj2 (Nat.ltb_ge _ _)) by lia.
    + rewrite (proj2 (Nat.leb_le _ _)) by lia. split; [done|]. split; [done|]. cbn [snd corr_mark cl_truncated].
      by rewrite (proj2 (Nat.ltb_lt _ _)), orb_true_r by lia.
Qed.

Lemma collect_vuln_ids l0 min_rank vs ids st : vuln_state l0 ids st ->
  vuln_state l0 (ids ++ (vu_id <$> base.filter (fun v => min_rank <= severity_rank (vu_severity v)) vs))
    (fold_left (collect_vuln_id min_rank) vs st).
Proof.
  revert ids st. induction vs as [|v vs IH]; intros ids st Hst; [by rewrite app_nil_r|].
  cbn [fold_left]. apply (collect_vuln_id_step l0 min_rank ids st v), IH in Hst.
  rewrite filter_cons. case_decide; csimpl; rewrite <-app_assoc in Hst; exact Hst.
Qed.

(** [vuln_ids_for_hosts]: the first 64 distinct ids, and whether there are more. *)
Lemma vuln_ids_spec detections hosts min_rank l :
  let r := vuln_ids_for_hosts detections hosts min_rank l in
  r.1 = seen_upto max_related_ids (risky_ids detections hosts min_rank) /\
  cl_truncated r.2 = cl_truncated l || over max_related_ids (risky_ids detections hosts min_rank).
Proof.
  unfold vuln_ids_for_hosts.
  assert (Hall : forall ds ids st, vuln_state l ids st -> vuln_state l (ids ++ risky_ids ds hosts min_rank)
    (fold_left (fun acc d => if bool_decide (dr_host_id d ∈ hosts)
       then fold_left (collect_vuln_id min_rank) (dr_vulnerabilities d) acc else acc) ds st)).
  { induction ds as [|d ds IH]; intros ids st Hst; [by rewrite app_nil_r|].
    cbn [fold_left]. unfold risky_ids. rewrite bind_cons, app_assoc. apply IH.
    destruct (bool_decide _); [by apply collect_vuln_ids|by rewrite app_nil_r]. }
  assert (H0 : vuln_state l [] ([], [], l)).
  { split; [done|]. split; [done|]. by rewrite orb_false_r. }
  specialize (Hall detections [] _ H0). destruct (fold_left _ detections _) as [[ids seen] l'].
  destruct Hall as (? & _ & ?). done.
Qed.

Lemma risky_ids_elem detections hosts min_rank x :
  x ∈ risky_ids detections hosts min_rank <->
  exists d v, d ∈ detections /\ dr_host_id d ∈ hosts /\ v ∈ dr_vulnerabilities d /\ vu_id v = x /\
    min_rank <= severity_rank (vu_severity v).
Proof.
  unfold risky_ids. rewrite list_elem_of_bind. split.
  - intros (d & Hx & Hd). case_bool_decide; [|by apply not_elem_of_nil in Hx].
    apply list_elem_of_fmap in Hx as (v & -> & [Hr Hv]%list_elem_of_filter). by exists d, v.
  - intros (d & v & Hd & Hh & Hv & <- & Hr). exists d. rewrite bool_decide_true by done. split; [|done].
    apply list_elem_of_fmap. exists v. split; [done|]. by apply list_elem_of_filter.
Qed.

(** ** The compound alerts *)
Section Compound.
Context {U : Unicode} (batch_id : str) (collected_at : Z) (detections : list detection_result).

Abbreviation table := (worst_severity_by_host detections).

Lemma worst_of_hosts related hosts : hosts <> [] -> hosts ⊆ risky_hosts table related ->
  exists s, worst_of table hosts = Ok s /\
    forall d v, d ∈ detections -> dr_host_id d ∈ hosts -> v ∈ dr_vulnerabilities d ->
      severity_rank (vu_severity v) <= severity_rank s.
Proof.
  intros Hne Hsub. unfold worst_of.
  assert (Hget : forall h, h ∈ hosts -> exists s, od_get h table = Some s).
  { intros h Hh%Hsub. apply risky_hosts_elem in Hh as [_ Hr%high_risk_risky]. destruct (od_get h table); [by eexists|done]. }
  assert (Hmax : forall h s, h ∈ hosts -> od_get h table = Some s -> s ∈ omap (fun h => od_get h table) hosts).
  { intros h s Hh Hs. apply list_elem_of_omap. by exists h. }
  destruct (omap (fun h => od_get h table) hosts) as [|s ss].
  { exfalso. destruct hosts as [|h hosts]; [done|]. destruct (Hget h) as [s Hs]; [by left|].
    apply (Hmax h s) in Hs; [|by left]. by apply not_elem_of_nil in Hs. }
  eexists. split; [reflexivity|]. intros d v Hd Hh Hv.
  destruct (Hget _ Hh) as [t Ht]. pose proof (worst_severity_spec detections (dr_host_id d)) as Hw.
  rewrite Ht in Hw. destruct Hw as [_ Hw].
  assert (Hin : (dr_host_id d, vu_severity v) ∈ host_severities detections) by (apply host_severities_elem; by exists d, v).
  specialize (Hw _ Hin eq_refl). simpl in Hw.
  destruct (max_by_spec severity_rank s ss) as [_ Hall].
  specialize (Hmax _ _ Hh Ht). apply list_elem_of_In in Hmax.
  apply (proj1 (List.Forall_forall _ _) Hall) in Hmax. simpl in Hmax. lia.
Qed.

(** The schemas' guarantees for the inputs. *)
Definition valid_source (a : alert) : Prop := Forall clean (al_related_asset_ids a) /\ Forall clean (al_related_trace_ids a).
Definition valid_detections : Prop :=
  Forall (fun d => Forall (fun v => clean (vu_id v)) (dr_vulnerabilities d)) detections.

(** What a compound alert [x] of [a] says. *)
Definition compound_of (r : rule) (a x : alert) : Prop :=
  let risky := risky_hosts table (al_related_asset_ids a) in
  let hosts := take max_related_ids risky in
  al_related_asset_ids x = hosts /\
  al_alert_key x = Some (alert_key_for [rl_key_kind r; key_or_id a; join (u ",") hosts]) /\
  severity_rank (al_severity a) <= severity_rank (al_severity x) /\
  (forall d v, d ∈ detections -> dr_host_id d ∈ hosts -> v ∈ dr_vulnerabilities d ->
     severity_rank (vu_severity v) <= severity_rank (al_severity x)) /\
  al_related_vuln_ids x = seen_upto max_related_ids (risky_ids detections hosts (severity_rank HIGH)) /\
  (al_evidence_truncated x = false ->
     al_evidence_truncated a = false /\ hosts = risky /\
     forall d v, d ∈ detections -> dr_host_id d ∈ risky -> v ∈ dr_vulnerabilities d ->
       severity_rank HIGH <= severity_rank (vu_severity v) -> vu_id v ∈ al_related_vuln_ids x).

Lemma clean_take l : Forall clean l -> clean_ids (take max_related_ids l).
Proof. intros Hl. split; [by apply Forall_take|]. rewrite length_take. lia. Qed.

Lemma clean_risky_ids hosts min_rank : valid_detections ->
  clean_ids (seen_upto max_related_ids (risky_ids detections hosts min_rank)).
Proof.
  intros Hv. split; [|apply seen_upto_length]. apply List.Forall_forall. intros x Hx%list_elem_of_In.
  apply seen_upto_elem, risky_ids_elem in Hx as (d & v & Hd & _ & Hin & <- & _).
  apply list_elem_of_In in Hd. apply (proj1 (List.Forall_forall _ _) Hv) in Hd.
  apply list_elem_of_In in Hin. by apply (proj1 (List.Forall_forall _ _) Hd) in Hin.
Qed.

Lemma compound_ok r a l : valid_detections -> valid_source a ->
  risky_hosts table (al_related_asset_ids a) <> [] ->
  exists x l', compound batch_id collected_at detections r table a (risky_hosts table (al_related_asset_ids a)) l =
      Ok (x, l') /\ compound_of r a x /\ (cl_truncated l = true -> cl_truncated l' = true).
Proof.
  intros Hd [Ha Ht] Hne. unfold compound. set (risky := risky_hosts table (al_related_asset_ids a)) in *.
  set (hosts := take max_related_ids risky).
  assert (Hhne : hosts <> []) by (unfold hosts; clearbody risky; destruct risky; [done|discriminate]).
  assert (Hsub : hosts ⊆ risky) by (intros h (i & Hi & _)%elem_of_take; by eapply list_elem_of_lookup_2).
  destruct (worst_of_hosts (al_related_asset_ids a) hosts Hhne Hsub) as (s & -> & Hs). cbn [mbind res_bind].
  set (ev := if (length hosts <? length risky)%nat then _ else _).
  destruct (vuln_ids_for_hosts detections hosts (severity_rank HIGH) ev) as [ids ev'] eqn:Ev.
  destruct (vuln_ids_spec detections hosts (severity_rank HIGH) ev) as [Hids Hev]. rewrite Ev in Hids, Hev.
  cbn [fst snd] in Hids, Hev. subst ids.
  match goal with |- context [let '(_, _) := ?m in _] => destruct m as [traces ev''] eqn:Et end.
  assert (Htr : clean_ids traces /\ (cl_truncated ev'' = false -> cl_truncated ev' = false)).
  { destruct (rl_trace_reason r) as [reason|]; injection Et as <- <-.
    - split; [by apply clean_take|]. by case_match.
    - split; [apply clean_ids_nil|done]. }
  destruct Htr as [Htr Hflag].
  assert (Hrisky : Forall clean risky).
  { apply List.Forall_forall. intros h Hh%list_elem_of_In. apply risky_hosts_elem in Hh as [Hh _].
    apply list_elem_of_In in Hh. by apply (proj1 (List.Forall_forall _ _) Ha) in Hh. }
  cbv zeta. rewrite validate_alert_ok by first [done | by apply clean_take | by apply clean_risky_ids].
  cbn [mbind res_bind]. eexists _, _. split; [reflexivity|]. split.
  - unfold compound_of. cbv zeta. fold risky. fold hosts. cbn -[worst severity_rank seen_upto take].
    split; [done|]. split; [done|]. split; [apply worst_l|]. split.
    { intros d v ? ? ?. etransitivity; [by eapply Hs|apply worst_r]. }
    split; [done|]. intros [Hta Hte]%orb_false_iff. split; [done|]. apply Hflag in Hte. rewrite Hte in Hev.
    symmetry in Hev. apply orb_false_iff in Hev as [Hev Hover].
    assert (Hall : hosts = risky).
    { unfold ev in Hev. unfold hosts in *. rewrite length_take in Hev. apply take_ge.
      destruct (Nat.ltb_spec (max_related_ids `min` length risky) (length risky)); [done|lia]. }
    split; [done|]. intros d v ? Hh ? ?. apply seen_upto_complete; [done|]. apply risky_ids_elem.
    exists d, v. by rewrite Hall.
  - intros Hl. destruct (al_evidence_truncated a || cl_truncated ev''); [done|exact Hl].
Qed.

Lemma compound_loop_spec r alerts extras l : valid_detections -> Forall valid_source alerts ->
  (length extras <= max_alerts_per_ingest)%nat ->
  exists new l', compound_loop batch_id collected_at detections r table alerts extras l = Ok (extras ++ new, l') /\
    (length (extras ++ new) <= max_alerts_per_ingest)%nat /\
    (cl_truncated l = true -> cl_truncated l' = true) /\
    (forall x, x ∈ new -> exists a, a ∈ alerts /\ compound_of r a x /\
       risky_hosts table (al_related_asset_ids a) <> []) /\
    (cl_truncated l' = false ->
     forall a h, a ∈ alerts -> h ∈ al_related_asset_ids a -> risky detections h ->
       exists x, x ∈ new /\ compound_of r a x).
Proof.
  intros Hd Hv. revert extras l. induction Hv as [|a alerts Ha Hv IH]; intros extras l Hlen; cbn [compound_loop].
  { exists [], l. rewrite app_nil_r. split_and!; try done. intros x Hx. by apply not_elem_of_nil in Hx.
    intros _ a h Ha. by apply not_elem_of_nil in Ha. }
  assert (Hnone : forall h, h ∈ al_related_asset_ids a -> risky detections h ->
    risky_hosts table (al_related_asset_ids a) <> []).
  { intros h Hh Hr Hnil. assert (Hin : h ∈ risky_hosts table (al_related_asset_ids a)) by (by apply risky_hosts_elem).
    rewrite Hnil in Hin. by apply not_elem_of_nil in Hin. }
  destruct (risky_hosts table (al_related_asset_ids a)) as [|h0 hs] eqn:Er.
  - destruct (IH extras l Hlen) as (new & l' & -> & ? & ? & Hs & Hc). exists new, l'. split_and?; try done.
    + intros x Hx. destruct (Hs x Hx) as (a' & ? & ?). exists a'. split; [by right|done].
    + intros Ht a' h [->|Ha']%elem_of_cons Hh Hr; [by destruct (Hnone h Hh Hr)|by eapply Hc].
  - destruct (_ <=? _)%nat eqn:Efull.
    + destruct (IH extras (corr_mark (rl_max_alerts r) l) Hlen) as (new & l' & -> & ? & Ht & Hs & Hc).
      exists new, l'. split_and?; try done.
      * intros _. by apply Ht.
      * intros x Hx. destruct (Hs x Hx) as (a' & ? & ?). exists a'. split; [by right|done].
      * intros Ht'. by rewrite Ht in Ht'.
    + apply Nat.leb_gt in Efull. rewrite <-Er.
      destruct (compound_ok r a l Hd Ha) as (x & l1 & -> & Hx & Ht1); [by rewrite Er|]. cbn [mbind res_bind].
      destruct (IH (extras ++ [x]) l1) as (new & l' & -> & Hl & Ht & Hs & Hc); [rewrite length_app; simpl; lia|].
      exists (x :: new), l'. rewrite <-app_assoc in Hl |- *. split; [done|]. split; [done|]. split; [by auto|].
      split.
      * intros y [->|Hy]%elem_of_cons; [exists a; split; [by left|split; [done|by rewrite Er]]|].
        destruct (Hs y Hy) as (a' & ? & ?). exists a'. split; [by right|done].
      * intros Hf a' h [->|Ha']%elem_of_cons Hh Hr; [exists x; split; [by left|done]|].
        destruct (Hc Hf a' h Ha' Hh Hr) as (y & ? & ?). exists y. split; [by right|done].
Qed.

(** Cross-source correlation of IOC alerts with findings: a compound alert
    names exactly the hosts of its alert that have a high or critical finding
    (the first 64 in order), is at least as severe as the alert and as each of
    their findings, and lists ids of high or critical findings of those hosts
    only - all of them unless its evidence is flagged truncated.  Unless the
    limit state says alerts were left out, every alert touching such a host has
    one.  At most 128 are built and nothing raises. *)
Theorem cross_source_alerts_spec alerts l : valid_detections -> Forall valid_source alerts ->
  exists extras l', cross_source_alerts batch_id collected_at detections alerts l = Ok (extras, l') /\
    (length extras <= max_alerts_per_ingest)%nat /\
    (forall x, x ∈ extras -> exists a, a ∈ alerts /\ compound_of ioc_rule a x /\
       forall h, h ∈ al_related_asset_ids x -> h ∈ al_related_asset_ids a /\ risky detections h) /\
    (cl_truncated l' = false ->
     forall a h, a ∈ alerts -> h ∈ al_related_asset_ids a -> risky detections h ->
       exists x, x ∈ extras /\ compound_of ioc_rule a x).
Proof.
  intros Hd Hv. destruct (compound_loop_spec ioc_rule alerts [] l Hd Hv) as (extras & l' & He & Hl & _ & Hs & Hc);
    [simpl; lia|]. exists extras, l'. split; [exact He|]. split; [exact Hl|]. split; [|exact Hc].
  intros x Hx. destruct (Hs x Hx) as (a & Ha & Hco & _). exists a. split; [done|]. split; [done|].
  intros h Hh. destruct Hco as [Hr _]. rewrite Hr in Hh. apply elem_of_take in Hh as (i & Hi & _).
  apply list_elem_of_lookup_2 in Hi. by apply risky_hosts_elem in Hi.
Qed.
End Compound.

(** ** Identity *)

(** Alert keys identify findings: two tuples of parts without the
    separator have the same key only if they are equal or the first 96 bits of
    the SHA-1 digests of two different texts collide. *)
Theorem alert_key_identifies parts parts' :
  parts <> [] -> parts' <> [] ->
  Forall (fun p => 31%N ∉ p) parts -> Forall (fun p => 31%N ∉ p) parts' ->
  alert_key_for parts = alert_key_for parts' ->
  parts = parts' \/
  (join key_sep parts <> join key_sep parts' /\
   take 24 (sha1_hex (join key_sep parts)) = take 24 (sha1_hex (join key_sep parts'))).
Proof.
  intros Hne Hne' Hp Hp' Hk. unfold alert_key_for in Hk. apply app_inv_head in Hk.
  destruct (decide (join key_sep parts = join key_sep parts')) as [Hj|Hj]; [left|by right].
  by apply (join_inj 31%N) in Hj.
Qed.

Section Witnesses.

(** The separator can occur in the parts, against the comment that it
    cannot: a host id or a signature with a unit separator inside is a valid
    identifier, and two different findings then share one alert key. *)
Theorem separator_in_parts_collides :
  let sep := 31%N in
  let s1 := u "A" ++ [sep] ++ u "B" in
  let h2 := u "B" ++ [sep] ++ u "host" in
  clean s1 /\ clean (u "host") /\ clean (u "A") /\ clean h2 /\
  event_key_parts (MalwareEvent (mkBase HIGH (u "host") LOGGED) (u "/x") s1 (u "clamav")) <>
  event_key_parts (MalwareEvent (mkBase HIGH h2 LOGGED) (u "/x") (u "A") (u "clamav")) /\
  alert_key_for (event_key_parts (MalwareEvent (mkBase HIGH (u "host") LOGGED) (u "/x") s1 (u "clamav"))) =
  alert_key_for (event_key_parts (MalwareEvent (mkBase HIGH h2 LOGGED) (u "/x") (u "A") (u "clamav"))).
Proof.
  intros sep s1 h2. unfold clean.
  repeat match goal with |- _ /\ _ => split end;
    try (vm_compute; reflexivity); try (apply Nat.leb_le; vm_compute; reflexivity).
  vm_compute. discriminate.
Qed.

(** Nine hosts report one indicator, each under its own category. *)
Definition one_indicator : guard_batch :=
  mkGuardBatch (u "b1") 0
    ((fun i => NetworkEvent (mkBase HIGH (u "host-" ++ dec_nat i) LOGGED) (u "198.51.100.7") IP
                 (u "category-" ++ dec_nat i) (u "feed")) <$> seq 1 9).

(** The same hits seen by the network tap. *)
Definition one_indicator_trace : trace_batch :=
  mkTraceBatch (u "b1") 0
    ((fun i => mkTrace (u "t" ++ dec_nat i) (u "host-" ++ dec_nat i) (u "10.0.0.1") (u "198.51.100.7")
                 [mkMatch (u "198.51.100.7") IP (u "category-" ++ dec_nat i) HIGH (u "feed")]) <$> seq 1 9).

(** A category too many hides hosts: once one evidence list of a guard
    group is full the short-circuiting flag stops the others, so the ninth host
    is missing from the alert although 64 fit, and a compound alert for it is
    never raised.  The trace rule names all nine hosts for the same hits. *)
Theorem label_overflow_drops_hosts :
  let guard := correlate_guard_batch one_indicator fresh_corr in
  let trace := correlate_trace_batch one_indicator_trace None fresh_corr in
  let critical := [mkDetectionResult (u "host-9")
                     [mkVuln (u "CVE-1") CRITICAL None (u "pkg") None (u "osv") None []]] in
  (exists a, guard = Ok ([a], fresh_corr) /\ length (al_related_asset_ids a) = 8%nat /\
     u "host-9" ∉ al_related_asset_ids a /\
     guard_compound_alerts (u "b1") 0 critical [a] fresh_corr = Ok ([], fresh_corr)) /\
  (exists a, trace = Ok ([a], fresh_corr) /\ length (al_related_asset_ids a) = 9%nat /\
     u "host-9" ∈ al_related_asset_ids a).
Proof.
  intros guard trace critical. split.
  - eexists. split; [vm_compute; reflexivity|]. split; [reflexivity|]. split.
    + apply (bool_decide_eq_false _). vm_compute. reflexivity.
    + vm_compute. reflexivity.
  - eexists. split; [vm_compute; reflexivity|]. split; [reflexivity|].
    apply (bool_decide_eq_true _). vm_compute. reflexivity.
Qed.

Lemma alert_key_identifies_witness :
  alert_key_for [u "guard-ids"; u "2001"; u "h1"] <> alert_key_for [u "guard-ids"; u "2001"; u "h2"].
Proof.
  intros H. destruct (alert_key_identifies [u "guard-ids"; u "2001"; u "h1"] [u "guard-ids"; u "2001"; u "h2"])
    as [E|[_ E]]; [discriminate|discriminate| | |exact H|discriminate E|vm_compute in E; discriminate E];
  (repeat constructor; apply (bool_decide_eq_false _); vm_compute; reflexivity).
Defined.

Lemma clean_b (s : str) : bool_decide (trim s = s) && (length s <=? 256)%nat = true -> clean s.
Proof. intros [H1%bool_decide_eq_true H2%Nat.leb_le]%andb_true_iff. by split. Defined.

Lemma correlate_trace_batch_spec_witness :
  exists alerts, correlate_trace_batch one_indicator_trace None fresh_corr = Ok (alerts, fresh_corr) /\
    length alerts = 1%nat.
Proof.
  destruct (correlate_trace_batch_spec one_indicator_trace None fresh_corr) as (alerts & Ha & HF).
  - repeat constructor; vm_compute; reflexivity || lia.
  - exact I.
  - exists alerts. split; [exact Ha|]. apply Forall2_length in HF. rewrite <-HF. vm_compute. reflexivity.
Defined.

Lemma guard_events_covered_witness :
  exists alerts l', correlate_guard_batch one_indicator fresh_corr = Ok (alerts, l') /\
    (length alerts <= 128)%nat.
Proof.
  destruct (guard_events_covered one_indicator fresh_corr) as (alerts & l' & Ha & Hl & _).
  - repeat constructor; vm_compute; reflexivity || lia.
  - exists alerts, l'. split; [exact Ha|exact Hl].
Defined.

Definition ioc_on_host9 : alert :=
  mkAlert (u "alert-1") None MEDIUM 50 (u "t") (u "d") [u "host-8"; u "host-9"] [] [u "t9"] false 0.
Definition critical_host9 : list detection_result :=
  [mkDetectionResult (u "host-9") [mkVuln (u "CVE-1") CRITICAL None (u "pkg") None (u "osv") None []]].

Lemma cross_source_alerts_spec_witness :
  exists x l', cross_source_alerts (u "b1") 0 critical_host9 [ioc_on_host9] fresh_corr = Ok ([x], l') /\
    al_related_asset_ids x = [u "host-9"] /\ al_severity x = CRITICAL /\
    exists a, a ∈ [ioc_on_host9] /\ compound_of critical_host9 ioc_rule a x.
Proof.
  destruct (cross_source_alerts_spec (u "b1") 0 critical_host9 [ioc_on_host9] fresh_corr)
    as (extras & l' & He & _ & Hs & _).
  - repeat constructor; vm_compute; reflexivity || lia.
  - repeat constructor; vm_compute; reflexivity || lia.
  - assert (Hv : exists x l', cross_source_alerts (u "b1") 0 critical_host9 [ioc_on_host9] fresh_corr = Ok ([x], l') /\
      al_related_asset_ids x = [u "host-9"] /\ al_severity x = CRITICAL).
    { eexists _, _. split; [vm_compute; reflexivity|]. split; reflexivity. }
    destruct Hv as (x & l2 & Hx & Ha & Hsev). rewrite He in Hx. injection Hx as -> ->.
    exists x, l2. split; [exact He|]. split; [exact Ha|]. split; [exact Hsev|].
    destruct (Hs x) as (a & Hin & Hco & _); [left|]. exists a. split; [exact Hin|exact Hco].
Defined.
End Witnesses.
