(* ===== verification/Lifecycle.v ===== *)
(** * Alert lifecycle ([analyzer/src/analyzer/correlate/lifecycle.py])

    The read model: occurrences of one alert are merged, then the latest triage
    state is laid over.  The rows are the stored dumps of validated [Alert] and
    [AlertState] objects, so they are typed here and the code's guards against
    other JSON types never fire; rows from before [alert_key] have [None]. *)

From stdpp Require Import base strings numbers list.
From Stdlib Require Import ZArith Lia.
From S2P Require Import Prelude PyText PyHash Compare Severity Osv Detect Correlate Guard.

#[local] Open Scope Z_scope.

Inductive AlertStatus := OPEN | ACKNOWLEDGED | CLOSED.

(** [Alert] with its triage and aggregation fields. *)
Record stored_alert := mkStored {
  sa_alert : alert;
  sa_status : AlertStatus;
  sa_assignee : option str;
  sa_note : option str;
  sa_suppressed : bool;
  sa_occurrence_count : Z;
  sa_last_seen : option Z;
  sa_updated_at : option Z;
}.

#[global] Instance eta_stored : Eta stored_alert := fun a =>
  mkStored (sa_alert a) (sa_status a) (sa_assignee a) (sa_note a) (sa_suppressed a)
    (sa_occurrence_count a) (sa_last_seen a) (sa_updated_at a).

#[global] Instance eta_alert : Eta alert := fun a =>
  mkAlert (al_alert_id a) (al_alert_key a) (al_severity a) (al_score a) (al_title a) (al_description a)
    (al_related_asset_ids a) (al_related_vuln_ids a) (al_related_trace_ids a) (al_evidence_truncated a)
    (al_created_at a).

(** [AlertState] *)
Record alert_state := mkState {
  st_alert_key : str;
  st_status : AlertStatus;
  st_assignee : option str;
  st_note : option str;
  st_suppressed : bool;
  st_updated_at : Z;
}.

(** [occurrence_key] *)
Definition occurrence_key (row : stored_alert) : str := key_or_id (sa_alert row).

(** [latest_state_by_key]; the rows are newest first. *)
Definition latest_state_by_key (rows : list alert_state) : list (str * alert_state) :=
  fold_left (fun latest row =>
    match st_alert_key row with
    | [] => latest
    | k => match od_get k latest with Some _ => latest | None => od_set k row latest end
    end) rows [].

(** The three lists of [RELATED_ID_FIELDS]. *)
Record related_ids := mkRelated { rel_assets : list str; rel_vulns : list str; rel_traces : list str }.

Definition no_related : related_ids := mkRelated [] [] [].

(** What the loop over the occurrences keeps, by key. *)
Record merge_state := mkMerge {
  ms_newest : list (str * stored_alert);
  ms_counts : list (str * Z);
  ms_last_seen : list (str * Z);
  ms_related : list (str * related_ids);
  ms_truncated : list str;
}.

Definition empty_merge : merge_state := mkMerge [] [] [] [] [].

(** [append_related_evidence] *)
Definition append_related_evidence (unions : list (str * related_ids)) (truncated : list str) (key : str)
    (row : alert) : list (str * related_ids) * list str :=
  let fields := default no_related (od_get key unions) in
  let '(assets, t1) := append_all max_nested_items (rel_assets fields) (al_related_asset_ids row) in
  let '(vulns, t2) := append_all max_nested_items (rel_vulns fields) (al_related_vuln_ids row) in
  let '(traces, t3) := append_all max_nested_items (rel_traces fields) (al_related_trace_ids row) in
  (od_set key (mkRelated assets vulns traces) unions,
   if t1 || t2 || t3 || al_evidence_truncated row then key :: truncated else truncated).

(** The body of the loop over [alert_rows]. *)
Definition merge_row (m : merge_state) (row : stored_alert) : merge_state :=
  let key := occurrence_key row in
  let '(related, truncated) := append_related_evidence (ms_related m) (ms_truncated m) key (sa_alert row) in
  let counts := od_set key (default 0 (od_get key (ms_counts m)) + 1) (ms_counts m) in
  match od_get key (ms_newest m) with
  | Some _ => mkMerge (ms_newest m) counts (ms_last_seen m) related truncated
  | None =>
      let seen := match sa_last_seen row, sa_updated_at row with
                  | Some t, _ | None, Some t => t
                  | None, None => al_created_at (sa_alert row)
                  end in
      mkMerge (od_set key row (ms_newest m)) counts (od_set key seen (ms_last_seen m)) related truncated
  end.

Section Lifecycle.
Context {U : Unicode}.

(** [Alert.model_validate] *)
Definition validate_stored (a : stored_alert) : res stored_alert :=
  alert ← validate_alert (sa_alert a);
  let text (s : option str) := match s with Some s => short max_wire_string s | None => true end in
  let a := mkStored alert (sa_status a) (trim <$> sa_assignee a) (trim <$> sa_note a) (sa_suppressed a)
             (sa_occurrence_count a) (sa_last_seen a) (sa_updated_at a) in
  if text (sa_assignee a) && text (sa_note a) && (1 <=? sa_occurrence_count a) then Ok a else Raise ValueError.

(** The merged row of a key. *)
Definition merged_row (m : merge_state) (states : list (str * alert_state)) (key : str) (row : stored_alert)
    : stored_alert :=
  let related := default (mkRelated (al_related_asset_ids (sa_alert row)) (al_related_vuln_ids (sa_alert row))
                            (al_related_trace_ids (sa_alert row))) (od_get key (ms_related m)) in
  let alert := sa_alert row <| al_related_asset_ids := rel_assets related |>
                 <| al_related_vuln_ids := rel_vulns related |>
                 <| al_related_trace_ids := rel_traces related |>
                 <| al_evidence_truncated := bool_decide (key ∈ ms_truncated m) |> in
  let merged := row <| sa_alert := alert |>
                  <| sa_occurrence_count := default 1 (od_get key (ms_counts m)) |>
                  <| sa_last_seen := od_get key (ms_last_seen m) |> in
  match od_get key states with
  | Some s => merged <| sa_status := st_status s |> <| sa_assignee := st_assignee s |>
                <| sa_note := st_note s |> <| sa_suppressed := st_suppressed s |>
                <| sa_updated_at := Some (st_updated_at s) |>
  | None => merged
  end.

(** The loop over [newest]. *)
Fixpoint merge_out (m : merge_state) (states : list (str * alert_state)) (include_suppressed : bool)
    (newest : list (str * stored_alert)) : res (list stored_alert) :=
  match newest with
  | [] => Ok []
  | (key, row) :: newest' =>
      alert ← validate_stored (merged_row m states key row);
      rest ← merge_out m states include_suppressed newest';
      Ok (if sa_suppressed alert && negb include_suppressed then rest else alert :: rest)
  end.

(** [merge_alerts] *)
Definition merge_alerts (alert_rows : list stored_alert) (state_rows : list alert_state)
    (include_suppressed : bool) : res (list stored_alert) :=
  let m := fold_left merge_row alert_rows empty_merge in
  merge_out m (latest_state_by_key state_rows) include_suppressed (ms_newest m).
End Lifecycle.
