(* ===== verification/LifecycleProps.v ===== *)
(** * What the alert read model promises

    The one-pass merge computes, per key, what the occurrences of that key and
    the latest triage state determine. *)

From stdpp Require Import base sets strings numbers list sorting.
From Stdlib Require Import ZArith Lia.
From S2P Require Import Prelude PyText PyHash Compare Severity Osv Detect Correlate Guard.
From S2P Require Import Lifecycle CorrelateProps.

#[local] Open Scope Z_scope.

(** ** The merge, key by key *)

Definition rows_of (rows : list stored_alert) (k : str) : list stored_alert :=
  base.filter (fun r => occurrence_key r = k) rows.

Definition row_seen (row : stored_alert) : Z :=
  match sa_last_seen row, sa_updated_at row with
  | Some t, _ | None, Some t => t
  | None, None => al_created_at (sa_alert row)
  end.

Definition all_ids (f : alert -> list str) (own : list stored_alert) : list str :=
  own ≫= fun r => f (sa_alert r).

Definition union_ids (f : alert -> list str) (own : list stored_alert) : list str :=
  seen_upto max_nested_items (all_ids f own).

Definition related_of (own : list stored_alert) : related_ids :=
  mkRelated (union_ids al_related_asset_ids own) (union_ids al_related_vuln_ids own)
    (union_ids al_related_trace_ids own).

Definition evidence_cut (own : list stored_alert) : bool :=
  existsb (fun r => al_evidence_truncated (sa_alert r)) own ||
  over max_nested_items (all_ids al_related_asset_ids own) ||
  over max_nested_items (all_ids al_related_vuln_ids own) ||
  over max_nested_items (all_ids al_related_trace_ids own).

(** What the loop keeps is determined, for each key, by its own rows. *)
Definition per_key {V} (f : list stored_alert -> V) (rows : list stored_alert) (k : str) : option V :=
  match rows_of rows k with [] => None | own => Some (f own) end.

Record merge_inv (rows : list stored_alert) (m : merge_state) : Prop := {
  inv_keys : (ms_newest m).*1 = first_seen (occurrence_key <$> rows);
  inv_newest : forall k, od_get k (ms_newest m) = hd_error (rows_of rows k);
  inv_counts : forall k, od_get k (ms_counts m) = per_key (fun own => Z.of_nat (length own)) rows k;
  inv_seen : forall k, od_get k (ms_last_seen m) = row_seen <$> hd_error (rows_of rows k);
  inv_related : forall k, od_get k (ms_related m) = per_key related_of rows k;
  inv_truncated : forall k, k ∈ ms_truncated m <-> evidence_cut (rows_of rows k) = true;
}.

Lemma rows_of_snoc rows r k :
  rows_of (rows ++ [r]) k = rows_of rows k ++ (if decide (occurrence_key r = k) then [r] else []).
Proof. unfold rows_of. rewrite list.filter_app. simpl. rewrite filter_cons. by case_decide. Qed.

Lemma per_key_snoc {V} (f : list stored_alert -> V) rows r k :
  per_key f (rows ++ [r]) k =
    if decide (k = occurrence_key r) then Some (f (rows_of rows k ++ [r])) else per_key f rows k.
Proof.
  unfold per_key. rewrite rows_of_snoc. destruct (decide (occurrence_key r = k)), (decide (k = occurrence_key r));
    try congruence; [by destruct (rows_of rows k)|by rewrite app_nil_r].
Qed.

Lemma hd_rows_snoc rows r k :
  hd_error (rows_of (rows ++ [r]) k) =
    match hd_error (rows_of rows k) with
    | Some x => Some x
    | None => if decide (k = occurrence_key r) then Some r else None
    end.
Proof.
  rewrite rows_of_snoc. destruct (rows_of rows k); simpl; [|done].
  by destruct (decide (occurrence_key r = k)), (decide (k = occurrence_key r)); try congruence.
Qed.

Lemma all_ids_snoc f own r : all_ids f (own ++ [r]) = all_ids f own ++ f (sa_alert r).
Proof. unfold all_ids. rewrite bind_app. simpl. by rewrite app_nil_r. Qed.

(** One occurrence's evidence. *)
Lemma append_related_step rows m r : merge_inv rows m ->
  let k := occurrence_key r in
  let res := append_related_evidence (ms_related m) (ms_truncated m) k (sa_alert r) in
  (forall k', od_get k' res.1 = per_key related_of (rows ++ [r]) k') /\
  (forall k', k' ∈ res.2 <-> evidence_cut (rows_of (rows ++ [r]) k') = true).
Proof.
  intros Hm k. unfold append_related_evidence. fold k.
  assert (Hget : default no_related (od_get k (ms_related m)) = related_of (rows_of rows k)).
  { rewrite (inv_related _ _ Hm). unfold per_key. by destruct (rows_of rows k). }
  rewrite Hget. cbn [rel_assets rel_vulns rel_traces related_of]. unfold union_ids.
  set (own := rows_of rows k).
  destruct (append_all_step max_nested_items (all_ids al_related_asset_ids own) (al_related_asset_ids (sa_alert r))) as [E1 O1].
  destruct (append_all_step max_nested_items (all_ids al_related_vuln_ids own) (al_related_vuln_ids (sa_alert r))) as [E2 O2].
  destruct (append_all_step max_nested_items (all_ids al_related_trace_ids own) (al_related_trace_ids (sa_alert r))) as [E3 O3].
  destruct (append_all _ _ (al_related_asset_ids _)) as [assets t1], (append_all _ _ (al_related_vuln_ids _)) as [vulns t2],
    (append_all _ _ (al_related_trace_ids _)) as [traces t3].
  cbn [snd] in *. injection E1 as ->. injection E2 as ->. injection E3 as ->. cbn [fst snd]. split.
  - intros k'. rewrite od_get_set, per_key_snoc. fold k. case_decide as Hk; [|apply (inv_related _ _ Hm)].
    subst k'. fold own. unfold related_of, union_ids. by rewrite !all_ids_snoc.
  - intros k'. rewrite rows_of_snoc. fold k. destruct (decide (k = k')) as [<-|Hk].
    + fold own. unfold evidence_cut. rewrite existsb_app, !all_ids_snoc, O1, O2, O3. simpl. rewrite orb_false_r.
      pose proof (inv_truncated _ _ Hm k) as Ht. fold own in Ht. unfold evidence_cut in Ht.
      destruct (existsb _ own), (over _ (all_ids al_related_asset_ids own)), (over _ (all_ids al_related_vuln_ids own)),
        (over _ (all_ids al_related_trace_ids own)), t1, t2, t3, (al_evidence_truncated (sa_alert r));
        simpl in *; rewrite ?elem_of_cons; naive_solver.
    + rewrite app_nil_r, <-(inv_truncated _ _ Hm k'). destruct (t1 || t2 || t3 || al_evidence_truncated (sa_alert r)); [|done].
      rewrite elem_of_cons. naive_solver.
Qed.

Lemma keys_snoc rows r :
  first_seen (occurrence_key <$> (rows ++ [r])) = see (first_seen (occurrence_key <$> rows)) (occurrence_key r).
Proof. rewrite fmap_app. apply first_seen_snoc. Qed.

Lemma merge_row_inv rows m r : merge_inv rows m -> merge_inv (rows ++ [r]) (merge_row m r).
Proof.
  intros Hm. pose proof (append_related_step rows m r Hm) as Hrel. cbv zeta in Hrel.
  unfold merge_row. cbv zeta. set (k := occurrence_key r) in *.
  destruct (append_related_evidence _ _ k _) as [related truncated]. cbn [fst snd] in Hrel. destruct Hrel as [Hr Ht].
  assert (Hcounts : forall k', od_get k' (od_set k (default 0 (od_get k (ms_counts m)) + 1) (ms_counts m)) =
    per_key (fun own => Z.of_nat (length own)) (rows ++ [r]) k').
  { intros k'. rewrite od_get_set, per_key_snoc. fold k. case_decide as Hk; [|apply (inv_counts _ _ Hm)].
    subst k'. rewrite (inv_counts _ _ Hm). unfold per_key. f_equal. rewrite length_app. simpl.
    destruct (rows_of rows k); simpl; lia. }
  assert (Hnew : forall k', od_get k' (ms_newest m) = hd_error (rows_of rows k')) by apply (inv_newest _ _ Hm).
  destruct (od_get k (ms_newest m)) as [x|] eqn:E.
  - assert (Hin : k ∈ occurrence_key <$> rows).
    { apply od_get_Some_elem, (list_elem_of_fmap_2 fst) in E. rewrite (inv_keys _ _ Hm) in E.
      exact (proj1 (first_seen_elem _ _) E). }
    assert (Hhd : forall k', hd_error (rows_of (rows ++ [r]) k') = hd_error (rows_of rows k')).
    { intros k'. rewrite hd_rows_snoc. fold k. destruct (hd_error (rows_of rows k')) eqn:Eh; [done|].
      case_decide; [|done]. subst k'. rewrite <-Hnew, E in Eh. done. }
    split; cbn [ms_newest ms_counts ms_last_seen ms_related ms_truncated]; try done.
    + rewrite keys_snoc. unfold see. fold k. rewrite bool_decide_true by (by apply first_seen_elem).
      apply (inv_keys _ _ Hm).
    + intros k'. by rewrite Hhd, Hnew.
    + intros k'. rewrite Hhd. apply (inv_seen _ _ Hm).
  - assert (Hnin : k ∉ first_seen (occurrence_key <$> rows)) by (rewrite <-(inv_keys _ _ Hm); by apply od_get_None).
    split; cbn [ms_newest ms_counts ms_last_seen ms_related ms_truncated]; try done.
    + rewrite od_set_keys, decide_False by (rewrite (inv_keys _ _ Hm); done).
      rewrite keys_snoc. unfold see. fold k. rewrite bool_decide_false by done. by rewrite (inv_keys _ _ Hm).
    + intros k'. rewrite od_get_set, hd_rows_snoc, Hnew. fold k. case_decide as Hk; [|by destruct (hd_error _)].
      subst k'. by rewrite <-Hnew, E.
    + intros k'. rewrite od_get_set, hd_rows_snoc, (inv_seen _ _ Hm). fold k.
      case_decide as Hk; [|by destruct (hd_error _)]. subst k'. by rewrite <-Hnew, E.
Qed.

Lemma merge_loop_inv rows : merge_inv rows (fold_left merge_row rows empty_merge).
Proof.
  induction rows as [|r rows IH] using rev_ind.
  - split; try done. intros k. simpl. split; [by intros ?%not_elem_of_nil|done].
  - rewrite fold_left_app. by apply merge_row_inv.
Qed.

(** The newest state of a key. *)
Definition state_of (states : list alert_state) (k : str) : option alert_state :=
  match k with [] => None | _ => hd_error (base.filter (fun s => st_alert_key s = k) states) end.

Lemma latest_state_spec states k : od_get k (latest_state_by_key states) = state_of states k.
Proof.
  unfold latest_state_by_key. induction states as [|s states IH] using rev_ind; [by destruct k|].
  rewrite fold_left_app. simpl. set (m := fold_left _ states []) in *. unfold state_of in *.
  rewrite list.filter_app, filter_cons.
  destruct (st_alert_key s) as [|c cs] eqn:Ek.
  { rewrite IH. destruct k; [done|]. rewrite decide_False by congruence. simpl. by rewrite app_nil_r. }
  destruct (decide (c :: cs = k)) as [<-|Hk].
  - destruct (base.filter _ states) as [|x xs] eqn:Ef; simpl in IH |- *.
    + rewrite IH. by rewrite od_get_set_eq.
    + by rewrite IH, IH.
  - assert (Hsame : od_get k (match od_get (c :: cs) m with Some _ => m | None => od_set (c :: cs) s m end) = od_get k m).
    { destruct (od_get (c :: cs) m); [done|]. by rewrite od_get_set_ne by congruence. }
    rewrite Hsame, IH. destruct k; [done|]. simpl. by rewrite app_nil_r.
Qed.

(** ** Validation *)
Section Valid.
Context {U : Unicode}.

(** Stored rows and states are dumps of validated objects. *)
Definition valid_alert (a : alert) : Prop := validate_alert a = Ok a.
Definition valid_row (r : stored_alert) : Prop := validate_stored r = Ok r.
Definition valid_text (s : option str) : Prop := forall t, s = Some t -> trim t = t /\ (length t <= max_wire_string)%nat.
Definition valid_state (s : alert_state) : Prop := valid_text (st_assignee s) /\ valid_text (st_note s).

Definition clean_list (l : list str) : Prop := Forall clean l /\ (length l <= max_nested_items)%nat.

Lemma clean_list_iff l :
  trim <$> l = l /\ (length l <=? max_nested_items)%nat && forallb (short max_correlation_identifier) l = true <->
  clean_list l.
Proof.
  unfold clean_list, clean. rewrite andb_true_iff, Nat.leb_le. split.
  - intros (Ht & Hn & Hs). split; [|done]. clear Hn. induction l as [|s l IH]; [constructor|].
    simpl in Hs. apply andb_true_iff in Hs as [Hs Hl]. csimpl in Ht. injection Ht as Ht Htl.
    constructor; [split; [done|by apply Nat.leb_le]|by apply IH].
  - intros [Hl Hn]. split; [|split; [exact Hn|]]; clear Hn; induction Hl as [|s l [Hs Hn] _ IH]; csimpl; try done.
    + by rewrite Hs, IH.
    + rewrite IH, andb_true_r. by apply Nat.leb_le.
Qed.

(** A valid alert stays valid when its evidence is replaced by valid evidence. *)
Lemma validate_alert_evidence a assets vulns traces truncated :
  valid_alert a -> clean_list assets -> clean_list vulns -> clean_list traces ->
  valid_alert (a <| al_related_asset_ids := assets |> <| al_related_vuln_ids := vulns |>
                 <| al_related_trace_ids := traces |> <| al_evidence_truncated := truncated |>).
Proof.
  destruct a as [id key sev score title desc as0 vs0 ts0 t0 at0]. unfold valid_alert, validate_alert. cbn -[trim].
  intros Hv Ha%clean_list_iff Hvu%clean_list_iff Ht%clean_list_iff.
  destruct (_ && _) eqn:E in Hv; [|done]. injection Hv as Hid Hkey Htitle Hdesc Has Hvs Hts.
  destruct Ha as [-> Ha], Hvu as [-> Hvu], Ht as [-> Ht]. rewrite Hid, Hkey, Htitle, Hdesc in *.
  repeat apply andb_true_iff in E as [E ?]. repeat (apply andb_true_iff in Ha as [Ha ?]).
  apply andb_true_iff in Hvu as [? ?]. apply andb_true_iff in Ht as [? ?].
  by repeat match goal with H : _ = true |- _ => rewrite H; clear H end.
Qed.

Lemma valid_alert_lists a : valid_alert a ->
  clean_list (al_related_asset_ids a) /\ clean_list (al_related_vuln_ids a) /\ clean_list (al_related_trace_ids a).
Proof.
  destruct a as [id key sev score title desc as0 vs0 ts0 t0 at0]. unfold valid_alert, validate_alert. cbn -[trim].
  intros Hv. destruct (_ && _) eqn:E in Hv; [|done]. injection Hv as Hid Hkey Htitle Hdesc Has Hvs Hts.
  rewrite Has, Hvs, Hts in E. repeat apply andb_true_iff in E as [E ?].
  split_and?; apply clean_list_iff; by split.
Qed.

Lemma valid_row_parts r : valid_row r <->
  valid_alert (sa_alert r) /\ valid_text (sa_assignee r) /\ valid_text (sa_note r) /\ 1 <= sa_occurrence_count r.
Proof.
  destruct r as [a st asg note sup n ls up]. unfold valid_row, validate_stored, valid_alert, valid_text. cbn -[trim].
  assert (Htext : forall s : option str, trim <$> s = s /\
      match trim <$> s with Some s => short max_wire_string s | None => true end = true <->
      forall t, s = Some t -> trim t = t /\ (length t <= max_wire_string)%nat).
  { intros [s|]; cbn; [|naive_solver]. split.
    - intros [[= Hs] Hl] t [= <-]. rewrite Hs in Hl. split; [done|by apply Nat.leb_le].
    - intros Hs. destruct (Hs s eq_refl) as [Ht Hl]. rewrite Ht. split; [done|by apply Nat.leb_le]. }
  rewrite <-!Htext. split.
  - destruct (validate_alert a) as [a'|e]; [|done]. cbn. destruct (_ && _) eqn:E; [|done].
    intros Heq. injection Heq as -> Ha Hn. apply andb_true_iff in E as [E ?%Z.leb_le]. by apply andb_true_iff in E as [? ?].
  - intros (-> & [Ha Ha'] & [Hn Hn'] & Hc). cbn. rewrite Ha', Hn', (proj2 (Z.leb_le _ _)) by done. cbn.
    by rewrite Ha, Hn.
Qed.

Lemma union_ids_clean f own : Forall (fun r => clean_list (f (sa_alert r))) own -> clean_list (union_ids f own).
Proof.
  intros Hown. split; [|apply seen_upto_length]. apply List.Forall_forall. intros x Hx%list_elem_of_In.
  apply seen_upto_elem in Hx. apply list_elem_of_bind in Hx as (r & Hx & Hr).
  apply list_elem_of_In in Hr. apply (proj1 (List.Forall_forall _ _) Hown) in Hr as [Hr _].
  apply list_elem_of_In in Hx. by apply (proj1 (List.Forall_forall _ _) Hr) in Hx.
Qed.

(** ** The logical alert of a key *)

(** The newest occurrence, with the evidence of all of them and the triage of
    the newest state. *)
Definition logical (rows : list stored_alert) (states : list alert_state) (k : str) : option stored_alert :=
  match rows_of rows k with
  | [] => None
  | (newest :: _) as own =>
      let a := sa_alert newest <| al_related_asset_ids := union_ids al_related_asset_ids own |>
                 <| al_related_vuln_ids := union_ids al_related_vuln_ids own |>
                 <| al_related_trace_ids := union_ids al_related_trace_ids own |>
                 <| al_evidence_truncated := evidence_cut own |> in
      let r := newest <| sa_alert := a |> <| sa_occurrence_count := Z.of_nat (length own) |>
                 <| sa_last_seen := Some (row_seen newest) |> in
      Some (match state_of states k with
            | Some s => r <| sa_status := st_status s |> <| sa_assignee := st_assignee s |>
                          <| sa_note := st_note s |> <| sa_suppressed := st_suppressed s |>
                          <| sa_updated_at := Some (st_updated_at s) |>
            | None => r
            end)
  end.

Definition shown (include_suppressed : bool) (r : stored_alert) : bool :=
  negb (sa_suppressed r) || include_suppressed.

Lemma merged_row_logical rows m states k row : merge_inv rows m -> hd_error (rows_of rows k) = Some row ->
  Some (merged_row m (latest_state_by_key states) k row) = logical rows states k.
Proof.
  intros Hm Hrow. unfold merged_row, logical. rewrite latest_state_spec.
  rewrite (inv_related _ _ Hm), (inv_counts _ _ Hm), (inv_seen _ _ Hm). unfold per_key.
  assert (Hcut : bool_decide (k ∈ ms_truncated m) = evidence_cut (rows_of rows k)).
  { pose proof (inv_truncated _ _ Hm k). destruct (evidence_cut _); [by apply bool_decide_true; naive_solver|].
    apply bool_decide_false. naive_solver. }
  rewrite Hcut. destruct (rows_of rows k) as [|r own]; [done|]. cbn [hd_error fmap option_fmap option_map default] in Hrow |- *. injection Hrow as ->.
  by destruct (state_of states k).
Qed.

Lemma logical_valid rows states k r : Forall valid_row rows -> Forall valid_state states ->
  logical rows states k = Some r -> valid_row r.
Proof.
  intros Hr Hs. unfold logical. destruct (rows_of rows k) as [|newest own'] eqn:Eo; [done|].
  set (own := newest :: own') in *.
  assert (Hown : Forall valid_row own).
  { rewrite <-Eo. apply List.Forall_forall. intros x Hx%list_elem_of_In. apply list_elem_of_filter in Hx as [_ Hx].
    apply list_elem_of_In in Hx. by apply (proj1 (List.Forall_forall _ _) Hr) in Hx. }
  assert (Hnew : valid_row newest) by (unfold own in Hown; by apply Forall_cons_1 in Hown as [? _]).
  assert (Hlists : Forall (fun r => clean_list (al_related_asset_ids (sa_alert r)) /\
    clean_list (al_related_vuln_ids (sa_alert r)) /\ clean_list (al_related_trace_ids (sa_alert r))) own).
  { eapply Forall_impl; [exact Hown|]. intros x [Hx _]%valid_row_parts. by apply valid_alert_lists. }
  apply valid_row_parts in Hnew as (Ha & Hasg & Hnote & _).
  assert (Halert : valid_alert (sa_alert newest <| al_related_asset_ids := union_ids al_related_asset_ids own |>
    <| al_related_vuln_ids := union_ids al_related_vuln_ids own |>
    <| al_related_trace_ids := union_ids al_related_trace_ids own |> <| al_evidence_truncated := evidence_cut own |>)).
  { apply validate_alert_evidence; [done|..]; apply union_ids_clean;
      (eapply Forall_impl; [exact Hlists|]; cbn; tauto). }
  intros [= <-]. apply valid_row_parts. destruct (state_of states k) as [s|] eqn:Es; cbn -[union_ids evidence_cut length].
  - assert (Hst : valid_state s).
    { unfold state_of in Es. destruct k; [done|].
      assert (Hin : s ∈ base.filter (fun s => st_alert_key s = n :: k) states).
      { destruct (base.filter _ states); [done|]. injection Es as ->. by left. }
      apply list_elem_of_filter in Hin as [_ Hin]. apply list_elem_of_In in Hin.
      by apply (proj1 (List.Forall_forall _ _) Hs) in Hin. }
    destruct Hst. split; [exact Halert|]. split; [done|]. split; [done|]. unfold own. cbn [length]. lia.
  - split; [exact Halert|]. split; [done|]. split; [done|]. unfold own. cbn [length]. lia.
Qed.

Lemma merge_out_spec rows m states include : merge_inv rows m ->
  Forall valid_row rows -> Forall valid_state states ->
  forall newest, (forall k r, (k, r) ∈ newest -> hd_error (rows_of rows k) = Some r) ->
  merge_out m (latest_state_by_key states) include newest =
    Ok (base.filter (fun r => shown include r = true) (omap (logical rows states) newest.*1)).
Proof.
  intros Hm Hr Hs. induction newest as [|[k r] newest IH]; intros Hn; [done|]. cbn [merge_out].
  pose proof (merged_row_logical rows m states k r Hm (Hn k r ltac:(by left))) as Hl.
  rewrite (logical_valid rows states k _ Hr Hs (eq_sym Hl)). cbn [mbind res_bind].
  rewrite IH by (intros; apply Hn; by right). cbn [mbind res_bind]. csimpl. rewrite <-Hl, filter_cons.
  unfold shown. destruct (sa_suppressed _), include; done.
Qed.

(** C40. The read model shows one alert per key, in the order of the newest
    occurrences: the newest occurrence with the number of occurrences, the
    first 256 distinct related ids of all of them (flagged truncated when some
    are missing or an occurrence was), and the newest triage state, without the
    suppressed ones unless asked for.  No valid history makes it raise. *)
Theorem merge_alerts_spec rows states include_suppressed :
  Forall valid_row rows -> Forall valid_state states ->
  merge_alerts rows states include_suppressed =
    Ok (base.filter (fun r => shown include_suppressed r = true)
          (omap (logical rows states) (first_seen (occurrence_key <$> rows)))).
Proof.
  intros Hr Hs. unfold merge_alerts. pose proof (merge_loop_inv rows) as Hm.
  rewrite (merge_out_spec rows _ states include_suppressed Hm Hr Hs).
  - by rewrite (inv_keys _ _ Hm).
  - intros k r Hin. rewrite <-(inv_newest _ _ Hm). apply od_elem_get; [|done].
    rewrite (inv_keys _ _ Hm). apply first_seen_NoDup.
Qed.
End Valid.

(** ** A concrete history *)
Section Witnesses.
Definition occurrence (id asset : String.string) (at_ : Z) : stored_alert :=
  mkStored (mkAlert (u id) (Some (u "ak-1")) HIGH 75 (u "t") (u "d") [u asset] [] [] false at_)
    OPEN None None false 1 None None.
Arguments occurrence (id asset)%_string at_.

Definition acknowledged : alert_state := mkState (u "ak-1") ACKNOWLEDGED (Some (u "ann")) None false 30.

Lemma merge_alerts_spec_witness :
  exists a, merge_alerts [occurrence "alert-2" "h2" 20; occurrence "alert-1" "h1" 10] [acknowledged] false = Ok [a] /\
    sa_occurrence_count a = 2 /\ sa_status a = ACKNOWLEDGED /\ sa_last_seen a = Some 20 /\
    al_related_asset_ids (sa_alert a) = [u "h2"; u "h1"].
Proof.
  eexists. rewrite (merge_alerts_spec [occurrence "alert-2" "h2" 20; occurrence "alert-1" "h1" 10] [acknowledged] false).
  - split; [vm_compute; reflexivity|]. split; [|split; [|split]]; vm_compute; reflexivity.
  - repeat constructor; vm_compute; reflexivity.
  - constructor; [|constructor]. split; intros t Ht; [|discriminate Ht]. injection Ht as <-.
    split; [vm_compute; reflexivity|apply Nat.leb_le; vm_compute; reflexivity].
Defined.
End Witnesses.
