(* ===== verification/IngestLedger.v ===== *)
(** * The ingest ledger ([analyzer/src/analyzer/api/ingest_queue.py])

    The table [ingest_tasks] of [IngestLedger], as the list of its rows in
    insertion order (keys are unique), and the calls on it; each is one
    transaction.  [time.time()] is the argument [now], a float; the token a
    claim draws ([uuid4().hex]) is the argument [token].  Whether the file has
    room for an insert ([_ensure_insert_budget] asks the file system) is the
    argument [room]. *)

From stdpp Require Import base strings numbers list.
From Stdlib Require Import ZArith Lia.
From S2P Require Import Prelude PyText PyHash PyFloat Compare Tables.

#[local] Open Scope Z_scope.

Inductive TaskKind := ASSET_REPORT | TRACE_BATCH | GUARD_EVENT.
Inductive TaskState := T_PENDING | T_PROCESSING | T_COMPLETE | T_PARTIAL.

#[global] Instance task_state_eq_dec : EqDecision TaskState.
Proof. solve_decision. Defined.
#[global] Instance task_kind_eq_dec : EqDecision TaskKind.
Proof. solve_decision. Defined.

(** A row of [ingest_tasks]. *)
Record task_row := mkTask {
  tk_key : str;
  tk_kind : TaskKind;
  tk_envelope_id : str;
  tk_payload : str;
  tk_payload_sha256 : str;
  tk_state : TaskState;
  tk_attempts : Z;
  tk_next_attempt_at : float;
  tk_lease_until : option float;
  tk_lease_token : option str;
  tk_derived_records : Z;
  tk_derived_truncated : bool;
  tk_derived_reason : option str;
  tk_last_error : option str;
  tk_created_at : float;
  tk_updated_at : float;
}.

#[global] Instance eta_task : Eta task_row := fun t =>
  mkTask (tk_key t) (tk_kind t) (tk_envelope_id t) (tk_payload t) (tk_payload_sha256 t) (tk_state t)
    (tk_attempts t) (tk_next_attempt_at t) (tk_lease_until t) (tk_lease_token t) (tk_derived_records t)
    (tk_derived_truncated t) (tk_derived_reason t) (tk_last_error t) (tk_created_at t) (tk_updated_at t).

Abbreviation table := (list task_row).

(** [state in {"complete", "partial"}] *)
Definition final_state (s : TaskState) : bool :=
  match s with T_COMPLETE | T_PARTIAL => true | _ => false end.

(** [SELECT * FROM ingest_tasks WHERE task_key = ?] *)
Definition find_task (key : str) (t : table) : option task_row :=
  hd_error (base.filter (fun r => tk_key r = key) t).

Section Ledger.
Context (max_completed : Z).

(** [max(1, max_completed)] of the constructor *)
Definition completed_limit : nat := Z.to_nat (Z.max 1 max_completed).

(** [submit] *)
Definition submit (key : str) (kind : TaskKind) (envelope_id payload : str) (now : float) (room : bool) (t : table)
    : res (task_row * bool) * table :=
  let digest := sha256_hex payload in
  match find_task key t with
  | Some row =>
      if negb (final_state (tk_state row)) && negb (bool_decide (tk_payload_sha256 row = digest))
      then (Raise LedgerConflictError, t)
      else (Ok (row, false), t)
  | None =>
      if negb room then (Raise StorageCapacityError, t)
      else
        let row := mkTask key kind envelope_id payload digest T_PENDING 0 (fl_of_Z 0) None None 0 false
                     None None now now in
        (Ok (row, true), t ++ [row])
  end.

(** [get] *)
Definition get_task (key : str) (t : table) : option task_row := find_task key t.

(** The [WHERE] clause of [_claim]; [COALESCE(lease_until, 0)]. *)
Definition due (now : float) (r : task_row) : bool :=
  (bool_decide (tk_state r = T_PENDING) && fl_leb (tk_next_attempt_at r) now)
  || (bool_decide (tk_state r = T_PROCESSING) && fl_leb (default (fl_of_Z 0) (tk_lease_until r)) now).

(** The row of a successful claim. *)
Definition claimed_row (now lease_seconds : float) (token : str) (r : task_row) : task_row :=
  r <| tk_state := T_PROCESSING |> <| tk_attempts := tk_attempts r + 1 |>
    <| tk_lease_until := Some (fl_add now lease_seconds) |> <| tk_lease_token := Some token |>
    <| tk_updated_at := now |>.

(** [_claim]: [ORDER BY created_at ASC LIMIT 1], rows of one instant in table
    order. *)
Definition claim_where (sel : task_row -> bool) (now lease_seconds : float) (token : str) (t : table)
    : option task_row * table :=
  match isort (fun a b => fl_ltb (tk_created_at a) (tk_created_at b))
          (base.filter (fun r => sel r && due now r = true) t) with
  | [] => (None, t)
  | row :: _ =>
      let '(t, _) := update_where (fun r => bool_decide (tk_key r = tk_key row))
                       (claimed_row now lease_seconds token) t in
      (find_task (tk_key row) t, t)
  end.

Definition claim (key : str) := claim_where (fun r => bool_decide (tk_key r = key)).
Definition claim_next := claim_where (fun _ => true).

(** [WHERE task_key = ? AND state = 'processing' AND lease_token = ?] *)
Definition held_by (key token : str) (r : task_row) : bool :=
  bool_decide (tk_key r = key) && bool_decide (tk_state r = T_PROCESSING)
  && bool_decide (tk_lease_token r = Some token).

(** [SET lease_until = ?, updated_at = ?] *)
Definition extended_row (now lease_seconds : float) (r : task_row) : task_row :=
  r <| tk_lease_until := Some (fl_add now lease_seconds) |> <| tk_updated_at := now |>.

(** [extend_lease] *)
Definition extend_lease (key token : str) (now lease_seconds : float) (t : table) : bool * table :=
  let '(t, changed) := update_where (held_by key token) (extended_row now lease_seconds) t in
  (Nat.eqb changed 1, t).

(** [_prune_completed]: [ORDER BY updated_at DESC LIMIT -1 OFFSET max_completed]
    deletes the final rows after the first [max_completed]. *)
Definition prune_completed (t : table) : table :=
  let finals := isort (fun a b => fl_ltb (tk_updated_at b) (tk_updated_at a))
                  (base.filter (fun r => final_state (tk_state r) = true) t) in
  let dropped := tk_key <$> drop completed_limit finals in
  base.filter (fun r => tk_key r ∉ dropped) t.

(** The status a processor reports for a finished task. *)
Definition status_state (complete : bool) : TaskState := if complete then T_COMPLETE else T_PARTIAL.

(** The [SET] clause of [complete]; the payload is discarded. *)
Definition completed_row (status : bool) (records : Z) (truncated : bool) (reason : option str) (now : float)
    (r : task_row) : task_row :=
  r <| tk_state := status_state status |> <| tk_payload := [] |>
    <| tk_derived_records := records |> <| tk_derived_truncated := truncated |>
    <| tk_derived_reason := reason |> <| tk_last_error := None |>
    <| tk_lease_until := None |> <| tk_lease_token := None |> <| tk_updated_at := now |>.

(** [complete] *)
Definition complete (key token : str) (status : bool) (records : Z) (truncated : bool) (reason : option str)
    (now : float) (t : table) : bool * table :=
  let '(t, changed) := update_where (held_by key token) (completed_row status records truncated reason now) t in
  let t := if Nat.eqb changed 0 then t else prune_completed t in
  (Nat.eqb changed 1, t).

(** The [SET] clause of [retry]. *)
Definition retried_row (reason : str) (delay_seconds now : float) (r : task_row) : task_row :=
  r <| tk_state := T_PENDING |>
    <| tk_next_attempt_at := fl_add now (fl_max (fl_of_Z 0) delay_seconds) |>
    <| tk_last_error := Some (take 2048 reason) |>
    <| tk_lease_until := None |> <| tk_lease_token := None |> <| tk_updated_at := now |>.

(** [retry] *)
Definition retry (key token : str) (reason : str) (delay_seconds now : float) (t : table) : bool * table :=
  let '(t, changed) := update_where (held_by key token) (retried_row reason delay_seconds now) t in
  (Nat.eqb changed 1, t).

(** [counts] *)
Definition counts (t : table) : list (TaskState * nat) :=
  (fun s => (s, length (base.filter (fun r => tk_state r = s) t))) <$>
    [T_PENDING; T_PROCESSING; T_COMPLETE; T_PARTIAL].
End Ledger.

(** ** Lineage *)

(** SQLite's [LIKE] folds ASCII letters. *)
Definition fold_c (c : N) : N := if (65 <=? c)%N && (c <=? 90)%N then (c + 32)%N else c.

(** [text LIKE pattern ESCAPE '\']: [%] is any text, [_] any character. *)
Fixpoint like (pattern text : str) {struct pattern} : bool :=
  match pattern with
  | [] => match text with [] => true | _ => false end
  | c :: p =>
      if (c =? 37)%N then
        (fix any (text : str) : bool :=
           like p text || match text with [] => false | _ :: text' => any text' end) text
      else if (c =? 92)%N then
        match p, text with
        | e :: p', d :: text' => (fold_c e =? fold_c d)%N && like p' text'
        | _, _ => false
        end
      else
        match text with
        | d :: text' => ((c =? 95) || (fold_c c =? fold_c d))%N && like p text'
        | [] => false
        end
  end.

Definition kind_value (k : TaskKind) : str :=
  match k with ASSET_REPORT => u "asset-report" | TRACE_BATCH => u "trace-batch" | GUARD_EVENT => u "guard-event" end.

(** The three [replace] calls: a backslash before each special character. *)
Definition escape_like (s : str) : str :=
  s ≫= fun c => if (c =? 92)%N || (c =? 37)%N || (c =? 95)%N then [92%N; c] else [c].

Definition base_key (kind : TaskKind) (source envelope_id : str) : str :=
  kind_value kind ++ u ":" ++ source ++ u ":" ++ envelope_id.

Definition lineage_limit : nat := 4096.

(** [lineage] *)
Definition lineage (kind : TaskKind) (source envelope_id : str) (t : table) : list task_row :=
  let key := base_key kind source envelope_id in
  let pattern := escape_like (key ++ u "::chunk-") ++ u "%" in
  take lineage_limit (isort (fun a b => fl_ltb (tk_created_at a) (tk_created_at b))
    (base.filter (fun r => bool_decide (tk_key r = key) || like pattern (tk_key r) = true) t)).

(** ** The worker *)

(** [_retry_delay], with the bounds it is given. *)
Definition retry_exponent (attempts : Z) : Z := Z.min (Z.max 0 (attempts - 1)) 20.
Definition retry_delay (base_seconds max_seconds : float) (attempts : Z) : float :=
  fl_min max_seconds (fl_mul base_seconds (fl_of_Z (2 ^ retry_exponent attempts))).

(** What the processor of a task does: it raises, fails with a reason or
    finishes. *)
Inductive processed :=
| Crashed (name : str)
| Failed_with (reason : option str)
| Finished (complete : bool) (records : Z) (truncated : bool) (reason : option str).

(** [_process], at the time [now] of its last call. *)
Definition process (max_completed : Z) (base_seconds max_seconds : float) (task : task_row) (outcome : processed)
    (now : float) (t : table) : bool * table :=
  match tk_lease_token task with
  | None => (false, t)
  | Some token =>
      let delay := retry_delay base_seconds max_seconds (tk_attempts task) in
      match outcome with
      | Crashed name => let '(_, t) := retry (tk_key task) token name delay now t in (false, t)
      | Failed_with reason =>
          retry (tk_key task) token
            (match reason with Some ((_ :: _) as r) => r | _ => u "derived_processing_failed" end) delay now t
      | Finished status records truncated reason =>
          complete max_completed (tk_key task) token status records truncated reason now t
      end
  end.
