(* ===== verification/LedgerProps.v ===== *)
(** * What the ingest ledger promises

    Acknowledged work is never lost, an outcome is recorded once, and only the
    worker holding the current lease can move a task. *)

From stdpp Require Import base sets strings numbers list sorting.
From Stdlib Require Import ZArith Lia.
From S2P Require Import Prelude PyText PyHash PyFloat Compare Tables IngestLedger.

#[local] Open Scope Z_scope.

(** ** Calls *)

Inductive call :=
| Submit (key : str) (kind : TaskKind) (envelope_id payload : str) (now : float) (room : bool)
| Claim (key : str) (now lease_seconds : float) (token : str)
| ClaimNext (now lease_seconds : float) (token : str)
| Extend (key token : str) (now lease_seconds : float)
| Complete (key token : str) (status : bool) (records : Z) (truncated : bool) (reason : option str) (now : float)
| Retry (key token reason : str) (delay_seconds now : float).

Section Ledger.
Context (max_completed : Z).

Definition exec (c : call) (t : table) : table :=
  match c with
  | Submit key kind id payload now room => (submit key kind id payload now room t).2
  | Claim key now lease token => (claim key now lease token t).2
  | ClaimNext now lease token => (claim_next now lease token t).2
  | Extend key token now lease => (extend_lease key token now lease t).2
  | Complete key token status records truncated reason now =>
      (complete max_completed key token status records truncated reason now t).2
  | Retry key token reason delay now => (retry key token reason delay now t).2
  end.

Definition run (cs : list call) (t : table) : table := fold_left (fun t c => exec c t) cs t.

(** What a call may do to one row. *)
Definition task_step (c : call) (r r' : task_row) : Prop :=
  r' = r \/
  match c with
  | Submit _ _ _ _ _ _ => False
  | Claim _ now lease token | ClaimNext now lease token => due now r = true /\ r' = claimed_row now lease token r
  | Extend key token now lease => held_by key token r = true /\ r' = extended_row now lease r
  | Complete key token status records truncated reason now =>
      held_by key token r = true /\ r' = completed_row status records truncated reason now r
  | Retry key token reason delay now => held_by key token r = true /\ r' = retried_row reason delay now r
  end.

Definition is_complete (c : call) : bool := match c with Complete _ _ _ _ _ _ _ => true | _ => false end.

Definition keys (t : table) : list str := tk_key <$> t.

(** ** Rows under unique keys *)

Lemma find_task_elem key t r : NoDup (keys t) -> find_task key t = Some r <-> r ∈ t /\ tk_key r = key.
Proof.
  unfold find_task, keys. intros Hn. split.
  - intros Hh. assert (Hin : r ∈ base.filter (fun r => tk_key r = key) t).
    { destruct (base.filter _ t); [done|]. injection Hh as ->. by left. }
    by apply list_elem_of_filter in Hin as [? ?].
  - intros [Hin Hk]. induction t as [|x t IH]; [by apply not_elem_of_nil in Hin|].
    csimpl in Hn. apply NoDup_cons in Hn as [Hx Hn]. rewrite filter_cons. case_decide as Hxk.
    + apply elem_of_cons in Hin as [->|Hin]; [done|]. exfalso. apply Hx. rewrite Hxk, <-Hk.
      apply list_elem_of_fmap. by exists r.
    + apply elem_of_cons in Hin as [->|Hin]; [done|]. by apply IH.
Qed.

Lemma find_task_None key t : find_task key t = None <-> key ∉ keys t.
Proof.
  unfold find_task, keys. induction t as [|x t IH]; [set_solver|]. rewrite filter_cons. csimpl.
  case_decide; simpl; [set_solver|]. rewrite IH. set_solver.
Qed.

(** An update that keeps the keys. *)
Lemma update_where_keys p f t : (forall r, tk_key (f r) = tk_key r) -> keys (update_where p f t).1 = keys t.
Proof.
  intros Hf. unfold update_where, keys. cbn [fst]. rewrite <-list_fmap_compose. apply list_fmap_ext.
  intros i r _. simpl. by destruct (p r).
Qed.

Lemma update_where_find p f t key : NoDup (keys t) -> (forall r, tk_key (f r) = tk_key r) ->
  find_task key (update_where p f t).1 = (fun r => if p r then f r else r) <$> find_task key t.
Proof.
  intros Hn Hf. pose proof (update_where_keys p f t Hf) as Hk.
  destruct (find_task key t) as [r|] eqn:E.
  - apply find_task_elem in E as [Hin Hr]; [|done]. apply find_task_elem; [by rewrite Hk|]. cbn. split.
    + apply list_elem_of_fmap. by exists r.
    + destruct (p r); [by rewrite Hf|done].
  - cbn [fmap option_fmap option_map]. apply find_task_None. rewrite Hk. by apply find_task_None.
Qed.

Lemma claim_where_spec sel now lease token t : NoDup (keys t) ->
  keys (claim_where sel now lease token t).2 = keys t /\
  match (claim_where sel now lease token t).1 with
  | Some r' => exists r, r ∈ t /\ sel r = true /\ due now r = true /\ r' = claimed_row now lease token r /\
      (claim_where sel now lease token t).2 = (fun x => if bool_decide (tk_key x = tk_key r)
                                                       then claimed_row now lease token x else x) <$> t
  | None => (claim_where sel now lease token t).2 = t /\ forall r, r ∈ t -> sel r && due now r = false
  end.
Proof.
  intros Hn. unfold claim_where.
  pose proof (isort_perm (fun a b => fl_ltb (tk_created_at a) (tk_created_at b))
    (base.filter (fun r => sel r && due now r = true) t)) as Hp.
  destruct (isort _ _) as [|row rest].
  - split; [done|]. split; [done|]. intros r Hr. destruct (sel r && due now r) eqn:E; [|done].
    assert (Hin : r ∈ base.filter (fun r => sel r && due now r = true) t) by (by apply list_elem_of_filter).
    rewrite <-Hp in Hin. by apply not_elem_of_nil in Hin.
  - assert (Hin : row ∈ base.filter (fun r => sel r && due now r = true) t) by (rewrite <-Hp; by left).
    apply list_elem_of_filter in Hin as [[Hs Hd]%andb_true_iff Hin].
    destruct (update_where _ _ t) as [t' n] eqn:E.
    assert (Ht' : t' = (update_where (fun r => bool_decide (tk_key r = tk_key row))
      (claimed_row now lease token) t).1) by (by rewrite E).
    cbn [fst snd]. split; [rewrite Ht'; by apply update_where_keys|].
    rewrite Ht', update_where_find by done. rewrite (proj2 (find_task_elem (tk_key row) t row Hn)) by done.
    cbn [fmap option_fmap option_map]. rewrite bool_decide_true by done. exists row. by rewrite <-Ht'.
Qed.

(** ** Pruning *)

Definition dropped_keys (t : table) : list str :=
  tk_key <$> drop (completed_limit max_completed)
    (isort (fun a b => fl_ltb (tk_updated_at b) (tk_updated_at a))
       (base.filter (fun r => final_state (tk_state r) = true) t)).

Lemma dropped_final t key : key ∈ dropped_keys t -> exists r, r ∈ t /\ tk_key r = key /\ final_state (tk_state r) = true.
Proof.
  unfold dropped_keys. intros (r & -> & Hr)%list_elem_of_fmap. exists r.
  assert (Hin : r ∈ base.filter (fun r => final_state (tk_state r) = true) t).
  { eapply isort_elem, elem_of_sublist; [exact Hr|apply sublist_drop]. }
  by apply list_elem_of_filter in Hin as [? ?].
Qed.

Lemma fmap_sublist {A B} (f : A -> B) (l1 l2 : list A) : l1 `sublist_of` l2 -> (f <$> l1) `sublist_of` (f <$> l2).
Proof. induction 1; csimpl; [apply sublist_nil|by apply sublist_skip|by apply sublist_cons]. Qed.

Lemma filter_keys_NoDup (P : task_row -> Prop) `{!forall r, Decision (P r)} (t : table) :
  NoDup (keys t) -> NoDup (keys (base.filter P t)).
Proof. intros Hn. eapply sublist_NoDup; [exact Hn|]. unfold keys. apply fmap_sublist, sublist_filter. Qed.

Lemma prune_find t key : NoDup (keys t) ->
  find_task key (prune_completed max_completed t) =
    if bool_decide (key ∈ dropped_keys t) then None else find_task key t.
Proof.
  intros Hn. unfold prune_completed. fold (dropped_keys t).
  set (t' := base.filter (fun r => tk_key r ∉ dropped_keys t) t).
  assert (Hn' : NoDup (keys t')) by (by apply filter_keys_NoDup).
  assert (Helem : forall r, r ∈ t' <-> (tk_key r ∉ dropped_keys t) /\ r ∈ t)
    by (intros r; unfold t'; by rewrite list_elem_of_filter).
  destruct (find_task key t') as [r|] eqn:E.
  - apply find_task_elem in E as [Hr Hk]; [|done]. apply Helem in Hr as [Hd Hr].
    rewrite bool_decide_false by congruence. symmetry. by apply find_task_elem.
  - apply find_task_None in E. case_bool_decide as Hd; [done|]. symmetry. apply find_task_None.
    intros Hk. apply E. unfold keys in Hk |- *. apply list_elem_of_fmap in Hk as (r & -> & Hr).
    apply list_elem_of_fmap. exists r. split; [done|]. by apply Helem.
Qed.

Lemma prune_limit t : NoDup (keys t) ->
  (length (base.filter (fun r => final_state (tk_state r) = true) (prune_completed max_completed t)) <=
   completed_limit max_completed)%nat.
Proof.
  intros Hn. unfold prune_completed. fold (dropped_keys t).
  set (finals := isort (fun a b => fl_ltb (tk_updated_at b) (tk_updated_at a))
                   (base.filter (fun r => final_state (tk_state r) = true) t)).
  assert (Hnf : NoDup (tk_key <$> finals)).
  { unfold finals. rewrite isort_perm. by apply (filter_keys_NoDup (fun r => final_state (tk_state r) = true)). }
  assert (Hsub : base.filter (fun r => final_state (tk_state r) = true)
      (base.filter (fun r => tk_key r ∉ dropped_keys t) t) ⊆ take (completed_limit max_completed) finals).
  { intros r [Hfin [Hd Hr]%list_elem_of_filter]%list_elem_of_filter.
    assert (Hin : r ∈ finals) by (unfold finals; apply isort_elem; by apply list_elem_of_filter).
    rewrite <-(take_drop (completed_limit max_completed) finals) in Hin. apply elem_of_app in Hin as [?|Hin]; [done|].
    exfalso. apply Hd. unfold dropped_keys. fold finals. apply list_elem_of_fmap. by exists r. }
  assert (Hnd : NoDup (base.filter (fun r => final_state (tk_state r) = true)
      (base.filter (fun r => tk_key r ∉ dropped_keys t) t))).
  { apply NoDup_filter, NoDup_filter. by apply NoDup_fmap_1 with (f := tk_key). }
  etransitivity; [apply (submseteq_length _ _ (NoDup_submseteq _ _ Hnd (fun r Hr => Hsub r Hr)))|].
  rewrite length_take. lia.
Qed.

(** ** One call *)

Lemma held_by_key key token r : held_by key token r = true -> tk_key r = key.
Proof. unfold held_by. intros [[?%bool_decide_eq_true _]%andb_true_iff _]%andb_true_iff. done. Qed.

(** The keys after a call: the same, fewer after a completion, or one more after
    a submission. *)
Definition keys_after (c : call) (ks ks' : list str) : Prop :=
  ks' = ks \/ (is_complete c = true /\ (sublist ks' ks)) \/
  match c with Submit k _ _ _ _ _ => k ∉ ks /\ ks' = ks ++ [k] | _ => False end.

Lemma exec_keys_after c t : NoDup (keys t) -> keys_after c (keys t) (keys (exec c t)).
Proof.
  intros Hn. unfold keys_after.
  destruct c as [key kind id payload now room|key now lease token|now lease token|key token now lease
    |key token status records truncated reason now|key token reason delay now]; cbn [exec is_complete].
  - unfold submit. destruct (find_task key t) as [r|] eqn:E; [left; by destruct (_ && _)|].
    destruct room; cbn [negb snd]; [|by left]. apply find_task_None in E. right; right. split; [done|].
    unfold keys. by rewrite fmap_app.
  - left. apply claim_where_spec, Hn.
  - left. apply claim_where_spec, Hn.
  - left. pose proof (update_where_keys (held_by key token) (extended_row now lease) t (fun _ => eq_refl)) as Hk.
    unfold extend_lease. by destruct (update_where _ _ t).
  - pose proof (update_where_keys (held_by key token) (completed_row status records truncated reason now) t (fun _ => eq_refl)) as Hk.
    unfold complete. destruct (update_where _ _ t) as [t' n]. cbn [fst] in Hk. destruct (Nat.eqb n 0); cbn [snd]; [by left|].
    right; left. split; [done|]. rewrite <-Hk. unfold keys, prune_completed. apply fmap_sublist, sublist_filter.
  - left. pose proof (update_where_keys (held_by key token) (retried_row reason delay now) t (fun _ => eq_refl)) as Hk.
    unfold retry. by destruct (update_where _ _ t).
Qed.

Lemma exec_keys c t : NoDup (keys t) -> NoDup (keys (exec c t)).
Proof.
  intros Hn. destruct (exec_keys_after c t Hn) as [->|[[_ Hs]|Ha]]; [done|by eapply sublist_NoDup|].
  destruct c; try done. destruct Ha as [Hk ->]. apply list.NoDup_app. split; [done|]. split; [set_solver|].
  apply NoDup_singleton.
Qed.

Lemma update_where_step p f t key r : NoDup (keys t) -> (forall r, tk_key (f r) = tk_key r) ->
  find_task key t = Some r ->
  exists r', find_task key (update_where p f t).1 = Some r' /\ (r' = r \/ (p r = true /\ r' = f r)).
Proof.
  intros Hn Hf Hr. rewrite update_where_find, Hr by done. cbn [fmap option_fmap option_map].
  eexists. split; [done|]. destruct (p r); auto.
Qed.

Lemma claim_step sel now lease token t key r : NoDup (keys t) -> find_task key t = Some r ->
  exists r', find_task key (claim_where sel now lease token t).2 = Some r' /\
    (r' = r \/ (due now r = true /\ r' = claimed_row now lease token r)).
Proof.
  intros Hn Hr. destruct (claim_where_spec sel now lease token t Hn) as [_ Hc].
  destruct (claim_where sel now lease token t) as [[x|] t']; cbn [fst snd] in *.
  - destruct Hc as (y & Hy & _ & Hd & _ & ->).
    pose proof (update_where_step (fun x => bool_decide (tk_key x = tk_key y)) (claimed_row now lease token) t key r
      Hn (fun _ => eq_refl) Hr) as (r' & Hf & Ho). exists r'. split; [exact Hf|].
    destruct Ho as [?|[Hk%bool_decide_eq_true ->]]; [by left|right].
    assert (y = r) as ->; [|done]. apply find_task_elem in Hr as [Hin <-]; [|done].
    assert (H1 : find_task (tk_key r) t = Some y) by (by apply find_task_elem).
    assert (H2 : find_task (tk_key r) t = Some r) by (by apply find_task_elem). congruence.
  - destruct Hc as [-> _]. exists r. auto.
Qed.

(** A call changes a row only as [task_step] says, and only completing another
    task can delete one, a final one. *)
Lemma exec_step c t key r : NoDup (keys t) -> find_task key t = Some r ->
  match find_task key (exec c t) with
  | Some r' => task_step c r r'
  | None => is_complete c = true /\ final_state (tk_state r) = true \/
            exists r', task_step c r r' /\ is_complete c = true /\ final_state (tk_state r') = true
  end.
Proof.
  intros Hn Hr. destruct c as [k kind id payload now room|k now lease token|now lease token|k token now lease
    |k token status records truncated reason now|k token reason delay now]; cbn [exec is_complete].
  - assert (Hkeep : find_task key (submit k kind id payload now room t).2 = Some r); [|rewrite Hkeep; by left].
    unfold submit. destruct (find_task k t) as [x|] eqn:E; [by destruct (_ && _)|]. destruct room; [|done].
    unfold find_task in *. cbn [snd negb]. rewrite list.filter_app. destruct (base.filter _ t); [done|exact Hr].
  - destruct (claim_step (fun r => bool_decide (tk_key r = k)) now lease token t key r Hn Hr) as (r' & Hf & Ho).
    unfold claim. rewrite Hf. exact Ho.
  - destruct (claim_step (fun _ => true) now lease token t key r Hn Hr) as (r' & Hf & Ho).
    unfold claim_next. rewrite Hf. exact Ho.
  - destruct (update_where_step (held_by k token) (extended_row now lease) t key r Hn (fun _ => eq_refl) Hr) as (r' & Hf & Ho).
    unfold extend_lease. destruct (update_where _ _ t) as [t' n]. cbn [fst snd] in *. rewrite Hf. exact Ho.
  - destruct (update_where_step (held_by k token) (completed_row status records truncated reason now) t key r Hn
      (fun _ => eq_refl) Hr) as (r' & Hf & Ho).
    pose proof (update_where_keys (held_by k token) (completed_row status records truncated reason now) t (fun _ => eq_refl)) as Hk.
    unfold complete. destruct (update_where _ _ t) as [t' n]. cbn [fst snd] in *.
    destruct (Nat.eqb n 0); cbn [snd]; [rewrite Hf; exact Ho|]. rewrite prune_find by (by rewrite Hk).
    case_bool_decide as Hd; [|rewrite Hf; exact Ho]. right. exists r'. split; [exact Ho|]. split; [done|].
    apply dropped_final in Hd as (y & Hy & Hyk & Hfin).
    assert (Hy' : find_task key t' = Some y) by (apply find_task_elem; [by rewrite Hk|done]). congruence.
  - destruct (update_where_step (held_by k token) (retried_row reason delay now) t key r Hn (fun _ => eq_refl) Hr) as (r' & Hf & Ho).
    unfold retry. destruct (update_where _ _ t) as [t' n]. cbn [fst snd] in *. rewrite Hf. exact Ho.
Qed.

(** ** Properties *)

Lemma run_keys cs t : NoDup (keys t) -> NoDup (keys (run cs t)).
Proof. revert t. induction cs as [|c cs IH]; intros t Hn; [done|]. apply IH. by apply exec_keys. Qed.

Lemma run_cons c cs t : run (c :: cs) t = run cs (exec c t).
Proof. done. Qed.

(** Whether a call records the outcome of a task under a key. *)
Definition completes (key : str) (c : call) : bool :=
  match c with Complete k _ _ _ _ _ _ => bool_decide (k = key) | _ => false end.

Lemma step_open c r r' : task_step c r r' -> completes (tk_key r) c = false ->
  final_state (tk_state r) = false ->
  final_state (tk_state r') = false /\ tk_key r' = tk_key r /\ tk_kind r' = tk_kind r /\
  tk_envelope_id r' = tk_envelope_id r /\ tk_payload r' = tk_payload r /\
  tk_payload_sha256 r' = tk_payload_sha256 r /\ tk_created_at r' = tk_created_at r.
Proof.
  intros [->|Hs] Hc Hf; [done|]. destruct c; simpl in Hs; try done; destruct Hs as [Hh ->]; try done.
  apply held_by_key in Hh. simpl in Hc. by rewrite Hh, bool_decide_true in Hc by done.
Qed.

Lemma open_kept cs : forall t key r, NoDup (keys t) -> find_task key t = Some r -> final_state (tk_state r) = false ->
  (forall c, c ∈ cs -> completes key c = false) ->
  exists r', find_task key (run cs t) = Some r' /\ final_state (tk_state r') = false /\
    tk_kind r' = tk_kind r /\ tk_envelope_id r' = tk_envelope_id r /\ tk_payload r' = tk_payload r /\
    tk_payload_sha256 r' = tk_payload_sha256 r.
Proof.
  induction cs as [|c cs IH]; intros t key r Hn Hr Hf Hc; [by exists r|]. rewrite run_cons.
  assert (Hk : tk_key r = key) by (by destruct (proj1 (find_task_elem key t r Hn) Hr)).
  assert (Hc' : completes (tk_key r) c = false) by (rewrite Hk; apply Hc; by left).
  pose proof (exec_step c t key r Hn Hr) as Hs. destruct (find_task key (exec c t)) as [r1|] eqn:E.
  - destruct (step_open c r r1 Hs Hc' Hf) as (Hf1 & _ & K1 & K2 & K3 & K4 & _).
    destruct (IH (exec c t) key r1) as (r' & ? & ? & ? & ? & ? & ?);
      [by apply exec_keys|done|done|intros; apply Hc; by right|].
    exists r'. split_and!; congruence.
  - exfalso. destruct Hs as [[_ Hs]|(r1 & Hs & _ & Hf1)]; [congruence|].
    destruct (step_open c r r1 Hs Hc' Hf) as [? _]. congruence.
Qed.

(** C11. Acknowledged work is never lost: once a task is in the ledger, whatever
    calls follow, it stays there unfinished with its envelope - kind, id, payload
    and digest - until some worker records an outcome under its key. *)
Theorem acknowledged_work_kept cs0 cs key r :
  let t := run cs0 [] in
  find_task key t = Some r -> final_state (tk_state r) = false ->
  (forall c, c ∈ cs -> completes key c = false) ->
  exists r', find_task key (run cs t) = Some r' /\ final_state (tk_state r') = false /\
    tk_kind r' = tk_kind r /\ tk_envelope_id r' = tk_envelope_id r /\ tk_payload r' = tk_payload r /\
    tk_payload_sha256 r' = tk_payload_sha256 r.
Proof. intros t Hr Hf Hc. apply open_kept; [|done..]. apply run_keys, NoDup_nil_2. Qed.

Lemma step_final c r r' : task_step c r r' -> final_state (tk_state r) = true -> r' = r.
Proof.
  intros [->|Hs] Hf; [done|].
  assert (Hne : tk_state r <> T_PENDING /\ tk_state r <> T_PROCESSING) by (split; intros E; by rewrite E in Hf).
  destruct Hne as [N1 N2].
  assert (Hd : forall now, due now r = false) by (intros; unfold due; by rewrite !bool_decide_false).
  assert (Hh : forall k t, held_by k t r = false).
  { intros. unfold held_by. rewrite (bool_decide_false (tk_state r = T_PROCESSING)) by done. by rewrite andb_false_r. }
  destruct c; cbn in Hs; try done; destruct Hs as [Hx _]; rewrite ?Hd, ?Hh in Hx; done.
Qed.

(** Whether a call submits under a key. *)
Definition submits (key : str) (c : call) : bool :=
  match c with Submit k _ _ _ _ _ => bool_decide (k = key) | _ => false end.

Lemma absent_stays cs : forall t key, NoDup (keys t) -> key ∉ keys t -> (forall c, c ∈ cs -> submits key c = false) ->
  key ∉ keys (run cs t).
Proof.
  induction cs as [|c cs IH]; intros t key Hn Hk Hc; [done|]. rewrite run_cons.
  apply IH; [by apply exec_keys| |intros; apply Hc; by right]. intros Hin.
  destruct (exec_keys_after c t Hn) as [E|[[_ Hs]|Ha]].
  - by rewrite E in Hin.
  - apply Hk. by eapply elem_of_sublist.
  - pose proof (Hc c ltac:(by left)) as Hcc. destruct c as [k| | | | |]; try done. destruct Ha as [_ Ha].
    apply bool_decide_eq_false in Hcc. rewrite Ha in Hin. set_solver.
Qed.

Lemma final_kept cs : forall t key r, NoDup (keys t) -> find_task key t = Some r -> final_state (tk_state r) = true ->
  (forall c, c ∈ cs -> submits key c = false) ->
  find_task key (run cs t) = Some r \/ find_task key (run cs t) = None.
Proof.
  induction cs as [|c cs IH]; intros t key r Hn Hr Hf Hc; [by left|]. rewrite run_cons.
  pose proof (exec_step c t key r Hn Hr) as Hs. destruct (find_task key (exec c t)) as [r1|] eqn:E.
  - apply step_final in Hs as ->; [|done]. apply IH; [by apply exec_keys|done..|]. intros; apply Hc; by right.
  - right. apply find_task_None. apply find_task_None in E.
    apply absent_stays; [by apply exec_keys|done|]. intros; apply Hc; by right.
Qed.

(** C12. An outcome is recorded once: a finished task never changes again. As long
    as it is retained, whatever calls follow, its row is the one that was
    recorded, and a submission under its key - with any payload - replays it and
    leaves the ledger alone. *)
Theorem outcome_recorded_once cs0 cs key r r' kind id payload now room :
  let t := run cs0 [] in
  find_task key t = Some r -> final_state (tk_state r) = true ->
  (forall c, c ∈ cs -> submits key c = false) ->
  find_task key (run cs t) = Some r' ->
  r' = r /\ submit key kind id payload now room (run cs t) = (Ok (r, false), run cs t).
Proof.
  intros t Hr Hf Hc Hr'. assert (Hn : NoDup (keys t)) by (apply run_keys, NoDup_nil_2).
  destruct (final_kept cs t key r Hn Hr Hf Hc) as [E|E]; rewrite E in Hr'; [|done]. injection Hr' as <-.
  split; [done|]. unfold submit. by rewrite E, Hf.
Qed.

(** ** Superseded workers *)

(** Nobody holds the token for the key. *)
Definition token_void (key token : str) (t : table) : Prop := forall r, r ∈ t -> held_by key token r = false.

(** Whether a call hands out a token. *)
Definition draws (token : str) (c : call) : bool :=
  match c with Claim _ _ _ k | ClaimNext _ _ k => bool_decide (k = token) | _ => false end.

Lemma held_by_false key token r : tk_lease_token r <> Some token -> held_by key token r = false.
Proof. intros Hne. unfold held_by. rewrite (bool_decide_false _ Hne). by rewrite !andb_false_r. Qed.

(** Rows after a call come from rows before it, or from a submission. *)
Lemma exec_row_origin c t r' : NoDup (keys t) -> r' ∈ exec c t ->
  (exists r, r ∈ t /\ task_step c r r') \/ (tk_state r' = T_PENDING /\ tk_lease_token r' = None).
Proof.
  intros Hn Hr'. pose proof (exec_keys c t Hn) as Hn'.
  destruct (find_task (tk_key r') t) as [r|] eqn:E.
  - left. exists r. split; [by destruct (proj1 (find_task_elem _ t r Hn) E)|].
    pose proof (exec_step c t (tk_key r') r Hn E) as Hs.
    by rewrite (proj2 (find_task_elem (tk_key r') (exec c t) r' Hn')) in Hs.
  - right. apply find_task_None in E.
    assert (Hk : tk_key r' ∈ keys (exec c t)) by (apply list_elem_of_fmap; by exists r').
    destruct (exec_keys_after c t Hn) as [K|[[_ Hs]|Ha]].
    + by rewrite K in Hk.
    + destruct E. by eapply elem_of_sublist.
    + destruct c as [k kind id payload now room| | | | |]; try done. destruct Ha as [Ha Hks].
      cbn [exec] in Hr', Hks. unfold submit in Hr', Hks. apply find_task_None in Ha. rewrite Ha in Hr', Hks.
      destruct room; cbn [negb snd] in Hr', Hks.
      * apply elem_of_app in Hr' as [Hin| ->%list_elem_of_singleton]; [|done].
        destruct E. apply list_elem_of_fmap. by exists r'.
      * destruct E. apply list_elem_of_fmap. by exists r'.
Qed.

Lemma token_void_step c t key token : NoDup (keys t) -> draws token c = false -> token_void key token t ->
  token_void key token (exec c t).
Proof.
  intros Hn Hd Hv r' Hr'. destruct (exec_row_origin c t r' Hn Hr') as [(r & Hr & Hs)|[_ Hnone]];
    [|apply held_by_false; by rewrite Hnone].
  specialize (Hv r Hr). destruct Hs as [->|Hs]; [done|].
  destruct c; cbn in Hs, Hd; try done; destruct Hs as [Hh ->];
    try (apply held_by_false; cbn; apply bool_decide_eq_false in Hd; congruence);
    try (apply held_by_false; done).
  exact Hv.
Qed.

Lemma token_void_run cs : forall t key token, NoDup (keys t) -> (forall c, c ∈ cs -> draws token c = false) ->
  token_void key token t -> token_void key token (run cs t).
Proof.
  induction cs as [|c cs IH]; intros t key token Hn Hd Hv; [done|]. rewrite run_cons.
  apply IH; [by apply exec_keys|intros; apply Hd; by right|]. apply token_void_step; [done| |done]. apply Hd. by left.
Qed.

(** A worker that lost its lease cannot touch the task: once the row of a key
    carries another token (or none), and as long as the old token is not drawn
    again, extending, completing and retrying with it return [False] and leave
    the ledger as it is. *)
Theorem superseded_worker_rejected cs0 cs key token r now lease status records truncated reason why delay :
  let t := run cs0 [] in let t' := run cs t in
  find_task key t = Some r -> tk_lease_token r <> Some token ->
  (forall c, c ∈ cs -> draws token c = false) ->
  extend_lease key token now lease t' = (false, t') /\
  complete max_completed key token status records truncated reason now t' = (false, t') /\
  retry key token why delay now t' = (false, t').
Proof.
  intros t t' Hr Hne Hd. assert (Hn : NoDup (keys t)) by (apply run_keys, NoDup_nil_2).
  assert (Hv : token_void key token t').
  { apply token_void_run; [done..|]. intros x Hx. destruct (decide (tk_key x = key)) as [Hk|Hk].
    - assert (x = r) as ->; [|by apply held_by_false].
      assert (find_task key t = Some x) by (by apply find_task_elem). congruence.
    - unfold held_by. by rewrite (bool_decide_false _ Hk). }
  unfold extend_lease, complete, retry. by rewrite !update_where_void.
Qed.

(** ** Bounds *)

Definition finals (t : table) : nat := length (base.filter (fun r => final_state (tk_state r) = true) t).

Lemma update_where_finals p f t : (forall r, p r = true -> final_state (tk_state (f r)) = false) ->
  (finals (update_where p f t).1 <= finals t)%nat.
Proof.
  intros Hp. unfold finals, update_where. cbn [fst]. induction t as [|x t IH]; [done|]. csimpl. rewrite !filter_cons.
  destruct (p x) eqn:E; [rewrite Hp by done|]; repeat case_decide; cbn [length] in *; try done; lia.
Qed.

Lemma claim_finals sel now lease token t : (finals (claim_where sel now lease token t).2 <= finals t)%nat.
Proof.
  unfold claim_where. destruct (isort _ _) as [|row rest]; [done|].
  pose proof (update_where_finals (fun r => bool_decide (tk_key r = tk_key row)) (claimed_row now lease token) t
    ltac:(done)) as Hu. by destruct (update_where _ _ t).
Qed.

Lemma exec_finals c t : NoDup (keys t) ->
  (finals t <= completed_limit max_completed)%nat -> (finals (exec c t) <= completed_limit max_completed)%nat.
Proof.
  intros Hn Hl. destruct c as [key kind id payload now room|key now lease token|now lease token|key token now lease
    |key token status records truncated reason now|key token reason delay now]; cbn [exec].
  - unfold submit. destruct (find_task key t); [by destruct (_ && _)|]. destruct room; [|done]. cbn [negb snd].
    unfold finals in *. rewrite list.filter_app, length_app, filter_cons_False by done. cbn [length base.filter list_filter]. lia.
  - etransitivity; [apply claim_finals|done].
  - etransitivity; [apply claim_finals|done].
  - unfold extend_lease. etransitivity; [|exact Hl].
    pose proof (update_where_finals (held_by key token) (extended_row now lease) t) as Hu.
    destruct (update_where _ _ t). apply Hu. unfold held_by. intros r [[_ Es%bool_decide_eq_true]%andb_true_iff _]%andb_true_iff.
    cbn. by rewrite Es.
  - pose proof (update_where_keys (held_by key token) (completed_row status records truncated reason now) t
      (fun _ => eq_refl)) as Hk.
    unfold complete. destruct (update_where _ _ t) as [t' n] eqn:E. cbn [fst] in Hk. destruct (Nat.eqb n 0) eqn:E0; cbn [snd].
    + assert (t' = t) as ->; [|done]. apply Nat.eqb_eq in E0 as ->. rewrite update_where_void in E; [by injection E|].
      intros r Hr. destruct (held_by key token r) eqn:Eh; [|done]. unfold update_where in E. injection E as _ E.
      apply length_zero_iff_nil in E. assert (Hin : r ∈ select_where (held_by key token) t)
        by (by apply elem_select_where). rewrite E in Hin. by apply not_elem_of_nil in Hin.
    + apply prune_limit. by rewrite Hk.
  - unfold retry. etransitivity; [|exact Hl].
    pose proof (update_where_finals (held_by key token) (retried_row reason delay now) t) as Hu.
    destruct (update_where _ _ t). by apply Hu.
Qed.

(** The ledger keeps at most [max_completed] finished tasks. *)
Lemma run_finals cs : (finals (run cs []) <= completed_limit max_completed)%nat.
Proof.
  assert (Hg : forall t, NoDup (keys t) -> (finals t <= completed_limit max_completed)%nat ->
    (finals (run cs t) <= completed_limit max_completed)%nat).
  { induction cs as [|c cs' IH]; intros t Hn Hl; [done|]. rewrite run_cons. apply IH; [by apply exec_keys|by apply exec_finals]. }
  apply Hg; [apply NoDup_nil_2|]. unfold finals. cbn. lia.
Qed.

(** ** No starvation *)

Definition claim_calls (lease_seconds : float) (claims : list (float * str)) : list call :=
  (fun p => ClaimNext p.1 lease_seconds p.2) <$> claims.

Lemma count_map_lt (p : task_row -> bool) (g : task_row -> task_row) (t : table) :
  (forall x, x ∈ t -> p (g x) = true -> p x = true) -> (exists y, y ∈ t /\ p y = true /\ p (g y) = false) ->
  (length (base.filter (fun x => p x = true) (g <$> t)) < length (base.filter (fun x => p x = true) t))%nat.
Proof.
  assert (Hle : forall t, (forall x, x ∈ t -> p (g x) = true -> p x = true) ->
    (length (base.filter (fun x => p x = true) (g <$> t)) <= length (base.filter (fun x => p x = true) t))%nat).
  { clear. induction t as [|x t IH]; intros Hp; [done|]. csimpl. rewrite !filter_cons.
    specialize (IH ltac:(intros; apply Hp; [by right|done])). pose proof (Hp x ltac:(by left)).
    repeat case_decide; cbn [length] in *; try lia. tauto. }
  induction t as [|x t IH]; intros Hp (y & Hy & Hpy & Hgy); [by apply not_elem_of_nil in Hy|].
  csimpl. rewrite !filter_cons. pose proof (Hp x ltac:(by left)) as Hx.
  assert (Hp' : forall x, x ∈ t -> p (g x) = true -> p x = true) by (intros; apply Hp; [by right|done]).
  apply elem_of_cons in Hy as [->|Hy].
  - rewrite Hpy, Hgy. repeat case_decide; try done. cbn [length]. specialize (Hle t Hp'). lia.
  - specialize (IH Hp' ltac:(by exists y)). repeat case_decide; cbn [length]; try lia. tauto.
Qed.

Section Fairness.
Context (times : list float) (lease_seconds : float).
Hypothesis leases_last : forall now later, now ∈ times -> later ∈ times -> fl_leb (fl_add now lease_seconds) later = false.

(** Not handed out yet in the period [times]. *)
Definition waiting (x : task_row) : bool :=
  bool_decide (tk_state x = T_PENDING) || existsb (fun now => due now x) times.

Lemma due_waiting now x : now ∈ times -> due now x = true -> waiting x = true.
Proof.
  intros Hn Hd. unfold waiting. apply orb_true_iff. right. apply existsb_exists. exists now.
  by rewrite <-list_elem_of_In.
Qed.

Lemma claimed_not_waiting now token x : now ∈ times -> waiting (claimed_row now lease_seconds token x) = false.
Proof.
  intros Hn. unfold waiting. rewrite bool_decide_false by done. cbn [orb]. apply not_true_is_false.
  intros (later & Hl & Hd)%existsb_exists. rewrite <-list_elem_of_In in Hl. unfold due in Hd.
  rewrite bool_decide_false in Hd by done. cbn in Hd. by rewrite (leases_last now later Hn Hl) in Hd.
Qed.

Lemma final_not_waiting x : final_state (tk_state x) = true -> waiting x = false.
Proof.
  intros Hf. unfold waiting. apply not_true_is_false. intros [Hw|(now & _ & Hw)%existsb_exists]%orb_true_iff;
    [|unfold due in Hw]; destruct (tk_state x); done.
Qed.

Lemma no_starvation claims : forall t key r, NoDup (keys t) -> find_task key t = Some r ->
  tk_state r = T_PENDING -> (forall now, now ∈ times -> due now r = true) ->
  (forall p, p ∈ claims -> p.1 ∈ times) ->
  (length (base.filter (fun x => waiting x = true) t) <= length claims)%nat ->
  exists pre now token post, claims = pre ++ (now, token) :: post /\
    (claim_next now lease_seconds token (run (claim_calls lease_seconds pre) t)).1 =
      Some (claimed_row now lease_seconds token r).
Proof.
  induction claims as [|[now token] claims IH]; intros t key r Hn Hr Hp Hd Ht Hl.
  - exfalso. assert (Hin : r ∈ base.filter (fun x => waiting x = true) t).
    { apply list_elem_of_filter. split; [unfold waiting; by rewrite bool_decide_true|].
      by destruct (proj1 (find_task_elem key t r Hn) Hr). }
    destruct (base.filter _ t); [by apply not_elem_of_nil in Hin|cbn in Hl; lia].
  - assert (Hnow : now ∈ times) by (apply (Ht (now, token)); by left).
    destruct (proj1 (find_task_elem key t r Hn) Hr) as [Hin Hk].
    destruct (claim_where_spec (fun _ => true) now lease_seconds token t Hn) as [Hks Hc].
    destruct (claim_where (fun _ => true) now lease_seconds token t) as [[y'|] t'] eqn:E; cbn [fst snd] in *.
    2: { destruct Hc as [_ Hc]. specialize (Hc r Hin). cbn in Hc. by rewrite Hd in Hc. }
    destruct Hc as (y & Hy & _ & Hdy & -> & Ht').
    destruct (decide (tk_key y = key)) as [Hyk|Hyk].
    + exists [], now, token, claims. split; [done|]. cbn [claim_calls fmap list_fmap]. unfold claim_next. cbn [run fold_left].
      rewrite E. cbn [fst]. assert (y = r) as ->; [|done].
      assert (find_task key t = Some y) by (by apply find_task_elem). congruence.
    + destruct (IH t' key r) as (pre & now' & token' & post & -> & Hgot).
      * by rewrite Hks.
      * apply find_task_elem; [by rewrite Hks|]. split; [|done]. rewrite Ht'. apply list_elem_of_fmap. exists r.
        by rewrite bool_decide_false by congruence.
      * done.
      * done.
      * intros p Hp'. apply Ht. by right.
      * assert (Hlt : (length (base.filter (fun x => waiting x = true) t') <
          length (base.filter (fun x => waiting x = true) t))%nat); [|cbn [length] in Hl; lia].
        rewrite Ht'. apply count_map_lt.
        -- intros x Hx. case_bool_decide; [|done]. by rewrite claimed_not_waiting.
        -- exists y. rewrite bool_decide_true by done. rewrite claimed_not_waiting by done.
           by rewrite (due_waiting now).
      * exists ((now, token) :: pre), now', token', post. split; [done|]. cbn [claim_calls fmap list_fmap].
        rewrite run_cons. cbn [exec fst snd]. unfold claim_next at 2. by rewrite E.
Qed.
End Fairness.

End Ledger.

(** ** Lineage *)

Lemma like_any text : like [37%N] text = true.
Proof. destruct text as [|c text]; [done|]. cbn. by induction text as [|d text IH]; [|rewrite IH]. Qed.

Lemma like_plain c p text : (c =? 92)%N || (c =? 37)%N || (c =? 95)%N = false ->
  like (c :: p) text = match text with d :: text' => (fold_c c =? fold_c d)%N && like p text' | [] => false end.
Proof.
  intros [[H1 H2]%orb_false_iff H3]%orb_false_iff. cbn [like]. rewrite H1, H2. destruct text as [|d text]; [done|].
  by rewrite H3.
Qed.

Lemma like_escaped c p text :
  like (92%N :: c :: p) text = match text with d :: text' => (fold_c c =? fold_c d)%N && like p text' | [] => false end.
Proof. by destruct text. Qed.

(** An escaped prefix followed by [%] matches the texts that start with it, up to
    the case of ASCII letters. *)
Lemma like_prefix p : forall text,
  like (escape_like p ++ u "%") text = true <-> exists s1 s2, text = s1 ++ s2 /\ fold_c <$> s1 = fold_c <$> p.
Proof.
  induction p as [|c p IH]; intros text.
  - split; [intros _; by exists [], text|intros _; apply like_any].
  - assert (Hstep : like (escape_like (c :: p) ++ u "%") text = match text with
      | d :: text' => (fold_c c =? fold_c d)%N && like (escape_like p ++ u "%") text' | [] => false end).
    { unfold escape_like. cbn [mbind list_bind app]. fold (escape_like p). destruct (_ || _) eqn:E.
      - rewrite <-app_assoc. apply like_escaped.
      - rewrite <-app_assoc. by apply like_plain. }
    rewrite Hstep. destruct text as [|d text].
    + split; [done|]. intros ([|d s1] & s2 & ? & Hf); done.
    + rewrite andb_true_iff, N.eqb_eq, IH. split.
      * intros [Hc (s1 & s2 & -> & Hf)]. exists (d :: s1), s2. split; [done|]. csimpl. by rewrite Hc, Hf.
      * intros ([|e s1] & s2 & He & Hf); [done|]. csimpl in Hf. injection Hf as Hc Hf. injection He as -> ->.
        split; [done|]. by exists s1, s2.
Qed.

(** The lineage of an envelope: while the limit is not reached, it is made of
    the retained tasks whose key is the envelope's or starts with the prefix of
    its chunks, the latter compared without regard to the case of ASCII letters. *)
Theorem lineage_spec kind source envelope_id t r :
  let key := base_key kind source envelope_id in
  (length t <= lineage_limit)%nat ->
  r ∈ lineage kind source envelope_id t <->
    r ∈ t /\ (tk_key r = key \/
      exists s1 s2, tk_key r = s1 ++ s2 /\ fold_c <$> s1 = fold_c <$> (key ++ u "::chunk-")).
Proof.
  intros key Hlen. unfold lineage. fold key. rewrite take_ge.
  - rewrite isort_elem, list_elem_of_filter, orb_true_iff, bool_decide_eq_true, like_prefix. tauto.
  - rewrite isort_perm. etransitivity; [apply sublist_length, sublist_filter|done].
Qed.

(** ** Witnesses *)

Definition w_now : float := fl_of_Z 1000.
Definition w_submit (key payload : String.string) : call := Submit (u key) TRACE_BATCH (u "b1") (u payload) w_now true.
Definition w_claim (now : Z) (token : String.string) : call := ClaimNext (fl_of_Z now) (fl_of_Z 30) (u token).
Definition w_done (token : String.string) : call := Complete (u "k1") (u token) true 3 false None w_now.

(** Two tasks are submitted and the first is claimed and completed. *)
Definition w_calls : list call := [w_submit "k1" "p"; w_submit "k2" "q"; w_claim 1000 "t1"; w_done "t1"].

Definition w_row (key : String.string) (cs : list call) : task_row :=
  default (mkTask [] TRACE_BATCH [] [] [] T_PENDING 0 w_now None None 0 false None None w_now w_now)
    (find_task (u key) (run 1 cs [])).

Lemma acknowledged_work_kept_witness :
  let r := w_row "k2" [w_submit "k1" "p"; w_submit "k2" "q"] in
  exists r', find_task (u "k2") (run 1 [w_claim 1000 "t1"; w_done "t1"; w_claim 1001 "t2"]
      (run 1 [w_submit "k1" "p"; w_submit "k2" "q"] [])) = Some r' /\
    final_state (tk_state r') = false /\ tk_kind r' = tk_kind r /\ tk_envelope_id r' = tk_envelope_id r /\
    tk_payload r' = tk_payload r /\ tk_payload_sha256 r' = tk_payload_sha256 r.
Proof.
  apply acknowledged_work_kept; [by vm_compute|by vm_compute|].
  intros c Hc. repeat (apply elem_of_cons in Hc as [->|Hc]; [by vm_compute|]). by apply not_elem_of_nil in Hc.
Defined.

Lemma outcome_recorded_once_witness :
  let r := w_row "k1" w_calls in
  r = r /\ submit (u "k1") ASSET_REPORT (u "other") (u "other payload") (fl_of_Z 2000) true
    (run 1 [w_claim 1001 "t2"] (run 1 w_calls [])) = (Ok (r, false), run 1 [w_claim 1001 "t2"] (run 1 w_calls [])).
Proof.
  apply (outcome_recorded_once 1 w_calls [w_claim 1001 "t2"] (u "k1")); [by vm_compute|by vm_compute| |by vm_compute].
  intros c Hc. apply list_elem_of_singleton in Hc as ->. by vm_compute.
Defined.

(** The lease of [t1] runs out at 1030 and [t2] takes over. *)
Lemma superseded_worker_rejected_witness :
  let t := run 1 [w_claim 1100 "t3"] (run 1 [w_submit "k1" "p"; w_claim 1000 "t1"; w_claim 1031 "t2"] []) in
  extend_lease (u "k1") (u "t1") (fl_of_Z 1032) (fl_of_Z 30) t = (false, t) /\
  complete 1 (u "k1") (u "t1") true 3 false None (fl_of_Z 1032) t = (false, t) /\
  retry (u "k1") (u "t1") (u "late") (fl_of_Z 5) (fl_of_Z 1032) t = (false, t).
Proof.
  eapply (superseded_worker_rejected 1 [w_submit "k1" "p"; w_claim 1000 "t1"; w_claim 1031 "t2"] [w_claim 1100 "t3"]
    (u "k1") (u "t1")); [vm_compute; reflexivity|by vm_compute|].
  intros c Hc. apply list_elem_of_singleton in Hc as ->. by vm_compute.
Defined.


(** The lineage of the envelope [a] holds a chunk of the envelope [A]. *)
Lemma lineage_spec_witness :
  let t := run 1 [w_submit "trace-batch:s:A::chunk-2-of-2" "p"] [] in
  let r := w_row "trace-batch:s:A::chunk-2-of-2" [w_submit "trace-batch:s:A::chunk-2-of-2" "p"] in
  r ∈ lineage TRACE_BATCH (u "s") (u "a") t.
Proof.
  apply lineage_spec; [by vm_compute; lia|]. split; [by vm_compute; left|]. right.
  exists (u "trace-batch:s:A::chunk-"), (u "2-of-2"). by vm_compute.
Defined.
