(* ===== verification/AgentIdentity.v ===== *)
(** * Agent identities ([form/src/kcatta_form/agent_identity_store.py])

    The two tables of [AgentIdentityRepository] as lists of rows, and one
    definition per method; the writing methods are transactions on the tables.
    The validators of [schemas/agent_identity.py] run on every row that is read
    back, as in the code.  The column [scopes_json] holds the canonical list of
    scopes itself, of which it is the JSON dump.  [uuid4().hex] is the argument
    [fresh]; the [now] of a call is an instant in microseconds. *)

From stdpp Require Import base strings numbers list.
From Stdlib Require Import ZArith Lia.
From S2P Require Import Prelude PyText PyHash PyFloat Compare Tables.

#[local] Open Scope Z_scope.

(** ** Schemas *)

Inductive AgentScope := ASSET_REPORT | TRACE_BATCH | GUARD_EVENT.
Inductive AgentIdentityState := ID_ACTIVE | ID_REVOKED.
Inductive AgentCertificateState := STAGED | ACTIVE | RETIRED | REVOKED.

#[global] Instance scope_eq_dec : EqDecision AgentScope.
Proof. solve_decision. Defined.
#[global] Instance identity_state_eq_dec : EqDecision AgentIdentityState.
Proof. solve_decision. Defined.
#[global] Instance certificate_state_eq_dec : EqDecision AgentCertificateState.
Proof. solve_decision. Defined.

(** [AgentCertificate] *)
Record AgentCertificate := mkCertificate {
  ac_agent_id : str;
  ac_generation : Z;
  ac_serial_number : str;
  ac_cert_sha256 : str;
  ac_spki_sha256 : str;
  ac_state : AgentCertificateState;
  ac_not_before : Z;
  ac_not_after : Z;
  ac_created_at : Z;
  ac_activated_at : option Z;
  ac_retired_at : option Z;
  ac_overlap_until : option Z;
  ac_revoked_at : option Z;
}.

#[global] Instance eta_certificate : Eta AgentCertificate := fun c =>
  mkCertificate (ac_agent_id c) (ac_generation c) (ac_serial_number c) (ac_cert_sha256 c) (ac_spki_sha256 c)
    (ac_state c) (ac_not_before c) (ac_not_after c) (ac_created_at c) (ac_activated_at c) (ac_retired_at c)
    (ac_overlap_until c) (ac_revoked_at c).

(** [AgentIdentity] *)
Record AgentIdentity := mkIdentity {
  ai_agent_id : str;
  ai_target_id : str;
  ai_canonical_host_id : str;
  ai_scopes : list AgentScope;
  ai_state : AgentIdentityState;
  ai_generation : Z;
  ai_created_at : Z;
  ai_updated_at : Z;
  ai_revoked_at : option Z;
  ai_certificates : list AgentCertificate;
}.

(** [VerifiedAgentIdentity] *)
Record VerifiedAgentIdentity := mkVerified {
  vi_agent_id : str;
  vi_target_id : str;
  vi_canonical_host_id : str;
  vi_scopes : list AgentScope;
  vi_certificate : AgentCertificate;
}.

(** The values of [AgentScope]; sorted, they read asset, guard, trace. *)
Definition scope_value (s : AgentScope) : str :=
  match s with
  | ASSET_REPORT => u "asset-report" | TRACE_BATCH => u "trace-batch" | GUARD_EVENT => u "guard-event"
  end.

Definition scope_of_value (v : str) : res AgentScope :=
  if bool_decide (v = u "asset-report") then Ok ASSET_REPORT
  else if bool_decide (v = u "trace-batch") then Ok TRACE_BATCH
  else if bool_decide (v = u "guard-event") then Ok GUARD_EVENT
  else Raise ValueError.

(** [sorted(set(scopes))], by value *)
Definition canonical_scopes (scopes : list AgentScope) : list AgentScope :=
  base.filter (fun s => s ∈ scopes) [ASSET_REPORT; GUARD_EVENT; TRACE_BATCH].

Section Text.
Context {U : Unicode}.

(** [^[0-9a-f]+$] *)
Definition hex_pattern (s : str) : bool := match s with [] => false | _ => forallb hex_c s end.

(** [_AGENT_ID_PATTERN] without its length *)
Definition agent_id_c (c : N) : bool :=
  (between 65 c 90 || between 97 c 122 || between 48 c 57 || (c =? 46) || (c =? 95) || (c =? 126) || (c =? 45))%N.

(** [AgentCertificate._normalize_hex], then the stripping of every string. *)
Definition before_hex (s : str) : str :=
  let s := lower (strip s) in trim (default s (after_prefix (u "0x") s)).

Definition length_between (lo hi : nat) (s : str) : bool := (lo <=? length s)%nat && (length s <=? hi)%nat.

(** The validation of an [AgentCertificate]. *)
Definition validate_certificate (c : AgentCertificate) : res AgentCertificate :=
  let c := c <| ac_agent_id := trim (ac_agent_id c) |>
             <| ac_serial_number := before_hex (ac_serial_number c) |>
             <| ac_cert_sha256 := before_hex (ac_cert_sha256 c) |>
             <| ac_spki_sha256 := before_hex (ac_spki_sha256 c) |> in
  raise_if (negb (length_between 1 128 (ac_agent_id c) && (1 <=? ac_generation c)
                  && length_between 1 64 (ac_serial_number c) && hex_pattern (ac_serial_number c)
                  && length_between 64 64 (ac_cert_sha256 c) && hex_pattern (ac_cert_sha256 c)
                  && length_between 64 64 (ac_spki_sha256 c) && hex_pattern (ac_spki_sha256 c))) ValueError;;
  raise_if (ac_not_after c <=? ac_not_before c) ValueError;;
  Ok c.

(** The validation of an [AgentIdentity]; its certificates were validated. *)
Definition validate_identity (i : AgentIdentity) : res AgentIdentity :=
  let i := mkIdentity (trim (ai_agent_id i)) (trim (ai_target_id i)) (trim (ai_canonical_host_id i))
             (canonical_scopes (ai_scopes i)) (ai_state i) (ai_generation i) (ai_created_at i) (ai_updated_at i)
             (ai_revoked_at i) (ai_certificates i) in
  raise_if (negb (length_between 1 128 (ai_agent_id i) && forallb agent_id_c (ai_agent_id i)
                  && length_between 1 256 (ai_target_id i) && length_between 1 256 (ai_canonical_host_id i)
                  && negb (bool_decide (ai_scopes i = [])) && (0 <=? ai_generation i))) ValueError;;
  raise_if (existsb (fun c => negb (bool_decide (ac_agent_id c = ai_agent_id i))) (ai_certificates i)) ValueError;;
  raise_if (ai_generation i <? foldr Z.max 0 (ac_generation <$> ai_certificates i)) ValueError;;
  Ok i.

(** ** Arguments *)

(** [_required_text] *)
Definition required_text (value : str) (max_length : nat) : res str :=
  let normalized := strip value in
  raise_if (bool_decide (normalized = [])) ValueError;;
  raise_if (max_length <? length normalized)%nat ValueError;;
  Ok normalized.

(** [_normalize_agent_id] *)
Definition normalize_agent_id (value : str) : res str :=
  let normalized := strip value in
  raise_if (negb (length_between 1 128 normalized && forallb agent_id_c normalized)) ValueError;;
  Ok normalized.

(** [_normalize_scopes] *)
Definition normalize_scopes (scopes : list str) : res (list AgentScope) :=
  normalized ← foldr (fun v rest => s ← scope_of_value v; l ← rest; Ok (s :: l)) (Ok []) scopes;
  raise_if (bool_decide (normalized = [])) ValueError;;
  Ok (canonical_scopes normalized).

(** [_normalize_hex] *)
Definition normalize_hex (value : str) (len : option nat) : res str :=
  let normalized := lower (strip value) in
  let normalized := default normalized (after_prefix (u "0x") normalized) in
  raise_if (negb (hex_pattern normalized)) ValueError;;
  raise_if (match len with Some n => negb (length normalized =? n)%nat | None => false end) ValueError;;
  Ok normalized.

(** [_normalize_serial] *)
Definition normalize_serial (value : str) : res str :=
  normalized ← normalize_hex value None;
  match drop_while (fun c => c =? 48)%N normalized with
  | [] => Ok (u "0")
  | s => Ok s
  end.

(** [_idempotency_hash] *)
Definition idempotency_hash (value : option str) : res (option str) :=
  match value with
  | None => Ok None
  | Some value =>
      let normalized := strip value in
      raise_if (bool_decide (normalized = [])) ValueError;;
      raise_if (1024 <? length normalized)%nat ValueError;;
      Ok (Some (sha256_hex normalized))
  end.
End Text.

(** ** Tables *)

(** A row of [agent_identities]. *)
Record identity_row := mkIdRow {
  ir_agent_id : str;
  ir_target_id : str;
  ir_canonical_host_id : str;
  ir_scopes : list AgentScope;
  ir_state : AgentIdentityState;
  ir_generation : Z;
  ir_created_at_us : Z;
  ir_updated_at_us : Z;
  ir_revoked_at_us : option Z;
  ir_revision : Z;
}.

#[global] Instance eta_identity_row : Eta identity_row := fun r =>
  mkIdRow (ir_agent_id r) (ir_target_id r) (ir_canonical_host_id r) (ir_scopes r) (ir_state r) (ir_generation r)
    (ir_created_at_us r) (ir_updated_at_us r) (ir_revoked_at_us r) (ir_revision r).

(** A row of [agent_certificates]. *)
Record cert_row := mkCertRow {
  cr_agent_id : str;
  cr_generation : Z;
  cr_serial_number : str;
  cr_cert_sha256 : str;
  cr_spki_sha256 : str;
  cr_state : AgentCertificateState;
  cr_certificate_pem : str;
  cr_idempotency_key_sha256 : option str;
  cr_not_before_us : Z;
  cr_not_after_us : Z;
  cr_created_at_us : Z;
  cr_activated_at_us : option Z;
  cr_retired_at_us : option Z;
  cr_overlap_until_us : option Z;
  cr_revoked_at_us : option Z;
}.

#[global] Instance eta_cert_row : Eta cert_row := fun c =>
  mkCertRow (cr_agent_id c) (cr_generation c) (cr_serial_number c) (cr_cert_sha256 c) (cr_spki_sha256 c) (cr_state c)
    (cr_certificate_pem c) (cr_idempotency_key_sha256 c) (cr_not_before_us c) (cr_not_after_us c) (cr_created_at_us c)
    (cr_activated_at_us c) (cr_retired_at_us c) (cr_overlap_until_us c) (cr_revoked_at_us c).

Record db := mkDb { identities : list identity_row; certificates : list cert_row }.

#[global] Instance eta_db : Eta db := fun d => mkDb (identities d) (certificates d).

(** The schema created by [_ensure_schema]: empty tables. *)
Definition empty_db : db := mkDb [] [].

(** The constraints of [agent_identities] on a new row: the primary key and the
    two unique columns. *)
Definition identity_clashes (r : identity_row) (t : list identity_row) : bool :=
  existsb (fun x => bool_decide (ir_agent_id x = ir_agent_id r) || bool_decide (ir_target_id x = ir_target_id r)
                    || bool_decide (ir_canonical_host_id x = ir_canonical_host_id r)) t.

Definition in_state (s : AgentCertificateState) (c : cert_row) : bool := bool_decide (cr_state c = s).

(** The constraints of [agent_certificates] on a new row: the primary key, the
    unique columns, the partial unique indexes and the check. *)
Definition certificate_clashes (c : cert_row) (t : list cert_row) : bool :=
  (cr_not_after_us c <=? cr_not_before_us c) || (cr_generation c <? 1)
  || existsb (fun x =>
       bool_decide (cr_serial_number x = cr_serial_number c) || bool_decide (cr_cert_sha256 x = cr_cert_sha256 c)
       || bool_decide (cr_agent_id x = cr_agent_id c)
          && ((cr_generation x =? cr_generation c) || in_state STAGED x && in_state STAGED c
              || match cr_idempotency_key_sha256 c with
                 | Some k => bool_decide (cr_idempotency_key_sha256 x = Some k)
                 | None => false
                 end)) t.

(** The index [uq_agent_certificate_active] after an update. *)
Definition two_active (agent_id : str) (t : list cert_row) : bool :=
  (1 <? length (select_where (fun c => bool_decide (cr_agent_id c = agent_id) && in_state ACTIVE c) t))%nat.

Section Repository.
Context {U : Unicode}.

(** ** Reading rows *)

(** [_certificate_from_row] *)
Definition certificate_from_row (r : cert_row) : res AgentCertificate :=
  validate_certificate
    (mkCertificate (cr_agent_id r) (cr_generation r) (cr_serial_number r) (cr_cert_sha256 r) (cr_spki_sha256 r)
       (cr_state r) (from_micros (cr_not_before_us r)) (from_micros (cr_not_after_us r))
       (from_micros (cr_created_at_us r)) (from_micros <$> cr_activated_at_us r) (from_micros <$> cr_retired_at_us r)
       (from_micros <$> cr_overlap_until_us r) (from_micros <$> cr_revoked_at_us r)).

Definition of_agent (agent_id : str) (c : cert_row) : bool := bool_decide (cr_agent_id c = agent_id).

(** [_identity_from_row]; [ORDER BY generation ASC]. *)
Definition identity_from_row (d : db) (r : identity_row) : res AgentIdentity :=
  let rows := isort (fun a b => cr_generation a <? cr_generation b)
                (select_where (of_agent (ir_agent_id r)) (certificates d)) in
  certs ← foldr (fun r rest => c ← certificate_from_row r; l ← rest; Ok (c :: l)) (Ok []) rows;
  validate_identity
    (mkIdentity (ir_agent_id r) (ir_target_id r) (ir_canonical_host_id r) (ir_scopes r) (ir_state r) (ir_generation r)
       (from_micros (ir_created_at_us r)) (from_micros (ir_updated_at_us r)) (from_micros <$> ir_revoked_at_us r) certs).

Definition is_agent (agent_id : str) (r : identity_row) : bool := bool_decide (ir_agent_id r = agent_id).

(** [_identity_row] *)
Definition get_identity_row (agent_id : str) (d : db) : res identity_row :=
  match select_one (is_agent agent_id) (identities d) with
  | Some row => Ok row
  | None => Raise AgentIdentityNotFoundError
  end.

Definition is_certificate (agent_id : str) (generation : Z) (c : cert_row) : bool :=
  of_agent agent_id c && (cr_generation c =? generation).

(** [_certificate_row] *)
Definition get_certificate_row (agent_id : str) (generation : Z) (d : db) : res cert_row :=
  match select_one (is_certificate agent_id generation) (certificates d) with
  | Some row => Ok row
  | None => Raise AgentCertificateNotFoundError
  end.

(** [return self._identity_from_row(connection, self._identity_row(...))] at the
    end of a transaction. *)
Definition return_identity (agent_id : str) (d : db) : res (AgentIdentity * db) :=
  row ← get_identity_row agent_id d; i ← identity_from_row d row; Ok (i, d).

(** ** Bindings *)

(** The transaction of [get_or_create]. *)
Definition get_or_create_tx (target host : str) (scopes : list AgentScope) (requested : option str) (fresh : str)
    (now : Z) (d : db) : res (AgentIdentity * bool * db) :=
  match select_one (fun r => bool_decide (ir_target_id r = target)) (identities d) with
  | Some row =>
      raise_if (negb (bool_decide (ir_canonical_host_id row = host)) || negb (bool_decide (ir_scopes row = scopes))
                || match requested with Some a => negb (bool_decide (ir_agent_id row = a)) | None => false end)
        AgentIdentityConflictError;;
      i ← identity_from_row d row; Ok (i, false, d)
  | None =>
      let allocated := default (u "agent-" ++ fresh) requested in
      let row := mkIdRow allocated target host scopes ID_ACTIVE 0 (micros now) (micros now) None 0 in
      raise_if (identity_clashes row (identities d)) AgentIdentityConflictError;;
      let d := d <| identities := identities d ++ [row] |> in
      '(i, d) ← return_identity allocated d; Ok (i, true, d)
  end.

(** [get_or_create] *)
Definition get_or_create (target_id canonical_host_id : str) (scopes : list str) (agent_id : option str) (fresh : str)
    (now : Z) (d : db) : res (AgentIdentity * bool) * db :=
  match (target ← required_text target_id 256; host ← required_text canonical_host_id 256;
         scopes ← normalize_scopes scopes;
         requested ← match agent_id with Some a => Some <$> normalize_agent_id a | None => Ok None end;
         Ok (target, host, scopes, requested)) with
  | Ok (target, host, scopes, requested) => transaction (get_or_create_tx target host scopes requested fresh now) d
  | Raise e => (Raise e, d)
  end.

(** [get] *)
Definition get (agent_id : str) (d : db) : res AgentIdentity :=
  agent_id ← normalize_agent_id agent_id; row ← get_identity_row agent_id d; identity_from_row d row.

(** [get_by_target] *)
Definition get_by_target (target_id : str) (d : db) : res AgentIdentity :=
  target ← required_text target_id 256;
  match select_one (fun r => bool_decide (ir_target_id r = target)) (identities d) with
  | Some row => identity_from_row d row
  | None => Raise AgentIdentityNotFoundError
  end.

(** [list]; [ORDER BY created_at_us ASC, agent_id ASC LIMIT ?]. *)
Definition list_identities (limit : Z) (d : db) : res (list AgentIdentity) :=
  raise_if (negb ((1 <=? limit) && (limit <=? 10000))) ValueError;;
  let rows := take (Z.to_nat limit)
    (isort (fun a b => (ir_created_at_us a <? ir_created_at_us b)
              || (ir_created_at_us a =? ir_created_at_us b) && str_ltb (ir_agent_id a) (ir_agent_id b)) (identities d)) in
  foldr (fun r rest => i ← identity_from_row d r; l ← rest; Ok (i :: l)) (Ok []) rows.

(** [get_certificate], [list_certificates] *)
Definition get_certificate (agent_id : str) (generation : Z) (d : db) : res AgentCertificate :=
  agent_id ← normalize_agent_id agent_id;
  raise_if (generation <? 1) ValueError;;
  row ← get_certificate_row agent_id generation d; certificate_from_row row.

Definition list_certificates (agent_id : str) (d : db) : res (list AgentCertificate) := ai_certificates <$> get agent_id d.

Definition has_key (agent_id : str) (key : str) (c : cert_row) : bool :=
  of_agent agent_id c && bool_decide (cr_idempotency_key_sha256 c = Some key).

(** [get_by_idempotency_key] *)
Definition get_by_idempotency_key (agent_id idempotency_key : str) (d : db) : res (option AgentCertificate) :=
  agent_id ← normalize_agent_id agent_id;
  key ← idempotency_hash (Some idempotency_key);
  get_identity_row agent_id d;;
  match (k ← key; select_one (has_key agent_id k) (certificates d)) with
  | Some row => Some <$> certificate_from_row row
  | None => Ok None
  end.

(** ** Certificates *)

(** [SET updated_at_us = ?, revision = revision + 1 WHERE agent_id = ?] *)
Definition touch (agent_id : str) (now_us : Z) (d : db) : db :=
  d <| identities := (update_where (is_agent agent_id)
         (fun r => r <| ir_updated_at_us := now_us |> <| ir_revision := ir_revision r + 1 |>) (identities d)).1 |>.

(** The [SET] clause of a revocation; [forget] is
    [idempotency_key_sha256 = NULL]. *)
Definition revoked_row (now_us : Z) (forget : bool) (c : cert_row) : cert_row :=
  let c := c <| cr_state := REVOKED |> <| cr_revoked_at_us := Some now_us |> <| cr_overlap_until_us := None |> in
  if forget then c <| cr_idempotency_key_sha256 := None |> else c.

(** The metadata of a generation to stage. *)
Record material := mkMaterial {
  ma_serial_number : str;
  ma_cert_sha256 : str;
  ma_spki_sha256 : str;
  ma_certificate_pem : str;
  ma_not_before : Z;
  ma_not_after : Z;
}.

(** The transaction of [stage_certificate]. *)
Definition stage_certificate_tx (agent_id : str) (generation : Z) (m : material) (key : option str) (now : Z) (d : db)
    : res (AgentIdentity * bool * db) :=
  identity ← get_identity_row agent_id d;
  raise_if (negb (bool_decide (ir_state identity = ID_ACTIVE))) AgentIdentityConflictError;;
  match (k ← key; select_one (has_key agent_id k) (certificates d)) with
  | Some _ => i ← identity_from_row d identity; Ok (i, false, d)
  | None =>
      raise_if (match select_one (fun c => of_agent agent_id c && in_state STAGED c) (certificates d) with
                | Some _ => true | None => false end) AgentIdentityConflictError;;
      raise_if (negb (generation =? ir_generation identity + 1)) AgentIdentityConflictError;;
      let row := mkCertRow agent_id generation (ma_serial_number m) (ma_cert_sha256 m) (ma_spki_sha256 m) STAGED
                   (ma_certificate_pem m) key (micros (ma_not_before m)) (micros (ma_not_after m)) (micros now)
                   None None None None in
      raise_if (certificate_clashes row (certificates d)) AgentIdentityConflictError;;
      let d := d <| certificates := certificates d ++ [row] |> in
      let '(rows, changed) := update_where
        (fun r => is_agent agent_id r && (ir_generation r =? generation - 1) && bool_decide (ir_state r = ID_ACTIVE))
        (fun r => r <| ir_generation := generation |> <| ir_updated_at_us := micros now |>
                    <| ir_revision := ir_revision r + 1 |>) (identities d) in
      raise_if (negb (changed =? 1)%nat) AgentIdentityConflictError;;
      '(i, d) ← return_identity agent_id (d <| identities := rows |>); Ok (i, true, d)
  end.

(** [stage_certificate] *)
Definition stage_certificate (agent_id : str) (generation : Z) (m : material) (idempotency_key : option str) (now : Z)
    (d : db) : res (AgentIdentity * bool) * db :=
  match (agent_id ← normalize_agent_id agent_id;
         serial ← normalize_serial (ma_serial_number m);
         fingerprint ← normalize_hex (ma_cert_sha256 m) (Some 64%nat);
         public_key ← normalize_hex (ma_spki_sha256 m) (Some 64%nat);
         pem ← required_text (ma_certificate_pem m) (64 * 1024)%nat;
         key ← idempotency_hash idempotency_key;
         validate_certificate (mkCertificate agent_id generation serial fingerprint public_key STAGED (ma_not_before m)
           (ma_not_after m) now None None None None);;
         Ok (agent_id, mkMaterial serial fingerprint public_key pem (ma_not_before m) (ma_not_after m), key)) with
  | Ok (agent_id, m, key) => transaction (stage_certificate_tx agent_id generation m key now) d
  | Raise e => (Raise e, d)
  end.

Definition MAX_ROTATION_OVERLAP : Z := 3600 * 1000000.
Definition DEFAULT_ROTATION_OVERLAP : Z := 600 * 1000000.

(** The three updates of [agent_certificates] in [activate]. *)
Definition close_overlap (now_us : Z) (c : cert_row) : cert_row := c <| cr_overlap_until_us := Some now_us |>.
Definition retired_row (now_us overlap_until_us : Z) (c : cert_row) : cert_row :=
  c <| cr_state := RETIRED |> <| cr_retired_at_us := Some now_us |>
    <| cr_overlap_until_us := Some (Z.min (cr_not_after_us c) overlap_until_us) |>.
Definition activated_row (now_us : Z) (c : cert_row) : cert_row :=
  c <| cr_state := ACTIVE |> <| cr_activated_at_us := Some now_us |> <| cr_retired_at_us := None |>
    <| cr_overlap_until_us := None |>.

Definition overlapping (agent_id : str) (now_us : Z) (c : cert_row) : bool :=
  of_agent agent_id c && in_state RETIRED c
  && match cr_overlap_until_us c with Some t => now_us <? t | None => false end.

(** The transaction of [activate]. *)
Definition activate_tx (agent_id : str) (generation now_us overlap_until_us : Z) (d : db) : res (AgentIdentity * db) :=
  identity ← get_identity_row agent_id d;
  raise_if (negb (bool_decide (ir_state identity = ID_ACTIVE))) AgentIdentityConflictError;;
  certificate ← get_certificate_row agent_id generation d;
  if in_state ACTIVE certificate then i ← identity_from_row d identity; Ok (i, d)
  else
    raise_if (negb (in_state STAGED certificate)) AgentIdentityConflictError;;
    raise_if (cr_not_after_us certificate <=? now_us) AgentIdentityConflictError;;
    let '(t, _) := update_where (overlapping agent_id now_us) (close_overlap now_us) (certificates d) in
    let '(t, _) := update_where (fun c => of_agent agent_id c && in_state ACTIVE c)
                     (retired_row now_us overlap_until_us) t in
    let '(t, changed) := update_where (fun c => is_certificate agent_id generation c && in_state STAGED c)
                           (activated_row now_us) t in
    raise_if (two_active agent_id t) IntegrityError;;
    raise_if (negb (changed =? 1)%nat) AgentIdentityConflictError;;
    return_identity agent_id (touch agent_id now_us (d <| certificates := t |>)).

(** [activate] *)
Definition activate (agent_id : str) (generation overlap now : Z) (d : db) : res AgentIdentity * db :=
  match (agent_id ← normalize_agent_id agent_id;
         raise_if (generation <? 1) ValueError;;
         raise_if ((overlap <? 0) || (MAX_ROTATION_OVERLAP <? overlap)) ValueError;;
         Ok agent_id) with
  | Ok agent_id => transaction (activate_tx agent_id generation (micros now) (micros (now + overlap))) d
  | Raise e => (Raise e, d)
  end.

(** The transaction of [abort]. *)
Definition abort_tx (agent_id : str) (generation now_us : Z) (d : db) : res (AgentIdentity * db) :=
  identity ← get_identity_row agent_id d;
  certificate ← get_certificate_row agent_id generation d;
  if in_state REVOKED certificate then i ← identity_from_row d identity; Ok (i, d)
  else
    raise_if (negb (in_state STAGED certificate)) AgentIdentityConflictError;;
    let '(t, _) := update_where (fun c => is_certificate agent_id generation c && in_state STAGED c)
                     (revoked_row now_us true) (certificates d) in
    return_identity agent_id (touch agent_id now_us (d <| certificates := t |>)).

(** [abort] *)
Definition abort (agent_id : str) (generation now : Z) (d : db) : res AgentIdentity * db :=
  match (agent_id ← normalize_agent_id agent_id; raise_if (generation <? 1) ValueError;; Ok agent_id) with
  | Ok agent_id => transaction (abort_tx agent_id generation (micros now)) d
  | Raise e => (Raise e, d)
  end.

(** The two branches of [revoke]. *)
Definition revoke_identity_tx (agent_id : str) (now_us : Z) (d : db) : res (AgentIdentity * db) :=
  identity ← get_identity_row agent_id d;
  if bool_decide (ir_state identity = ID_REVOKED) then i ← identity_from_row d identity; Ok (i, d)
  else
    let '(rows, _) := update_where (is_agent agent_id)
      (fun r => r <| ir_state := ID_REVOKED |> <| ir_revoked_at_us := Some now_us |> <| ir_updated_at_us := now_us |>
                  <| ir_revision := ir_revision r + 1 |>) (identities d) in
    let '(t, _) := update_where (fun c => of_agent agent_id c && negb (in_state REVOKED c)) (revoked_row now_us false)
                     (certificates d) in
    return_identity agent_id (mkDb rows t).

Definition revoke_generation_tx (agent_id : str) (generation now_us : Z) (d : db) : res (AgentIdentity * db) :=
  identity ← get_identity_row agent_id d;
  certificate ← get_certificate_row agent_id generation d;
  if in_state REVOKED certificate then return_identity agent_id d
  else
    let '(t, _) := update_where (is_certificate agent_id generation) (revoked_row now_us false) (certificates d) in
    return_identity agent_id (touch agent_id now_us (d <| certificates := t |>)).

(** [revoke] *)
Definition revoke (agent_id : str) (generation : option Z) (now : Z) (d : db) : res AgentIdentity * db :=
  match (agent_id ← normalize_agent_id agent_id;
         raise_if (match generation with Some g => g <? 1 | None => false end) ValueError;; Ok agent_id) with
  | Ok agent_id =>
      match generation with
      | None => transaction (revoke_identity_tx agent_id (micros now)) d
      | Some g => transaction (revoke_generation_tx agent_id g (micros now)) d
      end
  | Raise e => (Raise e, d)
  end.

(** [revoke_certificates] *)
Definition revoke_certificates_tx (agent_id : str) (now_us : Z) (d : db) : res (AgentIdentity * db) :=
  get_identity_row agent_id d;;
  let '(t, changed) := update_where (fun c => of_agent agent_id c && negb (in_state REVOKED c)) (revoked_row now_us true)
                         (certificates d) in
  let d := d <| certificates := t |> in
  return_identity agent_id (if (changed =? 0)%nat then d else touch agent_id now_us d).

Definition revoke_certificates (agent_id : str) (now : Z) (d : db) : res AgentIdentity * db :=
  match normalize_agent_id agent_id with
  | Ok agent_id => transaction (revoke_certificates_tx agent_id (micros now)) d
  | Raise e => (Raise e, d)
  end.

(** ** Verification *)

(** Whether a certificate is accepted at an instant. *)
Definition accepted (allow_staged : bool) (now_us : Z) (c : cert_row) : bool :=
  match cr_state c with
  | ACTIVE => true
  | RETIRED => match cr_overlap_until_us c with Some t => now_us <? t | None => false end
  | STAGED => allow_staged
  | REVOKED => false
  end.

Definition in_window (now_us : Z) (c : cert_row) : bool :=
  (cr_not_before_us c <=? now_us) && (now_us <? cr_not_after_us c).

(** The join of [verify] on [agent_id], in the order of the certificates. *)
Definition joined (d : db) : list (cert_row * identity_row) :=
  certificates d ≫= fun c => (fun i => (c, i)) <$> select_where (is_agent (cr_agent_id c)) (identities d).

Definition presents (fingerprint serial : option str) (c : cert_row) : bool :=
  match fingerprint with Some f => bool_decide (cr_cert_sha256 c = f) | None => true end
  && match serial with Some s => bool_decide (cr_serial_number c = s) | None => true end.

(** [verify] *)
Definition verify (cert_sha256 serial_number : option str) (now : Z) (allow_staged : bool) (d : db)
    : res (option VerifiedAgentIdentity) :=
  raise_if (bool_decide (cert_sha256 = None) && bool_decide (serial_number = None)) ValueError;;
  fingerprint ← match cert_sha256 with Some f => Some <$> normalize_hex f (Some 64%nat) | None => Ok None end;
  serial ← match serial_number with Some s => Some <$> normalize_serial s | None => Ok None end;
  match select_one (fun ci => presents fingerprint serial ci.1) (joined d) with
  | None => Ok None
  | Some (c, i) =>
      if negb (bool_decide (ir_state i = ID_ACTIVE)) then Ok None
      else if negb (in_window (micros now) c) then Ok None
      else if negb (accepted allow_staged (micros now) c) then Ok None
      else
        certificate ← certificate_from_row c;
        Ok (Some (mkVerified (cr_agent_id c) (ir_target_id i) (ir_canonical_host_id i) (ir_scopes i) certificate))
  end.
End Repository.
