(* ===== verification/AgentSteps.v ===== *)
(** * Steps of the identity registry

    Every writing call of [AgentIdentity] is one of five steps on the two tables
    ([db_step]); the invariant of the registry and the lifecycle of its rows are
    proved over these steps, for any history of calls. *)

From stdpp Require Import base sets strings numbers list sorting.
From Stdlib Require Import ZArith Lia.
From S2P Require Import Prelude PyText PyHash PyFloat Compare Tables AgentIdentity.

#[local] Open Scope Z_scope.

(** ** Calls *)

Inductive call :=
| GetOrCreate (target_id host : str) (scopes : list str) (agent_id : option str) (fresh : str) (now : Z)
| Stage (agent_id : str) (generation : Z) (m : material) (key : option str) (now : Z)
| Activate (agent_id : str) (generation overlap now : Z)
| AbortStaged (agent_id : str) (generation now : Z)
| Revoke (agent_id : str) (generation : option Z) (now : Z)
| RevokeCertificates (agent_id : str) (now : Z).

(** One row through the three updates of [activate]. *)
Definition rotated_row (a : str) (generation now over : Z) (c : cert_row) : cert_row :=
  let c := if overlapping a now c then close_overlap now c else c in
  let c := if of_agent a c && in_state ACTIVE c then retired_row now over c else c in
  if is_certificate a generation c && in_state STAGED c then activated_row now c else c.

(** The instant of a call, and whether it may forget idempotency keys. *)
Definition call_now (c : call) : Z :=
  match c with
  | GetOrCreate _ _ _ _ _ now | Stage _ _ _ _ now | Activate _ _ _ now | AbortStaged _ _ now | Revoke _ _ now
  | RevokeCertificates _ now => now
  end.

Definition forgets (c : call) : bool :=
  match c with AbortStaged _ _ _ | RevokeCertificates _ _ => true | _ => false end.

(** The effects a call can have on the tables: [clock] is its instant,
    [may_forget] whether it may forget keys. *)
Inductive db_step (clock : Z) (may_forget : bool) (d : db) : db -> Prop :=
| step_keep : db_step clock may_forget d d
| step_bind row :
    identity_clashes row (identities d) = false -> ir_state row = ID_ACTIVE -> ir_generation row = 0 ->
    db_step clock may_forget d (mkDb (identities d ++ [row]) (certificates d))
| step_stage i row now :
    i ∈ identities d -> ir_agent_id i = cr_agent_id row -> ir_state i = ID_ACTIVE ->
    cr_state row = STAGED -> cr_generation row = ir_generation i + 1 ->
    (forall c, c ∈ certificates d -> of_agent (cr_agent_id row) c && in_state STAGED c = false) ->
    certificate_clashes row (certificates d) = false ->
    db_step clock may_forget d (mkDb
      (update_where
        (fun r => is_agent (cr_agent_id row) r && (ir_generation r =? cr_generation row - 1)
                  && bool_decide (ir_state r = ID_ACTIVE))
        (fun r => r <| ir_generation := cr_generation row |> <| ir_updated_at_us := now |>
                    <| ir_revision := ir_revision r + 1 |>) (identities d)).1
      (certificates d ++ [row]))
| step_activate i c over :
    i ∈ identities d -> ir_agent_id i = cr_agent_id c -> ir_state i = ID_ACTIVE ->
    c ∈ certificates d -> cr_state c = STAGED -> clock < cr_not_after_us c ->
    db_step clock may_forget d (touch (cr_agent_id c) clock
      (mkDb (identities d) (rotated_row (cr_agent_id c) (cr_generation c) clock over <$> certificates d)))
| step_revoke a p g now forget :
    (forget = true -> may_forget = true) ->
    (forall c, p c = true -> of_agent a c = true) ->
    (forall r, ir_agent_id (g r) = ir_agent_id r /\ ir_target_id (g r) = ir_target_id r /\
       ir_canonical_host_id (g r) = ir_canonical_host_id r /\ ir_generation (g r) = ir_generation r /\
       (ir_state (g r) = ir_state r \/
        ir_state (g r) = ID_REVOKED /\ forall c, of_agent a c = true -> p c = true \/ cr_state c = REVOKED)) ->
    db_step clock may_forget d (mkDb (update_where (is_agent a) g (identities d)).1
                    (update_where p (revoked_row now forget) (certificates d)).1).

Lemma update_where_zero {R} p (f : R -> R) t t' : update_where p f t = (t', 0%nat) -> t' = t.
Proof.
  intros E. rewrite update_where_void in E; [by injection E|]. intros r Hr. destruct (p r) eqn:Hp; [|done].
  unfold update_where in E. injection E as _ E. apply length_zero_iff_nil in E.
  assert (Hin : r ∈ select_where p t) by (by apply elem_select_where). rewrite E in Hin. by apply not_elem_of_nil in Hin.
Qed.

Lemma rotate_rows a generation now over t :
  (update_where (fun c => is_certificate a generation c && in_state STAGED c) (activated_row now)
    (update_where (fun c => of_agent a c && in_state ACTIVE c) (retired_row now over)
      (update_where (overlapping a now) (close_overlap now) t).1).1).1 = rotated_row a generation now over <$> t.
Proof. unfold update_where. cbn [fst]. by rewrite <-!list_fmap_compose. Qed.

Lemma in_state_true s c : in_state s c = true <-> cr_state c = s.
Proof. apply bool_decide_eq_true. Qed.

Lemma of_agent_true a c : of_agent a c = true <-> cr_agent_id c = a.
Proof. apply bool_decide_eq_true. Qed.

Lemma is_agent_true a r : is_agent a r = true <-> ir_agent_id r = a.
Proof. apply bool_decide_eq_true. Qed.

Lemma is_certificate_true a g c : is_certificate a g c = true <-> cr_agent_id c = a /\ cr_generation c = g.
Proof. unfold is_certificate. rewrite andb_true_iff, of_agent_true, Z.eqb_eq. done. Qed.

Section Exec.
Context {U : Unicode}.

Definition exec (c : call) (d : db) : db :=
  match c with
  | GetOrCreate target host scopes a fresh now => (get_or_create target host scopes a fresh now d).2
  | Stage a generation m key now => (stage_certificate a generation m key now d).2
  | Activate a generation overlap now => (activate a generation overlap now d).2
  | AbortStaged a generation now => (abort a generation now d).2
  | Revoke a generation now => (revoke a generation now d).2
  | RevokeCertificates a now => (revoke_certificates a now d).2
  end.

Definition run (cs : list call) (d : db) : db := fold_left (fun d c => exec c d) cs d.

Lemma get_identity_row_Ok a d i : get_identity_row a d = Ok i -> i ∈ identities d /\ ir_agent_id i = a.
Proof.
  unfold get_identity_row. destruct (select_one _ _) as [r|] eqn:E; [|done]. intros Hr. injection Hr as <-.
  apply select_one_Some in E as [?%is_agent_true ?]. done.
Qed.

Lemma get_certificate_row_Ok a g d c :
  get_certificate_row a g d = Ok c -> c ∈ certificates d /\ cr_agent_id c = a /\ cr_generation c = g.
Proof.
  unfold get_certificate_row. destruct (select_one _ _) as [r|] eqn:E; [|done]. intros Hr. injection Hr as <-.
  apply select_one_Some in E as [?%is_certificate_true ?]. done.
Qed.

Lemma return_identity_Ok a d i d' : return_identity a d = Ok (i, d') -> d' = d.
Proof. unfold return_identity. intros H. inv_ok. congruence. Qed.

Lemma get_or_create_step k f target host scopes requested fresh now d r d' :
  get_or_create_tx target host scopes requested fresh now d = Ok (r, d') -> db_step k f d d'.
Proof.
  unfold get_or_create_tx. destruct (select_one _ _) as [row|].
  - intros H. inv_ok. intros; simplify_eq. constructor.
  - intros H. inv_ok. destruct x0 as [i d1]. match goal with E : return_identity _ _ = _ |- _ => apply return_identity_Ok in E as -> end.
    intros; simplify_eq. by apply step_bind.
Qed.

Lemma stage_step k f a generation m key now d r d' :
  stage_certificate_tx a generation m key now d = Ok (r, d') -> db_step k f d d'.
Proof.
  unfold stage_certificate_tx. intros H. apply bind_Ok_inv in H as (i & Hi & H). apply get_identity_row_Ok in Hi as [Hi Ha].
  apply bind_Ok_inv in H as ([] & Hs & H). apply raise_if_Ok_inv in Hs.
  destruct (key ≫= _) as [x|]; [inv_ok; intros; simplify_eq; constructor|].
  apply bind_Ok_inv in H as ([] & Hst & H). apply raise_if_Ok_inv in Hst.
  apply bind_Ok_inv in H as ([] & Hg & H). apply raise_if_Ok_inv in Hg.
  apply bind_Ok_inv in H as ([] & Hc & H). apply raise_if_Ok_inv in Hc.
  match type of H with context [update_where ?p ?f ?t] => destruct (update_where p f t) as [rows n] eqn:E end.
  apply bind_Ok_inv in H as ([] & _ & H). apply bind_Ok_inv in H as ([j d1] & Hret & H).
  apply return_identity_Ok in Hret as ->. injection H as _ <-.
  match type of Hc with certificate_clashes ?row _ = _ => set (r0 := row) in * end.
  assert (Hrows : rows = (rows, n).1) by done. rewrite <-E in Hrows. rewrite Hrows. clear Hrows E.
  apply (step_stage k f d i r0 (micros now)); try done.
  - apply negb_false_iff, bool_decide_eq_true in Hs. done.
  - apply negb_false_iff, Z.eqb_eq in Hg. done.
  - destruct (select_one _ _) eqn:En; [done|]. exact (proj1 (select_one_None _ _) En).
Qed.

(** A successful activation finds the generation active, or rotates the rows. *)
Lemma activate_Ok a generation now over d r d' : activate_tx a generation now over d = Ok (r, d') ->
  exists i c, i ∈ identities d /\ ir_agent_id i = a /\ ir_state i = ID_ACTIVE /\
    c ∈ certificates d /\ cr_agent_id c = a /\ cr_generation c = generation /\
    (cr_state c = ACTIVE /\ d' = d \/
     cr_state c = STAGED /\ now < cr_not_after_us c /\
     d' = touch a now (mkDb (identities d) (rotated_row a generation now over <$> certificates d))).
Proof.
  unfold activate_tx. intros H. apply bind_Ok_inv in H as (i & Hi & H). apply get_identity_row_Ok in Hi as [Hi Ha].
  apply bind_Ok_inv in H as ([] & Hs & H). apply raise_if_Ok_inv, negb_false_iff, bool_decide_eq_true in Hs.
  apply bind_Ok_inv in H as (c & Hc & H). apply get_certificate_row_Ok in Hc as (Hc & Hca & Hcg).
  exists i, c. do 6 (split; [done|]).
  destruct (in_state ACTIVE c) eqn:Eact; [left; split; [by apply in_state_true|inv_ok; intros; by simplify_eq]|right].
  apply bind_Ok_inv in H as ([] & Hst & H). apply raise_if_Ok_inv, negb_false_iff, in_state_true in Hst.
  apply bind_Ok_inv in H as ([] & He & H). apply raise_if_Ok_inv, Z.leb_gt in He. split; [done|]. split; [done|].
  destruct (update_where (overlapping a now) _ _) as [t1 n1] eqn:E1.
  destruct (update_where _ (retired_row _ _) t1) as [t2 n2] eqn:E2.
  destruct (update_where _ (activated_row _) t2) as [t3 n3] eqn:E3.
  apply bind_Ok_inv in H as ([] & _ & H). apply bind_Ok_inv in H as ([] & _ & H). apply return_identity_Ok in H as ->.
  rewrite <-rotate_rows, E1. cbn [fst]. rewrite E2. cbn [fst]. by rewrite E3.
Qed.

Lemma activate_step f a generation now over d r d' :
  activate_tx a generation now over d = Ok (r, d') -> db_step now f d d'.
Proof.
  intros (i & c & Hi & Ha & Hs & Hc & Hca & Hcg & [[_ ->]|(Hst & He & ->)])%activate_Ok; [constructor|].
  rewrite <-Hca, <-Hcg. apply (step_activate now f d i c over); congruence || done.
Qed.

(** A head update that keeps everything but the bookkeeping columns. *)
Lemma step_revoke_touch k f a p now forget d : (forget = true -> f = true) -> (forall c, p c = true -> of_agent a c = true) ->
  db_step k f d (touch a now (mkDb (identities d) (update_where p (revoked_row now forget) (certificates d)).1)).
Proof. intros Hf Hp. apply (step_revoke k f d a); [done|done|]. intros r. cbn. auto 10. Qed.

Lemma abort_step k a generation now d r d' : abort_tx a generation now d = Ok (r, d') -> db_step k true d d'.
Proof.
  unfold abort_tx. intros H. apply bind_Ok_inv in H as (i & Hi & H). apply bind_Ok_inv in H as (c & Hc & H).
  destruct (in_state REVOKED c); [inv_ok; intros; simplify_eq; constructor|].
  apply bind_Ok_inv in H as ([] & _ & H). destruct (update_where _ _ _) as [t n] eqn:E.
  apply return_identity_Ok in H as ->. assert (Ht : t = (t, n).1) by done. rewrite <-E in Ht. rewrite Ht.
  apply step_revoke_touch; [done|]. intros x. rewrite !andb_true_iff. unfold is_certificate. rewrite andb_true_iff. tauto.
Qed.

Lemma revoke_identity_step k f a now d r d' : revoke_identity_tx a now d = Ok (r, d') -> db_step k f d d'.
Proof.
  unfold revoke_identity_tx. intros H. apply bind_Ok_inv in H as (i & Hi & H).
  destruct (bool_decide _); [inv_ok; intros; simplify_eq; constructor|].
  destruct (update_where (is_agent a) _ _) as [rows n] eqn:E. destruct (update_where _ (revoked_row _ _) _) as [t m] eqn:E'.
  apply return_identity_Ok in H as ->. assert (Hr : rows = (rows, n).1) by done. assert (Ht : t = (t, m).1) by done.
  rewrite <-E in Hr. rewrite <-E' in Ht. rewrite Hr, Ht. apply step_revoke; [done| |].
  - intros c. rewrite andb_true_iff. tauto.
  - intros r0. cbn. do 4 (split; [done|]). right. split; [done|]. intros c ->. cbn.
    destruct (in_state REVOKED c) eqn:Es; [right; by apply in_state_true|by left].
Qed.

Lemma revoke_generation_step k f a generation now d r d' : revoke_generation_tx a generation now d = Ok (r, d') -> db_step k f d d'.
Proof.
  unfold revoke_generation_tx. intros H. apply bind_Ok_inv in H as (i & Hi & H). apply bind_Ok_inv in H as (c & Hc & H).
  destruct (in_state REVOKED c); [apply return_identity_Ok in H as ->; constructor|].
  destruct (update_where _ _ _) as [t n] eqn:E. apply return_identity_Ok in H as ->.
  assert (Ht : t = (t, n).1) by done. rewrite <-E in Ht. rewrite Ht.
  apply step_revoke_touch; [done|]. intros x. unfold is_certificate. rewrite andb_true_iff. tauto.
Qed.

Lemma revoke_certificates_step k a now d r d' : revoke_certificates_tx a now d = Ok (r, d') -> db_step k true d d'.
Proof.
  unfold revoke_certificates_tx. intros H. apply bind_Ok_inv in H as (i & Hi & H).
  destruct (update_where _ _ _) as [t n] eqn:E. apply return_identity_Ok in H as ->.
  destruct n as [|n]; cbn [Nat.eqb].
  - apply update_where_zero in E as ->. destruct d. constructor.
  - assert (Ht : t = (t, S n).1) by done. rewrite <-E in Ht. rewrite Ht. apply step_revoke_touch; [done|].
    intros c. rewrite andb_true_iff. tauto.
Qed.

(** A transaction that steps, after arguments that may be rejected. *)
Lemma transaction_step {A} k f (body : db -> res (A * db)) d :
  (forall a d', body d = Ok (a, d') -> db_step k f d d') -> db_step k f d (transaction body d).2.
Proof. unfold transaction. intros Hb. destruct (body d) as [[a d']|e] eqn:E; [by eapply Hb|constructor]. Qed.

(** Every call is one step. *)
Lemma exec_db_step c d : db_step (micros (call_now c)) (forgets c) d (exec c d).
Proof.
  destruct c as [target host scopes a fresh now|a generation m key now|a generation overlap now|a generation now
    |a generation now|a now]; cbn [exec call_now forgets].
  - unfold get_or_create. destruct (_ ≫= _) as [[[[? ?] ?] ?]|]; [|constructor].
    apply transaction_step. intros ? ?. apply get_or_create_step.
  - unfold stage_certificate. destruct (_ ≫= _) as [[[? ?] ?]|]; [|constructor].
    apply transaction_step. intros ? ?. apply stage_step.
  - unfold activate. destruct (_ ≫= _); [|constructor]. apply transaction_step. intros ? ?. apply activate_step.
  - unfold abort. destruct (_ ≫= _); [|constructor]. apply transaction_step. intros ? ?. apply abort_step.
  - unfold revoke. destruct (_ ≫= _); [|constructor]. destruct generation.
    + apply transaction_step. intros ? ?. apply revoke_generation_step.
    + apply transaction_step. intros ? ?. apply revoke_identity_step.
  - unfold revoke_certificates. destruct (normalize_agent_id a); [|constructor].
    apply transaction_step. intros ? ?. apply revoke_certificates_step.
Qed.
End Exec.

(** ** The lifecycle of a certificate *)

(** The transitions of a certificate's state. *)
Definition moves (s s' : AgentCertificateState) : bool :=
  match s, s' with
  | STAGED, (STAGED | ACTIVE | REVOKED) | ACTIVE, (ACTIVE | RETIRED | REVOKED) | RETIRED, (RETIRED | REVOKED)
  | REVOKED, REVOKED => true
  | _, _ => false
  end.

(** The columns nothing changes. *)
Definition same_certificate (c c' : cert_row) : Prop :=
  cr_agent_id c' = cr_agent_id c /\ cr_generation c' = cr_generation c /\ cr_serial_number c' = cr_serial_number c /\
  cr_cert_sha256 c' = cr_cert_sha256 c /\ cr_spki_sha256 c' = cr_spki_sha256 c /\
  cr_certificate_pem c' = cr_certificate_pem c /\ cr_not_before_us c' = cr_not_before_us c /\
  cr_not_after_us c' = cr_not_after_us c /\ cr_created_at_us c' = cr_created_at_us c.

Definition cert_step (c c' : cert_row) : Prop :=
  same_certificate c c' /\ moves (cr_state c) (cr_state c') = true /\
  (cr_idempotency_key_sha256 c' = cr_idempotency_key_sha256 c \/ cr_idempotency_key_sha256 c' = None).

#[global] Instance same_certificate_preorder : PreOrder same_certificate.
Proof. split; [done|]. unfold same_certificate. intros x y z ? ?. destruct_and?. split_and!; congruence. Qed.

Lemma moves_refl s : moves s s = true.
Proof. by destruct s. Qed.

Lemma cert_step_refl c : cert_step c c.
Proof. split; [done|]. split; [apply moves_refl|by left]. Qed.

Ltac solve_cert_step :=
  unfold cert_step, same_certificate; cbn;
  repeat match goal with H : cr_state _ = _ |- _ => rewrite H end; split_and!; auto.

Lemma revoked_row_step now forget c : cert_step c (revoked_row now forget c).
Proof.
  assert (Hm : moves (cr_state c) REVOKED = true) by (by destruct (cr_state c)).
  unfold revoked_row. destruct forget; solve_cert_step.
Qed.

(** What a rotation does to a row, case by case. *)
Lemma rotated_row_cases a g now over c :
  let c' := rotated_row a g now over c in
  (cr_agent_id c <> a /\ c' = c) \/
  (cr_agent_id c = a /\
   match cr_state c with
   | STAGED => if cr_generation c =? g then c' = activated_row now c else c' = c
   | ACTIVE => c' = retired_row now over c
   | RETIRED => if overlapping a now c then c' = close_overlap now c else c' = c
   | REVOKED => c' = c
   end).
Proof.
  cbv zeta. destruct (decide (cr_agent_id c = a)) as [Ha|Ha].
  - right. split; [done|]. assert (Ho : of_agent a c = true) by (by apply of_agent_true).
    assert (Hi : forall s, in_state s c = bool_decide (cr_state c = s)) by done.
    unfold rotated_row. destruct (cr_state c) eqn:Es.
    + assert (Hov : overlapping a now c = false) by (unfold overlapping; by rewrite Hi, andb_false_r).
      rewrite Hov, Hi, andb_false_r. unfold is_certificate. rewrite Ho, Hi. by destruct (cr_generation c =? g).
    + assert (Hov : overlapping a now c = false) by (unfold overlapping; by rewrite Hi, andb_false_r).
      rewrite Hov, Hi, Ho. cbn [bool_decide decide_rel]. by rewrite andb_false_r.
    + destruct (overlapping a now c); [assert (Hc : cr_state (close_overlap now c) = RETIRED) by done|
        assert (Hc : cr_state c = RETIRED) by done]; unfold in_state; rewrite !Hc, andb_false_r;
        by rewrite Hc, andb_false_r.
    + assert (Hov : overlapping a now c = false) by (unfold overlapping; by rewrite Hi, andb_false_r).
      by rewrite Hov, !Hi, !andb_false_r, Hi, andb_false_r.
  - left. split; [done|]. unfold rotated_row, overlapping, is_certificate. unfold of_agent.
    by rewrite !(bool_decide_false (cr_agent_id c = a)).
Qed.

Lemma rotated_row_step a g now over c : cert_step c (rotated_row a g now over c).
Proof.
  pose proof (rotated_row_cases a g now over c) as [[_ ->]|[_ H]]; [apply cert_step_refl|].
  destruct (cr_state c) eqn:Es.
  - destruct (_ =? _); rewrite H; [|apply cert_step_refl]. solve_cert_step.
  - rewrite H. solve_cert_step.
  - destruct (overlapping _ _ _); rewrite H; [|apply cert_step_refl]. solve_cert_step.
  - rewrite H. apply cert_step_refl.
Qed.

(** The columns of a head that only a new row brings. *)
Definition head_step (r r' : identity_row) : Prop :=
  ir_agent_id r' = ir_agent_id r /\ ir_target_id r' = ir_target_id r /\
  ir_canonical_host_id r' = ir_canonical_host_id r /\ ir_generation r <= ir_generation r' /\
  (ir_state r' = ir_state r \/ ir_state r' = ID_REVOKED).

(** A step maps the certificates and appends at most one, which is new and staged. *)
Lemma step_certificates k f0 d d' : db_step k f0 d d' ->
  exists f, (forall c, cert_step c (f c)) /\
    (certificates d' = f <$> certificates d \/
     exists row, certificates d' = (f <$> certificates d) ++ [row] /\ cr_state row = STAGED /\
       certificate_clashes row (certificates d) = false).
Proof.
  intros [|row _ _ _|i row now _ _ _ Hs _ _ Hc|i c over _ _ _ _ _ _|a p g now forget _ _ _]; cbn [certificates touch].
  - exists id. split; [apply cert_step_refl|left; by rewrite list_fmap_id].
  - exists id. split; [apply cert_step_refl|left; by rewrite list_fmap_id].
  - exists id. split; [apply cert_step_refl|right]. exists row. by rewrite list_fmap_id.
  - exists (rotated_row (cr_agent_id c) (cr_generation c) k over). split; [apply rotated_row_step|by left].
  - exists (fun c => if p c then revoked_row now forget c else c). split; [|by left].
    intros c. destruct (p c); [apply revoked_row_step|apply cert_step_refl].
Qed.

(** Rows keep their idempotency keys unless the call may forget them. *)
Lemma step_keys k d d' c : db_step k false d d' -> c ∈ certificates d ->
  exists c', c' ∈ certificates d' /\ cr_agent_id c' = cr_agent_id c /\
    cr_idempotency_key_sha256 c' = cr_idempotency_key_sha256 c.
Proof.
  intros [|row _ _ _|i row now _ _ _ _ _ _ _|i x over _ _ _ _ _ _|a p g now forget Hf _ _] Hc; cbn [certificates touch].
  - by exists c.
  - by exists c.
  - exists c. split; [|done]. apply elem_of_app. by left.
  - exists (rotated_row (cr_agent_id x) (cr_generation x) k over c).
    split; [apply list_elem_of_fmap; by exists c|].
    split; [by destruct (rotated_row_step (cr_agent_id x) (cr_generation x) k over c) as [(? & _) _]|].
    unfold rotated_row. by repeat case_match.
  - exists (if p c then revoked_row now forget c else c). split; [rewrite elem_update_where; by exists c|].
    destruct forget; [by specialize (Hf eq_refl)|]. by destruct (p c).
Qed.

Lemma step_identities k f0 d d' : db_step k f0 d d' ->
  exists g, (forall r, r ∈ identities d -> head_step r (g r)) /\
    (identities d' = g <$> identities d \/
     exists row, identities d' = (g <$> identities d) ++ [row] /\ identity_clashes row (identities d) = false).
Proof.
  assert (Hrefl : forall r, head_step r r) by (intros r; split_and!; auto; lia).
  intros [|row Hc _ _|i row now _ _ _ _ _ _ _|i c over _ _ _ _ _ _|a p g now forget _ _ Hg]; cbn [identities].
  - exists id. split; [by intros|left; by rewrite list_fmap_id].
  - exists id. split; [by intros|right]. exists row. by rewrite list_fmap_id.
  - eexists. split; [|left; unfold update_where; cbn [fst]; reflexivity]. intros r _. cbn beta.
    destruct (_ && _) eqn:E; [|done]. apply andb_true_iff in E as [[_ Hgen%Z.eqb_eq]%andb_true_iff _].
    unfold head_step; split_and!; cbn; auto. lia.
  - eexists. split; [|left; unfold touch, update_where; cbn [fst]; reflexivity]. intros r _. cbn beta.
    destruct (is_agent _ _); [|done]. unfold head_step; split_and!; cbn; auto. lia.
  - exists (fun r => if is_agent a r then g r else r). split; [|by left]. intros r _.
    destruct (is_agent a r); [|done]. destruct (Hg r) as (? & ? & ? & ? & [?|[? _]]); unfold head_step; split_and!; auto; lia.
Qed.

(** ** The invariant *)

(** A certificate and the head it belongs to. *)
Definition owned (i : identity_row) (c : cert_row) : Prop :=
  ir_agent_id i = cr_agent_id c /\ 1 <= cr_generation c <= ir_generation i /\
  (ir_state i = ID_REVOKED -> cr_state c = REVOKED) /\ (cr_state c = STAGED -> cr_generation c = ir_generation i).

Record well_formed (d : db) : Prop := {
  wf_ids : NoDup (ir_agent_id <$> identities d);
  wf_targets : NoDup (ir_target_id <$> identities d);
  wf_hosts : NoDup (ir_canonical_host_id <$> identities d);
  wf_serials : NoDup (cr_serial_number <$> certificates d);
  wf_prints : NoDup (cr_cert_sha256 <$> certificates d);
  wf_generations : NoDup ((fun c => (cr_agent_id c, cr_generation c)) <$> certificates d);
  wf_owned : forall c, c ∈ certificates d -> exists i, i ∈ identities d /\ owned i c;
  wf_active : forall c1 c2, c1 ∈ certificates d -> c2 ∈ certificates d -> cr_agent_id c1 = cr_agent_id c2 ->
    cr_state c1 = ACTIVE -> cr_state c2 = ACTIVE -> c1 = c2;
  wf_keys : forall c1 c2 k, c1 ∈ certificates d -> c2 ∈ certificates d -> cr_agent_id c1 = cr_agent_id c2 ->
    cr_idempotency_key_sha256 c1 = Some k -> cr_idempotency_key_sha256 c2 = Some k -> c1 = c2;
  wf_window : forall c, c ∈ certificates d -> cr_not_before_us c < cr_not_after_us c;
}.

Lemma fmap_column {A K} (key : A -> K) (f : A -> A) (l : list A) :
  (forall x, x ∈ l -> key (f x) = key x) -> key <$> (f <$> l) = key <$> l.
Proof.
  intros Hf. rewrite <-list_fmap_compose. apply list_fmap_ext. intros n x Hx%list_elem_of_lookup_2. by apply Hf.
Qed.

Lemma NoDup_column_app {A K} (key : A -> K) (l : list A) x :
  NoDup (key <$> l) -> (forall y, y ∈ l -> key y <> key x) -> NoDup (key <$> (l ++ [x])).
Proof.
  intros Hn Hx. rewrite fmap_app. apply list.NoDup_app. split; [done|]. split; [|apply NoDup_singleton].
  intros k (y & -> & Hy)%list_elem_of_fmap E%list_elem_of_singleton. by apply (Hx y).
Qed.

(** A step that only changes rows. *)
Lemma well_formed_map f g d :
  (forall c, cert_step c (f c)) -> (forall r, r ∈ identities d -> head_step r (g r)) ->
  (forall i c, i ∈ identities d -> c ∈ certificates d -> owned i c -> owned (g i) (f c)) ->
  (forall c1 c2, c1 ∈ certificates d -> c2 ∈ certificates d -> cr_agent_id c1 = cr_agent_id c2 ->
     cr_state (f c1) = ACTIVE -> cr_state (f c2) = ACTIVE -> c1 = c2) ->
  well_formed d -> well_formed (mkDb (g <$> identities d) (f <$> certificates d)).
Proof.
  intros Hf Hg Ho Ha W.
  assert (Hcol : forall K (key : cert_row -> K), (forall c c', same_certificate c c' -> key c' = key c) ->
    key <$> (f <$> certificates d) = key <$> certificates d)
    by (intros K key Hk; apply fmap_column; intros x _; apply Hk, Hf).
  split; cbn [identities certificates].
  - rewrite fmap_column; [apply (wf_ids d W)|]. intros r Hr. apply (Hg r Hr).
  - rewrite fmap_column; [apply (wf_targets d W)|]. intros r Hr. apply (Hg r Hr).
  - rewrite fmap_column; [apply (wf_hosts d W)|]. intros r Hr. apply (Hg r Hr).
  - rewrite Hcol; [apply (wf_serials d W)|]. intros c c' Hs. apply Hs.
  - rewrite Hcol; [apply (wf_prints d W)|]. intros c c' Hs. apply Hs.
  - rewrite Hcol; [apply (wf_generations d W)|]. intros c c' (-> & -> & _). done.
  - intros c' (c & -> & Hc)%list_elem_of_fmap. destruct (wf_owned d W c Hc) as (i & Hi & Hio).
    exists (g i). split; [|by apply Ho]. apply list_elem_of_fmap. by exists i.
  - intros c1' c2' (c1 & -> & H1)%list_elem_of_fmap (c2 & -> & H2)%list_elem_of_fmap Hk A1 A2.
    f_equal. apply Ha; [done..| |done|done]. destruct (Hf c1) as [(E1 & _) _], (Hf c2) as [(E2 & _) _]. congruence.
  - intros c1' c2' k (c1 & -> & H1)%list_elem_of_fmap (c2 & -> & H2)%list_elem_of_fmap Hk K1 K2.
    destruct (Hf c1) as [(E1 & _) (_ & [X1|X1])], (Hf c2) as [(E2 & _) (_ & [X2|X2])]; try congruence.
    f_equal. apply (wf_keys d W c1 c2 k); congruence.
  - intros c' (c & -> & Hc)%list_elem_of_fmap. destruct (Hf c) as [Hs _]. unfold same_certificate in Hs.
    pose proof (wf_window d W c Hc). destruct_and?. congruence.
Qed.

Lemma owned_unique d i c : well_formed d -> i ∈ identities d -> c ∈ certificates d -> ir_agent_id i = cr_agent_id c -> owned i c.
Proof.
  intros W Hi Hc Ha. destruct (wf_owned d W c Hc) as (j & Hj & Ho). assert (i = j) as ->; [|done].
  eapply (unique_rows ir_agent_id); [apply (wf_ids d W)|done..|]. destruct Ho as [-> _]. done.
Qed.

Lemma certificate_unique d c1 c2 : well_formed d -> c1 ∈ certificates d -> c2 ∈ certificates d ->
  cr_agent_id c1 = cr_agent_id c2 -> cr_generation c1 = cr_generation c2 -> c1 = c2.
Proof.
  intros W H1 H2 Ha Hg. eapply (unique_rows (fun c => (cr_agent_id c, cr_generation c))); [apply (wf_generations d W)|done..|].
  cbn. congruence.
Qed.

Lemma owned_step i j c c' : head_step i j -> cert_step c c' -> owned i c -> ir_generation j = ir_generation i ->
  (ir_state j = ID_REVOKED -> cr_state c' = REVOKED) -> owned j c'.
Proof.
  intros (Ei & _) [(Ec & Eg & _) [Hm _]] (Ha & Hg & _ & Hs) Hgen Hr. split_and!; try congruence; try lia; [exact Hr|].
  intros Hst. rewrite Eg, Hgen. apply Hs. rewrite Hst in Hm. by destruct (cr_state c).
Qed.

Lemma well_formed_activate d i c now over : well_formed d -> i ∈ identities d -> ir_agent_id i = cr_agent_id c ->
  ir_state i = ID_ACTIVE -> c ∈ certificates d -> cr_state c = STAGED ->
  well_formed (touch (cr_agent_id c) now
    (mkDb (identities d) (rotated_row (cr_agent_id c) (cr_generation c) now over <$> certificates d))).
Proof.
  intros W Hi Ha Hs Hc Hst. unfold touch. cbn [identities]. unfold update_where. cbn [fst].
  set (g := fun r => if is_agent (cr_agent_id c) r then _ else r).
  assert (Hg : forall r, head_step r (g r) /\ ir_generation (g r) = ir_generation r /\ ir_state (g r) = ir_state r).
  { intros r. unfold g. destruct (is_agent _ r); unfold head_step; split_and!; cbn; auto; lia. }
  apply (well_formed_map _ g); [apply rotated_row_step|by intros r _; apply Hg| |  |done].
  - intros j x Hj Hx Ho. apply (owned_step j (g j) x); [apply Hg|apply rotated_row_step|done|apply Hg|].
    destruct (Hg j) as (_ & _ & ->). intros Hrev. destruct Ho as (Hja & _ & Hr & _). specialize (Hr Hrev).
    pose proof (rotated_row_step (cr_agent_id c) (cr_generation c) now over x) as (_ & Hm & _). rewrite Hr in Hm.
    by destruct (cr_state (rotated_row _ _ _ _ x)).
  - intros x y Hx Hy Hxy.
    assert (Hact : forall z, z ∈ certificates d -> cr_agent_id z = cr_agent_id c ->
      cr_state (rotated_row (cr_agent_id c) (cr_generation c) now over z) = ACTIVE -> z = c).
    { intros z Hz Hza Hzs. destruct (rotated_row_cases (cr_agent_id c) (cr_generation c) now over z) as [[? _]|[_ Hcase]]; [done|].
      destruct (cr_state z) eqn:Ez.
      - destruct (Z.eqb_spec (cr_generation z) (cr_generation c)); [by eapply certificate_unique|]. congruence.
      - rewrite Hcase in Hzs. done.
      - destruct (overlapping _ _ _); rewrite Hcase in Hzs; cbn in Hzs; congruence.
      - congruence. }
    destruct (decide (cr_agent_id x = cr_agent_id c)) as [Hxa|Hxa].
    + intros A1 A2. rewrite (Hact x), (Hact y) by congruence. done.
    + destruct (rotated_row_cases (cr_agent_id c) (cr_generation c) now over x) as [[_ ->]|[? _]]; [|done].
      destruct (rotated_row_cases (cr_agent_id c) (cr_generation c) now over y) as [[_ ->]|[? _]]; [|congruence].
      by apply (wf_active d W).
Qed.

Lemma well_formed_revoke d a p g now forget : well_formed d ->
  (forall c, p c = true -> of_agent a c = true) ->
  (forall r, ir_agent_id (g r) = ir_agent_id r /\ ir_target_id (g r) = ir_target_id r /\
     ir_canonical_host_id (g r) = ir_canonical_host_id r /\ ir_generation (g r) = ir_generation r /\
     (ir_state (g r) = ir_state r \/
      ir_state (g r) = ID_REVOKED /\ forall c, of_agent a c = true -> p c = true \/ cr_state c = REVOKED)) ->
  well_formed (mkDb (update_where (is_agent a) g (identities d)).1
                    (update_where p (revoked_row now forget) (certificates d)).1).
Proof.
  intros W Hp Hg. unfold update_where. cbn [fst].
  assert (Hrev : forall x, cr_state (revoked_row now forget x) = REVOKED) by (intros x; by destruct forget).
  apply well_formed_map; [| | | |done].
  - intros c. destruct (p c); [apply revoked_row_step|apply cert_step_refl].
  - intros r _. destruct (is_agent a r); [|unfold head_step; split_and!; auto; lia].
    destruct (Hg r) as (? & ? & ? & ? & [?|[? _]]); unfold head_step; split_and!; auto; lia.
  - intros i c Hi Hc Ho. destruct (is_agent a i) eqn:Ea.
    + destruct (Hg i) as (E1 & E2 & E3 & E4 & E5). apply (owned_step i (g i) c); [|destruct (p c); [apply revoked_row_step|apply cert_step_refl]|done|done|].
      * unfold head_step. split_and!; auto; [lia|]. destruct E5 as [?|[? _]]; auto.
      * intros Hs. destruct (p c) eqn:Epc; [apply Hrev|]. destruct E5 as [E5|[_ E5]].
        -- apply Ho. congruence.
        -- apply is_agent_true in Ea. destruct (E5 c) as [?|?]; [|congruence|done]. apply of_agent_true.
           destruct Ho as [Ho _]. congruence.
    + apply (owned_step i i c); [unfold head_step; split_and!; auto; lia|destruct (p c); [apply revoked_row_step|apply cert_step_refl]|done|done|].
      intros Hs. destruct (p c); [apply Hrev|]. by apply Ho.
  - intros x y Hx Hy Hxy. destruct (p x); [by rewrite Hrev|]. destruct (p y); [by rewrite Hrev|]. by apply (wf_active d W).
Qed.

Lemma existsb_false {A} (p : A -> bool) l : existsb p l = false -> forall x, x ∈ l -> p x = false.
Proof.
  intros E x Hx. destruct (p x) eqn:Hp; [|done]. assert (existsb p l = true); [|congruence].
  apply existsb_exists. exists x. by rewrite <-list_elem_of_In.
Qed.

Lemma clashes_false row t : certificate_clashes row t = false ->
  cr_not_before_us row < cr_not_after_us row /\ 1 <= cr_generation row /\
  forall c, c ∈ t -> cr_serial_number c <> cr_serial_number row /\ cr_cert_sha256 c <> cr_cert_sha256 row /\
    (cr_agent_id c = cr_agent_id row -> cr_generation c <> cr_generation row /\
       forall k, cr_idempotency_key_sha256 row = Some k -> cr_idempotency_key_sha256 c <> Some k).
Proof.
  unfold certificate_clashes. intros [[H1%Z.leb_gt H2%Z.ltb_ge]%orb_false_iff H3]%orb_false_iff.
  split; [lia|]. split; [lia|]. intros c Hc. pose proof (existsb_false _ _ H3 c Hc) as Hx. cbn beta in Hx.
  apply orb_false_iff in Hx as [[X1 X2]%orb_false_iff X3].
  apply bool_decide_eq_false in X1. apply bool_decide_eq_false in X2. split; [done|]. split; [done|].
  intros Ha. rewrite bool_decide_true in X3 by done. cbn [andb] in X3.
  apply orb_false_iff in X3 as [[X3%Z.eqb_neq _]%orb_false_iff X4]. split; [done|]. intros k Hk. rewrite Hk in X4.
  by apply bool_decide_eq_false in X4.
Qed.

Lemma well_formed_append d row i : well_formed d -> i ∈ identities d -> owned i row -> cr_state row = STAGED ->
  certificate_clashes row (certificates d) = false -> well_formed (mkDb (identities d) (certificates d ++ [row])).
Proof.
  intros W Hi Ho Hs (Hw & Hg & Hc)%clashes_false.
  assert (Hsplit : forall c, c ∈ certificates d ++ [row] -> c ∈ certificates d \/ c = row).
  { intros c [?|?%list_elem_of_singleton]%elem_of_app; auto. }
  split; cbn [identities certificates]; try apply W.
  - apply NoDup_column_app; [apply W|]. intros c Hin. by apply Hc.
  - apply NoDup_column_app; [apply W|]. intros c Hin. by apply Hc.
  - apply NoDup_column_app; [apply W|]. intros c Hin E. injection E as Ha E. destruct (Hc c Hin) as (_ & _ & Hne).
    by destruct (Hne Ha).
  - intros c [Hin| ->]%Hsplit; [by apply W|by exists i].
  - intros c1 c2 [H1| ->]%Hsplit [H2| ->]%Hsplit Ha A1 A2; [by apply W|congruence..].
  - intros c1 c2 k [H1| ->]%Hsplit [H2| ->]%Hsplit Ha K1 K2; [by apply (wf_keys d W c1 c2 k)| | |done]; exfalso.
    + destruct (Hc c1 H1) as (_ & _ & Hne). destruct (Hne Ha) as [_ Hk]. by apply (Hk k).
    + destruct (Hc c2 H2) as (_ & _ & Hne). destruct (Hne (eq_sym Ha)) as [_ Hk]. by apply (Hk k).
  - intros c [Hin| ->]%Hsplit; [by apply W|done].
Qed.

Lemma well_formed_bump d i a gen now : well_formed d -> i ∈ identities d -> ir_agent_id i = a -> gen = ir_generation i + 1 ->
  (forall c, c ∈ certificates d -> of_agent a c && in_state STAGED c = false) ->
  well_formed (mkDb (update_where
    (fun r => is_agent a r && (ir_generation r =? gen - 1) && bool_decide (ir_state r = ID_ACTIVE))
    (fun r => r <| ir_generation := gen |> <| ir_updated_at_us := now |> <| ir_revision := ir_revision r + 1 |>)
    (identities d)).1 (certificates d)).
Proof.
  intros W Hi Ha Hgen Hns. rewrite <-(list_fmap_id (certificates d)). unfold update_where. cbn [fst].
  apply (well_formed_map id); [apply cert_step_refl| | | |done].
  - intros r _. cbn beta. destruct (is_agent a r && _ && _) eqn:E; [|unfold head_step; split_and!; auto; lia].
    apply andb_true_iff in E as [[_ E%Z.eqb_eq]%andb_true_iff _]. unfold head_step. split_and!; cbn; auto. lia.
  - intros j c Hj Hc Ho. cbn beta. destruct (is_agent a j && _ && _) eqn:E; [|done].
    apply andb_true_iff in E as [[Ea%is_agent_true Eg%Z.eqb_eq]%andb_true_iff Es%bool_decide_eq_true].
    destruct Ho as (Hja & Hjg & _ & Hjs). unfold owned. cbn. split_and!; [done|lia|lia|congruence|].
    intros Hst. specialize (Hns c Hc). rewrite (proj2 (of_agent_true a c)), (proj2 (in_state_true STAGED c)) in Hns by congruence. done.
  - intros c1 c2 H1 H2 Hk A1 A2. by apply (wf_active d W).
Qed.

Lemma well_formed_bind d row : well_formed d -> identity_clashes row (identities d) = false ->
  well_formed (mkDb (identities d ++ [row]) (certificates d)).
Proof.
  intros W Hcl. unfold identity_clashes in Hcl.
  assert (Hne : forall r, r ∈ identities d -> ir_agent_id r <> ir_agent_id row /\ ir_target_id r <> ir_target_id row /\
    ir_canonical_host_id r <> ir_canonical_host_id row).
  { intros r Hr. pose proof (existsb_false _ _ Hcl r Hr) as Hx. cbn beta in Hx.
    apply orb_false_iff in Hx as [[?%bool_decide_eq_false ?%bool_decide_eq_false]%orb_false_iff ?%bool_decide_eq_false]. done. }
  split; cbn [identities certificates]; try apply W.
  - apply NoDup_column_app; [apply W|]. intros r Hr. by apply Hne.
  - apply NoDup_column_app; [apply W|]. intros r Hr. by apply Hne.
  - apply NoDup_column_app; [apply W|]. intros r Hr. by apply Hne.
  - intros c Hc. destruct (wf_owned d W c Hc) as (i & Hi & Ho). exists i. split; [|done]. apply elem_of_app. by left.
Qed.

Lemma well_formed_step k f d d' : db_step k f d d' -> well_formed d -> well_formed d'.
Proof.
  intros Hs W. destruct Hs as [|row Hc _ _|i row now Hi Ha Hact Hst Hg Hns Hc|i c over Hi Ha Hact Hc Hst _|a p g now forget _ Hp Hg].
  - done.
  - by apply well_formed_bind.
  - match goal with |- well_formed (mkDb ?ids _) => set (d1 := mkDb ids (certificates d)) end.
    assert (W1 : well_formed d1) by (by eapply well_formed_bump).
    change (well_formed (mkDb (identities d1) (certificates d1 ++ [row]))).
    apply (well_formed_append d1 row (i <| ir_generation := cr_generation row |> <| ir_updated_at_us := now |>
      <| ir_revision := ir_revision i + 1 |>)); [done| | |done|exact Hc].
    + unfold d1. cbn [identities]. rewrite elem_update_where. exists i. split; [done|].
      rewrite (proj2 (is_agent_true (cr_agent_id row) i)), (bool_decide_true (ir_state i = ID_ACTIVE)), Hg by done.
      replace (ir_generation i + 1 - 1) with (ir_generation i) by lia. by rewrite Z.eqb_refl.
    + apply clashes_false in Hc as (_ & Hge & _). unfold owned. cbn. split; [done|]. split; [lia|].
      split; [congruence|done].
  - by eapply well_formed_activate.
  - by apply well_formed_revoke.
Qed.

Lemma well_formed_empty : well_formed empty_db.
Proof. split; cbn; try apply NoDup_nil_2; set_solver. Qed.

Section Runs.
Context {U : Unicode}.

Lemma well_formed_run cs d : well_formed d -> well_formed (run cs d).
Proof. revert d. induction cs as [|c cs IH]; intros d W; [done|]. apply IH. eapply well_formed_step; [apply exec_db_step|done]. Qed.

Lemma run_call_cons c cs d : run (c :: cs) d = run cs (exec c d).
Proof. done. Qed.
End Runs.
