(* ===== verification/AgentProps.v ===== *)
(** * What the identity registry promises

    Properties of [AgentIdentity] over any history of calls, from the steps of
    [AgentSteps]. *)

From stdpp Require Import base sets strings numbers list sorting relations.
From Stdlib Require Import ZArith Lia.
From S2P Require Import Prelude PyText PyHash PyFloat Compare Tables AgentIdentity AgentSteps.

#[local] Open Scope Z_scope.

Section Props.
Context {U : Unicode}.

(** The registry after a history of calls. *)
Abbreviation after cs := (run cs empty_db).

Lemma well_formed_after cs : well_formed (after cs).
Proof. apply well_formed_run, well_formed_empty. Qed.

(** C10. The registry is well formed after any history of calls: agents, targets,
    hosts, serials, fingerprints and generations are unique; every certificate
    belongs to an identity, with a generation between 1 and the identity's; an
    agent has at most one active and one staged certificate, the staged one of
    the latest generation; a revoked identity has only revoked certificates. *)
Theorem registry_well_formed cs :
  well_formed (after cs) /\
  forall c1 c2, c1 ∈ certificates (after cs) -> c2 ∈ certificates (after cs) -> cr_agent_id c1 = cr_agent_id c2 ->
    cr_state c1 = STAGED -> cr_state c2 = STAGED -> c1 = c2.
Proof.
  pose proof (well_formed_after cs) as W. split; [done|]. intros c1 c2 H1 H2 Ha S1 S2.
  destruct (wf_owned _ W c1 H1) as (i & Hi & (Hia & _ & _ & Hs1)).
  destruct (owned_unique _ i c2 W Hi H2 ltac:(congruence)) as (_ & _ & _ & Hs2).
  eapply certificate_unique; [exact W|done..|]. rewrite Hs1, Hs2; done.
Qed.

(** ** Certificates over time *)

Abbreviation moves_to := (rtc (fun s s' => moves s s' = true)).

Lemma run_certificate cs d c : c ∈ certificates d ->
  exists c', c' ∈ certificates (run cs d) /\ same_certificate c c' /\ moves_to (cr_state c) (cr_state c').
Proof.
  revert d c. induction cs as [|x cs IH]; intros d c Hc; [by exists c|]. rewrite run_call_cons.
  destruct (step_certificates _ _ _ _ (exec_db_step x d)) as (f & Hf & Hd).
  assert (Hin : f c ∈ certificates (exec x d)).
  { destruct Hd as [-> |(row & -> & _)]; [|apply elem_of_app; left]; apply list_elem_of_fmap; by exists c. }
  destruct (IH _ _ Hin) as (c' & Hc' & Hs & Hm). destruct (Hf c) as (Hs1 & Hm1 & _).
  exists c'. split; [done|]. split; [by transitivity (f c)|]. by eapply rtc_l.
Qed.

Lemma run_identity cs d i : i ∈ identities d -> exists i', i' ∈ identities (run cs d) /\ head_step i i'.
Proof.
  revert d i. induction cs as [|x cs IH]; intros d i Hi.
  - exists i. split; [done|]. unfold head_step. split_and!; auto. lia.
  - rewrite run_call_cons. destruct (step_identities _ _ _ _ (exec_db_step x d)) as (g & Hg & Hd).
    assert (Hin : g i ∈ identities (exec x d)).
    { destruct Hd as [-> |(row & -> & _)]; [|apply elem_of_app; left]; apply list_elem_of_fmap; by exists i. }
    destruct (IH _ _ Hin) as (i' & Hi' & Hs). exists i'. split; [done|]. specialize (Hg i Hi).
    unfold head_step in *. destruct_and?. split_and!; try congruence; try lia. intuition congruence.
Qed.

Lemma revoked_absorbs s s' : moves_to s s' -> s = REVOKED -> s' = REVOKED.
Proof. induction 1 as [|s1 s2 s3 Hm _ IH]; [done|]. intros ->. apply IH. by destruct s2. Qed.

(** A certificate is immutable but for its lifecycle: whatever calls follow,
    its row stays, with the same agent, generation, serial, fingerprints, PEM and
    window; its state only moves from staged to active, active to retired, or
    to revoked, and it never leaves revoked. *)
Theorem certificates_follow_lifecycle cs0 cs c :
  c ∈ certificates (after cs0) ->
  exists c', c' ∈ certificates (run cs (after cs0)) /\ same_certificate c c' /\
    moves_to (cr_state c) (cr_state c') /\ (cr_state c = REVOKED -> cr_state c' = REVOKED).
Proof.
  intros Hc. destruct (run_certificate cs _ c Hc) as (c' & Hc' & Hs & Hm). exists c'. split_and!; try done.
  by apply revoked_absorbs.
Qed.

(** ** Verification *)

Lemma elem_joined d c i : (c, i) ∈ joined d <-> c ∈ certificates d /\ i ∈ identities d /\ ir_agent_id i = cr_agent_id c.
Proof.
  unfold joined. rewrite list_elem_of_bind. split.
  - intros (c' & Hi & Hc'). apply list_elem_of_fmap in Hi as (i' & E & Hi). injection E as -> ->.
    apply elem_select_where in Hi as [?%is_agent_true ?]. done.
  - intros (Hc & Hi & Ha). exists c. split; [|done]. apply list_elem_of_fmap. exists i. split; [done|].
    apply elem_select_where. by rewrite is_agent_true.
Qed.

Lemma presents_unique d f s c c' : well_formed d -> f <> None \/ s <> None -> c ∈ certificates d -> c' ∈ certificates d ->
  presents f s c = true -> presents f s c' = true -> c = c'.
Proof.
  intros W Hsome Hc Hc' [P1 P2]%andb_true_iff [P1' P2']%andb_true_iff. destruct f as [f|].
  - apply bool_decide_eq_true in P1. apply bool_decide_eq_true in P1'.
    eapply (unique_rows cr_cert_sha256); [apply W|done..|congruence].
  - destruct s as [s|]; [|by destruct Hsome]. apply bool_decide_eq_true in P2. apply bool_decide_eq_true in P2'.
    eapply (unique_rows cr_serial_number); [apply W|done..|congruence].
Qed.

(** The normalised arguments of [verify]. *)
Definition verify_arguments (cert serial : option str) : res (option str * option str) :=
  raise_if (bool_decide (cert = None) && bool_decide (serial = None)) ValueError;;
  fingerprint ← match cert with Some f => Some <$> normalize_hex f (Some 64%nat) | None => Ok None end;
  number ← match serial with Some s => Some <$> normalize_serial s | None => Ok None end;
  Ok (fingerprint, number).

Lemma verify_arguments_some cert serial f s : verify_arguments cert serial = Ok (f, s) -> f <> None \/ s <> None.
Proof.
  unfold verify_arguments. destruct cert as [x|].
  - cbn. destruct (normalize_hex x _); [|done]. cbn. intros H. inv_ok. left. congruence.
  - destruct serial as [y|]; [|done]. cbn. destruct (normalize_serial y); [|done]. cbn. intros H. injection H as <- <-. by right.
Qed.

Lemma verify_arguments_verify cert serial now st d :
  verify cert serial now st d =
    '(f, s) ← verify_arguments cert serial;
    match select_one (fun ci => presents f s ci.1) (joined d) with
    | None => Ok None
    | Some (c, i) =>
        if negb (bool_decide (ir_state i = ID_ACTIVE)) then Ok None
        else if negb (in_window (micros now) c) then Ok None
        else if negb (accepted st (micros now) c) then Ok None
        else
          certificate ← certificate_from_row c;
          Ok (Some (mkVerified (cr_agent_id c) (ir_target_id i) (ir_canonical_host_id i) (ir_scopes i) certificate))
    end.
Proof.
  unfold verify, verify_arguments. destruct (raise_if _ _); [|done]. cbn.
  destruct cert as [x|]; [destruct (normalize_hex x _); [|done]|]; cbn;
    (destruct serial as [y|]; [destruct (normalize_serial y); [|done]|]; done).
Qed.

(** Verification accepts exactly the right certificates: [verify] returns a
    principal if and only if the identifiers it is given are those of a
    certificate that is in its validity window, active, retired within its
    overlap, or staged where staged ones are allowed, and whose identity is
    active; the principal is that identity. *)
Theorem verify_spec cs cert serial now st v :
  verify cert serial now st (after cs) = Ok (Some v) <->
  exists f s c i certificate,
    verify_arguments cert serial = Ok (f, s) /\ c ∈ certificates (after cs) /\ presents f s c = true /\
    i ∈ identities (after cs) /\ ir_agent_id i = cr_agent_id c /\ ir_state i = ID_ACTIVE /\
    cr_not_before_us c <= micros now < cr_not_after_us c /\
    (cr_state c = ACTIVE \/ cr_state c = STAGED /\ st = true \/
     cr_state c = RETIRED /\ exists t, cr_overlap_until_us c = Some t /\ micros now < t) /\
    certificate_from_row c = Ok certificate /\
    v = mkVerified (cr_agent_id c) (ir_target_id i) (ir_canonical_host_id i) (ir_scopes i) certificate.
Proof.
  pose proof (well_formed_after cs) as W. rewrite verify_arguments_verify.
  assert (Hacc : forall c, accepted st (micros now) c = true <->
    (cr_state c = ACTIVE \/ cr_state c = STAGED /\ st = true \/
     cr_state c = RETIRED /\ exists t, cr_overlap_until_us c = Some t /\ micros now < t)).
  { intros c. unfold accepted. destruct (cr_state c); [naive_solver..| |naive_solver].
    destruct (cr_overlap_until_us c) as [t|]; [rewrite Z.ltb_lt|]; naive_solver. }
  assert (Hwin : forall c, in_window (micros now) c = true <-> cr_not_before_us c <= micros now < cr_not_after_us c).
  { intros c. unfold in_window. rewrite andb_true_iff, Z.leb_le, Z.ltb_lt. done. }
  split.
  - intros H. apply bind_Ok_inv in H as ([f s] & Ha & H). destruct (select_one _ _) as [[c i]|] eqn:E; [|done].
    apply select_one_Some in E as [Hp (Hc & Hi & Hia)%elem_joined]. cbn [fst] in Hp.
    destruct (bool_decide _) eqn:Es; [|done]. destruct (in_window _ c) eqn:Ew; [|done].
    destruct (accepted _ _ c) eqn:Ea; [|done]. cbn [negb] in H. apply bind_Ok_inv in H as (certificate & Hcr & H).
    exists f, s, c, i, certificate. apply bool_decide_eq_true in Es. apply Hwin in Ew. apply Hacc in Ea.
    split_and!; try done; [apply Ew|apply Ew|congruence].
  - intros (f & s & c & i & certificate & Ha & Hc & Hp & Hi & Hia & Hs & Hw & Hst & Hcr & ->).
    rewrite Ha. cbn [mbind res_bind].
    assert (E : select_one (fun ci => presents f s ci.1) (joined (after cs)) = Some (c, i)).
    { destruct (select_one_exists (fun ci => presents f s ci.1) (joined (after cs)) (c, i)) as [[c' i'] E];
        [by apply elem_joined|done|]. rewrite E.
      apply select_one_Some in E as [Hp' (Hc' & Hi' & Hia')%elem_joined].
      assert (c' = c) as -> by (eapply presents_unique; eauto using verify_arguments_some).
      f_equal. f_equal. eapply (unique_rows ir_agent_id); [apply W|done..|congruence]. }
    rewrite E, bool_decide_true by done. cbn [negb]. rewrite (proj2 (Hwin c) Hw), (proj2 (Hacc c) Hst). cbn [negb].
    by rewrite Hcr.
Qed.

Lemma verify_certificate cs cert serial now st v : verify cert serial now st (after cs) = Ok (Some v) ->
  exists f s c i, verify_arguments cert serial = Ok (f, s) /\ c ∈ certificates (after cs) /\ presents f s c = true /\
    i ∈ identities (after cs) /\ ir_agent_id i = cr_agent_id c /\ ir_state i = ID_ACTIVE /\ cr_state c <> REVOKED.
Proof.
  rewrite verify_arguments_verify. intros H. apply bind_Ok_inv in H as ([f s] & Ha & H).
  destruct (select_one _ _) as [[c i]|] eqn:E; [|done].
  apply select_one_Some in E as [Hp (Hc & Hi & Hia)%elem_joined]. cbn [fst] in Hp.
  destruct (bool_decide _) eqn:Es; [|done]. destruct (in_window _ c); [|done].
  destruct (accepted _ _ c) eqn:Ea; [|done]. apply bool_decide_eq_true in Es. exists f, s, c, i. split_and!; try done.
  unfold accepted in Ea. by destruct (cr_state c).
Qed.

Lemma run_app cs1 cs2 d : run (cs1 ++ cs2) d = run cs2 (run cs1 d).
Proof. apply fold_left_app. Qed.

(** A certificate that is out of service: itself or its identity is revoked. *)
Definition out_of_service (c : cert_row) (d : db) : Prop :=
  c ∈ certificates d /\
  (cr_state c = REVOKED \/ exists i, i ∈ identities d /\ ir_agent_id i = cr_agent_id c /\ ir_state i = ID_REVOKED).

(** C9. Revocation is final: once a certificate or its identity is revoked, no later
    history of calls makes the registry accept its fingerprint or its serial
    number again. *)
Theorem revoked_never_verifies cs0 cs c :
  out_of_service c (after cs0) ->
  (forall f serial now st v, normalize_hex f (Some 64%nat) = Ok (cr_cert_sha256 c) ->
     verify (Some f) serial now st (run cs (after cs0)) <> Ok (Some v)) /\
  (forall s cert now st v, normalize_serial s = Ok (cr_serial_number c) ->
     verify cert (Some s) now st (run cs (after cs0)) <> Ok (Some v)).
Proof.
  intros [Hc Hrev]. pose proof (well_formed_after (cs0 ++ cs)) as W. rewrite <-run_app.
  assert (Hst : cr_state c = REVOKED).
  { destruct Hrev as [?|(i & Hi & Ha & Hs)]; [done|].
    by apply (owned_unique _ i c (well_formed_after cs0) Hi Hc Ha). }
  destruct (run_certificate cs _ c Hc) as (c' & Hc' & Hsame & Hstay). apply revoked_absorbs in Hstay; [|done].
  rewrite <-run_app in Hc'. destruct Hsame as (_ & _ & Hser & Hprint & _).
  split.
  - intros f serial now st v Hf Hv. apply verify_certificate in Hv as (f' & s' & x & i & Hargs & Hx & Hp & _ & _ & _ & Hne).
    unfold verify_arguments in Hargs. rewrite Hf in Hargs. cbn in Hargs. inv_ok. intros; simplify_eq.
    apply andb_true_iff in Hp as [Hp%bool_decide_eq_true _]. assert (x = c') as ->; [|done].
    eapply (unique_rows cr_cert_sha256); [apply W|done..|congruence].
  - intros s cert now st v Hs Hv. apply verify_certificate in Hv as (f' & s' & x & i & Hargs & Hx & Hp & _ & _ & _ & Hne).
    unfold verify_arguments in Hargs. rewrite Hs in Hargs. apply bind_Ok_inv in Hargs as (? & _ & Hargs).
    apply bind_Ok_inv in Hargs as (? & _ & Hargs). cbn in Hargs. injection Hargs as _ <-.
    apply andb_true_iff in Hp as [_ Hp%bool_decide_eq_true]. assert (x = c') as ->; [|done].
    eapply (unique_rows cr_serial_number); [apply W|done..|congruence].
Qed.

(** ** Rotation *)

(** At most one retired certificate per agent outlives the instant [now]. *)
Definition one_overlap (now : Z) (d : db) : Prop :=
  forall c1 c2, c1 ∈ certificates d -> c2 ∈ certificates d -> cr_agent_id c1 = cr_agent_id c2 ->
    overlapping (cr_agent_id c1) now c1 = true -> overlapping (cr_agent_id c2) now c2 = true -> c1 = c2.

Lemma overlapping_spec a now c : overlapping a now c = true <->
  cr_agent_id c = a /\ cr_state c = RETIRED /\ exists t, cr_overlap_until_us c = Some t /\ now < t.
Proof.
  unfold overlapping. rewrite !andb_true_iff, of_agent_true, in_state_true.
  destruct (cr_overlap_until_us c) as [t|]; [rewrite Z.ltb_lt|]; naive_solver.
Qed.

Lemma one_overlap_later now later d : now <= later -> one_overlap now d -> one_overlap later d.
Proof.
  intros Hle H c1 c2 H1 H2 Ha (_ & S1 & t1 & O1 & L1)%overlapping_spec (_ & S2 & t2 & O2 & L2)%overlapping_spec.
  apply H; [done..| |]; apply overlapping_spec; split_and!; try done; [exists t1|exists t2]; split; [done|lia|done|lia].
Qed.

Lemma one_overlap_step now f d d' : db_step now f d d' -> well_formed d -> one_overlap now d -> one_overlap now d'.
Proof.
  intros Hs W H. destruct Hs as [|row _ _ _|i row t _ _ _ Hst _ _ _|i c over Hi Ha Hact Hc Hst _|a p g t forget _ Hp _].
  - done.
  - exact H.
  - intros c1 c2 [H1|H1%list_elem_of_singleton]%elem_of_app [H2|H2%list_elem_of_singleton]%elem_of_app Ha O1 O2; [by apply H|..];
      apply overlapping_spec in O1 as (_ & S1 & _); apply overlapping_spec in O2 as (_ & S2 & _); congruence.
  - intros c1' c2' (c1 & -> & H1)%list_elem_of_fmap (c2 & -> & H2)%list_elem_of_fmap Hk O1 O2.
    destruct (rotated_row_step (cr_agent_id c) (cr_generation c) now over c1) as [(E1 & _) _].
    destruct (rotated_row_step (cr_agent_id c) (cr_generation c) now over c2) as [(E2 & _) _].
    assert (Hcase : forall x, overlapping (cr_agent_id x) now (rotated_row (cr_agent_id c) (cr_generation c) now over x) = true ->
      cr_agent_id x <> cr_agent_id c /\ overlapping (cr_agent_id x) now x = true \/
      cr_agent_id x = cr_agent_id c /\ cr_state x = ACTIVE).
    { intros x (_ & S & t & O & L)%overlapping_spec.
      destruct (rotated_row_cases (cr_agent_id c) (cr_generation c) now over x) as [[Hne E]|[He E]].
      - left. split; [done|]. rewrite E in S, O. apply overlapping_spec. split_and!; [done..|by exists t].
      - right. split; [done|]. destruct (cr_state x) eqn:Ex; try done.
        + destruct (_ =? _); rewrite E in S; cbn in S; congruence.
        + destruct (overlapping _ _ x) eqn:Eo; rewrite E in O; cbn in O.
          * injection O as <-. lia.
          * exfalso. rewrite (proj2 (overlapping_spec (cr_agent_id c) now x)) in Eo; [done|]. split_and!; [done..|by exists t].
        + rewrite E in S. congruence. }
    rewrite E1 in O1, Hk. rewrite E2 in O2, Hk.
    destruct (Hcase c1 O1) as [[N1 P1]|[N1 P1]], (Hcase c2 O2) as [[N2 P2]|[N2 P2]]; try congruence; f_equal.
    + by apply H.
    + by apply (wf_active d W).
  - unfold update_where. cbn [fst certificates].
    intros c1' c2' (c1 & -> & H1)%list_elem_of_fmap (c2 & -> & H2)%list_elem_of_fmap.
    assert (Hr : forall x, overlapping (cr_agent_id (revoked_row t forget x)) now (revoked_row t forget x) = false).
    { intros x. apply not_true_is_false. intros (_ & S & _)%overlapping_spec. by destruct forget. }
    destruct (p c1); [by rewrite Hr|]. destruct (p c2); [by rewrite Hr|]. by apply H.
Qed.

(** The clock of the calls never runs backwards. *)
Fixpoint clock_ordered (start : Z) (cs : list call) : Prop :=
  match cs with
  | [] => True
  | c :: cs => start <= micros (call_now c) /\ clock_ordered (micros (call_now c)) cs
  end.

Definition last_clock (start : Z) (cs : list call) : Z := fold_left (fun _ c => micros (call_now c)) cs start.

Lemma one_overlap_run cs : forall start d, clock_ordered start cs -> well_formed d -> one_overlap start d ->
  one_overlap (last_clock start cs) (run cs d).
Proof.
  induction cs as [|c cs IH]; intros start d Hc W H; [done|]. destruct Hc as [Hle Hc]. rewrite run_call_cons.
  apply (IH (micros (call_now c))); [done|eapply well_formed_step; [apply exec_db_step|done]|].
  eapply one_overlap_step; [apply exec_db_step|done|]. by eapply one_overlap_later.
Qed.

Lemma two_of_two (t : list cert_row) (p q : cert_row -> bool) : NoDup t ->
  (forall x y, x ∈ t -> y ∈ t -> p x = true -> p y = true -> x = y) ->
  (forall x y, x ∈ t -> y ∈ t -> q x = true -> q y = true -> x = y) ->
  (length (select_where (fun c => p c || q c) t) <= 2)%nat.
Proof.
  intros Hn Hp Hq.
  assert (Hle : forall r : cert_row -> bool, (forall x y, x ∈ t -> y ∈ t -> r x = true -> r y = true -> x = y) ->
    (length (select_where r t) <= 1)%nat).
  { intros r Hr. pose proof (NoDup_filter (fun c => r c = true) t Hn) as Hnd. fold (select_where r t) in Hnd.
    destruct (select_where r t) as [|x [|y l]] eqn:E; cbn; [lia|lia|].
    assert (Hx : x ∈ select_where r t) by (rewrite E; by left).
    assert (Hy : y ∈ select_where r t) by (rewrite E; right; by left).
    apply elem_select_where in Hx as [? ?]. apply elem_select_where in Hy as [? ?].
    apply NoDup_cons in Hnd as [Hnd _]. destruct Hnd. rewrite (Hr x y) by done. by left. }
  specialize (Hle p Hp) as Lp. specialize (Hle q Hq) as Lq.
  assert (Hsum : forall l : list cert_row, (length (select_where (fun c => p c || q c) l) <=
    length (select_where p l) + length (select_where q l))%nat).
  { unfold select_where. induction l as [|x l IH]; [done|]. rewrite !filter_cons.
    destruct (p x), (q x); cbn [orb]; repeat case_decide; try done; cbn [length]; lia. }
  specialize (Hsum t). lia.
Qed.

(** Rotation never opens a wide window: if the clock of the calls does not run
    backwards, then at any instant from the last call on at most two deployed
    certificates of an agent are accepted, the active one and the one it
    replaced. *)
Theorem at_most_two_accepted cs a start now :
  clock_ordered start cs -> last_clock start cs <= micros now ->
  (length (select_where (fun c => of_agent a c && accepted false (micros now) c) (certificates (after cs))) <= 2)%nat.
Proof.
  intros Hc Hl. pose proof (well_formed_after cs) as W.
  assert (H : one_overlap (micros now) (after cs)).
  { eapply one_overlap_later; [exact Hl|]. apply one_overlap_run; [done|apply well_formed_empty|].
    intros c1 c2 H1. by apply not_elem_of_nil in H1. }
  assert (Heq : forall c, of_agent a c && accepted false (micros now) c =
    (of_agent a c && in_state ACTIVE c) || overlapping a (micros now) c).
  { intros c. unfold accepted, overlapping, in_state. destruct (of_agent a c); [|done].
    destruct (cr_state c); done. }
  unfold select_where. rewrite (list_filter_iff _ (fun c => (of_agent a c && in_state ACTIVE c) || overlapping a (micros now) c = true))
    by (intros c; by rewrite Heq).
  apply (two_of_two _ (fun c => of_agent a c && in_state ACTIVE c) (overlapping a (micros now))).
  - eapply NoDup_fmap_1. apply (wf_serials _ W).
  - intros x y Hx Hy [Ax%of_agent_true Sx%in_state_true]%andb_true_iff [Ay%of_agent_true Sy%in_state_true]%andb_true_iff.
    apply (wf_active _ W); congruence.
  - intros x y Hx Hy Ox Oy. pose proof (proj1 (overlapping_spec _ _ _) Ox) as [Ex _].
    pose proof (proj1 (overlapping_spec _ _ _) Oy) as [Ey _]. apply H; try done; congruence.
Qed.

Lemma activate_committed a a' g overlap now d i d' : normalize_agent_id a = Ok a' ->
  activate a g overlap now d = (Ok i, d') -> activate_tx a' g (micros now) (micros (now + overlap)) d = Ok (i, d').
Proof.
  intros Hn. unfold activate. rewrite Hn. cbn [mbind res_bind]. unfold raise_if. destruct (g <? 1); [done|]. cbn [mbind res_bind].
  destruct (_ || _); [done|]. cbn [mbind res_bind]. unfold transaction. destruct (activate_tx _ _ _ _ _) as [[x d'']|]; [|done].
  intros E. by injection E as -> ->.
Qed.

(** Rotation keeps the service up: after a successful activation the generation
    is active, and every certificate of the agent that was active before - the
    one that is replaced included - is still accepted until the end of the
    overlap (or of its own window), and the replaced one not longer. *)
Theorem rotation_keeps_service cs a a' g overlap now i d' :
  normalize_agent_id a = Ok a' ->
  activate a g overlap now (after cs) = (Ok i, d') ->
  (exists c, c ∈ certificates d' /\ cr_agent_id c = a' /\ cr_generation c = g /\ cr_state c = ACTIVE) /\
  forall c, c ∈ certificates (after cs) -> cr_agent_id c = a' -> cr_state c = ACTIVE ->
    exists c', c' ∈ certificates d' /\ same_certificate c c' /\
      (forall t, t < Z.min (cr_not_after_us c) (micros (now + overlap)) -> accepted false t c' = true) /\
      (cr_generation c <> g -> forall t, Z.min (cr_not_after_us c) (micros (now + overlap)) <= t -> accepted false t c' = false).
Proof.
  pose proof (well_formed_after cs) as W. intros Hn Ha. apply (activate_committed a a') in Ha as E; [|done].
  apply activate_Ok in E as (h & n & Hh & Hha & Hhs & Hc & Hca & Hcg & [[Hact ->]|(Hst & He & ->)]).
  - split; [by exists n|]. intros c Hin Hag Hs. exists c. split_and!; [done|done| |].
    + intros t _. unfold accepted. by rewrite Hs.
    + intros Hne. exfalso. apply Hne. rewrite (wf_active _ W c n); congruence.
  - cbn [certificates touch]. split.
    + exists (rotated_row a' g (micros now) (micros (now + overlap)) n).
      split; [apply list_elem_of_fmap; by exists n|].
      destruct (rotated_row_cases a' g (micros now) (micros (now + overlap)) n) as [[? _]|[_ Hr]]; [done|].
      rewrite Hst in Hr. destruct (Z.eqb_spec (cr_generation n) g); [|done]. by rewrite Hr.
    + intros c Hin Hag Hs. exists (rotated_row a' g (micros now) (micros (now + overlap)) c).
      split; [apply list_elem_of_fmap; by exists c|]. split; [apply rotated_row_step|].
      destruct (rotated_row_cases a' g (micros now) (micros (now + overlap)) c) as [[? _]|[_ Hr]]; [done|].
      rewrite Hs in Hr. rewrite Hr. unfold accepted. cbn -[Z.min Z.ltb].
      split; [intros t Ht; by apply Z.ltb_lt|intros _ t Ht; by apply Z.ltb_ge].
Qed.

Lemma run_key cs : forall d c, (forall x, x ∈ cs -> forgets x = false) -> c ∈ certificates d ->
  exists c', c' ∈ certificates (run cs d) /\ cr_agent_id c' = cr_agent_id c /\
    cr_idempotency_key_sha256 c' = cr_idempotency_key_sha256 c.
Proof.
  induction cs as [|x cs IH]; intros d c Hf Hc; [by exists c|]. rewrite run_call_cons.
  pose proof (exec_db_step x d) as Hs. rewrite (Hf x) in Hs by (by left).
  destruct (step_keys _ _ _ c Hs Hc) as (c1 & Hc1 & Ea & Ek).
  destruct (IH (exec x d) c1) as (c' & ? & ? & ?); [intros; apply Hf; by right|done|]. exists c'. split_and!; congruence.
Qed.

(** A deployment is staged once: when a generation was staged under an
    idempotency key, then until a call aborts a staged generation or revokes all
    certificates, staging under the same key creates nothing and leaves the
    registry alone, whatever material is offered. *)
Theorem staging_is_idempotent cs0 cs a a' key k c g m now :
  normalize_agent_id a = Ok a' -> idempotency_hash (Some key) = Ok (Some k) ->
  c ∈ certificates (after cs0) -> cr_agent_id c = a' -> cr_idempotency_key_sha256 c = Some k ->
  (forall x, x ∈ cs -> forgets x = false) ->
  (stage_certificate a g m (Some key) now (run cs (after cs0))).2 = run cs (after cs0) /\
  forall i, (stage_certificate a g m (Some key) now (run cs (after cs0))).1 <> Ok (i, true).
Proof.
  intros Hn Hk Hc Ha Hck Hf. destruct (run_key cs _ c Hf Hc) as (c' & Hc' & Ea & Ek).
  set (d := run cs (after cs0)) in *. unfold stage_certificate. rewrite Hn, Hk. cbn [mbind res_bind].
  destruct (normalize_serial _); cbn [mbind res_bind]; [|done]. destruct (normalize_hex (ma_cert_sha256 m) _); cbn [mbind res_bind]; [|done].
  destruct (normalize_hex (ma_spki_sha256 m) _); cbn [mbind res_bind]; [|done]. destruct (required_text _ _); cbn [mbind res_bind]; [|done].
  destruct (validate_certificate _); cbn [mbind res_bind]; [|done]. unfold transaction.
  assert (Htx : forall m, stage_certificate_tx a' g m (Some k) now d = 
     (identity ← get_identity_row a' d;
      raise_if (negb (bool_decide (ir_state identity = ID_ACTIVE))) AgentIdentityConflictError;;
      i ← identity_from_row d identity; Ok (i, false, d))).
  { intros m'. unfold stage_certificate_tx. cbn [mbind option_bind].
    destruct (select_one_exists (has_key a' k) (certificates d) c' Hc') as [y ->]; [|done].
    unfold has_key. rewrite (proj2 (of_agent_true a' c')) by congruence. by rewrite bool_decide_true by congruence. }
  rewrite Htx. destruct (get_identity_row a' d); cbn [mbind res_bind]; [|done].
  destruct (raise_if _ _); cbn [mbind res_bind]; [|done]. destruct (identity_from_row d _); done.
Qed.
End Props.

(** ** Witnesses *)

Definition w_t0 : Z := 1000000000000000.
Definition w_at (seconds : Z) : Z := w_t0 + seconds * 1000000.

Definition w_material (serial : String.string) (digit : N) : material :=
  mkMaterial (u serial) (repeat digit 64) (repeat digit 64) (u "PEM") w_t0 (w_at 86400).

Definition w_create : call := GetOrCreate (u "t1") (u "h1") [u "guard-event"] (Some (u "agent-1")) [] w_t0.
Definition w_stage (g : Z) (serial : String.string) (digit : N) (key : String.string) (s : Z) : call :=
  Stage (u "agent-1") g (w_material serial digit) (Some (u key)) (w_at s).
Definition w_activate (g s : Z) : call := Activate (u "agent-1") g DEFAULT_ROTATION_OVERLAP (w_at s).

(** The first generation is deployed, the second staged. *)
Definition w_first : list call := [w_create; w_stage 1 "0A1" 97 "job:1" 1; w_activate 1 2; w_stage 2 "b2" 98 "job:2" 3].

Definition w_row (n : nat) (cs : list call) : cert_row :=
  default (mkCertRow [] 0 [] [] [] STAGED [] None 0 0 0 None None None None)
    (certificates (run cs empty_db) !! n).

Lemma w_row_elem n cs : (n <? length (certificates (run cs empty_db)))%nat = true ->
  w_row n cs ∈ certificates (run cs empty_db).
Proof.
  intros Hn%Nat.ltb_lt. unfold w_row. destruct (lookup_lt_is_Some_2 _ _ Hn) as [c Hc]. rewrite Hc. cbn.
  by eapply list_elem_of_lookup_2.
Qed.

Lemma certificates_follow_lifecycle_witness :
  let c := w_row 0 w_first in
  exists c', c' ∈ certificates (run [w_activate 2 4] (run w_first empty_db)) /\ same_certificate c c' /\
    rtc (fun s s' => moves s s' = true) (cr_state c) (cr_state c') /\ (cr_state c = REVOKED -> cr_state c' = REVOKED).
Proof. apply certificates_follow_lifecycle, w_row_elem. by vm_compute. Defined.

(** The first generation is revoked; the serial number is its own in another
    spelling. *)
Lemma revoked_never_verifies_witness :
  let d := run (w_first ++ [Revoke (u "agent-1") (Some 1) (w_at 4)]) empty_db in
  (forall now st v, verify (Some (repeat 97%N 64)) None now st (run [w_activate 2 5] d) <> Ok (Some v)) /\
  (forall now st v, verify None (Some (u "0x0a1")) now st (run [w_activate 2 5] d) <> Ok (Some v)).
Proof.
  destruct (revoked_never_verifies (w_first ++ [Revoke (u "agent-1") (Some 1) (w_at 4)]) [w_activate 2 5]
    (w_row 0 (w_first ++ [Revoke (u "agent-1") (Some 1) (w_at 4)]))) as [Hf Hs].
  - split; [apply w_row_elem; by vm_compute|]. left. by vm_compute.
  - split.
    + intros now st v. apply Hf. by vm_compute.
    + intros now st v. apply Hs. by vm_compute.
Defined.

(** Both generations are accepted a minute after the rotation. *)
Lemma at_most_two_accepted_witness :
  (length (select_where (fun c => of_agent (u "agent-1") c && accepted false (micros (w_at 64)) c)
    (certificates (run (w_first ++ [w_activate 2 4]) empty_db))) <= 2)%nat /\
  length (select_where (fun c => of_agent (u "agent-1") c && accepted false (micros (w_at 64)) c)
    (certificates (run (w_first ++ [w_activate 2 4]) empty_db))) = 2%nat.
Proof.
  split; [|by vm_compute]. apply (at_most_two_accepted (w_first ++ [w_activate 2 4]) _ 0); vm_compute; repeat split; discriminate.
Defined.

Lemma rotation_keeps_service_witness :
  let d' := run (w_first ++ [w_activate 2 4]) empty_db in
  (exists c, c ∈ certificates d' /\ cr_agent_id c = u "agent-1" /\ cr_generation c = 2 /\ cr_state c = ACTIVE) /\
  exists c', c' ∈ certificates d' /\ same_certificate (w_row 0 w_first) c' /\
    accepted false (w_at 603) c' = true /\ accepted false (w_at 604) c' = false.
Proof.
  destruct (rotation_keeps_service w_first (u "agent-1") (u "agent-1") 2 DEFAULT_ROTATION_OVERLAP (w_at 4)
    (default (mkIdentity [] [] [] [] ID_ACTIVE 0 0 0 None [])
       (match (activate (u "agent-1") 2 DEFAULT_ROTATION_OVERLAP (w_at 4) (run w_first empty_db)).1 with
        | Ok i => Some i | Raise _ => None end))
    (run (w_first ++ [w_activate 2 4]) empty_db)) as [Hnew Hold]; [by vm_compute|by vm_compute|].
  split; [exact Hnew|].
  destruct (Hold (w_row 0 w_first)) as (c' & Hc' & Hsame & Hlive & Hdead);
    [apply w_row_elem; by vm_compute|by vm_compute|by vm_compute|].
  exists c'. split; [done|]. split; [done|]. split; [apply Hlive; by vm_compute|apply Hdead; [by vm_compute|by vm_compute]].
Defined.

Lemma staging_is_idempotent_witness :
  let d := run [w_activate 2 4] (run w_first empty_db) in
  (stage_certificate (u "agent-1") 3 (w_material "c3" 99) (Some (u "job:2")) (w_at 5) d).2 = d /\
  forall i, (stage_certificate (u "agent-1") 3 (w_material "c3" 99) (Some (u "job:2")) (w_at 5) d).1 <> Ok (i, true).
Proof.
  apply (staging_is_idempotent w_first [w_activate 2 4] _ (u "agent-1") _ (sha256_hex (u "job:2")) (w_row 1 w_first));
    [by vm_compute|by vm_compute|apply w_row_elem; by vm_compute|by vm_compute|by vm_compute|].
  intros x ->%list_elem_of_singleton. done.
Defined.
