(* ===== verification/Posture.v ===== *)
(** * The posture graph ([analyzer/src/analyzer/predict/graph.py])

    Hosts with their exposure facts and the observed reachability between them.
    The stored records are read through the fields the code reads; [None] is a
    missing or null field.  [nodes] is an ordered dictionary, since the index of
    addresses depends on its order; [edges], a dictionary of sets, is the set of
    its pairs. *)

From stdpp Require Import base gmap sets strings numbers list.
From Stdlib Require Import ZArith Lia.
From S2P Require Import Prelude PyText PyFloat Compare.

#[local] Open Scope Z_scope.

(** ** Stored telemetry *)

Record vuln_rec := mkVulnRec { vr_severity : option str; vr_vuln_id : option str; vr_cvss_score : option float }.
Record asset_rec := mkAssetRec { as_kind : str; as_port : option Z; as_name : option str }.
Record report_rec := mkReportRec {
  rr_host_id : option str;
  rr_hostname : option str;
  rr_ip_addrs : list str;
  rr_assets : list asset_rec;
  rr_vulnerabilities : list vuln_rec;
}.
Record detection_rec := mkDetectionRec { dr_host_id : option str; dr_vulnerabilities : list vuln_rec }.
Record flow_rec := mkFlowRec { fr_src_ip : str; fr_dst_ip : str; fr_dst_port : option Z }.

(** ** The graph *)

(** [KcattaNode] *)
Record KcattaNode := mkNode {
  kn_label : str;
  kn_ips : gset str;
  kn_facts : gset str;
  kn_vuln_ids : gset str;
  kn_max_cvss : float;
  kn_is_entry : bool;
}.

#[global] Instance eta_node : Eta KcattaNode := fun n =>
  mkNode (kn_label n) (kn_ips n) (kn_facts n) (kn_vuln_ids n) (kn_max_cvss n) (kn_is_entry n).

(** [KcattaGraph] *)
Record KcattaGraph := mkGraph { kg_nodes : list (str * KcattaNode); kg_edges : gset (str * str) }.

#[global] Instance eta_graph : Eta KcattaGraph := fun g => mkGraph (kg_nodes g) (kg_edges g).

(** [neighbors]; sorted, as the engine visits them. *)
Definition neighbors (g : KcattaGraph) (host : str) : list str :=
  isort str_ltb (snd <$> elements (filter (fun e => e.1 = host) (kg_edges g))).

(** [entry_hosts] *)
Definition entry_hosts (g : KcattaGraph) : list str :=
  isort str_ltb (fst <$> base.filter (fun n => kn_is_entry n.2 = true) (kg_nodes g)).

(** ** Facts *)

(** [PORT_SERVICE] *)
Definition PORT_SERVICE : list (Z * str) :=
  [(21, u "ftp"); (22, u "ssh"); (23, u "telnet"); (53, u "dns"); (80, u "http"); (443, u "https"); (445, u "smb");
   (3306, u "mysql"); (3389, u "rdp")].

Definition WEB_SERVICES : gset str := {[ u "service.http"; u "service.https" ]}.

(** [service_fact_for_port] *)
Definition service_fact_for_port (port : option Z) : option str :=
  p ← port; name ← od_get p PORT_SERVICE; Some (u "service." ++ name).

Section Build.
Context {U : Unicode}.

Definition high_severity (v : vuln_rec) : bool :=
  let s := lower (default [] (vr_severity v)) in bool_decide (s = u "high") || bool_decide (s = u "critical").

Definition absorb_vuln (n : KcattaNode) (v : vuln_rec) : KcattaNode :=
  if high_severity v then
    n <| kn_facts := {[ u "vuln.exploitable" ]} ∪ kn_facts n |>
      <| kn_vuln_ids := match vr_vuln_id v with Some ((_ :: _) as i) => {[ i ]} ∪ kn_vuln_ids n | _ => kn_vuln_ids n end |>
      <| kn_max_cvss := fl_max (kn_max_cvss n) (default (fl_of_Z 0) (vr_cvss_score v)) |>
  else n.

(** [_absorb_vulns] *)
Definition absorb_vulns (n : KcattaNode) (vs : list vuln_rec) : KcattaNode := fold_left absorb_vuln vs n.

(** The services whose name occurs in the name of a service asset. *)
Definition named_services (name : str) : list str :=
  omap (fun s => if partition s name is Some _ then Some (u "service." ++ s) else None) (snd <$> PORT_SERVICE).

(** One asset of a report. *)
Definition absorb_asset (n : KcattaNode) (a : asset_rec) : KcattaNode :=
  if bool_decide (as_kind a = u "port") then
    let n := n <| kn_facts := {[ u "port.open" ]} ∪ kn_facts n |> in
    match service_fact_for_port (as_port a) with Some f => n <| kn_facts := {[ f ]} ∪ kn_facts n |> | None => n end
  else if bool_decide (as_kind a = u "service") then
    n <| kn_facts := list_to_set (named_services (lower (default [] (as_name a)))) ∪ kn_facts n |>
  else n.

(** [node_for]: the node of a host, created with its label. *)
Definition node_for (nodes : list (str * KcattaNode)) (host_id : str) (label : option str) : KcattaNode :=
  match od_get host_id nodes with
  | Some n => n
  | None => mkNode (match label with Some ((_ :: _) as l) => l | _ => host_id end) ∅ ∅ ∅ (fl_of_Z 0) false
  end.

(** One report. *)
Definition absorb_report (nodes : list (str * KcattaNode)) (r : report_rec) : list (str * KcattaNode) :=
  match rr_host_id r with
  | Some ((_ :: _) as host_id) =>
      let n := node_for nodes host_id (rr_hostname r) in
      let n := n <| kn_ips := list_to_set (rr_ip_addrs r) ∪ kn_ips n |> in
      let n := fold_left absorb_asset (rr_assets r) n in
      od_set host_id (absorb_vulns n (rr_vulnerabilities r)) nodes
  | _ => nodes
  end.

(** One detection result; hosts without a report are ignored. *)
Definition absorb_detection (nodes : list (str * KcattaNode)) (d : detection_rec) : list (str * KcattaNode) :=
  match (h ← dr_host_id d; n ← od_get h nodes; Some (h, n)) with
  | Some (h, n) => od_set h (absorb_vulns n (dr_vulnerabilities d)) nodes
  | None => nodes
  end.

(** [ip_index]: the last host with an address owns it. *)
Definition owner (nodes : list (str * KcattaNode)) (ip : str) : option str :=
  fst <$> last (base.filter (fun n => ip ∈ kn_ips n.2) nodes).

(** One observed flow. *)
Definition absorb_flow (g : KcattaGraph) (f : flow_rec) : KcattaGraph :=
  match (d ← owner (kg_nodes g) (fr_dst_ip f); n ← od_get d (kg_nodes g); Some (d, n)) with
  | None => g
  | Some (dst, n) =>
      let n := match service_fact_for_port (fr_dst_port f) with
               | Some s => n <| kn_facts := {[ s ]} ∪ kn_facts n |> | None => n end in
      match owner (kg_nodes g) (fr_src_ip f) with
      | None => g <| kg_nodes := od_set dst (n <| kn_is_entry := true |>) (kg_nodes g) |>
      | Some src =>
          let g := g <| kg_nodes := od_set dst n (kg_nodes g) |> in
          if bool_decide (src = dst) then g else g <| kg_edges := {[ (src, dst) ]} ∪ kg_edges g |>
      end
  end.

(** Hosts with a web service are entry points. *)
Definition mark_web (n : KcattaNode) : KcattaNode :=
  if bool_decide (kn_facts n ∩ WEB_SERVICES = ∅) then n else n <| kn_is_entry := true |>.

(** [build_kcatta_graph]; a trace batch is the list of its flows. *)
Definition build_kcatta_graph (asset_reports : list report_rec) (detections : list detection_rec)
    (trace_batches : list (list flow_rec)) : KcattaGraph :=
  let nodes := fold_left absorb_report asset_reports [] in
  let nodes := fold_left absorb_detection detections nodes in
  let g := fold_left absorb_flow (concat trace_batches) (mkGraph nodes ∅) in
  g <| kg_nodes := prod_map id mark_web <$> kg_nodes g |>.
End Build.
