(* ===== verification/Predict.v ===== *)
(** * Attack-path prediction ([analyzer/src/analyzer/predict/engine.py])

    The forward chain over a posture graph and the extraction of paths from it.
    The strings of a capability or a graph are those of validated records, which
    Pydantic has trimmed, so building an [AttackPath] trims nothing more.

    The dictionaries of sets [host_access] and [host_creds] are the sets of their
    pairs; where the code iterates over a set without sorting it, only a set or
    a dictionary with one writer per key is built, and the order does not show.
    A missing dictionary key raises, as in the code.  Both loops run on fuel;
    [PredictProps] shows that it is enough. *)

From stdpp Require Import base gmap sets strings numbers list.
From Stdlib Require Import ZArith Lia.
From S2P Require Import Prelude PyText PyHash PyFloat Compare Severity Posture.

#[local] Open Scope Z_scope.

(** [TechniqueCapability], the fields the engine reads. *)
Record TechniqueCapability := mkCapability {
  tc_module_id : str;
  tc_tactic : str;
  tc_techniques : list str;
  tc_preconditions : list str;
  tc_postconditions : list str;
}.

(** [_Application]; its index is its position. *)
Record application := mkApp {
  ap_host : str;
  ap_cap : TechniqueCapability;
  ap_met : list str;
  ap_gained : list str;
  ap_support : gset nat;
}.

(** ** Facts *)

(** [_GOAL_FACTS] *)
Definition GOAL_FACTS : list str :=
  [u "access.domain_admin"; u "impact.achieved"; u "access.admin"; u "data.exfiltrated"; u "c2.established";
   u "persistence.established"].

(** [_OBJECTIVE_FACTS] *)
Definition OBJECTIVE_FACTS : list str :=
  [u "data.collected"; u "data.exfiltrated"; u "c2.established"; u "persistence.established"; u "impact.achieved"].

(** [_GOAL_SEVERITY.get(fact, Severity.MEDIUM)] *)
Definition goal_severity (fact : str) : Severity :=
  if bool_decide (fact = u "access.domain_admin") || bool_decide (fact = u "impact.achieved") then CRITICAL
  else if bool_decide (fact = u "access.admin") || bool_decide (fact = u "data.exfiltrated") then HIGH
  else MEDIUM.

Section Engine.
Context {U : Unicode}.

(** The alternatives of a precondition element. *)
Definition alternatives (element : str) : list str :=
  base.filter (fun a => a <> []) (strip <$> split_on 124 element).

(** [_match_preconditions] *)
Fixpoint match_preconditions (preconditions : list str) (facts : str -> bool) : option (list str) :=
  match preconditions with
  | [] => Some []
  | element :: rest =>
      hit ← hd_error (base.filter (fun a => facts a = true) (alternatives element));
      matched ← match_preconditions rest facts; Some (hit :: matched)
  end.

(** ** The forward chain *)

(** The variables of [predict_paths]. *)
Record chain := mkChain {
  ch_reached : gset str;
  ch_access : gset (str * str);
  ch_creds : gset (str * str);
  ch_applications : list application;
  ch_fact_producer : gmap (str * str) nat;
  ch_reach_producer : gmap str nat;
  ch_applied : gset (str * str);
}.

#[global] Instance eta_chain : Eta chain := fun s =>
  mkChain (ch_reached s) (ch_access s) (ch_creds s) (ch_applications s) (ch_fact_producer s) (ch_reach_producer s)
    (ch_applied s).

Context (graph : KcattaGraph) (entry : gset str).

(** [available]; [graph.nodes[host]] raises on an unknown host. *)
Definition available (s : chain) (host : str) : res (str -> bool) :=
  match od_get host (kg_nodes graph) with
  | None => Raise KeyError
  | Some node => Ok (fun fact =>
      bool_decide (fact ∈ kn_facts node) || bool_decide (fact = u "net.reachable")
      || bool_decide ((host, fact) ∈ ch_access s) || bool_decide ((host, fact) ∈ ch_creds s))
  end.

(** [d.setdefault(k, v)] *)
Definition setdefault `{Countable K} {V} (k : K) (v : V) (d : gmap K V) : gmap K V :=
  match d !! k with Some _ => d | None => <[k := v]> d end.

(** One credential of [src] carried to [dst]. *)
Definition carry (src dst cred : str) (sm : chain * bool) : res (chain * bool) :=
  let '(s, moved) := sm in
  if bool_decide ((dst, cred) ∈ ch_creds s) then Ok (s, moved)
  else
    match ch_fact_producer s !! (src, cred) with
    | None => Raise KeyError
    | Some p => Ok (s <| ch_creds := {[ (dst, cred) ]} ∪ ch_creds s |>
                      <| ch_fact_producer := setdefault (dst, cred) p (ch_fact_producer s) |>, true)
    end.

Definition creds_of (s : chain) (host : str) : list str :=
  snd <$> elements (filter (fun c => c.1 = host) (ch_creds s)).

(** A loop over a list in the exception monad. *)
Fixpoint for_each {A S} (body : A -> S -> res S) (l : list A) (s : S) : res S :=
  match l with
  | [] => Ok s
  | x :: l => s ← body x s; for_each body l s
  end.

(** [propagate_creds] *)
Definition propagate_creds (s : chain) : res (chain * bool) :=
  for_each (fun src sm =>
      for_each (fun dst sm =>
          for_each (fun cred sm => carry src dst cred sm) (creds_of sm.1 src) sm)
        (neighbors graph src) sm)
    (isort str_ltb (elements (ch_reached s))) (s, false).

(** One postcondition of [_apply_effects]. *)
Definition apply_effect (host : str) (idx : nat) (s : chain) (post : str) : chain :=
  if startswith (u "cred.") post then
    s <| ch_fact_producer := setdefault (host, post) idx (ch_fact_producer s) |>
      <| ch_creds := {[ (host, post) ]} ∪ ch_creds s |>
  else if startswith (u "access.") post || bool_decide (post ∈ OBJECTIVE_FACTS) then
    s <| ch_fact_producer := setdefault (host, post) idx (ch_fact_producer s) |>
      <| ch_access := {[ (host, post) ]} ∪ ch_access s |>
  else if bool_decide (post = u "host.discovered") then
    fold_left (fun s n =>
        if bool_decide (n ∈ ch_reached s) then s
        else s <| ch_reached := {[ n ]} ∪ ch_reached s |>
               <| ch_reach_producer := setdefault n idx (ch_reach_producer s) |>) (neighbors graph host) s
  else s.

(** [_apply_effects] *)
Definition apply_effects (cap : TechniqueCapability) (host : str) (idx : nat) (s : chain) : chain :=
  fold_left (apply_effect host idx) (tc_postconditions cap) s.

(** The indices a new application depends on. *)
Definition support_of (host : str) (matched : list str) (s : chain) : gset nat :=
  list_to_set (omap (fun fact => ch_fact_producer s !! (host, fact)) matched)
  ∪ (if bool_decide (host ∈ entry) then ∅
     else match ch_reach_producer s !! host with Some p => {[ p ]} | None => ∅ end).

(** The body of the loop over the capabilities. *)
Definition try_capability (host : str) (facts : str -> bool) (cap : TechniqueCapability) (sc : chain * bool)
    : chain * bool :=
  let '(s, changed) := sc in
  if bool_decide ((tc_module_id cap, host) ∈ ch_applied s) then (s, changed)
  else if bool_decide (tc_preconditions cap = []) && negb (bool_decide (host ∈ entry)) then (s, changed)
  else
    match match_preconditions (tc_preconditions cap) facts with
    | None => (s, changed)
    | Some matched =>
        let app := mkApp host cap matched (tc_postconditions cap) (support_of host matched s) in
        let idx := length (ch_applications s) in
        let s := s <| ch_applications := ch_applications s ++ [app] |>
                   <| ch_applied := {[ (tc_module_id cap, host) ]} ∪ ch_applied s |> in
        (apply_effects cap host idx s, true)
    end.

Context (caps : list TechniqueCapability).

(** The body of the loop over the hosts. *)
Definition try_host (host : str) (sc : chain * bool) : res (chain * bool) :=
  facts ← available sc.1 host;
  Ok (fold_left (fun sc cap => try_capability host facts cap sc) caps sc).

(** The body of the outer loop: whether anything changed. *)
Definition pass (s : chain) : res (chain * bool) :=
  '(s, moved) ← propagate_creds s;
  for_each try_host (isort str_ltb (elements (ch_reached s))) (s, moved).

(** The outer loop. *)
Fixpoint saturate (fuel : nat) (s : chain) : res chain :=
  match fuel with
  | O => Ok s
  | S fuel => '(s, changed) ← pass s; if changed : bool then saturate fuel s else Ok s
  end.

(** The variables before the loop. *)
Definition start : chain := mkChain entry ∅ ∅ [] ∅ ∅ ∅.

(** Every host and every pair the chain can ever add. *)
Definition hosts : gset str :=
  entry ∪ list_to_set (fst <$> kg_nodes graph) ∪ set_map fst (kg_edges graph) ∪ set_map snd (kg_edges graph).
Definition saturate_fuel : nat :=
  S (length caps * size hosts + length (caps ≫= tc_postconditions) * size hosts).

(** ** Paths *)

(** The loop that collects what an application depends on. *)
Fixpoint closure_loop (apps : list application) (fuel : nat) (closure : gset nat) (stack : list nat) : res (gset nat) :=
  match fuel, stack with
  | _, [] | O, _ => Ok closure
  | S fuel, i :: stack =>
      if bool_decide (i ∈ closure) then closure_loop apps fuel closure stack
      else
        match apps !! i with
        | None => Raise IndexError
        | Some app => closure_loop apps fuel ({[ i ]} ∪ closure) (elements (ap_support app) ++ stack)
        end
  end.

Definition closure_fuel (apps : list application) : nat :=
  S (S (sum_list ((fun a => S (size (ap_support a))) <$> apps))).

(** [AttackPathStep] and [AttackPath] *)
Record AttackPathStep := mkStep {
  ps_host_id : str;
  ps_host_label : str;
  ps_module_id : str;
  ps_technique_id : str;
  ps_tactic : str;
  ps_preconditions_met : list str;
  ps_postconditions_gained : list str;
}.

Record AttackPath := mkPath {
  pa_path_id : str;
  pa_severity : Severity;
  pa_score : Z;
  pa_entry_host : str;
  pa_goal_host : str;
  pa_goal : str;
  pa_steps : list AttackPathStep;
  pa_related_asset_ids : list str;
  pa_related_vuln_ids : list str;
}.

(** [_score]; a stored CVSS score is at most 10 by its schema, so [round] is applied to
    a finite number. *)
Definition score (severity : Severity) (max_cvss : float) (n_steps : Z) : Z :=
  let cvss_bonus := fl_round (fl_mul (fl_max (fl_of_Z 0) (fl_sub max_cvss (fl_of_Z 7))) (fl_of_Z 2)) in
  let length_penalty := Z.min (Z.max 0 (n_steps - 2)) 8 in
  Z.max 0 (Z.min 100 (severity_score severity + cvss_bonus - length_penalty)).

Definition get_node (host : str) : res KcattaNode :=
  match od_get host (kg_nodes graph) with Some n => Ok n | None => Raise KeyError end.

(** [map] in the exception monad. *)
Fixpoint map_res {A B} (f : A -> res B) (l : list A) : res (list B) :=
  match l with
  | [] => Ok []
  | x :: l => y ← f x; ys ← map_res f l; Ok (y :: ys)
  end.

Definition step_of (app : application) : res AttackPathStep :=
  node ← get_node (ap_host app);
  Ok (mkStep (ap_host app) (kn_label node) (tc_module_id (ap_cap app))
        (default [] (hd_error (tc_techniques (ap_cap app)))) (tc_tactic (ap_cap app)) (ap_met app) (ap_gained app)).

(** The occurrences of an element after the first dropped. *)
Definition ordered_unique (l : list str) : list str := rev (remove_dups (rev l)).

(** [_build_path]; the steps are never empty. *)
Definition build_path (ordered : list application) (goal : application) (goal_fact : str) : res AttackPath :=
  steps ← map_res step_of ordered;
  let host_ids := ordered_unique (ap_host <$> ordered) in
  nodes ← map_res get_node host_ids;
  let severity := goal_severity goal_fact in
  let max_cvss := match nodes with
                  | [] => fl_of_Z 0
                  | n :: rest => fold_left (fun m n => fl_max m (kn_max_cvss n)) rest (kn_max_cvss n) end in
  match ordered with
  | [] => Raise IndexError
  | first :: _ =>
      let module_chain := join (u ",") (tc_module_id ∘ ap_cap <$> ordered) in
      let digest := take 10 (sha1_hex (ap_host first ++ u "->" ++ ap_host goal ++ u ":" ++ module_chain)) in
      Ok (mkPath (u "path-" ++ digest) severity (score severity max_cvss (Z.of_nat (length steps))) (ap_host first)
            (ap_host goal) goal_fact steps host_ids
            (isort str_ltb (elements (union_list (kn_vuln_ids <$> nodes)))))
  end.

(** The goal fact of an application, most valuable first. *)
Definition goal_fact_of (app : application) : option str :=
  hd_error (base.filter (fun g => g ∈ ap_gained app) (GOAL_FACTS ++ [u "access.foothold"])).

(** The applications worth a path, with their indices. *)
Definition goals (apps : list application) : list (nat * application) :=
  let indexed := imap (fun i a => (i, a)) apps in
  match base.filter (fun ia => Exists (fun g => g ∈ ap_gained ia.2) GOAL_FACTS) indexed with
  | [] => base.filter (fun ia => ap_host ia.2 ∉ entry /\ u "access.foothold" ∈ ap_gained ia.2) indexed
  | l => l
  end.

(** One goal of the loop in [_extract_paths]. *)
Definition path_to (apps : list application) (goal : nat * application) : res AttackPath :=
  closure ← closure_loop apps (closure_fuel apps) ∅ [goal.1];
  ordered ← map_res (fun i => match apps !! i with Some a => Ok a | None => Raise IndexError end)
              (isort Nat.ltb (elements closure));
  match goal_fact_of goal.2 with
  | None => Raise StopIteration
  | Some fact => build_path ordered goal.2 fact
  end.

(** ** One route per objective *)

(** [_rank], compared as a tuple. *)
Fixpoint modules_ltb (a b : list str) : bool :=
  match a, b with
  | _, [] => false
  | [], _ :: _ => true
  | x :: a, y :: b => str_ltb x y || bool_decide (x = y) && modules_ltb a b
  end.

Definition rank_ltb (p q : AttackPath) : bool :=
  (pa_score q <? pa_score p)
  || (pa_score p =? pa_score q)
     && ((length (pa_steps p) <? length (pa_steps q))%nat
         || (length (pa_steps p) =? length (pa_steps q))%nat
            && modules_ltb (ps_module_id <$> pa_steps p) (ps_module_id <$> pa_steps q)).

Definition objective (p : AttackPath) : str * str * str := (pa_entry_host p, pa_goal_host p, pa_goal p).

(** The body of the loop of [_converge]. *)
Definition keep_best (best : list ((str * str * str) * AttackPath)) (p : AttackPath) :=
  match od_get (objective p) best with
  | Some rep => if rank_ltb p rep then od_set (objective p) p best else best
  | None => od_set (objective p) p best
  end.

(** The key of the final sort. *)
Definition path_ltb (p q : AttackPath) : bool :=
  (pa_score q <? pa_score p)
  || (pa_score p =? pa_score q)
     && ((length (pa_steps p) <? length (pa_steps q))%nat
         || (length (pa_steps p) =? length (pa_steps q))%nat && str_ltb (pa_path_id p) (pa_path_id q)).

(** [_converge] *)
Definition converge (paths : list AttackPath) : list AttackPath :=
  isort path_ltb (snd <$> fold_left keep_best paths []).

(** [_extract_paths] *)
Definition extract_paths (apps : list application) : res (list AttackPath) :=
  paths ← for_each (fun goal paths => p ← path_to apps goal; Ok (od_set (pa_path_id p) p paths)) (goals apps) [];
  Ok (converge (snd <$> paths)).
End Engine.

(** The capabilities in the order of [predict_paths]. *)
Definition sorted_capabilities (capabilities : list TechniqueCapability) : list TechniqueCapability :=
  isort (fun a b => str_ltb (tc_module_id a) (tc_module_id b))
    (base.filter (fun c => tc_preconditions c <> [] \/ tc_postconditions c <> []) capabilities).

(** [predict_paths] *)
Definition predict_paths {U : Unicode} (graph : KcattaGraph) (capabilities : list TechniqueCapability)
    : res (list AttackPath) :=
  let caps := sorted_capabilities capabilities in
  let entry := list_to_set (entry_hosts graph) in
  s ← saturate graph entry caps (saturate_fuel graph entry caps) (start entry);
  extract_paths graph entry (ch_applications s).
