(* ===== verification/PredictSteps.v ===== *)
(** * The forward chain of attack-path prediction

    The invariant of the variables of [predict_paths] ([chain_ok]), its
    preservation by every loop, and the termination of the outer one. *)

From stdpp Require Import base gmap sets strings numbers list relations.
From Stdlib Require Import ZArith Lia.
From S2P Require Import Prelude PyText PyHash PyFloat Compare Severity Posture Predict.

#[local] Open Scope nat_scope.

(** ** Loops *)

Lemma for_each_total {A S} (P : S -> Prop) (body : A -> S -> res S) l s :
  P s -> (forall x s, x ∈ l -> P s -> exists s', body x s = Ok s' /\ P s') ->
  exists s', for_each body l s = Ok s' /\ P s'.
Proof.
  revert s. induction l as [|x l IH]; intros s Hs Hb; [by exists s|].
  destruct (Hb x s) as (s1 & E & H1); [by left|done|]. cbn. rewrite E. cbn. apply IH; [done|].
  intros y t Hy. apply Hb. by right.
Qed.

Lemma fold_left_inv {A S} (P : S -> Prop) (body : S -> A -> S) l s :
  P s -> (forall x s, x ∈ l -> P s -> P (body s x)) -> P (fold_left body l s).
Proof.
  revert s. induction l as [|x l IH]; intros s Hs Hb; [done|]. cbn. apply IH; [apply Hb; [by left|done]|].
  intros y t Hy. apply Hb. by right.
Qed.

Lemma map_res_total {A B} (f : A -> res B) l : (forall x, x ∈ l -> exists y, f x = Ok y) ->
  exists ys, map_res f l = Ok ys /\ Forall2 (fun x y => f x = Ok y) l ys.
Proof.
  induction l as [|x l IH]; intros Hf; [by exists []|].
  destruct (Hf x) as [y Hy]; [by left|]. destruct IH as (ys & E & H2); [intros; apply Hf; by right|].
  exists (y :: ys). cbn. rewrite Hy, E. cbn. split; [done|by constructor].
Qed.

Lemma elem_neighbors g h n : n ∈ neighbors g h <-> (h, n) ∈ kg_edges g.
Proof.
  unfold neighbors. rewrite isort_elem, list_elem_of_fmap. split.
  - intros ([a b] & -> & Hin). rewrite elem_of_elements, elem_of_filter in Hin. by destruct Hin as [<- ?].
  - intros Hin. exists (h, n). split; [done|]. by rewrite elem_of_elements, elem_of_filter.
Qed.

Lemma setdefault_Some `{Countable K} {V} (k k' : K) (v w : V) (d : gmap K V) :
  setdefault k v d !! k' = Some w -> d !! k' = Some w \/ k' = k /\ w = v.
Proof.
  unfold setdefault. destruct (d !! k) eqn:E; [by left|]. destruct (decide (k = k')) as [->|Hne].
  - rewrite lookup_insert_eq. intros [= ->]. by right.
  - rewrite lookup_insert_ne by done. by left.
Qed.

Lemma setdefault_keeps `{Countable K} {V} (k k' : K) (v w : V) (d : gmap K V) :
  d !! k' = Some w -> setdefault k v d !! k' = Some w.
Proof.
  unfold setdefault. intros Hk. destruct (d !! k) eqn:E; [done|]. rewrite lookup_insert_ne; [done|congruence].
Qed.

Lemma setdefault_present `{Countable K} {V} (k : K) (v : V) (d : gmap K V) : is_Some (setdefault k v d !! k).
Proof. unfold setdefault. destruct (d !! k) eqn:E; [by rewrite E|]. rewrite lookup_insert_eq. by eexists. Qed.

(** ** Graphs *)

(** The edges run between known hosts. *)
Definition edges_known (g : KcattaGraph) : Prop :=
  forall a b, (a, b) ∈ kg_edges g -> is_Some (od_get a (kg_nodes g)) /\ is_Some (od_get b (kg_nodes g)).

Definition edge (g : KcattaGraph) (a b : str) : Prop := (a, b) ∈ kg_edges g.

(** A fact gained on [a] counts on [b]: on the same host, or, for a credential,
    along reachability edges. *)
Definition counts_on (g : KcattaGraph) (fact a b : str) : Prop :=
  b = a \/ startswith (u "cred.") fact = true /\ rtc (edge g) a b.

Section Chain.
Context {U : Unicode} (graph : KcattaGraph) (entry : gset str) (caps : list TechniqueCapability).
Hypothesis known : edges_known graph.
Hypothesis entry_known : forall h, h ∈ entry -> is_Some (od_get h (kg_nodes graph)).

(** An application gained a fact that counts on a host. *)
Definition gained_for (apps : list application) (fact host : str) (i : nat) : Prop :=
  exists a, apps !! i = Some a /\ fact ∈ ap_gained a /\ counts_on graph fact (ap_host a) host.

(** An application discovered a host. *)
Definition discovered_by (apps : list application) (host : str) (i : nat) : Prop :=
  exists a, apps !! i = Some a /\ u "host.discovered" ∈ ap_gained a /\ edge graph (ap_host a) host.

(** The facts observed on a host. *)
Definition observed (host fact : str) : Prop :=
  fact = u "net.reachable" \/ exists node, od_get host (kg_nodes graph) = Some node /\ fact ∈ kn_facts node.

(** An application is justified by the posture and the applications it depends
    on, which precede it. *)
Definition justified (apps : list application) (i : nat) (a : application) : Prop :=
  ap_cap a ∈ caps /\ ap_gained a = tc_postconditions (ap_cap a) /\
  Forall2 (fun m e => m ∈ alternatives e) (ap_met a) (tc_preconditions (ap_cap a)) /\
  (tc_preconditions (ap_cap a) = [] -> ap_host a ∈ entry) /\
  (forall j, j ∈ ap_support a -> j < i) /\
  (ap_host a ∈ entry \/ exists j, j ∈ ap_support a /\ discovered_by apps (ap_host a) j) /\
  (forall f, f ∈ ap_met a -> observed (ap_host a) f \/ exists j, j ∈ ap_support a /\ gained_for apps f (ap_host a) j).

Record chain_ok (s : chain) : Prop := {
  co_reached : forall h, h ∈ ch_reached s -> h ∈ entry \/ is_Some (ch_reach_producer s !! h);
  co_known : forall h, h ∈ ch_reached s -> is_Some (od_get h (kg_nodes graph));
  co_access : forall h f, (h, f) ∈ ch_access s -> is_Some (ch_fact_producer s !! (h, f));
  co_creds : forall h f, (h, f) ∈ ch_creds s ->
    startswith (u "cred.") f = true /\ is_Some (ch_fact_producer s !! (h, f)) /\
    is_Some (od_get h (kg_nodes graph)) /\ f ∈ caps ≫= tc_postconditions;
  co_facts : forall h f i, ch_fact_producer s !! (h, f) = Some i -> gained_for (ch_applications s) f h i;
  co_reach : forall h i, ch_reach_producer s !! h = Some i -> discovered_by (ch_applications s) h i;
  co_apps : forall i a, ch_applications s !! i = Some a ->
    justified (ch_applications s) i a /\ ap_host a ∈ ch_reached s /\
    (tc_module_id (ap_cap a), ap_host a) ∈ ch_applied s;
  co_applied : forall m h, (m, h) ∈ ch_applied s -> m ∈ tc_module_id <$> caps /\ h ∈ ch_reached s;
}.

(** The variables only grow. *)
Record grows (s s' : chain) : Prop := {
  gr_reached : ch_reached s ⊆ ch_reached s';
  gr_access : ch_access s ⊆ ch_access s';
  gr_creds : ch_creds s ⊆ ch_creds s';
  gr_apps : prefix (ch_applications s) (ch_applications s');
  gr_facts : ch_fact_producer s ⊆ ch_fact_producer s';
  gr_reach : ch_reach_producer s ⊆ ch_reach_producer s';
  gr_applied : ch_applied s ⊆ ch_applied s';
}.

#[local] Instance grows_preorder : PreOrder grows.
Proof.
  split.
  - intros s. split; done.
  - intros s1 s2 s3 [] []. split; etransitivity; eassumption.
Qed.

Lemma gained_for_grows apps apps' f h i : prefix apps apps' -> gained_for apps f h i -> gained_for apps' f h i.
Proof. intros Hp (a & Ha & Hg). exists a. split; [by eapply prefix_lookup_Some|done]. Qed.

Lemma discovered_by_grows apps apps' h i : prefix apps apps' -> discovered_by apps h i -> discovered_by apps' h i.
Proof. intros Hp (a & Ha & Hg). exists a. split; [by eapply prefix_lookup_Some|done]. Qed.

Lemma justified_grows apps apps' i a : prefix apps apps' -> justified apps i a -> justified apps' i a.
Proof.
  intros Hp (H1 & H2 & H3 & H4 & H5 & H6 & H7). do 5 (split; [done|]). split.
  - destruct H6 as [?|(j & ? & ?)]; [by left|right]. exists j. split; [done|]. by eapply discovered_by_grows.
  - intros f Hf. destruct (H7 f Hf) as [?|(j & ? & ?)]; [by left|right]. exists j. split; [done|]. by eapply gained_for_grows.
Qed.

(** ** Effects *)

Lemma ok_add_access s h f i : chain_ok s -> gained_for (ch_applications s) f h i ->
  chain_ok (s <| ch_fact_producer := setdefault (h, f) i (ch_fact_producer s) |>
              <| ch_access := {[ (h, f) ]} ∪ ch_access s |>).
Proof.
  intros O Hg. split; cbn; try apply O.
  - intros h' f' [E%elem_of_singleton|Hin]%elem_of_union.
    + injection E as -> ->. apply setdefault_present.
    + destruct (co_access s O h' f' Hin) as [j Hj]. exists j. by apply setdefault_keeps.
  - intros h' f' Hin. destruct (co_creds s O h' f' Hin) as (? & [j Hj] & ? & ?). split_and!; try done.
    exists j. by apply setdefault_keeps.
  - intros h' f' j [Hj|[E ->]]%setdefault_Some; [by apply (co_facts s O)|]. by injection E as -> ->.
Qed.

Lemma ok_add_cred s h f i : chain_ok s -> gained_for (ch_applications s) f h i ->
  startswith (u "cred.") f = true -> is_Some (od_get h (kg_nodes graph)) -> f ∈ caps ≫= tc_postconditions ->
  chain_ok (s <| ch_fact_producer := setdefault (h, f) i (ch_fact_producer s) |>
              <| ch_creds := {[ (h, f) ]} ∪ ch_creds s |>).
Proof.
  intros O Hg Hc Hk Hp. split; cbn; try apply O.
  - intros h' f' Hin. destruct (co_access s O h' f' Hin) as [j Hj]. exists j. by apply setdefault_keeps.
  - intros h' f' [E%elem_of_singleton|Hin]%elem_of_union.
    + injection E as -> ->. split_and!; try done. apply setdefault_present.
    + destruct (co_creds s O h' f' Hin) as (? & [j Hj] & ? & ?). split_and!; try done. exists j. by apply setdefault_keeps.
  - intros h' f' j [Hj|[E ->]]%setdefault_Some; [by apply (co_facts s O)|]. by injection E as -> ->.
Qed.

Lemma ok_add_reached s n i : chain_ok s -> discovered_by (ch_applications s) n i -> is_Some (od_get n (kg_nodes graph)) ->
  chain_ok (s <| ch_reached := {[ n ]} ∪ ch_reached s |>
              <| ch_reach_producer := setdefault n i (ch_reach_producer s) |>).
Proof.
  intros O Hd Hk. split; cbn; try apply O.
  - intros h [->%elem_of_singleton|Hin]%elem_of_union; [right; apply setdefault_present|].
    destruct (co_reached s O h Hin) as [?|[j Hj]]; [by left|right]. exists j. by apply setdefault_keeps.
  - intros h [->%elem_of_singleton|Hin]%elem_of_union; [done|by apply (co_known s O)].
  - intros h j [Hj|[-> ->]]%setdefault_Some; [by apply (co_reach s O)|done].
  - intros j a Ha. destruct (co_apps s O j a Ha) as (? & ? & ?). split_and!; try done. set_solver.
  - intros m h Hin. destruct (co_applied s O m h Hin). set_solver.
Qed.

Lemma setdefault_grows `{Countable K} {V} (k : K) (v : V) (d : gmap K V) : d ⊆ setdefault k v d.
Proof. unfold setdefault. destruct (d !! k) eqn:E; [done|]. by apply insert_subseteq. Qed.

Ltac solve_grows := split; cbn; try done; try (by apply union_subseteq_r); try apply setdefault_grows.

(** The applications do not change, the rest grows. *)
Definition effect_on (s s' : chain) : Prop := grows s s' /\ ch_applications s' = ch_applications s /\ ch_applied s' = ch_applied s.

#[local] Instance effect_on_preorder : PreOrder effect_on.
Proof.
  split.
  - intros s. by split.
  - intros s1 s2 s3 (? & ? & ?) (? & ? & ?). split; [by etransitivity|]. split; congruence.
Qed.

Lemma effect_ok app idx s post : chain_ok s -> ch_applications s !! idx = Some app -> post ∈ ap_gained app ->
  ap_cap app ∈ caps -> ap_gained app = tc_postconditions (ap_cap app) -> is_Some (od_get (ap_host app) (kg_nodes graph)) ->
  chain_ok (apply_effect graph (ap_host app) idx s post) /\ effect_on s (apply_effect graph (ap_host app) idx s post).
Proof.
  intros O Happ Hpost Hcap Hgained Hk.
  assert (Hg : gained_for (ch_applications s) post (ap_host app) idx) by (exists app; split_and!; try done; by left).
  assert (Hposts : post ∈ caps ≫= tc_postconditions).
  { apply list_elem_of_bind. exists (ap_cap app). by rewrite <-Hgained. }
  unfold apply_effect. destruct (startswith (u "cred.") post) eqn:Ec.
  { split; [by apply ok_add_cred|]. split; [solve_grows|done]. }
  destruct (_ || _); [split; [by apply ok_add_access|]; split; [solve_grows|done]|].
  case_bool_decide as Hd; [|by split].
  apply (fold_left_inv (fun s' => chain_ok s' /\ effect_on s s')); [by split|].
  intros n s' Hn (O' & G' & E' & A'). case_bool_decide; [done|]. apply elem_neighbors in Hn. split.
  - apply ok_add_reached; [done| |by eapply known]. exists app. rewrite E'. subst post. done.
  - split; [|done]. etransitivity; [exact G'|]. solve_grows.
Qed.

Lemma effects_ok app idx s : chain_ok s -> ch_applications s !! idx = Some app ->
  ap_cap app ∈ caps -> ap_gained app = tc_postconditions (ap_cap app) -> is_Some (od_get (ap_host app) (kg_nodes graph)) ->
  let s' := apply_effects graph (ap_cap app) (ap_host app) idx s in chain_ok s' /\ effect_on s s'.
Proof.
  intros O Happ Hcap Hgained Hk. unfold apply_effects.
  apply (fold_left_inv (fun s' => chain_ok s' /\ effect_on s s')); [by split|].
  intros post s' Hpost (O' & E'). destruct (effect_ok app idx s' post O') as [O2 E2]; try done.
  - destruct E' as (_ & -> & _). done.
  - by rewrite Hgained.
  - split; [done|]. by transitivity s'.
Qed.

(** ** What an attacker can attain

    The reference semantics of the chain: what follows from the posture by the
    rules, with no order of application and no bookkeeping. *)
Inductive claim :=
| Reaches (host : str)
| Applies (cap : TechniqueCapability) (host : str)
| Has_access (host fact : str)
| Has_cred (host cred : str)
| Has (host fact : str).

Definition is_access (fact : str) : bool :=
  negb (startswith (u "cred.") fact) && (startswith (u "access.") fact || bool_decide (fact ∈ OBJECTIVE_FACTS)).

Inductive attainable : claim -> Prop :=
| at_entry h : h ∈ entry -> attainable (Reaches h)
| at_discover cap h n : attainable (Applies cap h) -> u "host.discovered" ∈ tc_postconditions cap -> edge graph h n ->
    attainable (Reaches n)
| at_apply cap h matched : attainable (Reaches h) -> cap ∈ caps -> (tc_preconditions cap = [] -> h ∈ entry) ->
    Forall2 (fun m e => m ∈ alternatives e) matched (tc_preconditions cap) ->
    (forall m, m ∈ matched -> attainable (Has h m)) -> attainable (Applies cap h)
| at_access cap h f : attainable (Applies cap h) -> f ∈ tc_postconditions cap -> is_access f = true ->
    attainable (Has_access h f)
| at_loot cap h c : attainable (Applies cap h) -> c ∈ tc_postconditions cap -> startswith (u "cred.") c = true ->
    attainable (Has_cred h c)
| at_carry h n c : attainable (Reaches h) -> attainable (Has_cred h c) -> edge graph h n -> attainable (Has_cred n c)
| at_observed h f : observed h f -> attainable (Has h f)
| at_has_access h f : attainable (Has_access h f) -> attainable (Has h f)
| at_has_cred h c : attainable (Has_cred h c) -> attainable (Has h c).

(** What an application did to the variables. *)
Definition effective (s : chain) (host post : str) : Prop :=
  (startswith (u "cred.") post = true -> (host, post) ∈ ch_creds s) /\
  (is_access post = true -> (host, post) ∈ ch_access s) /\
  (post = u "host.discovered" -> forall n, edge graph host n -> n ∈ ch_reached s).

(** The variables hold only what is attainable, and the applications have had
    their effects. *)
Record chain_exact (s : chain) : Prop := {
  ex_reached : forall h, h ∈ ch_reached s -> attainable (Reaches h);
  ex_access : forall h f, (h, f) ∈ ch_access s -> attainable (Has_access h f);
  ex_creds : forall h c, (h, c) ∈ ch_creds s -> attainable (Has_cred h c);
  ex_apps : forall a, a ∈ ch_applications s -> attainable (Applies (ap_cap a) (ap_host a)) /\
    forall post, post ∈ tc_postconditions (ap_cap a) -> effective s (ap_host a) post;
  ex_applied : forall m h, (m, h) ∈ ch_applied s ->
    exists a, a ∈ ch_applications s /\ tc_module_id (ap_cap a) = m /\ ap_host a = h;
}.

Lemma effective_grows s s' host post : grows s s' -> effective s host post -> effective s' host post.
Proof.
  intros G (H1 & H2 & H3). split_and!; [intros; apply (gr_creds _ _ G)|intros; apply (gr_access _ _ G)|intros; apply (gr_reached _ _ G)]; auto.
Qed.

Lemma discovery_reaches (idx : nat) (l : list str) (s : chain) : 
  let s' := fold_left (fun s n => if bool_decide (n ∈ ch_reached s) then s
      else s <| ch_reached := {[ n ]} ∪ ch_reached s |> <| ch_reach_producer := setdefault n idx (ch_reach_producer s) |>) l s in
  (forall n, n ∈ ch_reached s' <-> n ∈ ch_reached s \/ n ∈ l) /\ ch_access s' = ch_access s /\ ch_creds s' = ch_creds s.
Proof.
  revert s. induction l as [|n l IH]; intros s; cbn [fold_left]; [set_solver|].
  case_bool_decide as Hn; [destruct (IH s) as (R & A & C)|
    destruct (IH (s <| ch_reached := {[ n ]} ∪ ch_reached s |> <| ch_reach_producer := setdefault n idx (ch_reach_producer s) |>)) as (R & A & C)];
    cbn in R, A, C |- *; (split; [intros m; rewrite R; set_solver|done]).
Qed.

Lemma discovered_plain : startswith (u "cred.") (u "host.discovered") = false /\ is_access (u "host.discovered") = false.
Proof. by vm_compute. Qed.

(** One effect, exactly. *)
Lemma effect_exact cap host idx s post : attainable (Applies cap host) -> post ∈ tc_postconditions cap ->
  let s' := apply_effect graph host idx s post in
  effective s' host post /\
  (forall h, h ∈ ch_reached s' -> h ∈ ch_reached s \/ attainable (Reaches h)) /\
  (forall h f, (h, f) ∈ ch_access s' -> (h, f) ∈ ch_access s \/ attainable (Has_access h f)) /\
  (forall h c, (h, c) ∈ ch_creds s' -> (h, c) ∈ ch_creds s \/ attainable (Has_cred h c)).
Proof.
  intros Ha Hp. destruct discovered_plain as [D1 D2]. cbv zeta. unfold apply_effect, effective.
  destruct (startswith (u "cred.") post) eqn:Ec.
  { split; [|split; [auto|split; [auto|]]].
    - split; [intros _; cbn; set_solver|]. unfold is_access. rewrite Ec. split; [done|]. intros ->. congruence.
    - cbn. intros h c [[= -> ->]%elem_of_singleton|?]%elem_of_union; [right; by eapply at_loot|by left]. }
  assert (Hacc : is_access post = startswith (u "access.") post || bool_decide (post ∈ OBJECTIVE_FACTS))
    by (unfold is_access; by rewrite Ec).
  rewrite <-Hacc. destruct (is_access post) eqn:Ea.
  { split; [|split; [auto|split; [|auto]]].
    - split; [done|]. split; [intros _; cbn; set_solver|]. intros ->. congruence.
    - cbn. intros h f [[= -> ->]%elem_of_singleton|?]%elem_of_union; [right; by eapply at_access|by left]. }
  destruct (bool_decide_reflect (post = u "host.discovered")) as [Hd|Hd]; [|split; [split; [done|split; [done|intros E; by destruct Hd]]|split; [auto|split; auto]]].
  destruct (discovery_reaches idx (neighbors graph host) s) as (R & A & C). rewrite A, C.
  split; [|split; [|auto]].
  - split; [done|]. split; [done|]. intros _ n Hn. apply R. right. by apply elem_neighbors.
  - intros h [?|Hn%elem_neighbors]%R; [by left|right]. eapply at_discover; [exact Ha|by rewrite <-Hd|exact Hn].
Qed.

(** ** Progress *)

(** What only a finite number of changes can increase. *)
Definition measure (s : chain) : nat := size (ch_applied s) + size (ch_creds s).

(** The loops either leave the variables and the flag alone, or set the flag and
    make progress. *)
Definition advances (x y : chain * bool) : Prop :=
  grows x.1 y.1 /\ (y = x \/ y.2 = true /\ measure x.1 < measure y.1).

Lemma grows_measure s s' : grows s s' -> measure s <= measure s'.
Proof.
  intros G. unfold measure. pose proof (subseteq_size _ _ (gr_applied _ _ G)).
  pose proof (subseteq_size _ _ (gr_creds _ _ G)). lia.
Qed.

#[local] Instance advances_preorder : PreOrder advances.
Proof.
  split.
  - intros x. split; [done|by left].
  - intros x y z [G1 H1] [G2 H2]. split; [by etransitivity|].
    pose proof (grows_measure _ _ G1). pose proof (grows_measure _ _ G2).
    destruct H1 as [->|[F1 M1]]; [done|]. right. destruct H2 as [->|[F2 M2]]; [done|]. split; [done|lia].
Qed.

Definition chain_inv (s : chain) : Prop := chain_ok s /\ chain_exact s.

(** The invariant of the loops that start in [x]. *)
Definition loop_ok (x y : chain * bool) : Prop := chain_inv y.1 /\ advances x y.

Lemma loop_ok_trans x y z : loop_ok x y -> (chain_inv y.1 -> loop_ok y z) -> loop_ok x z.
Proof. intros [O A] H. destruct (H O) as [O' A']. split; [done|]. by transitivity y. Qed.

Lemma carry_ok src dst cred y : chain_inv y.1 -> src ∈ ch_reached y.1 -> edge graph src dst -> (src, cred) ∈ ch_creds y.1 ->
  exists z, carry src dst cred y = Ok z /\ loop_ok y z.
Proof.
  destruct y as [s m]. cbn [fst]. intros [O X] Hreach He Hc. unfold carry. case_bool_decide as Hd.
  { exists (s, m). split; [done|]. split; [done|]. by split; [|left]. }
  destruct (co_creds s O src cred Hc) as (Hpre & [i Hi] & _ & Hp). rewrite Hi. eexists. split; [done|]. split; cbn [fst]; [split|].
  - destruct (co_facts s O src cred i Hi) as (a & Ha & Hg & Hcount).
    apply ok_add_cred; try done; [|by eapply known]. exists a. split; [done|]. split; [done|]. right. split; [done|].
    destruct Hcount as [->|[_ Hr]]; [by apply rtc_once|]. by eapply rtc_r.
  - split; cbn; try apply X.
    + intros h c [[= -> ->]%elem_of_singleton|Hin]%elem_of_union; [|by apply (ex_creds s X)].
      eapply at_carry; [by apply (ex_reached s X)|by apply (ex_creds s X)|done].
    + intros a Ha. destruct (ex_apps s X a Ha) as [Hat Heff]. split; [done|]. intros post Hpost.
      eapply effective_grows; [|by apply Heff]. solve_grows.
  - split; [solve_grows|]. right. split; [done|]. unfold measure. cbn. rewrite size_union by set_solver.
    rewrite size_singleton. lia.
Qed.

(** The credentials of a host. *)
Lemma carry_body src dst z c y : src ∈ ch_reached z.1 -> edge graph src dst -> c ∈ creds_of z.1 src -> loop_ok z y ->
  exists w, carry src dst c y = Ok w /\ loop_ok y w.
Proof.
  intros Hr He Hc Hy. unfold creds_of in Hc. apply list_elem_of_fmap in Hc as ([h k] & -> & Hin).
  rewrite elem_of_elements, elem_of_filter in Hin. destruct Hin as [Hh Hin]. cbn in Hh. subst h.
  apply carry_ok; [apply Hy|by apply Hy|done|by apply Hy].
Qed.

Definition carry_creds (src dst : str) (z : chain * bool) : res (chain * bool) :=
  for_each (fun cred sm => carry src dst cred sm) (creds_of z.1 src) z.

Lemma carry_creds_ok src dst z : chain_inv z.1 -> src ∈ ch_reached z.1 -> edge graph src dst ->
  exists w, carry_creds src dst z = Ok w /\ loop_ok z w.
Proof.
  intros O Hr He. apply for_each_total; [by split|]. intros c y Hc Hy.
  destruct (carry_body src dst z c y) as (w & Hw & Hyw); [done..|]. exists w. split; [done|]. by eapply loop_ok_trans.
Qed.

Definition carry_all (src : str) (z : chain * bool) : res (chain * bool) :=
  for_each (fun dst sm => carry_creds src dst sm) (neighbors graph src) z.

Lemma carry_all_body src z dst y : src ∈ ch_reached z.1 -> dst ∈ neighbors graph src -> loop_ok z y ->
  exists w, carry_creds src dst y = Ok w /\ loop_ok y w.
Proof. intros Hr Hd%elem_neighbors Hy. apply carry_creds_ok; [apply Hy|by apply Hy|done]. Qed.

Lemma carry_all_ok src z : chain_inv z.1 -> src ∈ ch_reached z.1 -> exists w, carry_all src z = Ok w /\ loop_ok z w.
Proof.
  intros O Hr. apply for_each_total; [by split|]. intros dst y Hd Hy.
  destruct (carry_all_body src z dst y) as (w & Hw & Hyw); [done..|]. exists w. split; [done|]. by eapply loop_ok_trans.
Qed.

Lemma propagate_eq s :
  propagate_creds graph s = for_each carry_all (isort str_ltb (elements (ch_reached s))) (s, false).
Proof. done. Qed.

Lemma propagate_body s src y : src ∈ isort str_ltb (elements (ch_reached s)) -> loop_ok (s, false) y ->
  exists w, carry_all src y = Ok w /\ loop_ok y w.
Proof. rewrite isort_elem, elem_of_elements. intros Hs Hy. apply carry_all_ok; [apply Hy|by apply Hy]. Qed.

Lemma propagate_ok s : chain_inv s -> exists y, propagate_creds graph s = Ok y /\ loop_ok (s, false) y.
Proof.
  intros O. rewrite propagate_eq. apply for_each_total; [by split|]. intros src y Hs Hy.
  destruct (propagate_body s src y Hs Hy) as (w & Hw & Hyw). exists w. split; [done|]. by eapply loop_ok_trans.
Qed.

(** What a snapshot of the available facts knows. *)
Definition facts_ok (facts : str -> bool) (host : str) (s : chain) : Prop :=
  forall f, facts f = true -> observed host f \/ (host, f) ∈ ch_access s \/ (host, f) ∈ ch_creds s.

Lemma match_preconditions_spec preconditions facts matched : match_preconditions preconditions facts = Some matched ->
  Forall2 (fun m e => m ∈ alternatives e) matched preconditions /\ Forall (fun m => facts m = true) matched.
Proof.
  revert matched. induction preconditions as [|e rest IH]; intros matched; cbn.
  - intros [= <-]. by split.
  - destruct (hd_error _) as [m|] eqn:E; [|done]. cbn. destruct (match_preconditions rest facts) as [ms|]; [|done]. cbn.
    intros [= <-]. destruct (IH ms eq_refl) as [H1 H2].
    assert (Hin : m ∈ base.filter (fun a => facts a = true) (alternatives e)).
    { destruct (base.filter _ _); [done|]. injection E as ->. by left. }
    apply list_elem_of_filter in Hin as [? ?]. split; by constructor.
Qed.

Lemma elem_support_of host matched s i : i ∈ support_of entry host matched s <->
  (exists f, f ∈ matched /\ ch_fact_producer s !! (host, f) = Some i) \/
  (host ∉ entry /\ ch_reach_producer s !! host = Some i).
Proof.
  unfold support_of. rewrite elem_of_union, elem_of_list_to_set, list_elem_of_omap. f_equiv.
  case_bool_decide; [set_solver|]. destruct (ch_reach_producer s !! host); [|set_solver].
  rewrite elem_of_singleton. split; [intros ->; by split|intros [_ [= ->]]; done].
Qed.

(** A new application. *)
Lemma ok_add_application s host cap matched : chain_ok s -> host ∈ ch_reached s -> cap ∈ caps ->
  (tc_preconditions cap = [] -> host ∈ entry) ->
  Forall2 (fun m e => m ∈ alternatives e) matched (tc_preconditions cap) ->
  (forall f, f ∈ matched -> observed host f \/ (host, f) ∈ ch_access s \/ (host, f) ∈ ch_creds s) ->
  let app := mkApp host cap matched (tc_postconditions cap) (support_of entry host matched s) in
  let s' := s <| ch_applications := ch_applications s ++ [app] |>
              <| ch_applied := {[ (tc_module_id cap, host) ]} ∪ ch_applied s |> in
  chain_ok s' /\ grows s s'.
Proof.
  intros O Hreach Hcap Hboot Hmatch Hmet app s'.
  assert (Hpre : prefix (ch_applications s) (ch_applications s')) by (by eexists).
  split; [|split; cbn; try done; by apply union_subseteq_r]. split; try (cbn; apply O).
  - intros h f i Hi. eapply gained_for_grows; [exact Hpre|]. by apply (co_facts s O).
  - intros h i Hi. eapply discovered_by_grows; [exact Hpre|]. by apply (co_reach s O).
  - intros i a Ha. cbn in Ha. apply lookup_app_Some in Ha as [Ha|[Hlen Ha]].
    + destruct (co_apps s O i a Ha) as (Hj & ? & ?). split; [by eapply justified_grows|]. cbn. set_solver.
    + apply list_lookup_singleton_Some in Ha as [Hi <-]. split; [|cbn; set_solver].
      split; [done|]. split; [done|]. split; [done|]. split; [done|]. cbn [ap_support ap_host ap_met app].
      assert (Hfact : forall f j, ch_fact_producer s !! (host, f) = Some j -> gained_for (ch_applications s) f host j)
        by apply (co_facts s O).
      split; [|split].
      * intros j [(f & _ & Hj)|[_ Hj]]%elem_support_of.
        -- destruct (Hfact f j Hj) as (b & Hb & _). apply lookup_lt_Some in Hb. lia.
        -- destruct (co_reach s O host j Hj) as (b & Hb & _). apply lookup_lt_Some in Hb. lia.
      * destruct (decide (host ∈ entry)); [by left|right].
        destruct (co_reached s O host Hreach) as [?|[j Hj]]; [done|]. exists j. split; [apply elem_support_of; by right|].
        eapply discovered_by_grows; [exact Hpre|]. by apply (co_reach s O).
      * intros f Hf. destruct (Hmet f Hf) as [?|Hin]; [by left|right].
        assert (Hj : is_Some (ch_fact_producer s !! (host, f))).
        { destruct Hin as [Hin|Hin]; [by apply (co_access s O)|]. by apply (co_creds s O) in Hin as (_ & ? & _). }
        destruct Hj as [j Hj]. exists j. split; [apply elem_support_of; left; by exists f|].
        eapply gained_for_grows; [exact Hpre|]. by apply Hfact.
  - cbn. intros m h [E%elem_of_singleton|Hin]%elem_of_union; [|by apply (co_applied s O)]. injection E as -> ->.
    split; [|done]. apply list_elem_of_fmap. by exists cap.
Qed.

(** The effects of a new application, exactly. *)
Lemma effects_exact app idx l : forall s, chain_ok s -> ch_applications s !! idx = Some app ->
  ap_cap app ∈ caps -> ap_gained app = tc_postconditions (ap_cap app) -> is_Some (od_get (ap_host app) (kg_nodes graph)) ->
  attainable (Applies (ap_cap app) (ap_host app)) -> (forall post, post ∈ l -> post ∈ tc_postconditions (ap_cap app)) ->
  let s' := fold_left (apply_effect graph (ap_host app) idx) l s in
  effect_on s s' /\ (forall post, post ∈ l -> effective s' (ap_host app) post) /\
  (forall h, h ∈ ch_reached s' -> h ∈ ch_reached s \/ attainable (Reaches h)) /\
  (forall h f, (h, f) ∈ ch_access s' -> (h, f) ∈ ch_access s \/ attainable (Has_access h f)) /\
  (forall h c, (h, c) ∈ ch_creds s' -> (h, c) ∈ ch_creds s \/ attainable (Has_cred h c)).
Proof.
  induction l as [|post l IH]; intros s O Happ Hcap Hgained Hk Hat Hl; cbn [fold_left].
  { split; [done|]. split; [intros p Hp; by apply not_elem_of_nil in Hp|]. auto. }
  assert (Hpost : post ∈ tc_postconditions (ap_cap app)) by (apply Hl; by left).
  destruct (effect_ok app idx s post O Happ) as [O1 E1]; [by rewrite Hgained|done..|].
  destruct (effect_exact (ap_cap app) (ap_host app) idx s post Hat Hpost) as (F1 & R1 & A1 & C1).
  set (s1 := apply_effect graph (ap_host app) idx s post) in *.
  destruct (IH s1 O1) as (E2 & F2 & R2 & A2 & C2); try done.
  { destruct E1 as (_ & -> & _). done. }
  { intros p Hp. apply Hl. by right. }
  split; [by transitivity s1|]. split.
  { intros p [->|Hp]%elem_of_cons; [|by apply F2]. eapply effective_grows; [apply E2|done]. }
  split; [|split]; [intros h [?|?]%R2|intros h f [?|?]%A2|intros h c [?|?]%C2]; auto.
Qed.

Lemma try_capability_ok host facts cap y : chain_inv y.1 -> host ∈ ch_reached y.1 -> cap ∈ caps -> facts_ok facts host y.1 ->
  loop_ok y (try_capability graph entry host facts cap y).
Proof.
  destruct y as [s c]. cbn [fst]. intros [O X] Hr Hcap Hf. unfold try_capability.
  assert (Hsame : loop_ok (s, c) (s, c)) by (by split).
  case_bool_decide as Ha; [done|]. destruct (_ && _) eqn:Eb; [done|].
  destruct (match_preconditions _ _) as [matched|] eqn:Em; [|done].
  apply match_preconditions_spec in Em as [Hm Hfacts]. rewrite Forall_forall in Hfacts.
  assert (Hboot : tc_preconditions cap = [] -> host ∈ entry).
  { intros E. rewrite bool_decide_true in Eb by done. by apply negb_false_iff, bool_decide_eq_true in Eb. }
  destruct (ok_add_application s host cap matched O Hr Hcap Hboot Hm) as [O' G'].
  { intros f Hin. apply Hf, Hfacts, Hin. }
  set (app := mkApp host cap matched (tc_postconditions cap) (support_of entry host matched s)) in *.
  set (s1 := s <| ch_applications := _ |> <| ch_applied := _ |>) in *.
  assert (Hidx : ch_applications s1 !! length (ch_applications s) = Some app)
    by (cbn; by rewrite lookup_app_r, Nat.sub_diag by lia).
  assert (Hknown : is_Some (od_get host (kg_nodes graph))) by (by apply (co_known s O)).
  destruct (effects_ok app (length (ch_applications s)) s1 O' Hidx) as [O2 (G2 & Eapps & Ha2)]; try done.
  assert (Hat : attainable (Applies cap host)).
  { eapply at_apply; [by apply (ex_reached s X)|done|done|exact Hm|]. intros m Hin.
    destruct (Hf m (Hfacts m Hin)) as [?|[?|?]];
      [by apply at_observed|apply at_has_access; by apply (ex_access s X)|apply at_has_cred; by apply (ex_creds s X)]. }
  destruct (effects_exact app (length (ch_applications s)) (tc_postconditions cap) s1 O' Hidx) as (_ & F & R & A & C); try done.
  unfold apply_effects in *. cbn [ap_cap ap_host app] in *.
  set (s2 := fold_left (apply_effect graph host (length (ch_applications s))) (tc_postconditions cap) s1) in *.
  split; [split; [exact O2|]|].
  - split.
    + intros h [?|?]%R; [by apply (ex_reached s X)|done].
    + intros h f [?|?]%A; [by apply (ex_access s X)|done].
    + intros h f [?|?]%C; [by apply (ex_creds s X)|done].
    + cbn [fst]. rewrite Eapps. intros a [Hin| ->%list_elem_of_singleton]%elem_of_app; [|by split].
      destruct (ex_apps s X a Hin) as [Hata Heff]. split; [done|]. intros post Hpost.
      eapply effective_grows; [transitivity s1; [exact G'|exact G2]|by apply Heff].
    + cbn [fst]. rewrite Eapps, Ha2. intros m h [[= -> ->]%elem_of_singleton|Hin]%elem_of_union.
      * exists app. split; [apply elem_of_app; right; by apply list_elem_of_singleton|done].
      * destruct (ex_applied s X m h Hin) as (a & ? & ? & ?). exists a. split; [apply elem_of_app; by left|done].
  - split; [by transitivity s1|]. right. split; [done|].
    apply (Nat.lt_le_trans _ (measure s1)); [|by apply grows_measure]. unfold measure. cbn.
    rewrite size_union by set_solver. rewrite size_singleton. lia.
Qed.

Lemma facts_ok_grows facts host s s' : grows s s' -> facts_ok facts host s -> facts_ok facts host s'.
Proof.
  intros G Hf f E. destruct (Hf f E) as [?|[?|?]]; [by left|right; left|right; right]; by apply G.
Qed.

Lemma available_facts s host facts : available graph s host = Ok facts -> facts_ok facts host s.
Proof.
  unfold available. destruct (od_get host (kg_nodes graph)) as [node|] eqn:E; [|done]. intros [= <-] f.
  rewrite !orb_true_iff, !bool_decide_eq_true. unfold observed. naive_solver.
Qed.

Lemma try_host_ok host y : chain_inv y.1 -> host ∈ ch_reached y.1 ->
  exists z, try_host graph entry caps host y = Ok z /\ loop_ok y z.
Proof.
  intros O Hr. unfold try_host. destruct (available graph y.1 host) as [facts|] eqn:E.
  - eexists. split; [reflexivity|]. apply available_facts in E.
    apply (fold_left_inv (loop_ok y)); [by split|]. intros cap z Hcap Hz. eapply loop_ok_trans; [exact Hz|]. intros Oz.
    destruct Hz as [_ [Gz _]]. apply try_capability_ok; [done|by apply Gz|done|]. by eapply facts_ok_grows.
  - exfalso. unfold available in E. destruct (co_known y.1 (proj1 O) host Hr) as [n Hn]. by rewrite Hn in E.
Qed.

Lemma pass_ok s : chain_inv s -> exists y, pass graph entry caps s = Ok y /\ loop_ok (s, false) y.
Proof.
  intros O. unfold pass. destruct (propagate_ok s O) as ([s1 moved] & E & H1). rewrite E. cbn [mbind res_bind].
  destruct (for_each_total (loop_ok (s1, moved)) (try_host graph entry caps) (isort str_ltb (elements (ch_reached s1))) (s1, moved))
    as (y & Hy & H2); [by split; [apply H1|]| |].
  - intros host z Hh Hz. rewrite isort_elem, elem_of_elements in Hh.
    destruct (try_host_ok host z) as (w & Hw & Hzw); [apply Hz|by apply Hz|]. exists w. split; [done|]. by eapply loop_ok_trans.
  - exists y. split; [done|]. by eapply loop_ok_trans.
Qed.

(** ** Termination *)

Lemma size_le_length `{Countable A} (X : gset A) (l : list A) : (forall x, x ∈ X -> x ∈ l) -> size X <= length l.
Proof.
  intros Hl. change (size X) with (length (elements X)). apply submseteq_length, NoDup_submseteq; [apply NoDup_elements|].
  intros x Hx. by apply Hl, elem_of_elements.
Qed.

Lemma known_hosts h : is_Some (od_get h (kg_nodes graph)) -> h ∈ elements (hosts graph entry).
Proof.
  intros [n Hn]. apply elem_of_elements. unfold hosts. rewrite !elem_of_union, elem_of_list_to_set. left; left; right.
  apply list_elem_of_fmap. exists (h, n). split; [done|]. by apply od_get_Some_elem.
Qed.

Lemma measure_bound s : chain_ok s -> measure s < saturate_fuel graph entry caps.
Proof.
  intros O. unfold measure, saturate_fuel. apply Nat.lt_succ_r, Nat.add_le_mono.
  - etransitivity; [apply (size_le_length _ (list_prod (tc_module_id <$> caps) (elements (hosts graph entry))))|].
    + intros [m h] Hin. apply list_elem_of_In, in_prod; apply list_elem_of_In; destruct (co_applied s O m h Hin) as [? Hr]; [done|].
      by apply known_hosts, (co_known s O).
    + rewrite length_prod, length_fmap. done.
  - etransitivity; [apply (size_le_length _ (list_prod (elements (hosts graph entry)) (caps ≫= tc_postconditions)))|].
    + intros [h f] Hin. destruct (co_creds s O h f Hin) as (_ & _ & Hk & Hp).
      apply list_elem_of_In, in_prod; apply list_elem_of_In; [by apply known_hosts|done].
    + rewrite length_prod. change (length (elements (hosts graph entry))) with (size (hosts graph entry)). lia.
Qed.

(** The outer loop ends in a state that a pass leaves alone. *)
Lemma saturate_ok fuel : forall s, chain_inv s -> saturate_fuel graph entry caps <= fuel + measure s ->
  exists s', saturate graph entry caps fuel s = Ok s' /\ chain_inv s' /\ grows s s' /\
    pass graph entry caps s' = Ok (s', false).
Proof.
  induction fuel as [|fuel IH]; intros s O Hfuel.
  { pose proof (measure_bound s (proj1 O)). lia. }
  destruct (pass_ok s O) as ([s1 changed] & E & O1 & G1 & H1). cbn [saturate]. rewrite E. cbn [mbind res_bind].
  cbn [fst snd] in *. destruct H1 as [H1|[-> M1]].
  - injection H1 as -> ->. exists s. split_and!; done.
  - destruct (IH s1 O1) as (s' & E' & O' & G' & P'); [lia|]. exists s'. split_and!; try done. by etransitivity.
Qed.

Lemma start_ok : chain_inv (start entry).
Proof. split; split; cbn; try set_solver. intros h Hh. by apply at_entry. Qed.

(** The variables when the chain is saturated. *)
Lemma saturated : exists s, saturate graph entry caps (saturate_fuel graph entry caps) (start entry) = Ok s /\
  chain_inv s /\ entry ⊆ ch_reached s /\ pass graph entry caps s = Ok (s, false).
Proof.
  destruct (saturate_ok (saturate_fuel graph entry caps) (start entry) start_ok) as (s & E & O & G & P); [lia|].
  exists s. split_and!; try done. apply (gr_reached _ _ G).
Qed.

(** ** The saturated chain *)

Lemma advances_still x y : x.2 = false -> y.2 = false -> advances x y -> y = x.
Proof. intros Hx Hy [_ [?|[? _]]]; [done|congruence]. Qed.

(** A loop that changed nothing changed nothing on the way. *)
Lemma for_each_still {A} (body : A -> chain * bool -> res (chain * bool)) l x : x.2 = false -> chain_inv x.1 ->
  (forall e y, e ∈ l -> loop_ok x y -> exists z, body e y = Ok z /\ loop_ok y z) ->
  for_each body l x = Ok x -> forall e, e ∈ l -> body e x = Ok x.
Proof.
  intros Hx O. induction l as [|e l IH]; intros Hb Hl e' He; [by apply not_elem_of_nil in He|].
  destruct (Hb e x) as (z & Hz & Hxz); [by left|by split|]. cbn in Hl. rewrite Hz in Hl. cbn in Hl.
  destruct (for_each_total (loop_ok z) body l z) as (w & Hw & Hzw); [by split; [apply Hxz|]| |].
  { intros e1 y He1 Hy. destruct (Hb e1 y) as (v & Hv & Hyv); [by right|by eapply loop_ok_trans|].
    exists v. split; [done|]. by eapply loop_ok_trans. }
  assert (w = x) as -> by congruence.
  assert (z = x) as ->.
  { destruct Hzw as [_ [_ [->|[E _]]]]; [done|congruence]. }
  apply elem_of_cons in He as [->|He]; [done|]. apply IH; [|done|done]. intros e1 y He1. apply Hb. by right.
Qed.

Lemma fold_still host facts l x : x.2 = false -> chain_inv x.1 -> host ∈ ch_reached x.1 -> facts_ok facts host x.1 ->
  (forall cap, cap ∈ l -> cap ∈ caps) ->
  fold_left (fun sc cap => try_capability graph entry host facts cap sc) l x = x ->
  forall cap, cap ∈ l -> try_capability graph entry host facts cap x = x.
Proof.
  intros Hx O Hr Hf. induction l as [|cap l IH]; intros Hc Hl cap' Hcap'; [by apply not_elem_of_nil in Hcap'|].
  cbn in Hl. pose proof (try_capability_ok host facts cap x O Hr (Hc cap ltac:(by left)) Hf) as Hxz.
  set (z := try_capability graph entry host facts cap x) in *.
  assert (Hzw : loop_ok z x).
  { rewrite <-Hl. apply (fold_left_inv (loop_ok z)); [by split; [apply Hxz|]|]. intros c y Hcin Hy.
    eapply loop_ok_trans; [exact Hy|]. intros Oy.
    assert (G : grows x.1 y.1) by (transitivity z.1; [apply Hxz|apply Hy]).
    apply try_capability_ok; [done|by apply G|apply Hc; by right|by eapply facts_ok_grows]. }
  assert (z = x) as Hzx.
  { destruct Hzw as [_ [_ [E|[E _]]]]; [by symmetry|congruence]. }
  apply elem_of_cons in Hcap' as [->|Hcap']; [exact Hzx|]. apply IH; [by intros; apply Hc; right| |done].
  by rewrite Hzx in Hl.
Qed.

Section Still.
Context (s : chain).
Hypothesis inv : chain_inv s.
Hypothesis still : pass graph entry caps s = Ok (s, false).
Hypothesis entry_reached : entry ⊆ ch_reached s.

Lemma still_parts : propagate_creds graph s = Ok (s, false) /\
  for_each (try_host graph entry caps) (isort str_ltb (elements (ch_reached s))) (s, false) = Ok (s, false).
Proof.
  pose proof still as E. unfold pass in E. destruct (propagate_ok s inv) as ([s1 m] & E1 & H1). rewrite E1 in *.
  cbn [mbind res_bind] in E.
  assert (H2 : loop_ok (s1, m) (s, false)).
  { destruct (for_each_total (loop_ok (s1, m)) (try_host graph entry caps) (isort str_ltb (elements (ch_reached s1))) (s1, m))
      as (y & Hy & H2); [by split; [apply H1|]| |].
    - intros host z Hh Hz. rewrite isort_elem, elem_of_elements in Hh.
      destruct (try_host_ok host z) as (w & Hw & Hzw); [apply Hz|by apply Hz|]. exists w. split; [done|]. by eapply loop_ok_trans.
    - rewrite Hy in E. injection E as ->. done. }
  assert (E2 : (s1, m) = (s, false)) by (destruct H2 as [_ [_ [->|[? _]]]]; done).
  injection E2 as -> ->. done.
Qed.

Lemma still_carried src dst c : src ∈ ch_reached s -> edge graph src dst -> (src, c) ∈ ch_creds s -> (dst, c) ∈ ch_creds s.
Proof.
  intros Hr He Hc. destruct still_parts as [E _]. rewrite propagate_eq in E.
  assert (E1 : carry_all src (s, false) = Ok (s, false)).
  { eapply (for_each_still carry_all _ (s, false) eq_refl inv); [|exact E|by rewrite isort_elem, elem_of_elements].
    intros src' y. apply propagate_body. }
  assert (E2 : carry_creds src dst (s, false) = Ok (s, false)).
  { eapply (for_each_still (carry_creds src) (neighbors graph src) (s, false) eq_refl inv); [|exact E1|by apply elem_neighbors].
    intros dst' y. by apply carry_all_body. }
  assert (E3 : carry src dst c (s, false) = Ok (s, false)).
  { eapply (for_each_still (carry src dst) (creds_of s src) (s, false) eq_refl inv); [|exact E2|].
    - intros c' y Hc' Hy. by eapply (carry_body src dst (s, false)).
    - unfold creds_of. apply list_elem_of_fmap. exists (src, c). split; [done|]. by rewrite elem_of_elements, elem_of_filter. }
  unfold carry in E3. case_bool_decide; [done|]. destruct (_ !! _); [|done]. injection E3 as _ E3. done.
Qed.

Lemma match_preconditions_complete preconditions facts matched :
  Forall2 (fun m e => m ∈ alternatives e) matched preconditions -> (forall m, m ∈ matched -> facts m = true) ->
  is_Some (match_preconditions preconditions facts).
Proof.
  induction 1 as [|m e ms es Hm _ IH]; intros Hf; [by eexists|]. cbn.
  assert (Hin : m ∈ base.filter (fun a => facts a = true) (alternatives e))
    by (apply list_elem_of_filter; split; [apply Hf; by left|done]).
  destruct (base.filter _ _) as [|x l]; [by apply not_elem_of_nil in Hin|]. cbn.
  destruct IH as [y ->]; [intros; apply Hf; by right|]. by eexists.
Qed.

Lemma still_applied host cap matched : host ∈ ch_reached s -> cap ∈ caps -> (tc_preconditions cap = [] -> host ∈ entry) ->
  Forall2 (fun m e => m ∈ alternatives e) matched (tc_preconditions cap) ->
  (forall m, m ∈ matched -> observed host m \/ (host, m) ∈ ch_access s \/ (host, m) ∈ ch_creds s) ->
  (tc_module_id cap, host) ∈ ch_applied s.
Proof.
  intros Hr Hcap Hboot Hm Hhas. destruct still_parts as [_ E].
  assert (E1 : try_host graph entry caps host (s, false) = Ok (s, false)).
  { eapply (for_each_still (try_host graph entry caps) _ (s, false) eq_refl inv); [|exact E|by rewrite isort_elem, elem_of_elements].
    intros h y. rewrite isort_elem, elem_of_elements. intros Hh Hy. apply try_host_ok; [apply Hy|by apply Hy]. }
  unfold try_host in E1. apply bind_Ok_inv in E1 as (facts & Ef & E1). cbn [fst] in Ef.
  pose proof (available_facts s host facts Ef) as Hfacts. injection E1 as E1.
  pose proof (fold_still host facts caps (s, false) eq_refl inv Hr Hfacts (fun _ H => H) E1 cap Hcap) as E2.
  unfold try_capability in E2. case_bool_decide as Ha; [done|]. exfalso.
  destruct (_ && _) eqn:Eb.
  { apply andb_true_iff in Eb as [Eb%bool_decide_eq_true Ne%negb_true_iff%bool_decide_eq_false]. by apply Ne, Hboot. }
  destruct (match_preconditions_complete (tc_preconditions cap) facts matched Hm) as [ms Ems].
  { intros m Hin. unfold available in Ef. destruct (od_get host (kg_nodes graph)) as [node|] eqn:En; [|done]. injection Ef as <-.
    rewrite !orb_true_iff, !bool_decide_eq_true. destruct (Hhas m Hin) as [[?|(n & Hn & ?)]|[?|?]]; [auto| |auto..].
    assert (n = node) as -> by congruence. auto. }
  rewrite Ems in E2. by injection E2.
Qed.

(** The saturated chain is exactly what is attainable, if no two capabilities
    share a module id. *)
Lemma still_exact : NoDup (tc_module_id <$> caps) -> forall c, attainable c ->
  match c with
  | Reaches h => h ∈ ch_reached s
  | Applies cap h => exists a, a ∈ ch_applications s /\ ap_cap a = cap /\ ap_host a = h
  | Has_access h f => (h, f) ∈ ch_access s
  | Has_cred h f => (h, f) ∈ ch_creds s
  | Has h f => observed h f \/ (h, f) ∈ ch_access s \/ (h, f) ∈ ch_creds s
  end.
Proof.
  intros Hnd. destruct inv as [O X].
  assert (Heff : forall a post, a ∈ ch_applications s -> post ∈ tc_postconditions (ap_cap a) -> effective s (ap_host a) post)
    by (intros a post Ha; by apply (ex_apps s X a Ha)).
  assert (Hentry : entry ⊆ ch_reached s) by apply entry_reached.
  induction 1 as [h Hh|cap h n _ (a & Ha & <- & <-) Hp He|cap h matched _ IHr Hcap Hboot Hm _ IHm
    |cap h f _ (a & Ha & <- & <-) Hp Hacc|cap h f _ (a & Ha & <- & <-) Hp Hcr|h n f _ IHr _ IHc He|h f Hob|h f _ IH|h f _ IH].
  - by apply Hentry.
  - by apply (Heff a _ Ha Hp).
  - pose proof (still_applied h cap matched IHr Hcap Hboot Hm IHm) as Happ.
    destruct (ex_applied s X _ _ Happ) as (a & Ha & Hmod & Hhost). exists a. split; [done|]. split; [|done].
    apply list_elem_of_lookup in Ha as [i Hi]. destruct (co_apps s O i a Hi) as ((Hac & _) & _).
    apply list_elem_of_lookup in Hac as [k Hk]. apply list_elem_of_lookup in Hcap as [k' Hk'].
    assert (k = k') as ->; [|congruence].
    eapply (NoDup_lookup (tc_module_id <$> caps) _ _ (tc_module_id cap)); [done|rewrite list_lookup_fmap, Hk|rewrite list_lookup_fmap, Hk'];
      cbn; congruence.
  - by apply (Heff a _ Ha Hp).
  - by apply (Heff a _ Ha Hp).
  - by eapply still_carried.
  - by left.
  - auto.
  - auto.
Qed.
End Still.
End Chain.
