(* ===== verification/PredictProps.v ===== *)
(** * What attack-path prediction promises

    The forward chain computes exactly what is attainable; prediction always
    returns; every path it returns is grounded in the posture. *)

From stdpp Require Import base gmap sets strings numbers list sorting relations.
From Stdlib Require Import ZArith Lia.
From S2P Require Import Prelude PyText PyHash PyFloat Compare Severity Posture Predict PredictSteps.

#[local] Open Scope nat_scope.

Section Build.
Context {U : Unicode}.

(** ** The graph *)

Lemma od_get_known {V} (k : str) (v : V) d : (k, v) ∈ d -> is_Some (od_get k d).
Proof.
  intros Hin. destruct (od_get k d) as [w|] eqn:E; [by exists w|]. apply od_get_None in E. destruct E.
  apply list_elem_of_fmap. by exists (k, v).
Qed.

Lemma od_set_known {V} (k k' : str) (v : V) d : is_Some (od_get k d) -> is_Some (od_get k (od_set k' v d)).
Proof. intros Hk. rewrite od_get_set. case_decide; [by eexists|done]. Qed.

Lemma owner_known nodes ip h : owner nodes ip = Some h -> is_Some (od_get h nodes).
Proof.
  unfold owner. destruct (last _) as [[k n]|] eqn:E; [|done]. cbn. intros [= <-]. apply last_Some_elem_of in E.
  apply list_elem_of_filter in E as [_ E]. by eapply od_get_known.
Qed.

Lemma absorb_flow_known g f : edges_known g -> edges_known (absorb_flow g f).
Proof.
  intros K. unfold absorb_flow. destruct (owner _ (fr_dst_ip f)) as [dst|]; [|done]. cbn [mbind option_bind].
  destruct (od_get dst (kg_nodes g)) as [n|] eqn:Ed; [|done]. cbn [mbind option_bind].
  destruct (owner _ (fr_src_ip f)) as [src|] eqn:Es.
  - apply owner_known in Es. case_bool_decide; intros a b; cbn.
    + intros Hab. destruct (K a b Hab). by split; apply od_set_known.
    + intros [[= -> ->]%elem_of_singleton|Hab]%elem_of_union.
      * split; apply od_set_known; [done|by exists n].
      * destruct (K a b Hab). by split; apply od_set_known.
  - intros a b Hab. cbn in *. destruct (K a b Hab). by split; apply od_set_known.
Qed.

Lemma map_known {V} (f : V -> V) k (d : list (str * V)) : is_Some (od_get k d) -> is_Some (od_get k (prod_map id f <$> d)).
Proof.
  intros [v Hv]. apply od_get_Some_elem in Hv. apply (od_get_known k (f v)). apply list_elem_of_fmap. by exists (k, v).
Qed.

Lemma build_known reports detections batches : edges_known (build_kcatta_graph reports detections batches).
Proof.
  unfold build_kcatta_graph.
  assert (K : edges_known (fold_left absorb_flow (concat batches)
    (mkGraph (fold_left absorb_detection detections (fold_left absorb_report reports [])) ∅))).
  { apply (fold_left_inv edges_known); [intros a b; cbn; set_solver|]. intros f g _. apply absorb_flow_known. }
  intros a b Hab. destruct (K a b Hab). by split; apply map_known.
Qed.

Lemma entry_hosts_known g h : h ∈ (list_to_set (entry_hosts g) : gset str) -> is_Some (od_get h (kg_nodes g)).
Proof.
  rewrite elem_of_list_to_set. unfold entry_hosts. rewrite isort_elem, list_elem_of_fmap.
  intros ([k n] & -> & [_ Hin]%list_elem_of_filter). by eapply od_get_known.
Qed.
End Build.

(** What the variables of the chain claim. *)
Definition chain_claims (graph : KcattaGraph) (s : chain) (c : claim) : Prop :=
  match c with
  | Reaches h => h ∈ ch_reached s
  | Applies cap h => exists a, a ∈ ch_applications s /\ ap_cap a = cap /\ ap_host a = h
  | Has_access h f => (h, f) ∈ ch_access s
  | Has_cred h f => (h, f) ∈ ch_creds s
  | Has h f => observed graph h f \/ (h, f) ∈ ch_access s \/ (h, f) ∈ ch_creds s
  end.

(** The end of the chain, with its invariant. *)
Lemma chain_exact_of {U : Unicode} reports detections batches capabilities :
  NoDup (tc_module_id <$> capabilities) ->
  let graph := build_kcatta_graph reports detections batches in
  let entry := list_to_set (entry_hosts graph) in
  let caps := sorted_capabilities capabilities in
  exists s, saturate graph entry caps (saturate_fuel graph entry caps) (start entry) = Ok s /\
    chain_inv graph entry caps s /\ forall c, chain_claims graph s c <-> attainable graph entry caps c.
Proof.
  intros Hnd graph entry caps. pose proof (build_known reports detections batches) as Hk. fold graph in Hk.
  destruct (saturated graph entry caps Hk (entry_hosts_known graph)) as (s & E & Hinv & He & Hstill).
  exists s. split; [done|]. split; [done|]. intros c. split.
  - destruct Hinv as [O X]. destruct c as [h|cap h|h f|h f|h f]; cbn.
    + apply (ex_reached _ _ _ _ X).
    + intros (a & Ha & <- & <-). by apply (ex_apps _ _ _ _ X).
    + apply (ex_access _ _ _ _ X).
    + apply (ex_creds _ _ _ _ X).
    + intros [?|[?|?]]; [by apply at_observed|apply at_has_access; by apply (ex_access _ _ _ _ X)|
        apply at_has_cred; by apply (ex_creds _ _ _ _ X)].
  - assert (Hcaps : NoDup (tc_module_id <$> caps)).
    { unfold caps, sorted_capabilities. rewrite isort_perm. eapply sublist_NoDup; [exact Hnd|].
      assert (Hs : forall l1 l2 : list TechniqueCapability, sublist l1 l2 -> sublist (tc_module_id <$> l1) (tc_module_id <$> l2)).
      { induction 1; csimpl; [apply sublist_nil|by apply sublist_skip|by apply sublist_cons]. }
      apply Hs, sublist_filter. }
    intros Hc. pose proof (still_exact graph entry caps Hk (entry_hosts_known graph) s Hinv Hstill He Hcaps c Hc) as Hx.
    by destruct c.
Qed.

(** C16. The forward chain computes exactly what an attacker can attain: it ends,
    raises nothing, and its hosts, applications, accesses and credentials are
    those that follow from the posture by the rules ([attainable]), no more and
    no less, if no two capabilities share a module id. *)
Theorem forward_chain_exact {U : Unicode} reports detections batches capabilities :
  NoDup (tc_module_id <$> capabilities) ->
  let graph := build_kcatta_graph reports detections batches in
  let entry := list_to_set (entry_hosts graph) in
  let caps := sorted_capabilities capabilities in
  exists s, saturate graph entry caps (saturate_fuel graph entry caps) (start entry) = Ok s /\
    forall c, chain_claims graph s c <-> attainable graph entry caps c.
Proof.
  intros Hnd graph entry caps. destruct (chain_exact_of reports detections batches capabilities Hnd) as (s & E & _ & H).
  by exists s.
Qed.

Section Paths.
Context {U : Unicode} (graph : KcattaGraph) (entry : gset str) (caps : list TechniqueCapability).
Context (apps : list application).
Hypothesis apps_justified : forall i a, apps !! i = Some a -> justified graph entry caps apps i a.
Hypothesis apps_known : forall i a, apps !! i = Some a -> is_Some (od_get (ap_host a) (kg_nodes graph)).

(** ** Dependencies *)

Definition weight (closure : gset nat) (l : list nat) : nat :=
  sum_list ((fun i => match apps !! i with Some a => S (size (ap_support a)) | None => 0 end)
    <$> base.filter (fun i => i ∉ closure) l).

Lemma filter_in_ext {A} (P Q : A -> Prop) `{!forall x, Decision (P x), !forall x, Decision (Q x)} (l : list A) :
  (forall x, x ∈ l -> P x <-> Q x) -> base.filter P l = base.filter Q l.
Proof.
  induction l as [|x l IH]; intros Hl; [done|]. rewrite !filter_cons.
  rewrite (decide_ext (P x) (Q x)) by (apply Hl; by left). rewrite IH; [done|]. intros y Hy. apply Hl. by right.
Qed.

Lemma weight_add closure i a l : NoDup l -> i ∈ l -> i ∉ closure -> apps !! i = Some a ->
  weight ({[ i ]} ∪ closure) l + S (size (ap_support a)) <= weight closure l.
Proof.
  intros Hn Hi Hc Ha. unfold weight. induction l as [|x l IH]; [by apply not_elem_of_nil in Hi|].
  apply NoDup_cons in Hn as [Hx Hn]. rewrite !filter_cons. apply elem_of_cons in Hi as [->|Hi].
  - rewrite (decide_False (P := x ∉ {[x]} ∪ closure)) by set_solver. rewrite decide_True by done. csimpl. rewrite Ha.
    assert (E : base.filter (fun j => j ∉ {[x]} ∪ closure) l = base.filter (fun j => j ∉ closure) l).
    { apply filter_in_ext. intros j Hj. set_solver. }
    rewrite E. lia.
  - specialize (IH Hn Hi). destruct (decide (x ∉ closure)).
    + rewrite decide_True by set_solver. csimpl. lia.
    + rewrite decide_False by set_solver. done.
Qed.

Definition closed_under_support (C : gset nat) : Prop :=
  forall i a, i ∈ C -> apps !! i = Some a -> forall j, j ∈ ap_support a -> j ∈ C.

Lemma closure_loop_ok g fuel : forall closure stack, g < length apps ->
  (forall j, j ∈ stack -> j <= g) -> (forall j, j ∈ closure -> j <= g) ->
  (forall i a, i ∈ closure -> apps !! i = Some a -> forall j, j ∈ ap_support a -> j ∈ closure \/ j ∈ stack) ->
  weight closure (seq 0 (length apps)) + length stack < fuel ->
  exists C, closure_loop apps fuel closure stack = Ok C /\ closure ⊆ C /\ (forall j, j ∈ stack -> j ∈ C) /\
    (forall j, j ∈ C -> j <= g) /\ closed_under_support C.
Proof.
  induction fuel as [|fuel IH]; intros closure stack Hg Hs Hc Hsup Hw; [lia|].
  destruct stack as [|i stack]; cbn [closure_loop].
  { exists closure. split_and!; try done; [set_solver|]. intros i a Hi Ha j Hj. destruct (Hsup i a Hi Ha j Hj) as [?|Hin]; [done|].
    by apply not_elem_of_nil in Hin. }
  assert (Hi : i <= g) by (apply Hs; by left).
  case_bool_decide as Hin.
  - destruct (IH closure stack) as (C & E & H1 & H2 & H3 & H4); [done|intros; apply Hs; by right|done| |cbn in Hw; lia|].
    { intros k a Hk Ha j Hj. destruct (Hsup k a Hk Ha j Hj) as [?|[->|?]%elem_of_cons]; auto. }
    exists C. split_and!; try done. intros j [->|?]%elem_of_cons; auto.
  - destruct (lookup_lt_is_Some_2 apps i) as [a Ha]; [lia|]. rewrite Ha.
    destruct (IH ({[ i ]} ∪ closure) (elements (ap_support a) ++ stack)) as (C & E & H1 & H2 & H3 & H4); [done| | | | |].
    + intros j [Hj%elem_of_elements|Hj]%elem_of_app; [|apply Hs; by right].
      destruct (apps_justified i a Ha) as (_ & _ & _ & _ & Hlt & _). specialize (Hlt j Hj). lia.
    + intros j [->%elem_of_singleton|Hj]%elem_of_union; [done|by apply Hc].
    + intros k b [->%elem_of_singleton|Hk]%elem_of_union Hb j Hj.
      * assert (b = a) as -> by congruence. right. apply elem_of_app. left. by apply elem_of_elements.
      * destruct (Hsup k b Hk Hb j Hj) as [?|[->|?]%elem_of_cons]; [left; set_solver|left; set_solver|right].
        apply elem_of_app. by right.
    + pose proof (weight_add closure i a (seq 0 (length apps)) (NoDup_seq _ _)) as Hwa.
      specialize (Hwa ltac:(apply elem_of_seq; lia) Hin Ha). rewrite length_app. cbn [length] in Hw.
      change (length (elements (ap_support a))) with (size (ap_support a)). lia.
    + exists C. split; [done|]. split; [set_solver|]. split; [|done].
      intros j [->|Hj]%elem_of_cons; [set_solver|]. apply H2, elem_of_app. by right.
Qed.

Lemma weight_start : weight ∅ (seq 0 (length apps)) = sum_list ((fun a => S (size (ap_support a))) <$> apps).
Proof.
  unfold weight. match goal with |- context [@base.filter ?a ?b ?c ?P ?d ?l] => assert (E : @base.filter a b c P d l = l) end.
  { induction (seq 0 (length apps)) as [|x l IH]; [done|]. rewrite filter_cons, decide_True by set_solver. by rewrite IH. }
  rewrite E. f_equal. apply list_eq. intros i. rewrite !list_lookup_fmap.
  destruct (decide (i < length apps)) as [Hi|Hi].
  - rewrite lookup_seq_lt by done. destruct (lookup_lt_is_Some_2 apps i Hi) as [a Ha]. cbn. by rewrite Ha.
  - rewrite lookup_seq_ge by lia. by rewrite lookup_ge_None_2 by lia.
Qed.

(** What the application [g] depends on, in order. *)
Lemma dependencies g : g < length apps -> exists C ordered,
  closure_loop apps (closure_fuel apps) ∅ [g] = Ok C /\
  map_res (fun i => match apps !! i with Some a => Ok a | None => Raise IndexError end) (isort Nat.ltb (elements C)) = Ok ordered /\
  Forall2 (fun i a => apps !! i = Some a) (isort Nat.ltb (elements C)) ordered /\
  g ∈ C /\ (forall j, j ∈ C -> j <= g) /\ closed_under_support C.
Proof.
  intros Hg. destruct (closure_loop_ok g (closure_fuel apps) ∅ [g]) as (C & E & _ & H2 & H3 & H4); try done.
  { intros j ->%list_elem_of_singleton. lia. }
  { rewrite weight_start. unfold closure_fuel. cbn [length]. lia. }
  destruct (map_res_total (fun i => match apps !! i with Some a => Ok a | None => Raise IndexError end)
    (isort Nat.ltb (elements C))) as (ordered & Em & F).
  { intros i Hi. rewrite isort_elem, elem_of_elements in Hi. destruct (lookup_lt_is_Some_2 apps i) as [a Ha].
    - specialize (H3 i Hi). lia.
    - exists a. by rewrite Ha. }
  exists C, ordered. split_and!; try done.
  - eapply Forall2_impl; [exact F|]. intros i a. cbn beta. destruct (apps !! i); [intros [= ->]; done|done].
  - apply H2. by left.
Qed.

Lemma sorted_elements (C : gset nat) : StronglySorted lt (isort Nat.ltb (elements C)).
Proof.
  assert (Hs : StronglySorted (fun a b => Nat.ltb b a = false) (isort Nat.ltb (elements C))).
  { apply isort_Sorted; intros; rewrite ?Nat.ltb_lt, ?Nat.ltb_ge in *; lia. }
  assert (Hn : NoDup (isort Nat.ltb (elements C))) by (rewrite isort_perm; apply NoDup_elements).
  induction Hs as [|x l Hl IH Hx]; [constructor|]. apply NoDup_cons in Hn as [Hnx Hn]. constructor; [by apply IH|].
  rewrite List.Forall_forall in *. intros y Hy. specialize (Hx y Hy). apply Nat.ltb_ge in Hx.
  assert (x <> y) by (intros ->; apply Hnx; by apply list_elem_of_In). lia.
Qed.

Lemma sorted_lookup l i j x y : StronglySorted lt l -> l !! i = Some x -> l !! j = Some y -> x < y -> i < j.
Proof.
  intros Hs Hi Hj Hlt. destruct (Nat.lt_trichotomy i j) as [?|[->|Hji]]; [done| |].
  - assert (x = y) by congruence. lia.
  - exfalso. clear -Hs Hi Hj Hlt Hji. revert i j Hi Hj Hji. induction Hs as [|z l Hl IH Hz]; intros i j Hi Hj Hji; [done|].
    destruct i as [|i]; [lia|]. destruct j as [|j]; cbn in *.
    + injection Hj as ->. rewrite List.Forall_forall in Hz.
      specialize (Hz x ltac:(apply list_elem_of_In; by eapply list_elem_of_lookup_2)). lia.
    + apply (IH i j); try done. lia.
Qed.

(** ** Paths *)

(** The steps of a path: every step is a capability applied where the posture and
    earlier steps allow it. *)
Definition grounded (steps : list AttackPathStep) : Prop :=
  forall k st, steps !! k = Some st ->
    (exists cap, cap ∈ caps /\ ps_module_id st = tc_module_id cap /\ ps_postconditions_gained st = tc_postconditions cap /\
       Forall2 (fun m e => m ∈ alternatives e) (ps_preconditions_met st) (tc_preconditions cap) /\
       (tc_preconditions cap = [] -> ps_host_id st ∈ entry)) /\
    (ps_host_id st ∈ entry \/
     exists k' st', k' < k /\ steps !! k' = Some st' /\ u "host.discovered" ∈ ps_postconditions_gained st' /\
       edge graph (ps_host_id st') (ps_host_id st)) /\
    (forall f, f ∈ ps_preconditions_met st -> observed graph (ps_host_id st) f \/
     exists k' st', k' < k /\ steps !! k' = Some st' /\ f ∈ ps_postconditions_gained st' /\
       counts_on graph f (ps_host_id st') (ps_host_id st)).

(** What a step says of its application. *)
Definition describes (a : application) (st : AttackPathStep) : Prop :=
  ps_host_id st = ap_host a /\ ps_module_id st = tc_module_id (ap_cap a) /\
  ps_preconditions_met st = ap_met a /\ ps_postconditions_gained st = ap_gained a.

Lemma step_of_ok i a : apps !! i = Some a -> exists st, step_of graph a = Ok st.
Proof. intros Ha. unfold step_of, get_node. destruct (apps_known i a Ha) as [n ->]. by eexists. Qed.

Lemma step_of_describes a st : step_of graph a = Ok st -> describes a st.
Proof. unfold step_of, get_node. destruct (od_get _ _); [|done]. intros [= <-]. done. Qed.

Lemma grounded_steps (C : gset nat) l ordered steps : closed_under_support C -> StronglySorted lt l ->
  (forall j, j ∈ l <-> j ∈ C) -> Forall2 (fun i a => apps !! i = Some a) l ordered -> Forall2 describes ordered steps ->
  grounded steps.
Proof.
  intros Hclosed Hsort Hl Happs Hsteps k st Hst.
  destruct (Forall2_lookup_r _ _ _ _ _ Hsteps Hst) as (a & Ha & (Eh & Em & Ep & Eg)).
  destruct (Forall2_lookup_r _ _ _ _ _ Happs Ha) as (i & Hi & Hia).
  destruct (apps_justified i a Hia) as (J1 & J2 & J3 & J4 & J5 & J6 & J7).
  assert (Hback : forall j, j ∈ ap_support a -> exists k' b st', k' < k /\ apps !! j = Some b /\ steps !! k' = Some st' /\
    describes b st').
  { intros j Hj. assert (HjC : j ∈ C) by (eapply Hclosed; [|exact Hia|exact Hj]; apply Hl; by eapply list_elem_of_lookup_2).
    apply Hl, list_elem_of_lookup in HjC as [k' Hk'].
    destruct (Forall2_lookup_l _ _ _ _ _ Happs Hk') as (b & Hb & Hjb).
    destruct (Forall2_lookup_l _ _ _ _ _ Hsteps Hb) as (st' & Hst' & Hd).
    exists k', b, st'. split_and!; try done. eapply (sorted_lookup l k' k j i); try done. by apply J5. }
  split; [|split].
  - exists (ap_cap a). rewrite Em, Eg, Ep, Eh. done.
  - rewrite Eh. destruct J6 as [?|(j & Hj & (b & Hb & Hd & He))]; [by left|right].
    destruct (Hback j Hj) as (k' & b' & st' & Hlt & Hb' & Hst' & (Eh' & _ & _ & Eg')). assert (b' = b) as -> by congruence.
    exists k', st'. rewrite Eh', Eg'. done.
  - rewrite Ep, Eh. intros f Hf. destruct (J7 f Hf) as [?|(j & Hj & (b & Hb & Hd & He))]; [by left|right].
    destruct (Hback j Hj) as (k' & b' & st' & Hlt & Hb' & Hst' & (Eh' & _ & _ & Eg')). assert (b' = b) as -> by congruence.
    exists k', st'. rewrite Eh', Eg'. done.
Qed.

(** What is known of a returned path. *)
Definition path_ok (p : AttackPath) : Prop :=
  grounded (pa_steps p) /\
  (exists st, head (pa_steps p) = Some st /\ ps_host_id st = pa_entry_host p) /\ pa_entry_host p ∈ entry /\
  (exists st, last (pa_steps p) = Some st /\ ps_host_id st = pa_goal_host p /\ pa_goal p ∈ ps_postconditions_gained st) /\
  (0 <= pa_score p <= 100)%Z /\
  (forall h, h ∈ pa_related_asset_ids p <-> exists st, st ∈ pa_steps p /\ ps_host_id st = h).

Lemma score_range sev cvss n : (0 <= score sev cvss n <= 100)%Z.
Proof. unfold score. lia. Qed.

Lemma Forall2_last {A B} (P : A -> B -> Prop) l k x : Forall2 P l k -> last l = Some x -> exists y, last k = Some y /\ P x y.
Proof.
  intros F Hl. rewrite last_lookup in Hl. destruct (Forall2_lookup_l _ _ _ _ _ F Hl) as (y & Hy & HP). exists y.
  split; [|done]. rewrite last_lookup. by rewrite <-(Forall2_length _ _ _ F).
Qed.

Lemma Forall2_head {A B} (P : A -> B -> Prop) l k x : Forall2 P l k -> head l = Some x -> exists y, head k = Some y /\ P x y.
Proof. intros F Hl. destruct F as [|a b l k Hab F]; [done|]. injection Hl as <-. by exists b. Qed.

Lemma sorted_last l g : StronglySorted lt l -> g ∈ l -> (forall j, j ∈ l -> j <= g) -> last l = Some g.
Proof.
  induction 1 as [|x l Hl IH Hx]; intros Hg Hle; [by apply not_elem_of_nil in Hg|].
  destruct l as [|y l]; [by apply list_elem_of_singleton in Hg as ->|].
  change (last (x :: y :: l)) with (last (y :: l)). apply IH; [|intros j Hj; apply Hle; by right].
  apply elem_of_cons in Hg as [->|Hg]; [|done]. exfalso. rewrite List.Forall_forall in Hx.
  specialize (Hx y ltac:(by left)). specialize (Hle y ltac:(right; by left)). lia.
Qed.

Lemma elem_ordered_unique h l : h ∈ ordered_unique l <-> h ∈ l.
Proof. unfold ordered_unique. by rewrite elem_of_rev, elem_of_remove_dups, elem_of_rev. Qed.

Lemma goal_fact_gained a fact : goal_fact_of a = Some fact -> fact ∈ ap_gained a.
Proof.
  unfold goal_fact_of. intros Hh. assert (Hin : fact ∈ base.filter (fun g => g ∈ ap_gained a) (GOAL_FACTS ++ [u "access.foothold"])).
  { destruct (base.filter _ _); [done|]. injection Hh as ->. by left. }
  by apply list_elem_of_filter in Hin as [? _].
Qed.

Lemma path_to_ok g a : apps !! g = Some a -> is_Some (goal_fact_of a) ->
  exists p, path_to graph apps (g, a) = Ok p /\ path_ok p /\ pa_goal_host p = ap_host a /\ goal_fact_of a = Some (pa_goal p).
Proof.
  intros Ha [fact Hfact]. destruct (dependencies g) as (C & ordered & E & Em & F & Hg & Hle & Hclosed); [by eapply lookup_lt_Some|].
  unfold path_to. cbn [fst snd]. rewrite E. cbn [mbind res_bind]. rewrite Em. cbn [mbind res_bind]. rewrite Hfact.
  set (l := isort Nat.ltb (elements C)) in *.
  assert (Hl : forall j, j ∈ l <-> j ∈ C) by (intros j; unfold l; by rewrite isort_elem, elem_of_elements).
  pose proof (sorted_elements C) as Hsort. fold l in Hsort.
  assert (Hord : forall b, b ∈ ordered -> exists i, apps !! i = Some b).
  { intros b [k Hk]%list_elem_of_lookup. destruct (Forall2_lookup_r _ _ _ _ _ F Hk) as (i & _ & Hi). by exists i. }
  destruct (map_res_total (step_of graph) ordered) as (steps & Es & Fs).
  { intros b Hb. destruct (Hord b Hb) as [i Hi]. by eapply step_of_ok. }
  assert (Fd : Forall2 describes ordered steps).
  { eapply Forall2_impl; [exact Fs|]. intros b st. apply step_of_describes. }
  unfold build_path. rewrite Es. cbn [mbind res_bind].
  destruct (map_res_total (get_node graph) (ordered_unique (ap_host <$> ordered))) as (nodes & En & _).
  { intros h Hh. apply elem_ordered_unique, list_elem_of_fmap in Hh as (b & -> & Hb). destruct (Hord b Hb) as [i Hi].
    unfold get_node. destruct (apps_known i b Hi) as [n ->]. by exists n. }
  rewrite En. cbn [mbind res_bind].
  assert (Hlast : last l = Some g) by (apply sorted_last; [done|by apply Hl|intros j Hj; by apply Hle, Hl]).
  destruct (Forall2_last _ _ _ _ F Hlast) as (a' & Hlast' & Ha'). assert (a' = a) as -> by congruence.
  destruct ordered as [|first rest] eqn:Eo; [done|]. rewrite <-Eo in *.
  eexists. split; [reflexivity|].
  destruct (Forall2_head _ _ _ first Fd ltac:(by rewrite Eo)) as (st0 & Hst0 & (Eh0 & _)).
  destruct (Forall2_last _ _ _ _ Fd Hlast') as (stn & Hstn & (Ehn & _ & _ & Egn)).
  pose proof (grounded_steps C l ordered steps Hclosed Hsort Hl F Fd) as Hgr.
  split; [|done].
  split; [exact Hgr|]. split; [exists st0; by rewrite Eh0|]. split; [|split; [|split; [apply score_range|]]].
  - cbn [pa_entry_host]. rewrite <-Eh0. destruct (Hgr 0 st0) as (_ & [?|(k' & _ & Hlt & _)] & _); [by destruct steps|done|lia].
  - exists stn. cbn [pa_steps pa_goal_host pa_goal]. split; [done|]. rewrite Ehn, Egn. split; [done|]. by apply goal_fact_gained.
  - cbn [pa_related_asset_ids pa_steps]. intros h. rewrite elem_ordered_unique, list_elem_of_fmap. split.
    + intros (b & -> & [k Hk]%list_elem_of_lookup). destruct (Forall2_lookup_l _ _ _ _ _ Fd Hk) as (st & Hst & (Eh & _)).
      exists st. split; [by eapply list_elem_of_lookup_2|done].
    + intros (st & [k Hk]%list_elem_of_lookup & <-). destruct (Forall2_lookup_r _ _ _ _ _ Fd Hk) as (b & Hb & (Eh & _)).
      exists b. split; [done|by eapply list_elem_of_lookup_2].
Qed.

(** ** Every goal has its path *)

Lemma goals_spec ia : ia ∈ goals entry apps -> apps !! ia.1 = Some ia.2 /\ is_Some (goal_fact_of ia.2).
Proof.
  assert (Hidx : forall ia, ia ∈ imap (fun i a => (i, a)) apps -> apps !! ia.1 = Some ia.2).
  { intros x [k Hk]%list_elem_of_lookup. rewrite list_lookup_imap in Hk. destruct (apps !! k) eqn:E; [|done].
    cbn in Hk. injection Hk as <-. done. }
  assert (Hfact : forall (a : application) g, g ∈ ap_gained a -> g ∈ GOAL_FACTS ++ [u "access.foothold"] -> is_Some (goal_fact_of a)).
  { intros a g Hg Hin. unfold goal_fact_of.
    assert (Hf : g ∈ base.filter (fun g => g ∈ ap_gained a) (GOAL_FACTS ++ [u "access.foothold"])) by (by apply list_elem_of_filter).
    destruct (base.filter _ _); [by apply not_elem_of_nil in Hf|]. by eexists. }
  unfold goals. destruct (base.filter _ (imap _ apps)) as [|x l] eqn:E.
  - intros [[_ Hf] Hin]%list_elem_of_filter. split; [by apply Hidx|]. eapply Hfact; [exact Hf|]. apply elem_of_app. right. by left.
  - rewrite <-E. intros [He Hin]%list_elem_of_filter. split; [by apply Hidx|]. apply Exists_exists in He as (g & Hg & Hgain).
    eapply Hfact; [exact Hgain|]. apply elem_of_app. by left.
Qed.

Lemma goals_elem i a : apps !! i = Some a -> Exists (fun g => g ∈ ap_gained a) GOAL_FACTS -> (i, a) ∈ goals entry apps.
Proof.
  intros Ha He.
  assert (Hf : (i, a) ∈ base.filter (fun ia => Exists (fun g => g ∈ ap_gained ia.2) GOAL_FACTS) (imap (fun i a => (i, a)) apps)).
  { apply list_elem_of_filter. split; [done|]. apply list_elem_of_lookup. exists i. by rewrite list_lookup_imap, Ha. }
  unfold goals. destruct (base.filter _ (imap _ apps)); [by apply not_elem_of_nil in Hf|done].
Qed.

Lemma od_set_values {V} (Q : V -> Prop) (k : str) v d : (forall x, x ∈ snd <$> d -> Q x) -> Q v ->
  forall x, x ∈ snd <$> od_set k v d -> Q x.
Proof.
  intros Hd Hv x (y & -> & Hy)%list_elem_of_fmap.
  assert (F : Forall (fun y => Q y.2) (od_set k v d)).
  { apply od_set_Forall; [|done]. apply Forall_forall. intros z Hz. apply Hd, list_elem_of_fmap. by exists z. }
  rewrite Forall_forall in F. by apply F.
Qed.

Lemma for_each_cons {A S} (body : A -> S -> res S) x l s out : for_each body (x :: l) s = Ok out ->
  exists s', body x s = Ok s' /\ for_each body l s' = Ok out.
Proof. cbn. destruct (body x s) as [s'|]; [by exists s'|discriminate]. Qed.

(** The candidates of [extract_paths]. *)
Lemma candidates_ok : exists paths,
  for_each (fun goal paths => p ← path_to graph apps goal; Ok (od_set (pa_path_id p) p paths)) (goals entry apps) []
    = Ok paths /\ forall p, p ∈ snd <$> paths -> path_ok p.
Proof.
  apply (for_each_total (fun paths => forall p, p ∈ snd <$> paths -> path_ok p)).
  - intros p Hp. by apply not_elem_of_nil in Hp.
  - intros [g a] paths [Hg Hf]%goals_spec Hp. cbn [fst snd] in *. destruct (path_to_ok g a Hg Hf) as (p & -> & Hok & _).
    cbn [mbind res_bind]. eexists. split; [done|]. by apply od_set_values.
Qed.

(** If candidates with the same id share their objective, no goal loses its path. *)
Lemma candidates_complete paths :
  (forall x y p q, x ∈ goals entry apps -> y ∈ goals entry apps -> path_to graph apps x = Ok p ->
    path_to graph apps y = Ok q -> pa_path_id p = pa_path_id q -> objective p = objective q) ->
  for_each (fun goal paths => p ← path_to graph apps goal; Ok (od_set (pa_path_id p) p paths)) (goals entry apps) []
    = Ok paths ->
  forall x p, x ∈ goals entry apps -> path_to graph apps x = Ok p -> exists q, q ∈ snd <$> paths /\ objective q = objective p.
Proof.
  intros Hids.
  set (body := fun goal paths => p ← path_to graph apps goal; Ok (od_set (pa_path_id p) p paths)).
  assert (H : forall l acc paths, (forall x, x ∈ l -> x ∈ goals entry apps) ->
    for_each body l acc = Ok paths ->
    (forall id q, od_get id acc = Some q -> id = pa_path_id q /\ exists y, y ∈ goals entry apps /\ path_to graph apps y = Ok q) ->
    (forall id q, od_get id acc = Some q -> exists q', od_get id paths = Some q' /\ objective q' = objective q) /\
    (forall x p, x ∈ l -> path_to graph apps x = Ok p -> exists q, od_get (pa_path_id p) paths = Some q /\ objective q = objective p)).
  { induction l as [|x l IH]; intros acc out Hl E Hacc.
    { injection E as <-. split; [intros id q Hq; by exists q|]. intros x p Hx. by apply not_elem_of_nil in Hx. }
    apply for_each_cons in E as (acc1 & E1 & E). unfold body in E1.
    destruct (path_to graph apps x) as [p|] eqn:Ex; [|discriminate E1]. injection E1 as <-.
    assert (Hacc' : forall id q, od_get id (od_set (pa_path_id p) p acc) = Some q ->
      id = pa_path_id q /\ exists y, y ∈ goals entry apps /\ path_to graph apps y = Ok q).
    { intros id q. rewrite od_get_set. case_decide as Hid; [intros [= <-]|by apply Hacc].
      split; [done|]. exists x. split; [apply Hl; by left|done]. }
    destruct (IH _ _ ltac:(intros; apply Hl; by right) E Hacc') as [H1 H2]. split.
    - intros id q Hq. destruct (decide (id = pa_path_id p)) as [->|Hne].
      + destruct (H1 (pa_path_id p) p (od_get_set_eq _ _ _)) as (q' & Hq' & Eq'). exists q'. split; [done|].
        rewrite Eq'. destruct (Hacc _ _ Hq) as (Eid & y & Hy & Ey). eapply (Hids x y); try done. apply Hl. by left.
      + apply H1. by rewrite od_get_set_ne.
    - intros y q [->|Hy]%elem_of_cons Ey; [|by apply (H2 y)]. assert (q = p) as -> by congruence.
      apply (H1 _ p). apply od_get_set_eq. }
  intros E x p Hx Ex. destruct (H (goals entry apps) [] paths) as [_ H2]; [done|done|done|].
  destruct (H2 x p Hx Ex) as (q & Hq & Eq). exists q. split; [|done]. apply od_get_Some_elem in Hq.
  apply list_elem_of_fmap. by eexists (_, q).
Qed.
End Paths.

(** ** One route per objective *)

Lemma modules_ltb_irrefl l : modules_ltb l l = false.
Proof. induction l as [|x l IH]; [done|]. cbn. by rewrite str_ltb_irrefl, bool_decide_true. Qed.

Lemma modules_ltb_trans a b c : modules_ltb a b = true -> modules_ltb b c = true -> modules_ltb a c = true.
Proof.
  revert b c. induction a as [|x a IH]; intros [|y b] [|z c]; cbn; try done.
  rewrite !orb_true_iff, !andb_true_iff, !bool_decide_eq_true. intros [?|[-> ?]] [?|[-> ?]]; [left|by left|by left|right].
  - by eapply str_ltb_trans.
  - split; [done|]. by eapply IH.
Qed.

Lemma rank_ltb_irrefl p : rank_ltb p p = false.
Proof. unfold rank_ltb. by rewrite Z.ltb_irrefl, Z.eqb_refl, Nat.ltb_irrefl, Nat.eqb_refl, modules_ltb_irrefl. Qed.

Lemma rank_ltb_trans p q r : rank_ltb p q = true -> rank_ltb q r = true -> rank_ltb p r = true.
Proof.
  unfold rank_ltb. rewrite !orb_true_iff, !andb_true_iff, !orb_true_iff, !andb_true_iff, !Z.ltb_lt, !Z.eqb_eq, !Nat.ltb_lt, !Nat.eqb_eq.
  intros [?|(? & [?|[? H1]])] [?|(? & [?|[? H2]])]; try (left; lia); right; (split; [lia|]); try (left; lia). right.
  split; [lia|]. by eapply modules_ltb_trans.
Qed.

(** [best] holds a best path for each objective of [seen]. *)
Definition best_of (seen : list AttackPath) (best : list ((str * str * str) * AttackPath)) : Prop :=
  NoDup best.*1 /\
  (forall k q, od_get k best = Some q -> k = objective q /\ q ∈ seen) /\
  (forall p, p ∈ seen -> exists q, od_get (objective p) best = Some q /\ rank_ltb p q = false).

Lemma keep_best_ok seen best p : best_of seen best -> best_of (seen ++ [p]) (keep_best best p).
Proof.
  intros (Hn & Hs & Hb). unfold keep_best.
  assert (Hset : (forall q, od_get (objective p) best = Some q -> rank_ltb p q = true) ->
    best_of (seen ++ [p]) (od_set (objective p) p best)).
  { intros Hlt. split; [by apply od_set_NoDup|]. split.
    - intros k q. rewrite od_get_set. case_decide as Hk.
      + intros [= <-]. split; [done|]. apply elem_of_app. right. by left.
      + intros [-> ?]%Hs. split; [done|]. apply elem_of_app. by left.
    - intros r [Hr| ->%list_elem_of_singleton]%elem_of_app.
      + destruct (Hb r Hr) as (q & Hq & Hrq). rewrite od_get_set. case_decide as Hk; [|by exists q].
        exists p. split; [done|]. rewrite Hk in Hq. specialize (Hlt q Hq). destruct (rank_ltb r p) eqn:E; [|done].
        by rewrite (rank_ltb_trans _ _ _ E Hlt) in Hrq.
      + exists p. rewrite od_get_set_eq. split; [done|apply rank_ltb_irrefl]. }
  destruct (od_get (objective p) best) as [q|] eqn:E; [|by apply Hset].
  destruct (rank_ltb p q) eqn:Er; [apply Hset; by intros ? [= ->]|].
  split; [done|]. split.
  - intros k r [-> ?]%Hs. split; [done|]. apply elem_of_app. by left.
  - intros r [Hr| ->%list_elem_of_singleton]%elem_of_app; [by apply Hb|by exists q].
Qed.

Lemma fold_best_ok paths : best_of paths (fold_left keep_best paths []).
Proof.
  assert (H : forall l seen best, best_of seen best -> best_of (seen ++ l) (fold_left keep_best l best)).
  { induction l as [|p l IH]; intros seen best Hb; [by rewrite app_nil_r|]. cbn.
    rewrite (cons_middle p seen l), (assoc_L (++)). by apply IH, keep_best_ok. }
  apply (H paths [] []). split; [constructor|]. split; [done|]. intros p Hp. by apply not_elem_of_nil in Hp.
Qed.

Lemma path_order p q r : path_ltb q p = false -> path_ltb r q = false -> path_ltb r p = false.
Proof.
  unfold path_ltb. rewrite !orb_false_iff, !andb_false_iff, !orb_false_iff, !andb_false_iff, !Z.ltb_ge, !Z.eqb_neq, !Nat.ltb_ge, !Nat.eqb_neq.
  intros [? H1] [? H2]. split; [lia|]. destruct (decide (pa_score r = pa_score p)); [right|left; lia].
  destruct H1 as [|[? H1]]; [lia|]. destruct H2 as [|[? H2]]; [lia|]. split; [lia|].
  destruct (decide (length (pa_steps r) = length (pa_steps p))); [right|left; lia].
  destruct H1; [lia|]. destruct H2; [lia|]. by eapply str_ltb_nlt_trans.
Qed.

Lemma path_asym p q : path_ltb p q = true -> path_ltb q p = false.
Proof.
  unfold path_ltb. rewrite !orb_true_iff, !andb_true_iff, !orb_true_iff, !andb_true_iff, !Z.ltb_lt, !Z.eqb_eq, !Nat.ltb_lt, !Nat.eqb_eq.
  rewrite !orb_false_iff, !andb_false_iff, !orb_false_iff, !andb_false_iff, !Z.ltb_ge, !Z.eqb_neq, !Nat.ltb_ge, !Nat.eqb_neq.
  intros [?|(? & [?|[? H1%str_ltb_asym]])]; (split; [lia|]); [left; lia|right|right]; (split; [lia|]); [left; lia|by right].
Qed.

Lemma elem_converge paths p : p ∈ converge paths <-> exists k, od_get k (fold_left keep_best paths []) = Some p.
Proof.
  destruct (fold_best_ok paths) as (Hn & _). unfold converge. rewrite isort_elem, list_elem_of_fmap. split.
  - intros ([k q] & -> & Hin). exists k. by apply od_elem_get.
  - intros [k Hk]. exists (k, p). split; [done|]. by apply od_get_Some_elem.
Qed.

(** One route per objective: convergence keeps only given paths, exactly one
    for every triple of entry host, goal host and goal among them, and that one
    is not outranked by any path it stands for; the result is in order of score,
    then length, then id. *)
Theorem converge_keeps_best paths :
  (forall p, p ∈ converge paths -> p ∈ paths) /\
  NoDup (objective <$> converge paths) /\
  (forall p, p ∈ paths -> exists q, q ∈ converge paths /\ objective q = objective p /\ rank_ltb p q = false) /\
  StronglySorted (fun p q => path_ltb q p = false) (converge paths).
Proof.
  destruct (fold_best_ok paths) as (Hn & Hs & Hb). split_and!.
  - intros p [k Hk]%elem_converge. by apply Hs in Hk as [_ Hk].
  - unfold converge. rewrite isort_perm.
    assert (E : objective <$> (snd <$> fold_left keep_best paths []) = (fold_left keep_best paths []).*1).
    { rewrite <-list_fmap_compose. apply list_fmap_ext. intros i [k q] Hi. cbn. symmetry.
      apply list_elem_of_lookup_2 in Hi. apply od_elem_get in Hi; [|done]. by apply Hs in Hi as [? _]. }
    by rewrite E.
  - intros p Hp. destruct (Hb p Hp) as (q & Hq & Hr). exists q. split; [|split; [|done]].
    + apply elem_converge. by eexists.
    + by apply Hs in Hq as [? _].
  - apply isort_Sorted; [apply path_asym|apply path_order].
Qed.

(** C17. Prediction never fails, and every path it returns is grounded: each step
    applies a given capability whose preconditions are observed on its host or
    gained by an earlier step that counts there, on an entry host or one an
    earlier step discovered over an edge of the graph; the path starts on an
    entry host, its last step gains the goal on the goal host, its score is
    between 0 and 100, and its related assets are the hosts of its steps. *)
Theorem prediction_grounded {U : Unicode} reports detections batches capabilities :
  let graph := build_kcatta_graph reports detections batches in
  exists paths, predict_paths graph capabilities = Ok paths /\
    forall p, p ∈ paths ->
      path_ok graph (list_to_set (entry_hosts graph)) (sorted_capabilities capabilities) p.
Proof.
  intros graph. set (entry := list_to_set (entry_hosts graph) : gset str). set (caps := sorted_capabilities capabilities).
  destruct (saturated graph entry caps (build_known _ _ _) (entry_hosts_known graph)) as (s & E & [O _] & _).
  destruct (candidates_ok graph entry caps (ch_applications s)) as (paths & Ep & Hp).
  { intros i a Ha. apply (co_apps _ _ _ _ O i a Ha). }
  { intros i a Ha. destruct (co_apps _ _ _ _ O i a Ha) as (_ & Hr & _). by apply (co_known _ _ _ _ O). }
  exists (converge (snd <$> paths)). unfold predict_paths. fold entry caps. rewrite E. cbn [mbind res_bind].
  unfold extract_paths. rewrite Ep. split; [done|]. intros p [k Hk]%elem_converge.
  destruct (fold_best_ok (snd <$> paths)) as (_ & Hs & _). apply Hp. by apply Hs in Hk as [_ ?].
Qed.

(** No attainable takeover goes unreported: if a capability that gains
    [access.domain_admin] can be applied on a host by the rules, some returned
    path has that host as goal host and that fact as goal, unless two candidate
    paths with different objectives share an id. *)
Theorem takeover_reported {U : Unicode} reports detections batches capabilities cap host :
  NoDup (tc_module_id <$> capabilities) ->
  let graph := build_kcatta_graph reports detections batches in
  let entry := list_to_set (entry_hosts graph) in
  let caps := sorted_capabilities capabilities in
  (forall s x y p q, saturate graph entry caps (saturate_fuel graph entry caps) (start entry) = Ok s ->
    x ∈ goals entry (ch_applications s) -> y ∈ goals entry (ch_applications s) ->
    path_to graph (ch_applications s) x = Ok p -> path_to graph (ch_applications s) y = Ok q ->
    pa_path_id p = pa_path_id q -> objective p = objective q) ->
  attainable graph entry caps (Applies cap host) -> u "access.domain_admin" ∈ tc_postconditions cap ->
  exists paths p, predict_paths graph capabilities = Ok paths /\ p ∈ paths /\
    pa_goal_host p = host /\ pa_goal p = u "access.domain_admin".
Proof.
  intros Hnd graph entry caps Hids Hat Hpost.
  destruct (chain_exact_of reports detections batches capabilities Hnd) as (s & E & Hinv & Hex). fold graph entry caps in E, Hinv, Hex.
  destruct Hinv as [O X]. pose proof (proj2 (Hex (Applies cap host)) Hat) as (a & Ha & <- & <-).
  assert (Hgain : u "access.domain_admin" ∈ ap_gained a).
  { apply list_elem_of_lookup in Ha as [i Hi]. destruct (co_apps _ _ _ _ O i a Hi) as [(_ & -> & _) _]. done. }
  assert (J : forall i a, ch_applications s !! i = Some a -> justified graph entry caps (ch_applications s) i a).
  { intros i b Hb. apply (co_apps _ _ _ _ O i b Hb). }
  assert (K : forall i a, ch_applications s !! i = Some a -> is_Some (od_get (ap_host a) (kg_nodes graph))).
  { intros i b Hb. destruct (co_apps _ _ _ _ O i b Hb) as (_ & Hr & _). by apply (co_known _ _ _ _ O). }
  destruct (candidates_ok graph entry caps (ch_applications s) J K) as (paths & Ep & Hp).
  apply list_elem_of_lookup in Ha as [i Hi].
  assert (Hf : goal_fact_of a = Some (u "access.domain_admin")).
  { unfold goal_fact_of. cbn [app GOAL_FACTS]. rewrite filter_cons, decide_True by done. done. }
  assert (Hg : (i, a) ∈ goals entry (ch_applications s)).
  { apply goals_elem; [done|]. apply Exists_exists. exists (u "access.domain_admin"). split; [by left|done]. }
  destruct (path_to_ok graph entry caps (ch_applications s) J K i a Hi (mk_is_Some _ _ Hf)) as (p & Epath & _ & Eh & Eg).
  rewrite Hf in Eg. injection Eg as Eg.
  destruct (candidates_complete graph entry (ch_applications s) paths (fun x y p q => Hids s x y p q E) Ep (i, a) p Hg Epath) as (q & Hq & Eq).
  destruct (fold_best_ok (snd <$> paths)) as (Hn & Hs & Hb). destruct (Hb q Hq) as (r & Hr & _).
  exists (converge (snd <$> paths)), r. unfold predict_paths. fold entry caps. rewrite E. cbn [mbind res_bind].
  unfold extract_paths. rewrite Ep. split; [done|]. split; [apply elem_converge; by eexists|].
  apply Hs in Hr as [Er _]. rewrite Er in Eq. unfold objective in Eq. injection Eq as _ -> ->. by rewrite Eh, Eg.
Qed.

(** ** A posture

    A web server talks to a database host that shares files. *)
Ltac by_evaluation := match goal with |- ?P => apply (proj1 (bool_decide_eq_true P)); vm_compute; reflexivity end.

Module Example_posture.
Definition web : report_rec :=
  mkReportRec (Some (u "web")) None [u "10.0.0.1"] [mkAssetRec (u "port") (Some 80%Z) None] [].
Definition db : report_rec :=
  mkReportRec (Some (u "db")) (Some (u "db01")) [u "10.0.0.2"] [mkAssetRec (u "port") (Some 445%Z) None] [].
Definition flow : flow_rec := mkFlowRec (u "10.0.0.1") (u "10.0.0.2") (Some 445%Z).
Definition exploit : TechniqueCapability :=
  mkCapability (u "t1190") (u "initial-access") [u "T1190"] [u "service.http|service.https"] [u "access.foothold"; u "host.discovered"].
Definition takeover : TechniqueCapability :=
  mkCapability (u "t1210") (u "lateral-movement") [u "T1210"] [u "service.smb"] [u "access.domain_admin"].

Definition reports : list report_rec := [web; db].
Definition modules : list TechniqueCapability := [takeover; exploit].
Definition posture : KcattaGraph := build_kcatta_graph reports [] [[flow]].
Definition entry : gset str := list_to_set (entry_hosts posture).
Definition known : list TechniqueCapability := sorted_capabilities modules.

Lemma modules_distinct : NoDup (tc_module_id <$> modules).
Proof. by_evaluation. Qed.

Lemma takeover_attainable : attainable posture entry known (Applies takeover (u "db")).
Proof.
  assert (He : attainable posture entry known (Applies exploit (u "web"))).
  { apply (at_apply _ _ _ exploit (u "web") [u "service.http"]).
    - apply at_entry. by_evaluation.
    - unfold known, sorted_capabilities. rewrite isort_elem, list_elem_of_filter. split; [by left|right; by left].
    - done.
    - constructor; [|constructor]. by_evaluation.
    - intros m ->%list_elem_of_singleton. apply at_observed. right.
      destruct (od_get (u "web") (kg_nodes posture)) as [n|] eqn:E; [|by vm_compute in E]. exists n. split; [done|].
      assert (H : match od_get (u "web") (kg_nodes posture) with Some n => bool_decide (u "service.http" ∈ kn_facts n) | None => false end = true)
        by (vm_compute; reflexivity). rewrite E in H. by apply bool_decide_eq_true in H. }
  apply (at_apply _ _ _ takeover (u "db") [u "service.smb"]).
  - apply (at_discover _ _ _ exploit (u "web")); [done|right; by left|]. unfold edge. by_evaluation.
  - unfold known, sorted_capabilities. rewrite isort_elem, list_elem_of_filter. split; [by left|by left].
  - done.
  - constructor; [|constructor]. by_evaluation.
  - intros m ->%list_elem_of_singleton. apply at_observed. right.
    destruct (od_get (u "db") (kg_nodes posture)) as [n|] eqn:E; [|by vm_compute in E]. exists n. split; [done|].
    assert (H : match od_get (u "db") (kg_nodes posture) with Some n => bool_decide (u "service.smb" ∈ kn_facts n) | None => false end = true)
      by (vm_compute; reflexivity). rewrite E in H. by apply bool_decide_eq_true in H.
Qed.

Lemma one_goal s : saturate posture entry known (saturate_fuel posture entry known) (start entry) = Ok s ->
  length (goals entry (ch_applications s)) = 1.
Proof.
  intros E. assert (H : match saturate posture entry known (saturate_fuel posture entry known) (start entry) with
    | Ok s => length (goals entry (ch_applications s)) | Raise _ => 0 end = 1) by (vm_compute; reflexivity). by rewrite E in H.
Qed.
End Example_posture.
Import Example_posture.

(** The chain of the example posture takes the database host. *)
Lemma forward_chain_exact_witness :
  NoDup (tc_module_id <$> modules) /\
  exists s, saturate posture entry known (saturate_fuel posture entry known) (start entry) = Ok s /\
    chain_claims posture s (Applies takeover (u "db")).
Proof.
  split; [exact modules_distinct|].
  destruct (forward_chain_exact reports [] [[flow]] modules modules_distinct) as (s & E & H).
  exists s. split; [exact E|]. apply H. exact takeover_attainable.
Defined.

(** And prediction reports it. *)
Lemma takeover_reported_witness :
  exists paths p, predict_paths posture modules = Ok paths /\ p ∈ paths /\ pa_goal_host p = u "db" /\
    pa_goal p = u "access.domain_admin".
Proof.
  apply (takeover_reported reports [] [[flow]] modules takeover (u "db") modules_distinct).
  - intros s x y p q E Hx Hy Ep Eq _. pose proof (one_goal s E) as H1.
    change (x ∈ goals entry (ch_applications s)) in Hx. change (y ∈ goals entry (ch_applications s)) in Hy.
    destruct (goals entry (ch_applications s)) as [|z [|]]; [done| |done].
    apply list_elem_of_singleton in Hx as ->. apply list_elem_of_singleton in Hy as ->. congruence.
  - exact takeover_attainable.
  - by left.
Defined.

(** The path of the example. *)
Example posture_path : exists p, predict_paths posture modules = Ok [p] /\
  ps_module_id <$> pa_steps p = [u "t1190"; u "t1210"] /\ pa_entry_host p = u "web" /\ pa_score p = 95%Z.
Proof. eexists. split; [vm_compute; reflexivity|]. vm_compute. repeat split. Qed.
