(* ===== verification/Lineage.v ===== *)
(** * Chunk identifiers ([analyzer/src/analyzer/storage/lineage.py])

    The three regular expressions end in a fixed marker and digits, so a match is
    found by reading the identifier backwards; [.] matches everything but a
    newline, [$] also matches before a final newline. *)

From stdpp Require Import base gmap sets strings numbers list.
From Stdlib Require Import ZArith Lia.
From S2P Require Import Prelude PyText.

#[local] Open Scope Z_scope.

(** [LineageKind] *)
Inductive LineageKind := Asset_lineage | Trace_lineage.

#[global] Instance LineageKind_eq_dec : EqDecision LineageKind.
Proof. solve_decision. Defined.

(** [LineageInfo] *)
Abbreviation LineageInfo := (str * Z * option Z)%type.

(** [[0-9]] *)
Definition ascii_digit (c : N) : bool := between 48 c 57.

(** [[1-9][0-9]*] and [0|[1-9][0-9]*] on a run of digits *)
Definition positive_number (s : str) : bool := match s with c :: _ => negb (c =? 48)%N | [] => false end.
Definition index_number (s : str) : bool := bool_decide (s = u "0") || positive_number s.

(** What [$] leaves: the string without one final newline. *)
Definition before_end (s : str) : str :=
  match rev s with 10%N :: r => rev r | _ => s end.

(** [.+] *)
Definition some_chars (s : str) : bool := negb (bool_decide (s = [])) && forallb (fun c => negb (c =? 10)%N) s.

(** Split a string at its trailing digits. *)
Definition trailing_digits (s : str) : str * str :=
  (rev (drop_while ascii_digit (rev s)), rev (take_while ascii_digit (rev s))).

(** Drop a fixed ending. *)
Definition remove_suffix (suffix s : str) : option str := (fun r => rev r) <$> after_prefix (rev suffix) (rev s).

(** [_FORM_CHUNK]: root, index and total. *)
Definition form_chunk (value : str) : option (str * str * str) :=
  let '(s, total) := trailing_digits (before_end value) in
  s ← remove_suffix (u "-of-") s;
  let '(s, index) := trailing_digits s in
  root ← remove_suffix (u "::chunk-") s;
  if some_chars root && positive_number index && positive_number total then Some (root, index, total) else None.

(** [_AGENT_ASSET_CHUNK] and [_AGENT_TRACE_CHUNK]: root and index. *)
Definition agent_marker (kind : LineageKind) : str :=
  match kind with Asset_lineage => u "~report-part-" | Trace_lineage => u "~batch-part-" end.

Definition agent_chunk (kind : LineageKind) (value : str) : option (str * str) :=
  let '(s, index) := trailing_digits (before_end value) in
  root ← remove_suffix (agent_marker kind) s;
  if some_chars root && index_number index then Some (root, index) else None.

Section Parse.
Context {U : Unicode}.

(** [parse_lineage_id] *)
Definition parse_lineage_id (value : str) (kind : LineageKind) : res (option LineageInfo) :=
  match form_chunk value with
  | Some (root, index, total) => i ← int_of index; t ← int_of total; Ok (Some (root, i, Some t))
  | None =>
      match agent_chunk kind value with
      | Some (root, index) => i ← int_of index; Ok (Some (root, i, None))
      | None => Ok None
      end
  end.

(** [lineage_root] *)
Definition lineage_root (value : str) (kind : LineageKind) : res str :=
  parsed ← parse_lineage_id value kind;
  Ok (match parsed with Some (root, _, _) => root | None => value end).
End Parse.

(** ** Facts *)

Lemma positive_number_ne s : positive_number s = true -> s <> [].
Proof. by destruct s. Qed.

Lemma before_end_id s c : (c <> 10)%N -> before_end (s ++ [c]) = s ++ [c].
Proof.
  intros Hc. unfold before_end. rewrite rev_app_distr. cbn.
  destruct c as [|[[[[|[]|]|[]|]|[[]|[]|]|]|[[[]|[]|]|[[]|[]|]|]|]]; done.
Qed.

Lemma rev_drop_take p s : rev (drop_while p (rev s)) ++ rev (take_while p (rev s)) = s.
Proof. by rewrite <-rev_app_distr, take_drop_while, rev_involutive. Qed.

Lemma take_while_app p a b : Forall (fun c => p c = true) a -> (forall c r, b = c :: r -> p c = false) ->
  take_while p (a ++ b) = a /\ drop_while p (a ++ b) = b.
Proof.
  intros Ha Hb. induction Ha as [|c a Hc Ha [IH1 IH2]]; cbn.
  - destruct b as [|c b]; [done|]. cbn. by rewrite (Hb c b).
  - by rewrite Hc, IH1, IH2.
Qed.

Lemma Forall_rev_ {A} (P : A -> Prop) l : Forall P l -> Forall P (rev l).
Proof. rewrite !Forall_forall. intros H x Hx. apply H. by apply elem_of_rev. Qed.

Lemma trailing_digits_app s c ds : Forall (fun c => ascii_digit c = true) ds -> ascii_digit c = false ->
  trailing_digits (s ++ [c] ++ ds) = (s ++ [c], ds).
Proof.
  intros Hd Hc. unfold trailing_digits. rewrite !rev_app_distr. cbn [rev app]. rewrite <-app_assoc.
  destruct (take_while_app ascii_digit (rev ds) ([c] ++ rev s)) as [E1 E2].
  - by apply Forall_rev_.
  - intros d r [= -> _]. done.
  - rewrite E1, E2, rev_involutive, rev_app_distr, rev_involutive. done.
Qed.

Lemma remove_suffix_app suffix s : remove_suffix suffix (s ++ suffix) = Some s.
Proof. unfold remove_suffix. rewrite rev_app_distr, after_prefix_app. cbn. by rewrite rev_involutive. Qed.

Lemma remove_suffix_Some suffix s r : remove_suffix suffix s = Some r -> s = r ++ suffix.
Proof.
  unfold remove_suffix. intros (t & Ht & ->)%fmap_Some. apply after_prefix_Some in Ht.
  rewrite <-(rev_involutive s), Ht, rev_app_distr, rev_involutive. done.
Qed.

(** What a form chunk id is. *)
Lemma form_chunk_app root index total :
  some_chars root = true -> positive_number index = true -> positive_number total = true ->
  Forall (fun c => ascii_digit c = true) index -> Forall (fun c => ascii_digit c = true) total ->
  form_chunk (root ++ u "::chunk-" ++ index ++ u "-of-" ++ total) = Some (root, index, total).
Proof.
  intros Hr Hi Ht Fi Ft. unfold form_chunk.
  assert (E : before_end (root ++ u "::chunk-" ++ index ++ u "-of-" ++ total) = root ++ u "::chunk-" ++ index ++ u "-of-" ++ total).
  { destruct (exists_last (positive_number_ne _ Ht)) as (t & c & ->). rewrite !app_assoc. apply before_end_id.
    apply Forall_app in Ft as [_ Ft]. apply Forall_cons_1 in Ft as [Ft _]. intros ->. cbv in Ft. discriminate. }
  rewrite E. replace (root ++ u "::chunk-" ++ index ++ u "-of-" ++ total)
    with ((root ++ u "::chunk-" ++ index ++ u "-of") ++ [45%N] ++ total) by (rewrite <-!app_assoc; done).
  rewrite trailing_digits_app by done.
  replace ((root ++ u "::chunk-" ++ index ++ u "-of") ++ [45%N]) with ((root ++ u "::chunk-" ++ index) ++ u "-of-")
    by (rewrite <-!app_assoc; done).
  rewrite remove_suffix_app. cbn [mbind option_bind].
  replace (root ++ u "::chunk-" ++ index) with ((root ++ u "::chunk") ++ [45%N] ++ index) by (rewrite <-!app_assoc; done).
  rewrite trailing_digits_app by done.
  replace ((root ++ u "::chunk") ++ [45%N]) with (root ++ u "::chunk-") by (rewrite <-!app_assoc; done).
  rewrite remove_suffix_app. cbn [mbind option_bind]. by rewrite Hr, Hi, Ht.
Qed.

(** Decimal numbers *)
Section Numbers.
Context {U : Unicode}.
#[local] Open Scope N_scope.

Lemma dec_digits n : Forall (fun c => ascii_digit c = true) (dec n).
Proof.
  destruct (dec_spec n) as (_ & F & _). eapply Forall_impl; [exact F|]. intros c (d & Hd & ->).
  unfold ascii_digit, between. rewrite !(proj2 (N.leb_le _ _)) by lia. done.
Qed.

Lemma dec_aux_head fuel n acc : 0 < n -> n < 2 ^ N.of_nat fuel -> positive_number (dec_aux (S fuel) n acc) = true.
Proof.
  revert n acc. induction fuel as [|fuel IH]; intros n acc Hp Hn; [cbn in Hn; lia|].
  cbn [dec_aux]. destruct (N.ltb_spec n 10) as [Hlt|Hge].
  - rewrite N.mod_small by done. cbn. rewrite (proj2 (N.eqb_neq _ _)) by lia. done.
  - apply IH.
    + apply N.div_str_pos. lia.
    + apply N.Div0.div_lt_upper_bound. rewrite Nat2N.inj_succ, N.pow_succ_r' in Hn. lia.
Qed.

Lemma dec_positive n : 0 < n -> positive_number (dec n) = true.
Proof. intros Hn. apply dec_aux_head; [done|apply size_nat_bound]. Qed.

Lemma dec_aux_length fuel n acc k : n < 10 ^ N.of_nat (S k) -> n < 2 ^ N.of_nat fuel ->
  (length (dec_aux (S fuel) n acc) <= S k + length acc)%nat.
Proof.
  revert n acc k. induction fuel as [|fuel IH]; intros n acc k Hk Hn.
  - assert (n = 0) as -> by (cbn in Hn; lia). cbn. lia.
  - cbn [dec_aux]. destruct (N.ltb_spec n 10) as [Hlt|Hge]; [cbn; lia|].
    destruct k as [|k]; [cbn in Hk; lia|].
    assert (H1 : n / 10 < 10 ^ N.of_nat (S k)).
    { apply N.Div0.div_lt_upper_bound. rewrite (Nat2N.inj_succ (S k)), N.pow_succ_r' in Hk. lia. }
    assert (H2 : n / 10 < 2 ^ N.of_nat fuel).
    { apply N.Div0.div_lt_upper_bound. rewrite Nat2N.inj_succ, N.pow_succ_r' in Hn. lia. }
    specialize (IH (n / 10) ((48 + n mod 10) :: acc) k H1 H2). cbn [length dec_aux] in *. lia.
Qed.

Lemma dec_length n k : n < 10 ^ N.of_nat (S k) -> (length (dec n) <= S k)%nat.
Proof. intros Hk. unfold dec. pose proof (dec_aux_length _ n [] k Hk (size_nat_bound n)) as H. cbn [length] in H. lia. Qed.

Lemma int_of_dec n : (length (dec n) <= max_str_digits)%nat -> int_of (dec n) = Ok (Z.of_N n).
Proof.
  intros Hl. destruct (dec_spec n) as (Hne & _ & Hv). unfold int_of.
  rewrite (proj2 (Nat.ltb_ge _ _)) by done. rewrite Hv. by destruct (dec n).
Qed.

(** A chunk id names its root, position and total. *)
Lemma parse_form_chunk root index total kind : some_chars root = true -> 0 < index -> 0 < total ->
  index < 10 ^ 14 -> total < 10 ^ 14 ->
  parse_lineage_id (root ++ u "::chunk-" ++ dec index ++ u "-of-" ++ dec total) kind
  = Ok (Some (root, Z.of_N index, Some (Z.of_N total))).
Proof.
  intros Hr Hi Ht Bi Bt. unfold parse_lineage_id.
  rewrite form_chunk_app by (try done; try apply dec_positive; try apply dec_digits; done).
  rewrite !int_of_dec; [done| |];
    (etransitivity; [apply (dec_length _ 13)|apply Nat.leb_le; vm_compute; reflexivity]; done).
Qed.

Lemma root_form_chunk root index total kind : some_chars root = true -> 0 < index -> 0 < total ->
  index < 10 ^ 14 -> total < 10 ^ 14 ->
  lineage_root (root ++ u "::chunk-" ++ dec index ++ u "-of-" ++ dec total) kind = Ok root.
Proof. intros. unfold lineage_root. by rewrite parse_form_chunk. Qed.
End Numbers.

(** An identifier is plain if it is no chunk id itself. *)
Definition plain {U : Unicode} (kind : LineageKind) (value : str) : Prop := parse_lineage_id value kind = Ok None.

Lemma root_plain {U : Unicode} kind value : plain kind value -> lineage_root value kind = Ok value.
Proof. unfold plain, lineage_root. by intros ->. Qed.

Example parse_child : parse_lineage_id (u "report::chunk-2-of-13") Asset_lineage = Ok (Some (u "report", 2, Some 13)).
Proof. vm_compute. reflexivity. Qed.

Example parse_agent : parse_lineage_id (u "report~report-part-0") Asset_lineage = Ok (Some (u "report", 0, None)).
Proof. vm_compute. reflexivity. Qed.

Example parse_other : parse_lineage_id (u "report~batch-part-0") Asset_lineage = Ok None /\
  parse_lineage_id (u "report::chunk-01-of-3") Asset_lineage = Ok None.
Proof. split; vm_compute; reflexivity. Qed.
