(* ===== verification/RecordStore.v ===== *)
(** * The SQLite record store ([analyzer/src/analyzer/storage/sqlite.py])

    One table of a [SqliteStore]: its rows in the order of their ids, the
    [AUTOINCREMENT] counter and the row of the statistics table that the triggers
    maintain.  A record is of any type [R]; [size_of] is the length of its JSON
    in UTF-8 and [field_of] the text that [json_extract] finds at a top-level field.

    What the file system and SQLite's page ceiling do to a write is the argument
    [disk] of [append]: the exception they raise, if any; the transaction is then
    rolled back.  Connections, PRAGMAs and the schema migration are not modelled. *)

From stdpp Require Import base gmap sets strings numbers list.
From Stdlib Require Import ZArith Lia.
From S2P Require Import Prelude PyText Tables Lineage.

#[local] Open Scope Z_scope.

(** The limits of [__init__]; zero is unlimited. *)
Record limits := mkLimits {
  max_table_bytes : Z;
  max_rows : Z;
  max_record_bytes : Z;
  read_max_bytes : Z;
}.

(** [int(text)]: signs, surrounding whitespace and single underscores are allowed. *)
Definition digits_text {U : Unicode} (s : str) : option Z :=
  let parts := split_on 95 s in
  if forallb (fun p => negb (bool_decide (p = []))) parts && (length (concat parts) <=? max_str_digits)%nat
  then Z.of_N <$> digits_value 0 (concat parts) else None.

Definition python_int {U : Unicode} (s : str) : res Z :=
  match (match strip s with
         | 45%N :: t => Z.opp <$> digits_text t
         | 43%N :: t => digits_text t
         | t => digits_text t
         end) with
  | Some n => Ok n
  | None => Raise ValueError
  end.

(** [_FIELD_RE] *)
Definition field_start (c : N) : bool := between 65 c 90 || between 97 c 122 || (c =? 95)%N.
Definition field_name (s : str) : bool :=
  match before_end s with
  | c :: t => field_start c && forallb (fun c => field_start c || ascii_digit c) t
  | [] => false
  end.

Section Store.
Context {U : Unicode} {R : Type} (size_of : R -> Z) (field_of : str -> R -> option str).

Record row := mkRow { rw_id : Z; rw_payload : R; rw_bytes : Z }.

Record store := mkStore { st_rows : list row; st_seq : Z; st_row_count : Z; st_total_bytes : Z }.

(** The empty table with its statistics. *)
Definition empty_store : store := mkStore [] 0 0 0.

Definition bytes_of (rows : list row) : Z := foldr Z.add 0 (rw_bytes <$> rows).

(** [DELETE ... WHERE id <= cutoff], with the trigger. *)
Definition delete_upto (cutoff : Z) (s : store) : store :=
  let gone := select_where (fun r => rw_id r <=? cutoff) (st_rows s) in
  mkStore (select_where (fun r => negb (rw_id r <=? cutoff)) (st_rows s)) (st_seq s)
    (st_row_count s - Z.of_nat (length gone)) (st_total_bytes s - bytes_of gone).

(** [INSERT], with the trigger. *)
Definition insert_row (payload : R) (s : store) : store :=
  let id := st_seq s + 1 in
  mkStore (st_rows s ++ [mkRow id payload (size_of payload)]) id (st_row_count s + 1)
    (st_total_bytes s + size_of payload).

(** The loop of [_prune_for_insert]: the last id to remove. *)
Fixpoint find_cutoff (excess_rows excess_bytes removed_rows removed_bytes : Z) (cutoff : option Z) (rows : list row)
    : option Z :=
  match rows with
  | [] => cutoff
  | old :: rows =>
      let removed_rows := removed_rows + 1 in
      let removed_bytes := removed_bytes + rw_bytes old in
      if (excess_rows <=? removed_rows) && (excess_bytes <=? removed_bytes) then Some (rw_id old)
      else find_cutoff excess_rows excess_bytes removed_rows removed_bytes (Some (rw_id old)) rows
  end.

(** [_prune_for_insert] *)
Definition prune_for_insert (l : limits) (incoming_bytes : Z) (s : store) : store :=
  if (max_rows l <=? 0) && (max_table_bytes l <=? 0) then s
  else
    let excess_rows := if max_rows l =? 0 then 0 else Z.max 0 (st_row_count s + 1 - max_rows l) in
    let excess_bytes :=
      if max_table_bytes l =? 0 then 0 else Z.max 0 (st_total_bytes s + incoming_bytes - max_table_bytes l) in
    if (excess_rows =? 0) && (excess_bytes =? 0) then s
    else
      match find_cutoff excess_rows excess_bytes 0 0 None (st_rows s) with
      | Some cutoff => delete_upto cutoff s
      | None => s
      end.

(** [append] *)
Definition append (l : limits) (disk : option exn) (record : R) (s : store) : res store :=
  let payload_bytes := size_of record in
  _ ← raise_if (negb (max_record_bytes l =? 0) && (max_record_bytes l <? payload_bytes)) StorageCapacityError;
  _ ← raise_if (negb (max_table_bytes l =? 0) && (max_table_bytes l <? payload_bytes)) StorageCapacityError;
  match disk with
  | Some e => Raise e
  | None => Ok (insert_row record (prune_for_insert l payload_bytes s))
  end.

(** The loops that read rows under the byte budget. *)
Fixpoint read_rows (l : limits) (consumed : Z) (rows : list row) : list row :=
  match rows with
  | [] => []
  | r :: rows =>
      let size := rw_bytes r in
      if negb (read_max_bytes l =? 0) && (read_max_bytes l <? consumed + size) then []
      else r :: read_rows l (consumed + size) rows
  end.

(** [tail] *)
Definition tail (l : limits) (s : store) (limit offset : Z) : list R :=
  if (limit <=? 0) || (offset <? 0) then []
  else rw_payload <$> read_rows l 0 (take (Z.to_nat limit) (drop (Z.to_nat offset) (rev (st_rows s)))).

(** The text at a field equals [value]. *)
Definition field_is (field value : str) (r : row) : bool := bool_decide (field_of field (rw_payload r) = Some value).

Definition filter_ok (filter : option (str * str)) (r : row) : bool :=
  match filter with Some (field, value) => field_is field value r | None => true end.

(** [cursor_page]: the records, the next anchor and whether there are more.  An
    id that SQLite cannot hold raises when it is bound to the query. *)
Definition cursor_page (l : limits) (s : store) (limit : Z) (anchor field value : option str)
    : res (list R * option str * bool) :=
  if limit <=? 0 then Ok ([], None, false)
  else
    filter ← (match field, value with
              | None, None => Ok None
              | Some f, Some v => if field_name f then Ok (Some (f, v)) else Raise StorageCursorError
              | _, _ => Raise StorageCursorError
              end);
    before ← (match anchor with
              | None => Ok None
              | Some a =>
                  match python_int a with
                  | Raise _ => Raise StorageCursorError
                  | Ok n => if n <=? 0 then Raise StorageCursorError
                            else if 2 ^ 63 <=? n then Raise OverflowError else Ok (Some n)
                  end
              end);
    let candidates := select_where (fun r => (match before with Some b => rw_id r <? b | None => true end)
                                             && filter_ok filter r) (rev (st_rows s)) in
    let read := read_rows l 0 (take (Z.to_nat limit) candidates) in
    match last read with
    | None => Ok ([], None, false)
    | Some r =>
        let more := select_one (fun q => (rw_id q <? rw_id r) && filter_ok filter q) (st_rows s) in
        Ok (rw_payload <$> read, Some (dec (Z.to_N (rw_id r))), if more is Some _ then true else false)
    end.

(** [find_one] *)
Definition find_one (s : store) (field value : str) : option R :=
  if field_name field then rw_payload <$> select_one (field_is field value) (rev (st_rows s)) else None.

(** [_sqlite_lineage_key] of a column, compared with a root; the expression index
    keeps out identifiers on which the callback raises. *)
Definition in_lineage (field : str) (kind : LineageKind) (root : str) (r : row) : bool :=
  match field_of field (rw_payload r) with
  | Some v => if lineage_root v kind is Ok r then bool_decide (r = root) else false
  | None => false
  end.

(** [find_lineage] on a table whose lineage field is configured so. *)
Definition find_lineage (configured : option (str * LineageKind)) (s : store) (field value : str) (kind : LineageKind)
    : res (list R) :=
  match configured with
  | Some (f, k) =>
      if bool_decide (f = field) && bool_decide (k = kind :> LineageKind) && field_name field then
        root ← lineage_root value kind;
        Ok (rw_payload <$> select_where (in_lineage field kind root) (rev (st_rows s)))
      else Ok []
  | None => Ok []
  end.

(** [lineage_fingerprint] and [fingerprint] *)
Definition count_and_max (rows : list row) : Z * Z :=
  (Z.of_nat (length rows), foldr Z.max 0 (rw_id <$> rows)).

Definition lineage_fingerprint (configured : option (str * LineageKind)) (s : store) (field value : str)
    (kind : LineageKind) : res (Z * Z) :=
  match configured with
  | Some (f, k) =>
      if bool_decide (f = field) && bool_decide (k = kind :> LineageKind) && field_name field then
        root ← lineage_root value kind;
        Ok (count_and_max (select_where (in_lineage field kind root) (st_rows s)))
      else Ok (0, 0)
  | None => Ok (0, 0)
  end.

Definition fingerprint (s : store) : Z * Z := count_and_max (st_rows s).
End Store.

Arguments row R : clear implicits.
Arguments store R : clear implicits.
