(* ===== verification/StoreProps.v ===== *)
(** * What the record store promises

    Appending keeps the table in order, its statistics exact and its budgets, and
    removes no more than it must; walking the cursor visits every retained record
    once, whatever is appended in between. *)

From stdpp Require Import base gmap sets strings numbers list sorting relations.
From Stdlib Require Import ZArith Lia.
From S2P Require Import Prelude PyText Tables Lineage RecordStore.

#[local] Open Scope Z_scope.

Section Facts.
Context {U : Unicode} {R : Type} (size_of : R -> Z) (field_of : str -> R -> option str).
Hypothesis size_nonneg : forall r, 0 <= size_of r.

(** ** The table *)

Definition ids_ascend (rows : list (row R)) : Prop := StronglySorted (fun a b => rw_id a < rw_id b) rows.

(** Ids ascend and were handed out by the counter, and the statistics are exact. *)
Record store_ok (s : store R) : Prop := {
  so_ids : ids_ascend (st_rows s);
  so_seq : forall r, r ∈ st_rows s -> 0 < rw_id r <= st_seq s;
  so_bytes : forall r, r ∈ st_rows s -> rw_bytes r = size_of (rw_payload r);
  so_count : st_row_count s = Z.of_nat (length (st_rows s));
  so_total : st_total_bytes s = bytes_of (st_rows s);
  so_start : 0 <= st_seq s;
}.

(** The limits as [_nonnegative_limit] leaves them. *)
Definition limits_ok (l : limits) : Prop :=
  0 <= max_table_bytes l /\ 0 <= max_rows l /\ 0 <= max_record_bytes l /\ 0 <= read_max_bytes l.

(** The budgets of the table. *)
Definition fits (l : limits) (rows : list (row R)) : Prop :=
  (0 < max_rows l -> Z.of_nat (length rows) <= max_rows l) /\
  (0 < max_table_bytes l -> bytes_of rows <= max_table_bytes l).

Lemma bytes_app rows1 rows2 : bytes_of (rows1 ++ rows2) = bytes_of rows1 + bytes_of (R := R) rows2.
Proof. unfold bytes_of. induction rows1 as [|r rows IH]; cbn in *; lia. Qed.

Lemma bytes_cons r rows : bytes_of (r :: rows) = rw_bytes r + bytes_of (R := R) rows.
Proof. done. Qed.

Lemma bytes_nonneg rows : (forall r, r ∈ rows -> rw_bytes r = size_of (rw_payload r)) -> 0 <= bytes_of rows.
Proof.
  induction rows as [|r rows IH]; intros Hb; [cbn; lia|]. rewrite bytes_cons, (Hb r) by (by left).
  specialize (IH ltac:(intros; apply Hb; by right)). specialize (size_nonneg (rw_payload r)). lia.
Qed.

Lemma ids_tail r rows : ids_ascend (r :: rows) -> ids_ascend rows /\ forall q, q ∈ rows -> rw_id r < rw_id q.
Proof.
  intros H. apply StronglySorted_inv in H as [? F]. split; [done|]. intros q Hq. rewrite List.Forall_forall in F.
  apply F. by apply list_elem_of_In.
Qed.

Lemma elem_take (r : row R) k rows : r ∈ take k rows -> r ∈ rows.
Proof. intros H. rewrite <-(take_drop k rows). apply elem_of_app. by left. Qed.

Lemma elem_drop (r : row R) k rows : r ∈ drop k rows -> r ∈ rows.
Proof. intros H. rewrite <-(take_drop k rows). apply elem_of_app. by right. Qed.

(** A cutoff at a row of the table removes a prefix. *)
Lemma cut_prefix rows k cut : ids_ascend rows -> rows !! k = Some cut ->
  select_where (fun r => rw_id r <=? rw_id cut) rows = take (S k) rows /\
  select_where (fun r => negb (rw_id r <=? rw_id cut)) rows = drop (S k) rows.
Proof.
  unfold select_where. revert k. induction rows as [|r rows IH]; intros k Hs Hk; [done|].
  apply ids_tail in Hs as [Hs Hr]. rewrite !filter_cons. destruct k as [|k]; cbn in Hk.
  - injection Hk as ->. rewrite Z.leb_refl. cbn. split; [f_equal|].
    + clear IH. induction rows as [|q rows IH]; [done|]. rewrite filter_cons.
      rewrite (proj2 (Z.leb_gt _ _)) by (apply Hr; by left). cbn. apply IH; [|intros; apply Hr; by right].
      by apply ids_tail in Hs as [? _].
    + clear IH. induction rows as [|q rows IH]; [done|]. rewrite filter_cons.
      rewrite (proj2 (Z.leb_gt _ _)) by (apply Hr; by left). cbn. f_equal. apply IH; [|intros; apply Hr; by right].
      by apply ids_tail in Hs as [? _].
  - destruct (IH k Hs Hk) as [IH1 IH2].
    assert (Hlt : rw_id r < rw_id cut) by (apply Hr; by eapply list_elem_of_lookup_2).
    rewrite (proj2 (Z.leb_le _ _)) by lia. cbn. by rewrite IH1, IH2.
Qed.

(** The loop finds the shortest prefix that frees enough. *)
Lemma find_cutoff_spec er eb rows : forall rr rb c, exists k,
  find_cutoff er eb rr rb c rows = (match k with O => c | S j => rw_id <$> rows !! j end) /\
  (k <= length rows)%nat /\ (rows <> [] -> (0 < k)%nat) /\
  (k = length rows \/ er <= rr + Z.of_nat k /\ eb <= rb + bytes_of (R := R) (take k rows)) /\
  (forall j, (0 < j < k)%nat -> ~ (er <= rr + Z.of_nat j /\ eb <= rb + bytes_of (take j rows))).
Proof.
  induction rows as [|r rows IH]; intros rr rb c.
  { exists 0%nat. cbn. split_and!; first [done|lia|by left]. }
  cbn [find_cutoff]. destruct (_ && _) eqn:E.
  - apply andb_true_iff in E as [E1%Z.leb_le E2%Z.leb_le]. exists 1%nat. split_and!; [done|cbn; lia|lia|right|lia].
    split; [lia|]. cbn [take]. rewrite bytes_cons. change (take 0 rows) with (@nil (row R)).
    change (bytes_of (R := R) []) with 0. lia.
  - destruct (IH (rr + 1) (rb + rw_bytes r) (Some (rw_id r))) as (k & Ek & Hk & Hpos & Hor & Hmin). exists (S k).
    split_and!.
    + rewrite Ek. by destruct k.
    + cbn. lia.
    + lia.
    + destruct Hor as [->|[H1 H2]]; [by left|right]. cbn [take]. rewrite bytes_cons. lia.
    + intros j Hj. destruct j as [|j]; [lia|]. cbn [take]. rewrite bytes_cons.
      apply andb_false_iff in E. destruct j as [|j].
      * rewrite !Z.leb_gt in E. change (bytes_of (R := R) (take 0 rows)) with 0. lia.
      * specialize (Hmin (S j) ltac:(lia)). lia.
Qed.

(** Pruning removes the least prefix that makes room. *)
Lemma prune_spec l incoming s : store_ok s -> limits_ok l -> 0 <= incoming ->
  (0 < max_table_bytes l -> incoming <= max_table_bytes l) ->
  exists n, (n <= length (st_rows s))%nat /\
    st_rows (prune_for_insert l incoming s) = drop n (st_rows s) /\
    st_seq (prune_for_insert l incoming s) = st_seq s /\
    st_row_count (prune_for_insert l incoming s) = Z.of_nat (length (drop n (st_rows s))) /\
    st_total_bytes (prune_for_insert l incoming s) = bytes_of (drop n (st_rows s)) /\
    let room k := (0 < max_rows l -> Z.of_nat (length (drop k (st_rows s))) + 1 <= max_rows l) /\
                  (0 < max_table_bytes l -> bytes_of (drop k (st_rows s)) + incoming <= max_table_bytes l) in
    room n /\ forall k, (k < n)%nat -> ~ room k.
Proof.
  intros [Hids Hseq Hbytes Hcount Htotal Hstart] (L1 & L2 & L3 & L4) Hin Hmax. unfold prune_for_insert.
  rewrite Hcount, Htotal. set (rows := st_rows s) in *.
  assert (Hsplit : forall k, bytes_of rows = bytes_of (take k rows) + bytes_of (drop k rows)).
  { intros k. by rewrite <-bytes_app, take_drop. }
  set (er := if max_rows l =? 0 then 0 else Z.max 0 (Z.of_nat (length rows) + 1 - max_rows l)).
  set (eb := if max_table_bytes l =? 0 then 0 else Z.max 0 (bytes_of rows + incoming - max_table_bytes l)).
  assert (Hroom : forall k, (k <= length rows)%nat ->
    ((0 < max_rows l -> Z.of_nat (length (drop k rows)) + 1 <= max_rows l) /\
     (0 < max_table_bytes l -> bytes_of (drop k rows) + incoming <= max_table_bytes l)) <->
    er <= Z.of_nat k /\ eb <= bytes_of (take k rows)).
  { intros k Hk. rewrite length_drop. specialize (Hsplit k).
    assert (0 <= bytes_of (take k rows)) by (apply bytes_nonneg; intros r Hr; apply Hbytes; by apply elem_take in Hr).
    unfold er, eb. destruct (Z.eqb_spec (max_rows l) 0), (Z.eqb_spec (max_table_bytes l) 0); split; intros [Ha Hb]; split; lia. }
  assert (Hzero : er = 0 -> eb = 0 -> exists n, (n <= length rows)%nat /\ st_rows s = drop n rows /\ st_seq s = st_seq s /\
    st_row_count s = Z.of_nat (length (drop n rows)) /\ st_total_bytes s = bytes_of (drop n rows) /\
    let room k := (0 < max_rows l -> Z.of_nat (length (drop k rows)) + 1 <= max_rows l) /\
                  (0 < max_table_bytes l -> bytes_of (drop k rows) + incoming <= max_table_bytes l) in
    room n /\ forall k, (k < n)%nat -> ~ room k).
  { intros E1 E2. exists 0%nat. split_and!; try done; [lia|..].
    cbn zeta. split; [|lia]. apply Hroom; [lia|]. rewrite E1, E2. change (bytes_of (R := R) (take 0 rows)) with 0. lia. }
  destruct (_ && _) eqn:E0.
  { apply andb_true_iff in E0 as [?%Z.leb_le ?%Z.leb_le]. apply Hzero; unfold er, eb.
    - by replace (max_rows l) with 0 by lia.
    - by replace (max_table_bytes l) with 0 by lia. }
  destruct ((er =? 0) && (eb =? 0)) eqn:E1.
  { apply andb_true_iff in E1 as [?%Z.eqb_eq ?%Z.eqb_eq]. by apply Hzero. }
  assert (He1 : 0 <= er) by (unfold er; case_match; lia). assert (He2 : 0 <= eb) by (unfold eb; case_match; lia).
  clearbody er eb. clear Hzero. destruct (find_cutoff_spec er eb rows 0 0 None) as (k & Ek & Hk & Hpos & Hor & Hmin). rewrite Ek.
  assert (Hall : er <= Z.of_nat (length rows) /\ eb <= bytes_of rows).
  { rewrite <-(firstn_all rows) at 2. apply Hroom; [lia|]. rewrite drop_ge by lia. change (bytes_of (R := R) []) with 0. cbn. lia. }
  assert (Hne : rows <> []).
  { intros En. rewrite En in Hall. change (bytes_of (R := R) []) with 0 in Hall. cbn in Hall. apply andb_false_iff in E1. rewrite !Z.eqb_neq in E1.
    lia. }
  specialize (Hpos Hne). destruct k as [|j]; [lia|].
  destruct (lookup_lt_is_Some_2 rows j) as [cut Hcut]; [lia|]. rewrite Hcut. cbn [fmap option_fmap option_map].
  destruct (cut_prefix rows j cut Hids Hcut) as [P1 P2]. unfold delete_upto. fold rows. rewrite P1, P2. cbn [st_rows st_seq st_row_count st_total_bytes].
  exists (S j). split; [lia|]. split; [done|]. split; [done|].
  split; [rewrite Hcount, length_take, length_drop; fold rows; lia|].
  split; [rewrite Htotal; fold rows; specialize (Hsplit (S j)); lia|].
  cbn zeta. split.
  - apply Hroom; [lia|]. destruct Hor as [->|[? ?]]; [|lia]. rewrite firstn_all. done.
  - intros i Hi Hr. apply Hroom in Hr; [|lia]. destruct i as [|i].
      * apply andb_false_iff in E1. rewrite !Z.eqb_neq in E1.
        change (bytes_of (R := R) (take 0 rows)) with 0 in Hr. lia.
      * apply (Hmin (S i)); [lia|]. lia.
Qed.
(** ** Appending *)

(** What an append that is accepted does: the least prefix is removed that lets
    the new row fit. *)
Lemma append_ok l record s s' : store_ok s -> limits_ok l -> append size_of l None record s = Ok s' ->
  exists n, let new := mkRow (st_seq s + 1) record (size_of record) in
    st_rows s' = drop n (st_rows s) ++ [new] /\ st_seq s' = st_seq s + 1 /\ store_ok s' /\ fits l (st_rows s') /\
    forall k, (k < n)%nat -> ~ fits l (drop k (st_rows s) ++ [new]).
Proof.
  intros Hok Hl E. pose proof Hl as (L1 & L2 & L3 & L4). unfold append in E. inv_ok. rename select (_ && _ = false) into E2.
  subst s'.
  assert (Hmax : 0 < max_table_bytes l -> size_of record <= max_table_bytes l).
  { intros. apply andb_false_iff in E2 as [E2|E2]; [|by apply Z.ltb_ge in E2].
    apply negb_false_iff, Z.eqb_eq in E2. lia. }
  destruct (prune_spec l (size_of record) s Hok Hl (size_nonneg _) Hmax) as (n & Hn & Er & Es & Ec & Et & Hroom & Hmin).
  destruct Hok as [Hids Hseq Hbytes Hcount Htotal Hstart].
  assert (Hfits : forall k, fits l (drop k (st_rows s) ++ [mkRow (st_seq s + 1) record (size_of record)]) <->
    (0 < max_rows l -> Z.of_nat (length (drop k (st_rows s))) + 1 <= max_rows l) /\
    (0 < max_table_bytes l -> bytes_of (drop k (st_rows s)) + size_of record <= max_table_bytes l)).
  { intros k. unfold fits. rewrite length_app, bytes_app.
    replace (bytes_of [mkRow (st_seq s + 1) record (size_of record)]) with (size_of record) by (unfold bytes_of; cbn; lia).
    cbn [length]. rewrite Nat2Z.inj_add. done. }
  exists n. cbn zeta. unfold insert_row. cbn [st_rows st_seq st_row_count st_total_bytes]. rewrite Er, Es, Ec, Et.
  split; [done|]. split; [done|]. split; [|split].
  - assert (Hsub : forall r, r ∈ drop n (st_rows s) -> r ∈ st_rows s) by (intros r; apply elem_drop).
    split; cbn [st_rows st_seq st_row_count st_total_bytes].
    + apply StronglySorted_app_2.
      * intros x1 x2 H1 ->%list_elem_of_singleton. cbn. specialize (Hseq x1 (Hsub _ H1)). lia.
      * rewrite <-(take_drop n (st_rows s)) in Hids. by apply StronglySorted_app_1_r in Hids.
      * constructor; constructor.
    + intros r [Hr| ->%list_elem_of_singleton]%elem_of_app; [specialize (Hseq r (Hsub _ Hr)); lia|cbn; lia].
    + intros r [Hr| ->%list_elem_of_singleton]%elem_of_app; [by apply Hbytes, Hsub|done].
    + rewrite length_app. cbn. lia.
    + rewrite bytes_app. unfold bytes_of. cbn. lia.
    + lia.
  - by apply Hfits.
  - intros k Hk Hf. apply Hfits in Hf. by apply (Hmin k Hk).
Qed.

(** Later states of the table: more was appended, and some prefix removed. *)
Definition evolves (s s' : store R) : Prop :=
  st_seq s <= st_seq s' /\
  exists n new, st_rows s' = drop n (st_rows s) ++ new /\ forall r, r ∈ new -> st_seq s < rw_id r.

Lemma evolves_refl s : evolves s s.
Proof. split; [lia|]. exists 0%nat, []. split; [by rewrite app_nil_r|]. intros r Hr. by apply not_elem_of_nil in Hr. Qed.

Lemma evolves_trans s1 s2 s3 : evolves s1 s2 -> evolves s2 s3 -> evolves s1 s3.
Proof.
  intros [L1 (n1 & new1 & E1 & H1)] [L2 (n2 & new2 & E2 & H2)]. split; [lia|].
  exists (n1 + n2)%nat, (drop (n2 - length (drop n1 (st_rows s1))) new1 ++ new2). split.
  - rewrite E2, E1, drop_app, drop_drop, <-app_assoc. done.
  - intros r [Hr|Hr]%elem_of_app; [apply H1; by apply elem_drop in Hr|]. specialize (H2 r Hr). lia.
Qed.

Lemma append_evolves l record s s' : store_ok s -> limits_ok l -> append size_of l None record s = Ok s' -> evolves s s'.
Proof.
  intros Hok Hl E. destruct (append_ok l record s s' Hok Hl E) as (n & Er & Es & _). split; [lia|].
  eexists n, _. split; [exact Er|]. intros r ->%list_elem_of_singleton. cbn. lia.
Qed.

(** A write that fails leaves the table alone. *)
Definition write (l : limits) (s : store R) (w : option exn * R) : store R :=
  match append size_of l w.1 w.2 s with Ok s' => s' | Raise _ => s end.

Lemma write_ok l w s : store_ok s -> limits_ok l -> (forall w', fits l (st_rows s) -> fits l (st_rows (write l s w')) ) /\
  store_ok (write l s w) /\ evolves s (write l s w).
Proof.
  intros Hok Hl.
  assert (Hd : forall w' s', append size_of l w'.1 w'.2 s = Ok s' -> w'.1 = None).
  { intros [d r] s'. unfold append. cbn [fst snd]. intros E. inv_ok. by destruct d. }
  split.
  - intros w' Hf. unfold write. destruct (append _ _ _ _ _) as [s'|] eqn:E; [|done].
    rewrite (Hd _ _ E) in E. by destruct (append_ok l w'.2 s s' Hok Hl E) as (n & _ & _ & _ & ? & _).
  - unfold write. destruct (append _ _ _ _ _) as [s'|] eqn:E; [|split; [done|apply evolves_refl]].
    rewrite (Hd _ _ E) in E. split; [|by eapply append_evolves].
    by destruct (append_ok l w.2 s s' Hok Hl E) as (n & _ & _ & ? & _).
Qed.

(** What a write leaves: old rows and perhaps the new one. *)
Lemma write_rows l w s r : store_ok s -> limits_ok l -> r ∈ st_rows (write l s w) ->
  r ∈ st_rows s \/ r = mkRow (st_seq s + 1) w.2 (size_of w.2) /\
                   (0 < max_record_bytes l -> size_of w.2 <= max_record_bytes l).
Proof.
  intros Hok Hl. unfold write. destruct (append _ _ _ _ _) as [s'|] eqn:E; [|by left].
  assert (Hd : w.1 = None /\ (0 < max_record_bytes l -> size_of w.2 <= max_record_bytes l)).
  { unfold append in E. inv_ok. split; [by destruct w.1|]. intros Hpos.
    rename select (_ && (max_record_bytes l <? _) = false) into E1. apply andb_false_iff in E1 as [E1|E1].
    - apply negb_false_iff, Z.eqb_eq in E1. lia.
    - by apply Z.ltb_ge in E1. }
  destruct Hd as [Hd Hm]. rewrite Hd in E. destruct (append_ok l w.2 s s' Hok Hl E) as (n & -> & _).
  intros [Hr| ->%list_elem_of_singleton]%elem_of_app; [left; by apply elem_drop in Hr|by right].
Qed.

Lemma empty_ok : store_ok empty_store.
Proof. split; [constructor| | |done|done|cbn; lia]; cbn; intros r Hr; by apply not_elem_of_nil in Hr. Qed.
(** ** Reading pages *)

(** A row that a single read can return. *)
Definition readable (l : limits) (r : row R) : Prop := read_max_bytes l = 0 \/ rw_bytes r <= read_max_bytes l.

Lemma read_rows_prefix l (rows : list (row R)) : forall consumed, read_rows l consumed rows `prefix_of` rows.
Proof.
  induction rows as [|r rows IH]; intros consumed; cbn; [done|]. destruct (_ && _); [apply prefix_nil|].
  by apply prefix_cons.
Qed.

Lemma read_rows_head l (r : row R) rows : readable l r -> exists rest, read_rows l 0 (r :: rows) = r :: rest.
Proof.
  intros [H|H]; cbn; [rewrite H; cbn; by eexists|].
  rewrite (proj2 (Z.ltb_ge _ _)) by lia. rewrite andb_false_r. by eexists.
Qed.

Lemma python_int_dec n : (length (dec n) <= max_str_digits)%nat -> python_int (dec n) = Ok (Z.of_N n).
Proof.
  intros Hl. destruct (dec_spec n) as (Hne & Hd & Hv).
  assert (Hc : forall c, c ∈ dec n -> (48 <= c <= 57)%N).
  { rewrite Forall_forall in Hd. intros c Hc. destruct (Hd c Hc) as (d & ? & ->). lia. }
  assert (Hs : forall k, (forall c, c ∈ k -> (48 <= c <= 57)%N) -> drop_while isspace_c k = k).
  { intros k Hk. apply drop_while_none, Forall_forall. intros c Hin. specialize (Hk c Hin).
    unfold isspace_c, between. repeat match goal with |- context [(?a <=? ?b)%N] => destruct (N.leb_spec a b) end;
      repeat match goal with |- context [(?a =? ?b)%N] => destruct (N.eqb_spec a b) end;
      repeat match goal with |- context [(?a <? ?b)%N] => destruct (N.ltb_spec a b) end; cbn; try done; lia. }
  assert (Estrip : strip (dec n) = dec n).
  { unfold strip, lstrip. rewrite (Hs (dec n) Hc), Hs, rev_involutive; [done|].
    intros c Hin. apply Hc. by apply elem_of_rev. }
  assert (Et : digits_text (dec n) = Some (Z.of_N n)).
  { unfold digits_text. rewrite split_on_free by (intros Hin; specialize (Hc _ Hin); lia).
    cbn [forallb concat]. rewrite app_nil_r, bool_decide_false, (proj2 (Nat.leb_le _ _)), Hv by done. done. }
  unfold python_int. rewrite Estrip. destruct (dec n) as [|c k] eqn:E; [done|].
  assert (Hc0 : (48 <= c <= 57)%N) by (apply Hc; by left).
  destruct (decide (c = 45%N)); [lia|]. destruct (decide (c = 43%N)); [lia|].
  replace (match c :: k with 45%N :: t => Z.opp <$> digits_text t | 43%N :: t => digits_text t | t => digits_text t end)
    with (digits_text (c :: k)); [by rewrite Et|].
  destruct c as [|p]; [done|]. do 6 (destruct p as [p|p|]; try done; try lia).
Qed.

(** The rows below an anchor. *)
Definition below (before : option Z) (r : row R) : Prop := match before with Some b => rw_id r < b | None => True end.

Lemma rev_descends rows : ids_ascend rows -> StronglySorted (fun a b => rw_id b < rw_id a) (rev rows).
Proof.
  induction 1 as [|r rows Hs IH Hr]; [constructor|]. cbn. apply StronglySorted_app_2; [|done|repeat constructor].
  intros x y Hx ->%list_elem_of_singleton. rewrite List.Forall_forall in Hr. apply Hr.
  apply in_rev. by apply list_elem_of_In.
Qed.

Lemma select_descends p rows : StronglySorted (fun a b => rw_id b < rw_id a) rows ->
  StronglySorted (fun a b => rw_id b < rw_id a) (select_where (R := row R) p rows).
Proof.
  unfold select_where. induction 1 as [|r rows Hs IH Hr]; [constructor|]. rewrite filter_cons. case_decide; [|done].
  constructor; [done|]. rewrite List.Forall_forall in *. intros q Hq. apply Hr. apply list_elem_of_In.
  apply list_elem_of_In, list_elem_of_filter in Hq. tauto.
Qed.

(** A page is the run of matching rows below the anchor, and says truly whether
    there are more. *)
Lemma page_spec l s limit before filter : store_ok s -> 0 < limit ->
  (match filter with Some (f, _) => field_name f = true | None => True end) ->
  (match before with Some b => 0 < b < 2 ^ 63 | None => True end) ->
  (forall r, r ∈ st_rows s -> below before r -> readable l r) ->
  exists read rest a more,
    cursor_page field_of l s limit ((fun b => dec (Z.to_N b)) <$> before) (fst <$> filter) (snd <$> filter)
      = Ok (rw_payload <$> read, a, more) /\
    select_where (fun r => (match before with Some b => rw_id r <? b | None => true end) && filter_ok field_of filter r)
      (rev (st_rows s)) = read ++ rest /\
    (more = false -> rest = []) /\
    (more = true -> exists r, last read = Some r /\ a = Some (dec (Z.to_N (rw_id r)))).
Proof.
  intros Hok Hlim Hf Hb Hread. unfold cursor_page. rewrite (proj2 (Z.leb_gt _ _)) by lia.
  assert (Ef : (match fst <$> filter, snd <$> filter with
    | None, None => Ok None
    | Some f, Some v => if field_name f then Ok (Some (f, v)) else Raise StorageCursorError
    | _, _ => Raise StorageCursorError end) = Ok filter).
  { destruct filter as [[f v]|]; cbn; [by rewrite Hf|done]. }
  rewrite Ef. cbn [mbind res_bind].
  assert (Eb : (match (fun b => dec (Z.to_N b)) <$> before with
    | None => Ok None
    | Some a => match python_int a with
                | Raise _ => Raise StorageCursorError
                | Ok n => if n <=? 0 then Raise StorageCursorError
                          else if 2 ^ 63 <=? n then Raise OverflowError else Ok (Some n) end end) = Ok before).
  { destruct before as [b|]; [|done]. cbn [fmap option_fmap option_map]. rewrite python_int_dec.
    - rewrite Z2N.id by lia. rewrite !(proj2 (Z.leb_gt _ _)) by lia. done.
    - etransitivity; [apply (dec_length _ 18)|apply Nat.leb_le; vm_compute; reflexivity].
      change (10 ^ N.of_nat 19)%N with 10000000000000000000%N. lia. }
  rewrite Eb. cbn [mbind res_bind].
  set (p := fun r => (match before with Some b => rw_id r <? b | None => true end) && filter_ok field_of filter r).
  set (cands := select_where p (rev (st_rows s))).
  assert (Hdesc : StronglySorted (fun a b => rw_id b < rw_id a) cands) by (apply select_descends, rev_descends, Hok).
  assert (Hcand : forall r, r ∈ cands <-> r ∈ st_rows s /\ below before r /\ filter_ok field_of filter r = true).
  { intros r. unfold cands. rewrite elem_select_where, elem_of_rev. unfold p, below.
    destruct before; rewrite ?andb_true_iff, ?Z.ltb_lt; cbn; tauto. }
  destruct (read_rows_prefix l (take (Z.to_nat limit) cands) 0) as [rest1 E1].
  set (read := read_rows l 0 (take (Z.to_nat limit) cands)) in *.
  assert (Esplit : cands = read ++ (rest1 ++ drop (Z.to_nat limit) cands)).
  { rewrite (assoc_L (++)), <-E1. by rewrite take_drop. }
  exists read, (rest1 ++ drop (Z.to_nat limit) cands).
  destruct (last read) as [r|] eqn:El.
  - eexists _, _. split; [reflexivity|]. split; [exact Esplit|].
    assert (Hr : r ∈ read) by (by apply last_Some_elem_of).
    assert (Hlt : forall q, q ∈ rest1 ++ drop (Z.to_nat limit) cands -> rw_id q < rw_id r).
    { intros q Hq. rewrite Esplit in Hdesc. by apply (StronglySorted_app_1_elem_of _ _ _ _ _ Hdesc). }
    split; [|intros _; exists r; done].
    intros Hm. destruct (select_one _ _) eqn:Es; [done|].
    destruct (rest1 ++ drop (Z.to_nat limit) cands) as [|q l'] eqn:Eq; [done|]. exfalso.
    assert (Hq : q ∈ cands) by (rewrite Esplit; apply elem_of_app; right; by left).
    pose proof (proj1 (select_one_None _ _) Es q (proj1 (proj1 (Hcand q) Hq))) as Hno.
    cbn beta in Hno. apply Hcand in Hq as (_ & _ & Hfq). rewrite Hfq, andb_true_r in Hno. apply Z.ltb_ge in Hno.
    specialize (Hlt q ltac:(by left)). lia.
  - apply last_None in El. exists None, false. rewrite El. split; [done|]. rewrite El in Esplit. split; [done|]. split; [|done].
    intros _. destruct cands as [|q l'] eqn:Ec; [by destruct rest1|]. exfalso.
    assert (Hq : q ∈ st_rows s /\ below before q) by (destruct (proj1 (Hcand q)) as (? & ? & _); [by left|done]).
    destruct (read_rows_head l q (take (Z.to_nat limit - 1) l') (Hread q (proj1 Hq) (proj2 Hq))) as [t Et].
    assert (Etake : take (Z.to_nat limit) (q :: l') = q :: take (Z.to_nat limit - 1) l').
    { destruct (Z.to_nat limit) eqn:En; [lia|]. cbn. by rewrite Nat.sub_0_r. }
    unfold read in El. by rewrite Etake, Et in El.
Qed.
(** ** Walking the cursor *)

(** The pages a reader gets from an anchor on, until a page says there are no
    more; between two pages the table evolves. *)
Inductive walk (l : limits) (filter : option (str * str)) : store R -> option str -> list R -> store R -> Prop :=
| walk_end s anchor limit page a : 0 < limit ->
    cursor_page field_of l s limit anchor (fst <$> filter) (snd <$> filter) = Ok (page, a, false) ->
    walk l filter s anchor page s
| walk_next s s' anchor limit page a rest s_end : 0 < limit ->
    cursor_page field_of l s limit anchor (fst <$> filter) (snd <$> filter) = Ok (page, Some a, true) ->
    evolves s s' -> store_ok s' -> walk l filter s' (Some a) rest s_end ->
    walk l filter s anchor (page ++ rest) s_end.

Lemma walk_evolves l filter s anchor pages s_end : walk l filter s anchor pages s_end -> evolves s s_end.
Proof. induction 1; [apply evolves_refl|by eapply evolves_trans]. Qed.

Lemma evolves_old s s' r : evolves s s' -> r ∈ st_rows s' -> rw_id r <= st_seq s -> r ∈ st_rows s.
Proof.
  intros [_ (n & new & E & Hnew)] Hr Hid. rewrite E in Hr. apply elem_of_app in Hr as [Hr|Hr]; [by apply elem_drop in Hr|].
  specialize (Hnew r Hr). lia.
Qed.

Lemma walk_rows l filter s anchor pages s_end : walk l filter s anchor pages s_end ->
  forall before, anchor = (fun b => dec (Z.to_N b)) <$> before -> store_ok s ->
  (match filter with Some (f, _) => field_name f = true | None => True end) ->
  (match before with Some b => 0 < b < 2 ^ 63 | None => True end) ->
  (forall r, r ∈ st_rows s -> below before r -> readable l r /\ rw_id r < 2 ^ 63) ->
  exists rows, pages = rw_payload <$> rows /\ StronglySorted (fun a b => rw_id b < rw_id a) rows /\
    (forall r, r ∈ rows -> r ∈ st_rows s /\ below before r /\ filter_ok field_of filter r = true) /\
    (forall r, r ∈ st_rows s -> r ∈ st_rows s_end -> below before r -> filter_ok field_of filter r = true -> r ∈ rows).
Proof.
  assert (Hcand : forall s before r, r ∈ select_where (fun r => (match before with Some b => rw_id r <? b | None => true end)
      && filter_ok field_of filter r) (rev (st_rows s)) <->
      r ∈ st_rows s /\ below before r /\ filter_ok field_of filter r = true).
  { intros t before r. rewrite elem_select_where, elem_of_rev. unfold below.
    destruct before; rewrite ?andb_true_iff, ?Z.ltb_lt; cbn; tauto. }
  induction 1 as [s anchor limit page a Hlim E|s s' anchor limit page a rest s_end Hlim E Hev Hok' Hw IH];
    intros before Ha Hok Hf Hb Hr.
  - destruct (page_spec l s limit before filter Hok Hlim Hf Hb (fun r H1 H2 => proj1 (Hr r H1 H2)))
      as (read & rest & a' & more & Ep & Es & Hno & _).
    rewrite <-Ha, E in Ep. injection Ep as -> -> <-. rewrite Hno, app_nil_r in Es by done.
    exists read. split; [done|]. split; [|split].
    + rewrite <-Es. apply select_descends, rev_descends, Hok.
    + intros r Hin. apply Hcand. by rewrite Es.
    + intros r H1 _ H2 H3. rewrite <-Es. by apply Hcand.
  - destruct (page_spec l s limit before filter Hok Hlim Hf Hb (fun r H1 H2 => proj1 (Hr r H1 H2)))
      as (read & tl & a' & more & Ep & Es & _ & Hmore).
    rewrite <-Ha, E in Ep. injection Ep as -> <- <-. destruct (Hmore eq_refl) as (lst & Hlast & [= ->]).
    assert (Hin : lst ∈ st_rows s /\ below before lst /\ filter_ok field_of filter lst = true).
    { apply Hcand. rewrite Es. apply elem_of_app. left. by apply last_Some_elem_of. }
    destruct Hin as (Hls & Hlb & _). pose proof (so_seq _ Hok lst Hls) as Hlq.
    assert (Hdesc : StronglySorted (fun a b => rw_id b < rw_id a) (read ++ tl)).
    { rewrite <-Es. apply select_descends, rev_descends, Hok. }
    assert (Hread : forall q, q ∈ read -> rw_id lst <= rw_id q).
    { intros q Hq. apply StronglySorted_app_1_l in Hdesc. apply last_Some in Hlast as [pre ->].
      apply elem_of_app in Hq as [Hq| ->%list_elem_of_singleton]; [|lia].
      pose proof (StronglySorted_app_1_elem_of _ _ _ q lst Hdesc Hq ltac:(by left)) as Hx. cbn in Hx. lia. }
    destruct (IH (Some (rw_id lst))) as (rows & -> & Hs & Hsub & Hall); try done.
    { specialize (Hr lst Hls Hlb). lia. }
    { intros r Hr1 Hr2. cbn in Hr2. apply (evolves_old s s' r Hev) in Hr1; [|lia]. apply Hr; [done|].
      unfold below in *. destruct before; [lia|done]. }
    assert (Hsub' : forall r, r ∈ rows -> rw_id r < rw_id lst /\ r ∈ st_rows s /\ filter_ok field_of filter r = true).
    { intros r Hin. destruct (Hsub r Hin) as (H1 & H2 & H3). cbn in H2.
      split; [done|]. split; [|done]. apply (evolves_old s s' r Hev H1). lia. }
    exists (read ++ rows). split; [by rewrite fmap_app|]. split; [|split].
    + apply StronglySorted_app_2; [|by apply StronglySorted_app_1_l in Hdesc|done].
      intros x y Hx Hy. specialize (Hread x Hx). destruct (Hsub' y Hy). lia.
    + intros r [Hin|Hin]%elem_of_app.
      * apply Hcand. rewrite Es. apply elem_of_app. by left.
      * destruct (Hsub' r Hin) as (? & ? & ?). split; [done|]. split; [|done]. unfold below in *. destruct before; [lia|done].
    + intros r H1 H2 H3 H4. assert (Hc : r ∈ read ++ tl) by (rewrite <-Es; by apply Hcand).
      apply elem_of_app in Hc as [Hc|Hc]; apply elem_of_app; [by left|right]. apply Hall; try done.
      * apply (evolves_old s' s_end r (walk_evolves _ _ _ _ _ _ Hw) H2). specialize (so_seq _ Hok r H1).
        destruct Hev. lia.
      * cbn. apply last_Some_elem_of in Hlast. by apply (StronglySorted_app_1_elem_of _ _ _ _ _ Hdesc).
Qed.

(** ** Fingerprints *)

Lemma max_le (rows : list (row R)) m : 0 <= m -> (forall r, r ∈ rows -> rw_id r <= m) -> foldr Z.max 0 (rw_id <$> rows) <= m.
Proof.
  intros Hm. induction rows as [|r rows IH]; intros Hr; cbn; [done|]. specialize (IH ltac:(intros; apply Hr; by right)).
  specialize (Hr r ltac:(by left)). cbn in *. lia.
Qed.

Lemma max_ge (rows : list (row R)) r : r ∈ rows -> rw_id r <= foldr Z.max 0 (rw_id <$> rows).
Proof. induction rows as [|q rows IH]; intros Hr; [by apply not_elem_of_nil in Hr|]. cbn. apply elem_of_cons in Hr as [->|Hr]; [lia|]. specialize (IH Hr). cbn in *. lia. Qed.

(** An unchanged count and greatest id mean unchanged rows. *)
Lemma same_fingerprint (p : row R -> bool) s s' : store_ok s -> evolves s s' ->
  count_and_max (select_where p (st_rows s')) = count_and_max (select_where p (st_rows s)) ->
  select_where p (st_rows s') = select_where p (st_rows s).
Proof.
  intros Hok [Hseq (n & new & E & Hnew)]. unfold count_and_max. intros [= Hc Hm].
  assert (Hf : forall a b, select_where p (a ++ b) = select_where p a ++ select_where p b) by (intros; apply filter_app).
  rewrite E, Hf in *.
  assert (Hle : foldr Z.max 0 (rw_id <$> select_where p (st_rows s)) <= st_seq s).
  { apply max_le; [apply Hok|]. intros r [_ Hr]%elem_select_where. apply Hok, Hr. }
  destruct (select_where p new) as [|r new'] eqn:En.
  - rewrite app_nil_r in *. pose proof (Hf (take n (st_rows s)) (drop n (st_rows s))) as Hs. rewrite take_drop in Hs.
    rewrite Hs in Hc |- *. rewrite length_app in Hc.
    destruct (select_where p (take n (st_rows s))); [done|]. cbn in Hc. lia.
  - exfalso. assert (Hr : r ∈ select_where p new) by (rewrite En; by left). apply elem_select_where in Hr as [_ Hr].
    specialize (Hnew r Hr). rewrite <-Hm in Hle.
    assert (Hg : rw_id r <= foldr Z.max 0 (rw_id <$> select_where p (drop n (st_rows s)) ++ r :: new')).
    { apply max_ge, elem_of_app. right. by left. }
    lia.
Qed.
End Facts.

(** The record store keeps its budgets: from an empty table, after any writes,
    failed ones included, ids ascend, the statistics the pruning reads are exact,
    and rows and bytes are within the limits. *)
Theorem store_within_budget {U : Unicode} {R : Type} (size_of : R -> Z) l writes :
  (forall r, 0 <= size_of r) -> limits_ok l ->
  let s := fold_left (write size_of l) writes empty_store in
  store_ok size_of s /\ fits l (st_rows s) /\
  (forall r, r ∈ st_rows s -> 0 < max_record_bytes l -> rw_bytes r <= max_record_bytes l).
Proof.
  intros Hsize Hl.
  assert (H : forall s, store_ok size_of s /\ fits l (st_rows s) /\
      (forall r, r ∈ st_rows s -> 0 < max_record_bytes l -> rw_bytes r <= max_record_bytes l) ->
    let t := fold_left (write size_of l) writes s in store_ok size_of t /\ fits l (st_rows t) /\
      (forall r, r ∈ st_rows t -> 0 < max_record_bytes l -> rw_bytes r <= max_record_bytes l)).
  { induction writes as [|w writes IH]; intros s (Hok & Hf & Hr); [done|]. cbn [fold_left]. apply IH.
    destruct (write_ok size_of Hsize l w s Hok Hl) as (Hfw & Hokw & _). split; [done|]. split; [by apply Hfw|].
    intros r Hin Hpos. destruct (write_rows size_of Hsize l w s r Hok Hl Hin) as [?|[-> ?]]; [by apply Hr|cbn; auto]. }
  apply H. split; [apply empty_ok|]. split; [split; cbn; unfold bytes_of; cbn; lia|].
  intros r Hr. by apply not_elem_of_nil in Hr.
Qed.

(** Retention removes no more than it must: an accepted record is the newest
    row, what went is a prefix, and with any shorter prefix removed the table
    would not be within its limits.  A record is refused exactly when it is over
    the limit of a record or of the table. *)
Theorem append_removes_least {U : Unicode} {R : Type} (size_of : R -> Z) l record s :
  (forall r, 0 <= size_of r) -> limits_ok l -> store_ok size_of s ->
  let new := mkRow (st_seq s + 1) record (size_of record) in
  match append size_of l None record s with
  | Ok s' => exists n, st_rows s' = drop n (st_rows s) ++ [new] /\ fits l (st_rows s') /\
               forall k, (k < n)%nat -> ~ fits l (drop k (st_rows s) ++ [new])
  | Raise e => e = StorageCapacityError /\
      (0 < max_record_bytes l < size_of record \/ 0 < max_table_bytes l < size_of record)
  end.
Proof.
  intros Hsize Hl Hok. cbn zeta. destruct (append size_of l None record s) as [s'|e] eqn:E.
  - destruct (append_ok size_of Hsize l record s s' Hok Hl E) as (n & Er & _ & _ & Hf & Hmin). by exists n.
  - destruct Hl as (L1 & L2 & L3 & L4). unfold append in E.
    destruct (negb (max_record_bytes l =? 0) && (max_record_bytes l <? size_of record)) eqn:E1; cbn in E.
    + injection E as <-. split; [done|]. left. apply andb_true_iff in E1 as [E1%negb_true_iff%Z.eqb_neq ?%Z.ltb_lt]. lia.
    + destruct (negb (max_table_bytes l =? 0) && (max_table_bytes l <? size_of record)) eqn:E2; cbn in E; [|done].
      injection E as <-. split; [done|]. right. apply andb_true_iff in E2 as [E2%negb_true_iff%Z.eqb_neq ?%Z.ltb_lt]. lia.
Qed.

(** C22. Walking the cursor visits every retained record once: however the table
    evolves between pages, the pages put together are matching rows of the table
    as it was at the first page, newest first and none twice, and every matching
    row of that table that is still there at the end is among them; provided every
    row is within the byte budget of a read. *)
Theorem cursor_walk_complete {U : Unicode} {R : Type} (size_of : R -> Z) (field_of : str -> R -> option str)
    l filter s pages s_end :
  store_ok size_of s -> st_seq s < 2 ^ 63 -> (forall r, r ∈ st_rows s -> readable l r) ->
  (match filter with Some (f, _) => field_name f = true | None => True end) ->
  walk size_of field_of l filter s None pages s_end ->
  exists rows, pages = rw_payload <$> rows /\ StronglySorted (fun a b => rw_id b < rw_id a) rows /\
    (forall r, r ∈ rows -> r ∈ st_rows s /\ filter_ok field_of filter r = true) /\
    (forall r, r ∈ st_rows s -> r ∈ st_rows s_end -> filter_ok field_of filter r = true -> r ∈ rows).
Proof.
  intros Hok Hseq Hread Hf Hw.
  destruct (walk_rows size_of field_of l filter s None pages s_end Hw None) as (rows & E & Hs & Hsub & Hall); try done.
  { intros r Hr _. split; [by apply Hread|]. specialize (so_seq _ _ Hok r Hr). lia. }
  exists rows. split_and!; try done.
  - intros r Hr. by destruct (Hsub r Hr) as (? & _ & ?).
  - intros r H1 H2 H3. by apply Hall.
Qed.

(** ** A small table *)
Module Example_store.
(** A record is its host and its size. *)
Definition size (r : str * Z) : Z := Z.abs r.2.
Definition host (field : str) (r : str * Z) : option str := if bool_decide (field = u "host_id") then Some r.1 else None.
Definition small : limits := mkLimits 100 3 50 60.
Definition writes : list (option exn * (str * Z)) :=
  [(None, (u "a", 10)); (None, (u "b", 20)); (Some StorageCapacityError, (u "c", 5)); (None, (u "a", 30)); (None, (u "a", 60));
   (None, (u "a", 40))].
Definition table : store (str * Z) := fold_left (write size small) writes empty_store.
Definition later : store (str * Z) := write size small table (None, (u "a", 15)).
Definition only_a : option (str * str) := Some (u "host_id", u "a").

Lemma size_nonneg r : 0 <= size r.
Proof. unfold size. lia. Qed.

Lemma small_ok : limits_ok small.
Proof. repeat split; cbn; lia. Qed.

Lemma table_ok : store_ok size table.
Proof.
  unfold table. generalize (empty_ok size). generalize (empty_store (R := str * Z)).
  induction writes as [|w l IH]; intros s Hs; [done|]. cbn [fold_left]. apply IH.
  by apply (write_ok size size_nonneg small w s).
Qed.

Lemma later_evolves : store_ok size later /\ evolves table later.
Proof. apply (write_ok size size_nonneg small (None, (u "a", 15)) table table_ok small_ok). Qed.

Lemma table_rows : table = mkStore [mkRow 2 (u "b", 20) 20; mkRow 3 (u "a", 30) 30; mkRow 4 (u "a", 40) 40] 4 3 90.
Proof. vm_compute. reflexivity. Qed.
End Example_store.
Import Example_store.

Lemma store_within_budget_witness : fits small (st_rows table).
Proof. apply (store_within_budget size small writes size_nonneg small_ok). Defined.

Lemma append_removes_least_witness : exists n, st_rows later = drop n (st_rows table) ++ [mkRow 5 (u "a", 15) 15].
Proof.
  pose proof (append_removes_least size small (u "a", 15) table size_nonneg small_ok table_ok) as H.
  vm_compute in H. destruct H as (n & Hn & _). exists n. vm_compute. exact Hn.
Defined.

(** A reader of host [a] gets its newest record, then, after another write that
    evicted an old row, the next. *)
Lemma cursor_walk_complete_witness : exists rows, [(u "a", 40); (u "a", 30)] = rw_payload <$> rows /\
  forall r, r ∈ rows -> r ∈ st_rows table.
Proof.
  destruct (cursor_walk_complete size host small only_a table [(u "a", 40); (u "a", 30)] later) as (rows & E & _ & Hsub & _).
  - exact table_ok.
  - rewrite table_rows. cbn. lia.
  - rewrite table_rows. cbn. intros r Hr. right. cbn. repeat (apply elem_of_cons in Hr as [->|Hr]; [cbn; lia|]).
    by apply not_elem_of_nil in Hr.
  - vm_compute. reflexivity.
  - apply (walk_next _ _ _ _ table later None 1 [(u "a", 40)] (u "4") [(u "a", 30)] later); [lia|vm_compute; reflexivity|apply later_evolves|apply later_evolves|].
    apply (walk_end _ _ _ _ later (Some (u "4")) 1 [(u "a", 30)] (Some (u "3"))); [lia|vm_compute; reflexivity].
  - exists rows. split; [exact E|]. intros r Hr. by apply Hsub.
Defined.
