(* ===== verification/Chunks.v ===== *)
(** * Telemetry chunking ([form/src/kcatta_form/telemetry_chunks.py])

    Reports and trace batches of any size are split into envelopes that the
    analyzer accepts.  The envelopes carry what the code looks at; the rest of
    their header is of an abstract type and never changes.  What pydantic writes
    is a parameter, the class [Wire]: the sizes in bytes of the parts of an
    envelope, and the law that its JSON is compact, the size of the whole being
    the sum of the parts with brackets and commas.  Validating a chunk again
    leaves its fields as they are, since they come from validated models, and
    checks the lengths of its identifier and lists.

    [split_asset_report] and [split_trace_batch] pack their lists in the same way;
    the packing is a section over the streams of a chunk. *)

From stdpp Require Import base gmap sets strings numbers list.
From Stdlib Require Import ZArith Lia.
From S2P Require Import Prelude PyText PyHash Compare Detect Coverage.

#[local] Open Scope Z_scope.

Definition MAX_ENVELOPE_ITEMS : Z := 4096.
Definition MAX_THREAT_MATCHES : nat := 64.
Definition MAX_FORWARD_BODY_BYTES : Z := 9 * 1024 * 1024.
Definition MAX_CORRELATION_ID_CHARS : nat := 256.
Definition HASH_LABEL : str := u "~sha256:".
Definition LINEAGE_SUFFIX_RESERVE : nat := 40.

(** ** Identifiers *)

(** [bounded_correlation_id] *)
Definition bounded_correlation_id (value : str) : str :=
  if (length value <=? MAX_CORRELATION_ID_CHARS)%nat then value
  else
    let digest := sha256_hex value in
    let prefix_chars := (MAX_CORRELATION_ID_CHARS - length HASH_LABEL - length digest)%nat in
    take prefix_chars value ++ HASH_LABEL ++ digest.

Definition numbered (original kind : str) (index total : N) : str :=
  original ++ u "::" ++ kind ++ u "-" ++ dec index ++ u "-of-" ++ dec total.

(** [_child_id] *)
Definition child_id (original kind : str) (index total : N) : str := bounded_correlation_id (numbered original kind index total).

(** [_lineage_root] *)
Definition lineage_root_of (original : str) : str :=
  if (length original <=? MAX_CORRELATION_ID_CHARS - LINEAGE_SUFFIX_RESERVE)%nat then original
  else
    let digest := sha256_hex original in
    let prefix_chars :=
      (MAX_CORRELATION_ID_CHARS - LINEAGE_SUFFIX_RESERVE - length HASH_LABEL - length digest)%nat in
    take prefix_chars original ++ HASH_LABEL ++ digest.

(** [_lineage_child] *)
Definition lineage_child (root kind : str) (index total : N) : res str :=
  let value := numbered root kind index total in
  if (MAX_CORRELATION_ID_CHARS <? length value)%nat then Raise RuntimeError else Ok value.

(** ** Packing *)

(** A stream of a chunk: the list it reads and appends to, and the size of an item. *)
Record stream (C T : Type) := mkStream {
  st_get : C -> list T;
  st_push : T -> C -> C;
  st_size : T -> Z;
}.
Arguments mkStream {C T}.
Arguments st_get {C T}.
Arguments st_push {C T}.
Arguments st_size {C T}.

Section Packing.
Context {C : Type} (empty : C) (used : C -> bool) (max_bytes empty_bytes : Z).

(** The variables the closures share. *)
Record packing := mkPacking { pk_packed : list C; pk_current : C; pk_bytes : Z }.

(** [flush] *)
Definition flush (p : packing) : packing :=
  if used (pk_current p) then mkPacking (pk_packed p ++ [pk_current p]) empty empty_bytes else p.

(** One item of [add]. *)
Definition add_item {T} (s : stream C T) (item : T) (p : packing) : res packing :=
  let target := st_get s (pk_current p) in
  let item_bytes := st_size s item in
  let separator := if bool_decide (length target = 0%nat) then 0 else 1 in
  let exceeds_count := MAX_ENVELOPE_ITEMS <=? Z.of_nat (length target) in
  let exceeds_bytes := max_bytes <? pk_bytes p + separator + item_bytes in
  let '(p, separator) := if exceeds_count || exceeds_bytes then (flush p, 0) else (p, separator) in
  if max_bytes <? pk_bytes p + separator + item_bytes then Raise ValueError
  else Ok (mkPacking (pk_packed p) (st_push s item (pk_current p)) (pk_bytes p + separator + item_bytes)).

(** [add] *)
Fixpoint add {T} (s : stream C T) (items : list T) (p : packing) : res packing :=
  match items with
  | [] => Ok p
  | item :: items => p ← add_item s item p; add s items p
  end.

Definition start_packing : packing := mkPacking [] empty empty_bytes.

(** The chunks packed at the end, at least one. *)
Definition finish (p : packing) : list C :=
  match pk_packed (flush p) with [] => [empty] | packed => packed end.
End Packing.

(** The chunks numbered from [index]. *)
Fixpoint build_chunks {C E} (build : N -> C -> res E) (index : N) (packed : list C) : res (list E) :=
  match packed with
  | [] => Ok []
  | c :: packed => e ← build index c; es ← build_chunks build (index + 1) packed; Ok (e :: es)
  end.

(** ** Envelopes *)

(** [AssetReport] and [TraceBatch]; [H] is the rest of the header. *)
Record AssetReport (H A : Type) := mkReport {
  ar_report_id : str;
  ar_header : H;
  ar_assets : list A;
  ar_vulnerabilities : list vulnerability;
  ar_detector_runs : option (list detector_run);
}.
Arguments mkReport {H A}.
Arguments ar_report_id {H A}.
Arguments ar_header {H A}.
Arguments ar_assets {H A}.
Arguments ar_vulnerabilities {H A}.
Arguments ar_detector_runs {H A}.

Record TraceBatch (H E F P : Type) := mkBatch {
  tb_batch_id : str;
  tb_header : H;
  tb_events : list E;
  tb_file_events : list F;
  tb_process_events : list P;
}.
Arguments mkBatch {H E F P}.
Arguments tb_batch_id {H E F P}.
Arguments tb_header {H E F P}.
Arguments tb_events {H E F P}.
Arguments tb_file_events {H E F P}.
Arguments tb_process_events {H E F P}.

(** The size of a JSON array without its brackets. *)
Fixpoint array_content (sizes : list Z) : Z :=
  match sizes with
  | [] => 0
  | [s] => s
  | s :: rest => s + 1 + array_content rest
  end.

(** What pydantic writes of an asset report, in bytes of UTF-8. *)
Class ReportWire (H A : Type) := {
  wr_header : H -> Z;
  wr_id : str -> Z;
  wr_asset : A -> Z;
  wr_vulnerability : vulnerability -> Z;
  wr_runs : option (list detector_run) -> Z;
  wr_encoded : AssetReport H A -> Z;
  wr_positive : (forall a, 0 < wr_asset a) /\ (forall v, 0 < wr_vulnerability v);
  wr_compact : forall r, wr_encoded r = wr_header (ar_header r) + wr_id (ar_report_id r)
    + array_content (wr_asset <$> ar_assets r) + array_content (wr_vulnerability <$> ar_vulnerabilities r)
    + wr_runs (ar_detector_runs r);
}.

(** ... and of a trace batch. *)
Class BatchWire (H E F P : Type) := {
  bw_header : H -> Z;
  bw_id : str -> Z;
  bw_event : E -> Z;
  bw_file_event : F -> Z;
  bw_process_event : P -> Z;
  bw_encoded : TraceBatch H E F P -> Z;
  bw_positive : (forall e, 0 < bw_event e) /\ (forall f, 0 < bw_file_event f) /\ (forall p, 0 < bw_process_event p);
  bw_compact : forall b, bw_encoded b = bw_header (tb_header b) + bw_id (tb_batch_id b)
    + array_content (bw_event <$> tb_events b) + array_content (bw_file_event <$> tb_file_events b)
    + array_content (bw_process_event <$> tb_process_events b);
}.

(** The identifier that sizes an envelope. *)
Definition sizing_id : str := repeat 120%N MAX_CORRELATION_ID_CHARS.

(** The lists of a model as [max_length] allows them. *)
Definition within {A} (n : nat) (l : list A) : bool := (length l <=? n)%nat.

Section Reports.
Context {H A : Type} `{!ReportWire H A}.

(** [AssetReport.model_validate] *)
Definition validate_report (r : AssetReport H A) : res (AssetReport H A) :=
  if within 256 (ar_report_id r) && within 4096 (ar_assets r) && within 4096 (ar_vulnerabilities r)
     && within 32 (default [] (ar_detector_runs r))
  then Ok r else Raise ValueError.

(** [source_by_detector] *)
Definition detector_sources (d : DetectorKind) : list str :=
  match d with
  | DEFENDER => [u "microsoft-defender"; u "microsoft-defender-event"]
  | MALWARE => [u "kcatta-malware"; u "clamav"]
  | POSTURE => [u "posture"]
  | SECRET => [u "secret"]
  | OSV | DEBIAN_TRACKER => []
  end.

Definition findings_of (d : DetectorKind) (findings : list vulnerability) : Z :=
  Z.of_nat (length (base.filter (fun v => vu_source v ∈ detector_sources d) findings)).

(** The detector runs of a chunk: its own findings counted. *)
Definition recount (findings : list vulnerability) (run : detector_run) : detector_run :=
  mkRun (run_detector run) (run_status run) (findings_of (run_detector run) findings) (run_reason run).

Abbreviation report_chunk := (list A * list vulnerability)%type.

Definition asset_stream : stream report_chunk A :=
  mkStream fst (fun a c => (c.1 ++ [a], c.2)) wr_asset.
Definition vulnerability_stream : stream report_chunk vulnerability :=
  mkStream snd (fun v c => (c.1, c.2 ++ [v])) wr_vulnerability.

Definition report_used (c : report_chunk) : bool := match c with ([], []) => false | _ => true end.

(** One chunk. *)
Definition build_report (report : AssetReport H A) (max_bytes : Z) (root : str) (total index : N) (c : report_chunk)
    : res (AssetReport H A) :=
  report_id ← (if (index =? 1)%N then Ok root else lineage_child root (u "chunk") index total);
  let detector_runs : option (list detector_run) :=
    match ar_detector_runs report with Some runs => Some (recount c.2 <$> runs) | None => None end in
  chunk ← validate_report (mkReport report_id (ar_header report) c.1 c.2 detector_runs);
  if max_bytes <? wr_encoded chunk then Raise RuntimeError else Ok chunk.

(** [split_asset_report] *)
Definition split_asset_report (report : AssetReport H A) (max_bytes : Z) : res (list (AssetReport H A)) :=
  _ ← raise_if (max_bytes <=? 0) ValueError;
  let empty_bytes := wr_encoded (mkReport sizing_id (ar_header report) [] [] (ar_detector_runs report)) in
  _ ← raise_if (max_bytes <? empty_bytes) ValueError;
  p ← add ([], []) report_used max_bytes empty_bytes asset_stream (ar_assets report)
        (start_packing ([], []) empty_bytes);
  p ← add ([], []) report_used max_bytes empty_bytes vulnerability_stream (ar_vulnerabilities report) p;
  let packed := finish ([], []) report_used empty_bytes p in
  let total := N.of_nat (length packed) in
  let root := if (1 <? total)%N then lineage_root_of (ar_report_id report) else ar_report_id report in
  build_chunks (build_report report max_bytes root total) 1 packed.
End Reports.

Section Batches.
Context {H E F P : Type} `{!BatchWire H E F P}.

(** [TraceBatch.model_validate] *)
Definition validate_batch (b : TraceBatch H E F P) : res (TraceBatch H E F P) :=
  if within 256 (tb_batch_id b) && within 4096 (tb_events b) && within 4096 (tb_file_events b)
     && within 4096 (tb_process_events b)
  then Ok b else Raise ValueError.

Abbreviation batch_chunk := (list E * list F * list P)%type.

Definition event_stream : stream batch_chunk E := mkStream (fun c => c.1.1) (fun e c => (c.1.1 ++ [e], c.1.2, c.2)) bw_event.
Definition file_stream : stream batch_chunk F := mkStream (fun c => c.1.2) (fun f c => (c.1.1, c.1.2 ++ [f], c.2)) bw_file_event.
Definition process_stream : stream batch_chunk P := mkStream snd (fun p c => (c.1, c.2 ++ [p])) bw_process_event.

Definition batch_used (c : batch_chunk) : bool := match c with ([], [], []) => false | _ => true end.

(** One chunk. *)
Definition build_batch (batch : TraceBatch H E F P) (max_bytes : Z) (root : str) (total index : N) (c : batch_chunk)
    : res (TraceBatch H E F P) :=
  batch_id ← (if (index =? 1)%N then Ok root else lineage_child root (u "chunk") index total);
  chunk ← validate_batch (mkBatch batch_id (tb_header batch) c.1.1 c.1.2 c.2);
  if max_bytes <? bw_encoded chunk then Raise RuntimeError else Ok chunk.

(** [split_trace_batch] *)
Definition split_trace_batch (batch : TraceBatch H E F P) (max_bytes : Z) : res (list (TraceBatch H E F P)) :=
  _ ← raise_if (max_bytes <=? 0) ValueError;
  let empty_bytes := bw_encoded (mkBatch sizing_id (tb_header batch) [] [] []) in
  _ ← raise_if (max_bytes <? empty_bytes) ValueError;
  let empty := ([], [], []) in
  p ← add empty batch_used max_bytes empty_bytes event_stream (tb_events batch) (start_packing empty empty_bytes);
  p ← add empty batch_used max_bytes empty_bytes file_stream (tb_file_events batch) p;
  p ← add empty batch_used max_bytes empty_bytes process_stream (tb_process_events batch) p;
  let packed := finish empty batch_used empty_bytes p in
  let total := N.of_nat (length packed) in
  let root := if (1 <? total)%N then lineage_root_of (tb_batch_id batch) else tb_batch_id batch in
  build_chunks (build_batch batch max_bytes root total) 1 packed.
End Batches.

(** ** Threat matches *)

(** A raw trace event: its id, its matches and the rest; [validate] builds the
    model of the stream. *)
Section Threats.
Context {X M E : Type} (validate : str -> list M -> X -> res E).

(** The [index]-th slice of the matches. *)
Definition matches_slice (matches : list M) (index : nat) : list M :=
  take MAX_THREAT_MATCHES (drop (index * MAX_THREAT_MATCHES) matches).

(** [_expand_threat_matches] *)
Definition expansion_total (matches : list M) : nat :=
  Nat.max 1 ((length matches + MAX_THREAT_MATCHES - 1) / MAX_THREAT_MATCHES).

Fixpoint expand_from (count index : nat) (trace_id : str) (matches : list M) (rest : X) (total : nat) : res (list E) :=
  match count with
  | O => Ok []
  | S count =>
      let child_trace_id :=
        if (1 <? total)%nat then child_id trace_id (u "matches") (N.of_nat (index + 1)) (N.of_nat total) else trace_id in
      e ← validate child_trace_id (matches_slice matches index) rest;
      es ← expand_from count (index + 1) trace_id matches rest total;
      Ok (e :: es)
  end.

Definition expand_threat_matches (trace_id : str) (matches : list M) (rest : X) : res (list E) :=
  expand_from (expansion_total matches) 0 trace_id matches rest (expansion_total matches).
End Threats.
