(* ===== verification/ChunkProps.v ===== *)
(** * What telemetry chunking promises

    The chunks of an envelope hold its items, all of them, in order and within
    the limits, under distinct identifiers that name their root; and splitting
    succeeds when every item fits by itself. *)

From stdpp Require Import base gmap sets strings numbers list.
From Stdlib Require Import ZArith Lia.
From S2P Require Import Prelude PyText PyHash Compare Detect Coverage Lineage Chunks.

#[local] Open Scope Z_scope.

(** ** Packing *)

Section Packing.
Context {C : Type} (empty : C) (used : C -> bool) (max_bytes empty_bytes : Z).
(** The bytes of the items of a chunk, and that its lists are within the limit. *)
Context (content : C -> Z) (counts : C -> Prop).
Hypothesis content_empty : content empty = 0.
Hypothesis counts_empty : counts empty.
Hypothesis unused : forall c, used c = false -> c = empty.

(** What the two halves of a stream owe each other. *)
Record lawful {T} (s : stream C T) : Prop := {
  get_empty : st_get s empty = [];
  get_push : forall x c, st_get s (st_push s x c) = st_get s c ++ [x];
  push_used : forall x c, used (st_push s x c) = true;
  push_content : forall x c, content (st_push s x c)
    = content c + (if bool_decide (length (st_get s c) = 0%nat) then 0 else 1) + st_size s x;
  push_counts : forall x c, counts c -> Z.of_nat (length (st_get s c)) < MAX_ENVELOPE_ITEMS -> counts (st_push s x c);
}.

Definition good (c : C) : Prop := empty_bytes + content c <= max_bytes /\ counts c.

Record packing_ok (p : packing (C := C)) : Prop := {
  po_bytes : pk_bytes p = empty_bytes + content (pk_current p);
  po_packed : Forall good (pk_packed p);
  po_used : Forall (fun c => used c = true) (pk_packed p);
  po_current : good (pk_current p);
}.

(** All a list of a packing has taken in so far. *)
Definition gathered {T} (view : C -> list T) (p : packing (C := C)) : list T :=
  (pk_packed p ≫= view) ++ view (pk_current p).

Lemma flush_ok p : packing_ok p -> empty_bytes <= max_bytes ->
  packing_ok (flush empty used empty_bytes p) /\ pk_current (flush empty used empty_bytes p) = empty /\
  forall T (view : C -> list T), view empty = [] -> gathered view (flush empty used empty_bytes p) = gathered view p.
Proof.
  intros Hok He. pose proof Hok as [Hb Hp Hu Hc]. unfold flush. destruct (used (pk_current p)) eqn:E.
  - split; [split; cbn|split; [done|]].
    + lia.
    + apply Forall_app. by split; [|constructor].
    + apply Forall_app. by split; [|constructor].
    + split; [lia|done].
    + intros T view Hv. unfold gathered. cbn [pk_packed pk_current]. rewrite bind_app, Hv, app_nil_r. cbn. by rewrite app_nil_r.
  - split; [done|]. split; [by apply unused|done].
Qed.

Lemma add_item_ok {T} (s : stream C T) item p : lawful s -> packing_ok p -> empty_bytes <= max_bytes ->
  match add_item empty used max_bytes empty_bytes s item p with
  | Ok p' => packing_ok p' /\ gathered (st_get s) p' = gathered (st_get s) p ++ [item] /\
      forall T' (view : C -> list T'), view empty = [] -> (forall x c, view (st_push s x c) = view c) ->
        gathered view p' = gathered view p
  | Raise e => e = ValueError /\ max_bytes < empty_bytes + st_size s item
  end.
Proof.
  intros L Hok He. pose proof L as [Lempty Lpush Lused Lcontent Lcounts]. unfold add_item.
  set (target := st_get s (pk_current p)). set (sep := if bool_decide (length target = 0%nat) then 0 else 1).
  destruct (flush_ok p Hok He) as (Hok' & Ecur & Hg).
  assert (Hput : forall q sep', packing_ok q -> sep' = (if bool_decide (length (st_get s (pk_current q)) = 0%nat) then 0 else 1) ->
    Z.of_nat (length (st_get s (pk_current q))) < MAX_ENVELOPE_ITEMS ->
    pk_bytes q + sep' + st_size s item <= max_bytes ->
    let p' := mkPacking (pk_packed q) (st_push s item (pk_current q)) (pk_bytes q + sep' + st_size s item) in
    packing_ok p' /\ gathered (st_get s) p' = gathered (st_get s) q ++ [item] /\
    forall T' (view : C -> list T'), view empty = [] -> (forall x c, view (st_push s x c) = view c) ->
      gathered view p' = gathered view q).
  { intros q sep' [Qb Qp Qu Qc] -> Hcount Hbytes. cbn zeta. split; [split; cbn|split].
    - rewrite Lcontent, Qb. lia.
    - done.
    - done.
    - split; [rewrite Lcontent; lia|]. apply Lcounts; [apply Qc|done].
    - unfold gathered. cbn. by rewrite Lpush, (assoc_L (++)).
    - intros T' view _ Hv. unfold gathered. cbn. by rewrite Hv. }
  destruct ((MAX_ENVELOPE_ITEMS <=? Z.of_nat (length target)) || (max_bytes <? pk_bytes p + sep + st_size s item)) eqn:E.
  - destruct (Z.ltb_spec max_bytes (pk_bytes (flush empty used empty_bytes p) + 0 + st_size s item)) as [Hlt|Hle].
    + split; [done|]. rewrite (po_bytes _ Hok'), Ecur, content_empty in Hlt. lia.
    + destruct (Hput (flush empty used empty_bytes p) 0 Hok') as (H1 & H2 & H3); [by rewrite Ecur, Lempty|by rewrite Ecur, Lempty|lia|].
      split; [done|]. split; [by rewrite H2, Hg|]. intros T' view Hv Hvp. by rewrite H3, Hg.
  - apply orb_false_iff in E as [E1%Z.leb_gt E2%Z.ltb_ge]. rewrite (proj2 (Z.ltb_ge _ _)) by lia. by apply Hput.
Qed.

Lemma add_ok {T} (s : stream C T) items : forall p, lawful s -> packing_ok p -> empty_bytes <= max_bytes ->
  match add empty used max_bytes empty_bytes s items p with
  | Ok p' => packing_ok p' /\ gathered (st_get s) p' = gathered (st_get s) p ++ items /\
      forall T' (view : C -> list T'), view empty = [] -> (forall x c, view (st_push s x c) = view c) ->
        gathered view p' = gathered view p
  | Raise e => e = ValueError /\ exists item, item ∈ items /\ max_bytes < empty_bytes + st_size s item
  end.
Proof.
  induction items as [|item items IH]; intros p L Hok He; cbn; [by rewrite app_nil_r|].
  pose proof (add_item_ok s item p L Hok He) as H. destruct (add_item _ _ _ _ s item p) as [p1|e]; cbn.
  - destruct H as (Hok1 & G1 & V1). specialize (IH p1 L Hok1 He). destruct (add _ _ _ _ s items p1) as [p2|e].
    + destruct IH as (Hok2 & G2 & V2). split; [done|]. split; [by rewrite G2, G1, <-(assoc_L (++))|].
      intros T' view Hv Hp. by rewrite V2, V1.
    + destruct IH as (-> & x & Hx & Hs). split; [done|]. exists x. split; [by right|done].
  - destruct H as [-> Hs]. split; [done|]. exists item. split; [by left|done].
Qed.

Lemma finish_ok p : packing_ok p -> empty_bytes <= max_bytes ->
  finish empty used empty_bytes p <> [] /\ Forall good (finish empty used empty_bytes p) /\
  (1 < length (finish empty used empty_bytes p) -> Forall (fun c => used c = true) (finish empty used empty_bytes p))%nat /\
  forall T (view : C -> list T), view empty = [] -> finish empty used empty_bytes p ≫= view = gathered view p.
Proof.
  intros Hok He. destruct (flush_ok p Hok He) as (Hok' & Ecur & Hg). unfold finish.
  destruct (pk_packed (flush empty used empty_bytes p)) as [|c l] eqn:E.
  - split; [done|]. split; [|split; [cbn; lia|]].
    + constructor; [|done]. split; [rewrite content_empty; lia|done].
    + intros T view Hv. rewrite <-Hg by done. unfold gathered. rewrite E, Ecur, Hv. cbn. by rewrite Hv.
  - rewrite <-E. split; [by rewrite E|]. split; [apply Hok'|]. split; [intros _; apply Hok'|].
    intros T view Hv. rewrite <-Hg by done. unfold gathered. by rewrite Ecur, Hv, app_nil_r.
Qed.

Lemma start_packing_ok : empty_bytes <= max_bytes -> packing_ok (start_packing empty empty_bytes).
Proof. intros He. split; cbn; [lia|constructor|constructor|split; [lia|done]]. Qed.
End Packing.

(** The chunks built are numbered. *)
Lemma build_chunks_ok {C E} (build : N -> C -> res E) packed : forall index es, build_chunks build index packed = Ok es ->
  Forall2 (fun ic e => build ic.1 ic.2 = Ok e) (imap (fun i c => ((index + N.of_nat i)%N, c)) packed) es.
Proof.
  induction packed as [|c packed IH]; intros index es E1; cbn in E1; inv_ok; subst; [constructor|].
  rewrite imap_cons. constructor; [cbn; by rewrite N.add_0_r|].
  rewrite (imap_ext _ (fun i c => ((index + 1 + N.of_nat i)%N, c))) by (intros; unfold compose; rewrite Nat2N.inj_succ; f_equal; lia). by apply IH.
Qed.

Lemma build_chunks_total {C E} (build : N -> C -> res E) packed : forall index,
  (forall i c, packed !! i = Some c -> exists e, build (index + N.of_nat i)%N c = Ok e) ->
  exists es, build_chunks build index packed = Ok es.
Proof.
  induction packed as [|c packed IH]; intros index Hb; [by exists []|]. cbn.
  destruct (Hb 0%nat c eq_refl) as [e He]. rewrite N.add_0_r in He. rewrite He. cbn.
  destruct (IH (index + 1)%N) as [es ->]; [|by exists (e :: es)].
  intros i d Hd. destruct (Hb (S i) d Hd) as [e' He']. exists e'. rewrite <-He'. f_equal. lia.
Qed.

Lemma array_content_snoc sizes x :
  array_content (sizes ++ [x]) = array_content sizes + (if bool_decide (length sizes = 0%nat) then 0 else 1) + x.
Proof.
  induction sizes as [|s sizes IH]; [by rewrite bool_decide_true|]. destruct sizes as [|t sizes].
  - rewrite bool_decide_false by done. cbn. lia.
  - change (array_content ((s :: t :: sizes) ++ [x])) with (s + 1 + array_content ((t :: sizes) ++ [x])). rewrite IH.
    cbn [array_content]. rewrite !bool_decide_false by done. lia.
Qed.

(** ** Identifiers *)

(** The identifier of a chunk. *)
Definition chunk_id (root : str) (total index : N) : str :=
  if (index =? 1)%N then root else numbered root (u "chunk") index total.

Lemma numbered_inj root kind i j t : numbered root kind i t = numbered root kind j t -> i = j.
Proof.
  unfold numbered. intros E. repeat apply app_inv_head in E. apply dec_inj.
  assert (Hd : forall n, take_while ascii_digit (dec n ++ u "-of-" ++ dec t) = dec n).
  { intros n. apply take_while_app; [apply dec_digits|]. by intros c r [= <- _]. }
  by rewrite <-(Hd i), <-(Hd j), E.
Qed.

Lemma numbered_longer root kind i t : (length root < length (numbered root kind i t))%nat.
Proof. unfold numbered. rewrite length_app. cbn. lia. Qed.

Lemma chunk_id_inj root t i j : (0 < i)%N -> (0 < j)%N -> chunk_id root t i = chunk_id root t j -> i = j.
Proof.
  unfold chunk_id. intros Hi Hj. destruct (N.eqb_spec i 1) as [->|], (N.eqb_spec j 1) as [->|]; intros E; [done| | |].
  - pose proof (numbered_longer root (u "chunk") j t) as H. rewrite <-E in H. lia.
  - pose proof (numbered_longer root (u "chunk") i t) as H. rewrite E in H. lia.
  - by apply numbered_inj in E.
Qed.

Lemma numbered_length root i t : (length root <= 216)%nat -> (i < 10 ^ 14)%N -> (t < 10 ^ 14)%N ->
  (length (numbered root (u "chunk") i t) <= 256)%nat.
Proof.
  intros Hr Hi Ht. unfold numbered. rewrite !length_app. pose proof (dec_length i 13 Hi). pose proof (dec_length t 13 Ht).
  change (length (u "::")) with 2%nat. change (length (u "chunk")) with 5%nat. change (length (u "-")) with 1%nat.
  change (length (u "-of-")) with 4%nat. lia.
Qed.

Lemma lineage_root_length id : (length (lineage_root_of id) <= 216)%nat.
Proof.
  unfold lineage_root_of. destruct (Nat.leb_spec (length id) (MAX_CORRELATION_ID_CHARS - LINEAGE_SUFFIX_RESERVE)) as [H|H]; [exact H|].
  rewrite !length_app, length_take, sha256_hex_length. change (length HASH_LABEL) with 8%nat.
  change (MAX_CORRELATION_ID_CHARS - LINEAGE_SUFFIX_RESERVE - 8 - 64)%nat with 144%nat. lia.
Qed.

Lemma chunk_id_length root t i : (length root <= 216)%nat -> (i < 10 ^ 14)%N -> (t < 10 ^ 14)%N ->
  (length (chunk_id root t i) <= 256)%nat.
Proof. intros. unfold chunk_id. destruct (i =? 1)%N; [lia|by apply numbered_length]. Qed.

(** ** Asset reports *)
Section Reports.
Context {H A : Type} `{!ReportWire H A}.

Definition report_content (c : list A * list vulnerability) : Z :=
  array_content (wr_asset <$> c.1) + array_content (wr_vulnerability <$> c.2).
Definition report_counts (c : list A * list vulnerability) : Prop :=
  Z.of_nat (length c.1) <= MAX_ENVELOPE_ITEMS /\ Z.of_nat (length c.2) <= MAX_ENVELOPE_ITEMS.

Lemma asset_lawful : lawful ([], []) report_used report_content report_counts asset_stream.
Proof.
  split; cbn; try done.
  - intros x [l k]. cbn. by destruct l.
  - intros x [l k]. unfold report_content. cbn. rewrite fmap_app. csimpl. rewrite array_content_snoc, length_fmap. lia.
  - intros x [l k] [H1 H2] Hl. cbn in *. split; cbn; [rewrite length_app; cbn; lia|done].
Qed.

Lemma vulnerability_lawful : lawful ([], []) report_used report_content report_counts vulnerability_stream.
Proof.
  split; cbn; try done.
  - intros x [l k]. cbn. by destruct l, k.
  - intros x [l k]. unfold report_content. cbn. rewrite fmap_app. csimpl. rewrite array_content_snoc, length_fmap. lia.
  - intros x [l k] [H1 H2] Hl. cbn in *. split; cbn; [done|rewrite length_app; cbn; lia].
Qed.

Lemma report_unused (c : list A * list vulnerability) : report_used c = false -> c = ([], []).
Proof. by destruct c as [[|] [|]]. Qed.

(** The empty envelope that sizes a report. *)
Definition report_empty (report : AssetReport H A) : Z :=
  wr_encoded (mkReport sizing_id (ar_header report) [] [] (ar_detector_runs report)).

(** What packing makes of a report. *)
Lemma pack_report (report : AssetReport H A) max_bytes : 0 < max_bytes -> report_empty report <= max_bytes ->
  match (p ← add ([], []) report_used max_bytes (report_empty report) asset_stream (ar_assets report)
               (start_packing ([], []) (report_empty report));
         add ([], []) report_used max_bytes (report_empty report) vulnerability_stream (ar_vulnerabilities report) p) with
  | Ok p => let packed := finish ([], []) report_used (report_empty report) p in
      packed <> [] /\ (packed ≫= fst) = ar_assets report /\ (packed ≫= snd) = ar_vulnerabilities report /\
      Forall (fun c => report_empty report + report_content c <= max_bytes /\ report_counts c) packed /\
      (1 < length packed -> Forall (fun c => report_used c = true) packed)%nat
  | Raise e => e = ValueError /\
      ((exists a, a ∈ ar_assets report /\ max_bytes < report_empty report + wr_asset a) \/
       (exists v, v ∈ ar_vulnerabilities report /\ max_bytes < report_empty report + wr_vulnerability v))
  end.
Proof.
  intros Hmax He. set (eb := report_empty report) in *.
  assert (C0 : report_content (([] : list A), []) = 0) by done.
  assert (K0 : report_counts (([] : list A), [])) by (unfold report_counts, MAX_ENVELOPE_ITEMS; cbn; lia).
  pose proof (start_packing_ok ([], []) report_used max_bytes eb report_content report_counts C0 K0 He) as Hs.
  pose proof (add_ok ([], []) report_used max_bytes eb report_content report_counts C0 K0 report_unused
    asset_stream (ar_assets report) _ asset_lawful Hs He) as H1.
  destruct (add _ _ _ _ asset_stream _ _) as [p1|e]; cbn [mbind res_bind];
    [|destruct H1 as (-> & x & Hx & Hlt); split; [done|]; left; by exists x].
  destruct H1 as (Hp1 & G1 & V1).
  pose proof (add_ok ([], []) report_used max_bytes eb report_content report_counts C0 K0 report_unused
    vulnerability_stream (ar_vulnerabilities report) p1 vulnerability_lawful Hp1 He) as H2.
  destruct (add _ _ _ _ vulnerability_stream _ _) as [p2|e];
    [|destruct H2 as (-> & x & Hx & Hlt); split; [done|]; right; by exists x].
  destruct H2 as (Hp2 & G2 & V2).
  destruct (finish_ok ([], []) report_used max_bytes eb report_content report_counts C0 K0 report_unused p2 Hp2 He)
    as (F1 & F2 & F3 & F4). cbn zeta. split; [done|]. split; [|split; [|split; [exact F2|exact F3]]].
  - rewrite F4 by done. rewrite V2 by done. by rewrite (G1 : gathered fst p1 = _).
  - rewrite F4 by done. rewrite (G2 : gathered snd p2 = _). by rewrite V1 by done.
Qed.

(** The identifiers and the number of the chunks of a report. *)
Definition split_root {C} (id : str) (chunks : list C) : str :=
  if (1 <? N.of_nat (length chunks))%N then lineage_root_of id else id.

(** A chunk as [build_report] makes it. *)
Definition is_chunk (report : AssetReport H A) (root : str) (total index : N) (c : list A * list vulnerability)
    (chunk : AssetReport H A) : Prop :=
  chunk = mkReport (chunk_id root total index) (ar_header report) c.1 c.2
            (match ar_detector_runs report with Some runs => Some (recount c.2 <$> runs) | None => None end).

Lemma build_report_inv report max_bytes root total index c chunk : (0 < index)%N ->
  build_report report max_bytes root total index c = Ok chunk ->
  is_chunk report root total index c chunk /\ wr_encoded chunk <= max_bytes /\ (length (ar_report_id chunk) <= 256)%nat.
Proof.
  intros Hi E. unfold build_report in E. apply bind_Ok_inv in E as (id & Eid & E).
  cbn zeta in E. apply bind_Ok_inv in E as (ch & Ev & E). unfold validate_report in Ev.
  destruct (_ && _ && _ && _) eqn:Ew; [|done]. injection Ev as <-.
  destruct (_ <? _) eqn:Eb; [done|]. injection E as <-. apply Z.ltb_ge in Eb.
  repeat (apply andb_true_iff in Ew as [Ew ?]). apply Nat.leb_le in Ew. split; [|done].
  unfold is_chunk, chunk_id. destruct (index =? 1)%N; [by injection Eid as ->|].
  unfold lineage_child in Eid. destruct (_ <? _)%nat; [done|]. by injection Eid as <-.
Qed.

(** The split of a report, chunk by chunk. *)
Lemma split_report_chunks report max_bytes chunks : split_asset_report report max_bytes = Ok chunks ->
  exists packed, length packed = length chunks /\ chunks <> [] /\
    (packed ≫= fst) = ar_assets report /\ (packed ≫= snd) = ar_vulnerabilities report /\
    Forall report_counts packed /\ (1 < length packed -> Forall (fun c => report_used c = true) packed)%nat /\
    forall i chunk, chunks !! i = Some chunk -> exists c, packed !! i = Some c /\
      is_chunk report (split_root (ar_report_id report) chunks) (N.of_nat (length chunks)) (N.of_nat i + 1) c chunk /\
      wr_encoded chunk <= max_bytes /\ (length (ar_report_id chunk) <= 256)%nat.
Proof.
  intros E. unfold split_asset_report in E. apply bind_Ok_inv in E as (? & E1 & E). apply raise_if_Ok_inv, Z.leb_gt in E1.
  apply bind_Ok_inv in E as (? & E2 & E). apply raise_if_Ok_inv, Z.ltb_ge in E2. fold (report_empty report) in *.
  pose proof (pack_report report max_bytes E1 E2) as Hp.
  apply bind_Ok_inv in E as (p1 & Ea & E). rewrite Ea in Hp. cbn [mbind res_bind] in Hp.
  apply bind_Ok_inv in E as (p2 & Ev & E). rewrite Ev in Hp. cbn zeta in *.
  set (packed := finish ([], []) report_used (report_empty report) p2) in *. destruct Hp as (Hne & Ha & Hv & Hg & Hu).
  apply build_chunks_ok in E. pose proof (Forall2_length _ _ _ E) as Hlen. rewrite length_imap in Hlen.
  exists packed. split; [done|]. split; [intros ->; by destruct packed|]. split; [done|]. split; [done|].
  split; [eapply Forall_impl; [exact Hg|]; intros c [_ ?]; done|]. split; [done|].
  intros i chunk Hi. destruct (Forall2_lookup_r _ _ _ _ _ E Hi) as ([n c] & Hn & Hb).
  rewrite list_lookup_imap in Hn. destruct (packed !! i) as [c'|] eqn:Ec; [|done]. cbn in Hn. injection Hn as <- <-.
  exists c'. split; [done|]. cbn [fst snd] in Hb. unfold split_root. rewrite <-Hlen.
  replace (N.of_nat i + 1)%N with (1 + N.of_nat i)%N by lia. eapply build_report_inv; [lia|exact Hb].
Qed.

Lemma bind_of {X Y Z'} (f : X -> list Z') (g : Y -> list Z') l k :
  length l = length k -> (forall i y, k !! i = Some y -> exists x, l !! i = Some x /\ f x = g y) -> l ≫= f = k ≫= g.
Proof.
  revert k. induction l as [|x l IH]; intros [|y k] Hl Hk; try done. cbn.
  destruct (Hk 0%nat y eq_refl) as (x' & [= <-] & ->). f_equal. apply IH; [by injection Hl|].
  intros i z Hz. apply (Hk (S i)). done.
Qed.

Lemma split_assets_flat report max_bytes chunks : split_asset_report report max_bytes = Ok chunks ->
  (chunks ≫= ar_assets) = ar_assets report /\ (chunks ≫= ar_vulnerabilities) = ar_vulnerabilities report.
Proof.
  intros E. destruct (split_report_chunks report max_bytes chunks E) as (packed & Hlen & _ & Ha & Hv & _ & _ & Hc).
  split; [rewrite <-Ha|rewrite <-Hv]; symmetry; (apply bind_of; [done|]); intros i chunk Hi;
    destruct (Hc i chunk Hi) as (c & ? & Hch & _); exists c; by rewrite Hch.
Qed.

Lemma report_ids report max_bytes chunks : split_asset_report report max_bytes = Ok chunks ->
  forall i chunk, chunks !! i = Some chunk ->
    ar_report_id chunk = chunk_id (split_root (ar_report_id report) chunks) (N.of_nat (length chunks)) (N.of_nat i + 1).
Proof.
  intros E i chunk Hi. destruct (split_report_chunks report max_bytes chunks E) as (packed & _ & _ & _ & _ & _ & _ & Hc).
  destruct (Hc i chunk Hi) as (c & _ & -> & _). done.
Qed.
End Reports.

(** C21. Splitting a report loses nothing: the chunks hold its assets and its
    findings, all of them and in order; each is within the byte and item limits,
    has the header of the report and counts its own findings for each detector;
    their identifiers are distinct and at most 256 characters long, the first the
    root and the others naming it. *)
Theorem split_report_lossless {H A : Type} `{!ReportWire H A} (report : AssetReport H A) max_bytes chunks :
  split_asset_report report max_bytes = Ok chunks ->
  (chunks ≫= ar_assets) = ar_assets report /\ (chunks ≫= ar_vulnerabilities) = ar_vulnerabilities report /\
  NoDup (ar_report_id <$> chunks) /\
  forall i chunk, chunks !! i = Some chunk ->
    wr_encoded chunk <= max_bytes /\ Z.of_nat (length (ar_assets chunk)) <= MAX_ENVELOPE_ITEMS /\
    Z.of_nat (length (ar_vulnerabilities chunk)) <= MAX_ENVELOPE_ITEMS /\ (length (ar_report_id chunk) <= 256)%nat /\
    ar_header chunk = ar_header report /\
    ar_report_id chunk = chunk_id (split_root (ar_report_id report) chunks) (N.of_nat (length chunks)) (N.of_nat i + 1) /\
    (forall runs run, ar_detector_runs chunk = Some runs -> run ∈ runs ->
       run_finding_count run = findings_of (run_detector run) (ar_vulnerabilities chunk)).
Proof.
  intros E. destruct (split_report_chunks report max_bytes chunks E) as (packed & Hlen & _ & Ha & Hv & Hk & _ & Hc).
  split; [|split; [|split]].
  - by apply (split_assets_flat report max_bytes chunks E).
  - by apply (split_assets_flat report max_bytes chunks E).
  - apply NoDup_alt. intros i j id Hi Hj. rewrite list_lookup_fmap in Hi, Hj.
    destruct (chunks !! i) as [ci|] eqn:Ei; [|done]. destruct (chunks !! j) as [cj|] eqn:Ej; [|done].
    cbn in Hi, Hj. injection Hi as <-. injection Hj as Hj.
    rewrite (report_ids report max_bytes chunks E i ci Ei), (report_ids report max_bytes chunks E j cj Ej) in Hj.
    apply chunk_id_inj in Hj; lia.
  - intros i chunk Hi. pose proof (report_ids report max_bytes chunks E i chunk Hi) as Hid.
    destruct (Hc i chunk Hi) as (c & Hpc & Hch & Hb & Hl).
    rewrite Forall_forall in Hk. destruct (Hk c ltac:(by eapply list_elem_of_lookup_2)) as [K1 K2].
    split; [done|]. split; [by rewrite Hch|]. split; [by rewrite Hch|]. split; [done|]. split; [by rewrite Hch|]. split; [done|].
    rewrite Hch. cbn. intros runs run Hruns Hrun. destruct (ar_detector_runs report) as [rs|]; [|done]. injection Hruns as <-.
    apply list_elem_of_fmap in Hrun as (r & -> & _). done.
Qed.

(** ** Splitting succeeds *)

(** Characters that JSON writes as themselves, in one byte. *)
Definition plain_char (c : N) : Prop := (32 <= c < 127)%N /\ c <> 34%N /\ c <> 92%N.

Lemma hex_plain s : Forall (fun c => hex_c c = true) s -> Forall plain_char s.
Proof.
  intros H. eapply Forall_impl; [exact H|]. intros c. unfold hex_c, between, plain_char. rewrite !orb_true_iff, !andb_true_iff, !N.leb_le. lia.
Qed.

Lemma sha256_hex_plain s : Forall plain_char (sha256_hex s).
Proof.
  apply hex_plain. unfold sha256_hex, hexdigest. induction (sha256_words (utf8 s)) as [|w ws IH]; [constructor|].
  cbn [map concat]. apply Forall_app. split; [apply hex_word_hex|done].
Qed.

Lemma dec_plain n : Forall plain_char (dec n).
Proof.
  eapply Forall_impl; [apply dec_digits|]. intros c. unfold ascii_digit, between, plain_char.
  rewrite andb_true_iff, !N.leb_le. lia.
Qed.

Lemma u_plain s : forallb (fun c => (32 <=? c) && (c <? 127) && negb (c =? 34) && negb (c =? 92))%N (u s) = true ->
  Forall plain_char (u s).
Proof.
  intros H. apply Forall_forall. intros c Hc. rewrite forallb_forall in H. apply list_elem_of_In, H in Hc.
  unfold plain_char. rewrite !andb_true_iff, !negb_true_iff, N.leb_le, N.ltb_lt, !N.eqb_neq in Hc. tauto.
Qed.

Lemma root_of_plain id : Forall plain_char id -> Forall plain_char (lineage_root_of id).
Proof.
  intros Hid. unfold lineage_root_of. destruct (_ <=? _)%nat; [done|]. apply Forall_app. split; [by apply Forall_take|].
  apply Forall_app. split; [by apply u_plain|apply sha256_hex_plain].
Qed.

Lemma chunk_id_plain root t i : Forall plain_char root -> Forall plain_char (chunk_id root t i).
Proof.
  intros Hr. unfold chunk_id, numbered. destruct (i =? 1)%N; [done|].
  repeat (apply Forall_app; split); try (by apply u_plain); try apply dec_plain. done.
Qed.

Lemma findings_app d l k : findings_of d (l ++ k) = findings_of d l + findings_of d k.
Proof. unfold findings_of. rewrite filter_app, length_app. lia. Qed.

Lemma findings_part {A} d (packed : list (list A * list vulnerability)) c : c ∈ packed ->
  0 <= findings_of d c.2 <= findings_of d (packed ≫= snd).
Proof.
  intros (l1 & l2 & ->)%list_elem_of_split. rewrite bind_app. cbn. rewrite !findings_app.
  unfold findings_of. lia.
Qed.

Lemma used_length {A} (packed : list (list A * list vulnerability)) : Forall (fun c => report_used c = true) packed ->
  (length packed <= length (packed ≫= fst) + length (packed ≫= snd))%nat.
Proof.
  induction 1 as [|[l k] packed Hc H IH]; [cbn; lia|]. cbn. rewrite !length_app.
  destruct l; [destruct k; [done|]|]; cbn; lia.
Qed.

(** Splitting always succeeds on a report whose items fit one by one: if its
    identifier is plain text, each detector run declares at least the findings
    there are, and every item fits into an otherwise empty envelope, the chunks
    are built and no internal check fails. *)
Theorem split_report_total {H A : Type} `{!ReportWire H A} (report : AssetReport H A) max_bytes :
  (forall id, (length id <= 256)%nat -> Forall plain_char id -> wr_id id <= wr_id sizing_id) ->
  (forall runs runs', Forall2 (fun a b => run_detector a = run_detector b /\ run_status a = run_status b /\
       run_reason a = run_reason b /\ 0 <= run_finding_count a <= run_finding_count b) runs runs' ->
     wr_runs (Some runs) <= wr_runs (Some runs')) ->
  Forall plain_char (ar_report_id report) -> (length (ar_report_id report) <= 256)%nat ->
  (length (default [] (ar_detector_runs report)) <= 32)%nat ->
  (forall runs run, ar_detector_runs report = Some runs -> run ∈ runs ->
     findings_of (run_detector run) (ar_vulnerabilities report) <= run_finding_count run) ->
  0 < max_bytes -> report_empty report <= max_bytes ->
  (forall a, a ∈ ar_assets report -> report_empty report + wr_asset a <= max_bytes) ->
  (forall v, v ∈ ar_vulnerabilities report -> report_empty report + wr_vulnerability v <= max_bytes) ->
  Z.of_nat (length (ar_assets report)) + Z.of_nat (length (ar_vulnerabilities report)) < 10 ^ 13 ->
  exists chunks, split_asset_report report max_bytes = Ok chunks.
Proof.
  intros Hid Hruns Hplain Hlen H32 Hdeclared Hmax He Hassets Hvulns Hmany. unfold split_asset_report.
  rewrite (proj2 (Z.leb_gt _ _)) by done. fold (report_empty report). rewrite (proj2 (Z.ltb_ge _ _)) by done.
  cbn [raise_if mbind res_bind]. pose proof (pack_report report max_bytes Hmax He) as Hp.
  destruct (add _ _ _ _ asset_stream _ _) as [p1|e]; cbn [mbind res_bind] in *;
    [|destruct Hp as [_ [(a & Ha & Hlt)|(v & Hv & Hlt)]]; [specialize (Hassets a Ha)|specialize (Hvulns v Hv)]; lia].
  destruct (add _ _ _ _ vulnerability_stream _ _) as [p2|e]; cbn [mbind res_bind] in *;
    [|destruct Hp as [_ [(a & Ha & Hlt)|(v & Hv & Hlt)]]; [specialize (Hassets a Ha)|specialize (Hvulns v Hv)]; lia].
  cbn zeta in Hp. set (packed := finish ([], []) report_used (report_empty report) p2) in *.
  destruct Hp as (Hne & Ea & Ev & Hg & Hu).
  set (root := if (1 <? N.of_nat (length packed))%N then lineage_root_of (ar_report_id report) else ar_report_id report).
  assert (Htotal : (N.of_nat (length packed) < 10 ^ 14)%N).
  { destruct (decide (1 < length packed)%nat) as [Hl|Hl]; [|lia]. pose proof (used_length packed (Hu Hl)) as Hub.
    rewrite Ea, Ev in Hub. lia. }
  apply build_chunks_total. intros i c Hc. pose proof (lookup_lt_Some _ _ _ Hc) as Hi.
  rewrite Forall_forall in Hg. destruct (Hg c ltac:(by eapply list_elem_of_lookup_2)) as [Hfit [K1 K2]].
  unfold build_report. set (index := (1 + N.of_nat i)%N).
  assert (Hroot : (length (chunk_id root (N.of_nat (length packed)) index) <= 256)%nat).
  { unfold root. destruct (N.ltb_spec 1 (N.of_nat (length packed))).
    - apply chunk_id_length; [apply lineage_root_length|lia|lia].
    - unfold index. replace (1 + N.of_nat i)%N with 1%N by lia. exact Hlen. }
  assert (Eid : (if (index =? 1)%N then Ok root else lineage_child root (u "chunk") index (N.of_nat (length packed)))
    = Ok (chunk_id root (N.of_nat (length packed)) index)).
  { unfold chunk_id, lineage_child in *. destruct (index =? 1)%N; [done|]. rewrite (proj2 (Nat.ltb_ge _ _)); [done|exact Hroot]. }
  rewrite Eid. cbn [mbind res_bind]. unfold validate_report. cbn [ar_report_id ar_assets ar_vulnerabilities ar_detector_runs].
  unfold within. unfold MAX_ENVELOPE_ITEMS in *.
  rewrite (proj2 (Nat.leb_le _ 256)) by done. rewrite !(proj2 (Nat.leb_le _ 4096)) by lia.
  rewrite (proj2 (Nat.leb_le _ 32)) by (destruct (ar_detector_runs report); cbn in *; rewrite ?length_fmap; lia).
  cbn [andb mbind res_bind]. rewrite wr_compact.
  cbn [ar_header ar_report_id ar_assets ar_vulnerabilities ar_detector_runs].
  rewrite (proj2 (Z.ltb_ge _ _)); [by eexists|].
  unfold report_empty, report_content in Hfit. rewrite wr_compact in Hfit.
  cbn [ar_header ar_report_id ar_assets ar_vulnerabilities ar_detector_runs] in Hfit.
  change (array_content (wr_asset <$> [])) with 0 in Hfit. change (array_content (wr_vulnerability <$> [])) with 0 in Hfit.
  assert (Hi1 : wr_id (chunk_id root (N.of_nat (length packed)) index) <= wr_id sizing_id).
  { apply Hid; [done|]. apply chunk_id_plain. unfold root. destruct (_ <? _)%N; [by apply root_of_plain|done]. }
  assert (Hr1 : wr_runs (match ar_detector_runs report with Some runs => Some (recount c.2 <$> runs) | None => None end)
    <= wr_runs (ar_detector_runs report)).
  { destruct (ar_detector_runs report) as [runs|] eqn:Er; [|lia]. apply Hruns. apply Forall2_fmap_l, Forall_Forall2_diag, Forall_forall.
    intros run Hrun. cbn. split; [done|]. split; [done|]. split; [done|]. specialize (Hdeclared runs run eq_refl Hrun).
    rewrite <-Ev in Hdeclared. pose proof (findings_part (run_detector run) packed c ltac:(by eapply list_elem_of_lookup_2)). lia. }
  lia.
Qed.

(** ** Trace batches *)
Section Batches.
Context {H E F P : Type} `{!BatchWire H E F P}.

Definition batch_content (c : list E * list F * list P) : Z :=
  array_content (bw_event <$> c.1.1) + array_content (bw_file_event <$> c.1.2) + array_content (bw_process_event <$> c.2).
Definition batch_counts (c : list E * list F * list P) : Prop :=
  Z.of_nat (length c.1.1) <= MAX_ENVELOPE_ITEMS /\ Z.of_nat (length c.1.2) <= MAX_ENVELOPE_ITEMS /\
  Z.of_nat (length c.2) <= MAX_ENVELOPE_ITEMS.

Ltac stream_lawful :=
  split; cbn; try done;
  [ by intros x [[[|] [|]] [|]]
  | intros x [[l k] q]; unfold batch_content; cbn; rewrite fmap_app; csimpl; rewrite array_content_snoc, length_fmap; lia
  | intros x [[l k] q] (K1 & K2 & K3) Hl; cbn in *; split_and!; cbn; rewrite ?length_app; cbn; lia ].

Lemma event_lawful : lawful ([], [], []) batch_used batch_content batch_counts event_stream.
Proof. stream_lawful. Qed.
Lemma file_lawful : lawful ([], [], []) batch_used batch_content batch_counts file_stream.
Proof. stream_lawful. Qed.
Lemma process_lawful : lawful ([], [], []) batch_used batch_content batch_counts process_stream.
Proof. stream_lawful. Qed.

Lemma batch_unused (c : list E * list F * list P) : batch_used c = false -> c = ([], [], []).
Proof. by destruct c as [[[|] [|]] [|]]. Qed.

(** The empty envelope that sizes a batch. *)
Definition batch_empty (batch : TraceBatch H E F P) : Z := bw_encoded (mkBatch sizing_id (tb_header batch) [] [] []).

Lemma pack_batch (batch : TraceBatch H E F P) max_bytes p1 p2 p3 :
  let empty := ([], [], []) in let eb := batch_empty batch in eb <= max_bytes ->
  add empty batch_used max_bytes eb event_stream (tb_events batch) (start_packing empty eb) = Ok p1 ->
  add empty batch_used max_bytes eb file_stream (tb_file_events batch) p1 = Ok p2 ->
  add empty batch_used max_bytes eb process_stream (tb_process_events batch) p2 = Ok p3 ->
  let packed := finish empty batch_used eb p3 in
  packed <> [] /\ (packed ≫= fun c => c.1.1) = tb_events batch /\ (packed ≫= fun c => c.1.2) = tb_file_events batch /\
  (packed ≫= snd) = tb_process_events batch /\ Forall batch_counts packed.
Proof.
  intros empty eb He E1 E2 E3.
  assert (C0 : batch_content empty = 0) by done.
  assert (K0 : batch_counts empty) by (unfold batch_counts, MAX_ENVELOPE_ITEMS; cbn; lia).
  pose proof (start_packing_ok empty batch_used max_bytes eb batch_content batch_counts C0 K0 He) as Hs.
  pose proof (add_ok empty batch_used max_bytes eb batch_content batch_counts C0 K0 batch_unused
    event_stream (tb_events batch) _ event_lawful Hs He) as H1. rewrite E1 in H1. destruct H1 as (O1 & G1 & V1).
  pose proof (add_ok empty batch_used max_bytes eb batch_content batch_counts C0 K0 batch_unused
    file_stream (tb_file_events batch) _ file_lawful O1 He) as H2. rewrite E2 in H2. destruct H2 as (O2 & G2 & V2).
  pose proof (add_ok empty batch_used max_bytes eb batch_content batch_counts C0 K0 batch_unused
    process_stream (tb_process_events batch) _ process_lawful O2 He) as H3. rewrite E3 in H3. destruct H3 as (O3 & G3 & V3).
  destruct (finish_ok empty batch_used max_bytes eb batch_content batch_counts C0 K0 batch_unused p3 O3 He)
    as (F1 & F2 & F3 & F4). cbn zeta. split; [done|]. split; [|split; [|split]].
  - rewrite F4 by done. rewrite V3 by done. rewrite V2 by done. by rewrite (G1 : gathered (fun c => c.1.1) p1 = _).
  - rewrite F4 by done. rewrite V3 by done. rewrite (G2 : gathered (fun c => c.1.2) p2 = _). by rewrite V1 by done.
  - rewrite F4 by done. rewrite (G3 : gathered snd p3 = _). rewrite V2 by done. by rewrite V1 by done.
  - eapply Forall_impl; [exact F2|]. by intros c [_ ?].
Qed.

Lemma build_batch_inv batch max_bytes root total index c chunk :
  build_batch batch max_bytes root total index c = Ok chunk ->
  chunk = mkBatch (chunk_id root total index) (tb_header batch) c.1.1 c.1.2 c.2 /\
  bw_encoded chunk <= max_bytes /\ (length (tb_batch_id chunk) <= 256)%nat.
Proof.
  intros E1. unfold build_batch in E1. apply bind_Ok_inv in E1 as (id & Eid & E1).
  apply bind_Ok_inv in E1 as (ch & Ev & E1). unfold validate_batch in Ev.
  destruct (_ && _ && _ && _) eqn:Ew; [|done]. injection Ev as <-.
  destruct (_ <? _) eqn:Eb; [done|]. injection E1 as <-. apply Z.ltb_ge in Eb.
  repeat (apply andb_true_iff in Ew as [Ew ?]). apply Nat.leb_le in Ew. split; [|done].
  unfold chunk_id. destruct (index =? 1)%N; [by injection Eid as ->|].
  unfold lineage_child in Eid. destruct (_ <? _)%nat; [done|]. by injection Eid as <-.
Qed.

(** The split of a batch, chunk by chunk. *)
Lemma split_batch_chunks batch max_bytes chunks : split_trace_batch batch max_bytes = Ok chunks ->
  exists packed, length packed = length chunks /\ chunks <> [] /\
    (packed ≫= fun c => c.1.1) = tb_events batch /\ (packed ≫= fun c => c.1.2) = tb_file_events batch /\
    (packed ≫= snd) = tb_process_events batch /\ Forall batch_counts packed /\
    forall i chunk, chunks !! i = Some chunk -> exists c, packed !! i = Some c /\
      chunk = mkBatch (chunk_id (split_root (tb_batch_id batch) chunks) (N.of_nat (length chunks)) (N.of_nat i + 1))
                (tb_header batch) c.1.1 c.1.2 c.2 /\
      bw_encoded chunk <= max_bytes /\ (length (tb_batch_id chunk) <= 256)%nat.
Proof.
  intros E0. unfold split_trace_batch in E0. apply bind_Ok_inv in E0 as (? & E1 & E0). apply raise_if_Ok_inv, Z.leb_gt in E1.
  apply bind_Ok_inv in E0 as (? & E2 & E0). apply raise_if_Ok_inv, Z.ltb_ge in E2. fold (batch_empty batch) in *. cbn zeta in E0.
  apply bind_Ok_inv in E0 as (p1 & Ea & E0). apply bind_Ok_inv in E0 as (p2 & Eb & E0). apply bind_Ok_inv in E0 as (p3 & Ec & E0).
  destruct (pack_batch batch max_bytes p1 p2 p3 E2 Ea Eb Ec) as (Hne & H1 & H2 & H3 & H4).
  set (packed := finish ([], [], []) batch_used (batch_empty batch) p3) in *.
  apply build_chunks_ok in E0. pose proof (Forall2_length _ _ _ E0) as Hlen. rewrite length_imap in Hlen.
  exists packed. split; [done|]. split; [intros ->; by destruct packed|].
  split; [done|]. split; [done|]. split; [done|]. split; [done|].
  intros i chunk Hi. destruct (Forall2_lookup_r _ _ _ _ _ E0 Hi) as ([n c] & Hn & Hb).
  rewrite list_lookup_imap in Hn. destruct (packed !! i) as [c'|] eqn:Ecc; [|done]. cbn in Hn. injection Hn as <- <-.
  exists c'. split; [done|]. cbn [fst snd] in Hb. unfold split_root. rewrite <-Hlen.
  replace (N.of_nat i + 1)%N with (1 + N.of_nat i)%N by lia. by eapply build_batch_inv.
Qed.
End Batches.

(** Splitting a trace batch loses nothing: the chunks hold its network, file
    and process events, all of them and in order; each is within the byte and item
    limits and has the header of the batch, and their identifiers are distinct. *)
Theorem split_batch_lossless {H E F P : Type} `{!BatchWire H E F P} (batch : TraceBatch H E F P) max_bytes chunks :
  split_trace_batch batch max_bytes = Ok chunks ->
  (chunks ≫= tb_events) = tb_events batch /\ (chunks ≫= tb_file_events) = tb_file_events batch /\
  (chunks ≫= tb_process_events) = tb_process_events batch /\ NoDup (tb_batch_id <$> chunks) /\
  forall chunk, chunk ∈ chunks ->
    bw_encoded chunk <= max_bytes /\ Z.of_nat (length (tb_events chunk)) <= MAX_ENVELOPE_ITEMS /\
    Z.of_nat (length (tb_file_events chunk)) <= MAX_ENVELOPE_ITEMS /\
    Z.of_nat (length (tb_process_events chunk)) <= MAX_ENVELOPE_ITEMS /\
    (length (tb_batch_id chunk) <= 256)%nat /\ tb_header chunk = tb_header batch.
Proof.
  intros E0. destruct (split_batch_chunks batch max_bytes chunks E0) as (packed & Hlen & _ & H1 & H2 & H3 & Hk & Hc).
  split_and!.
  - rewrite <-H1. symmetry. apply bind_of; [done|]. intros i chunk Hi. destruct (Hc i chunk Hi) as (c & ? & -> & _). by exists c.
  - rewrite <-H2. symmetry. apply bind_of; [done|]. intros i chunk Hi. destruct (Hc i chunk Hi) as (c & ? & -> & _). by exists c.
  - rewrite <-H3. symmetry. apply bind_of; [done|]. intros i chunk Hi. destruct (Hc i chunk Hi) as (c & ? & -> & _). by exists c.
  - apply NoDup_alt. intros i j id Hi Hj. rewrite list_lookup_fmap in Hi, Hj.
    destruct (chunks !! i) as [ci|] eqn:Ei; [|done]. destruct (chunks !! j) as [cj|] eqn:Ej; [|done].
    cbn in Hi, Hj. injection Hi as <-. injection Hj as Hj.
    destruct (Hc i ci Ei) as (? & _ & Ei' & _). destruct (Hc j cj Ej) as (? & _ & Ej' & _).
    rewrite Ei', Ej' in Hj. cbn [tb_batch_id] in Hj. apply chunk_id_inj in Hj; lia.
  - intros chunk [i Hi]%list_elem_of_lookup. destruct (Hc i chunk Hi) as (c & Hpc & Hch & Hb & Hl).
    rewrite Forall_forall in Hk. destruct (Hk c ltac:(by eapply list_elem_of_lookup_2)) as (K1 & K2 & K3).
    split; [done|]. rewrite Hch in Hl |- *. done.
Qed.

(** ** Threat matches *)

Lemma slices_concat {M} (n : nat) : forall (matches : list M) index, (length matches <= (index + n) * MAX_THREAT_MATCHES)%nat ->
  concat (matches_slice matches <$> seq index n) = drop (index * MAX_THREAT_MATCHES) matches.
Proof.
  induction n as [|n IH]; intros matches index Hl; cbn [seq fmap list_fmap concat].
  - rewrite drop_ge; [done|]. rewrite Nat.add_0_r in Hl. done.
  - rewrite IH by lia. unfold matches_slice.
    replace (S index * MAX_THREAT_MATCHES)%nat with (index * MAX_THREAT_MATCHES + MAX_THREAT_MATCHES)%nat by lia.
    rewrite <-drop_drop. apply take_drop.
Qed.

(** Expanding a raw event keeps every threat match: the children hold at most
    64 matches each and all of them, in order, together. *)
Theorem expansion_keeps_matches {X M E : Type} (validate : str -> list M -> X -> res E) (matches_of : E -> list M)
    trace_id matches rest events :
  (forall id ms x e, validate id ms x = Ok e -> matches_of e = ms) ->
  expand_threat_matches validate trace_id matches rest = Ok events ->
  (events ≫= matches_of) = matches /\ events <> [] /\
  forall e, e ∈ events -> (length (matches_of e) <= MAX_THREAT_MATCHES)%nat.
Proof.
  intros Hval E0. unfold expand_threat_matches in E0. set (total := expansion_total matches) in E0.
  assert (Hshape : forall n index evs, expand_from validate n index trace_id matches rest total = Ok evs ->
    matches_of <$> evs = matches_slice matches <$> seq index n).
  { induction n as [|n IH]; intros index evs Ev; cbn in Ev; inv_ok; subst; [done|]. cbn. f_equal; [by eapply Hval|].
    rewrite Nat.add_1_r in *. by apply IH. }
  specialize (Hshape _ _ _ E0).
  assert (Hb : forall l : list E, l ≫= matches_of = concat (matches_of <$> l)).
  { intros l. induction l as [|e l IH]; [done|]. cbn. by rewrite IH. }
  assert (Ht : (1 <= total)%nat /\ (length matches <= total * MAX_THREAT_MATCHES)%nat).
  { unfold total, expansion_total, MAX_THREAT_MATCHES. split; [lia|].
    pose proof (Nat.div_mod (length matches + 64 - 1) 64 ltac:(lia)) as Hdm.
    pose proof (Nat.mod_upper_bound (length matches + 64 - 1) 64 ltac:(lia)) as Hmb.
    set (q := ((length matches + 64 - 1) / 64)%nat) in *. lia. }
  split; [|split].
  - rewrite Hb, Hshape. rewrite slices_concat by lia. by rewrite drop_0.
  - intros ->. destruct total; [lia|]. cbn in Hshape. done.
  - intros e He. assert (Hm : matches_of e ∈ matches_of <$> events) by (apply list_elem_of_fmap; by exists e).
    rewrite Hshape in Hm. apply list_elem_of_fmap in Hm as (i & -> & _). unfold matches_slice. rewrite length_take. lia.
Qed.

(** ** A small wire format *)

Lemma digits_value_bound {U : Unicode} s : forall acc n, Forall (fun c => ascii_digit c = true) s -> digits_value acc s = Some n ->
  (n < (acc + 1) * 10 ^ N.of_nat (length s))%N.
Proof.
  induction s as [|c s IH]; intros acc n Hd E; [injection E as <-; cbn; lia|].
  apply Forall_cons_1 in Hd as [Hc Hd]. cbn [digits_value] in E.
  assert (Hdec : exists d, (d < 10)%N /\ decimal_c c = Some d).
  { unfold ascii_digit, between in Hc. rewrite andb_true_iff, !N.leb_le in Hc. exists (c - 48)%N. split; [lia|].
    rewrite <-(decimal_digit (c - 48)) by lia. f_equal. lia. }
  destruct Hdec as (d & Hlt & Ed). rewrite Ed in E. cbn [mbind option_bind] in E. apply IH in E; [|done].
  cbn [length]. rewrite Nat2N.inj_succ, N.pow_succ_r'. eapply N.lt_le_trans; [exact E|].
  replace ((acc + 1) * (10 * 10 ^ N.of_nat (length s)))%N with ((10 * (acc + 1)) * 10 ^ N.of_nat (length s))%N by lia.
  apply N.mul_le_mono_r. lia.
Qed.

Lemma dec_length_mono m n : (m <= n)%N -> (length (dec m) <= length (dec n))%nat.
Proof.
  intros Hle. destruct (dec_spec (U := latin1_only) n) as (Hne & _ & Hv). apply digits_value_bound in Hv; [|apply dec_digits].
  destruct (length (dec n)) as [|k] eqn:E; [by destruct (dec n)|]. apply dec_length. lia.
Qed.

Module Example_wire.
(** An asset is its size, a finding as large as its id; numbers and identifiers
    are as JSON writes them. *)
Definition run_size (r : detector_run) : Z := 30 + Z.of_nat (length (dec (Z.to_N (run_finding_count r)))).
Definition runs_size (runs : option (list detector_run)) : Z :=
  match runs with None => 4 | Some l => 2 + foldr Z.add 0 (run_size <$> l) end.
Definition id_size (id : str) : Z := 2 + Z.of_nat (length (utf8 id)).
Definition asset_size (a : Z) : Z := 1 + Z.abs a.
Definition finding_size (v : vulnerability) : Z := 1 + Z.of_nat (length (vu_id v)).

#[export, program] Instance wire : ReportWire unit Z := {|
  wr_header _ := 50;
  wr_id := id_size;
  wr_asset := asset_size;
  wr_vulnerability := finding_size;
  wr_runs := runs_size;
  wr_encoded r := 50 + id_size (ar_report_id r) + array_content (asset_size <$> ar_assets r)
    + array_content (finding_size <$> ar_vulnerabilities r) + runs_size (ar_detector_runs r);
|}.
Next Obligation. unfold asset_size, finding_size. split; intros; lia. Qed.
Next Obligation. done. Qed.

Lemma plain_utf8 s : Forall plain_char s -> utf8 s = s.
Proof.
  induction 1 as [|c s Hc H IH]; [done|]. unfold utf8 in *. cbn [map concat]. rewrite IH.
  unfold utf8_c. rewrite (proj2 (N.ltb_lt _ _)); [done|]. unfold plain_char in Hc. lia.
Qed.

Lemma id_law id : (length id <= 256)%nat -> Forall plain_char id -> wr_id (H := unit) (A := Z) id <= wr_id (H := unit) (A := Z) sizing_id.
Proof.
  intros Hl Hp. change (id_size id <= id_size sizing_id). unfold id_size. rewrite (plain_utf8 id Hp). change (length (utf8 sizing_id)) with 256%nat. lia.
Qed.

Lemma runs_law runs runs' : Forall2 (fun a b => run_detector a = run_detector b /\ run_status a = run_status b /\
    run_reason a = run_reason b /\ 0 <= run_finding_count a <= run_finding_count b) runs runs' ->
  wr_runs (H := unit) (A := Z) (Some runs) <= wr_runs (H := unit) (A := Z) (Some runs').
Proof.
  intros F. change (runs_size (Some runs) <= runs_size (Some runs')). unfold runs_size. assert (H : foldr Z.add 0 (run_size <$> runs) <= foldr Z.add 0 (run_size <$> runs')); [|lia].
  induction F as [|a b l k (_ & _ & _ & Hc) F IH]; [done|]. csimpl. unfold run_size at 1 3.
  pose proof (dec_length_mono (Z.to_N (run_finding_count a)) (Z.to_N (run_finding_count b)) ltac:(lia)). lia.
Qed.

Definition posture (id : String.string) : vulnerability := mkVuln (u id) Severity.LOW None (u "h") None (u "posture") None [].
Definition report : AssetReport unit Z := mkReport (u "r") () [300; 200; 100] [posture "p1"; posture "p2"]
  (Some [mkRun POSTURE C_COMPLETE 2 None]).

(** Ten findings declared as none. *)
Definition undercounted : AssetReport unit Z := mkReport (repeat 97%N 256) () []
  (posture <$> ["a"; "b"; "c"; "d"; "e"; "f"; "g"; "h"; "i"; "j"])%string (Some [mkRun POSTURE C_COMPLETE 0 None]).
End Example_wire.
Import Example_wire.

(** The example report goes out in two chunks. *)
Lemma split_report_lossless_witness : exists chunks, split_asset_report report 900 = Ok chunks /\ length chunks = 2%nat /\
  (chunks ≫= ar_assets) = [300; 200; 100].
Proof.
  destruct (split_asset_report report 900) as [chunks|e] eqn:E; [|by vm_compute in E].
  exists chunks. split; [reflexivity|]. split; [vm_compute in E; injection E as <-; reflexivity|].
  exact (proj1 (split_report_lossless report 900 chunks E)).
Defined.

Lemma split_report_total_witness : exists chunks, split_asset_report report 900 = Ok chunks.
Proof.
  apply (split_report_total report 900); try exact id_law; try exact runs_law.
  - by apply u_plain.
  - cbn. lia.
  - cbn. lia.
  - intros runs run [= <-] ->%list_elem_of_singleton. vm_compute. discriminate.
  - lia.
  - vm_compute. discriminate.
  - intros a Ha. cbn in Ha. repeat (apply elem_of_cons in Ha as [->|Ha]; [vm_compute; discriminate|]). by apply not_elem_of_nil in Ha.
  - intros v Hv. cbn in Hv. repeat (apply elem_of_cons in Hv as [->|Hv]; [vm_compute; discriminate|]). by apply not_elem_of_nil in Hv.
  - cbn. lia.
Defined.

(** An internal check of the splitter fails on valid input: the empty envelope
    is sized with the declared finding counts, but a chunk carries its own.  A
    report whose run declares no findings and has ten, every one of which fits, is
    refused with [RuntimeError] when they fill the envelope. *)
Theorem undercounted_report_refused :
  validate_report undercounted = Ok undercounted /\
  (forall v, v ∈ ar_vulnerabilities undercounted -> report_empty undercounted + wr_vulnerability v <= 370) /\
  split_asset_report undercounted 370 = Raise RuntimeError.
Proof.
  split; [vm_compute; reflexivity|]. split; [|vm_compute; reflexivity].
  intros v Hv. cbn in Hv. repeat (apply elem_of_cons in Hv as [->|Hv]; [vm_compute; discriminate|]). by apply not_elem_of_nil in Hv.
Qed.

Module Example_batch.
(** An event is its size. *)
#[export, program] Instance batch_wire : BatchWire unit Z Z Z := {|
  bw_header _ := 50;
  bw_id := id_size;
  bw_event := asset_size;
  bw_file_event := asset_size;
  bw_process_event := asset_size;
  bw_encoded b := 50 + id_size (tb_batch_id b) + array_content (asset_size <$> tb_events b)
    + array_content (asset_size <$> tb_file_events b) + array_content (asset_size <$> tb_process_events b);
|}.
Next Obligation. unfold asset_size. split_and!; intros; lia. Qed.
Next Obligation. done. Qed.

Definition batch : TraceBatch unit Z Z Z := mkBatch (u "b") () [200; 200] [150] [150; 100].

(** An event with its matches; validation limits their number. *)
Definition accept (id : str) (matches : list nat) (rest : unit) : res (str * list nat) :=
  if (length matches <=? 64)%nat then Ok (id, matches) else Raise ValueError.
End Example_batch.
Import Example_batch.

Lemma split_batch_lossless_witness : exists chunks, split_trace_batch batch 800 = Ok chunks /\ length chunks = 2%nat /\
  (chunks ≫= tb_process_events) = [150; 100].
Proof.
  destruct (split_trace_batch batch 800) as [chunks|e] eqn:E; [|by vm_compute in E].
  exists chunks. split; [reflexivity|]. split; [vm_compute in E; injection E as <-; reflexivity|].
  exact (proj1 (proj2 (proj2 (split_batch_lossless batch 800 chunks E)))).
Defined.

(** A hundred matches make two events. *)
Lemma expansion_keeps_matches_witness : exists events, expand_threat_matches accept (u "t") (seq 0 100) () = Ok events /\
  length events = 2%nat /\ (events ≫= snd) = seq 0 100.
Proof.
  destruct (expand_threat_matches accept (u "t") (seq 0 100) ()) as [events|e] eqn:E; [|by vm_compute in E].
  exists events. split; [reflexivity|]. split; [vm_compute in E; injection E as <-; reflexivity|].
  refine (proj1 (expansion_keeps_matches accept snd (u "t") (seq 0 100) () events _ E)).
  intros id ms x e H. unfold accept in H. destruct (_ <=? _)%nat; [by injection H as <-|done].
Defined.
