(* ===== verification/AnalyzerClient.v ===== *)
(** * The form's client of the analyzer ([analyzer_client.py], [derived_reconciler.py])

    Paths are checked before a request is made; envelopes are posted in chunks and the
    answers read and put together; a reconciler asks for what was still pending.

    The analyzer behind the network is a state [A] with [request]: [None] is a
    connection that fails.  [unquote] is Python's, with the decoder it uses. *)

From stdpp Require Import base gmap strings list numbers.
From Stdlib Require Import ZArith Lia.
From S2P Require Import Prelude PyText Acts PyHash PyFloat PyJson ScanSchemas JobStore Severity Osv Detect Coverage Chunks.

#[local] Open Scope Z_scope.

(** ** [urllib.parse.unquote] *)
Section Unquote.
#[local] Open Scope N_scope.

Definition continues (b : N) : bool := PyText.between 128 b 191.

(** The second byte of a character of three or four bytes *)
Definition second_byte (first b : N) : bool :=
  if first =? 224 then PyText.between 160 b 191
  else if first =? 237 then PyText.between 128 b 159
  else if first =? 240 then PyText.between 144 b 191
  else if first =? 244 then PyText.between 128 b 143
  else continues b.

Definition replacement : N := 65533.

(** [bytes.decode("utf-8", "replace")]: the longest start of a character that is not
    completed becomes one replacement character. *)
Fixpoint decode_replace (bytes : list N) : str :=
  match bytes with
  | [] => []
  | b :: rest =>
      if b <? 128 then b :: decode_replace rest
      else
        match rest with
        | [] => [replacement]
        | c :: rest2 =>
            if PyText.between 194 b 223 then
              if continues c then (b - 192) * 64 + (c - 128) :: decode_replace rest2 else replacement :: decode_replace rest
            else if PyText.between 224 b 244 && second_byte b c then
              match rest2 with
              | [] => [replacement]
              | d :: rest3 =>
                  if negb (continues d) then replacement :: decode_replace rest2
                  else if b <=? 239 then (b - 224) * 4096 + (c - 128) * 64 + (d - 128) :: decode_replace rest3
                  else
                    match rest3 with
                    | [] => [replacement]
                    | e :: rest4 =>
                        if continues e
                        then (b - 240) * 262144 + (c - 128) * 4096 + (d - 128) * 64 + (e - 128) :: decode_replace rest4
                        else replacement :: decode_replace rest3
                    end
              end
            else replacement :: decode_replace rest
        end
  end.

Definition hex_digit (c : N) : option N :=
  if PyText.between 48 c 57 then Some (c - 48)
  else if PyText.between 65 c 70 then Some (c - 55)
  else if PyText.between 97 c 102 then Some (c - 87)
  else None.

(** [unquote_to_bytes] *)
Fixpoint percent_bytes (s : str) : list N :=
  match s with
  | [] => []
  | c :: s1 =>
      match s1 with
      | a :: b :: s2 =>
          match hex_digit a, hex_digit b with
          | Some h, Some l => if c =? 37 then 16 * h + l :: percent_bytes s2 else c :: percent_bytes s1
          | _, _ => c :: percent_bytes s1
          end
      | _ => c :: percent_bytes s1
      end
  end.

(** A run of ASCII characters, reversed, and the rest: a run is decoded on its own. *)
Fixpoint unquote_from (run : str) (s : str) : str :=
  match s with
  | [] => decode_replace (percent_bytes (rev run))
  | c :: s => if c <? 128 then unquote_from (c :: run) s else decode_replace (percent_bytes (rev run)) ++ c :: unquote_from [] s
  end.

Definition unquote (s : str) : str := unquote_from [] s.
End Unquote.

(** ** Paths *)

(** The loop of [_validate_upstream_path] *)
Fixpoint decoded (rounds : nat) (path : str) : str :=
  match rounds with
  | O => path
  | S rounds => let next := unquote path in if bool_decide (next = path) then path else decoded rounds next
  end.

Definition dot_segment (s : str) : bool := bool_decide (s ∈ [u "."; u ".."]).
Definition forbidden_char (c : N) : bool := ((c <? 32) || (c =? 92))%N.

(** [_validate_upstream_path] *)
Definition validate_upstream_path (path : str) : res unit :=
  _ ← raise_if (negb (startswith (u "/") path) || startswith (u "//") path
                || match PyText.partition (u "//") path with Some _ => true | None => false end) ValueError;
  let plain := decoded 4 path in
  _ ← raise_if (existsb forbidden_char plain) ValueError;
  raise_if (existsb dot_segment (split_on 47 plain)) ValueError.

(** ** Ingest *)

(** A response: its status and [response.json()] *)
Record answer := mkAnswer { an_status_code : Z; an_json : res json }.

(** What is attached to the response of one envelope *)
Record extensions := mkExtensions {
  ex_derived_status : option str;
  ex_derived_reason : option str;
  ex_derived_records : Z;
  ex_derived_truncated : bool;
}.

(** The reading of the acknowledgement; a list or an object is no element of a set to
    Python, which raises. *)
Definition read_ack (r : answer) : res extensions :=
  ack ← match an_json r with Raise (ValueError | JSONDecodeError) => Ok JNull | j => j end;
  match ack with
  | JObject fields =>
      status ← match get_value (u "derived_status") fields with
               | JString s => Ok (if bool_decide (s ∈ [u "pending"; u "complete"; u "partial"; u "failed"]) then Some s else None)
               | JArray _ | JObject _ => Raise TypeError
               | _ => Ok None
               end;
      Ok (mkExtensions status
            (match get_value (u "derived_reason") fields with JString s => Some s | _ => None end)
            (match get_value (u "derived_records") fields with
             | JInt n => if 0 <=? n then n else 0
             | JBool b => if b then 1 else 0
             | _ => 0
             end)
            (match get_value (u "derived_truncated") fields with JBool b => b | _ => false end))
  | _ => Ok (mkExtensions None None 0 false)
  end.

(** What is attached to the response of a logical envelope *)
Record ingest_outcome := mkIngested {
  io_lineage_id : str;
  io_derived_status : option str;
  io_derived_reasons : list str;
  io_derived_records : Z;
  io_derived_truncated : bool;
}.

Definition status_rank (s : str) : Z :=
  if bool_decide (s = u "complete") then 0 else if bool_decide (s = u "partial") then 1 else if bool_decide (s = u "pending") then 2 else 3.

(** [max(statuses, key=rank.__getitem__)]: the first of the greatest *)
Definition worst_status (statuses : list str) : option str :=
  match statuses with
  | [] => None
  | s :: rest => Some (fold_left (fun worst s => if status_rank worst <? status_rank s then s else worst) rest s)
  end.

(** The texts that are there and not empty *)
Definition present (texts : list (option str)) : list str := omap (fun t => match t with Some ((_ :: _) as s) => Some s | _ => None end) texts.

(** [_set_aggregate_derived_outcome], on the lists the loop has collected *)
Definition aggregate_outcome (lineage_id : str) (answers : list extensions) : ingest_outcome :=
  mkIngested lineage_id
    (worst_status (present (ex_derived_status <$> answers)))
    (fst <$> fold_left (fun d r => od_set r tt d) (present (ex_derived_reason <$> answers)) [])
    (foldr Z.add 0 (ex_derived_records <$> answers))
    (existsb ex_derived_truncated answers).

Section Ingest.
Context {A E : Type} (request : str -> E -> act A (option answer)).

(** [ingest] *)
Definition ingest (path : str) (payload : E) : act A extensions :=
  _ <~ act_lift (validate_upstream_path path) ;;
  response <~ request path payload ;;
  match response with
  | None => act_lift (Raise (AnalyzerUpstreamError None))
  | Some r =>
      if negb (an_status_code r =? 202) then act_lift (Raise (AnalyzerUpstreamError (Some (an_status_code r))))
      else
        derived <~ act_lift (read_ack r) ;;
        if bool_decide (ex_derived_status derived = Some (u "failed")) then act_lift (Raise (AnalyzerUpstreamError (Some 503)))
        else act_ret derived
  end.

(** The loop over the chunks of an envelope *)
Definition ingest_chunks (path : str) (id_of : E -> str) (chunks : list E) : act A ingest_outcome :=
  answers <~ act_mapM (ingest path) chunks ;;
  match chunks with
  | [] => act_lift (Raise AssertionError)
  | first :: _ => act_ret (aggregate_outcome (id_of first) answers)
  end.
End Ingest.

Section Envelopes.
Context {A H I E F P : Type} `{!ReportWire H I} `{!BatchWire H E F P}.

(** [ingest_asset_report] and [ingest_trace_batch] *)
Definition ingest_asset_report (request : str -> AssetReport H I -> act A (option answer)) (report : AssetReport H I) : act A ingest_outcome :=
  chunks <~ act_lift (split_asset_report report MAX_FORWARD_BODY_BYTES) ;;
  ingest_chunks request (u "/ingest/asset-report") ar_report_id chunks.

Definition ingest_trace_batch (request : str -> TraceBatch H E F P -> act A (option answer)) (batch : TraceBatch H E F P) : act A ingest_outcome :=
  chunks <~ act_lift (split_trace_batch batch MAX_FORWARD_BODY_BYTES) ;;
  ingest_chunks request (u "/ingest/trace-batch") tb_batch_id chunks.
End Envelopes.

(** ** Pending outcomes *)

(** [_Status] *)
Record derived_report := mkDerivedReport {
  st_state : DerivedState;
  st_attempts : Z;
  st_derived_records : Z;
  st_derived_truncated : bool;
  st_derived_reason : option str;
}.

(** An integer field that is not negative, in strict mode *)
Definition strict_count (value : option json) : res Z :=
  match value with Some (JInt n) => if 0 <=? n then Ok n else Raise ValueError | _ => Raise ValueError end.

(** [_Status.model_validate] *)
Definition validate_status (fields : list (str * json)) : res derived_report :=
  let get key := od_get key fields in
  state ← match get (u "state") with
          | Some (JString s) =>
              match od_get s [(u "pending", D_PENDING); (u "processing", D_PROCESSING); (u "complete", D_COMPLETE); (u "partial", D_PARTIAL)] with
              | Some st => Ok st
              | None => Raise ValueError
              end
          | _ => Raise ValueError
          end;
  attempts ← strict_count (get (u "attempts"));
  records ← strict_count (get (u "derived_records"));
  truncated ← match get (u "derived_truncated") with Some (JBool b) => Ok b | _ => Raise ValueError end;
  reason ← match get (u "derived_reason") with
           | None | Some JNull => Ok None
           | Some (JString s) => if (length s <=? 4096)%nat then Ok (Some s) else Raise ValueError
           | _ => Raise ValueError
           end;
  Ok (mkDerivedReport state attempts records truncated reason).

Section Reconcile.
Context {A : Type} (json_bytes : ScanJob -> Z) (lim : limits).
(** [GET /ingest/status] of a kind and an identifier *)
Context (request_status : str -> str -> act A (option answer)).

(** [derived_status] *)
Definition derived_status (kind envelope_id : str) : act A (option (list (str * json))) :=
  response <~ request_status kind envelope_id ;;
  match response with
  | None => act_lift (Raise (AnalyzerUpstreamError None))
  | Some r =>
      if an_status_code r =? 404 then act_ret None
      else if negb (an_status_code r =? 200) then act_lift (Raise (AnalyzerUpstreamError (Some (an_status_code r))))
      else
        match an_json r with
        | Ok (JObject fields) => act_ret (Some fields)
        | Ok _ | Raise (ValueError | JSONDecodeError) => act_lift (Raise (AnalyzerUpstreamError None))
        | Raise e => act_lift (Raise e)
        end
  end.

(** The envelope a job is waiting for *)
Definition awaited_envelope (job : ScanJob) : option (str * str) :=
  match sj_result job with
  | None => None
  | Some r =>
      let named kind id := match id with Some ((_ :: _) as i) => Some (kind, i) | _ => None end in
      match sj_capability job with
      | HOST => named (u "asset-report") (sr_report_id r)
      | TRACE => named (u "trace-batch") (sr_batch_id r)
      | GUARD => None
      end
  end.

(** [_reconcile] *)
Definition reconcile (now : Z) (job : ScanJob) : act (A * db) unit := fun '(a, d) =>
  match awaited_envelope job with
  | None => (Ok tt, (a, d))
  | Some (kind, id) =>
      let '(raw, a) := derived_status kind id a in
      match (raw ← raw; match raw with None => Ok None | Some fields => Some <$> validate_status fields end) with
      | Raise (AnalyzerUpstreamError _ | ValueError) | Ok None => (Ok tt, (a, d))
      | Raise e => (Raise e, (a, d))
      | Ok (Some s) =>
          let '(r, d) := update_derived_result json_bytes lim (sj_job_id job) (st_state s) (st_derived_records s) (st_derived_truncated s)
                           (st_derived_reason s) (st_attempts s) now d in
          (match r with Ok _ => Ok tt | Raise e => Raise e end, (a, d))
      end
  end.

(** A round of [_run]: the jobs of one list, until one raises; [now] gives the instant
    of each. *)
Definition reconcile_round (batch_size : Z) (nows : list Z) : act (A * db) unit := fun '(a, d) =>
  act_iter (fun p => reconcile p.1 p.2) (zip nows (list_derived_incomplete batch_size d)) (a, d).
End Reconcile.
