(* ===== verification/AnalyzerClientProps.v ===== *)
(** * What the client of the analyzer guarantees

    No decoding of a path that was accepted leaves the place it names; the outcome of an
    envelope is that of its worst chunk, and all of it was accepted; a reconciled job
    carries what the analyzer reported. *)

From stdpp Require Import base gmap strings list numbers.
From Stdlib Require Import ZArith Lia.
From S2P Require Import Prelude PyText Acts PyHash PyFloat PyJson ScanSchemas JobStore JobSteps Severity Osv Detect Coverage Chunks ChunkProps AnalyzerClient.

#[local] Open Scope Z_scope.

(** ** Decoding around a separator *)
Section Decoding.
#[local] Open Scope N_scope.

(** A character that takes no part in an encoding *)
Definition inert_char (c : N) : Prop := c < 128 /\ c <> 37 /\ hex_digit c = None.

Lemma ascii_continues c : c < 128 -> continues c = false.
Proof. intros Hc. unfold continues, PyText.between. apply andb_false_iff. left. apply N.leb_gt. lia. Qed.

Lemma ascii_second first c : c < 128 -> second_byte first c = false.
Proof.
  intros Hc. unfold second_byte, PyText.between. repeat case_match; try (by apply ascii_continues); apply andb_false_iff; left; apply N.leb_gt; lia.
Qed.

(** One step of the decoder: what it writes and what is left *)
Definition decode_step (b : N) (rest : list N) : N * list N :=
  if b <? 128 then (b, rest)
  else
    match rest with
    | [] => (replacement, [])
    | c :: rest2 =>
        if PyText.between 194 b 223 then
          if continues c then ((b - 192) * 64 + (c - 128), rest2) else (replacement, rest)
        else if PyText.between 224 b 244 && second_byte b c then
          match rest2 with
          | [] => (replacement, [])
          | d :: rest3 =>
              if negb (continues d) then (replacement, rest2)
              else if b <=? 239 then ((b - 224) * 4096 + (c - 128) * 64 + (d - 128), rest3)
              else
                match rest3 with
                | [] => (replacement, [])
                | e :: rest4 =>
                    if continues e then ((b - 240) * 262144 + (c - 128) * 4096 + (d - 128) * 64 + (e - 128), rest4)
                    else (replacement, rest3)
                end
          end
        else (replacement, rest)
    end.

Lemma decode_replace_step b rest : decode_replace (b :: rest) = (decode_step b rest).1 :: decode_replace (decode_step b rest).2.
Proof. cbn [decode_replace]. unfold decode_step. by repeat case_match. Qed.

(** A step does not look past an ASCII character. *)
Lemma decode_step_app x a c b : c < 128 ->
  decode_step x (a ++ c :: b) = ((decode_step x a).1, (decode_step x a).2 ++ c :: b) /\ (length (decode_step x a).2 <= length a)%nat.
Proof.
  intros Hc. pose proof (ascii_continues c Hc) as Hcc. pose proof (ascii_second x c Hc) as Hcs. unfold decode_step.
  destruct (x <? 128); [done|]. destruct a as [|y [|z [|w a]]]; cbn [app]; rewrite ?Hcc, ?Hcs, ?andb_false_r; cbn [negb length fst snd app];
    repeat (case_match; cbn [negb length fst snd app]; try done); split; try done; lia.
Qed.

Lemma decode_replace_app a c b : c < 128 -> decode_replace (a ++ c :: b) = decode_replace a ++ c :: decode_replace b.
Proof.
  intros Hc. remember (length a) as n eqn:Hn. revert a Hn. induction n as [n IH] using lt_wf_ind. intros [|x a] ->.
  - cbn [app]. rewrite decode_replace_step. unfold decode_step. by rewrite (proj2 (N.ltb_lt c 128)).
  - cbn [app]. rewrite !decode_replace_step. destruct (decode_step_app x a c b Hc) as [-> Hl]. cbn [fst snd app].
    f_equal. eapply IH; [|reflexivity]. cbn [length]. lia.
Qed.

Definition percent_step (c : N) (s : str) : N * str :=
  match s with
  | a :: b :: s2 => match hex_digit a, hex_digit b with
                    | Some h, Some l => if c =? 37 then (16 * h + l, s2) else (c, s)
                    | _, _ => (c, s)
                    end
  | _ => (c, s)
  end.

Lemma percent_bytes_step c s : percent_bytes (c :: s) = (percent_step c s).1 :: percent_bytes (percent_step c s).2.
Proof. cbn [percent_bytes]. unfold percent_step. by repeat case_match. Qed.

(** A step does not look past a character that takes no part in an encoding. *)
Lemma percent_step_app x a c b : inert_char c ->
  percent_step x (a ++ c :: b) = ((percent_step x a).1, (percent_step x a).2 ++ c :: b) /\ (length (percent_step x a).2 <= length a)%nat.
Proof.
  intros (_ & _ & Hh). unfold percent_step. destruct a as [|y [|z a]]; cbn [app].
  - rewrite Hh. split; [by destruct b|done].
  - rewrite Hh. split; [by destruct (hex_digit y)|done].
  - repeat (case_match; cbn [fst snd app length]); split; try done; lia.
Qed.

Lemma percent_bytes_app a c b : inert_char c -> percent_bytes (a ++ c :: b) = percent_bytes a ++ c :: percent_bytes b.
Proof.
  intros Hc. remember (length a) as n eqn:Hn. revert a Hn. induction n as [n IH] using lt_wf_ind. intros [|x a] ->.
  - cbn [app]. rewrite percent_bytes_step. destruct Hc as (_ & Hp & _). apply N.eqb_neq in Hp. unfold percent_step. by rewrite Hp; repeat case_match.
  - cbn [app]. rewrite !percent_bytes_step. destruct (percent_step_app x a c b Hc) as [-> Hl]. cbn [fst snd app].
    f_equal. eapply IH; [|reflexivity]. cbn [length]. lia.
Qed.

Lemma unquote_from_app run a c b : inert_char c -> unquote_from run (a ++ c :: b) = unquote_from run a ++ c :: unquote b.
Proof.
  intros Hc. pose proof Hc as (Ha & _). assert (Hrun : forall run, unquote_from run (c :: b) = decode_replace (percent_bytes (rev run)) ++ c :: unquote b).
  { intros r. cbn [unquote_from]. rewrite (proj2 (N.ltb_lt c 128)) by done. unfold unquote.
    assert (Hlong : forall s x, unquote_from (x ++ c :: r) s = decode_replace (percent_bytes (rev r)) ++ c :: unquote_from x s).
    { induction s as [|d s IH]; intros x; cbn [unquote_from].
      - rewrite rev_app_distr. cbn [rev]. rewrite <-app_assoc. cbn [app]. by rewrite percent_bytes_app, decode_replace_app by done.
      - case_match; [apply (IH (d :: x))|]. rewrite rev_app_distr. cbn [rev]. rewrite <-app_assoc. cbn [app].
        rewrite percent_bytes_app, decode_replace_app by done. by rewrite <-app_assoc. }
    apply (Hlong b []). }
  revert run. induction a as [|x a IH]; intros run; cbn [app].
  - rewrite Hrun. done.
  - cbn [unquote_from]. case_match; [apply IH|]. by rewrite IH, <-app_assoc.
Qed.

Lemma unquote_app a c b : inert_char c -> unquote (a ++ c :: b) = unquote a ++ c :: unquote b.
Proof. apply unquote_from_app. Qed.
End Decoding.

(** ** Accepted paths *)

Lemma split_on_snoc sep a b : split_on sep (a ++ sep :: b) = split_on sep a ++ split_on sep b.
Proof.
  induction a as [|c a IH]; cbn [app split_on]; [by rewrite N.eqb_refl|].
  destruct (c =? sep)%N; [by rewrite IH|]. rewrite IH. destruct (split_on sep a) as [|w ws] eqn:E; [by apply split_on_nonempty in E|done].
Qed.

(** The first part of a text, up to a separator *)
Lemma split_first sep (s : str) : sep ∉ s \/ exists w r, s = w ++ sep :: r /\ sep ∉ w.
Proof.
  destruct (decide (sep ∈ s)) as [Hin|Hin]; [|by left]. right. apply list_elem_of_split_l in Hin as (w & r & -> & Hw). by exists w, r.
Qed.

Lemma slash_inert : inert_char 47.
Proof. by split; [|split]. Qed.

(** A segment of dots is still there after a decoding. *)
Lemma dot_segment_stays s g : dot_segment g = true -> g ∈ split_on 47 s -> g ∈ split_on 47 (unquote s).
Proof.
  intros Hg. assert (Hself : g ∈ split_on 47 (unquote g)).
  { unfold dot_segment in Hg. apply bool_decide_eq_true in Hg. apply elem_of_cons in Hg as [-> | Hg]; [by left|].
    apply list_elem_of_singleton in Hg as ->. by left. }
  remember (length s) as n eqn:Hn. revert s Hn. induction n as [n IH] using lt_wf_ind. intros s -> Hin.
  destruct (split_first 47 s) as [Hfree|(w & r & -> & Hw)].
  - rewrite split_on_free in Hin by done. apply list_elem_of_singleton in Hin as <-. done.
  - rewrite split_on_app in Hin by done. rewrite unquote_app, split_on_snoc by apply slash_inert. apply elem_of_app.
    apply elem_of_cons in Hin as [-> | Hin]; [by left|]. right. eapply IH; [|reflexivity|done]. rewrite length_app. cbn [length]. lia.
Qed.

(** So is a character that takes no part in an encoding. *)
Lemma inert_char_stays c s : inert_char c -> c ∈ s -> c ∈ unquote s.
Proof. intros Hc Hin. apply list_elem_of_split in Hin as (a & b & ->). rewrite unquote_app by done. apply elem_of_app. right. by left. Qed.

Lemma forbidden_inert c : forbidden_char c = true -> inert_char c.
Proof.
  unfold forbidden_char. rewrite orb_true_iff, N.ltb_lt, N.eqb_eq. intros Hc. unfold inert_char, hex_digit, PyText.between.
  split; [lia|]. split; [lia|]. repeat case_match; try done; rewrite ?andb_true_iff, ?N.leb_le in *; lia.
Qed.

(** What a decoded text must not contain *)
Definition contained (path : str) : Prop :=
  Forall (fun c => forbidden_char c = false) path /\ Forall (fun g => dot_segment g = false) (split_on 47 path).

Lemma contained_before path : contained (unquote path) -> contained path.
Proof.
  intros [Hc Hg]. rewrite Forall_forall in Hc, Hg. split; apply Forall_forall.
  - intros c Hin. destruct (forbidden_char c) eqn:E; [|done]. specialize (Hc c). rewrite E in Hc. apply Hc.
    apply list_elem_of_In. apply list_elem_of_In in Hin. by apply inert_char_stays; [apply forbidden_inert|].
  - intros g Hin. destruct (dot_segment g) eqn:E; [|done]. specialize (Hg g). rewrite E in Hg. apply Hg.
    apply list_elem_of_In. apply list_elem_of_In in Hin. by apply dot_segment_stays.
Qed.

Lemma iter_stable n path : unquote path = path -> Nat.iter n unquote path = path.
Proof. intros E. induction n as [|n IH]; [done|]. by rewrite Nat.iter_succ, IH. Qed.

(** The loop ends at the last of its decodings, or where decoding changes nothing. *)
Lemma decoded_spec rounds path n : contained (decoded rounds path) ->
  (n <= rounds)%nat \/ unquote (decoded rounds path) = decoded rounds path -> contained (Nat.iter n unquote path).
Proof.
  revert path n. induction rounds as [|rounds IH]; intros path n Hc Hn; cbn [decoded] in *.
  - destruct Hn as [Hn|E]; [by replace n with 0%nat by lia|]. by rewrite iter_stable.
  - case_bool_decide as E; [by rewrite iter_stable|]. destruct n as [|n].
    + cbn. apply contained_before. apply (IH (unquote path) 0%nat); [done|]. left. lia.
    + rewrite Nat.iter_succ_r. apply IH; [done|]. destruct Hn; [left; lia|by right].
Qed.

(** C36. An accepted path stays where it is: neither the path nor any of its first four
    decodings, and none at all when the last of these changes nothing, has a segment of
    dots, a backslash or a control character. *)
Theorem upstream_path_contained path n : validate_upstream_path path = Ok tt ->
  (n <= 4)%nat \/ unquote (decoded 4 path) = decoded 4 path -> contained (Nat.iter n unquote path).
Proof.
  intros E Hn. unfold validate_upstream_path in E. apply bind_Ok_inv in E as (? & _ & E). cbv zeta in E.
  apply bind_Ok_inv in E as (? & Ec & E). apply raise_if_Ok_inv in Ec. apply raise_if_Ok_inv in E. apply (decoded_spec 4); [|done].
  split; apply Forall_forall; intros y Hy; [destruct (forbidden_char y) eqn:Ey|destruct (dot_segment y) eqn:Ey]; try done; exfalso;
    [enough (existsb forbidden_char (decoded 4 path) = true) by congruence|enough (existsb dot_segment (split_on 47 (decoded 4 path)) = true) by congruence];
    apply existsb_exists; by exists y.
Qed.

Lemma upstream_path_contained_witness : validate_upstream_path (u "/reports/a%252525252E") = Ok tt /\ contained (Nat.iter 3 unquote (u "/reports/a%252525252E")).
Proof. split; [vm_compute; reflexivity|]. apply upstream_path_contained; [vm_compute; reflexivity|left; lia]. Defined.

(** A fifth decoding is not looked at. *)
Example fifth_decoding : validate_upstream_path (u "/x/%252525252E%252525252E/y") = Ok tt /\ Nat.iter 5 unquote (u "/x/%252525252E%252525252E/y") = u "/x/../y".
Proof. vm_compute. split; reflexivity. Qed.

(** ** Accepted envelopes *)
Section Accepted.
Context {A E : Type} (request : str -> E -> act A (option answer)).

(** The chunks were posted in order and each was accepted; [answers] is what was said
    of the derived records of each. *)
Inductive accepted (path : str) : list E -> list extensions -> A -> A -> Prop :=
| accepted_none a : accepted path [] [] a a
| accepted_chunk c cs e es a a1 a2 r :
    request path c a = (Ok (Some r), a1) -> an_status_code r = 202 -> read_ack r = Ok e -> ex_derived_status e <> Some (u "failed") ->
    accepted path cs es a1 a2 -> accepted path (c :: cs) (e :: es) a a2.

Lemma ingest_ok path c a e a' : ingest request path c a = (Ok e, a') ->
  exists r, request path c a = (Ok (Some r), a') /\ an_status_code r = 202 /\ read_ack r = Ok e /\ ex_derived_status e <> Some (u "failed").
Proof.
  unfold ingest. intros E0. apply act_bind_ok in E0 as (x & a1 & Ep & E0). apply act_lift_ok in Ep as [_ ->].
  apply act_bind_ok in E0 as (response & a1 & Er & E0). destruct response as [r|]; [|done].
  destruct (Z.eqb_spec (an_status_code r) 202) as [Hs|]; [|done]. cbn [negb] in E0.
  apply act_bind_ok in E0 as (derived & a2 & Ed & E0). apply act_lift_ok in Ed as [Ed ->]. case_bool_decide; [done|]. injection E0 as <- <-.
  by exists r.
Qed.

Lemma ingest_all_accepted path chunks a answers a' : act_mapM (ingest request path) chunks a = (Ok answers, a') ->
  accepted path chunks answers a a'.
Proof.
  revert a answers. induction chunks as [|c cs IH]; intros a answers E0; cbn [act_mapM] in E0.
  - injection E0 as <- <-. constructor.
  - apply act_bind_ok in E0 as (e & a1 & Ei & E0). apply act_bind_ok in E0 as (es & a2 & Es & E0). injection E0 as <- <-.
    apply ingest_ok in Ei as (r & ? & ? & ? & ?). econstructor; eauto.
Qed.
End Accepted.

(** ** The outcome of the worst chunk *)

Lemma worst_fold rest s : let w := fold_left (fun worst s => if status_rank worst <? status_rank s then s else worst) rest s in
  w ∈ s :: rest /\ forall t, t ∈ s :: rest -> status_rank t <= status_rank w.
Proof.
  revert s. induction rest as [|t rest IH]; intros s; cbn [fold_left].
  - split; [by left|]. intros x Hx. by apply list_elem_of_singleton in Hx as ->.
  - destruct (IH (if status_rank s <? status_rank t then t else s)) as [Hin Hmax]. split.
    + apply elem_of_cons in Hin as [-> | Hin]; [case_match; [right; by left|by left]|right; by right].
    + pose proof (Hmax _ (list_elem_of_here _ _)) as Hs. intros x Hx. apply elem_of_cons in Hx as [-> | Hx].
      * destruct (Z.ltb_spec (status_rank s) (status_rank t)); lia.
      * apply elem_of_cons in Hx as [-> | Hx]; [destruct (Z.ltb_spec (status_rank s) (status_rank t)); lia|]. apply Hmax. by right.
Qed.

Lemma worst_status_spec statuses : match worst_status statuses with
  | None => statuses = []
  | Some w => w ∈ statuses /\ forall t, t ∈ statuses -> status_rank t <= status_rank w
  end.
Proof. destruct statuses as [|s rest]; [done|]. apply worst_fold. Qed.

Lemma elem_present_text t texts : t ∈ present texts <-> Some t ∈ texts /\ t <> [].
Proof.
  unfold present. rewrite list_elem_of_omap. split.
  - intros ([x|] & Hx & E); [|done]. destruct x; [done|]. by injection E as <-.
  - intros [Hin Hne]. exists (Some t). split; [done|]. by destruct t.
Qed.

(** What the answers to the chunks say together *)
Definition worst_of (o : ingest_outcome) (answers : list extensions) : Prop :=
  (forall s, io_derived_status o = Some s -> Some s ∈ (ex_derived_status <$> answers) /\
     forall e t, e ∈ answers -> ex_derived_status e = Some t -> t <> [] -> status_rank t <= status_rank s) /\
  (io_derived_status o = None -> forall e t, e ∈ answers -> ex_derived_status e = Some t -> t = []) /\
  io_derived_records o = foldr Z.add 0 (ex_derived_records <$> answers) /\
  (io_derived_truncated o = true <-> exists e, e ∈ answers /\ ex_derived_truncated e = true).

Lemma aggregate_worst id answers : worst_of (aggregate_outcome id answers) answers.
Proof.
  unfold worst_of, aggregate_outcome. cbn [io_derived_status io_derived_records io_derived_truncated].
  pose proof (worst_status_spec (present (ex_derived_status <$> answers))) as Hw. split; [|split; [|split; [done|]]].
  - intros s Es. rewrite Es in Hw. destruct Hw as [Hin Hmax]. apply elem_present_text in Hin as [Hin _]. split; [done|].
    intros e t He Et Hne. apply Hmax, elem_present_text. split; [|done]. rewrite <-Et. by apply list_elem_of_fmap_2.
  - intros Es. rewrite Es in Hw. intros e t He Et. destruct t as [|c t]; [done|]. exfalso.
    assert (Hin : c :: t ∈ present (ex_derived_status <$> answers)); [|rewrite Hw in Hin; by apply not_elem_of_nil in Hin].
    apply elem_present_text. split; [|done]. rewrite <-Et. by apply list_elem_of_fmap_2.
  - rewrite existsb_exists. split; intros (e & He & Ht); exists e; (split; [by apply list_elem_of_In|done]).
Qed.

(** Posting the chunks of an envelope *)
Lemma ingest_chunks_accepted {A E} (request : str -> E -> act A (option answer)) path (id_of : E -> str) chunks a o a' :
  ingest_chunks request path id_of chunks a = (Ok o, a') ->
  exists answers, accepted request path chunks answers a a' /\ Some (io_lineage_id o) = id_of <$> head chunks /\ worst_of o answers.
Proof.
  unfold ingest_chunks. intros E0. apply act_bind_ok in E0 as (answers & a1 & Em & E0). destruct chunks as [|c cs] eqn:Ec; [done|]. rewrite <-Ec in *.
  injection E0 as <- <-. exists answers. split; [by apply ingest_all_accepted|]. split; [by rewrite Ec|apply aggregate_worst].
Qed.

Section Reports.
Context {A H I : Type} `{!ReportWire H I} (request : str -> AssetReport H I -> act A (option answer)).

End Reports.

(** ** Pending outcomes *)
Section Reconciled.
Context {A : Type} (json_bytes : ScanJob -> Z) (lim : limits) (request_status : str -> str -> act A (option answer)).

(** The result with what the analyzer reported *)
Definition reported_result (s : derived_report) (now : Z) (capability : ScanCapability) (r : ScanResult) : ScanResult :=
  r <| sr_derived_state := Some (st_state s) |> <| sr_derived_records := Z.max 0 (st_derived_records s) |>
    <| sr_derived_truncated := st_derived_truncated s |> <| sr_derived_reason := st_derived_reason s |>
    <| sr_derived_attempts := Z.max 0 (st_attempts s) |> <| sr_derived_updated_at := Some now |>
    <| sr_detail := Some (derived_detail capability (st_state s) (st_derived_reason s)) |>.

(** A job whose outcome was open carries, after it was reconciled, what the analyzer
    reported, and no other job changes; when the analyzer does not answer, answers
    something else or does not know the envelope, nothing does. *)
Theorem reconcile_records now job a d a' d' row r :
  heads d !! sj_job_id job = Some row -> hd_payload row = job -> hd_state row = SUCCEEDED -> sj_state job = SUCCEEDED ->
  sj_result job = Some r -> derived_open job = true ->
  reconcile json_bytes lim request_status now job (a, d) = (Ok tt, (a', d')) ->
  d' = d \/ exists s row', heads d' = <[sj_job_id job := row']> (heads d) /\
    sj_state (hd_payload row') = SUCCEEDED /\ sj_result (hd_payload row') = Some (reported_result s now (sj_capability job) r) /\
    exists kind id fields, awaited_envelope job = Some (kind, id) /\
      derived_status request_status kind id a = (Ok (Some fields), a') /\ validate_status fields = Ok s.
Proof.
  intros Hrow Hp Hst Hj Hr Hopen E. unfold reconcile in E. destruct (awaited_envelope job) as [[kind id]|]; [|left; by injection E].
  destruct (derived_status request_status kind id a) as [raw a1] eqn:Ea. destruct raw as [[fields|]|e]; cbn [mbind res_bind] in E.
  - destruct (validate_status fields) as [s|e] eqn:Es; cbn [fmap res_fmap] in E; [|left; by destruct e; injection E].
    destruct (update_derived_result _ _ _ _ _ _ _ _ _ _) as [x d1] eqn:Eu. destruct x as [x|]; [|done]. injection E as <- <-. right.
    unfold update_derived_result in Eu. unfold transaction in Eu. destruct (update_derived_tx _ _ _ _ _ _ _ _ _ _) as [[y d2]|] eqn:Et; [|done]. injection Eu as -> ->.
    unfold update_derived_tx in Et. rewrite Hrow, Hp, Hj, Hr, Hopen in Et. apply bind_Ok_inv in Et as ([job' bytes] & He & Et).
    rewrite Hst, bool_decide_true in Et by done. apply bind_Ok_inv in Et as (d2 & Hev & Et). injection Et as <- <-.
    apply JobSteps.add_event_tables in Hev as [Hh _]. apply JobSteps.encode_Ok in He as (_ & -> & _).
    set (done := job <| sj_result := Some _ |> <| sj_updated_at := Some now |>) in *.
    assert (Hd : sj_state (derive_mode done) = SUCCEEDED /\ sj_result (derive_mode done) = Some (reported_result s now (sj_capability job) r)).
    { rewrite derive_mode_state. split; [done|]. unfold derive_mode. by repeat case_match. }
    eexists s, _. rewrite Hh, JobSteps.set_head_heads. split; [reflexivity|]. split; [apply Hd|]. split; [apply Hd|].
    by exists kind, id, fields.
  - left. by injection E.
  - left. destruct e; by injection E.
Qed.
End Reconciled.

(** ** An analyzer that accepts everything *)
Module Accepting.
Import Example_wire.
(** It remembers what it was sent. *)
Definition request (path : str) (report : AssetReport unit Z) : act (list (AssetReport unit Z)) (option answer) := fun sent =>
  (Ok (Some (mkAnswer 202 (Ok (JObject [(u "derived_status", JString (u "complete")); (u "derived_records", JInt 2)])))), sent ++ [report]).
End Accepting.

#[local] Existing Instance Example_wire.wire.

