(* ===== verification/Reports.v ===== *)
(** * Reading reports back ([analyzer/src/analyzer/api/reports.py], [report_projection_cache.py])

    The read side over the record stores: pages that survive the byte budget of a
    read, the chunks of one logical upload with their completeness, and the cached
    projection of a report.  The stores are those of [RecordStore]; rows that are
    read back into a model are those the model wrote, so validating them returns
    them.  A response is the value an endpoint returns, an error the status of its
    [HTTPException].  Cursor tokens and FastAPI itself are not modelled. *)

From stdpp Require Import base gmap sets strings numbers list.
From Stdlib Require Import ZArith Lia.
From S2P Require Import Prelude PyText PyFloat Compare Severity Detect Coverage Tables Lineage RecordStore Chunks.

#[local] Open Scope Z_scope.

Definition STORE_PAGE_SIZE : Z := 500.

(** ** Pages *)
Section Pages.
Context {R : Type} (l : limits).

(** [_retained_rows]: the rows the generator yields; a page is never empty but
    the last, so the rounds are bounded by the rows. *)
Fixpoint retained_from (fuel : nat) (s : store R) (offset : Z) : list R :=
  match fuel with
  | O => []
  | S fuel =>
      match tail l s STORE_PAGE_SIZE offset with
      | [] => []
      | page => page ++ retained_from fuel s (offset + Z.of_nat (length page))
      end
  end.

Definition retained_rows (s : store R) : list R := retained_from (S (length (st_rows s))) s 0.

(** [_page_rows]: the offset after the preceding pages, [None] when one is empty. *)
Fixpoint page_offset (s : store R) (limit : Z) (page : nat) (offset : Z) : option Z :=
  match page with
  | O => Some offset
  | S page =>
      match tail l s limit offset with
      | [] => None
      | rows => page_offset s limit page (offset + Z.of_nat (length rows))
      end
  end.

Definition page_rows (s : store R) (limit : Z) (page : nat) : list R * bool :=
  match page_offset s limit page 0 with
  | None => ([], false)
  | Some offset =>
      let rows := tail l s limit offset in
      (rows, negb (bool_decide (length rows = 0%nat))
             && negb (bool_decide (length (tail l s 1 (offset + Z.of_nat (length rows))) = 0%nat)))
  end.

(** [_validate_paging] *)
Definition validate_paging (offset : Z) (page : option nat) (cursor : option str) : res unit :=
  match cursor, page with
  | Some _, Some _ => Raise (HTTPException 400)
  | Some _, None => raise_if (negb (offset =? 0)) (HTTPException 400)
  | None, Some _ => raise_if (negb (offset =? 0)) (HTTPException 400)
  | None, None => Ok tt
  end.

(** One pass over a raw page of [_guard_rows]: [matched] and [out] of the code. *)
Context (host_of : R -> option str).

Fixpoint guard_scan (host_id : str) (limit : nat) (offset : nat) (rows : list R) (matched : nat) (out : list R)
    : nat * list R :=
  match rows with
  | [] => (matched, out)
  | record :: rows =>
      if negb (bool_decide (host_of record = Some host_id)) then guard_scan host_id limit offset rows matched out
      else if (matched <? offset)%nat then guard_scan host_id limit offset rows (S matched) out
      else
        let out := out ++ [record] in
        if (limit <=? length out)%nat then (S matched, out) else guard_scan host_id limit offset rows (S matched) out
  end.

Fixpoint guard_from (fuel : nat) (s : store R) (host_id : str) (limit offset : nat) (matched : nat) (raw_offset : Z)
    (out : list R) : list R :=
  match fuel with
  | O => out
  | S fuel =>
      if (length out <? limit)%nat then
        match tail l s STORE_PAGE_SIZE raw_offset with
        | [] => out
        | rows =>
            let '(matched, out) := guard_scan host_id limit offset rows matched out in
            guard_from fuel s host_id limit offset matched (raw_offset + Z.of_nat (length rows)) out
        end
      else out
  end.

(** [_guard_rows] *)
Definition guard_rows (s : store R) (host_id : str) (limit offset : nat) : list R :=
  guard_from (S (length (st_rows s))) s host_id limit offset 0 0 [].

(** [_guard_page_rows] *)
Fixpoint guard_offset (s : store R) (host_id : str) (limit page offset : nat) : option nat :=
  match page with
  | O => Some offset
  | S page =>
      match guard_rows s host_id limit offset with
      | [] => None
      | rows => guard_offset s host_id limit page (offset + length rows)
      end
  end.

Definition guard_page_rows (s : store R) (host_id : str) (limit page : nat) : list R * bool :=
  match guard_offset s host_id limit page 0 with
  | None => ([], false)
  | Some offset =>
      let rows := guard_rows s host_id limit offset in
      (rows, negb (bool_decide (length rows = 0%nat))
             && negb (bool_decide (length (guard_rows s host_id 1 (offset + length rows)) = 0%nat)))
  end.
End Pages.

(** ** Lineages *)

(** An entry of [found]. *)
Record found_row (R : Type) := mkFound { fd_index : Z; fd_id : str; fd_total : option Z; fd_row : R }.
Arguments mkFound {R}.
Arguments fd_index {R}.
Arguments fd_id {R}.
Arguments fd_total {R}.
Arguments fd_row {R}.

(** What [_lineage_rows] returns. *)
Record lineage_view (R : Type) := mkView {
  lv_root : str;
  lv_expected : option Z;
  lv_complete : option bool;
  lv_rows : list R;
}.
Arguments mkView {R}.
Arguments lv_root {R}.
Arguments lv_expected {R}.
Arguments lv_complete {R}.
Arguments lv_rows {R}.

Section Lineages.
Context {U : Unicode} {R : Type} (id_of : R -> option str).

(** The loop over the rows. *)
Fixpoint collect_found (kind : LineageKind) (root : str) (rows : list R) : res (list (found_row R)) :=
  match rows with
  | [] => Ok []
  | row :: rows =>
      match id_of row with
      | None => collect_found kind root rows
      | Some row_id =>
          info ← parse_lineage_id row_id kind;
          rest ← collect_found kind root rows;
          Ok (if bool_decide (row_id = root) then mkFound 1 row_id None row :: rest
              else match info with
                   | Some (r, index, total) =>
                       if bool_decide (r = root) then mkFound index row_id total row :: rest else rest
                   | None => rest
                   end)
      end
  end.

(** [unique] *)
Definition first_by_id (found : list (found_row R)) : list (str * found_row R) :=
  fold_left (fun unique item => match od_get (fd_id item) unique with
                                | Some _ => unique
                                | None => od_set (fd_id item) item unique end) found [].

Definition found_ltb (a b : found_row R) : bool :=
  (fd_index a <? fd_index b) || (fd_index a =? fd_index b) && str_ltb (fd_id a) (fd_id b).

(** [expected] and [complete] of the totals and indices that were found. *)
Definition expected_of (totals : list Z) : option Z :=
  match totals with [] => None | t :: rest => Some (fold_left Z.max rest t) end.

Definition complete_of (totals indices : list Z) : option bool :=
  match expected_of totals with
  | None => None
  | Some expected =>
      Some (bool_decide (length totals = 1%nat)
            && bool_decide ((list_to_set indices : gset Z) = list_to_set (seqZ 1 expected)))
  end.

(** [_lineage_rows], over the rows the store finds. *)
Definition lineage_rows (find : str -> res (list R)) (kind : LineageKind) (requested_id : str) : res (lineage_view R) :=
  requested ← parse_lineage_id requested_id kind;
  let root := match requested with Some (root, _, _) => root | None => requested_id end in
  rows ← find requested_id;
  found ← collect_found kind root rows;
  let ordered := isort found_ltb (snd <$> first_by_id found) in
  let totals := remove_dups (omap fd_total ordered) in
  Ok (mkView root (expected_of totals) (complete_of totals (fd_index <$> ordered)) (fd_row <$> ordered)).

(** [_lineage_response]: the view, or 404 when there are no rows. *)
Definition lineage_response (find : str -> res (list R)) (kind : LineageKind) (requested_id : str) : res (lineage_view R) :=
  view ← lineage_rows find kind requested_id;
  if bool_decide (length (lv_rows view) = 0%nat) then Raise (HTTPException 404) else Ok view.
End Lineages.

(** ** The projection of a report *)

Inductive AssetKind := Security_product | Service | Port | Account | Credential | Container | Image | Package.

#[global] Instance AssetKind_eq_dec : EqDecision AssetKind.
Proof. solve_decision. Defined.

(** [_ASSET_KIND_ORDER] and [_ASSET_KIND_RANK] *)
Definition asset_kind_order : list AssetKind :=
  [Security_product; Service; Port; Account; Credential; Container; Image; Package].
Definition asset_kind_rank (k : AssetKind) : Z :=
  match k with
  | Security_product => 0 | Service => 1 | Port => 2 | Account => 3 | Credential => 4 | Container => 5 | Image => 6
  | Package => 7
  end.

(** [_SEVERITY_RANK] *)
Definition severity_rank (s : Severity) : Z :=
  match s with INFO => 0 | LOW => 1 | MEDIUM => 2 | HIGH => 3 | CRITICAL => 4 end.

(** An [Asset], with the rest of its fields. *)
Record Asset (X : Type) := mkAsset { a_asset_id : str; a_kind : AssetKind; a_rest : X }.
Arguments mkAsset {X}.
Arguments a_asset_id {X}.
Arguments a_kind {X}.
Arguments a_rest {X}.

(** [DetectionResult], its summary fields in [Y]. *)
Record DetectionResult (Y : Type) := mkResult {
  de_report_id : str;
  de_summary : Y;
  de_vulnerabilities : list vulnerability;
}.
Arguments mkResult {Y}.
Arguments de_report_id {Y}.
Arguments de_summary {Y}.
Arguments de_vulnerabilities {Y}.

(** [LineageSummary] *)
Record LineageSummary := mkSummary {
  ls_lineage_id : str;
  ls_expected_chunks : option Z;
  ls_received_chunks : Z;
  ls_complete : option bool;
}.

Section Projection.
Context {U : Unicode} {H X Y : Type}.

Abbreviation report := (AssetReport H (Asset X)).
Abbreviation detection_result := (DetectionResult Y).

(** [_ReportProjection]; the header fields of [ReportHeader] are in [H]. *)
Record ReportProjection := mkProjection {
  rp_report_id : str;
  rp_header : H;
  rp_detector_runs : option (list detector_run);
  rp_asset_lineage : LineageSummary;
  rp_assets : list (Asset X);
  rp_asset_kind_totals : list (AssetKind * Z);
  rp_detection_lineage : LineageSummary;
  rp_detection_records : list (str * Y);
  rp_vulnerabilities : list vulnerability;
}.

(** [_bounded_page] *)
Definition bounded_page (requested total page_size : Z) : Z := Z.min requested (Z.max 0 ((total - 1) / page_size)).

(** [_merged_assets] *)
Definition assets_by_id (reports : list report) : list (str * Asset X) :=
  fold_left (fun by_id a => od_set (a_asset_id a) a by_id) (reports ≫= ar_assets) [].

Definition merged_assets (reports : list report) : list (Asset X) :=
  isort (fun a b => asset_kind_rank (a_kind a) <? asset_kind_rank (a_kind b)) (snd <$> assets_by_id reports).

(** [_vulnerability_key] *)
Definition vulnerability_key (v : vulnerability) : str * str * str * str * str :=
  (vu_source v, vu_id v, vu_affected_asset_id v, default [] (vu_parent_asset_id v), default [] (vu_evidence v)).

(** [list(dict.fromkeys(l))] *)
Definition fromkeys (l : list str) : list str := rev (remove_dups (rev l)).

(** One finding of the loop of [_merged_vulnerabilities]. *)
Definition merge_vulnerability (merged : list ((str * str * str * str * str) * vulnerability)) (item : vulnerability) :=
  match od_get (vulnerability_key item) merged with
  | None => od_set (vulnerability_key item) item merged
  | Some current =>
      let references := take max_nested_items (fromkeys (vu_references current ++ vu_references item)) in
      od_set (vulnerability_key item)
        (mkVuln (vu_id item) (vu_severity item)
           (match vu_cvss_score item with Some c => Some c | None => vu_cvss_score current end)
           (vu_affected_asset_id item) (vu_parent_asset_id item) (vu_source item)
           (match vu_evidence item with Some e => Some e | None => vu_evidence current end) references) merged
  end.

Definition finding_ltb (a b : vulnerability) : bool :=
  let score v := default (fl_of_Z 0) (vu_cvss_score v) in
  (severity_rank (vu_severity b) <? severity_rank (vu_severity a))
  || (severity_rank (vu_severity b) =? severity_rank (vu_severity a)) && fl_ltb (score b) (score a).

(** [_merged_vulnerabilities] *)
Definition merged_vulnerabilities (reports : list report) (detections : list detection_result) : list vulnerability :=
  isort finding_ltb
    (snd <$> fold_left merge_vulnerability ((reports ≫= ar_vulnerabilities) ++ (detections ≫= de_vulnerabilities)) []).

(** [asset_kind_totals] *)
Definition asset_kind_totals (assets : list (Asset X)) : list (AssetKind * Z) :=
  (fun k => (k, Z.of_nat (length (base.filter (fun a => a_kind a = k) assets)))) <$> asset_kind_order.

(** The stores of the application. *)
Record stores := mkStores { st_reports : store report; st_detections : store detection_result }.

Definition report_field (field : str) (r : report) : option str :=
  if bool_decide (field = u "report_id") then Some (ar_report_id r) else None.
Definition detection_field (field : str) (d : detection_result) : option str :=
  if bool_decide (field = u "report_id") then Some (de_report_id d) else None.

(** [_LINEAGE_FIELDS] of both tables *)
Definition lineage_config : option (str * LineageKind) := Some (u "report_id", Asset_lineage).

Definition find_reports (s : stores) (value : str) : res (list report) :=
  find_lineage report_field lineage_config (st_reports s) (u "report_id") value Asset_lineage.
Definition find_detections (s : stores) (value : str) : res (list detection_result) :=
  find_lineage detection_field lineage_config (st_detections s) (u "report_id") value Asset_lineage.

Definition asset_rows (s : stores) (report_id : str) : res (lineage_view report) :=
  lineage_rows (fun r => Some (ar_report_id r)) (find_reports s) Asset_lineage report_id.
Definition detection_rows (s : stores) (report_id : str) : res (lineage_view detection_result) :=
  lineage_rows (fun d => Some (de_report_id d)) (find_detections s) Asset_lineage report_id.

(** The completeness of the detections of a report. *)
Definition combined_complete (expected : option Z) (received : Z) (asset_complete detection_complete : option bool)
    : option bool :=
  match expected with
  | Some e => Some ((received =? e) && negb (bool_decide (asset_complete = Some false)))
  | None => detection_complete
  end.

(** [_build_report_projection] *)
Definition build_report_projection (s : stores) (report_id : str) : res ReportProjection :=
  av ← asset_rows s report_id;
  match lv_rows av with
  | [] => Raise (HTTPException 404)
  | first :: _ =>
      let reports := lv_rows av in
      dv ← detection_rows s (lv_root av);
      let detections := lv_rows dv in
      let received := Z.of_nat (length detections) in
      let expected := match lv_expected av with Some e => Some e | None => lv_expected dv end in
      let complete := combined_complete expected received (lv_complete av) (lv_complete dv) in
      let assets := merged_assets reports in
      Ok (mkProjection (lv_root av) (ar_header first) (ar_detector_runs first)
            (mkSummary (lv_root av) (lv_expected av) (Z.of_nat (length reports)) (lv_complete av))
            assets (asset_kind_totals assets)
            (mkSummary (lv_root dv) expected received complete)
            ((fun d => (de_report_id d, de_summary d)) <$> detections)
            (merged_vulnerabilities reports detections))
  end.

(** [get_detection_lineage] *)
Definition get_detection_lineage (s : stores) (report_id : str) : res (lineage_view detection_result) :=
  av ← asset_rows s report_id;
  dv ← detection_rows s (lv_root av);
  if bool_decide (length (lv_rows av) = 0%nat) && bool_decide (length (lv_rows dv) = 0%nat) then Raise (HTTPException 404)
  else
    let expected := match lv_expected av with Some e => Some e | None => lv_expected dv end in
    Ok (mkView (lv_root dv) expected
          (combined_complete expected (Z.of_nat (length (lv_rows dv))) (lv_complete av) (lv_complete dv)) (lv_rows dv)).

(** ** A page of the details *)

(** [items[start : start + size]] *)
Definition slice {T} (start size : Z) (items : list T) : list T := take (Z.to_nat size) (drop (Z.to_nat start) items).

(** The asset and finding fields of [ReportDetailPage]. *)
Record page_of (T : Type) := mkPage { pg_items : list T; pg_total : Z; pg_page : Z; pg_has_more : bool }.
Arguments mkPage {T}.

Definition detail_page {T} (items : list T) (requested page_size : Z) : page_of T :=
  let total := Z.of_nat (length items) in
  let actual := bounded_page requested total page_size in
  let start := actual * page_size in
  let paged := slice start page_size items in
  mkPage paged total actual (start + Z.of_nat (length paged) <? total).

(** [get_report_detail_page], of a projection *)
Definition report_detail_page (p : ReportProjection) (asset_page asset_page_size finding_page finding_page_size : Z)
    : page_of (Asset X) * page_of vulnerability :=
  (detail_page (rp_assets p) asset_page asset_page_size, detail_page (rp_vulnerabilities p) finding_page finding_page_size).
End Projection.

Arguments stores : clear implicits.
Arguments ReportProjection : clear implicits.
