(* ===== verification/ReportProps.v ===== *)
(** * What the read side of the reports promises

    Pages cover the retained records; the chunks of a split upload are put back
    together in order, with their completeness told truly. *)

From stdpp Require Import base gmap sets strings numbers list sorting.
From Stdlib Require Import ZArith Lia.
From S2P Require Import Prelude PyText PyFloat Compare Severity Detect Coverage Tables Lineage RecordStore StoreProps Chunks ChunkProps Reports.

#[local] Open Scope Z_scope.

(** ** Putting chunks back together *)
Section Reassembly.
Context {U : Unicode} {R : Type} (id_of : R -> str).
Context (kind : LineageKind) (root : str) (chunks : list R).
Hypothesis root_is_plain : plain kind root.
Hypothesis root_chars : some_chars root = true.
Hypothesis few : (N.of_nat (length chunks) < 10 ^ 14)%N.
Hypothesis ids : forall i c, chunks !! i = Some c -> id_of c = chunk_id root (N.of_nat (length chunks)) (N.of_nat i + 1).

Definition total : Z := Z.of_nat (length chunks).

(** What the scan makes of the [i]-th chunk. *)
Definition entry (i : nat) (c : R) : found_row R :=
  mkFound (Z.of_nat i + 1) (id_of c) (if decide (i = 0%nat) then None else Some total) c.

Lemma id_root i c : chunks !! i = Some c -> id_of c = root <-> i = 0%nat.
Proof.
  intros Hi. rewrite (ids i c Hi). split; [|by intros ->]. intros E. destruct i as [|i]; [done|]. exfalso.
  unfold chunk_id in E. rewrite (proj2 (N.eqb_neq _ _)) in E by lia. pose proof (numbered_longer root (u "chunk")
    (N.of_nat (S i) + 1) (N.of_nat (length chunks))) as Hl. rewrite E in Hl. lia.
Qed.

Lemma parse_chunk i c : chunks !! i = Some c -> parse_lineage_id (id_of c) kind =
  Ok (if decide (i = 0%nat) then None else Some (root, Z.of_nat i + 1, Some total)).
Proof.
  intros Hi. rewrite (ids i c Hi). pose proof (lookup_lt_Some _ _ _ Hi) as Hlt. case_decide as Hz.
  - subst i. exact root_is_plain.
  - unfold chunk_id, numbered. rewrite (proj2 (N.eqb_neq _ _)) by lia.
    change (root ++ u "::" ++ u "chunk" ++ u "-" ++ dec (N.of_nat i + 1) ++ u "-of-" ++ dec (N.of_nat (length chunks)))
      with (root ++ u "::chunk-" ++ dec (N.of_nat i + 1) ++ u "-of-" ++ dec (N.of_nat (length chunks))).
    rewrite parse_form_chunk by (try done; lia). unfold total. do 3 f_equal; [f_equal|f_equal]; lia.
Qed.

Lemma chunk_unique i j c : chunks !! i = Some c -> chunks !! j = Some c -> i = j.
Proof.
  intros Hi Hj. assert (E := ids i c Hi). rewrite (ids j c Hj) in E. apply chunk_id_inj in E; lia.
Qed.

Lemma id_unique c d : c ∈ chunks -> d ∈ chunks -> id_of c = id_of d -> c = d.
Proof.
  intros [i Hi]%list_elem_of_lookup [j Hj]%list_elem_of_lookup E. rewrite (ids i c Hi), (ids j d Hj) in E.
  apply chunk_id_inj in E; [|lia|lia]. assert (i = j) as -> by lia. congruence.
Qed.

(** The scan over rows that are chunks. *)
Lemma collect_chunks rows : (forall c, c ∈ rows -> c ∈ chunks) ->
  exists found, collect_found (fun c => Some (id_of c)) kind root rows = Ok found /\
    Forall2 (fun c f => exists i, chunks !! i = Some c /\ f = entry i c) rows found.
Proof.
  induction rows as [|c rows IH]; intros Hsub; [by exists []|].
  destruct IH as (found & E & F); [intros; apply Hsub; by right|].
  destruct (proj1 (list_elem_of_lookup chunks c) (Hsub c ltac:(by left))) as [i Hi].
  cbn [collect_found]. rewrite (parse_chunk i c Hi), E. cbn [mbind res_bind].
  exists (entry i c :: found). split; [|constructor; [by exists i|done]].
  pose proof (id_root i c Hi) as Hr. unfold entry. case_decide as Hz.
  - rewrite bool_decide_true by (by apply Hr). subst i. rewrite (proj2 Hr eq_refl). done.
  - rewrite bool_decide_false by tauto. rewrite bool_decide_true by done. done.
Qed.

(** Keeping the first row of each identifier. *)
Lemma first_by_id_spec (found : list (found_row R)) : NoDup (first_by_id found).*1 /\
  (forall k f, (k, f) ∈ first_by_id found -> f ∈ found /\ fd_id f = k) /\
  (forall f, f ∈ found -> fd_id f ∈ (first_by_id found).*1).
Proof.
  unfold first_by_id.
  set (step := fun unique item => match od_get (fd_id item) unique with Some _ => unique | None => od_set (fd_id item) item unique end).
  assert (H : forall l done acc, NoDup acc.*1 -> (forall k f, (k, f) ∈ acc -> f ∈ done /\ fd_id f = k) ->
    (forall f, f ∈ done -> fd_id f ∈ acc.*1) ->
    let out := fold_left step l acc in NoDup out.*1 /\ (forall k f, (k, f) ∈ out -> f ∈ done ++ l /\ fd_id f = k) /\
      (forall f, f ∈ done ++ l -> fd_id f ∈ out.*1)).
  { induction l as [|x l IH]; intros dn acc Hn H1 H2; cbn [fold_left].
    - cbn zeta. rewrite app_nil_r. done.
    - rewrite (cons_middle x dn l), (assoc_L (++)). apply IH.
      + unfold step. destruct (od_get _ _); [done|by apply od_set_NoDup].
      + intros k f. unfold step. destruct (od_get (fd_id x) acc) eqn:E.
        * intros Hin. destruct (H1 k f Hin). split; [apply elem_of_app; by left|done].
        * intros Hin. apply od_elem_get in Hin; [|by apply od_set_NoDup]. rewrite od_get_set in Hin. case_decide as Hk.
          -- injection Hin as <-. split; [apply elem_of_app; right; by left|done].
          -- apply od_get_Some_elem, H1 in Hin as [? ?]. split; [apply elem_of_app; by left|done].
      + assert (Hkeys : forall k, k ∈ acc.*1 -> k ∈ (step acc x).*1).
        { intros k Hk. unfold step. destruct (od_get _ _); [done|]. rewrite od_set_keys. case_decide; [done|]. apply elem_of_app. by left. }
        intros f [Hf| ->%list_elem_of_singleton]%elem_of_app; [by apply Hkeys, H2|].
        unfold step. destruct (od_get (fd_id x) acc) eqn:E.
        * apply od_get_Some_elem in E. apply list_elem_of_fmap. by eexists (_, _).
        * rewrite od_set_keys. case_decide; [done|]. apply elem_of_app. right. by left. }
  apply (H found [] []); [constructor| |]; intros; by match goal with Hin : _ ∈ [] |- _ => apply not_elem_of_nil in Hin end.
Qed.

(** The chunks whose identifier is among those of [rows], in order. *)
Definition present (rows : list R) : list (nat * R) :=
  base.filter (fun ic => id_of ic.2 ∈ id_of <$> rows) (imap (fun i c => (i, c)) chunks).

Lemma elem_present rows i c : (forall c, c ∈ rows -> c ∈ chunks) -> (i, c) ∈ present rows <-> chunks !! i = Some c /\ c ∈ rows.
Proof.
  intros Hsub. unfold present. rewrite list_elem_of_filter. cbn [snd].
  assert (Him : (i, c) ∈ imap (fun i c => (i, c)) chunks <-> chunks !! i = Some c).
  { rewrite list_elem_of_lookup. split.
    - intros [k Hk]. rewrite list_lookup_imap in Hk. destruct (chunks !! k) eqn:E; [|done]. cbn in Hk. injection Hk as -> ->. done.
    - intros Hi. exists i. by rewrite list_lookup_imap, Hi. }
  rewrite Him. split.
  - intros [Hid Hi]. split; [done|]. apply list_elem_of_fmap in Hid as (d & Ed & Hd).
    rewrite (id_unique c d); [done|by eapply list_elem_of_lookup_2|by apply Hsub|done].
  - intros [Hi Hc]. split; [|done]. apply list_elem_of_fmap. by exists c.
Qed.

Lemma found_asym (a b : found_row R) : found_ltb a b = true -> found_ltb b a = false.
Proof.
  unfold found_ltb. rewrite orb_true_iff, andb_true_iff, Z.ltb_lt, Z.eqb_eq, orb_false_iff, andb_false_iff, Z.ltb_ge, Z.eqb_neq.
  intros [?|[? Hs]]; (split; [lia|]); [left; lia|right]. by apply str_ltb_asym.
Qed.

Lemma found_nlt_trans (a b c : found_row R) : found_ltb b a = false -> found_ltb c b = false -> found_ltb c a = false.
Proof.
  unfold found_ltb. rewrite !orb_false_iff, !andb_false_iff, !Z.ltb_ge, !Z.eqb_neq.
  intros [? H1] [? H2]. split; [lia|]. destruct (decide (fd_index c = fd_index a)); [right|left; lia].
  destruct H1; [lia|]. destruct H2; [lia|]. by eapply str_ltb_nlt_trans.
Qed.

Lemma present_sorted rows : StronglySorted (fun a b => (a.1 < b.1)%nat) (present rows).
Proof.
  unfold present. assert (H : forall (l : list R) k, StronglySorted (fun a b => (a.1 < b.1)%nat) (imap (fun i c => ((k + i)%nat, c)) l)).
  { induction l as [|x l IH]; intros k; [constructor|]. rewrite imap_cons. constructor.
    - rewrite (imap_ext _ (fun i c => ((S k + i)%nat, c))) by (intros; unfold compose; f_equal; lia). apply IH.
    - apply List.Forall_forall. intros [j y] Hin%list_elem_of_In. apply list_elem_of_lookup in Hin as [m Hm].
      rewrite list_lookup_imap in Hm. destruct (l !! m); [|done]. cbn in Hm. injection Hm as <- <-. cbn. lia. }
  specialize (H chunks 0%nat). cbn [Nat.add] in H.
  induction H as [|x l Hs IH Hx]; [constructor|]. rewrite filter_cons. case_decide; [|done]. constructor; [done|].
  rewrite List.Forall_forall in *. intros y Hy. apply Hx. apply list_elem_of_In, list_elem_of_filter in Hy as [_ Hy].
  by apply list_elem_of_In.
Qed.

Lemma ordered_chunks rows found : (forall c, c ∈ rows -> c ∈ chunks) ->
  Forall2 (fun c f => exists i, chunks !! i = Some c /\ f = entry i c) rows found ->
  isort found_ltb (snd <$> first_by_id found) = (fun ic => entry ic.1 ic.2) <$> present rows.
Proof.
  intros Hsub F. destruct (first_by_id_spec found) as (Hn & Hin & Hall).
  assert (Hfound : forall f, f ∈ found <-> exists i c, f = entry i c /\ chunks !! i = Some c /\ c ∈ rows).
  { intros f. split.
    - intros [k Hk]%list_elem_of_lookup. destruct (Forall2_lookup_r _ _ _ _ _ F Hk) as (c & Hc & i & Hi & ->).
      exists i, c. split; [done|]. split; [done|]. by eapply list_elem_of_lookup_2.
    - intros (i & c & -> & Hi & [k Hk]%list_elem_of_lookup). destruct (Forall2_lookup_l _ _ _ _ _ F Hk) as (f & Hf & j & Hj & ->).
      rewrite (chunk_unique i j c Hi Hj). by eapply list_elem_of_lookup_2. }
  assert (Hvals : NoDup (snd <$> first_by_id found)).
  { apply (NoDup_fmap_1 fd_id). rewrite <-list_fmap_compose.
    rewrite (list_fmap_ext _ fst (first_by_id found)); [done|]. intros k [id f] Hk. cbn.
    by apply list_elem_of_lookup_2, Hin in Hk as [_ ?]. }
  assert (Hsorted := present_sorted rows).
  assert (Hpres : StronglySorted (fun a b => fd_index a < fd_index b) ((fun ic => entry ic.1 ic.2) <$> present rows)).
  { induction Hsorted as [|x l Hs IH Hx]; [constructor|]. csimpl. constructor; [done|].
    rewrite List.Forall_forall in *. intros y Hy. apply list_elem_of_In, list_elem_of_fmap in Hy as (z & -> & Hz).
    apply list_elem_of_In, Hx in Hz. cbn. lia. }
  assert (Hperm : snd <$> first_by_id found ≡ₚ (fun ic => entry ic.1 ic.2) <$> present rows).
  { apply NoDup_Permutation; [done| |].
    - clear -Hpres. induction Hpres as [|x l Hs IH Hx]; constructor; [|done]. intros Hin. rewrite List.Forall_forall in Hx.
      apply list_elem_of_In, Hx in Hin. lia.
    - intros f. rewrite !list_elem_of_fmap. split.
      + intros ([k g] & -> & Hg). cbn. destruct (Hin k g Hg) as [Hf _]. apply Hfound in Hf as (i & c & -> & Hi & Hc).
        exists (i, c). split; [done|]. by apply elem_present.
      + intros ([i c] & -> & Hic). apply elem_present in Hic as [Hi Hc]; [|done]. cbn.
        assert (Hf : entry i c ∈ found) by (apply Hfound; by exists i, c).
        pose proof (Hall _ Hf) as Hk. apply list_elem_of_fmap in Hk as ([k g] & Ek & Hg). exists (k, g). split; [|done]. cbn in *.
        destruct (Hin k g Hg) as [Hg' Eg]. apply Hfound in Hg' as (j & d & -> & Hj & Hd). cbn in Eg.
        assert (c = d) as -> by (apply id_unique; [by apply Hsub|by apply Hsub|congruence]).
        by rewrite (chunk_unique i j d Hi Hj). }
  apply (StronglySorted_unique_strong (fun a b => found_ltb b a = false)).
  - intros a b Ha Hb Hab Hba. rewrite isort_elem, Hperm in Ha.
    apply list_elem_of_fmap in Ha as ([i c] & -> & Hic). apply list_elem_of_fmap in Hb as ([j d] & -> & Hjd).
    apply elem_present in Hic as [Hi _]; [|done]. apply elem_present in Hjd as [Hj _]; [|done].
    unfold found_ltb in Hab, Hba. cbn in *. rewrite !orb_false_iff, !Z.ltb_ge in *.
    assert (i = j) as -> by lia. by assert (c = d) as -> by congruence.
  - apply isort_Sorted; [apply found_asym|apply found_nlt_trans].
  - clear -Hpres. induction Hpres as [|x l Hs IH Hx]; constructor; [done|]. rewrite List.Forall_forall in *. intros y Hy.
    specialize (Hx y Hy). unfold found_ltb. rewrite (proj2 (Z.ltb_ge _ _)), (proj2 (Z.eqb_neq _ _)) by lia. done.
  - by rewrite isort_perm.
Qed.

(** All the totals that were found are the number of chunks. *)
Lemma totals_of rows : remove_dups (omap fd_total ((fun ic => entry ic.1 ic.2) <$> present rows)) =
  (if decide (Exists (fun ic => ic.1 <> 0%nat) (present rows)) then [total] else []).
Proof.
  set (l := omap fd_total _).
  assert (Hl : forall t, t ∈ l <-> t = total /\ exists ic, ic ∈ present rows /\ ic.1 <> 0%nat).
  { intros t. unfold l. rewrite list_elem_of_omap. split.
    - intros (f & Hf & Ht). apply list_elem_of_fmap in Hf as (ic & -> & Hic). cbn in Ht. case_decide; [done|].
      injection Ht as <-. split; [done|]. by exists ic.
    - intros [-> (ic & Hic & Hz)]. exists (entry ic.1 ic.2). split; [apply list_elem_of_fmap; by exists ic|].
      cbn. by rewrite decide_False. }
  assert (Hd : forall k : list Z, NoDup k -> (forall t, t ∈ k -> t = total) -> total ∈ k -> k = [total]).
  { intros [|x k] Hn Hk Hin; [by apply not_elem_of_nil in Hin|]. rewrite (Hk x) by (by left).
    destruct k as [|y k]; [done|]. exfalso. rewrite (Hk x) in Hn by (by left). rewrite (Hk y) in Hn by (right; by left).
    apply NoDup_cons in Hn as [Hx _]. apply Hx. by left. }
  destruct (decide (Exists _ _)) as [He|He]; rewrite Exists_exists in He.
  - apply Hd; [apply NoDup_remove_dups| |].
    + intros t Ht. apply elem_of_remove_dups, Hl in Ht. tauto.
    + apply elem_of_remove_dups, Hl. done.
  - destruct l as [|x k]; [done|]. exfalso. apply He. apply (Hl x). by left.
Qed.

(** What the reader sees of rows that are chunks. *)
Lemma read_chunks find requested rows : (exists c, c ∈ chunks /\ requested = id_of c) -> find requested = Ok rows ->
  (forall c, c ∈ rows -> c ∈ chunks) ->
  exists view, lineage_rows (fun c => Some (id_of c)) find kind requested = Ok view /\
    lv_root view = root /\ lv_rows view = snd <$> present rows /\
    (lv_expected view = None \/ lv_expected view = Some total) /\
    (lv_complete view = Some true <-> (1 < length chunks)%nat /\ forall c, c ∈ chunks -> c ∈ rows).
Proof.
  intros (c0 & Hc0 & ->) Hfind Hsub. apply list_elem_of_lookup in Hc0 as [i0 Hi0].
  destruct (collect_chunks rows Hsub) as (found & Ef & Ff). unfold lineage_rows.
  assert (Eroot : match (if decide (i0 = 0%nat) then None else Some (root, Z.of_nat i0 + 1, Some total)) with
                  | Some (r, _, _) => r | None => id_of c0 end = root).
  { case_decide as Hz; [|done]. by apply (id_root i0 c0 Hi0). }
  rewrite (parse_chunk i0 c0 Hi0). cbn [mbind res_bind]. rewrite Eroot, Hfind. cbn [mbind res_bind]. rewrite Ef. cbn [mbind res_bind].
  rewrite (ordered_chunks rows found Hsub Ff), totals_of. eexists. split; [reflexivity|]. cbn [lv_root lv_rows lv_expected lv_complete].
  split; [done|]. split; [|split].
  - rewrite <-list_fmap_compose. by apply list_fmap_ext.
  - destruct (decide (Exists _ _)); [by right|by left].
  - assert (Hix : forall z, z ∈ fd_index <$> ((fun ic => entry ic.1 ic.2) <$> present rows) <->
      exists i c, chunks !! i = Some c /\ c ∈ rows /\ z = Z.of_nat i + 1).
    { intros z. rewrite <-list_fmap_compose, list_elem_of_fmap. split.
      - intros ([i c] & -> & Hic). apply elem_present in Hic as [Hi Hc]; [|done]. by exists i, c.
      - intros (i & c & Hi & Hc & ->). exists (i, c). split; [done|]. by apply elem_present. }
    destruct (decide (Exists _ _)) as [He|He]; rewrite Exists_exists in He; unfold complete_of; cbn [expected_of fold_left length].
    + rewrite bool_decide_true by done. cbn [andb]. split.
      * intros [= Hset%bool_decide_eq_true]. destruct He as ([i c] & Hic & Hz). apply elem_present in Hic as [Hi Hc]; [|done].
        cbn in Hz. pose proof (lookup_lt_Some _ _ _ Hi). split; [lia|]. intros d [j Hj]%list_elem_of_lookup.
        assert (Hin : (Z.of_nat j + 1) ∈ (list_to_set (seqZ 1 total) : gset Z)).
        { apply elem_of_list_to_set, elem_of_seqZ. pose proof (lookup_lt_Some _ _ _ Hj). unfold total. lia. }
        rewrite <-Hset, elem_of_list_to_set in Hin. apply Hix in Hin as (k & e & Hk & He & Ek).
        assert (k = j) as -> by lia. by assert (e = d) as <- by congruence.
      * intros [_ Hall]. f_equal. apply bool_decide_eq_true. apply set_eq. intros z. rewrite !elem_of_list_to_set, Hix, elem_of_seqZ.
        split.
        -- intros (k & e & Hk & _ & ->). pose proof (lookup_lt_Some _ _ _ Hk). unfold total. lia.
        -- intros Hz. unfold total in Hz. destruct (lookup_lt_is_Some_2 chunks (Z.to_nat (z - 1))) as [e He']; [lia|].
           exists (Z.to_nat (z - 1)), e. split; [done|]. split; [apply Hall; by eapply list_elem_of_lookup_2|lia].
    + split; [done|]. intros [Hlen Hall]. exfalso. apply He. destruct (lookup_lt_is_Some_2 chunks 1 Hlen) as [e He'].
      exists (1%nat, e). split; [|done]. apply elem_present; [done|]. split; [done|]. apply Hall. by eapply list_elem_of_lookup_2.
Qed.

Lemma present_all rows : (forall c, c ∈ chunks -> c ∈ rows) -> snd <$> present rows = chunks.
Proof.
  intros Hall. unfold present.
  assert (E : base.filter (fun ic => id_of ic.2 ∈ id_of <$> rows) (imap (fun i c => (i, c)) chunks) = imap (fun i c => (i, c)) chunks).
  { apply filter_all. intros [i c] [k Hk]%list_elem_of_lookup. rewrite list_lookup_imap in Hk.
    destruct (chunks !! k) as [d|] eqn:E; [|done]. cbn in Hk. injection Hk as _ <-. apply list_elem_of_fmap. exists d.
    split; [done|]. apply Hall. by eapply list_elem_of_lookup_2. }
  rewrite E. apply list_eq. intros i. rewrite list_lookup_fmap, list_lookup_imap. by destruct (chunks !! i).
Qed.
End Reassembly.

Lemma collect_total {U : Unicode} {R} (id_of : R -> option str) kind root rows :
  (forall c v, c ∈ rows -> id_of c = Some v -> exists i, parse_lineage_id v kind = Ok i) ->
  exists found, collect_found id_of kind root rows = Ok found.
Proof.
  induction rows as [|c rows IH]; intros Hp; [by exists []|].
  destruct IH as [found E]; [intros d v Hd; apply Hp; by right|]. cbn [collect_found].
  destruct (id_of c) as [v|] eqn:Ev; [|by exists found]. destruct (Hp c v ltac:(by left) Ev) as [i Ei].
  rewrite Ei, E. cbn [mbind res_bind]. by eexists.
Qed.

Lemma lineage_rows_total {U : Unicode} {R} (id_of : R -> option str) kind find requested rows :
  (exists i, parse_lineage_id requested kind = Ok i) -> find requested = Ok rows ->
  (forall c v, c ∈ rows -> id_of c = Some v -> exists i, parse_lineage_id v kind = Ok i) ->
  exists view, lineage_rows id_of find kind requested = Ok view.
Proof.
  intros [i Ei] Ef Hp. unfold lineage_rows. rewrite Ei. cbn [mbind res_bind]. rewrite Ef. cbn [mbind res_bind].
  destruct (collect_total id_of kind (match i with Some (r, _, _) => r | None => requested end) rows Hp) as [found E].
  rewrite E. cbn [mbind res_bind]. by eexists.
Qed.

Section Stores.
Context {U : Unicode} {H X Y : Type}.

(** The rows [find_lineage] returns. *)
Lemma find_lineage_ok {R} (field_of : str -> R -> option str) (t : store R) value root :
  lineage_root value Asset_lineage = Ok root -> exists rows,
    find_lineage field_of lineage_config t (u "report_id") value Asset_lineage = Ok rows /\
    forall c, c ∈ rows <-> c ∈ rw_payload <$> st_rows t /\
      exists v, field_of (u "report_id") c = Some v /\ lineage_root v Asset_lineage = Ok root.
Proof.
  intros Er. unfold find_lineage, lineage_config. rewrite !bool_decide_true by done.
  change (field_name (u "report_id")) with true. cbn [andb]. rewrite Er. cbn [mbind res_bind].
  eexists. split; [done|]. intros c. rewrite !list_elem_of_fmap. split.
  - intros (r & -> & [Hl Hr]%elem_select_where). rewrite elem_of_rev in Hr. split; [by exists r|]. unfold in_lineage in Hl.
    destruct (field_of _ _) as [v|]; [|done]. exists v. split; [done|]. destruct (lineage_root v Asset_lineage) as [r'|]; [|done].
    apply bool_decide_eq_true in Hl. by rewrite Hl.
  - intros [(r & -> & Hr) (v & Hv & El)]. exists r. split; [done|]. apply elem_select_where. split; [|by apply elem_of_rev].
    unfold in_lineage. rewrite Hv, El. by apply bool_decide_eq_true.
Qed.

Lemma root_parsed v kind root : lineage_root v kind = Ok root -> exists i, parse_lineage_id v kind = Ok i.
Proof. unfold lineage_root. intros E. apply bind_Ok_inv in E as (i & E & _). by exists i. Qed.

Lemma detections_total (s : stores H X Y) root r : lineage_root root Asset_lineage = Ok r -> exists view, detection_rows s root = Ok view.
Proof.
  intros Er. destruct (find_lineage_ok detection_field (st_detections s) root r Er) as (rows & Ef & Hrows).
  apply (lineage_rows_total _ _ _ _ rows); [by eapply root_parsed|exact Ef|].
  intros c v Hc [= <-]. apply Hrows in Hc as [_ (v & Hv & Hl)]. cbn in Hv. injection Hv as <-. by eapply root_parsed.
Qed.

Lemma merged_assets_flat (l k : list (AssetReport H (Asset X))) : (l ≫= ar_assets) = (k ≫= ar_assets) -> merged_assets l = merged_assets k.
Proof. unfold merged_assets, assets_by_id. by intros ->. Qed.

Lemma merged_vulnerabilities_flat (l k : list (AssetReport H (Asset X))) (ds : list (DetectionResult Y)) :
  (l ≫= ar_vulnerabilities) = (k ≫= ar_vulnerabilities) -> merged_vulnerabilities l ds = merged_vulnerabilities k ds.
Proof. unfold merged_vulnerabilities. by intros ->. Qed.
End Stores.


Module Example_read.
(** An asset is as large as the rest of its fields says. *)
#[export, program] Instance asset_wire : ReportWire unit (Asset Z) := {|
  wr_header _ := 50;
  wr_id := Example_wire.id_size;
  wr_asset a := Example_wire.asset_size (a_rest a);
  wr_vulnerability := Example_wire.finding_size;
  wr_runs := Example_wire.runs_size;
  wr_encoded r := 50 + Example_wire.id_size (ar_report_id r)
    + array_content ((fun a => Example_wire.asset_size (a_rest a)) <$> ar_assets r)
    + array_content (Example_wire.finding_size <$> ar_vulnerabilities r) + Example_wire.runs_size (ar_detector_runs r);
|}.
Next Obligation. unfold Example_wire.asset_size, Example_wire.finding_size. split; intros; lia. Qed.
Next Obligation. done. Qed.

Definition report : AssetReport unit (Asset Z) := mkReport (u "r") ()
  [mkAsset (u "a1") Package 300; mkAsset (u "a2") Service 200; mkAsset (u "a3") Port 100]
  [Example_wire.posture "p1"; Example_wire.posture "p2"] (Some [mkRun POSTURE C_COMPLETE 2 None]).

Definition parts : list (AssetReport unit (Asset Z)) :=
  match split_asset_report report 900 with Ok chunks => chunks | Raise _ => [] end.

(** The chunks arrive in reverse, the second one twice. *)
Definition received : stores unit Z unit :=
  mkStores (mkStore (imap (fun i c => mkRow (Z.of_nat i + 1) c 1) (rev parts ++ drop 1 parts)) 3 3 3) empty_store.
End Example_read.
Import Example_read.

