(* ===== verification/PageProps.v ===== *)
(** * What paging promises

    Pages advance by what a read returned, so with every record within the byte
    budget of a read they cover the retained records, newest first, none skipped
    and none twice. *)

From stdpp Require Import base gmap sets strings numbers list.
From Stdlib Require Import ZArith Lia.
From S2P Require Import Prelude PyText Tables Lineage RecordStore StoreProps Chunks Reports.

#[local] Open Scope Z_scope.

Section Pages.
Context {R : Type} (l : limits) (s : store R).
Hypothesis all_readable : forall r, r ∈ st_rows s -> readable l r.

(** The retained records, newest first. *)
Definition newest : list R := rw_payload <$> rev (st_rows s).

Lemma newest_length : length newest = length (st_rows s).
Proof. unfold newest. by rewrite length_fmap, length_rev. Qed.

(** A read returns a run of the records, not an empty one while there are any. *)
Lemma tail_run limit offset : 0 < limit -> exists n, (n <= Z.to_nat limit)%nat /\
  tail l s limit (Z.of_nat offset) = take n (drop offset newest) /\
  ((offset < length newest)%nat -> (0 < n)%nat).
Proof.
  intros Hlim. unfold tail. rewrite (proj2 (Z.leb_gt _ _)) by lia. rewrite (proj2 (Z.ltb_ge _ _)) by lia. cbn [orb].
  rewrite Nat2Z.id. set (rows := drop offset (rev (st_rows s))).
  destruct (read_rows_prefix l (take (Z.to_nat limit) rows) 0) as [rest E].
  set (read := read_rows l 0 (take (Z.to_nat limit) rows)) in *.
  assert (Hlen : (length read <= Z.to_nat limit)%nat).
  { pose proof (f_equal length E) as HE. rewrite length_app, length_take in HE. lia. }
  exists (length read). split; [done|]. split.
  - unfold newest. rewrite <-fmap_drop, <-fmap_take. fold rows. f_equal.
    rewrite <-(take_drop (Z.to_nat limit) rows), E, <-(assoc_L (++)). by rewrite take_app_length.
  - intros Hoff. rewrite newest_length in Hoff.
    destruct (lookup_lt_is_Some_2 (rev (st_rows s)) offset) as [r Hr]; [by rewrite length_rev|].
    assert (Erows : rows = r :: drop (S offset) (rev (st_rows s))) by (unfold rows; by apply drop_S).
    assert (Hread : readable l r) by (apply all_readable, elem_of_rev; by eapply list_elem_of_lookup_2).
    destruct (Z.to_nat limit) as [|k] eqn:Ek; [lia|].
    destruct (read_rows_head l r (take k (drop (S offset) (rev (st_rows s)))) Hread) as [t Et].
    unfold read. rewrite Erows. cbn [take]. rewrite Et. cbn. lia.
Qed.

(** Where the pages stand: how many records those before [page] return. *)
Lemma page_offset_step limit page : forall offset,
  page_offset l s limit (S page) offset =
  (o ← page_offset l s limit page offset;
   match tail l s limit o with [] => None | rows => Some (o + Z.of_nat (length rows)) end).
Proof.
  induction page as [|page IH]; intros offset; cbn [page_offset mbind option_bind].
  - by destruct (tail l s limit offset).
  - destruct (tail l s limit offset) eqn:E; [done|]. apply IH.
Qed.

(** The rows of a page. *)
Definition page_items (limit : Z) (page : nat) : list R := (page_rows l s limit page).1.

Lemma pages_run limit n : 0 < limit -> exists k, (k <= length newest)%nat /\
  concat (page_items limit <$> seq 0 n) = take k newest /\ ((n <= length newest)%nat -> (n <= k)%nat) /\
  (page_offset l s limit n 0 = Some (Z.of_nat k) \/ page_offset l s limit n 0 = None /\ k = length newest).
Proof.
  intros Hlim. induction n as [|n IH].
  - exists 0%nat. split_and!; [lia|done|lia|by left].
  - destruct IH as (k & Hk & Ec & Hge & Hoff). rewrite seq_S, fmap_app, concat_app, Ec. cbn [fmap list_fmap concat Nat.add].
    unfold page_items, page_rows. rewrite page_offset_step. destruct Hoff as [->|[-> ->]]; cbn [mbind option_bind].
    + destruct (tail_run limit k Hlim) as (m & Hm & Et & Hpos). rewrite Et. cbn [fst].
      rewrite app_nil_r, take_take_drop.
      destruct (decide (k < length newest)%nat) as [Hlt|Hge'].
      * exists (Nat.min (k + m) (length newest)). specialize (Hpos Hlt). split; [lia|]. split; [|split; [lia|]].
        -- destruct (decide (k + m <= length newest)%nat); [by rewrite Nat.min_l by lia|].
           rewrite Nat.min_r by lia. rewrite !take_ge by lia. done.
        -- left. destruct (take m (drop k newest)) as [|x t] eqn:Ex.
           { exfalso. pose proof (f_equal length Ex) as HE. rewrite length_take, length_drop in HE. cbn in HE. lia. }
           f_equal. pose proof (f_equal length Ex) as HE. rewrite length_take, length_drop in HE. lia.
      * exists (length newest). assert (k = length newest) as -> by lia. split; [done|]. split; [|split; [lia|]].
        -- by rewrite !take_ge by lia.
        -- right. rewrite drop_ge by lia. by rewrite take_nil.
    + exists (length newest). split; [done|]. split; [by rewrite app_nil_r|]. split; [lia|by right].
Qed.
End Pages.

(** Pages cover the retained records: if every record is within the byte budget
    of a read, the first pages put together are all records, newest first, however
    few a single read returns; and a page says that there is more exactly when the
    next one is not empty. *)
Theorem pages_cover {R : Type} (l : limits) (s : store R) limit : 0 < limit ->
  (forall r, r ∈ st_rows s -> readable l r) ->
  concat (page_items l s limit <$> seq 0 (length (st_rows s))) = newest s /\
  forall page, (page_rows l s limit page).2 = true <-> page_items l s limit (S page) <> [].
Proof.
  intros Hlim Hr. split.
  - destruct (pages_run l s Hr limit (length (st_rows s)) Hlim) as (k & Hk & E & Hge & _). rewrite E.
    rewrite newest_length in *. rewrite take_ge; [done|]. rewrite newest_length. lia.
  - intros page. destruct (pages_run l s Hr limit page Hlim) as (k & Hk & _ & _ & Hoff).
    unfold page_items, page_rows. rewrite page_offset_step. destruct Hoff as [->|[-> _]]; cbn [mbind option_bind fst snd]; [|done].
    destruct (tail_run l s Hr limit k Hlim) as (m & Hm & Et & Hpos). rewrite Et.
    destruct (take m (drop k (newest s))) as [|x t] eqn:Ex; [done|]. rewrite <-Ex. cbn [fst].
    assert (Hlen : length (take m (drop k (newest s))) = Nat.min m (length (newest s) - k)) by (by rewrite length_take, length_drop).
    rewrite (bool_decide_false (length (take m (drop k (newest s))) = 0%nat)) by (by rewrite Ex). cbn [negb andb].
    set (j := (k + length (take m (drop k (newest s))))%nat).
    replace (Z.of_nat k + Z.of_nat (length (take m (drop k (newest s))))) with (Z.of_nat j) by lia.
    destruct (tail_run l s Hr 1 j ltac:(lia)) as (m1 & Hm1 & E1 & P1).
    destruct (tail_run l s Hr limit j Hlim) as (m2 & Hm2 & E2 & P2). rewrite E1, E2.
    assert (Hempty : forall i m', ((j < length (newest s))%nat -> (0 < m')%nat) -> (i = take m' (drop j (newest s))) ->
      i <> [] <-> (j < length (newest s))%nat).
    { intros i m' Hp ->. rewrite <-length_zero_iff_nil, length_take, length_drop. lia. }
    etransitivity; [|symmetry; exact (Hempty _ m2 P2 eq_refl)]. etransitivity; [|exact (Hempty _ m1 P1 eq_refl)].
    destruct (take m1 (drop j (newest s))); cbn; [by rewrite bool_decide_true|by rewrite bool_decide_false].
Qed.

(** ** Guard events of one host *)
Section Guard.
Context {R : Type} (l : limits) (s : store R) (host_of : R -> option str) (host_id : str).
Hypothesis all_readable : forall r, r ∈ st_rows s -> readable l r.

Definition of_host (rows : list R) : list R := base.filter (fun r => host_of r = Some host_id) rows.

Lemma guard_scan_spec limit offset rows : forall M, (length (drop offset M) < limit)%nat ->
  let '(matched, out) := guard_scan host_of host_id limit offset rows (length M) (drop offset M) in
  out = take limit (drop offset (M ++ of_host rows)) /\
  ((length out < limit)%nat -> matched = length (M ++ of_host rows) /\ out = drop offset (M ++ of_host rows)).
Proof.
  induction rows as [|r rows IH]; intros M Hlt; cbn [guard_scan].
  - cbn. rewrite app_nil_r. split; [by rewrite take_ge by lia|done].
  - unfold of_host. rewrite filter_cons. fold (of_host rows).
    destruct (decide (host_of r = Some host_id)) as [Hr|Hr].
    2:{ rewrite bool_decide_false by done. cbn [negb]. by apply IH. }
    rewrite bool_decide_true by done. cbn [negb].
    assert (EM : M ++ r :: of_host rows = (M ++ [r]) ++ of_host rows) by (by rewrite <-(assoc_L (++))).
    assert (El : S (length M) = length (M ++ [r])) by (rewrite length_app; cbn; lia).
    destruct (Nat.ltb_spec (length M) offset) as [Hm|Hm].
    + assert (E0 : drop offset M = drop offset (M ++ [r])) by (rewrite !drop_ge; rewrite ?length_app; cbn; (done || lia)).
      rewrite EM, El, E0. apply IH. rewrite length_drop, length_app. rewrite length_drop in Hlt. cbn. lia.
    + assert (Ed : drop offset M ++ [r] = drop offset (M ++ [r])).
      { rewrite drop_app. replace (offset - length M)%nat with 0%nat by lia. done. }
      rewrite Ed, EM. destruct (Nat.leb_spec limit (length (drop offset (M ++ [r])))) as [Hfull|Hfull].
      * assert (Hlen : length (drop offset (M ++ [r])) = limit).
        { rewrite <-Ed, length_app in *. cbn in *. lia. }
        split; [|lia]. rewrite (drop_app_le (M ++ [r])) by (rewrite length_app; cbn; lia).
        by rewrite take_app_le, take_ge by lia.
      * rewrite El. apply IH. lia.
Qed.

Lemma guard_from_spec limit offset fuel : forall k, (0 < limit)%nat -> (length (newest s) - k < fuel)%nat -> (k <= length (newest s))%nat ->
  (length (drop offset (of_host (take k (newest s)))) < limit)%nat ->
  guard_from l host_of fuel s host_id limit offset (length (of_host (take k (newest s)))) (Z.of_nat k)
    (drop offset (of_host (take k (newest s))))
  = take limit (drop offset (of_host (newest s))).
Proof.
  induction fuel as [|fuel IH]; intros k Hlim Hfuel Hk Hlt; [lia|]. cbn [guard_from].
  rewrite (proj2 (Nat.ltb_lt _ _)) by done.
  destruct (tail_run l s all_readable STORE_PAGE_SIZE k ltac:(done)) as (m & _ & Et & Hpos). rewrite Et.
  destruct (take m (drop k (newest s))) as [|x t] eqn:Ex.
  - assert (Hke : k = length (newest s)).
    { pose proof (f_equal length Ex) as HE. rewrite length_take, length_drop in HE. cbn in HE.
      destruct (decide (k < length (newest s))%nat) as [Hl|]; [specialize (Hpos Hl)|]; lia. }
    rewrite Hke, take_ge in Hlt |- * by done. by rewrite take_ge by lia.
  - rewrite <-Ex. set (rows := take m (drop k (newest s))) in *.
    pose proof (guard_scan_spec limit offset rows (of_host (take k (newest s))) Hlt) as Hs.
    destruct (guard_scan _ _ _ _ rows _ _) as [matched out]. destruct Hs as [Hout Hmore].
    assert (Erows : of_host (take k (newest s)) ++ of_host rows = of_host (take (k + length rows) (newest s))).
    { unfold of_host. rewrite <-filter_app. f_equal. unfold rows. rewrite take_take_drop.
      destruct (decide (k + m <= length (newest s))%nat).
      - by rewrite length_take, length_drop, Nat.min_l by lia.
      - rewrite length_take, length_drop, Nat.min_r by lia. rewrite !take_ge by lia. done. }
    rewrite Erows in *.
    assert (Hrl : (0 < length rows)%nat /\ (k + length rows <= length (newest s))%nat).
    { split; [rewrite Ex; cbn; lia|]. unfold rows. rewrite length_take, length_drop. lia. }
    rewrite <-Nat2Z.inj_add. destruct (decide (length out < limit)%nat) as [Hl|Hl].
    + destruct (Hmore Hl) as [-> ->]. apply IH; [done|lia|lia|done].
    + assert (Eout : out = take limit (drop offset (of_host (newest s)))).
      { rewrite Hout. assert (Hfull : (limit <= length (drop offset (of_host (take (k + length rows) (newest s)))))%nat).
        { rewrite Hout, length_take in Hl. lia. }
        rewrite <-(take_drop (k + length rows) (newest s)) at 2. unfold of_host in *. rewrite filter_app.
        rewrite drop_app_le by (rewrite length_drop in Hfull; lia). by rewrite take_app_le. }
      rewrite Eout in Hl |- *. destruct fuel as [|fuel]; [done|]. cbn [guard_from].
      by rewrite (proj2 (Nat.ltb_ge _ _)) by lia.
Qed.
End Guard.

(** Paging the guard events of a host is slicing: however few records a read
    returns and whatever other hosts' records lie between, [_guard_rows] returns
    the records of the host from [offset] on, at most [limit] of them. *)
Theorem guard_rows_slice {R : Type} (l : limits) (s : store R) host_of host_id limit offset :
  (0 < limit)%nat -> (forall r, r ∈ st_rows s -> readable l r) ->
  guard_rows l host_of s host_id limit offset = take limit (drop offset (of_host host_of host_id (newest s))).
Proof.
  intros Hlim Hr. pose proof (guard_from_spec l s host_of host_id Hr limit offset (S (length (st_rows s))) 0) as H.
  assert (E0 : of_host host_of host_id (take 0 (newest s)) = []) by done. rewrite E0, drop_nil in H. unfold guard_rows. rewrite newest_length in H.
  apply H; cbn; lia.
Qed.

(** ** Detail pages *)

(** The detail pages of a list cover it: the pages from 0 to the last, each
    of the given size, put together are the list, and a page number past the last
    is answered with the last page. *)
Theorem detail_pages_cover {T : Type} (items : list T) size : 0 < size ->
  let last := Z.max 0 ((Z.of_nat (length items) - 1) / size) in
  concat ((fun n => pg_items _ (detail_page items (Z.of_nat n) size)) <$> seq 0 (S (Z.to_nat last))) = items /\
  (forall n, 0 <= n -> pg_has_more _ (detail_page items n size) = true <-> n < last) /\
  (forall n, last <= n -> detail_page items n size = detail_page items last size).
Proof.
  intros Hsize last. set (len := Z.of_nat (length items)) in *.
  assert (Hlast : len <= (last + 1) * size).
  { unfold last. pose proof (Z.mod_pos_bound (len - 1) size Hsize). pose proof (Z.div_mod (len - 1) size ltac:(lia)). nia. }
  assert (Hlast' : 0 < last -> last * size < len).
  { unfold last. intros Hp. pose proof (Z.mod_pos_bound (len - 1) size Hsize). pose proof (Z.div_mod (len - 1) size ltac:(lia)). nia. }
  split; [|split].
  - assert (Hrun : forall n, (n <= S (Z.to_nat last))%nat ->
      concat ((fun n => pg_items _ (detail_page items (Z.of_nat n) size)) <$> seq 0 n) = take (n * Z.to_nat size) items).
    { induction n as [|n IH]; intros Hn; [done|]. rewrite seq_S, fmap_app, concat_app, IH by lia. cbn [fmap list_fmap concat Nat.add].
      rewrite app_nil_r. unfold detail_page, slice, bounded_page. cbn [pg_items]. fold len. fold last.
      rewrite Z.min_l by lia. replace (Z.to_nat (Z.of_nat n * size)) with (n * Z.to_nat size)%nat by lia.
      rewrite take_take_drop. f_equal. lia. }
    rewrite Hrun by lia. apply take_ge. unfold len in Hlast. nia.
  - intros n Hn. unfold detail_page, slice, bounded_page. cbn [pg_has_more]. fold len. fold last.
    rewrite length_take, length_drop, Z.ltb_lt. fold len.
    destruct (decide (n < last)) as [Hl|Hl].
    + rewrite Z.min_l by lia. split; [done|]. intros _. unfold len. nia.
    + rewrite Z.min_r by lia. split; [|lia]. unfold len in *. nia.
  - intros n Hn. unfold detail_page, bounded_page. fold len. fold last. by rewrite !Z.min_r by lia.
Qed.

Import Example_store.

Lemma table_readable r : r ∈ st_rows table -> readable small r.
Proof.
  rewrite table_rows. cbn. intros Hr. right.
  repeat (apply elem_of_cons in Hr as [->|Hr]; [vm_compute; discriminate|]). by apply not_elem_of_nil in Hr.
Qed.

(** With 60 bytes to a read, two records of the first page fit only in part. *)
Lemma pages_cover_witness : concat (page_items small table 2 <$> seq 0 3) = [(u "a", 40); (u "a", 30); (u "b", 20)] /\
  length (page_items small table 2 0) = 1%nat.
Proof.
  split; [|vm_compute; reflexivity].
  pose proof (proj1 (pages_cover small table 2 ltac:(lia) table_readable)) as H.
  assert (L : length (st_rows table) = 3%nat) by (vm_compute; reflexivity). rewrite L in H.
  transitivity (newest table); [exact H|]. vm_compute. reflexivity.
Defined.

Lemma guard_rows_slice_witness : guard_rows small (fun r => Some r.1) table (u "a") 1 1 = [(u "a", 30)].
Proof.
  rewrite (guard_rows_slice small table (fun r => Some r.1) (u "a") 1 1); [vm_compute; reflexivity|lia|exact table_readable].
Defined.

Lemma detail_pages_cover_witness : detail_page [5; 6; 7] 9 2 = detail_page [5; 6; 7] 1 2.
Proof. apply (proj2 (proj2 (detail_pages_cover [5; 6; 7] 2 ltac:(lia))) 9). vm_compute. discriminate. Defined.
