(* ===== verification/ProjectionCache.v ===== *)
(** * The cache of report projections ([report_projection_cache.py] and its use in [reports.py])

    A least-recently-used cache bounded by entries and estimated bytes, whose
    entries carry the fingerprints of the lineages they were built from.  The
    [OrderedDict] is the list of its entries, oldest first; gauges and counters of
    the metrics are not modelled. *)

From stdpp Require Import base gmap sets strings numbers list.
From Stdlib Require Import ZArith Lia.
From S2P Require Import Prelude PyText Detect Lineage RecordStore Chunks Reports.

#[local] Open Scope Z_scope.

(** [StoreFingerprint] *)
Abbreviation StoreFingerprint := ((Z * Z) * (Z * Z))%type.

Section Cache.
Context {V : Type}.

(** [_CacheEntry] *)
Record CacheEntry := mkEntry { ce_value : V; ce_estimated_bytes : Z; ce_fingerprint : StoreFingerprint }.

(** [ReportProjectionCache]: its limits and its two variables. *)
Record cache := mkCache {
  ch_max_entries : Z;
  ch_max_bytes : Z;
  ch_entries : list (str * CacheEntry);
  ch_estimated_bytes : Z;
}.

#[global] Instance eta_cache : Eta cache := fun c =>
  mkCache (ch_max_entries c) (ch_max_bytes c) (ch_entries c) (ch_estimated_bytes c).

(** [__init__] *)
Definition new_cache (max_entries max_bytes : Z) : res cache :=
  _ ← raise_if (max_entries <? 0) ValueError;
  _ ← raise_if (max_bytes <? 0) ValueError;
  Ok (mkCache max_entries max_bytes [] 0).

(** [enabled] *)
Definition enabled (c : cache) : bool := (0 <? ch_max_entries c) && (0 <? ch_max_bytes c).

(** [self._entries.pop(key)] with its bytes. *)
Definition drop_entry (key : str) (entry : CacheEntry) (c : cache) : cache :=
  c <| ch_entries := od_pop key (ch_entries c) |> <| ch_estimated_bytes := ch_estimated_bytes c - ce_estimated_bytes entry |>.

(** [get] *)
Definition cache_get (key : str) (fingerprint : StoreFingerprint) (c : cache) : option V * cache :=
  match od_get key (ch_entries c) with
  | None => (None, c)
  | Some entry =>
      if negb (bool_decide (ce_fingerprint entry = fingerprint)) then (None, drop_entry key entry c)
      else (Some (ce_value entry), c <| ch_entries := od_pop key (ch_entries c) ++ [(key, entry)] |>)
  end.

(** The loop that evicts the oldest entries: those that stay and the bytes left. *)
Fixpoint evict (max_entries max_bytes incoming : Z) (entries : list (str * CacheEntry)) (bytes : Z)
    : list (str * CacheEntry) * Z :=
  match entries with
  | [] => ([], bytes)
  | (_, evicted) :: rest =>
      if (max_entries <=? Z.of_nat (length entries)) || (max_bytes <? bytes + incoming)
      then evict max_entries max_bytes incoming rest (bytes - ce_estimated_bytes evicted)
      else (entries, bytes)
  end.

(** [put] *)
Definition cache_put (key : str) (fingerprint : StoreFingerprint) (value : V) (estimated_bytes : Z) (c : cache)
    : res (bool * cache) :=
  _ ← raise_if (estimated_bytes <? 0) ValueError;
  if negb (enabled c) || (ch_max_bytes c <? estimated_bytes) then Ok (false, c)
  else
    let c := match od_get key (ch_entries c) with Some previous => drop_entry key previous c | None => c end in
    let '(entries, bytes) := evict (ch_max_entries c) (ch_max_bytes c) estimated_bytes (ch_entries c) (ch_estimated_bytes c) in
    Ok (true, c <| ch_entries := entries ++ [(key, mkEntry value estimated_bytes fingerprint)] |>
                <| ch_estimated_bytes := bytes + estimated_bytes |>).

(** [snapshot] *)
Definition snapshot (c : cache) : Z * Z := (Z.of_nat (length (ch_entries c)), ch_estimated_bytes c).
End Cache.
Arguments CacheEntry : clear implicits.
Arguments cache : clear implicits.

(** ** The projection through the cache *)
Section Projection.
Context {U : Unicode} {H X Y : Type} (estimated_size : ReportProjection H X Y -> Z).

Abbreviation state := (stores H X Y).

(** [_projection_fingerprint] *)
Definition projection_fingerprint (s : state) (report_id : str) : res StoreFingerprint :=
  a ← lineage_fingerprint report_field lineage_config (st_reports s) (u "report_id") report_id Asset_lineage;
  d ← lineage_fingerprint detection_field lineage_config (st_detections s) (u "report_id") report_id Asset_lineage;
  Ok (a, d).

(** [_projection_estimated_bytes]; [estimated_size] is the length of the JSON. *)
Definition projection_estimated_bytes (p : ReportProjection H X Y) : Z := Z.max 1 (2 * estimated_size p).

(** One round of the loop of [_get_report_projection]: the stores before it, when
    the projection is built, and after; a round that is not the last goes on. *)
Inductive round_result := Return (p : ReportProjection H X Y) | Go_on (p : ReportProjection H X Y).

Definition projection_round (before_s build_s after_s : state) (root : str) (c : cache (ReportProjection H X Y))
    : res round_result * cache (ReportProjection H X Y) :=
  match projection_fingerprint before_s root with
  | Raise e => (Raise e, c)
  | Ok before =>
      match cache_get root before c with
      | (Some cached, c) => (Ok (Return cached), c)
      | (None, c) =>
          match build_report_projection build_s root, projection_fingerprint after_s root with
          | Raise e, _ | Ok _, Raise e => (Raise e, c)
          | Ok projection, Ok after =>
              if bool_decide (before = after) then
                match cache_put root after projection (projection_estimated_bytes projection) c with
                | Raise e => (Raise e, c)
                | Ok (_, c) => (Ok (Return projection), c)
                end
              else (Ok (Go_on projection), c)
          end
      end
  end.

(** [_get_report_projection], with the stores as it finds them in its two rounds. *)
Definition get_report_projection (s1 s2 s3 s4 s5 s6 : state) (report_id : str) (c : cache (ReportProjection H X Y))
    : res (ReportProjection H X Y) * cache (ReportProjection H X Y) :=
  match lineage_root report_id Asset_lineage with
  | Raise e => (Raise e, c)
  | Ok root =>
      if negb (enabled c) then (build_report_projection s2 root, c)
      else
        match projection_round s1 s2 s3 root c with
        | (Raise e, c) => (Raise e, c)
        | (Ok (Return p), c) => (Ok p, c)
        | (Ok (Go_on _), c) =>
            match projection_round s4 s5 s6 root c with
            | (Raise e, c) => (Raise e, c)
            | (Ok (Return p | Go_on p), c) => (Ok p, c)
            end
        end
  end.
End Projection.
