(* ===== verification/CacheProps.v ===== *)
(** * What the projection cache promises

    The cache stays within its limits whatever is put into it, and the projection
    a request gets is that of the stores at a moment of the request, never an older
    one, although records arrive and are pruned at any time. *)

From stdpp Require Import base gmap sets strings numbers list.
From Stdlib Require Import ZArith Lia.
From S2P Require Import Prelude PyText Tables Detect Coverage Lineage RecordStore StoreProps Chunks ChunkProps Reports ReportProps ProjectionCache.

#[local] Open Scope Z_scope.

(** ** Limits *)
Section Limits.
Context {V : Type}.

Definition entry_bytes (entries : list (str * CacheEntry V)) : Z := foldr Z.add 0 ((fun e => ce_estimated_bytes e.2) <$> entries).

#[local] Arguments entry_bytes : simpl never.

Record cache_ok (c : cache V) : Prop := {
  ck_keys : NoDup (ch_entries c).*1;
  ck_sum : ch_estimated_bytes c = entry_bytes (ch_entries c);
  ck_sizes : Forall (fun e => 0 <= ce_estimated_bytes e.2) (ch_entries c);
  ck_entries : Z.of_nat (length (ch_entries c)) <= ch_max_entries c;
  ck_bytes : ch_estimated_bytes c <= ch_max_bytes c;
}.

Lemma entry_bytes_app a b : entry_bytes (a ++ b) = entry_bytes a + entry_bytes b.
Proof. unfold entry_bytes. rewrite fmap_app. induction a as [|x a IH]; csimpl; [lia|]. rewrite <-Z.add_assoc, <-IH. done. Qed.

Lemma entry_bytes_nonneg l : Forall (fun e : str * CacheEntry V => 0 <= ce_estimated_bytes e.2) l -> 0 <= entry_bytes l.
Proof. unfold entry_bytes. induction 1; csimpl; lia. Qed.

(** Dropping an entry takes its bytes off the sum. *)
Lemma pop_bytes key e (l : list (str * CacheEntry V)) : NoDup l.*1 -> od_get key l = Some e ->
  entry_bytes (od_pop key l) = entry_bytes l - ce_estimated_bytes e.
Proof.
  induction l as [|[k x] l IH]; intros Hn Hg; [done|]. cbn in Hn, Hg |- *. apply NoDup_cons in Hn as [Hk Hn].
  case_decide as Hd.
  - injection Hg as ->. unfold entry_bytes. csimpl. lia.
  - specialize (IH Hn Hg). unfold entry_bytes in *. csimpl. lia.
Qed.

Lemma pop_length key e (l : list (str * CacheEntry V)) : od_get key l = Some e -> S (length (od_pop key l)) = length l.
Proof. induction l as [|[k x] l IH]; intros Hg; [done|]. cbn in *. case_decide; [done|]. cbn. by rewrite IH. Qed.

Lemma sublist_elem {A} (l k : list A) x : l `sublist_of` k -> x ∈ l -> x ∈ k.
Proof. induction 1; set_solver. Qed.

Lemma pop_sizes (P : str * CacheEntry V -> Prop) key l : Forall P l -> Forall P (od_pop key l).
Proof.
  rewrite !Forall_forall. intros F x Hx. apply F. eapply sublist_elem; [apply od_pop_sublist|exact Hx].
Qed.

Lemma drop_entry_ok key e c : cache_ok c -> od_get key (ch_entries c) = Some e ->
  cache_ok (drop_entry key e c) /\ key ∉ (ch_entries (drop_entry key e c)).*1.
Proof.
  intros [H1 H2 H3 H4 H5] Hg. assert (He : 0 <= ce_estimated_bytes e).
  { rewrite Forall_forall in H3. apply (H3 (key, e)). by apply od_get_Some_elem. }
  split; [split; cbn|].
  - by apply od_pop_NoDup.
  - rewrite (pop_bytes key e) by done. by rewrite H2.
  - by apply pop_sizes.
  - pose proof (pop_length key e _ Hg). lia.
  - lia.
  - apply od_get_None. cbn. by apply od_pop_get.
Qed.

Lemma cache_get_ok key fp c : cache_ok c -> cache_ok (cache_get key fp c).2.
Proof.
  intros Hok. unfold cache_get. destruct (od_get key (ch_entries c)) as [e|] eqn:Hg; [|done].
  destruct (negb _); [by apply drop_entry_ok|]. cbn. destruct Hok as [H1 H2 H3 H4 H5]. split; cbn.
  - rewrite fmap_app. apply NoDup_app. split; [by apply od_pop_NoDup|]. split; [|apply NoDup_singleton].
    intros k Hk ->%list_elem_of_singleton. cbn in Hk. apply (od_get_None key (od_pop key (ch_entries c))); [by apply od_pop_get|done].
  - rewrite entry_bytes_app, (pop_bytes key e) by done. unfold entry_bytes at 2. csimpl. lia.
  - apply Forall_app. split; [by apply pop_sizes|]. constructor; [|done]. rewrite Forall_forall in H3. apply (H3 (key, e)).
    by apply od_get_Some_elem.
  - rewrite length_app. cbn. pose proof (pop_length key e _ Hg). lia.
  - done.
Qed.

(** Eviction drops the oldest entries, no more than needed. *)
Lemma evict_spec me mb incoming entries : forall bytes, bytes = entry_bytes entries ->
  exists n, evict me mb incoming entries bytes = (drop n entries, entry_bytes (drop n entries)) /\
    (drop n entries = [] \/ Z.of_nat (length (drop n entries)) < me /\ entry_bytes (drop n entries) + incoming <= mb).
Proof.
  induction entries as [|[k e] rest IH]; intros bytes ->; cbn [evict].
  - exists 0%nat. split; [done|by left].
  - destruct (_ || _) eqn:E.
    + destruct (IH (entry_bytes ((k, e) :: rest) - ce_estimated_bytes e)) as (n & En & Hn).
      { unfold entry_bytes. csimpl. lia. }
      exists (S n). done.
    + apply orb_false_iff in E as [E1%Z.leb_gt E2%Z.ltb_ge]. exists 0%nat. split; [done|right]. done.
Qed.

Lemma cache_put_ok key fp v est c b c' : cache_ok c -> cache_put key fp v est c = Ok (b, c') -> cache_ok c' /\
  forall k e, (k, e) ∈ ch_entries c' -> (k, e) ∈ ch_entries c \/ k = key /\ e = mkEntry v est fp.
Proof.
  intros Hok E. unfold cache_put in E. apply bind_Ok_inv in E as (? & E0 & E). apply raise_if_Ok_inv, Z.ltb_ge in E0.
  destruct (_ || _) eqn:Een; [injection E as <- <-; split; [done|by left]|]. apply orb_false_iff in Een as [Een Hest].
  apply negb_false_iff, andb_true_iff in Een as [Ee1%Z.ltb_lt Ee2%Z.ltb_lt]. apply Z.ltb_ge in Hest.
  set (c1 := match od_get key (ch_entries c) with Some previous => drop_entry key previous c | None => c end) in *.
  assert (Hc1 : cache_ok c1 /\ key ∉ (ch_entries c1).*1 /\ ch_max_entries c1 = ch_max_entries c /\ ch_max_bytes c1 = ch_max_bytes c /\
    forall k e, (k, e) ∈ ch_entries c1 -> (k, e) ∈ ch_entries c).
  { unfold c1. destruct (od_get key (ch_entries c)) as [prev|] eqn:Hg.
    - destruct (drop_entry_ok key prev c Hok Hg) as [? ?]. split_and!; try done. cbn. intros k e Hin.
      eapply sublist_elem; [apply od_pop_sublist|exact Hin].
    - split_and!; try done. by apply od_get_None. }
  destruct Hc1 as (Hok1 & Hkey & Em1 & Em2 & Hsub). clearbody c1.
  destruct (evict_spec (ch_max_entries c1) (ch_max_bytes c1) est (ch_entries c1) (ch_estimated_bytes c1) (ck_sum _ Hok1))
    as (n & Ev & Hn). rewrite Ev in E. injection E as <- <-.
  destruct Hok1 as [H1 H2 H3 H4 H5].
  assert (Hdrop : forall x, x ∈ drop n (ch_entries c1) -> x ∈ ch_entries c1).
  { intros y Hy. rewrite <-(take_drop n (ch_entries c1)). apply elem_of_app. by right. }
  split.
  - split; cbn.
    + rewrite fmap_app. apply NoDup_app. split; [|split; [|apply NoDup_singleton]].
      * rewrite fmap_drop. rewrite <-(take_drop n (ch_entries c1).*1) in H1. by apply NoDup_app in H1 as (_ & _ & ?).
      * intros k Hk ->%list_elem_of_singleton. cbn in Hk. apply Hkey. apply list_elem_of_fmap in Hk as (y & -> & Hy).
        apply list_elem_of_fmap. exists y. split; [done|by apply Hdrop].
    + rewrite entry_bytes_app. unfold entry_bytes at 3. csimpl. lia.
    + apply Forall_app. split; [by apply Forall_drop|]. by constructor.
    + rewrite length_app. cbn [length]. destruct Hn as [->|[Hn _]]; cbn [length]; lia.
    + destruct Hn as [->|[_ Hn]]; [|lia]. unfold entry_bytes. cbn. lia.
  - cbn. intros k e [Hin|Hin]%elem_of_app; [left; by apply Hsub, Hdrop|right].
    apply list_elem_of_singleton in Hin. by injection Hin.
Qed.

(** The calls on a cache. *)
Inductive cache_call := Get (key : str) (fp : StoreFingerprint) | Put (key : str) (fp : StoreFingerprint) (v : V) (est : Z).

Definition do_call (c : cache V) (call : cache_call) : cache V :=
  match call with
  | Get key fp => (cache_get key fp c).2
  | Put key fp v est => match cache_put key fp v est c with Ok (_, c') => c' | Raise _ => c end
  end.
End Limits.

(** The cache stays within its limits: after any calls its keys are distinct,
    its byte count is the sum over its entries, and neither limit is exceeded. *)
Theorem cache_within_limits {V : Type} max_entries max_bytes (c0 : cache V) calls :
  new_cache max_entries max_bytes = Ok c0 ->
  let c := fold_left do_call calls c0 in
  cache_ok c /\ 0 <= (snapshot c).1 <= max_entries /\ 0 <= (snapshot c).2 <= max_bytes.
Proof.
  intros E. unfold new_cache in E. apply bind_Ok_inv in E as (? & E1 & E). apply bind_Ok_inv in E as (? & E2 & E).
  apply raise_if_Ok_inv, Z.ltb_ge in E1, E2. injection E as <-.
  assert (H : forall (c : cache V), cache_ok c /\ ch_max_entries c = max_entries /\ ch_max_bytes c = max_bytes ->
    let d := fold_left do_call calls c in cache_ok d /\ ch_max_entries d = max_entries /\ ch_max_bytes d = max_bytes).
  { induction calls as [|call calls IH]; intros c Hc; [done|]. cbn [fold_left]. apply IH. destruct Hc as (Hok & Em & Eb).
    destruct call as [key fp|key fp v est]; cbn [do_call].
    - split; [by apply cache_get_ok|]. unfold cache_get. destruct (od_get _ _); [|done]. by destruct (negb _).
    - destruct (cache_put key fp v est c) as [[b c']|] eqn:Ep; [|done]. split; [by eapply cache_put_ok|].
      unfold cache_put in Ep. apply bind_Ok_inv in Ep as (? & _ & Ep). destruct (_ || _); [by injection Ep as _ <-|].
      destruct (evict _ _ _ _ _) as [es bs]. injection Ep as _ <-. cbn. by destruct (od_get key (ch_entries c)). }
  destruct (H (mkCache max_entries max_bytes [] 0)) as (Hok & Em & Eb).
  { split; [|done]. split; cbn; try done; try lia; constructor. }
  cbn zeta. set (c := fold_left _ _ _) in *. split; [done|]. unfold snapshot. cbn [fst snd].
  pose proof (entry_bytes_nonneg _ (ck_sizes _ Hok)). pose proof (ck_sum _ Hok). pose proof (ck_entries _ Hok). pose proof (ck_bytes _ Hok).
  rewrite Em, Eb in *. lia.
Qed.

(** ** Fingerprints tell the truth *)

(** What is read between two equal fingerprints is what was there, if nothing is
    written and pruned in between. *)
Lemma same_between {R} (size_of : R -> Z) (p : row R -> bool) s1 s2 s3 :
  store_ok size_of s1 -> evolves s1 s2 -> evolves s2 s3 ->
  (forall r : row R, r ∈ st_rows s2 -> st_seq s1 < rw_id r -> r ∈ st_rows s3) ->
  count_and_max (select_where p (st_rows s3)) = count_and_max (select_where p (st_rows s1)) ->
  select_where p (st_rows s2) = select_where p (st_rows s3).
Proof.
  intros Hok E12 E23 Hkept Hfp.
  pose proof (same_fingerprint size_of p s1 s3 Hok (evolves_trans _ _ _ E12 E23) Hfp) as Hsame. rewrite Hsame.
  destruct E12 as [L12 (n1 & new1 & E1 & H1)]. destruct E23 as [L23 (n2 & new2 & E2 & H2)].
  assert (Hf : forall a b, select_where p (a ++ b) = select_where p a ++ select_where p b) by (intros; apply filter_app).
  assert (Hold : forall r, r ∈ st_rows s3 -> p r = true -> rw_id r <= st_seq s1).
  { intros r Hr Hp. assert (Hin : r ∈ select_where p (st_rows s3)) by (by apply elem_select_where).
    rewrite Hsame in Hin. apply elem_select_where in Hin as [_ Hin]. by apply (so_seq _ _ Hok). }
  assert (Hnone : forall new, (forall r, r ∈ new -> p r = true -> False) -> select_where p new = []).
  { intros new Hn. destruct (select_where p new) as [|r k] eqn:E; [done|]. exfalso.
    assert (Hr : r ∈ select_where p new) by (rewrite E; by left). apply elem_select_where in Hr as [Hp Hr]. by apply (Hn r). }
  assert (N1 : select_where p new1 = []).
  { apply Hnone. intros r Hr Hp. specialize (H1 r Hr).
    assert (Hin : r ∈ st_rows s2) by (rewrite E1; apply elem_of_app; by right).
    specialize (Hold r (Hkept r Hin H1) Hp). lia. }
  assert (N2 : select_where p new2 = []).
  { apply Hnone. intros r Hr Hp. specialize (H2 r Hr).
    assert (Hin : r ∈ st_rows s3) by (rewrite E2; apply elem_of_app; by right). specialize (Hold r Hin Hp). lia. }
  pose proof (Hf (take n1 (st_rows s1)) (drop n1 (st_rows s1))) as S1. rewrite take_drop in S1.
  pose proof (Hf (take n2 (st_rows s2)) (drop n2 (st_rows s2))) as S2. rewrite take_drop in S2.
  rewrite E1, Hf, N1, app_nil_r in S2. rewrite E1, Hf, N1, app_nil_r.
  assert (S3 : select_where p (st_rows s1) = select_where p (drop n2 (st_rows s2))).
  { by rewrite <-Hsame, E2, Hf, N2, app_nil_r. }
  rewrite E1 in S3.
  assert (L1 : length (select_where p (drop n1 (st_rows s1))) = length (select_where p (st_rows s1))).
  { apply (f_equal length) in S1, S2, S3. rewrite length_app in S1, S2. lia. }
  apply (f_equal length) in S1 as S1L. rewrite length_app in S1L.
  destruct (select_where p (take n1 (st_rows s1))) as [|r k]; [by rewrite S1|]. cbn in S1L. lia.
Qed.

Section Current.
Context {U : Unicode} {H X Y : Type} (estimated_size : ReportProjection H X Y -> Z).
Context (report_size : AssetReport H (Asset X) -> Z) (detection_size : DetectionResult Y -> Z).

Abbreviation state := (stores H X Y).

Definition stores_ok (s : state) : Prop := store_ok report_size (st_reports s) /\ store_ok detection_size (st_detections s).
Definition stores_evolve (s s' : state) : Prop :=
  evolves (st_reports s) (st_reports s') /\ evolves (st_detections s) (st_detections s').

(** No row written while a projection is built is pruned before it is done. *)
Definition kept {R} (s1 s2 s3 : store R) : Prop := forall r, r ∈ st_rows s2 -> st_seq s1 < rw_id r -> r ∈ st_rows s3.
Definition stores_kept (s1 s2 s3 : state) : Prop :=
  kept (st_reports s1) (st_reports s2) (st_reports s3) /\ kept (st_detections s1) (st_detections s2) (st_detections s3).

Lemma stores_evolve_trans s1 s2 s3 : stores_evolve s1 s2 -> stores_evolve s2 s3 -> stores_evolve s1 s3.
Proof. intros [? ?] [? ?]. split; by eapply evolves_trans. Qed.

(** A plain root is its own lineage. *)
Lemma find_plain {R} (field_of : str -> R -> option str) (t : store R) key : plain Asset_lineage key ->
  find_lineage field_of lineage_config t (u "report_id") key Asset_lineage
    = Ok (rw_payload <$> rev (select_where (in_lineage field_of (u "report_id") Asset_lineage key) (st_rows t))) /\
  lineage_fingerprint field_of lineage_config t (u "report_id") key Asset_lineage
    = Ok (count_and_max (select_where (in_lineage field_of (u "report_id") Asset_lineage key) (st_rows t))).
Proof.
  intros Hp. unfold find_lineage, lineage_fingerprint, lineage_config. rewrite !bool_decide_true by done.
  change (field_name (u "report_id")) with true. cbn [andb]. rewrite (root_plain _ _ Hp). cbn [mbind res_bind]. split; [|done].
  do 2 f_equal. unfold select_where. generalize (st_rows t). intros l.
  induction l as [|r l IH]; [done|]. cbn [rev]. rewrite filter_app, IH, !filter_cons. case_decide; cbn; [done|by rewrite app_nil_r].
Qed.

(** The projection depends only on the two lineages. *)
Lemma build_ext (s s' : state) key : plain Asset_lineage key -> find_reports s key = find_reports s' key ->
  find_detections s key = find_detections s' key -> build_report_projection s key = build_report_projection s' key.
Proof.
  intros Hp Er Ed. unfold build_report_projection, asset_rows, detection_rows, lineage_rows. unfold plain in Hp. rewrite Hp.
  cbn [mbind res_bind]. rewrite Er. destruct (find_reports s' key) as [rows|e]; cbn [mbind res_bind]; [|done].
  destruct (collect_found _ _ _ rows) as [found|e]; cbn [mbind res_bind]; [|done].
  destruct (lv_rows _); [done|]. cbn [lv_root]. rewrite Hp. cbn [mbind res_bind]. by rewrite Ed.
Qed.

Lemma build_same (s s' : state) key : stores_ok s -> stores_evolve s s' -> plain Asset_lineage key ->
  projection_fingerprint s' key = projection_fingerprint s key -> build_report_projection s' key = build_report_projection s key.
Proof.
  intros [Ok1 Ok2] [Ev1 Ev2] Hp Hfp. unfold projection_fingerprint in Hfp.
  rewrite !(proj2 (find_plain _ _ _ Hp)) in Hfp. cbn [mbind res_bind] in Hfp. injection Hfp as F1 F2 F3 F4.
  apply build_ext; [done| |]; unfold find_reports, find_detections; rewrite !(proj1 (find_plain _ _ _ Hp)); do 3 f_equal.
  - apply (same_fingerprint report_size); [done|done|]. unfold count_and_max. by rewrite F1, F2.
  - apply (same_fingerprint detection_size); [done|done|]. unfold count_and_max. by rewrite F3, F4.
Qed.

Lemma build_between (s1 s2 s3 : state) key : stores_ok s1 -> stores_evolve s1 s2 -> stores_evolve s2 s3 -> stores_kept s1 s2 s3 ->
  plain Asset_lineage key -> projection_fingerprint s1 key = projection_fingerprint s3 key ->
  build_report_projection s2 key = build_report_projection s3 key.
Proof.
  intros [Ok1 Ok2] [A1 A2] [B1 B2] [K1 K2] Hp Hfp. unfold projection_fingerprint in Hfp.
  rewrite !(proj2 (find_plain _ _ _ Hp)) in Hfp. cbn [mbind res_bind] in Hfp. injection Hfp as F1 F2 F3 F4.
  apply build_ext; [done| |]; unfold find_reports, find_detections; rewrite !(proj1 (find_plain _ _ _ Hp)); do 3 f_equal.
  - apply (same_between report_size _ (st_reports s1)); try done. unfold count_and_max. by rewrite F1, F2.
  - apply (same_between detection_size _ (st_detections s1)); try done. unfold count_and_max. by rewrite F3, F4.
Qed.

(** Every entry of the cache is right for as long as its fingerprint is. *)
Definition cache_sound (c : cache (ReportProjection H X Y)) (s : state) : Prop :=
  forall key e, (key, e) ∈ ch_entries c -> plain Asset_lineage key ->
    forall s', stores_evolve s s' -> projection_fingerprint s' key = Ok (ce_fingerprint e) ->
      build_report_projection s' key = Ok (ce_value e).

Lemma cache_sound_evolve c s s' : cache_sound c s -> stores_evolve s s' -> cache_sound c s'.
Proof. intros Hs Hev key e Hin Hp t Ht. apply (Hs key e Hin Hp). by eapply stores_evolve_trans. Qed.

Lemma cache_get_sound key fp c s : cache_sound c s -> cache_sound (cache_get key fp c).2 s.
Proof.
  intros Hs k e Hin. apply (Hs k e). revert Hin. unfold cache_get. destruct (od_get key (ch_entries c)) as [e0|] eqn:Hg; [|done].
  destruct (negb _); cbn.
  - intros Hin. eapply sublist_elem; [apply od_pop_sublist|exact Hin].
  - intros [Hin|Hin]%elem_of_app; [eapply sublist_elem; [apply od_pop_sublist|exact Hin]|].
    apply list_elem_of_singleton in Hin. injection Hin as -> ->. by apply od_get_Some_elem.
Qed.

(** One round: what it answers with, and that the cache stays sound. *)
Lemma round_sound s1 s2 s3 root c r c' : plain Asset_lineage root -> cache_ok c -> cache_sound c s1 ->
  stores_ok s1 -> stores_ok s3 -> stores_evolve s1 s2 -> stores_evolve s2 s3 -> stores_kept s1 s2 s3 ->
  projection_round estimated_size s1 s2 s3 root c = (r, c') ->
  cache_ok c' /\ cache_sound c' s3 /\
  match r with
  | Ok (Return p | Go_on p) => build_report_projection s1 root = Ok p \/ build_report_projection s2 root = Ok p
  | Raise e => build_report_projection s2 root = Raise e
  end.
Proof.
  intros Hp Hok Hs Ok1 Ok3 E12 E23 Hk E. unfold projection_round in E.
  assert (Hfp : forall s : state, exists fp, projection_fingerprint s root = Ok fp).
  { intros s. unfold projection_fingerprint. rewrite !(proj2 (find_plain _ _ _ Hp)). by eexists. }
  destruct (Hfp s1) as [before Eb]. rewrite Eb in E.
  pose proof (cache_get_ok root before c Hok) as Hok1.
  pose proof (cache_get_sound root before c s1 Hs) as Hs1.
  destruct (cache_get root before c) as [[cached|] c1] eqn:Eg; cbn [snd] in *.
  - injection E as <- <-. split; [done|]. split; [eapply cache_sound_evolve; [exact Hs1|by eapply stores_evolve_trans]|]. left.
    unfold cache_get in Eg. destruct (od_get root (ch_entries c)) as [e|] eqn:Hg; [|done].
    destruct (negb _) eqn:En; [done|]. injection Eg as <- _. apply negb_false_iff, bool_decide_eq_true in En.
    apply (Hs root e); [by apply od_get_Some_elem|done| |by rewrite En]. split; apply evolves_refl.
  - assert (Hs3 : cache_sound c1 s3) by (eapply cache_sound_evolve; [exact Hs1|by eapply stores_evolve_trans]).
    destruct (build_report_projection s2 root) as [p|e] eqn:Ebuild; [|by injection E as <- <-].
    destruct (Hfp s3) as [after Ea]. rewrite Ea in E. case_bool_decide as Heq; [|injection E as <- <-; split; [done|]; split; [done|by right]].
    destruct (cache_put root after p (projection_estimated_bytes estimated_size p) c1) as [[b c2]|e] eqn:Epu.
    + injection E as <- <-. destruct (cache_put_ok _ _ _ _ _ _ _ Hok1 Epu) as [Hok2 Hin2]. split; [done|]. split; [|by right].
      intros key e Hin Hpk t Ht Hfpt. destruct (Hin2 key e Hin) as [Hin1|[-> ->]]; [by apply (Hs3 key e)|].
      cbn [ce_fingerprint ce_value] in Hfpt |- *. rewrite <-Ebuild.
      rewrite (build_same s3 t root Ok3 Ht Hp) by (rewrite Hfpt, Ea; done).
      symmetry. apply (build_between s1 s2 s3); try done. rewrite Eb, Ea. by rewrite Heq.
    + exfalso. unfold cache_put in Epu. rewrite (proj2 (Z.ltb_ge (projection_estimated_bytes estimated_size p) 0)) in Epu by (unfold projection_estimated_bytes; lia).
      cbn [raise_if mbind res_bind] in Epu. destruct (_ || _); [done|]. by destruct (evict _ _ _ _ _).
Qed.
End Current.


Module Example_cache.
Definition fp (n : Z) : StoreFingerprint := ((n, n), (0, 0)).
Definition tiny : res (cache Z) := new_cache 2 100.
Definition calls : list cache_call := [Put (u "a") (fp 1) 7 60; Get (u "a") (fp 1); Put (u "b") (fp 1) 8 50; Get (u "b") (fp 2)].

(** The answer of the first request, in a cache of its own. *)
Definition estimated (p : ReportProjection unit Z unit) : Z := 20.
Definition fresh : cache (ReportProjection unit Z unit) := mkCache 2 100 [] 0.
Definition answer := get_report_projection estimated Example_read.received Example_read.received Example_read.received
  Example_read.received Example_read.received Example_read.received (u "r::chunk-2-of-2") fresh.
End Example_cache.
Import Example_cache.

Lemma cache_within_limits_witness : exists c0, tiny = Ok c0 /\ 0 <= (snapshot (fold_left do_call calls c0)).2 <= 100.
Proof.
  destruct tiny as [c0|e] eqn:E; [|done]. exists c0. split; [reflexivity|].
  exact (proj2 (proj2 (cache_within_limits 2 100 c0 calls E))).
Defined.

