(* ===== verification/Schedules.v ===== *)
(** * Scan schedules ([schedule_store.py], [schedule_worker.py], [api/schedules.py])

    The table of schedules, the ticker that turns due ones into scan jobs, and the
    four endpoints.  The table is a map from its key; [datetime.now] and
    [uuid4().hex[:12]] are arguments.  The ticker reads the due schedules first and
    visits them one by one, each visit writing back the copy that was read: [visit]
    is one of them, [tick] all of them undisturbed, and [ScheduleProps] lets other
    calls come in between.  Dates past the year 9999 are not modelled. *)

From stdpp Require Import base gmap sets strings numbers list.
From Stdlib Require Import ZArith Lia.
From S2P Require Import Prelude PyText PyFloat ScanSchemas JobStore Tables Lineage RecordStore.

#[local] Open Scope Z_scope.

(** [ScanSchedule] *)
Record ScanSchedule := mkSchedule {
  sd_schedule_id : str;
  sd_target_id : str;
  sd_capability : ScanCapability;
  sd_interval_minutes : Z;
  sd_enabled : bool;
  sd_options : ScanJobOptions;
  sd_created_at : Z;
  sd_updated_at : Z;
  sd_next_run_at : Z;
  sd_last_job_id : option str;
  sd_last_enqueued_at : option Z;
}.

#[global] Instance eta_schedule : Eta ScanSchedule := fun s =>
  mkSchedule (sd_schedule_id s) (sd_target_id s) (sd_capability s) (sd_interval_minutes s) (sd_enabled s) (sd_options s)
    (sd_created_at s) (sd_updated_at s) (sd_next_run_at s) (sd_last_job_id s) (sd_last_enqueued_at s).

(** [ScanScheduleInput] *)
Record ScanScheduleInput := mkInput {
  si_target_id : str;
  si_capability : ScanCapability;
  si_interval_minutes : Z;
  si_enabled : bool;
  si_options : ScanJobOptions;
}.

(** The [ge]/[le] constraint of [interval_minutes] and its validator *)
Definition interval_ok (minutes : Z) : bool := (1 <=? minutes) && (minutes <=? 60 * 24 * 30).

Definition validate_schedule (s : ScanSchedule) : res ScanSchedule :=
  if interval_ok (sd_interval_minutes s) then Ok s else Raise ValueError.

(** [timedelta(minutes=n)] *)
Definition minutes (n : Z) : Z := n * 60000000.

(** ** The table *)

(** A row of [scan_schedules]; the map's key is [schedule_id]. *)
Record schedule_row := mkScheduleRow { sw_payload : ScanSchedule; sw_next_run_at_us : Z; sw_enabled : Z }.

Abbreviation schedules := (gmap str schedule_row).

(** [_upsert] *)
Definition upsert (s : ScanSchedule) (t : schedules) : schedules :=
  <[sd_schedule_id s := mkScheduleRow s (micros (sd_next_run_at s)) (if sd_enabled s then 1 else 0)]> t.

(** [list] *)
Definition list_rows (t : schedules) : list ScanSchedule :=
  (fun r => sw_payload r.2) <$> isort (fun a b => str_lt a.1 b.1) (map_to_list t).

(** [get] *)
Definition get_row (schedule_id : str) (t : schedules) : option ScanSchedule := sw_payload <$> t !! schedule_id.

(** [create] *)
Definition create_row (hex : str) (body : ScanScheduleInput) (now : Z) (t : schedules) : res (ScanSchedule * schedules) :=
  s ← validate_schedule (mkSchedule (u "sched-" ++ hex) (si_target_id body) (si_capability body) (si_interval_minutes body)
        (si_enabled body) (si_options body) now now now None None);
  Ok (s, upsert s t).

(** [delete] *)
Definition delete_row (schedule_id : str) (t : schedules) : bool * schedules :=
  (bool_decide (is_Some (t !! schedule_id)), delete schedule_id t).

(** [due] *)
Definition is_due (now : Z) (r : schedule_row) : bool := (sw_enabled r =? 1) && (sw_next_run_at_us r <=? micros now).

Definition due_ltb (a b : str * schedule_row) : bool :=
  (sw_next_run_at_us a.2 <? sw_next_run_at_us b.2)
  || (sw_next_run_at_us a.2 =? sw_next_run_at_us b.2) && str_lt a.1 b.1.

Definition due (now : Z) (t : schedules) : list ScanSchedule :=
  (fun r => sw_payload r.2) <$> isort due_ltb (select_where (fun r => is_due now r.2) (map_to_list t)).

(** [mark_enqueued] *)
Definition enqueued (s : ScanSchedule) (job_id : str) (now : Z) : ScanSchedule :=
  s <| sd_last_job_id := Some job_id |> <| sd_last_enqueued_at := Some now |> <| sd_updated_at := now |>
    <| sd_next_run_at := now + minutes (sd_interval_minutes s) |>.

Definition mark_enqueued (s : ScanSchedule) (job_id : str) (now : Z) (t : schedules) : schedules := upsert (enqueued s job_id now) t.

(** [snooze]; [minutes or updated.interval_minutes] also takes the interval for 0. *)
Definition snoozed (s : ScanSchedule) (now : Z) (pause : option Z) : ScanSchedule :=
  let pause := match pause with Some (Zpos _ | Zneg _) as p => default 0 p | _ => sd_interval_minutes s end in
  s <| sd_updated_at := now |> <| sd_next_run_at := now + minutes pause |>.

Definition snooze (s : ScanSchedule) (now : Z) (pause : option Z) (t : schedules) : schedules := upsert (snoozed s now pause) t.

(** ** The ticker *)

(** The fields of a registered [ScanTarget] that the ticker reads. *)
Record ScanTarget := mkTarget { tg_target_id : str; tg_address : str }.

Definition target_field (field : str) (t : ScanTarget) : option str :=
  if bool_decide (field = u "target_id") then Some (tg_target_id t)
  else if bool_decide (field = u "address") then Some (tg_address t) else None.

(** [int(now.timestamp())] *)
Definition whole_seconds (now : Z) : Z := fl_trunc (fl_div (fl_of_Z now) (fl_of_Z 1000000)).

Definition job_id_of (s : ScanSchedule) (now : Z) : str :=
  u "job-" ++ sd_schedule_id s ++ u "-" ++ dec_Z (whole_seconds now).

(** The job of a due schedule *)
Definition scheduled_job (s : ScanSchedule) (target : ScanTarget) (now : Z) : ScanJob :=
  let address := if bool_decide (tg_address target = []) then sd_target_id s else tg_address target in
  mkJob (job_id_of s now) (sd_target_id s) address (sd_capability s) (Some (mode_for_capability (sd_capability s))) PENDING
    (sd_options s) now (Some now) (Some now) None None None 0 3 None None.

(** The databases of the service. *)
Record world := mkWorld { wd_targets : store ScanTarget; wd_jobs : db; wd_schedules : schedules }.

#[global] Instance eta_world : Eta world := fun w => mkWorld (wd_targets w) (wd_jobs w) (wd_schedules w).

Section Ticker.
Context {U : Unicode} (json_bytes : ScanJob -> Z) (cfg : JobStore.limits).

(** The body of the loop of [tick]: whether a job was created. *)
Definition visit (now : Z) (s : ScanSchedule) (w : world) : bool * world :=
  match find_one target_field (wd_targets w) (u "target_id") (sd_target_id s) with
  | None => (false, w <| wd_schedules := snooze s now None (wd_schedules w) |>)
  | Some target =>
      let job := scheduled_job s target now in
      match create json_bytes cfg job None None (wd_jobs w) with
      | (Raise _, jobs) => (false, w <| wd_jobs := jobs |>)
      | (Ok _, jobs) =>
          (true, w <| wd_jobs := jobs |> <| wd_schedules := mark_enqueued s (sj_job_id job) now (wd_schedules w) |>)
      end
  end.

Definition visit_all (now : Z) (ss : list ScanSchedule) (w : world) : Z * world :=
  fold_left (fun '(created, w) s => let '(b, w) := visit now s w in ((created + if b then 1 else 0), w)) ss (0, w).

(** [tick], with nothing in between *)
Definition tick (now : Z) (w : world) : Z * world := visit_all now (due now (wd_schedules w)) w.

(** ** The endpoints *)

(** [list_schedules], [create_schedule], [get_schedule], [delete_schedule] *)
Definition list_schedules (w : world) : list ScanSchedule := list_rows (wd_schedules w).

Definition create_schedule (hex : str) (body : ScanScheduleInput) (now : Z) (w : world) : res ScanSchedule * world :=
  match find_one target_field (wd_targets w) (u "target_id") (si_target_id body) with
  | None => (Raise (HTTPException 404), w)
  | Some _ =>
      match create_row hex body now (wd_schedules w) with
      | Ok (s, t) => (Ok s, w <| wd_schedules := t |>)
      | Raise e => (Raise e, w)
      end
  end.

Definition get_schedule (schedule_id : str) (w : world) : res ScanSchedule :=
  match get_row schedule_id (wd_schedules w) with Some s => Ok s | None => Raise (HTTPException 404) end.

Definition delete_schedule (schedule_id : str) (w : world) : res unit * world :=
  let '(deleted, t) := delete_row schedule_id (wd_schedules w) in
  (if deleted then Ok tt else Raise (HTTPException 404), w <| wd_schedules := t |>).
End Ticker.
