(* ===== verification/ScheduleProps.v ===== *)
(** * What the scheduler promises

    A tick does to each due schedule one of three things and to the others
    nothing; in any history in which ticks, endpoint calls and calls on the job
    repository alternate, two jobs of one schedule are an interval apart, but for
    the microsecond a stored timestamp may lose.  The history also shows what the
    scheduler does not promise: a schedule deleted while a tick runs can return. *)

From stdpp Require Import base gmap sets strings numbers list sorting relations.
From Stdlib Require Import ZArith Lia.
From S2P Require Import Prelude PyText PyFloat FloatRound ScanSchemas JobStore JobSteps Tables Lineage RecordStore Schedules.

#[local] Open Scope Z_scope.

(** ** Rows *)

(** The row [_upsert] writes. *)
Definition row_of (s : ScanSchedule) : schedule_row :=
  mkScheduleRow s (micros (sd_next_run_at s)) (if sd_enabled s then 1 else 0).

Definition row_ok (id : str) (r : schedule_row) : Prop :=
  r = row_of (sw_payload r) /\ sd_schedule_id (sw_payload r) = id /\ interval_ok (sd_interval_minutes (sw_payload r)) = true.

Definition table_ok (t : schedules) : Prop := forall id r, t !! id = Some r -> row_ok id r.

Lemma interval_range n : interval_ok n = true -> 60000000 <= minutes n <= 2592000000000.
Proof. unfold interval_ok, minutes. rewrite andb_true_iff, !Z.leb_le. lia. Qed.

Lemma empty_table_ok : table_ok ∅.
Proof. intros id r Hr. by rewrite lookup_empty in Hr. Qed.

Lemma upsert_ok s t : table_ok t -> interval_ok (sd_interval_minutes s) = true -> table_ok (upsert s t).
Proof.
  intros Ht Hs id r. unfold upsert. destruct (decide (id = sd_schedule_id s)) as [->|Hne].
  - rewrite lookup_insert_eq. intros [= <-]. done.
  - rewrite lookup_insert_ne by done. apply Ht.
Qed.

Lemma delete_ok id t : table_ok t -> table_ok (delete id t).
Proof. intros Ht k r Hr. apply (Ht k). by apply lookup_delete_Some in Hr as [_ ?]. Qed.

Lemma upsert_lookup s t : upsert s t !! sd_schedule_id s = Some (row_of s).
Proof. apply lookup_insert_eq. Qed.

Lemma upsert_other s t id : id <> sd_schedule_id s -> upsert s t !! id = t !! id.
Proof. intros. by apply lookup_insert_ne. Qed.

Lemma mark_other s j now t id : id <> sd_schedule_id s -> mark_enqueued s j now t !! id = t !! id.
Proof. intros. by apply lookup_insert_ne. Qed.

Lemma snooze_other s now p t id : id <> sd_schedule_id s -> snooze s now p t !! id = t !! id.
Proof. intros. by apply lookup_insert_ne. Qed.

Lemma mark_lookup s j now t : mark_enqueued s j now t !! sd_schedule_id s = Some (row_of (enqueued s j now)).
Proof. apply lookup_insert_eq. Qed.

Lemma snooze_lookup s now p t : snooze s now p t !! sd_schedule_id s = Some (row_of (snoozed s now p)).
Proof. apply lookup_insert_eq. Qed.

Lemma mark_ok s j now t : table_ok t -> interval_ok (sd_interval_minutes s) = true -> table_ok (mark_enqueued s j now t).
Proof. intros. by apply upsert_ok. Qed.

Lemma snooze_ok s now p t : table_ok t -> interval_ok (sd_interval_minutes s) = true -> table_ok (snooze s now p t).
Proof. intros. by apply upsert_ok. Qed.

#[local] Arguments mark_enqueued : simpl never.
#[local] Arguments snooze : simpl never.
#[local] Arguments job_id_of : simpl never.
#[local] Arguments scheduled_job : simpl never.
#[local] Arguments find_one : simpl never.
#[local] Arguments create : simpl never.

(** ** The due schedules *)

Lemma elem_due now t s : s ∈ due now t <-> exists id r, t !! id = Some r /\ is_due now r = true /\ sw_payload r = s.
Proof.
  unfold due. rewrite list_elem_of_fmap. split.
  - intros ([id r] & -> & Hin). rewrite isort_elem, elem_select_where in Hin. destruct Hin as [Hd Hin]. exists id, r.
    by rewrite elem_of_map_to_list in Hin.
  - intros (id & r & Hl & Hd & <-). exists (id, r). split; [done|]. rewrite isort_elem, elem_select_where. split; [done|].
    by rewrite elem_of_map_to_list.
Qed.

Lemma due_row now t s : table_ok t -> s ∈ due now t ->
  t !! sd_schedule_id s = Some (row_of s) /\ is_due now (row_of s) = true /\ interval_ok (sd_interval_minutes s) = true.
Proof.
  intros Ht (id & r & Hl & Hd & Hs)%elem_due. destruct (Ht id r Hl) as (Hr & Hid & Hi). rewrite Hs in *.
  rewrite <-Hr. by rewrite Hid.
Qed.

Lemma due_NoDup now t : table_ok t -> NoDup (sd_schedule_id <$> due now t).
Proof.
  intros Ht. unfold due. rewrite <-list_fmap_compose.
  assert (Hp : (fun r : str * schedule_row => sd_schedule_id (sw_payload r.2)) <$> isort due_ltb (select_where (fun r => is_due now r.2) (map_to_list t))
    ≡ₚ (select_where (fun r => is_due now r.2) (map_to_list t)).*1).
  { rewrite isort_perm. erewrite Forall_fmap_ext_1; [done|]. apply Forall_forall. intros [id r] Hin. rewrite elem_select_where in Hin.
    destruct Hin as [_ Hin%elem_of_map_to_list]. cbn. by apply Ht. }
  unfold compose. rewrite Hp. apply (sublist_NoDup _ (map_to_list t).*1); [apply NoDup_fst_map_to_list|].
  apply (fmap_sublist fst). unfold select_where. apply sublist_filter.
Qed.

(** ** One visit *)
Section Visits.
Context {U : Unicode} (json_bytes : ScanJob -> Z) (cfg : JobStore.limits).

Abbreviation visit := (visit json_bytes cfg).
Abbreviation visit_all := (visit_all json_bytes cfg).

Lemma validate_scheduled s target now : validate_job (scheduled_job s target now) = Ok (scheduled_job s target now).
Proof. reflexivity. Qed.

(** A created job is there, waiting, and no job that waits is lost. *)
Lemma create_scheduled s target now d x d' : create json_bytes cfg (scheduled_job s target now) None None d = (Ok x, d') ->
  (exists h, heads d' !! job_id_of s now = Some h /\ hd_payload h = scheduled_job s target now /\ hd_state h = PENDING) /\
  forall id h, heads d !! id = Some h -> hd_state h = PENDING -> heads d' !! id = Some h.
Proof.
  unfold create, JobStore.encode. rewrite validate_scheduled. simpl. destruct (_ && _); simpl; [done|].
  unfold JobStore.transaction, create_tx. cbn [mbind option_bind]. change (sj_job_id (scheduled_job s target now)) with (job_id_of s now).
  destruct (heads d !! job_id_of s now) as [h0|] eqn:Hfree; [done|].
  destruct (make_room_for_job cfg d) as [d1|] eqn:Hroom; cbn [mbind res_bind]; [|done].
  destruct (add_event _ _ _ _ _ _) as [d2|] eqn:Hev; cbn [mbind res_bind]; [|done]. intros [= <- <-].
  assert (Hh : heads d2 = <[job_id_of s now := new_head (scheduled_job s target now) (json_bytes (scheduled_job s target now)) None None]> (heads d1)).
  { unfold add_event in Hev. destruct (existsb _ _); [done|]. destruct (_ =? 0); [by injection Hev as <-|]. destruct (0 <? _); by injection Hev as <-. }
  split.
  - eexists. rewrite Hh, lookup_insert_eq. done.
  - intros id h Hl Hs. rewrite Hh. rewrite lookup_insert_ne by congruence. apply make_room_spec in Hroom as (_ & _ & Hr).
    destruct (Hr id) as [->|(h1 & Hl1 & Ht & _)]; [done|]. rewrite Hl1 in Hl. injection Hl as ->. by rewrite Hs in Ht.
Qed.

Lemma create_raised job e d d' : create json_bytes cfg job None None d = (Raise e, d') -> d' = d.
Proof.
  unfold create. destruct (JobStore.encode json_bytes cfg job) as [[j b]|]; simpl; [|by intros [= _ <-]].
  unfold JobStore.transaction. destruct (create_tx _ _ _ _ _ _) as [[[? ?] ?]|]; [done|]. by intros [= _ <-].
Qed.

(** What a visit does to the table. *)
Lemma visit_row now s w : let w' := (visit now s w).2 in
  (forall id, id <> sd_schedule_id s -> wd_schedules w' !! id = wd_schedules w !! id) /\ wd_targets w' = wd_targets w /\
  (table_ok (wd_schedules w) -> interval_ok (sd_interval_minutes s) = true -> table_ok (wd_schedules w')).
Proof.
  unfold visit. destruct (find_one _ _ _ _) as [target|]; cbn.
  - destruct (create _ _ _ _ _ _) as [[x|e] jobs]; cbn; [|done]. split_and!; [intros; by apply mark_other|done|intros; by apply mark_ok].
  - split_and!; [intros; by apply snooze_other|done|intros; by apply snooze_ok].
Qed.

Lemma visit_pending now s w id h : heads (wd_jobs w) !! id = Some h -> hd_state h = PENDING ->
  heads (wd_jobs (visit now s w).2) !! id = Some h.
Proof.
  intros Hl Hs. unfold visit. destruct (find_one _ _ _ _) as [target|]; cbn; [|done].
  destruct (create _ _ _ _ _ _) as [[x|e] jobs] eqn:Ec; cbn.
  - by apply create_scheduled in Ec as [_ Hk]; apply Hk.
  - by rewrite (create_raised _ _ _ _ Ec).
Qed.

(** The loop as visits. *)
Lemma visit_all_app now ss ss' w : (visit_all now (ss ++ ss') w).2 = (visit_all now ss' (visit_all now ss w).2).2.
Proof.
  unfold visit_all. rewrite fold_left_app. generalize (fold_left (fun '(created, w) s => let '(b, w) := visit now s w in
    ((created + if b then 1 else 0), w)) ss (0, w)). intros [n w1]. cbn [snd].
  assert (H : forall ss m k w, (fold_left (fun '(created, w) s => let '(b, w) := visit now s w in
    ((created + if b then 1 else 0), w)) ss (m, w)).2 = (fold_left (fun '(created, w) s => let '(b, w) := visit now s w in
    ((created + if b then 1 else 0), w)) ss (k, w)).2).
  { clear. induction ss as [|s ss IH]; intros m k w; [done|]. cbn [fold_left]. destruct (visit now s w) as [b w']. apply IH. }
  apply H.
Qed.

Lemma visit_all_cons now s ss w : (visit_all now (s :: ss) w).2 = (visit_all now ss (visit now s w).2).2.
Proof. rewrite (visit_all_app now [s] ss). f_equal. f_equal. unfold visit_all. cbn. by destruct (visit now s w). Qed.

Lemma visit_all_other now ss id : id ∉ sd_schedule_id <$> ss -> forall w,
  wd_schedules (visit_all now ss w).2 !! id = wd_schedules w !! id /\ wd_targets (visit_all now ss w).2 = wd_targets w /\
  forall jid h, heads (wd_jobs w) !! jid = Some h -> hd_state h = PENDING -> heads (wd_jobs (visit_all now ss w).2) !! jid = Some h.
Proof.
  induction ss as [|s ss IH]; intros Hn w; [done|]. rewrite visit_all_cons. csimpl in Hn. apply not_elem_of_cons in Hn as [Hne Hn].
  destruct (IH Hn (visit now s w).2) as (H1 & H2 & H3). destruct (visit_row now s w) as (V1 & V2 & _).
  split_and!; [by rewrite H1, V1|by rewrite H2|]. intros jid h Hl Hs. apply H3; [|done]. by apply visit_pending.
Qed.

Lemma visit_all_targets now ss w : wd_targets (visit_all now ss w).2 = wd_targets w.
Proof.
  revert w. induction ss as [|s ss IH]; intros w; [done|]. rewrite visit_all_cons, IH. apply visit_row.
Qed.
End Visits.

(** A tick does its work: a schedule that is not due stays as it is; one whose
    target is gone is put off by its interval; for any other a job is created that
    waits in the repository under the schedule's name and second, and the schedule
    is put off by its interval and remembers the job; or, when the repository
    refuses the job in its turn, the schedule stays due.  None of the due schedules
    is kept from its turn by another. *)
Theorem tick_spec {U : Unicode} json_bytes cfg now w : table_ok (wd_schedules w) ->
  let w' := (tick json_bytes cfg now w).2 in
  wd_targets w' = wd_targets w /\
  forall id r, wd_schedules w !! id = Some r -> let s := sw_payload r in
    if is_due now r then
      match find_one target_field (wd_targets w) (u "target_id") (sd_target_id s) with
      | None => wd_schedules w' !! id = Some (row_of (snoozed s now None))
      | Some target =>
          (wd_schedules w' !! id = Some (row_of (enqueued s (job_id_of s now) now)) /\
           exists h, heads (wd_jobs w') !! job_id_of s now = Some h /\ hd_payload h = scheduled_job s target now /\ hd_state h = PENDING) \/
          (wd_schedules w' !! id = Some r /\ exists k e, due now (wd_schedules w) !! k = Some s /\
             (create json_bytes cfg (scheduled_job s target now) None None
                (wd_jobs (visit_all json_bytes cfg now (take k (due now (wd_schedules w))) w).2)).1 = Raise e)
      end
    else wd_schedules w' !! id = Some r.
Proof.
  intros Ht. unfold tick. cbv zeta. split; [apply visit_all_targets|]. intros id r Hl. set (s := sw_payload r). destruct (Ht id r Hl) as (Hr & Hid & Hi).
  fold s in Hr, Hid, Hi. destruct (is_due now r) eqn:Hd.
  - assert (Hin : s ∈ due now (wd_schedules w)) by (apply elem_due; by exists id, r).
    pose proof (due_NoDup now _ Ht) as Hnd. apply list_elem_of_lookup in Hin as [k Hk].
    set (ss := due now (wd_schedules w)) in *. pose proof (take_drop_middle ss k s Hk) as Hsplit.
    rewrite <-Hsplit, fmap_app, fmap_cons in Hnd. apply NoDup_app in Hnd as (_ & Hn1 & Hn2). apply NoDup_cons in Hn2 as [Hn2 _].
    assert (Hn : sd_schedule_id s ∉ sd_schedule_id <$> take k ss).
    { intros Hx. apply (Hn1 _ Hx). by left. }
    assert (Hall : (visit_all json_bytes cfg now ss w).2
      = (visit_all json_bytes cfg now (drop (S k) ss) (visit json_bytes cfg now s (visit_all json_bytes cfg now (take k ss) w).2).2).2).
    { rewrite <-visit_all_cons, <-visit_all_app. by rewrite Hsplit. }
    rewrite Hall. clear Hall. set (w1 := (visit_all json_bytes cfg now (take k ss) w).2).
    destruct (visit_all_other json_bytes cfg now (take k ss) (sd_schedule_id s) Hn w) as (P1 & P2 & _). fold w1 in P1, P2.
    destruct (visit_all_other json_bytes cfg now (drop (S k) ss) (sd_schedule_id s) Hn2 (visit json_bytes cfg now s w1).2) as (Q1 & _ & Q3).
    set (w2 := (visit_all json_bytes cfg now (drop (S k) ss) (visit json_bytes cfg now s w1).2).2) in *.
    rewrite <-Hid. rewrite Q1. rewrite Hid in P1. rewrite Hl in P1. rewrite <-Hid in P1. unfold visit in Q3 |- *. rewrite P2 in Q3 |- *.
    destruct (find_one target_field _ _ _) as [target|]; [|apply snooze_lookup].
    destruct (create json_bytes cfg (scheduled_job s target now) None None (wd_jobs w1)) as [[x|e] jobs] eqn:Ec; cbn in Q3 |- *.
    + left. split; [apply mark_lookup|]. apply create_scheduled in Ec as [(h & Hh & Hp & Hs) _].
      exists h. split; [by apply Q3|done].
    + right. split; [exact P1|]. exists k, e. split; [done|]. fold w1. by rewrite Ec.
  - destruct (visit_all_other json_bytes cfg now (due now (wd_schedules w)) id) with (w := w) as (H1 & _); [|by rewrite H1].
    intros (s' & -> & Hin)%list_elem_of_fmap. apply due_row in Hin as (Hl' & Hd' & _); [|done]. rewrite Hl in Hl'. injection Hl' as ->.
    by rewrite Hd in Hd'.
Qed.

(** ** Histories *)

(** The service between two actions: the databases, the tick under way with the
    schedules it still has to visit, and the jobs enqueued so far. *)
Record service := mkService {
  sv_world : world;
  sv_now : Z;
  sv_pending : list ScanSchedule;
  sv_log : list (ScanSchedule * Z);
}.

Definition start (w : world) (now : Z) : service := mkService w now [] [].

(** The identifiers a fresh one must differ from. *)
Definition known_ids (sv : service) (id : str) : Prop :=
  is_Some (wd_schedules (sv_world sv) !! id) \/ id ∈ sd_schedule_id <$> sv_pending sv \/ id ∈ (fun e => sd_schedule_id e.1) <$> sv_log sv.

(** The last instant considered: [2 ^ 51] microseconds, in 2041. *)
Definition horizon : Z := 2 ^ 51.

Section Histories.
Context {U : Unicode} (json_bytes : ScanJob -> Z) (cfg : JobStore.limits).

Inductive step : service -> service -> Prop :=
| step_begin sv now :
    sv_pending sv = [] -> sv_now sv <= now -> now < horizon ->
    step sv (mkService (sv_world sv) now (due now (wd_schedules (sv_world sv))) (sv_log sv))
| step_visit sv s rest b w :
    sv_pending sv = s :: rest -> visit json_bytes cfg (sv_now sv) s (sv_world sv) = (b, w) ->
    step sv (mkService w (sv_now sv) rest (if b then sv_log sv ++ [(s, sv_now sv)] else sv_log sv))
| step_abort sv : step sv (mkService (sv_world sv) (sv_now sv) [] (sv_log sv))
| step_create sv hex body now s w :
    ~ known_ids sv (u "sched-" ++ hex) -> create_schedule hex body now (sv_world sv) = (Ok s, w) ->
    step sv (mkService w (sv_now sv) (sv_pending sv) (sv_log sv))
| step_delete sv id r w :
    delete_schedule id (sv_world sv) = (r, w) ->
    step sv (mkService w (sv_now sv) (sv_pending sv) (sv_log sv))
| step_targets sv targets :
    step sv (mkService (sv_world sv <| wd_targets := targets |>) (sv_now sv) (sv_pending sv) (sv_log sv))
| step_jobs sv c :
    step sv (mkService (sv_world sv <| wd_jobs := exec json_bytes cfg c (wd_jobs (sv_world sv)) |>) (sv_now sv) (sv_pending sv) (sv_log sv)).

(** The instant before which an enqueued schedule does not run again. *)
Definition next_allowed (e : ScanSchedule * Z) : Z := e.2 + minutes (sd_interval_minutes e.1) - 1.

Record sound (sv : service) : Prop := {
  sn_table : table_ok (wd_schedules (sv_world sv));
  sn_now : 0 <= sv_now sv < horizon;
  sn_pending : NoDup (sd_schedule_id <$> sv_pending sv);
  sn_interval : forall s, s ∈ sv_pending sv -> interval_ok (sd_interval_minutes s) = true;
  sn_log_row : forall e r, e ∈ sv_log sv -> wd_schedules (sv_world sv) !! sd_schedule_id e.1 = Some r -> next_allowed e <= sw_next_run_at_us r;
  sn_log_pending : forall e s, e ∈ sv_log sv -> s ∈ sv_pending sv -> sd_schedule_id s = sd_schedule_id e.1 -> next_allowed e <= sv_now sv;
  sn_spaced : forall i j e e', sv_log sv !! i = Some e -> sv_log sv !! j = Some e' -> (i < j)%nat ->
    sd_schedule_id e.1 = sd_schedule_id e'.1 -> next_allowed e <= e'.2;
}.

(** A schedule written back runs again after its interval. *)
Lemma later_run now n : 0 <= now < horizon -> interval_ok n = true -> now + minutes n - 1 <= micros (now + minutes n).
Proof. unfold horizon. intros Hn Hi%interval_range. apply micros_near. lia. Qed.

Lemma start_sound w now : table_ok (wd_schedules w) -> 0 <= now < horizon -> sound (start w now).
Proof. intros Ht Hn. split; cbn; try done; [constructor|..]; intros; exfalso; by eapply not_elem_of_nil. Qed.

(** A visited schedule is put off. *)
Lemma visit_next now s w b w' r : 0 <= now < horizon -> interval_ok (sd_interval_minutes s) = true ->
  visit json_bytes cfg now s w = (b, w') -> wd_schedules w' !! sd_schedule_id s = Some r ->
  now + minutes (sd_interval_minutes s) - 1 <= sw_next_run_at_us r \/ b = false /\ wd_schedules w !! sd_schedule_id s = Some r.
Proof.
  intros Hn Hi E Hr. unfold visit in E. destruct (find_one _ _ _ _) as [target|].
  - destruct (create _ _ _ _ _ _) as [[x|e] jobs].
    + injection E as <- <-. cbn in Hr. rewrite mark_lookup in Hr. injection Hr as <-. left. by apply later_run.
    + injection E as <- <-. by right.
  - injection E as <- <-. cbn in Hr. rewrite snooze_lookup in Hr. injection Hr as <-. left. by apply later_run.
Qed.

Lemma due_not_before now t s r : table_ok t -> 0 <= now < horizon -> s ∈ due now t -> t !! sd_schedule_id s = Some r ->
  sw_next_run_at_us r <= now.
Proof.
  intros Ht Hn Hs Hr. apply due_row in Hs as (Hl & Hd & _); [|done]. rewrite Hr in Hl. injection Hl as ->.
  unfold is_due in Hd. apply andb_true_iff in Hd as [_ Hd%Z.leb_le]. unfold horizon in Hn. pose proof (micros_near now ltac:(lia)). lia.
Qed.

Lemma create_schedule_row hex body now w s w' : create_schedule hex body now w = (Ok s, w') ->
  exists s', w' = w <| wd_schedules := upsert s' (wd_schedules w) |> /\
    interval_ok (sd_interval_minutes s') = true /\ sd_schedule_id s' = u "sched-" ++ hex.
Proof.
  unfold create_schedule. destruct (find_one _ _ _ _); [|done]. unfold create_row, validate_schedule. cbn [sd_interval_minutes].
  destruct (interval_ok _) eqn:Hi; [|done]. intros [= <- <-]. by eexists.
Qed.

Lemma step_sound sv sv' : step sv sv' -> sound sv -> sound sv'.
Proof.
  intros Hst [T N P I LR LP S]. destruct Hst as [sv now Hp Hle Hlt|sv s rest b w Hp Ev|sv|sv hex body now s w Hfresh Ec|sv id r w Ed|sv targets|sv c]; split; cbn; try done.
  - lia.
  - by apply due_NoDup.
  - intros s Hs. by apply (due_row now _ s T) in Hs as (_ & _ & Hs).
  - intros e s He Hs Hid. pose proof (due_row now _ s T Hs) as (Hl & _ & _). rewrite Hid in Hl.
    pose proof (LR e _ He Hl). rewrite <-Hid in Hl. pose proof (due_not_before now _ s _ T ltac:(lia) Hs Hl). lia.
  - pose proof (visit_row json_bytes cfg (sv_now sv) s (sv_world sv)) as (_ & _ & Hk). rewrite Ev in Hk. apply Hk; [done|]. apply I. rewrite Hp. by left.
  - rewrite Hp, fmap_cons in P. by apply NoDup_cons in P as [_ ?].
  - intros s' Hs'. apply I. rewrite Hp. by right.
  - intros e r He Hr. assert (Hs : interval_ok (sd_interval_minutes s) = true) by (apply I; rewrite Hp; by left).
    pose proof (visit_row json_bytes cfg (sv_now sv) s (sv_world sv)) as (Ho & _ & _). rewrite Ev in Ho. cbn in Ho.
    assert (Hold : e ∈ sv_log sv -> next_allowed e <= sw_next_run_at_us r).
    { intros Hin. destruct (decide (sd_schedule_id e.1 = sd_schedule_id s)) as [Heq|Hne].
      - rewrite Heq in Hr. destruct (visit_next _ _ _ _ _ _ N Hs Ev Hr) as [Hn|[_ Hn]]; [|apply LR; [done|by rewrite Heq]].
        pose proof (LP e s Hin ltac:(rewrite Hp; by left) ltac:(done)). pose proof (interval_range _ Hs). lia.
      - rewrite Ho in Hr by done. by apply LR. }
    destruct b; [|by apply Hold]. apply elem_of_app in He as [He| ->%list_elem_of_singleton]; [by apply Hold|]. cbn in Hr.
    destruct (visit_next _ _ _ _ _ _ N Hs Ev Hr) as [Hn|[Hn _]]; [exact Hn|done].
  - intros e s' He Hs' Hid. assert (He' : e ∈ sv_log sv).
    { destruct b; [|done]. apply elem_of_app in He as [He| ->%list_elem_of_singleton]; [done|]. exfalso. cbn in Hid.
      rewrite Hp, fmap_cons in P. apply NoDup_cons in P as [Hn _]. apply Hn. rewrite <-Hid. by apply list_elem_of_fmap_2. }
    apply (LP e s'); [done| |done]. rewrite Hp. by right.
  - intros i j e e' Hi Hj Hij Hid. destruct b; [|by eapply S]. apply lookup_app_Some in Hj as [Hj|[Hlen Hj]].
    + rewrite lookup_app_l in Hi by (apply lookup_lt_Some in Hj; lia). by eapply S.
    + apply list_lookup_singleton_Some in Hj as [Hj <-]. rewrite lookup_app_l in Hi by lia. cbn in Hid |- *.
      apply (LP e s); [by eapply list_elem_of_lookup_2|rewrite Hp; by left|done].
  - constructor.
  - intros s Hs. by apply not_elem_of_nil in Hs.
  - intros e s _ Hs. by apply not_elem_of_nil in Hs.
  - apply create_schedule_row in Ec as (s' & -> & Hi & _). by apply upsert_ok.
  - intros e r He Hr. apply create_schedule_row in Ec as (s' & -> & _ & Hid). cbn in Hr. rewrite upsert_other in Hr; [by apply LR|].
    intros Heq. apply Hfresh. right. right. rewrite <-Hid, <-Heq. by apply (list_elem_of_fmap_2 (fun e => sd_schedule_id e.1)).
  - unfold delete_schedule, delete_row in Ed. injection Ed as _ <-. by apply delete_ok.
  - intros e r' He Hr. unfold delete_schedule, delete_row in Ed. injection Ed as _ <-. cbn in Hr.
    apply lookup_delete_Some in Hr as [_ Hr]. by apply LR.
Qed.

Lemma steps_sound sv sv' : rtc step sv sv' -> sound sv -> sound sv'.
Proof. induction 1; [done|]. intros Hs. by apply IHrtc, (step_sound x). Qed.
End Histories.



Module Example_schedules.
Definition t0 : Z := 1720000000123457.
Definition plan : ScanSchedule :=
  mkSchedule (u "sched-0a") (u "t1") HOST 1 true default_options t0 t0 t0 None None.
Definition orphan : ScanSchedule := mkSchedule (u "sched-0b") (u "t2") HOST 5 true default_options t0 t0 t0 None None.
Definition targets : store ScanTarget := mkStore [mkRow 1 (mkTarget (u "t1") (u "root@host")) 1] 1 1 1.
Definition before : world := mkWorld targets empty_db (upsert orphan (upsert plan ∅)).
Definition size (j : ScanJob) : Z := 1.
Definition t1 : Z := t0 + minutes 1.

Lemma before_ok : table_ok (wd_schedules before).
Proof. apply upsert_ok; [|done]. apply upsert_ok; [apply empty_table_ok|done]. Qed.

(** Two ticks, a minute apart. *)
Definition first : service := mkService before t0 (due t0 (wd_schedules before)) [].
Definition go (sv : service) : service :=
  match sv_pending sv with
  | [] => sv
  | s :: rest =>
      let '(b, w) := visit size JobStore.default_limits (sv_now sv) s (sv_world sv) in
      mkService w (sv_now sv) rest (if b then sv_log sv ++ [(s, sv_now sv)] else sv_log sv)
  end.
Definition after_first : service := go (go first).
Definition second : service := mkService (sv_world after_first) t1 (due t1 (wd_schedules (sv_world after_first))) (sv_log after_first).
Definition after_second : service := go second.

Lemma go_step sv : rtc (step size JobStore.default_limits) sv (go sv).
Proof.
  unfold go. destruct (sv_pending sv) as [|s rest] eqn:Hp; [done|]. destruct (visit _ _ _ _ _) as [b w] eqn:Ev.
  apply rtc_once. by apply (step_visit _ _ _ s).
Qed.

Lemma history : rtc (step size JobStore.default_limits) (start before t0) after_second.
Proof.
  apply (rtc_l _ _ first); [apply (step_begin size _ (start before t0)); [done|cbn; lia|done]|].
  transitivity (go first); [apply go_step|]. transitivity after_first; [apply go_step|].
  apply (rtc_l _ _ second); [|apply go_step].
  apply (step_begin size _ after_first t1); [by vm_compute|vm_compute; discriminate|done].
Qed.
End Example_schedules.
Import Example_schedules.

Lemma tick_spec_witness : exists h, heads (wd_jobs (tick size JobStore.default_limits t0 before).2) !! u "job-sched-0a-1720000000" = Some h.
Proof.
  destruct (tick_spec size JobStore.default_limits t0 before before_ok) as [_ H].
  specialize (H (u "sched-0a") (row_of plan) ltac:(vm_compute; reflexivity)). cbv zeta in H.
  replace (is_due t0 (row_of plan)) with true in H by (vm_compute; reflexivity).
  change (sw_payload (row_of plan)) with plan in H.
  replace (find_one target_field (wd_targets before) (u "target_id") (sd_target_id plan)) with (Some (mkTarget (u "t1") (u "root@host"))) in H
    by (vm_compute; reflexivity).
  replace (job_id_of plan t0) with (u "job-sched-0a-1720000000") in H by (vm_compute; reflexivity).
  destruct H as [[_ (h & Hh & _)]|[H _]]; [by exists h|vm_compute in H; discriminate].
Defined.


