(* ===== verification/KaliTracker.v ===== *)
(** * The Debian Security Tracker index and Kali packages ([detect/debian_tracker.py], [detect/kali.py])

    The index is a table of advisories keyed by source package, source version,
    advisory and release, built from the JSON feed, and a metadata table.  A Kali
    package is matched only when its source version is one the tracker lists.

    The JSON text itself, the temporary file and its replacement are I/O.  A Python
    set of strings is iterated in some order; the order here is the one in which
    the elements were added.  The text of the feed has no lone surrogates, which
    SQLite would refuse. *)

From stdpp Require Import base gmap sets strings numbers list.
From Stdlib Require Import ZArith Lia.
From S2P Require Import Prelude PyText PyFloat PyJson Compare DpkgVersion Versioning Severity Osv Detect Coverage Tables Lineage RecordStore.

#[local] Open Scope Z_scope.

(** [DebianTrackerAdvisory] *)
Record DebianTrackerAdvisory := mkAdvisory {
  ta_advisory_id : str;
  ta_release : str;
  ta_status : str;
  ta_fixed_version : option str;
  ta_urgency : option str;
  ta_scope : option str;
}.

(** A row of [advisories]. *)
Record tracker_row := mkTrackerRow { tr_source_package : str; tr_source_version : str; tr_advisory : DebianTrackerAdvisory }.

(** The primary key *)
Definition tracker_key (r : tracker_row) : str * str * str * str :=
  (tr_source_package r, tr_source_version r, ta_advisory_id (tr_advisory r), ta_release (tr_advisory r)).

Definition INDEX_SCHEMA_VERSION : str := u "2".

(** ** Building the index *)
Section Index.
Context {U : Unicode}.

(** [INSERT OR REPLACE] *)
Definition insert_or_replace (r : tracker_row) (t : list tracker_row) : list tracker_row :=
  select_where (fun q => negb (bool_decide (tracker_key q = tracker_key r))) t ++ [r].

(** The set of versions of a release's [repositories] *)
Definition repository_versions (repositories : list (str * json)) : list str :=
  remove_dups (omap (fun e => match e.2 with
                              | JString v => if bool_decide (strip v = []) then None else Some v
                              | _ => None end) repositories).

(** The body of the loop over [releases] *)
Definition release_rows (source_package advisory_id : str) (scope : option str) (release : str) (data : json)
    : list tracker_row :=
  match data with
  | JObject release_data =>
      match get_string (u "status") release_data, get_object (u "repositories") release_data with
      | Some status, Some repositories =>
          (fun version => mkTrackerRow source_package version
             (mkAdvisory advisory_id release status (get_string (u "fixed_version") release_data)
                (get_string (u "urgency") release_data) scope)) <$> repository_versions repositories
      | _, _ => []
      end
  | _ => []
  end.

(** The body of the loop over the issues of a package *)
Definition issue_rows (source_package advisory_id : str) (issue : json) : list tracker_row :=
  match issue with
  | JObject fields =>
      match get_object (u "releases") fields with
      | Some releases => releases ≫= fun e => release_rows source_package advisory_id (get_string (u "scope") fields) e.1 e.2
      | None => []
      end
  | _ => []
  end.

(** [add_package] *)
Definition add_package (source_package : str) (issues : list (str * json)) (t : list tracker_row) : list tracker_row :=
  fold_left (fun t r => insert_or_replace r t) (issues ≫= fun e => issue_rows source_package e.1 e.2) t.

(** The [metadata] table: the text of each key, and of [synced_at] what
    [fromisoformat] makes of it, with the presence of a time zone. *)
Record tracker_metadata := mkMetadata {
  tm_schema_version : option str;
  tm_record_count : option str;
  tm_source_package_count : option str;
  tm_synced_at : option (res (Z * bool));
}.

(** The file *)
Record tracker_index := mkIndex { ti_metadata : tracker_metadata; ti_advisories : list tracker_row }.

(** [finish] *)
Definition finish (now : Z) (t : list tracker_row) : res ((Z * Z) * tracker_index) :=
  let record_count := Z.of_nat (length t) in
  let source_count := Z.of_nat (length (remove_dups (tr_source_package <$> t))) in
  if (record_count <=? 0) || (source_count <=? 0) then Raise OSError
  else Ok ((record_count, source_count),
           mkIndex (mkMetadata (Some INDEX_SCHEMA_VERSION) (Some (dec_Z record_count)) (Some (dec_Z source_count)) (Some (Ok (now, true)))) t).

(** [_build_index], over the packages of the feed: an exception leaves the file
    that was there. *)
Definition build_index (now : Z) (packages : list (str * list (str * json))) (file : option tracker_index)
    : res (Z * Z) * option tracker_index :=
  match finish now (fold_left (fun t e => add_package e.1 e.2 t) packages []) with
  | Ok (counts, index) => (Ok counts, Some index)
  | Raise e => (Raise e, file)
  end.

(** ** The store *)

(** [DebianTrackerStore]; [tk_rows] is [None] when [path] is. *)
Record DebianTrackerStore := mkTracker {
  tk_rows : option (list tracker_row);
  tk_record_count : Z;
  tk_source_package_count : Z;
  tk_synced_at : option Z;
  tk_max_age_seconds : option float;
}.

(** [DebianTrackerStore(max_age_seconds=...)] *)
Definition no_tracker (max_age_seconds : option float) : DebianTrackerStore := mkTracker None 0 0 None max_age_seconds.

(** [available] *)
Definition tracker_available (s : DebianTrackerStore) : bool :=
  match tk_rows s with Some _ => 0 <? tk_record_count s | None => false end.

(** [age_seconds] *)
Definition age_seconds (now : Z) (s : DebianTrackerStore) : option float :=
  synced ← tk_synced_at s; Some (fl_max (fl_of_Z 0) (fl_div (fl_of_Z (now - synced)) (fl_of_Z 1000000))).

(** [stale] *)
Definition tracker_stale (now : Z) (s : DebianTrackerStore) : bool :=
  tracker_available s &&
  match tk_max_age_seconds s with
  | None => false
  | Some limit => match age_seconds now s with None => true | Some age => fl_ltb limit age end
  end.

Definition advisory_ltb (a b : tracker_row) : bool :=
  str_ltb (ta_advisory_id (tr_advisory a)) (ta_advisory_id (tr_advisory b))
  || bool_decide (ta_advisory_id (tr_advisory a) = ta_advisory_id (tr_advisory b))
     && str_ltb (ta_release (tr_advisory a)) (ta_release (tr_advisory b)).

(** [lookup] *)
Definition tracker_lookup (s : DebianTrackerStore) (source_package source_version : str) : list DebianTrackerAdvisory :=
  match tk_rows s with
  | None => []
  | Some rows =>
      tr_advisory <$> isort advisory_ltb
        (select_where (fun r => bool_decide (tr_source_package r = source_package)
                                && bool_decide (tr_source_version r = source_version)) rows)
  end.

(** The part of [load] that may raise: the counts and the instant *)
Definition read_metadata (m : tracker_metadata) : res (Z * Z * Z) :=
  record_count ← python_int (default (u "-1") (tm_record_count m));
  source_count ← python_int (default (u "-1") (tm_source_package_count m));
  synced ← (match tm_synced_at m with None => Raise KeyError | Some r => r end);
  _ ← raise_if (negb synced.2) ValueError;
  Ok (record_count, source_count, synced.1).

(** [load] *)
Definition load_tracker (max_age_seconds : option float) (file : option tracker_index) : DebianTrackerStore :=
  match file with
  | None => no_tracker max_age_seconds
  | Some index =>
      if negb (bool_decide (tm_schema_version (ti_metadata index) = Some INDEX_SCHEMA_VERSION)) then no_tracker max_age_seconds
      else
        match read_metadata (ti_metadata index) with
        | Raise _ => no_tracker max_age_seconds
        | Ok (record_count, source_count, synced_at) =>
            if (record_count <=? 0) || (source_count <=? 0) || bool_decide (length (ti_advisories index) = 0%nat)
            then no_tracker max_age_seconds
            else mkTracker (Some (ti_advisories index)) record_count source_count (Some synced_at) max_age_seconds
        end
  end.
End Index.
