(* ===== verification/Kali.v ===== *)
(** * Kali packages against the Debian tracker ([detect/kali.py])

    Packages installed by dpkg on Kali are grouped by parent, source and source
    version, and each group is matched once with the advisories the tracker lists
    for exactly that source version.  Reading the clock ([stale]) is the argument
    [now]; the limit state is always supplied. *)

From stdpp Require Import base gmap sets strings numbers list.
From Stdlib Require Import ZArith Lia.
From S2P Require Import Prelude PyText PyFloat PyJson Compare DpkgVersion Versioning Severity Osv Detect Coverage Tables KaliTracker.

#[local] Open Scope Z_scope.

Definition SOURCE : str := u "debian-security-tracker".

(** [_URGENCY] and [_SEVERITY_RANK] *)
Definition urgency_severities : list (str * Severity) :=
  [(u "unimportant", INFO); (u "low", LOW); (u "medium", MEDIUM); (u "high", HIGH); (u "not yet assigned", MEDIUM)].

Definition urgency_rank (s : Severity) : Z :=
  match s with INFO => 0 | LOW => 1 | MEDIUM => 2 | HIGH => 3 | CRITICAL => 4 end.

(** A [Package] with the fields that matter here. *)
Record dpkg_package := mkDpkg {
  kp_package : package;
  kp_source : option str;
  kp_source_name : option str;
  kp_source_version : option str;
}.

Inductive inventory := I_package (p : dpkg_package) | I_other.

(** What the OSV engine sees of it. *)
Definition to_asset (i : inventory) : asset := match i with I_package p => APackage (kp_package p) | I_other => AOther end.

(** [KaliTrackerDetection]; of [osv_report], its assets. *)
Record KaliTrackerDetection := mkKali {
  kd_osv_assets : list inventory;
  kd_findings : list vulnerability;
  kd_candidate_count : Z;
  kd_verified_count : Z;
  kd_unverified_count : Z;
  kd_incomplete_count : Z;
}.

(** ** Status and coverage *)
Section Status.
Context (now : Z) (result : KaliTrackerDetection) (store : DebianTrackerStore) (limit : limit_state).

(** [merge_kali_tracker_status] *)
Definition merge_kali_tracker_status (osv_candidate_count : Z) (current : DetectionStatus) (current_reason : option str)
    : DetectionStatus * option str :=
  if (kd_candidate_count result =? 0) || (match current with S_FAILED => true | _ => false end) then (current, current_reason)
  else if negb (tracker_available store) then (S_PARTIAL, Some (u "debian_tracker_empty"))
  else if tracker_stale now store then (S_PARTIAL, Some (u "debian_tracker_stale"))
  else
    let '(current, current_reason) :=
      match current with
      | S_DISABLED => if osv_candidate_count =? 0 then (S_COMPLETE, None) else (S_PARTIAL, current_reason)
      | _ => (current, current_reason)
      end in
    if ls_truncated limit then (S_PARTIAL, ls_reason limit)
    else if negb (kd_incomplete_count result =? 0) then (S_PARTIAL, Some (u "debian_tracker_advisory_undetermined"))
    else if negb (kd_unverified_count result =? 0) then (S_PARTIAL, Some (u "some_kali_package_origins_unverified"))
    else (current, current_reason).

(** [kali_tracker_coverage] *)
Definition kali_tracker_coverage : option coverage_row :=
  if kd_candidate_count result =? 0 then None
  else
    let '(status, reason) :=
      if negb (tracker_available store) then (C_DISABLED, Some (u "debian_tracker_empty"))
      else if tracker_stale now store then (C_PARTIAL, Some (u "debian_tracker_stale"))
      else if ls_truncated limit then (C_PARTIAL, ls_reason limit)
      else if negb (kd_incomplete_count result =? 0) then (C_PARTIAL, Some (u "debian_tracker_advisory_undetermined"))
      else if negb (kd_unverified_count result =? 0) then (C_PARTIAL, Some (u "kali_package_origin_unverified"))
      else (C_COMPLETE, None) in
    Some (mkRow DEBIAN_TRACKER (Some (u "Kali:rolling")) status (kd_verified_count result) (kd_unverified_count result)
            (Z.of_nat (length (kd_findings result))) reason).
End Status.

(** ** Matching *)
Section Matching.
Context {U : Unicode} (finding_bytes : vulnerability -> Z) (max_findings max_bytes : Z) (store : DebianTrackerStore).

(** [ecosystem.split(":", 1)[0]] *)
Definition before_colon (s : str) : str := match partition (u ":") s with Some (a, _) => a | None => s end.

(** [_is_kali_package]; [host_os] is [report.host.os]. *)
Definition is_kali_package (host_os : str) (p : dpkg_package) : bool :=
  bool_decide (kp_source p = Some (u "dpkg"))
  && (contains (u "kali") (lower host_os)
      || bool_decide (before_colon (default [] (pk_ecosystem (kp_package p))) = u "Kali")).

(** [dpkg_compare]; the [None] of a runaway loop never occurs. *)
Definition dpkg_order (a b : str) : res Z :=
  r ← dpkg_compare a b;
  match r with Some x => Ok x | None => Raise RuntimeError end.

(** [_affected] *)
Definition affected_by (row : DebianTrackerAdvisory) (source_version : str) : res (option bool) :=
  if bool_decide (ta_status row = u "open") then Ok (Some true)
  else if bool_decide (ta_status row = u "resolved") then
    match ta_fixed_version row with
    | None | Some [] => Ok (Some false)
    | Some fixed =>
        if bool_decide (fixed = u "0") then Ok (Some false)
        else c ← dpkg_order source_version fixed; Ok (Some (c <? 0))
    end
  else Ok None.

(** [_severity]: [max] keeps the first of the greatest. *)
Definition urgency_of (row : DebianTrackerAdvisory) : Severity :=
  default MEDIUM (od_get (default [] (ta_urgency row)) urgency_severities).

Definition severity_of (rows : list DebianTrackerAdvisory) : Severity :=
  match urgency_of <$> rows with
  | [] => MEDIUM
  | s :: rest => fold_left (fun best s => if urgency_rank best <? urgency_rank s then s else best) rest s
  end.

(** [_binary_summary] *)
Definition package_label (p : dpkg_package) : str := pk_name (kp_package p) ++ u " " ++ pk_version (kp_package p).

Definition binary_summary (packages : list dpkg_package) : str :=
  let labels := isort str_ltb (remove_dups (package_label <$> packages)) in
  let shown := join (u ", ") (take 5 labels) in
  if (5 <? length labels)%nat then shown ++ u ", and " ++ dec_nat (length labels - 5) ++ u " more" else shown.

(** [sorted(versions, key=cmp_to_key(dpkg_compare))], as a stable insertion sort *)
Fixpoint insert_version (x : str) (l : list str) : res (list str) :=
  match l with
  | [] => Ok [x]
  | y :: l' =>
      c ← dpkg_order y x;
      if c <? 0 then r ← insert_version x l'; Ok (y :: r) else Ok (x :: l)
  end.

Fixpoint sort_versions (l : list str) : res (list str) :=
  match l with
  | [] => Ok []
  | x :: l' => r ← sort_versions l'; insert_version x r
  end.

(** A key of [source_groups]: parent, source name and source version. *)
Abbreviation group_key := (option str * str * str)%type.

(** [a or b] of an optional string *)
Definition or_else (a : option str) (b : str) : str := match a with Some ((_ :: _) as s) => s | _ => b end.

Definition source_key (p : dpkg_package) : group_key :=
  (pk_parent_asset_id (kp_package p), or_else (kp_source_name p) (pk_name (kp_package p)),
   or_else (kp_source_version p) (pk_version (kp_package p))).

(** [defaultdict(list)] by a key *)
Definition group_by {K V} `{EqDecision K} (key : V -> K) (l : list V) : list (K * list V) :=
  fold_left (fun groups v => od_set (key v) (default [] (od_get (key v) groups) ++ [v]) groups) l [].

(** The rows of an advisory that affect the version, and whether one is undetermined. *)
Fixpoint affected_rows (source_version : str) (rows : list DebianTrackerAdvisory) : res (list DebianTrackerAdvisory * bool) :=
  match rows with
  | [] => Ok ([], false)
  | row :: rows =>
      a ← affected_by row source_version;
      r ← affected_rows source_version rows;
      Ok (match a with
          | Some true => (row :: r.1, r.2)
          | Some false => r
          | None => (r.1, true)
          end)
  end.

(** The [Vulnerability] of one advisory *)
Definition kali_finding (key : group_key) (packages : list dpkg_package) (p : dpkg_package) (advisory_id : str)
    (rows : list DebianTrackerAdvisory) : res vulnerability :=
  let '(parent_asset_id, source_name, source_version) := key in
  let releases := isort str_ltb (remove_dups (ta_release <$> rows)) in
  fixed_versions ← sort_versions (remove_dups (omap (fun row => match ta_fixed_version row with
      | Some ((_ :: _) as v) => if bool_decide (v = u "0") then None else Some v
      | _ => None end) rows));
  let evidence := u "Debian source " ++ source_name ++ u " " ++ source_version ++ u " (installed binaries: "
    ++ binary_summary packages ++ u "); vulnerable in " ++ join (u ", ") releases in
  let evidence := match fixed_versions with
                  | v :: _ => evidence ++ u " (fixed in " ++ v ++ u ")"
                  | [] => evidence end in
  validate_vulnerability
    (mkVuln advisory_id (severity_of rows) None (pk_asset_id (kp_package p)) parent_asset_id SOURCE (Some evidence)
       [u "https://security-tracker.debian.org/tracker/" ++ advisory_id]).

(** The variables of the loops. *)
Record progress := mkProgress {
  pg_findings : list vulnerability;
  pg_verified : Z;
  pg_incomplete : Z;
  pg_consumed : Z;
  pg_limit : limit_state;
}.

#[global] Instance eta_progress : Eta progress := fun s =>
  mkProgress (pg_findings s) (pg_verified s) (pg_incomplete s) (pg_consumed s) (pg_limit s).

(** The loop over the advisories of a group; [true] when the limit ends it all. *)
Fixpoint match_advisories (key : group_key) (packages : list dpkg_package) (p : dpkg_package)
    (groups : list (str * list DebianTrackerAdvisory)) (s : progress) : res (bool * progress) :=
  match groups with
  | [] => Ok (false, s)
  | (advisory_id, rows) :: groups =>
      r ← affected_rows key.2 rows;
      let '(affected, undetermined) := r in
      let s := if (undetermined : bool) then s <| pg_incomplete := pg_incomplete s + 1 |> else s in
      if bool_decide (length affected = 0%nat) || negb (startswith (u "CVE-") advisory_id)
      then match_advisories key packages p groups s
      else
        finding ← kali_finding key packages p advisory_id affected;
        let full := max_findings <=? Z.of_nat (length (pg_findings s)) in
        if full || (max_bytes <? pg_consumed s + finding_bytes finding) then
          Ok (true, s <| pg_limit := mark (if full then u "debian_tracker_max_findings" else u "debian_tracker_max_bytes")
                                          (pg_limit s) |>)
        else match_advisories key packages p groups
               (s <| pg_findings := pg_findings s ++ [finding] |> <| pg_consumed := pg_consumed s + finding_bytes finding |>)
  end.

(** The loop over the groups. *)
Fixpoint match_groups (groups : list (group_key * list dpkg_package)) (s : progress) : res (bool * progress) :=
  match groups with
  | [] => Ok (false, s)
  | (key, packages) :: groups =>
      match tracker_lookup store key.1.2 key.2, packages with
      | [], _ | _, [] => match_groups groups s
      | rows, p :: _ =>
          let s := s <| pg_verified := pg_verified s + Z.of_nat (length packages) |> in
          r ← match_advisories key packages p (group_by ta_advisory_id rows) s;
          if (r.1 : bool) then Ok r else match_groups groups r.2
      end
  end.

Definition kali_candidates (host_os : str) (assets : list inventory) : list dpkg_package :=
  omap (fun a => match a with I_package p => if is_kali_package host_os p then Some p else None | I_other => None end) assets.

Definition remaining_assets (host_os : str) (assets : list inventory) : list inventory :=
  base.filter (fun a => match a with I_package p => is_kali_package host_os p | I_other => false end = false) assets.

(** [detect_kali_packages] *)
Definition detect_kali_packages (host_os : str) (assets : list inventory) (l : limit_state)
    : res (KaliTrackerDetection * limit_state) :=
  let candidates := kali_candidates host_os assets in
  r ← match_groups (group_by source_key candidates) (mkProgress [] 0 0 0 l);
  let '(stopped, s) := r in
  let count := Z.of_nat (length candidates) in
  let limit := if negb stopped && negb (pg_incomplete s =? 0)
               then mark_incomplete (u "debian_tracker_advisory_undetermined") (pg_limit s) else pg_limit s in
  Ok (mkKali (remaining_assets host_os assets) (pg_findings s) count (pg_verified s) (count - pg_verified s) (pg_incomplete s), limit).
End Matching.
