(* ===== verification/KaliProps.v ===== *)
(** * What the Kali matcher promises

    The index lists exactly what the feed lists; every finding comes from an
    advisory that affects the very source version installed, and a run that is not
    truncated misses none; the coverage row says COMPLETE only when every package
    was found in a current index and every advisory could be decided. *)

From stdpp Require Import base gmap sets strings numbers list sorting.
From Stdlib Require Import ZArith Lia.
From S2P Require Import Prelude PyText PyFloat PyJson Compare DpkgVersion Versioning Severity Osv Detect Coverage Tables Lineage RecordStore StoreProps KaliTracker Kali.

#[local] Open Scope Z_scope.

(** ** Grouping *)
Section Grouping.
Context {K V : Type} `{EqDecision K} (key : V -> K).

Definition having (k : K) (l : list V) : list V := base.filter (fun v => key v = k) l.

Lemma group_by_snoc l v : group_by key (l ++ [v]) = od_set (key v) (default [] (od_get (key v) (group_by key l)) ++ [v]) (group_by key l).
Proof. unfold group_by. by rewrite fold_left_app. Qed.

Lemma having_snoc k l v : having k (l ++ [v]) = having k l ++ (if decide (key v = k) then [v] else []).
Proof. unfold having. rewrite filter_app. f_equal. Qed.

Lemma group_by_get l : NoDup (group_by key l).*1 /\
  forall k, od_get k (group_by key l) = match having k l with [] => None | vs => Some vs end.
Proof.
  induction l as [|v l IH] using rev_ind; [split; [constructor|done]|]. destruct IH as [Hn Hg]. rewrite group_by_snoc.
  split; [by apply od_set_NoDup|]. intros k. rewrite od_get_set, having_snoc. destruct (decide (k = key v)) as [->|Hne].
  - rewrite decide_True by done. rewrite Hg. destruct (having (key v) l); done.
  - rewrite decide_False by congruence. by rewrite app_nil_r.
Qed.

Lemma elem_group_by l k vs : (k, vs) ∈ group_by key l <-> vs = having k l /\ vs <> [].
Proof.
  destruct (group_by_get l) as [Hn Hg]. split.
  - intros Hin. apply od_elem_get in Hin; [|done]. rewrite Hg in Hin. destruct (having k l); [done|]. by injection Hin as <-.
  - intros [-> Hne]. apply od_get_Some_elem. rewrite Hg. by destruct (having k l).
Qed.

Lemma elem_having k l v : v ∈ having k l <-> key v = k /\ v ∈ l.
Proof. unfold having. by rewrite list_elem_of_filter. Qed.

(** The groups of a list put together are as long as the list. *)
Lemma group_by_length l : foldr (fun g n => length g.2 + n)%nat 0%nat (group_by key l) = length l.
Proof.
  induction l as [|v l IH] using rev_ind; [done|]. rewrite group_by_snoc, length_app, <-IH. cbn [length].
  destruct (group_by_get l) as [Hn _]. clear IH. induction (group_by key l) as [|[k vs] g IH]; cbn; [lia|].
  cbn in Hn. apply NoDup_cons in Hn as [_ Hn]. case_decide as Hd; cbn.
  - rewrite length_app. cbn. lia.
  - rewrite IH by done. lia.
Qed.
End Grouping.

(** ** The index *)
Section Index.
Context {U : Unicode}.

(** Without a row of the same key, the row goes to the end. *)
Lemma insert_new r t : (forall q, q ∈ t -> tracker_key q <> tracker_key r) -> insert_or_replace r t = t ++ [r].
Proof.
  intros Ht. unfold insert_or_replace, select_where. rewrite filter_all; [done|]. intros q Hq.
  by rewrite negb_true_iff, bool_decide_eq_false; apply Ht.
Qed.

Lemma insert_all rows : NoDup (tracker_key <$> rows) -> forall t, (forall q r, q ∈ t -> r ∈ rows -> tracker_key q <> tracker_key r) ->
  fold_left (fun t r => insert_or_replace r t) rows t = t ++ rows.
Proof.
  induction rows as [|r rows IH]; intros Hn t Ht; cbn [fold_left]; [by rewrite app_nil_r|].
  rewrite fmap_cons in Hn. apply NoDup_cons in Hn as [Hr Hn]. rewrite insert_new, IH; [by rewrite <-app_assoc|done| |].
  - intros q r' [Hq| ->%list_elem_of_singleton]%elem_of_app Hr'; [apply Ht; [done|by right]|].
    intros Heq. apply Hr. rewrite Heq. by apply list_elem_of_fmap_2.
  - intros q Hq. apply Ht; [done|by left].
Qed.

(** The rows of a feed, in the order they are written. *)
Definition feed_rows (packages : list (str * list (str * json))) : list tracker_row :=
  packages ≫= fun e => e.2 ≫= fun i => issue_rows e.1 i.1 i.2.

Lemma build_fold packages : forall t, fold_left (fun t e => add_package e.1 e.2 t) packages t
  = fold_left (fun t r => insert_or_replace r t) (feed_rows packages) t.
Proof.
  induction packages as [|e packages IH]; intros t; [done|]. cbn [fold_left]. rewrite IH. unfold feed_rows. cbn [mbind list_bind].
  by rewrite fold_left_app.
Qed.

(** What the feed says of a version: the release of an advisory lists it among its
    repositories. *)
Definition listed (packages : list (str * list (str * json))) (source version advisory_id release : str) (a : DebianTrackerAdvisory) : Prop :=
  exists issues fields releases data repositories repository status,
    (source, issues) ∈ packages /\ (advisory_id, JObject fields) ∈ issues /\ get_object (u "releases") fields = Some releases /\
    (release, JObject data) ∈ releases /\ get_object (u "repositories") data = Some repositories /\ get_string (u "status") data = Some status /\
    (repository, JString version) ∈ repositories /\ strip version <> [] /\
    a = mkAdvisory advisory_id release status (get_string (u "fixed_version") data) (get_string (u "urgency") data) (get_string (u "scope") fields).

Lemma elem_versions repositories v : v ∈ repository_versions repositories <-> strip v <> [] /\ exists r, (r, JString v) ∈ repositories.
Proof.
  unfold repository_versions. rewrite elem_of_remove_dups, list_elem_of_omap. split.
  - intros ([r j] & Hin & Hj). cbn in Hj. destruct j; try done. case_bool_decide; [done|]. injection Hj as ->. split; [done|by exists r].
  - intros (Hv & r & Hin). exists (r, JString v). split; [done|]. cbn. by rewrite bool_decide_false.
Qed.

Lemma elem_feed packages q : q ∈ feed_rows packages <->
  listed packages (tr_source_package q) (tr_source_version q) (ta_advisory_id (tr_advisory q)) (ta_release (tr_advisory q)) (tr_advisory q).
Proof.
  unfold feed_rows, listed. split.
  - intros ([source issues] & Hq & Hp)%list_elem_of_bind. cbn in Hq. apply list_elem_of_bind in Hq as ([id issue] & Hq & Hi). cbn in Hq.
    unfold issue_rows in Hq. destruct issue as [| | | | | |fields]; try (by apply not_elem_of_nil in Hq).
    destruct (get_object (u "releases") fields) as [releases|] eqn:Er; [|by apply not_elem_of_nil in Hq].
    apply list_elem_of_bind in Hq as ([release data] & Hq & Hr). cbn in Hq. unfold release_rows in Hq.
    destruct data as [| | | | | |data]; try (by apply not_elem_of_nil in Hq).
    destruct (get_string (u "status") data) as [status|] eqn:Es; [|by apply not_elem_of_nil in Hq].
    destruct (get_object (u "repositories") data) as [repositories|] eqn:Ep; [|by apply not_elem_of_nil in Hq].
    apply list_elem_of_fmap in Hq as (version & -> & Hv). apply elem_versions in Hv as (Hv & repository & Hrep). cbn.
    by exists issues, fields, releases, data, repositories, repository, status.
  - intros (issues & fields & releases & data & repositories & repository & status & Hp & Hi & Er & Hr & Ep & Es & Hrep & Hv & Ha).
    apply list_elem_of_bind. eexists (_, issues). split; [|exact Hp]. cbn [fst snd]. apply list_elem_of_bind. eexists (_, JObject fields). split; [|exact Hi].
    cbn [fst snd issue_rows]. rewrite Er. apply list_elem_of_bind. eexists (_, JObject data). split; [|exact Hr]. cbn [fst snd release_rows]. rewrite Es, Ep. apply list_elem_of_fmap.
    exists (tr_source_version q). split; [|apply elem_versions; split; [done|by exists repository]].
    destruct q as [p v a]. cbn in Ha |- *. by rewrite <-Ha.
Qed.
End Index.

Section Feed.
Context {U : Unicode}.

(** The keys of each dict of the feed are distinct, and so are its packages. *)
Definition feed_ok (packages : list (str * list (str * json))) : Prop :=
  NoDup packages.*1 /\
  forall p issues, (p, issues) ∈ packages -> NoDup issues.*1 /\
    forall i fields releases, (i, JObject fields) ∈ issues -> get_object (u "releases") fields = Some releases -> NoDup releases.*1.

(** Blocks with distinct rows whose keys say which block they are from. *)
Lemma NoDup_blocks {A B T} (tag : B -> T) (key : A -> T) (f : A -> list B) (l : list A) :
  NoDup (key <$> l) -> (forall a, a ∈ l -> NoDup (f a)) -> (forall a b, a ∈ l -> b ∈ f a -> tag b = key a) -> NoDup (l ≫= f).
Proof.
  induction l as [|a l IH]; intros Hn Hf Ht; [constructor|]. rewrite fmap_cons in Hn. apply NoDup_cons in Hn as [Ha Hn]. cbn [mbind list_bind].
  apply NoDup_app. split; [apply Hf; by left|]. split.
  - intros b Hb (a' & Hb' & Ha')%list_elem_of_bind. apply Ha. rewrite <-(Ht a b) by first [by left|done]. rewrite (Ht a' b) by first [by right|done].
    by apply list_elem_of_fmap_2.
  - apply IH; [done| |]; intros; [apply Hf|eapply Ht]; try by right. done.
Qed.
End Feed.

Section Listing.
Context {U : Unicode}.

Lemma release_rows_key p i scope release data q : q ∈ release_rows p i scope release data ->
  tr_source_package q = p /\ ta_advisory_id (tr_advisory q) = i /\ ta_release (tr_advisory q) = release.
Proof.
  unfold release_rows. destruct data as [| | | | | |data]; intros Hq; try (by apply not_elem_of_nil in Hq).
  destruct (get_string (u "status") data); [|by apply not_elem_of_nil in Hq].
  destruct (get_object (u "repositories") data); [|by apply not_elem_of_nil in Hq].
  by apply list_elem_of_fmap in Hq as (v & -> & _).
Qed.

Lemma release_rows_NoDup p i scope release data : NoDup (tr_source_version <$> release_rows p i scope release data).
Proof.
  unfold release_rows. destruct data as [| | | | | |data]; try constructor.
  destruct (get_string (u "status") data); [|constructor]. destruct (get_object (u "repositories") data); [|constructor].
  rewrite <-list_fmap_compose. unfold compose. cbn. rewrite list_fmap_id. apply NoDup_remove_dups.
Qed.

Lemma issue_rows_key p i issue q : q ∈ issue_rows p i issue -> tr_source_package q = p /\ ta_advisory_id (tr_advisory q) = i.
Proof.
  unfold issue_rows. destruct issue as [| | | | | |fields]; intros Hq; try (by apply not_elem_of_nil in Hq).
  destruct (get_object (u "releases") fields); [|by apply not_elem_of_nil in Hq].
  apply list_elem_of_bind in Hq as (e & Hq & _). apply release_rows_key in Hq. tauto.
Qed.

(** Rows are told apart by their keys. *)
Lemma feed_keys_NoDup packages : feed_ok packages -> NoDup (tracker_key <$> feed_rows packages).
Proof.
  intros [Hp Hi].
  assert (Hb : tracker_key <$> feed_rows packages = packages ≫= fun e => e.2 ≫= fun i => tracker_key <$> issue_rows e.1 i.1 i.2).
  { unfold feed_rows. clear. induction packages as [|e l IH]; [done|]. cbn [mbind list_bind]. rewrite fmap_app, IH. f_equal.
    clear. induction e.2 as [|i k IH]; [done|]. cbn [mbind list_bind]. by rewrite fmap_app, IH. }
  rewrite Hb. apply (NoDup_blocks (fun k : str * str * str * str => k.1.1.1) fst); [done| |].
  - intros [p issues] Hin. destruct (Hi p issues Hin) as [Hn Hr]. cbn [fst snd].
    apply (NoDup_blocks (fun k : str * str * str * str => k.1.2) fst); [done| |].
    + intros [i issue] Hini. cbn [fst snd]. destruct issue as [| | | | | |fields]; try constructor. cbn [issue_rows].
      destruct (get_object (u "releases") fields) as [releases|] eqn:Er; [|constructor].
      assert (Hb2 : tracker_key <$> (releases ≫= fun e => release_rows p i (get_string (u "scope") fields) e.1 e.2)
        = releases ≫= fun e => tracker_key <$> release_rows p i (get_string (u "scope") fields) e.1 e.2).
      { clear. induction releases as [|e l IH]; [done|]. cbn [mbind list_bind]. by rewrite fmap_app, IH. }
      rewrite Hb2. apply (NoDup_blocks (fun k : str * str * str * str => k.2) fst); [by eapply Hr| |].
      * intros e _. apply (NoDup_fmap_1 (fun k : str * str * str * str => k.1.1.2)).
        rewrite <-list_fmap_compose. apply release_rows_NoDup.
      * intros e k _ Hk. apply list_elem_of_fmap in Hk as (q & -> & Hq). by apply release_rows_key in Hq as (_ & _ & ?).
    + intros e k _ Hk. apply list_elem_of_fmap in Hk as (q & -> & Hq). by apply issue_rows_key in Hq as (_ & ?).
  - intros e k _ Hk. apply list_elem_of_bind in Hk as (i & Hk & _). apply list_elem_of_fmap in Hk as (q & -> & Hq).
    by apply issue_rows_key in Hq as (? & _).
Qed.
End Listing.

Lemma dec_Z_int {U : Unicode} n : 0 <= n < 10 ^ 14 -> python_int (dec_Z n) = Ok n.
Proof.
  intros Hn. unfold dec_Z. rewrite (proj2 (Z.ltb_ge _ _)) by lia. rewrite python_int_dec; [f_equal; lia|].
  pose proof (dec_length (Z.to_N n) 13) as H. unfold max_str_digits. etransitivity; [apply H|lia]. lia.
Qed.

(** The index lists exactly what the feed lists: building it from a feed whose
    dicts have distinct keys and loading it gives a store whose [lookup] of a source
    package and version returns, ordered by advisory and release, the releases of the
    issues that name this version among their repositories, and only those; a feed
    that lists nothing raises and leaves the index that was there. *)
Theorem index_lists_feed {U : Unicode} now packages file max_age : feed_ok packages ->
  Z.of_nat (length (feed_rows packages)) < 10 ^ 14 ->
  match build_index now packages file with
  | (Ok (records, sources), Some index) =>
      let store := load_tracker max_age (Some index) in
      tracker_available store = true /\ tk_record_count store = records /\ tk_synced_at store = Some now /\ 0 < sources <= records /\
      forall source version, let found := tracker_lookup store source version in
        (forall a, a ∈ found <-> listed packages source version (ta_advisory_id a) (ta_release a) a) /\ NoDup found
  | (Raise e, file') => e = OSError /\ file' = file /\ feed_rows packages = []
  | _ => False
  end.
Proof.
  intros Hok Hfew. pose proof (feed_keys_NoDup packages Hok) as Hnd. unfold build_index. rewrite build_fold.
  rewrite insert_all by (try done; intros q r Hq; by apply not_elem_of_nil in Hq). cbn [app].
  set (t := feed_rows packages) in *. unfold finish.
  assert (Hsrc : Z.of_nat (length (remove_dups (tr_source_package <$> t))) <= Z.of_nat (length t)).
  { apply Nat2Z.inj_le. rewrite <-(length_fmap tr_source_package t). apply submseteq_length, NoDup_submseteq; [apply NoDup_remove_dups|].
    intros x. by rewrite elem_of_remove_dups. }
  assert (Hpos : t <> [] -> 0 < Z.of_nat (length (remove_dups (tr_source_package <$> t)))).
  { intros Hne. destruct (remove_dups _) as [|x l] eqn:E; [|cbn; lia]. exfalso. destruct t as [|r t']; [done|].
    assert (Hin : tr_source_package r ∈ remove_dups (tr_source_package <$> r :: t')) by (rewrite elem_of_remove_dups; by left).
    rewrite E in Hin. by apply not_elem_of_nil in Hin. }
  destruct (decide (t = [])) as [Hnil|Hne]; [rewrite Hnil; done|]. specialize (Hpos Hne).
  assert (Hlen : 0 < Z.of_nat (length t)) by (destruct t; [done|cbn; lia]).
  rewrite (proj2 (Z.leb_gt _ _)) by lia. rewrite (proj2 (Z.leb_gt _ _)) by lia. cbn [orb].
  cbv zeta. unfold load_tracker. cbn [ti_metadata ti_advisories tm_schema_version]. rewrite bool_decide_true by done. cbn [negb].
  unfold read_metadata. cbn [tm_record_count tm_source_package_count tm_synced_at default from_option id]. unfold id. rewrite !dec_Z_int by lia.
  cbn [mbind res_bind fst snd negb raise_if]. rewrite (proj2 (Z.leb_gt _ _)) by lia. rewrite (proj2 (Z.leb_gt _ _)) by lia.
  rewrite bool_decide_false by (intros H0; by apply nil_length_inv in H0). cbn [orb].
  split; [unfold tracker_available; cbn; by apply Z.ltb_lt|]. split; [done|]. split; [done|]. split; [lia|].
  intros source version. unfold tracker_lookup. cbn [tk_rows]. split.
  - intros a. rewrite list_elem_of_fmap. split.
    + intros (q & -> & Hq). rewrite isort_elem, elem_select_where, andb_true_iff, !bool_decide_eq_true in Hq. destruct Hq as [[<- <-] Hq].
      by apply elem_feed.
    + intros Hl. exists (mkTrackerRow source version a). split; [done|]. rewrite isort_elem, elem_select_where. cbn [tr_source_package tr_source_version].
      rewrite !bool_decide_true by done. split; [done|]. by apply elem_feed.
  - apply (NoDup_fmap_1 (fun a => (source, version, ta_advisory_id a, ta_release a))). rewrite <-list_fmap_compose.
    rewrite isort_perm. apply (sublist_NoDup _ (tracker_key <$> t)); [done|].
    transitivity (tracker_key <$> select_where (fun r => bool_decide (tr_source_package r = source) && bool_decide (tr_source_version r = version)) t);
      [|apply (fmap_sublist tracker_key); unfold select_where; apply sublist_filter].
    rewrite (map_ext_in (B:=str * str * str * str) _ tracker_key); [done|]. intros r Hr. apply list_elem_of_In, elem_select_where in Hr as [Hr _].
    apply andb_true_iff in Hr as [Hs%bool_decide_eq_true Hv%bool_decide_eq_true]. unfold compose, tracker_key. by rewrite Hs, Hv.
Qed.

(** ** Matching *)
Section Matching.
Context {U : Unicode} (finding_bytes : vulnerability -> Z) (max_findings max_bytes : Z) (store : DebianTrackerStore).

(** The finding of the rows of one advisory for one group. *)
Definition reports (key : option str * str * str) packages p id rows (v : vulnerability) : Prop :=
  exists affected undetermined, affected_rows key.2 rows = Ok (affected, undetermined) /\ affected <> [] /\
    startswith (u "CVE-") id = true /\ kali_finding key packages p id affected = Ok v.

(** The rows of one advisory were all looked at. *)
Definition examined (key : option str * str * str) packages p id rows (found : list vulnerability) (incomplete : Prop) : Prop :=
  exists affected undetermined, affected_rows key.2 rows = Ok (affected, undetermined) /\
    (affected <> [] -> startswith (u "CVE-") id = true -> exists v, v ∈ found /\ kali_finding key packages p id affected = Ok v) /\
    (undetermined = true -> incomplete).

Lemma affected_rows_spec version rows affected und : affected_rows version rows = Ok (affected, und) ->
  (forall r, r ∈ affected <-> r ∈ rows /\ affected_by r version = Ok (Some true)) /\
  (forall r, r ∈ rows -> exists a, affected_by r version = Ok a) /\
  (und = false -> forall r, r ∈ rows -> affected_by r version <> Ok None).
Proof.
  revert affected und. induction rows as [|row rows IH]; intros affected und H; cbn [affected_rows] in H.
  { injection H as <- <-. split; [intros r; split; [intros H0|intros [H0 _]]; by apply not_elem_of_nil in H0|]. split; [intros r H0|intros _ r H0]; by apply not_elem_of_nil in H0. }
  apply bind_Ok_inv in H as (a & Ea & H). apply bind_Ok_inv in H as ([af un] & Er & H).
  destruct (IH _ _ Er) as (Haf & Hdec & Hun). cbn [fst snd] in H.
  split; [intros r; rewrite elem_of_cons|split].
  - destruct a as [[]|]; injection H as <- <-; [rewrite elem_of_cons|..]; rewrite Haf; naive_solver congruence.
  - intros r [->|Hr]%elem_of_cons; [by exists a|by apply Hdec].
  - intros ->. destruct a as [[]|]; [injection H as _ Hu|injection H as _ Hu|discriminate]; intros r [->|Hr]%elem_of_cons;
      try congruence; by apply Hun.
Qed.

(** What a loop has added. *)
Record extends (s s' : progress) (new : list vulnerability) : Prop := {
  ex_findings : pg_findings s' = pg_findings s ++ new;
  ex_incomplete : pg_incomplete s <= pg_incomplete s';
  ex_consumed : pg_consumed s' = pg_consumed s + foldr (fun v n => finding_bytes v + n) 0 new;
  ex_full : Z.of_nat (length (pg_findings s)) <= max_findings -> Z.of_nat (length (pg_findings s')) <= max_findings;
  ex_bytes : pg_consumed s <= max_bytes -> pg_consumed s' <= max_bytes;
}.

Lemma extends_refl s s' : pg_findings s' = pg_findings s -> pg_consumed s' = pg_consumed s -> pg_incomplete s <= pg_incomplete s' ->
  extends s s' [].
Proof. intros E1 E2 E3. split; rewrite ?E1, ?E2; cbn; try done; [by rewrite app_nil_r|lia]. Qed.

Lemma extends_trans s1 s2 s3 n1 n2 : extends s1 s2 n1 -> extends s2 s3 n2 -> extends s1 s3 (n1 ++ n2).
Proof.
  intros [F1 I1 C1 L1 B1] [F2 I2 C2 L2 B2]. split; [rewrite F2, F1; by rewrite app_assoc|lia| |by eauto|by eauto].
  rewrite C2, C1, foldr_app. clear. induction n1 as [|v n1 IH]; cbn; lia.
Qed.

Lemma match_advisories_spec key packages p groups : forall s stop s',
  match_advisories finding_bytes max_findings max_bytes key packages p groups s = Ok (stop, s') ->
  exists new, extends s s' new /\ pg_verified s' = pg_verified s /\
    (forall v, v ∈ new -> exists id rows, (id, rows) ∈ groups /\ reports key packages p id rows v) /\
    (if stop then ls_truncated (pg_limit s') = true
     else pg_limit s' = pg_limit s /\ forall id rows, (id, rows) ∈ groups -> examined key packages p id rows new (pg_incomplete s < pg_incomplete s')).
Proof.
  induction groups as [|[id rows] groups IH]; intros s stop s' H; cbn [match_advisories] in H.
  { injection H as <- <-. exists []. split; [by apply extends_refl|]. split; [done|]. split; [intros v Hv; by apply not_elem_of_nil in Hv|].
    split; [done|]. intros id rows Hi. by apply not_elem_of_nil in Hi. }
  apply bind_Ok_inv in H as ([affected und] & Er & H). cbv zeta in H.
  set (s1 := if und then s <| pg_incomplete := pg_incomplete s + 1 |> else s) in *.
  assert (H1 : extends s s1 [] /\ pg_verified s1 = pg_verified s /\ pg_limit s1 = pg_limit s /\ (und = true -> pg_incomplete s < pg_incomplete s1)).
  { subst s1. destruct und; (split; [apply extends_refl; cbn; lia || done|]); cbn; split_and!; try done. lia. }
  destruct H1 as (H1 & Hv1 & Hl1 & Hu1). clearbody s1.
  destruct (bool_decide (length affected = 0%nat) || negb (startswith (u "CVE-") id)) eqn:Eskip.
  - destruct (IH _ _ _ H) as (new & Hx & Hv & Hs & Hd). exists new. split; [exact (extends_trans _ _ _ [] _ H1 Hx)|]. split; [congruence|].
    split; [intros v Hin; destruct (Hs v Hin) as (i & r & ? & ?); exists i, r; split; [by right|done]|].
    destruct stop; [done|]. destruct Hd as [Hl Hd]. split; [congruence|].
    intros i r [[= -> ->]|Hin]%elem_of_cons.
    + exists affected, und. split; [done|]. split; [|intros E; specialize (Hu1 E); destruct Hx; lia].
      intros Hne Hst. apply orb_true_iff in Eskip as [E%bool_decide_eq_true|E]; [by apply length_zero_iff_nil in E|]. by rewrite Hst in E.
    + destruct (Hd i r Hin) as (a & n & ? & ? & Hn). exists a, n. split; [done|]. split; [done|]. intros E. specialize (Hn E). destruct H1. lia.
  - apply orb_false_iff in Eskip as [E1%bool_decide_eq_false E2%negb_false_iff].
    assert (Hne : affected <> []) by (intros ->; done).
    apply bind_Ok_inv in H as (finding & Ef & H). cbv zeta in H.
    destruct ((max_findings <=? Z.of_nat (length (pg_findings s1))) || (max_bytes <? pg_consumed s1 + finding_bytes finding)) eqn:Efull.
    { injection H as <- <-. exists []. split; [|split; [done|]; split; [intros v Hv; by apply not_elem_of_nil in Hv|done]].
      eapply (extends_trans _ _ _ [] [] H1). by apply extends_refl. }
    apply orb_false_iff in Efull as [F1%Z.leb_gt F2%Z.ltb_ge].
    match type of H with match_advisories _ _ _ _ _ _ _ ?s2 = _ => set (s2' := s2) in * end.
    assert (H2 : extends s1 s2' [finding]).
    { subst s2'. split; cbn; try done; try lia. rewrite length_app. cbn. lia. }
    assert (Hv2 : pg_verified s2' = pg_verified s1 /\ pg_limit s2' = pg_limit s1 /\ pg_incomplete s2' = pg_incomplete s1) by done. clearbody s2'.
    destruct Hv2 as (Hv2 & Hl2 & Hi2).
    destruct (IH _ _ _ H) as (new & Hx & Hv & Hs & Hd). exists (finding :: new).
    split; [exact (extends_trans _ _ _ [finding] new (extends_trans _ _ _ [] [finding] H1 H2) Hx)|]. split; [congruence|]. split.
    { intros v [->|Hin]%elem_of_cons; [exists id, rows; split; [by left|by exists affected, und]|].
      destruct (Hs v Hin) as (i & r & ? & ?). exists i, r. split; [by right|done]. }
    destruct stop; [done|]. destruct Hd as [Hl Hd]. split; [congruence|].
    intros i r [[= -> ->]|Hin]%elem_of_cons.
    + exists affected, und. split; [done|]. split; [intros _ _; exists finding; split; [by left|done]|].
      intros E. specialize (Hu1 E). destruct Hx. lia.
    + destruct (Hd i r Hin) as (a & n & ? & Hf & Hn). exists a, n. split; [done|]. split.
      * intros A B. destruct (Hf A B) as (v & ? & ?). exists v. split; [by right|done].
      * intros E. specialize (Hn E). destruct H1. lia.
Qed.

(** What the tracker lists for a group, by advisory *)
Definition advisories (key : option str * str * str) : list (str * list DebianTrackerAdvisory) :=
  group_by ta_advisory_id (tracker_lookup store key.1.2 key.2).

(** How many packages of the groups the tracker lists. *)
Definition known (groups : list ((option str * str * str) * list dpkg_package)) : nat :=
  foldr (fun g n => (if bool_decide (tracker_lookup store g.1.1.2 g.1.2 = []) then 0 else length g.2) + n)%nat 0%nat groups.

Lemma examined_weaken key packages p id rows found found' (P P' : Prop) : (forall v, v ∈ found -> v ∈ found') -> (P -> P') ->
  examined key packages p id rows found P -> examined key packages p id rows found' P'.
Proof.
  intros Hf HP (a & n & E & Hv & Hn). exists a, n. split; [done|]. split; [|auto].
  intros A B. destruct (Hv A B) as (v & ? & ?). exists v. auto.
Qed.

(** What a run over the groups establishes. *)
Definition groups_done groups (s : progress) (stop : bool) (s' : progress) : Prop :=
  exists new, extends s s' new /\
    (forall v, v ∈ new -> exists key p rest id rows, (key, p :: rest) ∈ groups /\ (id, rows) ∈ advisories key /\ reports key (p :: rest) p id rows v) /\
    (if stop then ls_truncated (pg_limit s') = true
     else pg_limit s' = pg_limit s /\ pg_verified s' = pg_verified s + Z.of_nat (known groups) /\
       forall key p rest id rows, (key, p :: rest) ∈ groups -> (id, rows) ∈ advisories key ->
         examined key (p :: rest) p id rows new (pg_incomplete s < pg_incomplete s')).

(** A group without packages or unknown to the tracker adds nothing. *)
Lemma groups_done_skip key packages groups s stop s' : packages = [] \/ tracker_lookup store key.1.2 key.2 = [] ->
  groups_done groups s stop s' -> groups_done ((key, packages) :: groups) s stop s'.
Proof.
  intros Hskip (new & Hx & Hs & Hd). exists new. split; [done|]. split.
  - intros v Hv. destruct (Hs v Hv) as (k & p & rest & i & r & Hin & H). exists k, p, rest, i, r. split; [by right|done].
  - destruct stop; [done|]. destruct Hd as (Hl & Hv & Hd). split; [done|]. split.
    + rewrite Hv. cbn [known foldr fst snd]. fold (known groups). case_bool_decide; [done|]. destruct Hskip as [->|]; [done|by destruct H].
    + intros k p rest i r [[= -> <-]|Hin]%elem_of_cons Hr; [|by eapply Hd]. destruct Hskip as [|E]; [done|].
      unfold advisories in Hr. rewrite E in Hr. by apply not_elem_of_nil in Hr.
Qed.

Lemma match_groups_spec groups : forall s stop s', match_groups finding_bytes max_findings max_bytes store groups s = Ok (stop, s') ->
  groups_done groups s stop s'.
Proof.
  induction groups as [|[key packages] groups IH]; intros s stop s' H; cbn [match_groups] in H.
  { injection H as <- <-. exists []. split; [by apply extends_refl|]. split; [intros v Hv; by apply not_elem_of_nil in Hv|].
    split; [done|]. split; [cbn; lia|]. intros k p rest i r Hi. by apply not_elem_of_nil in Hi. }
  destruct (tracker_lookup store key.1.2 key.2) as [|r0 rows] eqn:El; [apply groups_done_skip; [by right|by apply IH]|].
  destruct packages as [|p rest]; [apply groups_done_skip; [by left|by apply IH]|].
  cbv zeta in H. apply bind_Ok_inv in H as ([stop1 s2] & Em & H). cbn [fst snd] in H. rewrite <-El in Em. fold (advisories key) in Em.
  apply match_advisories_spec in Em as (new & Hx & Hv & Hs & Hd).
  match type of Hx with extends ?s0 _ _ => set (s1 := s0) in * end.
  assert (Hx1 : extends s s1 []) by (apply extends_refl; cbn; lia || done). pose proof (extends_trans _ _ _ [] _ Hx1 Hx) as Hx2. cbn [app] in Hx2.
  assert (Hs1 : forall v, v ∈ new -> exists k p' rest' i r, (k, p' :: rest') ∈ (key, p :: rest) :: groups /\ (i, r) ∈ advisories k /\ reports k (p' :: rest') p' i r v).
  { intros v Hin. destruct (Hs v Hin) as (i & r & ? & ?). exists key, p, rest, i, r. split; [by left|done]. }
  destruct stop1.
  { injection H as <- <-. exists new. by split. }
  destruct Hd as [Hl Hd]. destruct (IH _ _ _ H) as (new' & Hx' & Hs' & Hd'). exists (new ++ new'). split; [by eapply extends_trans|]. split.
  { intros v [Hin|Hin]%elem_of_app; [by apply Hs1|]. destruct (Hs' v Hin) as (k & p' & rest' & i & r & ? & ?). exists k, p', rest', i, r. split; [by right|done]. }
  destruct stop; [done|]. destruct Hd' as (Hl' & Hv' & Hd'). split; [rewrite Hl', Hl; done|]. split.
  { rewrite Hv', Hv. cbn [known foldr fst snd]. fold (known groups). rewrite bool_decide_false by (by rewrite El). cbn. lia. }
  pose proof (ex_incomplete _ _ _ Hx) as I1. pose proof (ex_incomplete _ _ _ Hx') as I2. cbn in I1.
  intros k p' rest' i r [[= -> -> ->]|Hin]%elem_of_cons Hr.
  - eapply examined_weaken; [| |by apply Hd]; [intros v; rewrite elem_of_app; by left|cbn; lia].
  - eapply examined_weaken; [| |by apply (Hd' k p' rest' i r)]; [intros v; rewrite elem_of_app; by right|cbn; lia].
Qed.
End Matching.

(** ** A whole report *)
Section Report.
Context {U : Unicode}.

(** An advisory row of exactly the source version of a package says it is affected. *)
Definition affecting (store : DebianTrackerStore) (p : dpkg_package) (row : DebianTrackerAdvisory) : Prop :=
  row ∈ tracker_lookup store (source_key p).1.2 (source_key p).2 /\ affected_by row (source_key p).2 = Ok (Some true) /\
  startswith (u "CVE-") (ta_advisory_id row) = true.

(** The finding is about this advisory and this package. *)
Definition names (v : vulnerability) (p : dpkg_package) (row : DebianTrackerAdvisory) : Prop :=
  vu_id v = trim (ta_advisory_id row) /\ vu_affected_asset_id v = trim (pk_asset_id (kp_package p)) /\
  vu_parent_asset_id v = trim <$> pk_parent_asset_id (kp_package p) /\ vu_source v = trim SOURCE.

Lemma severity_of_max rows row : row ∈ rows -> urgency_rank (urgency_of row) <= urgency_rank (severity_of rows).
Proof.
  unfold severity_of. intros Hr.
  assert (H : forall l s, urgency_rank s <= urgency_rank (fold_left (fun best s => if urgency_rank best <? urgency_rank s then s else best) l s) /\
    forall x, x ∈ l -> urgency_rank x <= urgency_rank (fold_left (fun best s => if urgency_rank best <? urgency_rank s then s else best) l s)).
  { clear. induction l as [|y l IH]; intros s; cbn [fold_left]; [split; [lia|intros x Hx; by apply not_elem_of_nil in Hx]|].
    destruct (Z.ltb_spec (urgency_rank s) (urgency_rank y)).
    - destruct (IH y) as [H1 H2]. split; [lia|]. intros x [->|Hx]%elem_of_cons; [done|by apply H2].
    - destruct (IH s) as [H1 H2]. split; [lia|]. intros x [->|Hx]%elem_of_cons; [lia|by apply H2]. }
  apply (list_elem_of_fmap_2 urgency_of) in Hr. destruct (urgency_of <$> rows) as [|s l]; [by apply not_elem_of_nil in Hr|].
  destruct (H l s) as [H1 H2]. apply elem_of_cons in Hr as [->|Hr]; [done|by apply H2].
Qed.

Lemma kali_finding_fields parent source version packages p id rows v : kali_finding (parent, source, version) packages p id rows = Ok v ->
  vu_id v = trim id /\ vu_severity v = severity_of rows /\ vu_affected_asset_id v = trim (pk_asset_id (kp_package p)) /\
  vu_parent_asset_id v = trim <$> parent /\ vu_source v = trim SOURCE.
Proof.
  unfold kali_finding. intros H. apply bind_Ok_inv in H as (fixed & _ & H). unfold validate_vulnerability in H. cbv zeta in H.
  match type of H with (if ?b then _ else _) = _ => destruct b; [|discriminate] end. injection H as <-. done.
Qed.

Lemma group_of p l : p ∈ l -> exists p' rest, (source_key p, p' :: rest) ∈ group_by source_key l /\ p' ∈ l /\ source_key p' = source_key p.
Proof.
  intros Hp. destruct (having source_key (source_key p) l) as [|p' rest] eqn:E.
  - assert (Hin : p ∈ having source_key (source_key p) l) by (by apply elem_having). rewrite E in Hin. by apply not_elem_of_nil in Hin.
  - exists p', rest. split; [apply elem_group_by; by rewrite E|].
    assert (Hin : p' ∈ having source_key (source_key p) l) by (rewrite E; by left). apply elem_having in Hin. tauto.
Qed.

Lemma group_head l key p rest : (key, p :: rest) ∈ group_by source_key l -> p ∈ l /\ source_key p = key.
Proof.
  intros [H _]%elem_group_by. assert (Hin : p ∈ having source_key key l) by (rewrite <-H; by left). apply elem_having in Hin. tauto.
Qed.

Lemma advisory_rows store key id rows row : (id, rows) ∈ advisories store key -> row ∈ rows ->
  row ∈ tracker_lookup store key.1.2 key.2 /\ ta_advisory_id row = id.
Proof. unfold advisories. intros [-> _]%elem_group_by Hr. apply elem_having in Hr. tauto. Qed.

Lemma advisory_of store key row : row ∈ tracker_lookup store key.1.2 key.2 ->
  exists rows, (ta_advisory_id row, rows) ∈ advisories store key /\ row ∈ rows.
Proof.
  intros Hr. exists (having ta_advisory_id (ta_advisory_id row) (tracker_lookup store key.1.2 key.2)).
  assert (Hin : row ∈ having ta_advisory_id (ta_advisory_id row) (tracker_lookup store key.1.2 key.2)) by (by apply elem_having).
  split; [|done]. apply elem_group_by. split; [done|]. intros E. rewrite E in Hin. by apply not_elem_of_nil in Hin.
Qed.

(** What [detect_kali_packages] returns, by its parts. *)
Lemma detect_kali_inv finding_bytes max_findings max_bytes store host_os assets l d l' :
  detect_kali_packages finding_bytes max_findings max_bytes store host_os assets l = Ok (d, l') ->
  let candidates := kali_candidates host_os assets in
  exists stop s, groups_done finding_bytes max_findings max_bytes store (group_by source_key candidates) (mkProgress [] 0 0 0 l) stop s /\
    kd_findings d = pg_findings s /\ kd_candidate_count d = Z.of_nat (length candidates) /\ kd_verified_count d = pg_verified s /\
    kd_unverified_count d = kd_candidate_count d - kd_verified_count d /\ kd_incomplete_count d = pg_incomplete s /\ ls_truncated l' = ls_truncated (pg_limit s).
Proof.
  unfold detect_kali_packages. intros H. apply bind_Ok_inv in H as ([stop s] & Em & H). apply match_groups_spec in Em. exists stop, s.
  split; [done|]. injection H as <- <-. cbn [kd_findings kd_candidate_count kd_verified_count kd_unverified_count kd_incomplete_count]. split_and!; try done.
  by destruct (negb stop && negb (pg_incomplete s =? 0)).
Qed.

(** What an untruncated run has done for a package and a row of its version. *)
Lemma examined_row finding_bytes max_findings max_bytes store groups s s' candidates p row :
  groups = group_by source_key candidates ->
  groups_done finding_bytes max_findings max_bytes store groups s false s' -> p ∈ candidates ->
  row ∈ tracker_lookup store (source_key p).1.2 (source_key p).2 ->
  (pg_incomplete s' = pg_incomplete s -> exists b, affected_by row (source_key p).2 = Ok (Some b)) /\
  (affecting store p row -> exists p' v, p' ∈ candidates /\ source_key p' = source_key p /\ v ∈ pg_findings s' /\ names v p' row /\
    urgency_rank (urgency_of row) <= urgency_rank (vu_severity v)).
Proof.
  intros -> (new & Hx & _ & _ & _ & Hd) Hp Hrow. destruct (group_of p candidates Hp) as (p' & rest & Hg & Hp' & Hk).
  destruct (advisory_of store (source_key p) row Hrow) as (rows & Ha & Hr).
  destruct (Hd _ _ _ _ _ Hg Ha) as (affected & und & Eaf & Hf & Hu). destruct (affected_rows_spec _ _ _ _ Eaf) as (Haf & Hdec & Hnone).
  split.
  - intros Hinc. destruct (Hdec row Hr) as ([b|] & Eb); [by exists b|]. destruct und; [specialize (Hu eq_refl); lia|]. by destruct (Hnone eq_refl row Hr).
  - intros (_ & Haff & Hcve). assert (Hin : row ∈ affected) by (by apply Haf).
    destruct Hf as (v & Hv & Ev); [intros ->; by apply not_elem_of_nil in Hin|done|]. exists p', v. split; [done|]. split; [done|].
    split; [rewrite (ex_findings _ _ _ _ _ _ Hx); apply elem_of_app; by right|].
    unfold source_key in Ev at 1. apply kali_finding_fields in Ev as (H1 & H2 & H3 & H4 & H5).
    assert (Hpar : pk_parent_asset_id (kp_package p') = pk_parent_asset_id (kp_package p)) by (unfold source_key in Hk; congruence).
    split; [unfold names; rewrite Hpar; done|]. rewrite H2. by apply severity_of_max.
Qed.

(** Every Kali finding names a package of the report installed by dpkg and an
    advisory row the tracker lists for exactly its source version, whose status says
    it is affected; the findings respect both limits; and a run that was not
    truncated misses no affecting CVE row: the finding is about a package of the same
    source and version, and is at least as severe as the row's urgency. *)
Theorem kali_findings_exact finding_bytes max_findings max_bytes store host_os assets l d l' :
  0 <= max_findings -> 0 <= max_bytes ->
  detect_kali_packages finding_bytes max_findings max_bytes store host_os assets l = Ok (d, l') ->
  let candidates := kali_candidates host_os assets in
  (Z.of_nat (length (kd_findings d)) <= max_findings /\ foldr (fun v n => finding_bytes v + n) 0 (kd_findings d) <= max_bytes) /\
  (forall v, v ∈ kd_findings d -> exists p row, p ∈ candidates /\ affecting store p row /\ names v p row) /\
  (ls_truncated l' = false -> forall p row, p ∈ candidates -> affecting store p row ->
    exists p' v, p' ∈ candidates /\ source_key p' = source_key p /\ v ∈ kd_findings d /\ names v p' row /\
      urgency_rank (urgency_of row) <= urgency_rank (vu_severity v)).
Proof.
  intros Hm Hb H. cbv zeta. destruct (detect_kali_inv _ _ _ _ _ _ _ _ _ H) as (stop & s & Hg & -> & _ & _ & _ & _ & ->).
  pose proof Hg as (new & Hx & Hs & Hd). destruct Hx as [Hf _ Hc Hfull Hbytes]. cbn in Hf, Hc, Hfull, Hbytes. split; [|split].
  - split; [by apply Hfull|]. rewrite Hf. specialize (Hbytes Hb). lia.
  - rewrite Hf. intros v Hv. destruct (Hs v Hv) as (key & p & rest & id & rows & Hin & Ha & affected & und & Eaf & Hne & Hcve & Ev).
    destruct (group_head _ _ _ _ Hin) as [Hp <-]. destruct affected as [|row affected]; [done|]. destruct (affected_rows_spec _ _ _ _ Eaf) as (Haf & _ & _).
    destruct (proj1 (Haf row)) as [Hr Hy]; [by left|]. destruct (advisory_rows _ _ _ _ _ Ha Hr) as [Hl <-].
    exists p, row. split; [done|]. split; [by unfold affecting|]. unfold source_key in Ev at 1. by apply kali_finding_fields in Ev as (? & _ & ? & ? & ?).
  - intros Ht p row Hp Haff. destruct stop; [rewrite Ht in Hd; discriminate|].
    eapply examined_row; [done|exact Hg|done|apply Haff|done].
Qed.
End Report.

(** ** What stands in the way *)
Section Limits.
Context {U : Unicode}.

Lemma drop_while_keeps p s c t : p c = false -> (1 + length t <= length (drop_while p (s ++ c :: t)))%nat.
Proof. intros Hc. induction s as [|x s IH]; cbn [app drop_while]; [rewrite Hc; cbn; lia|]. destruct (p x); [done|]. cbn. rewrite length_app. cbn. lia. Qed.

(** Trimming takes nothing from between two characters that are not white. *)
Lemma trim_keeps a x c y : iswhite_c a = false -> iswhite_c c = false -> (length x <= length (trim (a :: x ++ c :: y)))%nat.
Proof.
  intros Ha Hc. unfold trim. cbn [drop_while]. rewrite Ha, length_rev.
  replace (rev (a :: x ++ c :: y)) with (rev y ++ c :: rev (a :: x)) by (cbn; rewrite rev_app_distr; cbn; by rewrite <-!app_assoc).
  pose proof (drop_while_keeps iswhite_c (rev y) c (rev (a :: x)) Hc) as H. rewrite length_rev in H. cbn [length] in H. lia.
Qed.

Lemma binary_summary_one p : binary_summary [p] = package_label p.
Proof. unfold binary_summary. cbn. destruct (decide_rel _ _ _) as [H|]; [by apply not_elem_of_nil in H|]. done. Qed.

Lemma kali_finding_long key p id row : (max_wire_string <= length (pk_name (kp_package p)))%nat ->
  kali_finding key [p] p id [row] = Raise ValueError.
Proof.
  intros Hn. destruct key as [[parent source] version]. unfold kali_finding.
  match goal with |- (fixed ← sort_versions ?l; _) = _ => assert (Hf : exists fixed, sort_versions l = Ok fixed) end.
  { cbn [omap list_omap]. destruct (ta_fixed_version row) as [[|c v]|]; [by exists []| |by exists []].
    case_bool_decide; [by exists []|]. cbn [remove_dups]. destruct (decide_rel _ _ _) as [H0|]; [by apply not_elem_of_nil in H0|]. by eexists. }
  destruct Hf as [fixed ->]. cbn [mbind res_bind]. rewrite binary_summary_one. unfold package_label. unfold validate_vulnerability.
  cbn [vu_id vu_severity vu_cvss_score vu_affected_asset_id vu_parent_asset_id vu_source vu_evidence vu_references fmap option_fmap option_map]. cbv zeta.
  match goal with |- context [trim (match fixed with [] => ?e | _ => _ end)] =>
    assert (Hlong : forall tail, (max_wire_string < length (trim (e ++ tail)))%nat) end.
  { intros tail. match goal with |- context [trim ?e] =>
      replace e with (68%N :: ((u "ebian source " ++ source ++ u " " ++ version ++ u " (installed binaries: ")
        ++ pk_name (kp_package p) ++ u " " ++ pk_version (kp_package p)) ++ 41%N :: u "; vulnerable in "
        ++ join (u ", ") (isort str_ltb (remove_dups (ta_release <$> [row]))) ++ tail) end.
    - eapply Nat.lt_le_trans; [|by apply trim_keeps]. rewrite !length_app. cbn. lia.
    - change (u "Debian source ") with (68%N :: u "ebian source "). change (u "); vulnerable in ") with (41%N :: u "; vulnerable in ").
      cbn [app]. repeat (rewrite <-!app_assoc || cbn [app]). reflexivity. }
  match goal with |- (if ?c && ?d && forallb _ _ then _ else _) = _ => assert (E : c = false); [|by rewrite E] end.
  rewrite andb_false_iff. right. destruct fixed as [|v fixed].
  - specialize (Hlong []). rewrite app_nil_r in Hlong. by apply Nat.leb_gt.
  - by apply Nat.leb_gt.
Qed.

(** A long package name fails a whole report: one Kali package whose name has
    4096 characters or more, of a source version with an open CVE, makes the evidence
    longer than a [Vulnerability] may hold, and [detect_kali_packages] raises instead
    of returning a finding. *)
Theorem long_package_name_fails finding_bytes max_findings max_bytes store host_os p row l :
  is_kali_package host_os p = true -> tracker_lookup store (source_key p).1.2 (source_key p).2 = [row] ->
  ta_status row = u "open" -> startswith (u "CVE-") (ta_advisory_id row) = true ->
  (max_wire_string <= length (pk_name (kp_package p)))%nat ->
  detect_kali_packages finding_bytes max_findings max_bytes store host_os [I_package p] l = Raise ValueError.
Proof.
  intros Hk Hl Hs Hc Hn. unfold detect_kali_packages, kali_candidates. cbn [omap list_omap]. rewrite Hk.
  unfold group_by. cbn [fold_left od_get default from_option app od_set match_groups]. rewrite Hl. cbv zeta.
  unfold group_by. cbn [fold_left od_get default from_option app od_set match_advisories affected_rows].
  unfold affected_by. rewrite Hs, bool_decide_true by done. cbn [mbind res_bind fst snd length]. rewrite Hc, bool_decide_false by done.
  cbn [orb negb]. by rewrite kali_finding_long.
Qed.
End Limits.

Section Truth.
Context {U : Unicode}.

Lemma known_all store groups : known store groups = foldr (fun g n => length g.2 + n)%nat 0%nat groups ->
  forall key p rest, (key, p :: rest) ∈ groups -> tracker_lookup store key.1.2 key.2 <> [].
Proof.
  assert (Hle : forall groups, (known store groups <= foldr (fun g n => length g.2 + n) 0 groups)%nat).
  { clear. induction groups as [|g groups IH]; [done|]. cbn [known foldr]. fold (known store groups). case_bool_decide; lia. }
  induction groups as [|[k ps] groups IH]; intros E key p rest Hin; [by apply not_elem_of_nil in Hin|].
  cbn [known foldr fst snd] in E. fold (known store groups) in E. specialize (Hle groups).
  apply elem_of_cons in Hin as [[= <- <-]|Hin].
  - case_bool_decide as Hd; [cbn [length] in E; lia|done].
  - eapply IH; [|exact Hin]. case_bool_decide; lia.
Qed.

(** When the merged status is complete, nothing spoke against it. *)
Lemma merge_complete now result store limit osv current reason why : kd_candidate_count result <> 0 ->
  merge_kali_tracker_status now result store limit osv current reason = (S_COMPLETE, why) ->
  tracker_available store = true /\ tracker_stale now store = false /\ ls_truncated limit = false /\ kd_incomplete_count result = 0 /\ kd_unverified_count result = 0.
Proof.
  intros Hc. unfold merge_kali_tracker_status. rewrite (proj2 (Z.eqb_neq _ _) Hc). cbn [orb].
  destruct (tracker_available store); cbn [negb]; [|by destruct current]. destruct (tracker_stale now store); [by destruct current|].
  destruct (ls_truncated limit); [destruct current; try done; by destruct (osv =? 0)|].
  destruct (Z.eqb_spec (kd_incomplete_count result) 0) as [E1|E1]; cbn [negb]; [|destruct current; try done; by destruct (osv =? 0)].
  destruct (Z.eqb_spec (kd_unverified_count result) 0) as [E2|E2]; cbn [negb]; [done|destruct current; try done; by destruct (osv =? 0)].
Qed.

Lemma coverage_complete now result store limit row : kali_tracker_coverage now result store limit = Some row -> row_status row = C_COMPLETE ->
  kd_candidate_count result <> 0 /\ tracker_available store = true /\ tracker_stale now store = false /\ ls_truncated limit = false /\
  kd_incomplete_count result = 0 /\ kd_unverified_count result = 0.
Proof.
  unfold kali_tracker_coverage. destruct (Z.eqb_spec (kd_candidate_count result) 0) as [|Hc]; [done|].
  destruct (tracker_available store); cbn [negb]; [|by intros [= <-]]. destruct (tracker_stale now store); [by intros [= <-]|].
  destruct (ls_truncated limit); [by intros [= <-]|].
  destruct (Z.eqb_spec (kd_incomplete_count result) 0) as [E1|E1]; cbn [negb]; [|by intros [= <-]].
  destruct (Z.eqb_spec (kd_unverified_count result) 0) as [E2|E2]; cbn [negb]; [done|by intros [= <-]].
Qed.

(** C26. COMPLETE is truthful for Kali packages: when the coverage row, or the merged
    status of a report with such packages, is COMPLETE, the index is available and not
    stale, every package's source version is one the tracker lists, every row it lists
    for that version could be decided, and each CVE row that affects it is among the
    findings. *)
Theorem kali_coverage_truthful finding_bytes max_findings max_bytes store host_os assets l d l' now :
  detect_kali_packages finding_bytes max_findings max_bytes store host_os assets l = Ok (d, l') ->
  (exists row, kali_tracker_coverage now d store l' = Some row /\ row_status row = C_COMPLETE) \/
  (kd_candidate_count d <> 0 /\ exists osv current reason why, merge_kali_tracker_status now d store l' osv current reason = (S_COMPLETE, why)) ->
  (tracker_available store = true /\ tracker_stale now store = false) /\
  kd_verified_count d = Z.of_nat (length (kali_candidates host_os assets)) /\
  forall p, p ∈ kali_candidates host_os assets -> tracker_lookup store (source_key p).1.2 (source_key p).2 <> [] /\
    forall row, row ∈ tracker_lookup store (source_key p).1.2 (source_key p).2 ->
      exists affected, affected_by row (source_key p).2 = Ok (Some affected) /\
        (affected = true -> startswith (u "CVE-") (ta_advisory_id row) = true ->
           exists p' v, p' ∈ kali_candidates host_os assets /\ source_key p' = source_key p /\ v ∈ kd_findings d /\ names v p' row).
Proof.
  intros H Hcomplete.
  assert (Hc : tracker_available store = true /\ tracker_stale now store = false /\ ls_truncated l' = false /\ kd_incomplete_count d = 0 /\ kd_unverified_count d = 0).
  { destruct Hcomplete as [(row & H1 & H2)|(Hn & osv & current & reason & why & H1)]; [by eapply coverage_complete|by eapply merge_complete]. }
  clear Hcomplete. destruct Hc as (Ha & Hs & Ht & Hi & Hu). split; [done|].
  destruct (detect_kali_inv _ _ _ _ _ _ _ _ _ H) as (stop & s & Hg & Ef & Ec & Ev & Eu & Ei & El). rewrite Ht in El.
  pose proof Hg as (new & _ & _ & Hd). destruct stop; [by rewrite Hd in El|]. destruct Hd as (_ & Hk & _). cbn in Hk.
  split; [lia|]. intros p Hp. split.
  - destruct (group_of p _ Hp) as (p' & rest & Hin & _ & _). eapply (known_all store); [|exact Hin]. rewrite group_by_length. lia.
  - intros row Hr. destruct (examined_row _ _ _ _ _ _ _ _ p row eq_refl Hg Hp Hr) as [H1 H2].
    destruct H1 as [b Eb]; [cbn; lia|]. exists b. split; [done|]. intros -> Hcve. destruct H2 as (p' & v & ? & ? & ? & ? & _); [by unfold affecting|].
    exists p', v. by rewrite Ef.
Qed.
End Truth.

(** ** A small feed *)
Module KaliExample.
Definition feed : list (str * list (str * json)) :=
  [(u "openssl", [(u "CVE-2024-1", JObject [(u "releases", JObject [(u "sid", JObject
     [(u "status", JString (u "open")); (u "urgency", JString (u "high")); (u "repositories", JObject [(u "sid", JString (u "3.0-1"))])])])])])].
Definition row : DebianTrackerAdvisory := mkAdvisory (u "CVE-2024-1") (u "sid") (u "open") None (Some (u "high")) None.
Definition store : DebianTrackerStore := load_tracker None (build_index 5 feed None).2.
Definition libssl (name : str) : dpkg_package :=
  mkDpkg (mkPackage (u "pkg:1") None name (u "3.0-1") None) (Some (u "dpkg")) (Some (u "openssl")) None.
Definition size (_ : vulnerability) : Z := 100.
Definition result := detect_kali_packages size 10 1000 store (u "Kali GNU/Linux") [I_package (libssl (u "libssl3")); I_other] fresh_limit.
Definition findings : KaliTrackerDetection := match result with Ok (d, _) => d | Raise _ => mkKali [] [] 0 0 0 0 end.

Lemma feed_small : feed_ok feed /\ Z.of_nat (length (feed_rows feed)) < 10 ^ 14.
Proof.
  split; [|vm_compute; reflexivity]. split; [vm_compute; apply NoDup_singleton|].
  intros p issues Hin. apply list_elem_of_singleton in Hin. injection Hin as -> ->. split; [vm_compute; apply NoDup_singleton|].
  intros i fields releases Hin Hr. apply list_elem_of_singleton in Hin. injection Hin as -> ->. vm_compute in Hr. injection Hr as <-. vm_compute. apply NoDup_singleton.
Qed.

Lemma result_ok : result = Ok (findings, fresh_limit).
Proof. vm_compute. reflexivity. Qed.

Lemma libssl_affected : affecting store (libssl (u "libssl3")) row.
Proof. split; [|split; vm_compute; reflexivity]. replace (tracker_lookup _ _ _) with [row] by (vm_compute; reflexivity). by left. Qed.
End KaliExample.

Lemma index_lists_feed_witness : tracker_available KaliExample.store = true.
Proof. exact (proj1 (index_lists_feed 5 KaliExample.feed None None (proj1 KaliExample.feed_small) (proj2 KaliExample.feed_small))). Defined.

Lemma kali_findings_exact_witness : exists v, v ∈ kd_findings KaliExample.findings /\ vu_id v = u "CVE-2024-1".
Proof.
  destruct (kali_findings_exact _ 10 1000 _ _ _ _ _ _ ltac:(lia) ltac:(lia) KaliExample.result_ok) as (_ & _ & H).
  destruct (H eq_refl (KaliExample.libssl (u "libssl3")) KaliExample.row) as (p & v & _ & _ & Hv & Hn & _).
  - vm_compute. left.
  - exact KaliExample.libssl_affected.
  - exists v. split; [exact Hv|]. destruct Hn as [-> _]. vm_compute. reflexivity.
Defined.

Lemma long_package_name_fails_witness :
  detect_kali_packages KaliExample.size 10 1000 KaliExample.store (u "Kali GNU/Linux") [I_package (KaliExample.libssl (replicate 4096 97%N))] fresh_limit
    = Raise ValueError.
Proof.
  apply (long_package_name_fails _ _ _ _ _ _ KaliExample.row); try (vm_compute; reflexivity).
Defined.

Lemma kali_coverage_truthful_witness : kd_verified_count KaliExample.findings = 1.
Proof.
  refine (proj1 (proj2 (kali_coverage_truthful _ _ _ _ _ _ _ _ _ 7 KaliExample.result_ok _))).
  left. eexists. split; vm_compute; reflexivity.
Defined.
