(* ===== verification/PyTime.v ===== *)
(** * Instants as text

    A [datetime] in UTC is its number of microseconds since 1970.  [isoformat] needs
    the proleptic Gregorian calendar; [civil] counts days in eras of 400 years that
    begin in March. *)

From stdpp Require Import base strings list numbers.
From Stdlib Require Import ZArith Lia.
From S2P Require Import Prelude PyText.

#[local] Open Scope Z_scope.

(** The year, month and day of a day since 1970-01-01 *)
Definition civil (days : Z) : Z * Z * Z :=
  let z := days + 719468 in
  let era := z / 146097 in
  let doe := z mod 146097 in
  let yoe := (doe - doe / 1460 + doe / 36524 - doe / 146096) / 365 in
  let doy := doe - (365 * yoe + yoe / 4 - yoe / 100) in
  let mp := (5 * doy + 2) / 153 in
  let month := if mp <? 10 then mp + 3 else mp - 9 in
  (yoe + era * 400 + (if month <=? 2 then 1 else 0), month, doy - (153 * mp + 2) / 5 + 1).

(** [{n:0{width}d}] of a number that is not negative *)
Definition padded (width : nat) (n : Z) : str :=
  let digits := dec (Z.to_N n) in replicate (width - length digits) 48%N ++ digits.

(** [isoformat()] of a [datetime] whose time zone is UTC *)
Definition isoformat (t : Z) : str :=
  let '(year, month, day) := civil (t / 86400000000) in
  let seconds := t mod 86400000000 / 1000000 in
  let micros := t mod 1000000 in
  padded 4 year ++ u "-" ++ padded 2 month ++ u "-" ++ padded 2 day ++ u "T"
  ++ padded 2 (seconds / 3600) ++ u ":" ++ padded 2 (seconds / 60 mod 60) ++ u ":" ++ padded 2 (seconds mod 60)
  ++ (if micros =? 0 then [] else u "." ++ padded 6 micros) ++ u "+00:00".

Example isoformat_epoch : isoformat 0 = u "1970-01-01T00:00:00+00:00".
Proof. vm_compute. reflexivity. Qed.
Example isoformat_leap : isoformat 951827696000001 = u "2000-02-29T12:34:56.000001+00:00".
Proof. vm_compute. reflexivity. Qed.

(** ** Reading instants *)

Definition leap_year (y : Z) : bool := (y mod 4 =? 0) && (negb (y mod 100 =? 0) || (y mod 400 =? 0)).

Definition month_days (y m : Z) : Z :=
  if m =? 2 then (if leap_year y then 29 else 28)
  else if (m =? 4) || (m =? 6) || (m =? 9) || (m =? 11) then 30 else 31.

(** The day since 1970-01-01 of a date *)
Definition days_of (y m d : Z) : Z :=
  let y' := if m <=? 2 then y - 1 else y in
  let mp := if m <=? 2 then m + 9 else m - 3 in
  365 * y' + y' / 4 - y' / 100 + y' / 400 + (153 * mp + 2) / 5 + d - 1 - 719468.

(** The instants a [datetime] can be: the years 1 to 9999 *)
Definition in_datetime_range (t : Z) : bool := (-719162 * 86400000000 <=? t) && (t <? 2932897 * 86400000000).

Fixpoint digits_then (width : nat) (acc : Z) (s : str) : option (Z * str) :=
  match width, s with
  | O, _ => Some (acc, s)
  | S w, c :: s => if PyText.between 48 c 57 then digits_then w (10 * acc + (Z.of_N c - 48)) s else None
  | S _, [] => None
  end.

Definition char_then (c : N) (s : str) : option str :=
  match s with d :: s => if (d =? c)%N then Some s else None | [] => None end.

(** The microseconds of a fraction: its first six digits *)
Definition fraction_then (s : str) : option (Z * str) :=
  match s with
  | 46%N :: s =>
      let ds := take_while (fun c => PyText.between 48 c 57) s in
      if bool_decide (ds = []) then None
      else match digits_then 6 0 (take 6 ds ++ replicate (6 - length ds) 48%N) with
           | Some (us, _) => Some (us, drop_while (fun c => PyText.between 48 c 57) s)
           | None => None
           end
  | _ => Some (0, s)
  end.

(** The offset from UTC in minutes; a naive time is taken for UTC. *)
Definition zone_then (s : str) : option Z :=
  match s with
  | [] => Some 0
  | c :: s =>
      if negb ((c =? 43) || (c =? 45))%N then None
      else
        '(h, s) ← digits_then 2 0 s;
        s ← char_then 58 s;
        '(m, s) ← digits_then 2 0 s;
        if bool_decide (s = []) && (h <=? 23) && (m <=? 59) then Some ((if (c =? 45)%N then -1 else 1) * (60 * h + m)) else None
  end.

(** The texts of the form [YYYY-MM-DD?hh:mm:ss[.f...][+hh:mm]], as RFC 3339 has them:
    the instant or the exception; [None] for a text of another form. *)
Definition rfc3339 (s : str) : option (res Z) :=
  '(y, s) ← digits_then 4 0 s;
  s ← char_then 45 s;
  '(mo, s) ← digits_then 2 0 s;
  s ← char_then 45 s;
  '(d, s) ← digits_then 2 0 s;
  s ← match s with _ :: s => Some s | [] => None end;
  '(h, s) ← digits_then 2 0 s;
  s ← char_then 58 s;
  '(mi, s) ← digits_then 2 0 s;
  s ← char_then 58 s;
  '(sec, s) ← digits_then 2 0 s;
  '(us, s) ← fraction_then s;
  offset ← zone_then s;
  if h =? 24 then None
  else if (1 <=? y) && (1 <=? mo) && (mo <=? 12) && (1 <=? d) && (d <=? month_days y mo) && (h <=? 23) && (mi <=? 59) && (sec <=? 59) then
    let t := days_of y mo d * 86400000000 + (h * 3600 + mi * 60 + sec) * 1000000 + us - offset * 60000000 in
    Some (if in_datetime_range t then Ok t else Raise OverflowError)
  else Some (Raise ValueError).

(** What [datetime.fromisoformat] makes of the other texts depends on the version of
    the interpreter (week dates, forms without separators, midnight as 24:00). *)
Class IsoForms := { other_form : str -> res Z }.

(** [fromisoformat(s)], a naive time taken for UTC, and [astimezone(UTC)] *)
Definition fromisoformat `{IsoForms} (s : str) : res Z :=
  match rfc3339 s with Some r => r | None => other_form s end.

Example rfc3339_zone : rfc3339 (u "2000-02-29T12:34:56.5+01:30") = Some (Ok 951822296500000).
Proof. vm_compute. reflexivity. Qed.
Example rfc3339_no_such_day : rfc3339 (u "1900-02-29 00:00:00") = Some (Raise ValueError).
Proof. vm_compute. reflexivity. Qed.
Example rfc3339_before_year_one : rfc3339 (u "0001-01-01T00:00:00+00:01") = Some (Raise OverflowError).
Proof. vm_compute. reflexivity. Qed.
