(* ===== verification/TimeOrder.v ===== *)
(** * The order of printed instants

    [civil] is the Gregorian calendar: it has an inverse and follows the order of
    the days.  So [isoformat] is injective, and texts of instants compare like the
    instants, which is what a query that compares them relies on. *)

From stdpp Require Import base strings list numbers.
From Stdlib Require Import ZArith Lia.
From S2P Require Import Prelude PyText Compare PyTime.

#[local] Open Scope Z_scope.

(** ** The calendar *)

(** The days before a year that begins in March *)
Definition days_to (y : Z) : Z := 365 * y + y / 4 - y / 100 + y / 400.

Lemma days_to_mono x y : x <= y -> days_to x <= days_to y.
Proof. unfold days_to. intros. Z.div_mod_to_equations. lia. Qed.

(** The day of an era lies in its year, and the day of the year in its month. *)
Definition march_year (days : Z) : Z :=
  let doe := (days + 719468) mod 146097 in
  (doe - doe / 1460 + doe / 36524 - doe / 146096) / 365 + (days + 719468) / 146097 * 400.

Lemma march_year_spec days : days_to (march_year days) <= days + 719468 < days_to (march_year days + 1).
Proof.
  unfold march_year, days_to. set (z := days + 719468). pose proof (Z.mod_pos_bound z 146097 ltac:(lia)) as Hb.
  pose proof (Z.div_mod z 146097 ltac:(lia)) as Hz. set (era := z / 146097) in *. set (doe := z mod 146097) in *.
  set (yoe := (doe - doe / 1460 + doe / 36524 - doe / 146096) / 365).
  assert (Hy : 0 <= yoe < 400 /\ 365 * yoe + yoe / 4 - yoe / 100 <= doe < 365 * (yoe + 1) + (yoe + 1) / 4 - (yoe + 1) / 100 + (yoe + 1) / 400).
  { unfold yoe. clearbody doe. clear era Hz. Z.div_mod_to_equations. lia. }
  clearbody yoe doe era. Z.div_mod_to_equations. lia.
Qed.

(** The fields in terms of it *)
Lemma civil_fields days : exists mp,
  0 <= mp <= 11 /\ (153 * mp + 2) / 5 <= days + 719468 - days_to (march_year days) < (153 * (mp + 1) + 2) / 5 /\
  civil days = (march_year days + (if mp <? 10 then 0 else 1), if mp <? 10 then mp + 3 else mp - 9,
                days + 719468 - days_to (march_year days) - (153 * mp + 2) / 5 + 1).
Proof.
  pose proof (march_year_spec days) as Hm. unfold civil. fold (march_year days). unfold march_year in *.
  set (z := days + 719468) in *. pose proof (Z.mod_pos_bound z 146097 ltac:(lia)) as Hb.
  pose proof (Z.div_mod z 146097 ltac:(lia)) as Hz. set (era := z / 146097) in *. set (doe := z mod 146097) in *. cbv zeta.
  set (yoe := (doe - doe / 1460 + doe / 36524 - doe / 146096) / 365) in *.
  assert (Hy : 0 <= yoe < 400).
  { unfold yoe. clearbody doe. clear era Hz Hm yoe. Z.div_mod_to_equations. lia. }
  assert (Hd : z - days_to (yoe + era * 400) = doe - (365 * yoe + yoe / 4 - yoe / 100)).
  { unfold days_to. clear Hm. clearbody yoe doe era. Z.div_mod_to_equations. lia. }
  assert (Hr : 0 <= doe - (365 * yoe + yoe / 4 - yoe / 100) <= 365).
  { unfold yoe. clearbody doe. clear era Hz Hm yoe Hy Hd. Z.div_mod_to_equations. lia. }
  rewrite !Hd. set (doy := doe - (365 * yoe + yoe / 4 - yoe / 100)) in *. clearbody doy. clear Hm Hb Hz Hd.
  exists ((5 * doy + 2) / 153). set (mp := (5 * doy + 2) / 153) in *.
  assert (Hmp : 0 <= mp <= 11 /\ (153 * mp + 2) / 5 <= doy < (153 * (mp + 1) + 2) / 5).
  { unfold mp. Z.div_mod_to_equations. lia. }
  split; [tauto|]. split; [tauto|]. destruct (Z.ltb_spec mp 10).
  - rewrite (proj2 (Z.leb_gt (mp + 3) 2)) by lia. f_equal; try done; f_equal; lia.
  - rewrite (proj2 (Z.leb_le (mp - 9) 2)) by lia. f_equal; try done; f_equal; lia.
Qed.

(** Later days have later dates. *)
Lemma civil_mono a b : a < b ->
  let '(y, m, d) := civil a in let '(y', m', d') := civil b in y < y' \/ y = y' /\ (m < m' \/ m = m' /\ d < d').
Proof.
  intros Hab. destruct (civil_fields a) as (p & Hp & Hpd & ->), (civil_fields b) as (q & Hq & Hqd & ->).
  pose proof (march_year_spec a) as Ha. pose proof (march_year_spec b) as Hb.
  set (x := march_year a) in *. set (y := march_year b) in *. clearbody x y.
  assert (Hxy : x <= y). { destruct (Z.le_gt_cases x y); [done|]. pose proof (days_to_mono (y + 1) x ltac:(lia)). lia. }
  destruct (Z.eq_dec x y) as [->|Hne].
  - assert (p <= q). { Z.div_mod_to_equations. lia. }
    destruct (Z.ltb_spec p 10), (Z.ltb_spec q 10); try lia; right; (split; [lia|]);
      (destruct (Z.eq_dec p q) as [->|]; [right; split; lia|left; lia]).
  - destruct (Z.ltb_spec p 10), (Z.ltb_spec q 10); lia.
Qed.

(** Dates within the range of [datetime] *)
Lemma civil_range days : -719162 <= days < 2932897 ->
  let '(y, m, d) := civil days in 1 <= y <= 9999 /\ 1 <= m <= 12 /\ 1 <= d <= 31.
Proof.
  intros Hr. destruct (civil_fields days) as (p & Hp & Hpd & ->). pose proof (march_year_spec days) as Hm.
  set (x := march_year days) in *. clearbody x.
  assert (0 <= x <= 9999). { unfold days_to in Hm. Z.div_mod_to_equations. lia. }
  assert (x = 0 -> 10 <= p) by (intros ->; change (days_to 0) with 0 in *; Z.div_mod_to_equations; lia).
  assert (x = 9999 -> p < 10). { intros ->. change (days_to 9999) with 3652059 in *. Z.div_mod_to_equations; lia. }
  destruct (Z.ltb_spec p 10); repeat split; Z.div_mod_to_equations; lia.
Qed.

(** The inverse of the calendar *)
Lemma march_year_days y m d : 1 <= m <= 12 -> days_of y m d =
  days_to (if m <=? 2 then y - 1 else y) + (153 * (if m <=? 2 then m + 9 else m - 3) + 2) / 5 + d - 1 - 719468.
Proof. intros. unfold days_of, days_to. cbv zeta. destruct (m <=? 2); lia. Qed.

Lemma days_of_civil days : let '(y, m, d) := civil days in days_of y m d = days.
Proof.
  destruct (civil_fields days) as (p & Hp & Hpd & ->). rewrite march_year_days by (destruct (Z.ltb_spec p 10); lia).
  destruct (Z.ltb_spec p 10).
  - rewrite (proj2 (Z.leb_gt (p + 3) 2)) by lia. replace (p + 3 - 3) with p by lia. replace (march_year days + 0) with (march_year days) by lia. lia.
  - rewrite (proj2 (Z.leb_le (p - 9) 2)) by lia. replace (p - 9 + 9) with p by lia. replace (march_year days + 1 - 1) with (march_year days) by lia. lia.
Qed.

Lemma div_succ x k : 0 < k -> (x + 1) / k = x / k + (if (x + 1) mod k =? 0 then 1 else 0).
Proof. intros. destruct (Z.eqb_spec ((x + 1) mod k) 0); Z.div_mod_to_equations; nia. Qed.

Lemma days_to_succ x : days_to (x + 1) = days_to x + 365 + (if leap_year (x + 1) then 1 else 0).
Proof.
  unfold days_to. rewrite (div_succ x 4), (div_succ x 100), (div_succ x 400) by lia. unfold leap_year.
  assert ((x + 1) mod 400 = 0 -> (x + 1) mod 100 = 0) by (intros; Z.div_mod_to_equations; lia).
  assert ((x + 1) mod 100 = 0 -> (x + 1) mod 4 = 0) by (intros; Z.div_mod_to_equations; lia).
  destruct (Z.eqb_spec ((x + 1) mod 4) 0), (Z.eqb_spec ((x + 1) mod 100) 0), (Z.eqb_spec ((x + 1) mod 400) 0); cbn; lia.
Qed.

(** A date of the calendar has a day that its month has. *)
Lemma civil_month_days days : let '(y, m, d) := civil days in d <= month_days y m.
Proof.
  pose proof (days_of_civil days) as Hinv. destruct (civil_fields days) as (p & Hp & Hpd & E). rewrite E in *.
  pose proof (march_year_spec days) as Hm. set (x := march_year days) in *. clearbody x. clear E Hinv.
  unfold month_days. destruct (Z.ltb_spec p 10).
  - assert (p = 0 \/ p = 1 \/ p = 2 \/ p = 3 \/ p = 4 \/ p = 5 \/ p = 6 \/ p = 7 \/ p = 8 \/ p = 9) as Hc by lia.
    assert (Hlen : (153 * (p + 1) + 2) / 5 - (153 * p + 2) / 5
              <= (if p + 3 =? 2 then if leap_year (x + 0) then 29 else 28
                  else if (p + 3 =? 4) || (p + 3 =? 6) || (p + 3 =? 9) || (p + 3 =? 11) then 30 else 31)).
    { destruct Hc as [->|[->|[->|[->|[->|[->|[->|[->|[->| ->]]]]]]]]]; vm_compute; discriminate. }
    lia.
  - assert (p = 10 \/ p = 11) as [-> | ->] by lia; [change ((153 * (10 + 1) + 2) / 5) with 337 in Hpd; change ((153 * 10 + 2) / 5) with 306 in *; change (10 - 9) with 1; cbn [Z.eqb Pos.eqb orb]; lia|].
    change (11 - 9 =? 2) with true. cbn iota. change (11 <? 10) with false in *. cbn iota. rewrite days_to_succ in Hm.
    change ((153 * 11 + 2) / 5) with 337 in *. destruct (leap_year (x + 1)); lia.
Qed.

(** ** Numbers of a fixed width *)

Fixpoint fixed (width : nat) (n : Z) : str :=
  match width with
  | O => []
  | S w => Z.to_N (48 + n / 10 ^ Z.of_nat w) :: fixed w (n mod 10 ^ Z.of_nat w)
  end.

Lemma fixed_length w n : length (fixed w n) = w.
Proof. revert n. induction w as [|w IH]; intros n; cbn; [done|]. by rewrite IH. Qed.

Lemma pow10_S w : 10 ^ Z.of_nat (S w) = 10 * 10 ^ Z.of_nat w.
Proof. rewrite Nat2Z.inj_succ, Z.pow_succ_r by lia. done. Qed.

Lemma pow10_pos w : 0 < 10 ^ Z.of_nat w.
Proof. apply Z.pow_pos_nonneg; lia. Qed.

Lemma fixed_head w n : 0 <= n < 10 ^ Z.of_nat (S w) -> 0 <= n / 10 ^ Z.of_nat w < 10.
Proof.
  rewrite pow10_S. intros Hn. pose proof (pow10_pos w). split; [apply Z.div_pos; lia|]. apply Z.div_lt_upper_bound; lia.
Qed.

(** The texts compare like the numbers. *)
Lemma fixed_ltb w m n x y : 0 <= m < 10 ^ Z.of_nat w -> 0 <= n < 10 ^ Z.of_nat w ->
  str_ltb (fixed w m ++ x) (fixed w n ++ y) = (m <? n) || ((m =? n) && str_ltb x y).
Proof.
  revert m n. induction w as [|w IH]; intros m n Hm Hn.
  - change (10 ^ Z.of_nat 0) with 1 in *. assert (m = 0) as -> by lia. assert (n = 0) as -> by lia. done.
  - pose proof (fixed_head _ _ Hm) as Hhm. pose proof (fixed_head _ _ Hn) as Hhn. pose proof (pow10_pos w).
    cbn [fixed app str_ltb]. rewrite IH by (apply Z.mod_pos_bound; lia).
    pose proof (Z.div_mod m (10 ^ Z.of_nat w) ltac:(lia)) as Em. pose proof (Z.div_mod n (10 ^ Z.of_nat w) ltac:(lia)) as En.
    pose proof (Z.mod_pos_bound m (10 ^ Z.of_nat w) ltac:(lia)). pose proof (Z.mod_pos_bound n (10 ^ Z.of_nat w) ltac:(lia)).
    set (p := 10 ^ Z.of_nat w) in *. set (a := m / p) in *. set (b := n / p) in *. set (c := m mod p) in *. set (d := n mod p) in *.
    clearbody a b c d p.
    destruct (N.ltb_spec (Z.to_N (48 + a)) (Z.to_N (48 + b))) as [Hlt|Hge]; cbn [orb].
    { symmetry. apply orb_true_iff. left. apply Z.ltb_lt. nia. }
    destruct (N.eqb_spec (Z.to_N (48 + a)) (Z.to_N (48 + b))) as [He|He]; cbn [andb].
    + assert (a = b) as -> by lia. destruct (Z.ltb_spec c d), (Z.ltb_spec m n), (Z.eqb_spec c d), (Z.eqb_spec m n); cbn; try done; nia.
    + destruct (Z.ltb_spec m n), (Z.eqb_spec m n); try done; nia.
Qed.

Lemma fixed_inj w m n x y : 0 <= m < 10 ^ Z.of_nat w -> 0 <= n < 10 ^ Z.of_nat w -> fixed w m ++ x = fixed w n ++ y -> m = n /\ x = y.
Proof.
  intros Hm Hn E. pose proof (str_ltb_irrefl (fixed w m ++ x)) as H1. rewrite E in H1 at 2. rewrite fixed_ltb in H1 by done.
  pose proof (str_ltb_irrefl (fixed w n ++ y)) as H2. rewrite <-E in H2 at 2. rewrite fixed_ltb in H2 by done.
  apply orb_false_iff in H1 as [H1 _], H2 as [H2 _]. assert (m = n) as -> by lia. split; [done|]. by apply app_inv_head in E.
Qed.

Section Padded.
Context {U : Unicode}.

(** A printed number is its digits behind zeros. *)
Lemma dec_aux_width fuel n acc w : (n < 2 ^ N.of_nat fuel)%N -> Z.of_N n < 10 ^ Z.of_nat (S w) ->
  (length (dec_aux (S fuel) n acc) <= S w + length acc)%nat.
Proof.
  revert n acc w. induction fuel as [|fuel IH]; intros n acc w Hn Hw; cbn [dec_aux]; (destruct (N.ltb_spec n 10) as [H10|H10]; [cbn; lia|]).
  - change (2 ^ N.of_nat 0)%N with 1%N in Hn. lia.
  - destruct w as [|w]; [change (10 ^ Z.of_nat 1) with 10 in Hw; lia|]. etransitivity; [apply (IH _ _ w)|cbn; lia].
    + apply N.Div0.div_lt_upper_bound. rewrite Nat2N.inj_succ, N.pow_succ_r' in Hn. lia.
    + rewrite pow10_S in Hw. rewrite N2Z.inj_div. apply Z.div_lt_upper_bound; lia.
Qed.

Lemma digits_value_fixed w n a : 0 <= n < 10 ^ Z.of_nat w -> digits_value a (fixed w n) = Some (a * 10 ^ N.of_nat w + Z.to_N n)%N.
Proof.
  revert n a. induction w as [|w IH]; intros n a Hn.
  - change (10 ^ Z.of_nat 0) with 1 in Hn. assert (n = 0) as -> by lia. cbn. f_equal. lia.
  - pose proof (fixed_head _ _ Hn) as Hh. pose proof (pow10_pos w). cbn [fixed digits_value].
    replace (Z.to_N (48 + n / 10 ^ Z.of_nat w)) with (48 + Z.to_N (n / 10 ^ Z.of_nat w))%N by lia.
    rewrite decimal_digit by lia. cbn [mbind option_bind]. rewrite IH by (apply Z.mod_pos_bound; lia). f_equal.
    rewrite Nat2N.inj_succ, N.pow_succ_r'. pose proof (Z.div_mod n (10 ^ Z.of_nat w) ltac:(lia)) as E.
    pose proof (Z.mod_pos_bound n (10 ^ Z.of_nat w) ltac:(lia)).
    assert (Z.of_N (10 ^ N.of_nat w) = 10 ^ Z.of_nat w) as Hp by (rewrite N2Z.inj_pow, nat_N_Z; done).
    set (p := (10 ^ N.of_nat w)%N) in *. rewrite <-Hp in *. nia.
Qed.

Lemma digit_values_unique s t a : length s = length t ->
  Forall (fun c => exists d, (d < 10)%N /\ c = (48 + d)%N) s -> Forall (fun c => exists d, (d < 10)%N /\ c = (48 + d)%N) t ->
  digits_value a s = digits_value a t -> s = t.
Proof.
  revert s t a. assert (Hv : forall s a, Forall (fun c => exists d, (d < 10)%N /\ c = (48 + d)%N) s ->
    exists v, digits_value a s = Some v /\ (a * 10 ^ N.of_nat (length s) <= v < (a + 1) * 10 ^ N.of_nat (length s))%N).
  { induction s as [|c s IH]; intros a Hs; [exists a; cbn; split; [done|lia]|]. apply Forall_cons_1 in Hs as [(d & Hd & ->) Hs].
    destruct (IH (10 * a + d)%N Hs) as (v & Hv & Hb). exists v. cbn [digits_value length]. rewrite decimal_digit by done.
    cbn [mbind option_bind]. split; [done|]. rewrite Nat2N.inj_succ, N.pow_succ_r'. set (p := (10 ^ _)%N) in *. nia. }
  induction s as [|c s IH]; intros [|c' t] a; cbn [length]; try done. intros [= Hl] [(d & Hd & ->) Hs]%Forall_cons_1 [(d' & Hd' & ->) Ht]%Forall_cons_1.
  cbn [digits_value]. rewrite !decimal_digit by done. cbn [mbind option_bind]. intros E.
  destruct (Hv s (10 * a + d)%N Hs) as (v & Ev & Hb), (Hv t (10 * a + d')%N Ht) as (v' & Ev' & Hb'). rewrite <-Hl in Hb'.
  assert (v = v') as <- by congruence. set (p := (10 ^ N.of_nat (length s))%N) in *. assert (d = d') as <- by nia.
  f_equal. by eapply IH.
Qed.

Lemma fixed_digits w n : 0 <= n < 10 ^ Z.of_nat w -> Forall (fun c => exists d, (d < 10)%N /\ c = (48 + d)%N) (fixed w n).
Proof.
  revert n. induction w as [|w IH]; intros n Hn; cbn [fixed]; [done|]. pose proof (fixed_head _ _ Hn). pose proof (pow10_pos w).
  constructor; [exists (Z.to_N (n / 10 ^ Z.of_nat w)); lia|]. apply IH, Z.mod_pos_bound. lia.
Qed.

Lemma digits_value_zeros k s : digits_value 0 (replicate k 48%N ++ s) = digits_value 0 s.
Proof. induction k as [|k IH]; [done|]. cbn [replicate app digits_value]. by rewrite (decimal_digit 0). Qed.

Lemma padded_fixed w n : 0 <= n < 10 ^ Z.of_nat (S w) -> padded (S w) n = fixed (S w) n.
Proof.
  intros Hn. destruct (dec_spec (Z.to_N n)) as (_ & Hd & Hv).
  pose proof (dec_aux_width (N.size_nat (Z.to_N n)) (Z.to_N n) [] w (size_nat_bound _) ltac:(lia)) as Hl. fold (dec (Z.to_N n)) in Hl.
  cbn [length] in Hl. unfold padded. apply (digit_values_unique _ _ 0%N).
  - rewrite length_app, length_replicate, fixed_length. lia.
  - apply Forall_app. split; [|done]. apply Forall_replicate. by exists 0%N.
  - by apply fixed_digits.
  - rewrite digits_value_zeros, Hv, digits_value_fixed by done. f_equal.
Qed.
End Padded.

(** ** [isoformat] *)

Lemma str_ltb_cons c x y : str_ltb (c :: x) (c :: y) = str_ltb x y.
Proof. cbn. by rewrite N.ltb_irrefl, N.eqb_refl. Qed.

(** What is printed after the seconds *)
Definition micros_text (us : Z) : str := (if us =? 0 then [] else u "." ++ fixed 6 us) ++ u "+00:00".

Lemma micros_text_ltb m n : 0 <= m < 1000000 -> 0 <= n < 1000000 -> str_ltb (micros_text m) (micros_text n) = (m <? n).
Proof.
  intros Hm Hn. unfold micros_text. change (u ".") with [46%N]. change (u "+00:00") with [43; 48; 48; 58; 48; 48]%N.
  destruct (Z.eqb_spec m 0) as [->|], (Z.eqb_spec n 0) as [->|].
  - by rewrite str_ltb_irrefl.
  - cbn. symmetry. apply Z.ltb_lt. lia.
  - cbn. symmetry. apply Z.ltb_ge. lia.
  - cbn [app]. rewrite str_ltb_cons, (fixed_ltb 6), str_ltb_irrefl, andb_false_r, orb_false_r by (cbn; lia). done.
Qed.

(** The date and the time of an instant, each field below its width *)
Definition date_of (t : Z) : Z * Z * Z := civil (t / 86400000000).
Definition second_of_day (t : Z) : Z := t mod 86400000000 / 1000000.

Lemma instant_split t : t = t / 86400000000 * 86400000000 + second_of_day t * 1000000 + t mod 1000000.
Proof. unfold second_of_day. Z.div_mod_to_equations. lia. Qed.

Lemma second_of_day_range t : 0 <= second_of_day t < 86400.
Proof. unfold second_of_day. Z.div_mod_to_equations. lia. Qed.

Lemma date_of_range t : in_datetime_range t = true -> let '(y, m, d) := date_of t in 1 <= y <= 9999 /\ 1 <= m <= 12 /\ 1 <= d <= 31.
Proof. unfold in_datetime_range, date_of. intros. apply civil_range. Z.div_mod_to_equations. lia. Qed.

Section Isoformat.
Context {U : Unicode}.

Definition date_text (date : Z * Z * Z) (rest : str) : str :=
  let '(y, m, d) := date in fixed 4 y ++ 45%N :: fixed 2 m ++ 45%N :: fixed 2 d ++ rest.
Definition time_text (s : Z) (rest : str) : str :=
  fixed 2 (s / 3600) ++ 58%N :: fixed 2 (s / 60 mod 60) ++ 58%N :: fixed 2 (s mod 60) ++ rest.

Lemma isoformat_text t : in_datetime_range t = true ->
  isoformat t = date_text (date_of t) (84%N :: time_text (second_of_day t) (micros_text (t mod 1000000))).
Proof.
  intros Ht. pose proof (date_of_range t Ht) as Hd. pose proof (second_of_day_range t) as Hs. unfold isoformat, date_text, time_text, micros_text.
  unfold date_of, second_of_day in *. destruct (civil _) as [[y m] d]. cbv zeta.
  set (s := t mod 86400000000 / 1000000) in *. clearbody s. pose proof (Z.mod_pos_bound t 1000000 ltac:(lia)).
  rewrite (padded_fixed 3), !(padded_fixed 1), (padded_fixed 5); cbn [Z.of_nat Pos.of_succ_nat Pos.succ]; try (Z.div_mod_to_equations; lia).
  change (u "-") with [45%N]. change (u ":") with [58%N]. change (u "T") with [84%N]. cbn [app]. done.
Qed.

(** The texts of instants compare like the instants. *)
Lemma isoformat_ltb a b : in_datetime_range a = true -> in_datetime_range b = true -> str_ltb (isoformat a) (isoformat b) = (a <? b).
Proof.
  intros Ha Hb. assert (Hlt : forall a b, in_datetime_range a = true -> in_datetime_range b = true -> a < b -> str_ltb (isoformat a) (isoformat b) = true).
  2: { destruct (Z.ltb_spec a b) as [H|H]; [by apply Hlt|]. destruct (Z.eq_dec a b) as [->|]; [apply str_ltb_irrefl|]. apply str_ltb_asym, Hlt; [done|done|lia]. }
  clear a b Ha Hb. intros a b Ha Hb Hab. rewrite !isoformat_text by done.
  pose proof (instant_split a) as Ea. pose proof (instant_split b) as Eb.
  pose proof (second_of_day_range a) as Hsa. pose proof (second_of_day_range b) as Hsb.
  pose proof (Z.mod_pos_bound a 1000000 ltac:(lia)) as Hua. pose proof (Z.mod_pos_bound b 1000000 ltac:(lia)) as Hub.
  pose proof (date_of_range a Ha) as Hda. pose proof (date_of_range b Hb) as Hdb. unfold date_of in *.
  assert (Hday : a / 86400000000 <= b / 86400000000) by (apply Z.div_le_mono; lia).
  set (da := a / 86400000000) in *. set (db := b / 86400000000) in *. set (sa := second_of_day a) in *. set (sb := second_of_day b) in *.
  set (ua := a mod 1000000) in *. set (ub := b mod 1000000) in *. clearbody da db sa sb ua ub.
  destruct (Z.eq_dec da db) as [->|Hne].
  - destruct (civil db) as [[y m] d]. unfold date_text. rewrite (fixed_ltb 4) by lia. rewrite Z.ltb_irrefl, Z.eqb_refl. cbn [orb andb].
    rewrite str_ltb_cons, (fixed_ltb 2) by lia. rewrite Z.ltb_irrefl, Z.eqb_refl. cbn [orb andb].
    rewrite str_ltb_cons, (fixed_ltb 2) by lia. rewrite Z.ltb_irrefl, Z.eqb_refl. cbn [orb andb]. rewrite str_ltb_cons. unfold time_text.
    rewrite (fixed_ltb 2), str_ltb_cons, (fixed_ltb 2), str_ltb_cons, (fixed_ltb 2), micros_text_ltb
      by (cbn [Z.of_nat Pos.of_succ_nat Pos.succ]; Z.div_mod_to_equations; lia).
    assert (Hs : sa < sb \/ sa = sb /\ ua < ub) by lia. destruct Hs as [Hs|[-> Hu]].
    + assert (Hc : sa / 3600 < sb / 3600 \/ sa / 3600 = sb / 3600 /\ (sa / 60 mod 60 < sb / 60 mod 60
        \/ sa / 60 mod 60 = sb / 60 mod 60 /\ sa mod 60 < sb mod 60)) by (Z.div_mod_to_equations; lia).
      rewrite !orb_true_iff, !andb_true_iff, !orb_true_iff, !andb_true_iff, !orb_true_iff, !Z.ltb_lt, !Z.eqb_eq. tauto.
    + rewrite !Z.eqb_refl, !Z.ltb_irrefl. cbn. by apply Z.ltb_lt.
  - pose proof (civil_mono da db ltac:(lia)) as Hc. destruct (civil da) as [[y m] d], (civil db) as [[y' m'] d']. unfold date_text.
    rewrite (fixed_ltb 4), str_ltb_cons, (fixed_ltb 2), str_ltb_cons, (fixed_ltb 2) by (cbn [Z.of_nat Pos.of_succ_nat Pos.succ]; lia).
    rewrite !orb_true_iff, !andb_true_iff, !orb_true_iff, !andb_true_iff, !orb_true_iff, !Z.ltb_lt, !Z.eqb_eq. tauto.
Qed.

Lemma isoformat_inj a b : in_datetime_range a = true -> in_datetime_range b = true -> isoformat a = isoformat b -> a = b.
Proof.
  intros Ha Hb E. pose proof (isoformat_ltb a b Ha Hb) as H1. pose proof (isoformat_ltb b a Hb Ha) as H2.
  rewrite E, str_ltb_irrefl in H1. rewrite E, str_ltb_irrefl in H2. lia.
Qed.
End Isoformat.

(** ** Reading what was printed *)

Lemma digits_then_fixed w n a s : 0 <= n < 10 ^ Z.of_nat w -> digits_then w a (fixed w n ++ s) = Some (a * 10 ^ Z.of_nat w + n, s).
Proof.
  revert n a. induction w as [|w IH]; intros n a Hn.
  - change (10 ^ Z.of_nat 0) with 1 in Hn |- *. cbn. do 2 f_equal. lia.
  - pose proof (fixed_head _ _ Hn) as Hh. pose proof (pow10_pos w). cbn [fixed app digits_then].
    replace (PyText.between 48 (Z.to_N (48 + n / 10 ^ Z.of_nat w)) 57) with true.
    2: { symmetry. unfold PyText.between. apply andb_true_iff. rewrite !N.leb_le. lia. }
    rewrite IH by (apply Z.mod_pos_bound; lia). do 2 f_equal. rewrite pow10_S.
    pose proof (Z.div_mod n (10 ^ Z.of_nat w) ltac:(lia)). rewrite Z2N.id by lia. set (p := 10 ^ Z.of_nat w) in *. nia.
Qed.

Lemma between_digit d : (d < 10)%N -> PyText.between 48 (48 + d) 57 = true.
Proof. intros. unfold PyText.between. apply andb_true_iff. rewrite !N.leb_le. lia. Qed.

Lemma fixed_digit_chars w n : 0 <= n < 10 ^ Z.of_nat w -> Forall (fun c => PyText.between 48 c 57 = true) (fixed w n).
Proof. intros Hn. eapply List.Forall_impl; [|by apply fixed_digits]. intros c (d & Hd & ->). by apply between_digit. Qed.

Lemma take_drop_while_app p (s t : str) : Forall (fun c => p c = true) s -> take_while p (s ++ t) = s ++ take_while p t /\ drop_while p (s ++ t) = drop_while p t.
Proof. intros Hs. induction Hs as [|c s Hc Hs [IH1 IH2]]; [done|]. cbn. rewrite Hc, IH1, IH2. done. Qed.

Lemma fraction_micros n : 0 <= n < 1000000 -> fraction_then (micros_text n) = Some (n, u "+00:00").
Proof.
  intros Hn. unfold micros_text. destruct (Z.eqb_spec n 0) as [->|]; [done|]. change (u ".") with [46%N]. cbn [app fraction_then].
  destruct (take_drop_while_app (fun c => PyText.between 48 c 57) (fixed 6 n) (u "+00:00")) as [E1 E2]; [by apply fixed_digit_chars|].
  rewrite E1, E2. change (take_while _ (u "+00:00")) with (@nil N). change (drop_while _ (u "+00:00")) with (u "+00:00").
  rewrite app_nil_r, bool_decide_false by (intros E; apply (f_equal length) in E; by rewrite fixed_length in E).
  rewrite fixed_length. change (6 - 6)%nat with 0%nat. cbn [replicate]. rewrite take_ge by (by rewrite fixed_length).
  rewrite digits_then_fixed by (cbn; lia). by rewrite Z.mul_0_l, Z.add_0_l.
Qed.

(** Every instant a [datetime] can be is read back from its text. *)
Lemma rfc3339_isoformat {U : Unicode} t : in_datetime_range t = true -> rfc3339 (isoformat t) = Some (Ok t).
Proof.
  intros Ht. rewrite isoformat_text by done. pose proof (date_of_range t Ht) as Hd. pose proof (second_of_day_range t) as Hs.
  pose proof (days_of_civil (t / 86400000000)) as Hinv. pose proof (civil_month_days (t / 86400000000)) as Hmd. fold (date_of t) in *.
  pose proof (instant_split t) as Et. pose proof (Z.mod_pos_bound t 1000000 ltac:(lia)) as Hus.
  set (sod := second_of_day t) in *. set (us := t mod 1000000) in *. destruct (date_of t) as [[y m] d]. clearbody sod us.
  assert (Hsod : sod / 3600 * 3600 + sod / 60 mod 60 * 60 + sod mod 60 = sod) by (Z.div_mod_to_equations; lia).
  assert (Hh : 0 <= sod / 3600 < 24) by (Z.div_mod_to_equations; lia).
  assert (Hmi : 0 <= sod / 60 mod 60 < 60) by (apply Z.mod_pos_bound; lia).
  assert (Hsec : 0 <= sod mod 60 < 60) by (apply Z.mod_pos_bound; lia).
  set (h := sod / 3600) in *. set (mi := sod / 60 mod 60) in *. set (sec := sod mod 60) in *.
  unfold rfc3339, date_text, time_text. fold h mi sec. clearbody h mi sec.
  rewrite (digits_then_fixed 4) by (cbn; lia). cbn [mbind option_bind char_then N.eqb Pos.eqb].
  rewrite (digits_then_fixed 2) by (cbn; lia). cbn [mbind option_bind char_then N.eqb Pos.eqb].
  rewrite (digits_then_fixed 2) by (cbn; lia). cbn [mbind option_bind char_then N.eqb Pos.eqb].
  rewrite (digits_then_fixed 2) by (cbn; lia). cbn [mbind option_bind char_then N.eqb Pos.eqb].
  rewrite (digits_then_fixed 2) by (cbn; lia). cbn [mbind option_bind char_then N.eqb Pos.eqb].
  rewrite (digits_then_fixed 2) by (cbn; lia). cbn [mbind option_bind].
  rewrite fraction_micros by done. cbn [mbind option_bind]. change (zone_then (u "+00:00")) with (Some 0). cbn [mbind option_bind].
  rewrite !Z.mul_0_l, !Z.add_0_l. rewrite (proj2 (Z.eqb_neq h 24)) by lia.
  replace ((1 <=? y) && _ && _ && _ && _ && _ && _ && _) with true by (symmetry; rewrite !andb_true_iff, !Z.leb_le; lia).
  replace (days_of y m d * 86400000000 + (h * 3600 + mi * 60 + sec) * 1000000 + us - 0) with t; [by rewrite Ht|]. rewrite Hinv, Hsod. lia.
Qed.

Lemma fromisoformat_isoformat {U : Unicode} `{IsoForms} t : in_datetime_range t = true -> fromisoformat (isoformat t) = Ok t.
Proof. intros Ht. unfold fromisoformat. by rewrite rfc3339_isoformat. Qed.
