(* ===== verification/Envelopes.v ===== *)
(** * Envelopes ([analyzer/schemas/envelope.py], [mde.py], [mdvm.py])

    What the analyzer receives and what detection stores.  Trace and guard batches
    are those of correlation; the fields no modelled code reads are left out of
    reports and batches, but the Defender batches are whole, since a repeated batch
    is compared with the stored one. *)

From stdpp Require Import base strings numbers list.
From Stdlib Require Import ZArith Lia.
From S2P Require Import Prelude PyText PyFloat Severity Osv Detect Coverage Kali Correlate Guard.

#[local] Open Scope Z_scope.

(** [AssetReport], with the fields ingest reads. *)
Record asset_report := mkAssetReport {
  rp_report_id : str;
  rp_source_agent_id : option str;
  rp_collected_at : Z;
  rp_host_id : str;
  rp_host_os : str;
  rp_ip_addrs : list str;
  rp_assets : list inventory;
  rp_vulnerabilities : list vulnerability;
  rp_detector_runs : option (list detector_run);
}.

(** A trace or guard batch with its [source_agent_id]. *)
Record sourced (B : Type) := mkSourced { so_source_agent_id : option str; so_body : B }.
Arguments mkSourced {B}.
Arguments so_source_agent_id {B}.
Arguments so_body {B}.

(** [DetectionResult] *)
Record DetectionResult := mkResult {
  re_report_id : str;
  re_host_id : str;
  re_collected_at : Z;
  re_ecosystem : str;
  re_vulnerabilities : list vulnerability;
  re_detection_status : DetectionStatus;
  re_status_reason : option str;
  re_scanned_package_count : Z;
  re_unresolved_package_count : Z;
  re_uncovered_package_count : Z;
  re_truncated : bool;
  re_truncation_reason : option str;
  re_coverage : list coverage_row;
}.

(** ** Microsoft Defender *)

(** [MdeEvidence] *)
Record MdeEvidence := mkEvidence {
  me_evidence_type : str;
  me_created_at : option Z;
  me_verdict : option str;
  me_remediation_status : option str;
  me_roles : list str;
  me_summary : option str;
  me_mde_device_id : option str;
  me_azure_ad_device_id : option str;
  me_device_dns_name : option str;
  me_hostname : option str;
  me_os_platform : option str;
  me_os_build : option str;
  me_ip_addresses : list str;
  me_canonical_host_id : option str;
}.

(** [MdeAlert] *)
Record MdeAlert := mkMdeAlert {
  ma_alert_id : str;
  ma_provider_alert_id : option str;
  ma_incident_id : option str;
  ma_title : str;
  ma_description : str;
  ma_severity : Severity;
  ma_provider_status : str;
  ma_classification : option str;
  ma_determination : option str;
  ma_service_source : option str;
  ma_product_name : option str;
  ma_detection_source : option str;
  ma_created_at : Z;
  ma_first_activity_at : option Z;
  ma_last_activity_at : option Z;
  ma_last_updated_at : Z;
  ma_resolved_at : option Z;
  ma_portal_url : option str;
  ma_mitre_techniques : list str;
  ma_related_asset_ids : list str;
  ma_evidence : list MdeEvidence;
  ma_evidence_truncated : bool;
}.

(** [MdeIncident] *)
Record MdeIncident := mkMdeIncident {
  mi_incident_id : str;
  mi_display_name : str;
  mi_description : str;
  mi_severity : Severity;
  mi_provider_status : str;
  mi_classification : option str;
  mi_determination : option str;
  mi_created_at : Z;
  mi_last_updated_at : Z;
  mi_resolved_at : option Z;
  mi_portal_url : option str;
  mi_alert_ids : list str;
  mi_related_asset_ids : list str;
  mi_relationships_truncated : bool;
}.

(** [MdeSecurityBatch] *)
Record MdeSecurityBatch := mkMdeBatch {
  mb_batch_id : str;
  mb_collected_at : Z;
  mb_tenant_id : str;
  mb_query_started_at : Z;
  mb_alerts : list MdeAlert;
  mb_incidents : list MdeIncident;
}.

(** [MdvmSoftwareVulnerability] *)
Record MdvmSoftwareVulnerability := mkMdvmVulnerability {
  mv_record_id : str;
  mv_cve_id : str;
  mv_software_vendor : str;
  mv_software_name : str;
  mv_software_version : str;
  mv_severity : Severity;
  mv_cvss_score : option float;
  mv_exploitability_level : option str;
  mv_recommended_security_update : option str;
  mv_recommended_security_update_id : option str;
  mv_recommended_security_update_url : option str;
  mv_recommendation_reference : option str;
  mv_security_update_available : option bool;
  mv_first_seen_at : option Z;
  mv_last_seen_at : option Z;
  mv_last_event_at : option Z;
  mv_rbac_group_id : option str;
  mv_rbac_group_name : option str;
  mv_disk_paths : list str;
  mv_registry_paths : list str;
  mv_evidence_truncated : bool;
}.

(** [MdvmDeviceSnapshot] *)
Record MdvmDeviceSnapshot := mkSnapshot {
  ms_report_id : str;
  ms_device_id : str;
  ms_host_id : str;
  ms_device_name : str;
  ms_os_platform : str;
  ms_os_version : option str;
  ms_os_architecture : option str;
  ms_observed_at : Z;
  ms_part_index : Z;
  ms_part_total : Z;
  ms_vulnerabilities : list MdvmSoftwareVulnerability;
}.

Inductive mdvm_mode := BASELINE | DELTA.

(** [MdvmVulnerabilityBatch] *)
Record MdvmVulnerabilityBatch := mkMdvmBatch {
  vb_batch_id : str;
  vb_collected_at : Z;
  vb_tenant_id : str;
  vb_mode : mdvm_mode;
  vb_snapshots : list MdvmDeviceSnapshot;
}.

(** Equality of dumps is equality of the models. *)
#[global] Instance mde_evidence_dec : EqDecision MdeEvidence.
Proof. solve_decision. Defined.
#[global] Instance mde_alert_dec : EqDecision MdeAlert.
Proof. solve_decision. Defined.
#[global] Instance mde_incident_dec : EqDecision MdeIncident.
Proof. solve_decision. Defined.
#[global] Instance mde_batch_dec : EqDecision MdeSecurityBatch.
Proof. solve_decision. Defined.
#[global] Instance mdvm_vulnerability_dec : EqDecision MdvmSoftwareVulnerability.
Proof. solve_decision. Defined.
#[global] Instance mdvm_snapshot_dec : EqDecision MdvmDeviceSnapshot.
Proof. solve_decision. Defined.
#[global] Instance mdvm_mode_dec : EqDecision mdvm_mode.
Proof. solve_decision. Defined.
#[global] Instance mdvm_batch_dec : EqDecision MdvmVulnerabilityBatch.
Proof. solve_decision. Defined.
