(* ===== verification/Derived.v ===== *)
(** * From an envelope to derived records ([api/ingest.py])

    Detection and correlation over the stores of the analyzer.  The code is written
    in a small monad: a call changes the analyzer's state and returns a value or
    raises; what it wrote before raising stays.  [an_disk] says what the writes to
    come do: the exception of each, if any.

    The settings are the state of the application that ingest reads: the advisory
    index (its records, its synchronised ecosystems, what reading it raises), the
    Debian tracker, the limits of the stores.  The sizes of JSON dumps and the name
    of an exception's class are parameters.  Rows read back from a store are those a
    model wrote, so validating them returns them. *)

From stdpp Require Import base gmap sets strings numbers list.
From Stdlib Require Import ZArith Lia.
From S2P Require Import Prelude PyText PyFloat Tables Lineage RecordStore Compare Versioning Severity Osv Detect Coverage KaliTracker Kali Correlate Guard Lifecycle Envelopes.

#[local] Open Scope Z_scope.

(** An [Alert] as correlation constructs it. *)
Definition new_alert (a : alert) : stored_alert := mkStored a OPEN None None false 1 None None.

(** [agent_id or "legacy"] *)
Definition source_or_legacy (agent : option str) : str := or_else agent (u "legacy").

(** ** The analyzer *)

(** The record stores that ingest writes, and the fate of the writes to come. *)
Record analyzer := mkAnalyzer {
  an_reports : RecordStore.store asset_report;
  an_traces : RecordStore.store (sourced trace_batch);
  an_guards : RecordStore.store (sourced guard_batch);
  an_results : RecordStore.store DetectionResult;
  an_alerts : RecordStore.store stored_alert;
  an_mde : RecordStore.store MdeSecurityBatch;
  an_mdvm : RecordStore.store MdvmVulnerabilityBatch;
  an_disk : list (option exn);
}.

#[global] Instance eta_analyzer : Eta analyzer := fun s =>
  mkAnalyzer (an_reports s) (an_traces s) (an_guards s) (an_results s) (an_alerts s)
    (an_mde s) (an_mdvm s) (an_disk s).

(** The application state ingest reads. *)
Record settings := mkSettings {
  se_limits : RecordStore.limits;
  se_osv_ecosystem : option str;
  se_osv_synced : option (list str);
  se_osv_record_count : Z;
  se_osv_lookup : str -> str -> list osv_record;
  se_osv_error : option (exn * limit_state);
  se_tracker : DebianTrackerStore;
  se_now : Z;
}.

(** The lengths of [model_dump_json] in UTF-8. *)
Class Dumps := {
  report_bytes : asset_report -> Z;
  trace_bytes : sourced trace_batch -> Z;
  guard_bytes : sourced guard_batch -> Z;
  result_bytes : DetectionResult -> Z;
  alert_bytes : stored_alert -> Z;
  mde_bytes : MdeSecurityBatch -> Z;
  mdvm_bytes : MdvmVulnerabilityBatch -> Z;
  finding_size : vulnerability -> Z;
}.

(** ** The monad *)

Definition io (A : Type) : Type := analyzer -> res A * analyzer.
Definition io_ret {A} (a : A) : io A := fun s => (Ok a, s).
Definition io_bind {A B} (m : io A) (k : A -> io B) : io B := fun s =>
  match m s with
  | (Ok a, s) => k a s
  | (Raise e, s) => (Raise e, s)
  end.
(** [try: m except Exception as exc: h(exc)] *)
Definition io_try {A} (m : io A) (h : exn -> io A) : io A := fun s =>
  match m s with
  | (Ok a, s) => (Ok a, s)
  | (Raise e, s) => h e s
  end.
Definition io_lift {A} (r : res A) : io A := fun s => (r, s).
Definition io_get {A} (f : analyzer -> A) : io A := fun s => (Ok (f s), s).

Notation "x <- m ;; k" := (io_bind m (fun x => k)) (at level 60, m at next level, right associativity).

(** ** Stores *)

(** A store of the analyzer: where it is, the sizes of its records and the text of
    a field, of which the code looks up the identifier only. *)
Record record_table (R : Type) := mkTable {
  ta_get : analyzer -> RecordStore.store R;
  ta_put : RecordStore.store R -> analyzer -> analyzer;
  ta_size : R -> Z;
  ta_field : str -> R -> option str;
}.
Arguments mkTable {R}.
Arguments ta_get {R}.
Arguments ta_put {R}.
Arguments ta_size {R}.
Arguments ta_field {R}.

Definition field_named {R} (name : str) (f : R -> str) (field : str) (r : R) : option str :=
  if bool_decide (field = name) then Some (f r) else None.

(** [find_one] *)
Definition find_in {R} (t : record_table R) (field value : str) : io (option R) :=
  io_get (fun s => RecordStore.find_one (ta_field t) (ta_get t s) field value).

(** [tail(CROSS_SOURCE_WINDOW)] *)
Definition CROSS_SOURCE_WINDOW : Z := 500.

Section Stores.
Context {D : Dumps} (cfg : settings).

Definition report_table : record_table asset_report :=
  mkTable an_reports (fun t s => s <| an_reports := t |>) report_bytes (field_named (u "report_id") rp_report_id).
Definition trace_table : record_table (sourced trace_batch) :=
  mkTable an_traces (fun t s => s <| an_traces := t |>) trace_bytes
    (field_named (u "batch_id") (fun b => tb_batch_id (so_body b))).
Definition guard_table : record_table (sourced guard_batch) :=
  mkTable an_guards (fun t s => s <| an_guards := t |>) guard_bytes
    (field_named (u "batch_id") (fun b => bt_batch_id (so_body b))).
Definition result_table : record_table DetectionResult :=
  mkTable an_results (fun t s => s <| an_results := t |>) result_bytes (field_named (u "report_id") re_report_id).
Definition alert_table : record_table stored_alert :=
  mkTable an_alerts (fun t s => s <| an_alerts := t |>) alert_bytes
    (field_named (u "alert_id") (fun a => al_alert_id (sa_alert a))).

Definition mde_table : record_table MdeSecurityBatch :=
  mkTable an_mde (fun t s => s <| an_mde := t |>) mde_bytes (field_named (u "batch_id") mb_batch_id).
Definition mdvm_table : record_table MdvmVulnerabilityBatch :=
  mkTable an_mdvm (fun t s => s <| an_mdvm := t |>) mdvm_bytes (field_named (u "batch_id") vb_batch_id).

(** [append], with the next fate of a write *)
Definition append_to {R} (t : record_table R) (r : R) : io unit := fun s =>
  let '(fate, disk) := match an_disk s with [] => (None, []) | d :: rest => (d, rest) end in
  let s := s <| an_disk := disk |> in
  match RecordStore.append (ta_size t) (se_limits cfg) fate r (ta_get t s) with
  | Ok st => (Ok tt, ta_put t st s)
  | Raise e => (Raise e, s)
  end.

Definition recent {R} (t : record_table R) : io (list R) :=
  io_get (fun s => RecordStore.tail (se_limits cfg) (ta_get t s) CROSS_SOURCE_WINDOW 0).

(** ** [_DerivedBudget] *)

Definition MAX_DERIVED_RECORDS_PER_INGEST : Z := 256.
Definition MAX_DERIVED_BYTES_PER_INGEST : Z := 4 * 1024 * 1024.
Definition MAX_DERIVED_VULNERABILITIES : Z := 4096.

Record budget := mkBudget {
  bu_records : Z;
  bu_bytes : Z;
  bu_truncated : bool;
  bu_reason : option str;
}.

Definition empty_budget : budget := mkBudget 0 0 false None.

(** [append]; [alert_id] is [getattr(record, "alert_id", None)]. *)
Definition budget_append {R} (t : record_table R) (alert_id : option str) (b : budget) (r : R) : io (bool * budget) :=
  known <- match alert_id with Some id => find_in t (u "alert_id") id | None => io_ret None end ;;
  match known with
  | Some _ => io_ret (true, b)
  | None =>
      let encoded_bytes := ta_size t r in
      let full := MAX_DERIVED_RECORDS_PER_INGEST <=? bu_records b in
      if full || (MAX_DERIVED_BYTES_PER_INGEST <? bu_bytes b + encoded_bytes) then
        io_ret (false, mkBudget (bu_records b) (bu_bytes b) true (Some (if full then u "max_records" else u "max_bytes")))
      else
        _ <- append_to t r ;;
        io_ret (true, mkBudget (bu_records b + 1) (bu_bytes b + encoded_bytes) (bu_truncated b) (bu_reason b))
  end.

Definition append_alert (b : budget) (a : stored_alert) : io (bool * budget) :=
  budget_append alert_table (Some (al_alert_id (sa_alert a))) b a.

(** [for alert in alerts: if not budget.append(...): break], with the alerts that were kept *)
Fixpoint append_alerts (b : budget) (alerts : list stored_alert) : io (list stored_alert * budget) :=
  match alerts with
  | [] => io_ret ([], b)
  | a :: alerts =>
      r <- append_alert b a ;;
      if negb r.1 then io_ret ([], r.2)
      else
        rest <- append_alerts r.2 alerts ;;
        io_ret (a :: rest.1, rest.2)
  end.

(** ** Outcomes *)

Inductive DerivedRunStatus := R_COMPLETE | R_PARTIAL | R_FAILED.

(** [_DerivedOutcome] *)
Record outcome := mkOutcome {
  oc_status : DerivedRunStatus;
  oc_records : Z;
  oc_truncated : bool;
  oc_reason : option str;
}.

(** [_failed_outcome]; [class_name] is [type(exc).__name__]. *)
Definition failed_outcome (class_name : exn -> str) (e : exn) : outcome := mkOutcome R_FAILED 0 false (Some (class_name e)).

(** [_budget_outcome] *)
Definition budget_outcome (b : budget) (reasons : list str) : outcome :=
  let reason := match reasons with r :: _ => Some r | [] => bu_reason b end in
  mkOutcome (if truthy reason || bu_truncated b then R_PARTIAL else R_COMPLETE) (bu_records b) (bu_truncated b) reason.

(** The budget after correlation has said what it left out. *)
Definition note_limit (l : corr_limit) (b : budget) : budget :=
  if cl_truncated l then
    mkBudget (bu_records b) (bu_bytes b) true (if truthy (bu_reason b) then bu_reason b else cl_reason l)
  else b.
End Stores.

(** ** Detection *)
Section Detection.
Context {U : Unicode} `{Packaging} {D : Dumps} (class_name : exn -> str) (cfg : settings).

(** Constructing a [DetectionResult] *)
Definition validate_result (r : DetectionResult) : res DetectionResult :=
  let r := mkResult (trim (re_report_id r)) (trim (re_host_id r)) (re_collected_at r) (trim (re_ecosystem r))
             (re_vulnerabilities r) (re_detection_status r) (trim <$> re_status_reason r) (re_scanned_package_count r)
             (re_unresolved_package_count r) (re_uncovered_package_count r) (re_truncated r)
             (trim <$> re_truncation_reason r) (re_coverage r) in
  let text (s : option str) := match s with Some s => short max_wire_string s | None => true end in
  if short max_correlation_identifier (re_report_id r) && short max_correlation_identifier (re_host_id r)
     && short max_correlation_identifier (re_ecosystem r)
     && (Z.of_nat (length (re_vulnerabilities r)) <=? 4096)
     && text (re_status_reason r) && text (re_truncation_reason r)
     && (0 <=? re_scanned_package_count r) && (0 <=? re_unresolved_package_count r) && (0 <=? re_uncovered_package_count r)
     && (length (re_coverage r) <=? max_nested_items)%nat
  then Ok r else Raise ValueError.

(** What the part about OSV leaves in the variables. *)
Record osv_pass := mkPass {
  op_vulns : list vulnerability;
  op_limit : limit_state;
  op_status : DetectionStatus;
  op_reason : option str;
  op_scanned : Z;
}.

(** The matching itself, in its [try] *)
Definition osv_match (coverage : package_coverage_t) (ecosystem : option str) (status : DetectionStatus) (reason : option str)
    : osv_pass :=
  match se_osv_error cfg with
  | Some (_, limit) => mkPass [] limit S_FAILED (Some (u "osv_detection_failed")) 0
  | None =>
      let '(vulns, limit) :=
        detect_report finding_size (se_osv_lookup cfg) max_findings_default max_finding_bytes_default ecosystem
          (APackage <$> pc_detection_packages coverage) fresh_limit in
      let '(status, reason) :=
        if negb (pc_unsupported coverage =? 0) then (S_PARTIAL, Some (u "some_osv_ecosystems_unsupported"))
        else if negb (pc_uncovered coverage =? 0) then (S_PARTIAL, Some (u "some_osv_ecosystems_not_synced"))
        else if negb (pc_unresolved coverage =? 0) then (S_PARTIAL, Some (u "some_package_ecosystems_unresolved"))
        else (status, reason) in
      mkPass vulns limit status reason (pc_covered coverage)
  end.

(** The branches before it *)
Definition osv_part (coverage : package_coverage_t) (candidate_count : Z) (ecosystem : option str) : osv_pass :=
  let skip status reason := mkPass [] fresh_limit status reason 0 in
  if se_osv_record_count cfg <=? 0 then skip S_DISABLED (Some (u "osv_store_empty"))
  else
    let '(status, reason) :=
      if (pc_total coverage =? 0) && (candidate_count =? 0) then (S_PARTIAL, Some (u "no_package_inventory"))
      else match se_osv_synced cfg with
           | None => (S_PARTIAL, Some (u "osv_sync_incomplete"))
           | Some _ => (S_COMPLETE, None)
           end in
    if negb (pc_total coverage =? 0) && (pc_resolved coverage =? 0) then skip S_PARTIAL (Some (u "ecosystem_unresolved"))
    else if (pc_unsupported coverage =? pc_resolved coverage) && (0 <? pc_unsupported coverage)
    then skip S_PARTIAL (Some (u "osv_ecosystem_unsupported"))
    else if (pc_uncovered coverage =? pc_resolved coverage) && (0 <? pc_uncovered coverage)
    then skip S_PARTIAL (Some (if negb (pc_unsupported coverage =? 0) then u "some_osv_ecosystems_unsupported"
                               else u "osv_ecosystem_not_synced"))
    else osv_match coverage ecosystem status reason.

(** [next((x for x in xs if x), None)] *)
Fixpoint first_truthy (xs : list (option str)) : option str :=
  match xs with
  | [] => None
  | x :: xs => if truthy x then x else first_truthy xs
  end.

(** [row.status.value in {"complete", "disabled"}] *)
Definition settled (row : coverage_row) : bool :=
  match row_status row with C_COMPLETE | C_DISABLED => true | _ => false end.

(** [a or b] of two optional strings *)
Definition or_option (a b : option str) : option str := if truthy a then a else b.

(** [_auto_detect] up to the result it stores, with the reason of its outcome *)
Definition detection_pass (report : asset_report) : res (DetectionResult * option str) :=
  let '(malware, scanner_limit) :=
    scanner_findings finding_size max_findings_default max_finding_bytes_default (rp_vulnerabilities report) fresh_limit in
  let ecosystem := default [] (resolve_ecosystem (rp_host_os report) (se_osv_ecosystem cfg)) in
  let default_ecosystem := nonempty ecosystem in
  '(tracker, tracker_limit) ← detect_kali_packages finding_size max_findings_default max_finding_bytes_default
      (se_tracker cfg) (rp_host_os report) (rp_assets report) fresh_limit;
  let coverage := package_coverage default_ecosystem (se_osv_synced cfg) (to_asset <$> kd_osv_assets tracker) in
  let osv := osv_part coverage (kd_candidate_count tracker) default_ecosystem in
  let scanned := op_scanned osv + kd_verified_count tracker in
  let '(status, reason) :=
    merge_kali_tracker_status (se_now cfg) tracker (se_tracker cfg) tracker_limit (pc_total coverage) (op_status osv) (op_reason osv) in
  let '(vulnerabilities, combine_limit) :=
    combine_findings finding_size MAX_DERIVED_VULNERABILITIES max_finding_bytes_default (op_vulns osv ++ kd_findings tracker) malware fresh_limit in
  let limits := [op_limit osv; tracker_limit; scanner_limit; combine_limit] in
  let '(status, reason) :=
    match first_truthy (ls_incomplete_reason <$> limits), status with
    | None, _ | _, S_DISABLED | _, S_FAILED => (status, reason)
    | Some r, _ => (S_PARTIAL, Some r)
    end in
  let truncated := existsb ls_truncated limits in
  let truncation_reason := first_truthy (ls_reason <$> limits) in
  let matrix := coverage_matrix (0 <? se_osv_record_count cfg) (match se_osv_synced cfg with Some _ => true | None => false end) status reason
    (or_option (ls_incomplete_reason (op_limit osv)) (ls_reason (op_limit osv)))
    (or_option (ls_incomplete_reason scanner_limit) (ls_reason scanner_limit))
    (to_asset <$> rp_assets report) (pc_ecosystems coverage) (op_vulns osv) malware default_ecosystem
    (rp_detector_runs report) (kali_tracker_coverage (se_now cfg) tracker (se_tracker cfg) tracker_limit) in
  let matrix_reason := first_truthy ((fun row => if settled row then None else row_reason row) <$> matrix) in
  result ← validate_result
    (mkResult (rp_report_id report) (rp_host_id report) (rp_collected_at report) ecosystem vulnerabilities status reason
       scanned (pc_unresolved coverage + kd_unverified_count tracker) (pc_uncovered coverage) truncated truncation_reason matrix);
  Ok (result, or_option (or_option reason truncation_reason) matrix_reason).

(** The status of the outcome of a result *)
Definition result_status (r : DetectionResult) : DerivedRunStatus :=
  match re_detection_status r with
  | S_FAILED => R_FAILED
  | S_COMPLETE => if negb (re_truncated r) && forallb settled (re_coverage r) then R_COMPLETE else R_PARTIAL
  | _ => R_PARTIAL
  end.

(** [_auto_detect]; [DetectionResult exceeded derived ... budget] is a [RuntimeError]. *)
Definition auto_detect (report : asset_report) : io outcome :=
  r <- io_lift (detection_pass report) ;;
  let '(result, reason) := (r : DetectionResult * option str) in
  persisted <- budget_append cfg result_table None empty_budget result ;;
  if negb persisted.1 then io_lift (Raise RuntimeError)
  else io_ret (mkOutcome (result_status result) 1 (re_truncated result) reason).

(** The outcome that an earlier result stands for. *)
Definition replayed (r : DetectionResult) : outcome :=
  mkOutcome (match re_detection_status r with S_COMPLETE => if re_truncated r then R_PARTIAL else R_COMPLETE | _ => R_PARTIAL end)
    1 (re_truncated r) (or_option (re_status_reason r) (re_truncation_reason r)).

(** [store_asset_report] *)
Definition detect_or_fail (report : asset_report) : io outcome :=
  io_try (auto_detect report) (fun e => io_ret (failed_outcome class_name e)).

Definition store_asset_report (report : asset_report) (persist_raw : bool) : io outcome :=
  if persist_raw then _ <- append_to cfg report_table report ;; detect_or_fail report
  else
    existing <- find_in result_table (u "report_id") (rp_report_id report) ;;
    match existing with
    | Some r => match re_detection_status r with
                | S_FAILED => detect_or_fail report
                | _ => io_ret (replayed r)
                end
    | None => detect_or_fail report
    end.
End Detection.

(** ** Correlation *)
Section Correlation.
Context {U : Unicode} {D : Dumps} (class_name : exn -> str) (cfg : settings).

(** What correlation reads of a stored result. *)
Definition for_correlation (r : DetectionResult) : detection_result := mkDetectionResult (re_host_id r) (re_vulnerabilities r).

(** [correlation_limit] after it ran, for alerts that were or will be appended *)
Definition append_new (b : budget) (alerts : list alert) : io (list stored_alert * budget) := append_alerts cfg b (new_alert <$> alerts).

(** [_correlate]; building the index and reading the stores does not raise here,
    since their rows are typed. *)
Definition correlate (batch : trace_batch) : io outcome :=
  reports <- recent cfg report_table ;;
  let ip_index := ip_host_index ((fun r => (rp_host_id r, rp_ip_addrs r)) <$> reports) in
  match correlate_trace_batch batch (Some ip_index) fresh_corr with
  | Raise _ => io_ret (mkOutcome R_FAILED 0 false (Some (u "ioc_correlation_failed")))
  | Ok (ioc_alerts, limit) =>
      r <- append_new (note_limit limit empty_budget) ioc_alerts ;;
      let '(persisted, b) := (r : list stored_alert * budget) in
      detections <- recent cfg result_table ;;
      match cross_source_alerts (tb_batch_id batch) (tb_collected_at batch) (for_correlation <$> detections) (sa_alert <$> persisted) limit with
      | Raise _ => io_ret (budget_outcome b [u "cross_source_correlation_failed"])
      | Ok (cross, limit) =>
          r <- append_new (note_limit limit b) cross ;;
          io_ret (budget_outcome r.2 [])
      end
  end.

(** [_correlate_guard] *)
Definition correlate_guard (batch : guard_batch) : io outcome :=
  match correlate_guard_batch batch fresh_corr with
  | Raise _ => io_ret (mkOutcome R_FAILED 0 false (Some (u "guard_correlation_failed")))
  | Ok (alerts, limit) =>
      r <- append_new (note_limit limit empty_budget) alerts ;;
      let '(persisted, b) := (r : list stored_alert * budget) in
      detections <- recent cfg result_table ;;
      match guard_compound_alerts (bt_batch_id batch) (bt_collected_at batch) (for_correlation <$> detections) (sa_alert <$> persisted) limit with
      | Raise _ => io_ret (mkOutcome R_PARTIAL (bu_records b) (bu_truncated b) (Some (u "guard_cross_source_correlation_failed")))
      | Ok (compounds, limit) =>
          r <- append_new (note_limit limit b) compounds ;;
          io_ret (budget_outcome r.2 [])
      end
  end.

(** [store_trace_batch] and [store_guard_batch] *)
Definition store_trace_batch (batch : sourced trace_batch) (persist_raw : bool) : io outcome :=
  _ <- (if persist_raw then append_to cfg trace_table batch else io_ret tt) ;;
  io_try (correlate (so_body batch)) (fun e => io_ret (failed_outcome class_name e)).

Definition store_guard_batch (batch : sourced guard_batch) (persist_raw : bool) : io outcome :=
  _ <- (if persist_raw then append_to cfg guard_table batch else io_ret tt) ;;
  io_try (correlate_guard (so_body batch)) (fun e => io_ret (failed_outcome class_name e)).
End Correlation.

(** ** Envelopes *)

(** The payload of a task, by its kind *)
Inductive envelope :=
| E_report (r : asset_report)
| E_trace (b : sourced trace_batch)
| E_guard (b : sourced guard_batch).

Section Envelopes.
Context {U : Unicode} `{Packaging} {D : Dumps} (class_name : exn -> str) (cfg : settings).

(** [_raw_already_stored] *)
Definition raw_already_stored {R} (t : record_table R) (source_of : R -> option str) (id_field envelope_id source : str) : io bool :=
  record <- find_in t id_field envelope_id ;;
  io_ret (match record with Some r => bool_decide (source_or_legacy (source_of r) = source) | None => false end).

(** [_process_ingest_task], after the payload was read *)
Definition process_envelope (e : envelope) : io outcome :=
  match e with
  | E_report r =>
      stored <- raw_already_stored report_table rp_source_agent_id (u "report_id") (rp_report_id r)
                  (source_or_legacy (rp_source_agent_id r)) ;;
      store_asset_report class_name cfg r (negb stored)
  | E_trace b =>
      stored <- raw_already_stored trace_table so_source_agent_id (u "batch_id") (tb_batch_id (so_body b))
                  (source_or_legacy (so_source_agent_id b)) ;;
      store_trace_batch class_name cfg b (negb stored)
  | E_guard b =>
      stored <- raw_already_stored guard_table so_source_agent_id (u "batch_id") (bt_batch_id (so_body b))
                  (source_or_legacy (so_source_agent_id b)) ;;
      store_guard_batch class_name cfg b (negb stored)
  end.
End Envelopes.
