(* ===== verification/Ingest.v ===== *)
(** * Accepting envelopes ([api/ingest.py])

    The routes put an envelope into the ledger and answer: at once in the
    asynchronous deployment, where the worker processes the task later, otherwise
    after processing it under a lease.  Other threads work on the ledger too: what
    they do between the submission and the claim is the argument [between], what they
    do while the task is processed (the heartbeat among them) the argument
    [meanwhile].  The clock, the tokens and the room in the ledger's file are
    arguments as in [IngestLedger]; the counters of [metrics] are not modelled. *)

From stdpp Require Import base gmap sets strings numbers list.
From Stdlib Require Import ZArith Lia.
From S2P Require Import Prelude PyText PyHash PyFloat Compare Tables Versioning Severity Osv Detect Coverage Kali Correlate Guard IngestLedger Envelopes Derived.

#[local] Open Scope Z_scope.

(** [model_dump_json] and [model_validate_json] of the three models *)
Class Payloads := {
  dump_json : envelope -> str;
  validate_json : TaskKind -> str -> res envelope;
}.

Definition kind_of (e : envelope) : TaskKind :=
  match e with E_report _ => ASSET_REPORT | E_trace _ => TRACE_BATCH | E_guard _ => GUARD_EVENT end.

Definition envelope_id (e : envelope) : str :=
  match e with E_report r => rp_report_id r | E_trace b => tb_batch_id (so_body b) | E_guard b => bt_batch_id (so_body b) end.

(** [source_agent_id or "legacy"] *)
Definition envelope_source (e : envelope) : str :=
  source_or_legacy (match e with
                    | E_report r => rp_source_agent_id r
                    | E_trace b => so_source_agent_id b
                    | E_guard b => so_source_agent_id b end).

(** ** Acknowledgements *)

Inductive DerivedAckStatus := A_PENDING | A_COMPLETE | A_PARTIAL | A_FAILED.

(** [IngestAck]; [accepted] is always true. *)
Record IngestAck := mkAck {
  ak_id : str;
  ak_duplicate : bool;
  ak_queued : bool;
  ak_derived_status : option DerivedAckStatus;
  ak_derived_records : Z;
  ak_derived_truncated : bool;
  ak_derived_reason : option str;
}.

Definition ack_status (s : DerivedRunStatus) : DerivedAckStatus :=
  match s with R_COMPLETE => A_COMPLETE | R_PARTIAL => A_PARTIAL | R_FAILED => A_FAILED end.

(** [_ack] *)
Definition ack (id : str) (o : outcome) (duplicate : bool) : res IngestAck :=
  match oc_status o with
  | R_FAILED => Raise (HTTPException 503)
  | s => Ok (mkAck id duplicate false (Some (ack_status s)) (oc_records o) (oc_truncated o) (oc_reason o))
  end.

(** [_pending_ack] *)
Definition pending_ack (id : str) (duplicate : bool) : IngestAck := mkAck id duplicate true (Some A_PENDING) 0 false None.

(** [_task_outcome] *)
Definition task_outcome (t : task_row) : option outcome :=
  match tk_state t with
  | T_COMPLETE => Some (mkOutcome R_COMPLETE (tk_derived_records t) (tk_derived_truncated t) (tk_derived_reason t))
  | T_PARTIAL => Some (mkOutcome R_PARTIAL (tk_derived_records t) (tk_derived_truncated t) (tk_derived_reason t))
  | _ => None
  end.

(** ** Requests *)

(** The ledger and the stores *)
Record service := mkService { sv_ledger : IngestLedger.table; sv_analyzer : analyzer }.

Section Requests.
Context {U : Unicode} `{Packaging} {D : Dumps} {J : Payloads} (class_name : exn -> str) (cfg : settings)
  (max_completed : Z) (lease_seconds : float).

(** [_process_ingest_task] *)
Definition process_task (task : task_row) : io outcome :=
  e <- io_lift (validate_json (tk_kind task) (tk_payload task)) ;;
  process_envelope class_name cfg e.

Definition default_failure (reason : option str) : str := or_else reason (u "derived_processing_failed").

(** [_run_inline]; the token of a claimed task is never [None]. *)
Definition run_inline (task : task_row) (meanwhile : IngestLedger.table -> IngestLedger.table) (now : float) (s : service)
    : res IngestAck * service :=
  let token := default [] (tk_lease_token task) in
  let '(result, an) := process_task task (sv_analyzer s) in
  let ledger := meanwhile (sv_ledger s) in
  match result with
  | Raise e =>
      let '(_, ledger) := retry (tk_key task) token (class_name e) (fl_of_Z 0) now ledger in
      (Raise e, mkService ledger an)
  | Ok o =>
      match oc_status o with
      | R_FAILED =>
          let '(_, ledger) := retry (tk_key task) token (default_failure (oc_reason o)) (fl_of_Z 0) now ledger in
          (ack (tk_envelope_id task) o false, mkService ledger an)
      | st =>
          let '(committed, ledger) :=
            complete max_completed (tk_key task) token (match st with R_COMPLETE => true | _ => false end)
              (oc_records o) (oc_truncated o) (oc_reason o) now ledger in
          (if committed then ack (tk_envelope_id task) o false else Raise (HTTPException 503), mkService ledger an)
      end
  end.

(** [_ingest_envelope], with the three instants at which it looks at the clock *)
Definition ingest_envelope (derived_async : bool) (key : str) (e : envelope) (submit_now claim_now end_now : float) (token : str)
    (room : bool) (between meanwhile : IngestLedger.table -> IngestLedger.table) (s : service) : res IngestAck * service :=
  match submit key (kind_of e) (envelope_id e) (dump_json e) submit_now room (sv_ledger s) with
  | (Raise LedgerConflictError, ledger) => (Raise (HTTPException 409), mkService ledger (sv_analyzer s))
  | (Raise x, ledger) => (Raise x, mkService ledger (sv_analyzer s))
  | (Ok (task, created), ledger) =>
      let s := mkService ledger (sv_analyzer s) in
      match task_outcome task with
      | Some o => (ack (envelope_id e) o true, s)
      | None =>
          if derived_async then (Ok (pending_ack (envelope_id e) (negb created)), s)
          else
            let '(claimed, ledger) := claim key claim_now lease_seconds token (between (sv_ledger s)) in
            let s := mkService ledger (sv_analyzer s) in
            match claimed with
            | Some task => run_inline task meanwhile end_now s
            | None =>
                match get_task key ledger with
                | Some current =>
                    match task_outcome current with
                    | Some o => (ack (envelope_id e) o true, s)
                    | None => (Raise (HTTPException 503), s)
                    end
                | None => (Raise (HTTPException 503), s)
                end
            end
      end
  end.

(** [ingest_asset_report], [ingest_trace_batch] and [ingest_guard_event] *)
Definition post_envelope (derived_async : bool) (e : envelope) := ingest_envelope derived_async (base_key (kind_of e) (envelope_source e) (envelope_id e)) e.

(** What the worker's processor returns for the ledger. *)
Definition worker_result (r : res outcome) : processed :=
  match r with
  | Raise e => Crashed (class_name e)
  | Ok o => match oc_status o with
            | R_FAILED => Failed_with (oc_reason o)
            | st => Finished (match st with R_COMPLETE => true | _ => false end) (oc_records o) (oc_truncated o) (oc_reason o)
            end
  end.

(** A round of the worker: [claim_next], then [_process] with this processor *)
Definition worker_round (base_seconds max_seconds : float) (claim_now end_now : float) (token : str)
    (meanwhile : IngestLedger.table -> IngestLedger.table) (s : service) : service :=
  let '(claimed, ledger) := claim_next claim_now lease_seconds token (sv_ledger s) in
  match claimed with
  | None => mkService ledger (sv_analyzer s)
  | Some task =>
      let '(result, an) := process_task task (sv_analyzer s) in
      mkService (process max_completed base_seconds max_seconds task (worker_result result) end_now (meanwhile ledger)).2 an
  end.
End Requests.

(** ** The status of a logical envelope *)

(** [IngestDerivedStatus] *)
Record IngestDerivedStatus := mkStatus {
  ds_kind : TaskKind;
  ds_id : str;
  ds_source : str;
  ds_state : TaskState;
  ds_children : Z;
  ds_attempts : Z;
  ds_derived_records : Z;
  ds_derived_truncated : bool;
  ds_derived_reason : option str;
  ds_last_error : option str;
  ds_next_attempt_at : option float;
  ds_updated_at : float;
}.

(** The [rank] of a state *)
Definition state_rank (s : TaskState) : Z :=
  match s with T_COMPLETE => 0 | T_PARTIAL => 1 | T_PENDING => 2 | T_PROCESSING => 3 end.

(** [", ".join(dict.fromkeys(texts))[:2048] or None] of the texts that are not empty *)
Definition joined_texts (texts : list (option str)) : option str :=
  let distinct := fst <$> fold_left (fun seen x => match x with Some ((_ :: _) as s) => od_set s tt seen | _ => seen end) texts [] in
  nonempty (take 2048 (join (u ", ") distinct)).

(** [text[a:-b]] of a positive [b] *)
Definition slice_to_end (a b : nat) (text : str) : str := drop a (take (length text - b) text).

(** [min] and [max] of floats keep the first of equals. *)
Definition least (x : float) (xs : list float) : float := fold_left (fun m y => if fl_ltb y m then y else m) xs x.
Definition greatest (x : float) (xs : list float) : float := fold_left (fun m y => if fl_ltb m y then y else m) xs x.

(** [_aggregate_task_state]; [None] when there are no tasks, on which it is not called *)
Definition aggregate_task_state (tasks : list task_row) : option IngestDerivedStatus :=
  match tasks with
  | [] => None
  | first :: rest =>
      let due := omap (fun t => if bool_decide (tk_state t = T_PENDING) then Some (tk_next_attempt_at t) else None) tasks in
      Some (mkStatus (tk_kind first) (tk_envelope_id first)
        (slice_to_end (length (kind_value (tk_kind first)) + 1) (length (tk_envelope_id first) + 1) (tk_key first))
        (max_by state_rank (tk_state first) (tk_state <$> rest))
        (Z.of_nat (length tasks)) (sum_of tk_attempts tasks) (sum_of tk_derived_records tasks) (existsb tk_derived_truncated tasks)
        (joined_texts (tk_derived_reason <$> tasks)) (joined_texts (tk_last_error <$> tasks))
        (match due with [] => None | d :: due => Some (least d due) end)
        (greatest (tk_updated_at first) (tk_updated_at <$> rest)))
  end.

(** [get_ingest_status] *)
Definition get_ingest_status (kind : TaskKind) (source id : str) (t : IngestLedger.table) : res IngestDerivedStatus :=
  match aggregate_task_state (lineage kind source id t) with
  | None => Raise (HTTPException 404)
  | Some s =>
      Ok (mkStatus (ds_kind s) id source (ds_state s) (ds_children s) (ds_attempts s) (ds_derived_records s) (ds_derived_truncated s)
            (ds_derived_reason s) (ds_last_error s) (ds_next_attempt_at s) (ds_updated_at s))
  end.
