(* ===== verification/Defender.v ===== *)
(** * Microsoft Defender batches ([api/ingest.py])

    Alerts and incidents of Defender for Endpoint become alerts; the device snapshots
    of Defender Vulnerability Management become reports with their detection
    results.  A repeated batch is compared with the stored one. *)

From stdpp Require Import base gmap sets strings numbers list.
From Stdlib Require Import ZArith Lia.
From S2P Require Import Prelude PyText PyHash PyFloat PyTime Tables Lineage RecordStore Compare Versioning Severity Osv Detect Coverage KaliTracker Kali Correlate Guard Lifecycle Envelopes Derived Ingest.

#[local] Open Scope Z_scope.

(** ** Defender for Endpoint *)

(** [_MDE_SCORE] *)
Definition mde_score (s : Severity) : Z :=
  match s with INFO => 15 | LOW => 40 | MEDIUM => 65 | HIGH => 85 | CRITICAL => 95 end.

Definition nul : str := [0%N].

(** [_mde_identifier] *)
Definition mde_identifier (kind tenant_id external_id version : str) : str :=
  u "mde-" ++ kind ++ u "-" ++ sha256_hex (kind ++ nul ++ tenant_id ++ nul ++ external_id ++ nul ++ version).

Section Mde.
Context {U : Unicode}.

(** [_mde_status] *)
Definition mde_status (provider_status : str) : AlertStatus :=
  if bool_decide (lower (strip provider_status) ∈ [u "resolved"; u "redirected"]) then CLOSED else OPEN.

(** [_bounded_description] *)
Definition bounded_description (parts : list str) : str := take 4096 (join [10%N] (base.filter (fun p => p <> []) parts)).

(** [if value: details.append(prefix + value)] *)
Definition detail (prefix : str) (value : option str) : list str :=
  match value with Some ((_ :: _) as v) => [prefix ++ v] | _ => [] end.

(** Constructing an [Alert] with its status and times *)
Definition validate_stored (a : alert) (status : AlertStatus) (updated_at last_seen : Z) : res stored_alert :=
  a ← validate_alert a; Ok (mkStored a status None None false 1 (Some last_seen) (Some updated_at)).

(** [_alert_from_mde_alert] *)
Definition alert_from_mde_alert (tenant_id : str) (item : MdeAlert) : res stored_alert :=
  let details :=
    [ma_description item; u "Microsoft Defender alert: " ++ ma_alert_id item; u "Provider status: " ++ ma_provider_status item]
    ++ detail (u "Classification: ") (ma_classification item)
    ++ detail (u "Determination: ") (ma_determination item)
    ++ detail (u "Source: ") (or_option (ma_product_name item) (ma_service_source item))
    ++ (match ma_mitre_techniques item with [] => [] | l => [u "MITRE ATT&CK: " ++ comma l] end)
    ++ detail (u "Microsoft portal: ") (ma_portal_url item) in
  validate_stored
    (mkAlert (mde_identifier (u "alert-occurrence") tenant_id (ma_alert_id item) (isoformat (ma_last_updated_at item)))
       (Some (mde_identifier (u "alert") tenant_id (ma_alert_id item) [])) (ma_severity item) (mde_score (ma_severity item))
       (take 4096 (u "[MDE] " ++ ma_title item)) (bounded_description details) (ma_related_asset_ids item) [] []
       (ma_evidence_truncated item) (ma_created_at item))
    (mde_status (ma_provider_status item)) (ma_last_updated_at item) (default (ma_last_updated_at item) (ma_last_activity_at item)).

(** [_alert_from_mde_incident] *)
Definition alert_from_mde_incident (tenant_id : str) (item : MdeIncident) : res stored_alert :=
  let details :=
    [mi_description item; u "Microsoft Defender incident: " ++ mi_incident_id item; u "Provider status: " ++ mi_provider_status item]
    ++ detail (u "Classification: ") (mi_classification item)
    ++ detail (u "Determination: ") (mi_determination item)
    ++ (match mi_alert_ids item with [] => [] | l => [u "Related provider alerts: " ++ comma l] end)
    ++ detail (u "Microsoft portal: ") (mi_portal_url item) in
  validate_stored
    (mkAlert (mde_identifier (u "incident-occurrence") tenant_id (mi_incident_id item) (isoformat (mi_last_updated_at item)))
       (Some (mde_identifier (u "incident") tenant_id (mi_incident_id item) [])) (mi_severity item) (mde_score (mi_severity item))
       (take 4096 (u "[MDE Incident] " ++ mi_display_name item)) (bounded_description details) (mi_related_asset_ids item) [] []
       (mi_relationships_truncated item) (mi_created_at item))
    (mde_status (mi_provider_status item)) (mi_last_updated_at item) (mi_last_updated_at item).
End Mde.

Section Batches.
Context {U : Unicode} {D : Dumps} (class_name : exn -> str) (cfg : settings).

(** [for item in items: if not budget.append(store, convert(item)): break] *)
Fixpoint append_converted {A} (convert : A -> res stored_alert) (b : budget) (items : list A) : io budget :=
  match items with
  | [] => io_ret b
  | item :: items =>
      a <- io_lift (convert item) ;;
      r <- append_alert cfg b a ;;
      if negb r.1 then io_ret r.2 else append_converted convert r.2 items
  end.

(** [store_mde_security_batch] *)
Definition store_mde_security_batch (batch : MdeSecurityBatch) (persist_raw : bool) : io outcome :=
  _ <- (if persist_raw then append_to cfg mde_table batch else io_ret tt) ;;
  b <- append_converted (alert_from_mde_alert (mb_tenant_id batch)) empty_budget (mb_alerts batch) ;;
  b <- (if bu_truncated b then io_ret b
        else append_converted (alert_from_mde_incident (mb_tenant_id batch)) b (mb_incidents batch)) ;;
  io_ret (budget_outcome b []).

(** What the two routes share: a batch id that stands for another batch is a
    conflict; an exception while storing is a failed outcome. *)
Definition accept_batch {B} `{EqDecision B} (t : record_table B) (id_of : B -> str) (store : B -> bool -> io outcome) (batch : B)
    : io IngestAck :=
  existing <- find_in t (u "batch_id") (id_of batch) ;;
  match existing with
  | Some stored =>
      if negb (bool_decide (stored = batch)) then io_lift (Raise (HTTPException 409))
      else
        o <- io_try (store batch false) (fun e => io_ret (failed_outcome class_name e)) ;;
        io_lift (ack (id_of batch) o true)
  | None =>
      o <- io_try (store batch true) (fun e => io_ret (failed_outcome class_name e)) ;;
      io_lift (ack (id_of batch) o false)
  end.

(** [ingest_mde_security_batch] *)
Definition ingest_mde_security_batch : MdeSecurityBatch -> io IngestAck := accept_batch mde_table mb_batch_id store_mde_security_batch.
End Batches.

(** ** Defender Vulnerability Management *)

Definition MDVM_SOURCE : str := u "microsoft-defender-vulnerability-management".

(** [_mdvm_asset_id] *)
Definition mdvm_asset_id (item : MdvmSoftwareVulnerability) : str :=
  u "mdvm-pkg-" ++ sha256_hex (mv_software_vendor item ++ nul ++ mv_software_name item ++ nul ++ mv_software_version item).

(** [_mdvm_evidence] *)
Definition mdvm_evidence (item : MdvmSoftwareVulnerability) : str :=
  let instant prefix t := match t with Some t => [prefix ++ isoformat t] | None => [] end in
  take 4096 (join (u "; ")
    ([mv_software_vendor item ++ u " " ++ mv_software_name item ++ u " " ++ mv_software_version item]
     ++ detail (u "exploitability=") (mv_exploitability_level item)
     ++ detail (u "update=") (mv_recommended_security_update item)
     ++ detail (u "update_id=") (mv_recommended_security_update_id item)
     ++ instant (u "first_seen=") (mv_first_seen_at item) ++ instant (u "last_seen=") (mv_last_seen_at item)
     ++ (if mv_evidence_truncated item then [u "provider_evidence_truncated=true"] else []))).

Section Mdvm.
Context {U : Unicode}.

(** [dict.fromkeys(values)] *)
Definition from_keys (values : list str) : list str := fst <$> fold_left (fun d v => od_set v tt d) values [].

(** [_mdvm_references] *)
Definition mdvm_references (item : MdvmSoftwareVulnerability) : list str :=
  take 256 (from_keys
    (detail [] (mv_recommended_security_update_url item) ++ detail [] (mv_recommended_security_update_id item)
     ++ detail [] (mv_recommendation_reference item)
     ++ (if startswith (u "CVE-") (upper (mv_cve_id item))
         then [u "https://msrc.microsoft.com/update-guide/vulnerability/" ++ upper (mv_cve_id item)] else []))).

(** Constructing the [Package] of an item *)
Definition mdvm_package (item : MdvmSoftwareVulnerability) : res dpkg_package :=
  let name := trim (mv_software_vendor item ++ u "/" ++ mv_software_name item) in
  let version := trim (mv_software_version item) in
  if short max_wire_string name && short max_wire_string version
  then Ok (mkDpkg (mkPackage (mdvm_asset_id item) None name version None) (Some (u "mdvm")) None None)
  else Raise ValueError.

Definition mdvm_finding (item : MdvmSoftwareVulnerability) : res vulnerability :=
  validate_vulnerability
    (mkVuln (mv_cve_id item) (mv_severity item) (mv_cvss_score item) (mdvm_asset_id item) None MDVM_SOURCE
       (Some (mdvm_evidence item)) (mdvm_references item)).

(** The loop over the items: [packages.setdefault], and the findings *)
Fixpoint mdvm_rows (items : list MdvmSoftwareVulnerability) (packages : list (str * dpkg_package)) (findings : list vulnerability)
    : res (list (str * dpkg_package) * list vulnerability) :=
  match items with
  | [] => Ok (packages, findings)
  | item :: items =>
      p ← mdvm_package item;
      f ← mdvm_finding item;
      mdvm_rows items (match od_get (mdvm_asset_id item) packages with Some _ => packages | None => od_set (mdvm_asset_id item) p packages end)
        (findings ++ [f])
  end.

(** [" ".join(value for value in (os_platform, os_version) if value)] *)
Definition mdvm_os (snapshot : MdvmDeviceSnapshot) : str :=
  join (u " ") (base.filter (fun v => v <> []) [ms_os_platform snapshot; default [] (ms_os_version snapshot)]).

(** [_derive_mdvm_snapshot] *)
Definition derive_mdvm_snapshot (snapshot : MdvmDeviceSnapshot) : res (asset_report * DetectionResult) :=
  '(packages, findings) ← mdvm_rows (ms_vulnerabilities snapshot) [] [];
  let rows := snd <$> packages in
  let os := match mdvm_os snapshot with [] => u "Microsoft Defender managed device" | os => os end in
  _ ← raise_if (negb (short max_wire_string (trim os))) ValueError;
  let count := Z.of_nat (length findings) in
  let report := mkAssetReport (trim (ms_report_id snapshot)) None (ms_observed_at snapshot) (trim (ms_host_id snapshot)) (trim os) []
    (I_package <$> rows) findings (Some [mkRun DEFENDER C_COMPLETE count (Some (u "mdvm_cloud_snapshot"))]) in
  detection ← validate_result
    (mkResult (ms_report_id snapshot) (ms_host_id snapshot) (ms_observed_at snapshot) (u "MicrosoftDefenderVM") findings S_COMPLETE None
       (Z.of_nat (length rows)) 0 0 false None
       [Coverage.mkRow DEFENDER (Some (u "mdvm")) C_COMPLETE (Z.of_nat (length rows)) 0 count None]);
  Ok (report, detection).
End Mdvm.

Section MdvmBatches.
Context {U : Unicode} {D : Dumps} (class_name : exn -> str) (cfg : settings).

(** [if store.find_one("report_id", ...) is None: store.append(record); records += 1] *)
Definition append_once {R} (t : record_table R) (report_id : str) (r : R) (records : Z) : io Z :=
  known <- find_in t (u "report_id") report_id ;;
  match known with
  | Some _ => io_ret records
  | None => _ <- append_to cfg t r ;; io_ret (records + 1)
  end.

Fixpoint store_snapshots (snapshots : list MdvmDeviceSnapshot) (records : Z) : io Z :=
  match snapshots with
  | [] => io_ret records
  | snapshot :: snapshots =>
      d <- io_lift (derive_mdvm_snapshot snapshot) ;;
      let '(report, detection) := (d : asset_report * DetectionResult) in
      records <- append_once report_table (rp_report_id report) report records ;;
      records <- append_once result_table (re_report_id detection) detection records ;;
      store_snapshots snapshots records
  end.

(** [store_mdvm_vulnerability_batch] *)
Definition store_mdvm_vulnerability_batch (batch : MdvmVulnerabilityBatch) (persist_raw : bool) : io outcome :=
  _ <- (if persist_raw then append_to cfg mdvm_table batch else io_ret tt) ;;
  records <- store_snapshots (vb_snapshots batch) 0 ;;
  io_ret (mkOutcome R_COMPLETE records false None).

(** [ingest_mdvm_vulnerability_batch] *)
Definition ingest_mdvm_vulnerability_batch : MdvmVulnerabilityBatch -> io IngestAck :=
  accept_batch class_name mdvm_table vb_batch_id store_mdvm_vulnerability_batch.
End MdvmBatches.
