(* ===== verification/DerivedProps.v ===== *)
(** * What ingest promises of derived records

    No alert is stored twice, whatever is repeated and whichever writes fail; a
    complete outcome means that the alerts or findings are there. *)

From stdpp Require Import base gmap sets strings numbers list.
From Stdlib Require Import ZArith Lia.
From S2P Require Import Prelude PyText PyFloat Tables Lineage RecordStore StoreProps Compare Versioning Severity Osv Detect Coverage KaliTracker Kali Correlate Guard CorrelateProps Lifecycle Envelopes Derived Ingest Defender.

#[local] Open Scope Z_scope.

(** ** Invariants of calls *)
Section Keeps.
Context (P : analyzer -> Prop).

Definition keeps {A} (m : io A) : Prop := forall s, P s -> P (m s).2.

Lemma keeps_ret {A} (a : A) : keeps (io_ret a).
Proof. by intros s Hs. Qed.
Lemma keeps_lift {A} (r : res A) : keeps (io_lift r).
Proof. by intros s Hs. Qed.
Lemma keeps_get {A} (f : analyzer -> A) : keeps (io_get f).
Proof. by intros s Hs. Qed.
Lemma keeps_bind {A B} (m : io A) (k : A -> io B) : keeps m -> (forall a, keeps (k a)) -> keeps (io_bind m k).
Proof. intros Hm Hk s Hs. unfold io_bind. specialize (Hm s Hs). destruct (m s) as [[a|e] s']; [by apply Hk|done]. Qed.
Lemma keeps_try {A} (m : io A) (h : exn -> io A) : keeps m -> (forall e, keeps (h e)) -> keeps (io_try m h).
Proof. intros Hm Hk s Hs. unfold io_try. specialize (Hm s Hs). destruct (m s) as [[a|e] s']; [done|by apply Hk]. Qed.
End Keeps.

Create HintDb keeps.
#[export] Hint Resolve keeps_ret keeps_lift keeps_get : keeps.

(** Takes a call apart. *)
Ltac keeps :=
  repeat match goal with
  | |- keeps _ (io_bind _ _) => apply keeps_bind; [|intros]
  | |- keeps _ (io_try _ _) => apply keeps_try; [|intros]
  | |- keeps _ (match ?x with _ => _ end) => destruct x
  | |- keeps _ (if ?b then _ else _) => destruct b
  | |- keeps _ _ => solve [eauto with keeps]
  end.

Section Unique.
Context {U : Unicode} `{Packaging} {D : Dumps} (class_name : exn -> str).

Definition alert_ids (st : RecordStore.store stored_alert) : list str :=
  (fun r => al_alert_id (sa_alert (rw_payload r))) <$> st_rows st.

Definition unique_alerts (s : analyzer) : Prop := NoDup (alert_ids (an_alerts s)).

(** Pruning takes rows away. *)
Lemma prune_sublist {R} l n (st : RecordStore.store R) : st_rows (prune_for_insert l n st) `sublist_of` st_rows st.
Proof.
  unfold prune_for_insert. destruct (_ && _); [done|]. cbv zeta. destruct (_ && _); [done|]. destruct (find_cutoff _ _ _ _ _ _); [|done].
  unfold delete_upto, select_where. cbn. apply sublist_filter.
Qed.

Lemma append_rows_sublist {R} (size : R -> Z) l d r (st st' : RecordStore.store R) : RecordStore.append size l d r st = Ok st' ->
  exists old q, st_rows st' = old ++ [q] /\ rw_payload q = r /\ old `sublist_of` st_rows st.
Proof.
  unfold RecordStore.append. intros H0. apply bind_Ok_inv in H0 as (? & _ & H0). apply bind_Ok_inv in H0 as (? & _ & H0).
  destruct d; [done|]. injection H0 as <-. eexists _, _. split; [reflexivity|]. split; [done|]. apply prune_sublist.
Qed.

Lemma find_in_alerts id s : RecordStore.find_one (ta_field alert_table) (an_alerts s) (u "alert_id") id = None -> id ∉ alert_ids (an_alerts s).
Proof.
  unfold RecordStore.find_one. intros Hf Hin. unfold alert_ids in Hin. apply list_elem_of_fmap in Hin as (r & -> & Hr).
  replace (field_name (u "alert_id")) with true in Hf by (vm_compute; reflexivity).
  apply fmap_None in Hf. unfold select_one, select_where in Hf. destruct (base.filter _ _) as [|q l] eqn:E; [|done].
  assert (Hq : r ∈ base.filter (fun r' => field_is (ta_field alert_table) (u "alert_id") (al_alert_id (sa_alert (rw_payload r))) r' = true) (rev (st_rows (an_alerts s)))).
  { apply list_elem_of_filter. split; [|by apply elem_of_rev]. unfold field_is, alert_table, ta_field, field_named. by rewrite !bool_decide_true. }
  rewrite E in Hq. by apply not_elem_of_nil in Hq.
Qed.

(** A write elsewhere leaves the alerts alone. *)
Lemma keeps_append_other {R} cfg (t : record_table R) (r : R) :
  (forall st s, an_alerts (ta_put t st s) = an_alerts s) -> keeps unique_alerts (append_to cfg t r).
Proof.
  intros Ht s Hs. unfold append_to. destruct (match an_disk s with [] => _ | _ => _ end) as [fate disk].
  cbv zeta. destruct (RecordStore.append _ _ _ _ _); cbn [snd]; unfold unique_alerts in *; rewrite ?Ht; exact Hs.
Qed.

Lemma keeps_append_report cfg r : keeps unique_alerts (append_to cfg report_table r).
Proof. by apply keeps_append_other. Qed.
Lemma keeps_append_trace cfg r : keeps unique_alerts (append_to cfg trace_table r).
Proof. by apply keeps_append_other. Qed.
Lemma keeps_append_guard cfg r : keeps unique_alerts (append_to cfg guard_table r).
Proof. by apply keeps_append_other. Qed.
Lemma keeps_append_result cfg r : keeps unique_alerts (append_to cfg result_table r).
Proof. by apply keeps_append_other. Qed.
Lemma keeps_append_mde cfg r : keeps unique_alerts (append_to cfg mde_table r).
Proof. by apply keeps_append_other. Qed.
Lemma keeps_append_mdvm cfg r : keeps unique_alerts (append_to cfg mdvm_table r).
Proof. by apply keeps_append_other. Qed.
Hint Resolve keeps_append_report keeps_append_trace keeps_append_guard keeps_append_result keeps_append_mde keeps_append_mdvm : keeps.

(** An alert is appended under an identifier that no row has. *)
Lemma keeps_append_alert cfg b a : keeps unique_alerts (append_alert cfg b a).
Proof.
  intros s Hs. unfold append_alert, budget_append, find_in, io_bind, io_get.
  destruct (RecordStore.find_one _ _ _ _) eqn:Ef; [done|]. apply find_in_alerts in Ef. cbv zeta.
  destruct (_ || _); [done|]. unfold append_to. destruct (match an_disk s with [] => _ | _ => _ end) as [fate disk].
  cbv zeta. destruct (RecordStore.append _ _ _ _ _) as [st|e] eqn:Ea; [|done].
  apply append_rows_sublist in Ea as (old & q & Eq & Hq & Hsub). change (NoDup (alert_ids st)). unfold alert_ids. rewrite Eq, fmap_app. cbn [fmap list_fmap]. rewrite Hq.
  assert (Hs2 : ((fun r => al_alert_id (sa_alert (rw_payload r))) <$> old) `sublist_of` alert_ids (an_alerts s)) by (by apply fmap_sublist).
  apply NoDup_app. split; [by eapply sublist_NoDup|]. split; [|apply NoDup_singleton].
  intros x Hx ->%list_elem_of_singleton. apply Ef. by eapply sublist_subseteq.
Qed.
Hint Resolve keeps_append_alert : keeps.

Lemma keeps_append_alerts cfg alerts : forall b, keeps unique_alerts (append_alerts cfg b alerts).
Proof. induction alerts as [|a alerts IH]; intros b; cbn [append_alerts]; keeps. Qed.
Hint Resolve keeps_append_alerts : keeps.

Lemma keeps_append_converted {A} cfg (convert : A -> res stored_alert) items : forall b, keeps unique_alerts (append_converted cfg convert b items).
Proof. induction items as [|a items IH]; intros b; cbn [append_converted]; keeps. Qed.
Hint Resolve keeps_append_converted : keeps.

Lemma keeps_process cfg e : keeps unique_alerts (process_envelope class_name cfg e).
Proof.
  assert (Hd : forall r, keeps unique_alerts (detect_or_fail class_name cfg r)).
  { intros r. unfold detect_or_fail, auto_detect, budget_append, find_in. keeps. }
  unfold process_envelope, raw_already_stored, store_asset_report, store_trace_batch, store_guard_batch, correlate, correlate_guard, recent, append_new, find_in.
  keeps.
Qed.

Lemma keeps_mde cfg b : keeps unique_alerts (ingest_mde_security_batch class_name cfg b).
Proof. unfold ingest_mde_security_batch, accept_batch, store_mde_security_batch, find_in. keeps. Qed.

Lemma keeps_mdvm cfg b : keeps unique_alerts (ingest_mdvm_vulnerability_batch class_name cfg b).
Proof.
  assert (Hs : forall snapshots records, keeps unique_alerts (store_snapshots cfg snapshots records)).
  { induction snapshots as [|x xs IH]; intros records; cbn [store_snapshots]; unfold append_once, find_in; keeps. }
  unfold ingest_mdvm_vulnerability_batch, accept_batch, store_mdvm_vulnerability_batch, find_in. keeps.
Qed.

(** One delivery: an envelope is processed (again), or a Defender batch accepted,
    under any settings, while writes fail as they may. *)
Inductive delivery (s s' : analyzer) : Prop :=
| D_envelope cfg e disk : s' = (process_envelope class_name cfg e (s <| an_disk := disk |>)).2 -> delivery s s'
| D_mde cfg b disk : s' = (ingest_mde_security_batch class_name cfg b (s <| an_disk := disk |>)).2 -> delivery s s'
| D_mdvm cfg b disk : s' = (ingest_mdvm_vulnerability_batch class_name cfg b (s <| an_disk := disk |>)).2 -> delivery s s'.

(** C28. No alert is stored twice: after any deliveries, repeated or interrupted by
    failing writes in any way, the alerts in the store have distinct identifiers. *)
Theorem alerts_stored_once s s' : NoDup (alert_ids (an_alerts s)) -> rtc delivery s s' -> NoDup (alert_ids (an_alerts s')).
Proof.
  intros Hs Hr. induction Hr as [|s1 s2 s3 [cfg e disk ->|cfg b disk ->|cfg b disk ->] _ IH]; [done| | |];
    apply IH; [apply keeps_process|apply keeps_mde|apply keeps_mdvm]; exact Hs.
Qed.
End Unique.

(** ** Complete outcomes *)

(** The store takes [records] more records of [bytes] together without pruning. *)
Definition room {R} (l : RecordStore.limits) (records bytes : Z) (st : RecordStore.store R) : Prop :=
  (max_rows l = 0 \/ 0 < max_rows l /\ st_row_count st + records <= max_rows l) /\
  (max_table_bytes l = 0 \/ 0 < max_table_bytes l /\ st_total_bytes st + bytes <= max_table_bytes l).

Lemma prune_room {R} l bytes (st : RecordStore.store R) : room l 1 bytes st -> prune_for_insert l bytes st = st.
Proof.
  intros [Hr Hb]. unfold prune_for_insert. destruct (_ && _); [done|]. cbv zeta.
  replace (if max_rows l =? 0 then 0 else Z.max 0 (st_row_count st + 1 - max_rows l)) with 0
    by (destruct (Z.eqb_spec (max_rows l) 0); [done|lia]).
  replace (if max_table_bytes l =? 0 then 0 else Z.max 0 (st_total_bytes st + bytes - max_table_bytes l)) with 0
    by (destruct (Z.eqb_spec (max_table_bytes l) 0); [done|lia]).
  done.
Qed.

Lemma append_room {R} (size : R -> Z) l d r (st st' : RecordStore.store R) : room l 1 (size r) st -> RecordStore.append size l d r st = Ok st' ->
  st' = insert_row size r st.
Proof.
  intros Hroom. unfold RecordStore.append. intros H. apply bind_Ok_inv in H as (? & _ & H). apply bind_Ok_inv in H as (? & _ & H).
  destruct d; [done|]. injection H as <-. by rewrite prune_room.
Qed.

Section Complete.
Context {U : Unicode} {D : Dumps} (cfg : settings).
Hypothesis sizes : forall a, 0 <= alert_bytes a.

(** What is left of a budget *)
Definition left_room (b : budget) (s : analyzer) : Prop :=
  0 <= bu_records b <= MAX_DERIVED_RECORDS_PER_INGEST /\ 0 <= bu_bytes b <= MAX_DERIVED_BYTES_PER_INGEST /\
  room (se_limits cfg) (MAX_DERIVED_RECORDS_PER_INGEST - bu_records b) (MAX_DERIVED_BYTES_PER_INGEST - bu_bytes b) (an_alerts s).

(** Only alerts were added. *)
Definition added (s s' : analyzer) : Prop :=
  (exists new, st_rows (an_alerts s') = st_rows (an_alerts s) ++ new) /\ an_results s' = an_results s /\ an_reports s' = an_reports s.

Lemma added_refl s : added s s.
Proof. split; [exists []; by rewrite app_nil_r|done]. Qed.

Lemma added_trans s1 s2 s3 : added s1 s2 -> added s2 s3 -> added s1 s3.
Proof.
  intros [[n1 E1] [R1 P1]] [[n2 E2] [R2 P2]]. split; [exists (n1 ++ n2); by rewrite E2, E1, app_assoc|split; congruence].
Qed.

Lemma added_ids s s' id : added s s' -> id ∈ alert_ids (an_alerts s) -> id ∈ alert_ids (an_alerts s').
Proof. intros [[new E] _] Hid. unfold alert_ids. rewrite E, fmap_app. apply elem_of_app. by left. Qed.

(** One append: the alert is there afterwards, unless the budget is exceeded. *)
Lemma append_alert_spec b a s ok b' s' : left_room b s -> append_alert cfg b a s = (Ok (ok, b'), s') ->
  added s s' /\ left_room b' s' /\
  (if (ok : bool) then al_alert_id (sa_alert a) ∈ alert_ids (an_alerts s') /\ bu_truncated b' = bu_truncated b /\ bu_reason b' = bu_reason b
   else bu_truncated b' = true).
Proof.
  intros Hroom. unfold append_alert, budget_append, find_in, io_bind, io_get.
  destruct (RecordStore.find_one _ _ _ _) as [q|] eqn:Ef.
  { intros [= <- <- <-]. split; [apply added_refl|]. split; [done|]. split; [|done].
    unfold RecordStore.find_one in Ef. destruct (field_name _); [|done]. apply fmap_Some in Ef as (r & Er & ->).
    apply select_one_Some in Er as [Hf Hr]. rewrite elem_of_rev in Hr. unfold field_is, alert_table, ta_field, field_named in Hf.
    apply bool_decide_eq_true in Hf. rewrite bool_decide_true in Hf by done. injection Hf as Hf.
    rewrite <-Hf. unfold alert_ids. apply list_elem_of_fmap. exists r. split; [reflexivity|exact Hr]. }
  cbv zeta. destruct (_ || _) eqn:Efull.
  { intros [= <- <- <-]. split; [apply added_refl|]. split; [exact Hroom|done]. }
  apply orb_false_iff in Efull as [F1%Z.leb_gt F2%Z.ltb_ge].
  unfold append_to. destruct (match an_disk s with [] => _ | _ => _ end) as [fate disk]. cbv zeta.
  destruct (RecordStore.append _ _ _ _ _) as [st|e] eqn:Ea; [|done]. intros [= <- <- <-].
  destruct Hroom as (Hr & Hb & Hrows & Hbytes). cbn [ta_size alert_table] in *. pose proof (sizes a) as Ha.
  change (ta_get alert_table (s <| an_disk := disk |>)) with (an_alerts s) in Ea.
  apply append_room in Ea; [|split; [destruct Hrows as [?|[? ?]]|destruct Hbytes as [?|[? ?]]]; first [by left|right; split; [done|lia]]].
  subst st. set (st' := insert_row alert_bytes a (an_alerts s)).
  assert (Hput : an_alerts (s <| an_disk := disk |> <| an_alerts := st' |>) = st') by reflexivity.
  split; [split; [eexists; reflexivity|done]|]. split.
  - unfold left_room. cbn [bu_records bu_bytes]. split; [lia|]. split; [lia|]. unfold room. rewrite Hput. subst st'. unfold insert_row.
    cbn [st_row_count st_total_bytes]. split; [destruct Hrows as [?|[? ?]]|destruct Hbytes as [?|[? ?]]]; first [by left|right; split; [done|lia]].
  - split; [|done]. rewrite Hput. unfold alert_ids, st', insert_row. cbn [st_rows]. rewrite fmap_app. apply elem_of_app. right. by left.
Qed.

Lemma append_alerts_spec alerts : forall b s kept b' s', left_room b s -> append_alerts cfg b alerts s = (Ok (kept, b'), s') ->
  added s s' /\ left_room b' s' /\
  (forall a, a ∈ kept -> a ∈ alerts /\ al_alert_id (sa_alert a) ∈ alert_ids (an_alerts s')) /\
  (bu_truncated b' = false -> kept = alerts /\ bu_truncated b = false /\ bu_reason b' = bu_reason b).
Proof.
  induction alerts as [|a alerts IH]; intros b s kept b' s' Hroom E; cbn [append_alerts] in E.
  { injection E as <- <- <-. split; [apply added_refl|]. split; [done|]. split; [|done]. intros a Ha. by apply not_elem_of_nil in Ha. }
  unfold io_bind at 1 in E. destruct (append_alert cfg b a s) as [[[ok b1]|e] s1] eqn:E1; [|done].
  destruct (append_alert_spec _ _ _ _ _ _ Hroom E1) as (Hadd & Hroom1 & Hok). cbn [fst snd] in E. destruct ok; cbn [negb] in E.
  - unfold io_bind in E. destruct (append_alerts cfg b1 alerts s1) as [[[kept1 b2]|e] s2] eqn:E2; [|done]. injection E as <- <- <-.
    destruct (IH _ _ _ _ _ Hroom1 E2) as (Hadd2 & Hroom2 & Hk & Ht). destruct Hok as (Hid & Ht1 & Hr1).
    split; [by eapply added_trans|]. split; [done|]. split.
    + intros x [->|Hx]%elem_of_cons; [split; [by left|by eapply added_ids]|]. destruct (Hk x Hx). split; [by right|done].
    + intros Hf. destruct (Ht Hf) as (-> & Hf1 & Hr2). split; [done|]. split; congruence.
  - injection E as <- <- <-. split; [done|]. split; [done|]. split; [intros x Hx; by apply not_elem_of_nil in Hx|]. intros Hf. congruence.
Qed.

Lemma note_limit_left l b s : left_room b s -> left_room (note_limit l b) s.
Proof. unfold note_limit. by destruct (cl_truncated l). Qed.

Lemma note_limit_false l b : bu_truncated (note_limit l b) = false -> cl_truncated l = false /\ note_limit l b = b.
Proof. unfold note_limit. by destruct (cl_truncated l). Qed.

Lemma budget_outcome_complete b : oc_status (budget_outcome b []) = R_COMPLETE -> bu_truncated b = false.
Proof. unfold budget_outcome. cbn. destruct (truthy _ || bu_truncated b) eqn:E; [done|]. by apply orb_false_iff in E as [_ ?]. Qed.

(** The identifier of the alert of an indicator in a batch *)
Definition indicator_alert_id (batch : trace_batch) (k : IndicatorType * str) : str :=
  trim (bounded_id (u "alert-ioc-" ++ tb_batch_id batch ++ u "-" ++ indicator_value k.1 ++ u "-" ++ k.2)).

Lemma validate_alert_id a a' : validate_alert a = Ok a' -> al_alert_id a' = trim (al_alert_id a).
Proof. unfold validate_alert. cbv zeta. match goal with |- (if ?b then _ else _) = _ -> _ => destruct b; [|done] end. by intros [= <-]. Qed.

Lemma traverse_elem {A B} (f : A -> res B) l ys x : traverse f l = Ok ys -> x ∈ l -> exists y, f x = Ok y /\ y ∈ ys.
Proof.
  revert ys. induction l as [|z l IH]; intros ys Ht Hx; [by apply not_elem_of_nil in Hx|]. cbn [traverse] in Ht.
  apply bind_Ok_inv in Ht as (y & Ey & Ht). apply bind_Ok_inv in Ht as (zs & Ez & Ht). injection Ht as <-.
  apply elem_of_cons in Hx as [->|Hx]; [exists y; split; [done|by left]|].
  destruct (IH _ Ez Hx) as (w & Ew & Hw). exists w. split; [done|by right].
Qed.

(** Without truncation every indicator that was hit has its alert. *)
Lemma trace_alerts_cover batch index l ioc l' : cl_truncated l' = false -> correlate_trace_batch batch index l = Ok (ioc, l') ->
  forall h, h ∈ hits_of (tb_events batch) -> exists a, a ∈ ioc /\ al_alert_id a = indicator_alert_id batch (hit_key h).
Proof.
  intros Hl E h Hh. unfold correlate_trace_batch in E. destruct (collect_trace_spec (tb_events batch) l) as (groups & Ec & Eg). rewrite Ec in E.
  apply bind_Ok_inv in E as (alerts & Et & E). injection E as <- <-.
  destruct (Nat.ltb_spec max_alerts_per_ingest (length (first_seen (hit_key <$> hits_of (tb_events batch))))) as [Hlt|Hle]; [done|].
  rewrite take_ge in Eg by done.
  assert (Hk : hit_key h ∈ first_seen (hit_key <$> hits_of (tb_events batch))) by (apply first_seen_elem; by apply list_elem_of_fmap_2).
  destruct (traverse_elem _ _ _ (hit_key h, group_of (hit_key h) (base.filter (fun h' => hit_key h' = hit_key h) (hits_of (tb_events batch)))) Et)
    as (a & Ea & Ha).
  { rewrite Eg. apply list_elem_of_fmap. by exists (hit_key h). }
  exists a. split; [done|]. unfold alert_for_group in Ea. by rewrite (validate_alert_id _ _ Ea).
Qed.

(** The index of the recent reports *)
Definition trace_index (s : analyzer) : list (str * str) :=
  ip_host_index ((fun r => (rp_host_id r, rp_ip_addrs r)) <$> RecordStore.tail (se_limits cfg) (an_reports s) CROSS_SOURCE_WINDOW 0).

(** What a complete correlation did. *)
Lemma correlate_complete batch s o s' : left_room empty_budget s -> correlate cfg batch s = (Ok o, s') -> oc_status o = R_COMPLETE ->
  added s s' /\ exists ioc l cross l',
    correlate_trace_batch batch (Some (trace_index s)) fresh_corr = Ok (ioc, l) /\ cl_truncated l = false /\
    cross_source_alerts (tb_batch_id batch) (tb_collected_at batch) (for_correlation <$> RecordStore.tail (se_limits cfg) (an_results s) CROSS_SOURCE_WINDOW 0) ioc l
      = Ok (cross, l') /\ cl_truncated l' = false /\
    forall a, a ∈ ioc ++ cross -> al_alert_id a ∈ alert_ids (an_alerts s').
Proof.
  intros Hroom E Ho. unfold correlate, recent, io_bind at 1, io_get in E. cbv zeta in E.
  change (correlate_trace_batch batch (Some _) fresh_corr) with (correlate_trace_batch batch (Some (trace_index s)) fresh_corr) in E.
  destruct (correlate_trace_batch batch (Some (trace_index s)) fresh_corr) as [[ioc l]|e] eqn:Et; [|injection E as <- <-; done].
  unfold io_bind at 1 in E. destruct (append_new cfg _ ioc s) as [[[kept b1]|e] s1] eqn:E1; [|done]. cbv zeta in E.
  unfold append_new in E1. destruct (append_alerts_spec _ _ _ _ _ _ (note_limit_left l _ _ Hroom) E1) as (Hadd1 & Hroom1 & _ & Ht1).
  pose proof Hadd1 as (_ & Hres & _). unfold io_bind at 1 in E. cbn [ta_get result_table] in E. rewrite Hres in E.
  destruct (cross_source_alerts _ _ _ _ _) as [[cross l']|e] eqn:Ex in E; [|injection E as <- <-; done].
  unfold io_bind in E. destruct (append_new cfg (note_limit l' b1) cross s1) as [[[kept2 b2]|e] s2] eqn:E2; [|done]. cbn [snd] in E. injection E as <- <-.
  unfold append_new in E2. destruct (append_alerts_spec _ _ _ _ _ _ (note_limit_left l' _ _ Hroom1) E2) as (Hadd2 & _ & Hk2 & Ht2).
  apply budget_outcome_complete in Ho. destruct (Ht2 Ho) as (-> & Hn2 & _). apply note_limit_false in Hn2 as [Hl' Hn2].
  assert (Hb1 : bu_truncated b1 = false) by (rewrite <-Hn2; by destruct (Ht2 Ho) as (_ & ? & _)).
  destruct (Ht1 Hb1) as (Hkept & Hn1 & _). apply note_limit_false in Hn1 as [Hl _]. subst kept.
  split; [by eapply added_trans|]. exists ioc, l, cross, l'. split; [done|]. split; [done|]. split; [|split; [done|]].
  { rewrite <-Ex. f_equal. rewrite <-list_fmap_compose. unfold compose. cbn. by rewrite list_fmap_id. }
  intros a [Ha|Ha]%elem_of_app.
  - eapply added_ids; [exact Hadd2|]. destruct (append_alerts_spec _ _ _ _ _ _ (note_limit_left l _ _ Hroom) E1) as (_ & _ & Hk1 & _).
    by destruct (Hk1 (new_alert a) (list_elem_of_fmap_2 _ _ _ Ha)).
  - by destruct (Hk2 (new_alert a) (list_elem_of_fmap_2 _ _ _ Ha)).
Qed.
End Complete.

(** Appending the raw batch changes neither alerts, results nor reports. *)
Lemma raw_trace_append {D : Dumps} cfg (persist : bool) batch s r s1 :
  (if persist then append_to cfg trace_table batch else io_ret tt) s = (r, s1) ->
  an_alerts s1 = an_alerts s /\ an_results s1 = an_results s /\ an_reports s1 = an_reports s.
Proof.
  destruct persist; [|by intros [= _ <-]]. unfold append_to. destruct (match an_disk s with [] => _ | _ => _ end) as [fate disk].
  cbv zeta. destruct (RecordStore.append _ _ _ _ _); by intros [= _ <-].
Qed.

