(* ===== verification/PassProps.v ===== *)
(** * Complete detection is truthful

    One detection pass runs the scanner findings, the Kali matcher, the corpus
    accounting, the OSV join and the merge.  When its result counts as complete,
    none of them left anything out.  Then what processing an envelope again does. *)

From stdpp Require Import base gmap sets strings numbers list.
From Stdlib Require Import ZArith Lia.
From S2P Require Import Prelude PyText PyFloat Tables Compare Versioning Severity Osv Detect DetectProps Coverage Correlate Guard CorrelateProps Lifecycle Lineage RecordStore KaliTracker Kali KaliProps Envelopes Derived DerivedProps.

#[local] Open Scope Z_scope.

(** ** Reasons *)

(** An incomplete limit state says why. *)
Definition explained (l : limit_state) : Prop :=
  match ls_incomplete_reason l with None => ls_incomplete l = false | Some [] => False | Some _ => True end.

Lemma explained_fresh : explained fresh_limit.
Proof. done. Qed.
Lemma explained_mark r l : explained l -> explained (mark r l).
Proof. done. Qed.
Lemma explained_incomplete c r l : explained l -> explained (mark_incomplete (c :: r) l).
Proof. unfold explained. cbn. by destruct (ls_incomplete_reason l) as [[|]|]. Qed.
#[local] Hint Resolve explained_fresh explained_mark explained_incomplete : core.

Lemma explained_none l : explained l -> truthy (ls_incomplete_reason l) = false -> ls_incomplete l = false.
Proof. unfold explained, truthy. by destruct (ls_incomplete_reason l) as [[|]|]. Qed.

Section Explained.
Context {U : Unicode} `{Packaging} (finding_bytes : vulnerability -> Z) (lookup : str -> str -> list osv_record) (max_findings max_bytes : Z).

Lemma explained_entries p r cmp entries : forall d, explained (dt_limit d) ->
  explained (dt_limit (end_of (match_entries finding_bytes max_findings max_bytes p r cmp entries d))).
Proof.
  induction entries as [|e es IH]; intros d Hd; cbn [match_entries]; [done|].
  destruct (is_version_affected _ _ _ _) as [[[] fixed]|]; [|by apply IH|done]. cbv zeta. destruct (bool_decide _); [by apply IH|].
  destruct (to_vulnerability _ _ _ _); [|done]. cbv zeta. by destruct (_ || _).
Qed.

Lemma explained_records p eco cmp records : forall d, explained (dt_limit d) ->
  explained (dt_limit (end_of (match_records finding_bytes max_findings max_bytes p eco cmp records d))).
Proof.
  induction records as [|r rs IH]; intros d Hd; cbn [match_records]; [done|].
  pose proof (explained_entries p r cmp (affected_entries r eco (pk_name p)) d Hd) as He.
  destruct (match_entries _ _ _ _ _ _ _ _); cbn [end_of] in *; [by apply IH|done|]. apply IH. by apply (explained_incomplete 111%N).
Qed.

Lemma explained_assets ecosystem assets : forall d, explained (dt_limit d) ->
  explained (dt_limit (match_assets finding_bytes lookup max_findings max_bytes ecosystem assets d)).
Proof.
  induction assets as [|[p|] assets IH]; intros d Hd; cbn [match_assets]; [done| |by apply IH].
  destruct (package_ecosystem p ecosystem); [|by apply IH].
  match goal with |- context [match_records ?a ?b ?c ?p ?e ?f ?g ?d] => pose proof (explained_records p e f g d Hd) as He; destruct (match_records a b c p e f g d) end;
    cbn [end_of] in He; [by apply IH|done..].
Qed.

Lemma explained_scanner vs : forall acc consumed l, explained l -> explained (scanner_loop finding_bytes max_findings max_bytes vs acc consumed l).2.
Proof.
  induction vs as [|v vs IH]; intros acc consumed l Hl; cbn [scanner_loop]; [done|].
  destruct (negb _); [apply IH; by apply (explained_incomplete 117%N)|]. cbv zeta. destruct (_ || _); [done|by apply IH].
Qed.

Lemma explained_kali store os assets l d l' : explained l -> detect_kali_packages finding_bytes max_findings max_bytes store os assets l = Ok (d, l') -> explained l'.
Proof.
  unfold detect_kali_packages. intros Hl E. apply bind_Ok_inv in E as ([stop s] & Em & E). injection E as _ <-.
  assert (Hs : explained (pg_limit s)).
  { clear -Em Hl. revert Em. generalize (mkProgress [] 0 0 0 l) (eq_refl : pg_limit (mkProgress [] 0 0 0 l) = l).
    intros s0 Hs0. rewrite <-Hs0 in Hl. clear Hs0. revert s0 Hl.
    assert (Ha : forall key ps p groups s0 r, explained (pg_limit s0) ->
      match_advisories finding_bytes max_findings max_bytes key ps p groups s0 = Ok r -> explained (pg_limit r.2)).
    { intros key ps p. induction groups as [|[id rows] groups IH]; intros s0 r Hs E; cbn [match_advisories] in E; [by injection E as <-|].
      apply bind_Ok_inv in E as ([af un] & _ & E). cbv zeta in E.
      assert (Hs1 : explained (pg_limit (if un then s0 <| pg_incomplete := pg_incomplete s0 + 1 |> else s0))) by (by destruct un).
      destruct (_ || _); [by eapply IH|]. apply bind_Ok_inv in E as (f & _ & E). cbv zeta in E.
      destruct (_ || _); [|by eapply IH; [|exact E]]. injection E as <-. by apply explained_mark. }
    induction (group_by source_key (kali_candidates os assets)) as [|[key packages] groups IH]; intros s0 Hs E; cbn [match_groups] in E; [by injection E as _ <-|].
    destruct (tracker_lookup _ _ _) as [|r0 rows]; [by eapply IH|]. destruct packages as [|p rest]; [by eapply IH|].
    cbv zeta in E. apply bind_Ok_inv in E as ([st s1] & E1 & E). apply Ha in E1; [|done]. cbn [fst snd] in *.
    destruct st; [by injection E as _ <-|by eapply IH]. }
  destruct (negb stop && negb (pg_incomplete s =? 0)); [by apply (explained_incomplete 100%N)|done].
Qed.
End Explained.

(** ** The pass *)
Section Pass.
Context {U : Unicode} `{Packaging} {D : Dumps} (cfg : settings).

Lemma first_truthy_none xs : first_truthy xs = None -> forall x, x ∈ xs -> truthy x = false.
Proof.
  induction xs as [|y xs IH]; intros E x Hx; [by apply not_elem_of_nil in Hx|]. cbn [first_truthy] in E.
  destruct (truthy y) eqn:Ey; [by subst y|]. apply elem_of_cons in Hx as [->|Hx]; [done|by apply IH].
Qed.

(** What each part contributed to a result that counts as complete. *)
Record complete_parts (report : asset_report) (result : DetectionResult) (malware : list vulnerability)
    (tracker : KaliTrackerDetection) (osv : osv_pass) (limits : list limit_state) : Prop := {
  cp_malware : exists l, scanner_findings finding_size max_findings_default max_finding_bytes_default (rp_vulnerabilities report) fresh_limit = (malware, l) /\ l ∈ limits;
  cp_tracker : exists l why, detect_kali_packages finding_size max_findings_default max_finding_bytes_default (se_tracker cfg) (rp_host_os report) (rp_assets report) fresh_limit = Ok (tracker, l) /\ l ∈ limits /\
    merge_kali_tracker_status (se_now cfg) tracker (se_tracker cfg) l
      (pc_total (package_coverage (nonempty (default [] (resolve_ecosystem (rp_host_os report) (se_osv_ecosystem cfg)))) (se_osv_synced cfg) (to_asset <$> kd_osv_assets tracker)))
      (op_status osv) (op_reason osv) = (S_COMPLETE, why);
  cp_osv : osv = osv_part cfg
    (package_coverage (nonempty (default [] (resolve_ecosystem (rp_host_os report) (se_osv_ecosystem cfg)))) (se_osv_synced cfg) (to_asset <$> kd_osv_assets tracker))
    (kd_candidate_count tracker) (nonempty (default [] (resolve_ecosystem (rp_host_os report) (se_osv_ecosystem cfg)))) /\ op_limit osv ∈ limits;
  cp_combine : exists l, combine_findings finding_size MAX_DERIVED_VULNERABILITIES max_finding_bytes_default (op_vulns osv ++ kd_findings tracker) malware fresh_limit
    = (re_vulnerabilities result, l) /\ l ∈ limits;
  cp_limits : forall l, l ∈ limits -> ls_truncated l = false /\ truthy (ls_incomplete_reason l) = false;
}.

Lemma validate_result_fields r r' : validate_result r = Ok r' ->
  re_detection_status r' = re_detection_status r /\ re_truncated r' = re_truncated r /\ re_vulnerabilities r' = re_vulnerabilities r.
Proof. unfold validate_result. cbv zeta. match goal with |- (if ?b then _ else _) = _ -> _ => destruct b; [|done] end. by intros [= <-]. Qed.

Lemma pass_complete report result reason : detection_pass cfg report = Ok (result, reason) -> result_status result = R_COMPLETE ->
  exists malware tracker osv limits, complete_parts report result malware tracker osv limits.
Proof.
  unfold detection_pass. intros E Hr. destruct (scanner_findings _ _ _ _ _) as [malware sl] eqn:Es. cbv zeta in E.
  apply bind_Ok_inv in E as ([tracker tl] & Et & E).
  match type of E with context [osv_part cfg ?c ?n ?e] => set (osv := osv_part cfg c n e) in E end.
  destruct (merge_kali_tracker_status _ _ _ _ _ _) as [st why] eqn:Em.
  destruct (combine_findings _ _ _ _ _ _) as [vulns cl] eqn:Ec.
  set (limits := [op_limit osv; tl; sl; cl]) in *.
  destruct (existsb ls_truncated limits) eqn:Ex; destruct (first_truthy (ls_incomplete_reason <$> limits)) as [why2|] eqn:Ef.
  1-3: exfalso; destruct st; apply bind_Ok_inv in E as (r & Ev & E); injection E as <- _; apply validate_result_fields in Ev as (Ev1 & Ev2 & _);
    unfold result_status in Hr; rewrite Ev1, Ev2 in Hr; done.
  apply bind_Ok_inv in E as (r & Ev & E). injection E as <- _. apply validate_result_fields in Ev as (Ev1 & Ev2 & Ev3).
  cbn [re_detection_status re_truncated re_vulnerabilities] in Ev1, Ev2, Ev3.
  assert (st = S_COMPLETE) as ->. { unfold result_status in Hr. rewrite Ev1 in Hr. by destruct st. }
  exists malware, tracker, osv, limits. split.
  - exists sl. split; [done|]. subst limits. set_solver.
  - exists tl, why. split; [done|]. split; [subst limits; set_solver|exact Em].
  - split; [done|]. subst limits. set_solver.
  - exists cl. rewrite Ev3. split; [exact Ec|]. subst limits. set_solver.
  - intros l Hl. split.
    + destruct (ls_truncated l) eqn:El; [|done]. rewrite (proj2 (existsb_exists _ _)) in Ex; [done|]. exists l. by rewrite <-list_elem_of_In.
    + eapply first_truthy_none; [exact Ef|]. by apply list_elem_of_fmap_2.
Qed.

(** The merged status is complete only if the one before was, or nothing was left
    for OSV. *)
Lemma merge_from now result store limit osv current reason why :
  merge_kali_tracker_status now result store limit osv current reason = (S_COMPLETE, why) ->
  current = S_COMPLETE \/ (current = S_DISABLED /\ osv = 0).
Proof.
  unfold merge_kali_tracker_status. destruct current; try (by left); cbn [orb];
    repeat match goal with |- (if ?b then _ else _) = _ -> _ => destruct b eqn:? end; try done;
    repeat match goal with |- context [if ?b then _ else _] => destruct b eqn:? end; intros; simplify_eq; right; split; [done|lia].
Qed.

Lemma osv_part_complete coverage candidates ecosystem : op_status (osv_part cfg coverage candidates ecosystem) = S_COMPLETE ->
  0 < se_osv_record_count cfg /\ (exists known, se_osv_synced cfg = Some known) /\
  pc_unresolved coverage = 0 /\ pc_uncovered coverage = 0 /\
  osv_part cfg coverage candidates ecosystem = osv_match cfg coverage ecosystem S_COMPLETE None /\
  (op_vulns (osv_part cfg coverage candidates ecosystem), op_limit (osv_part cfg coverage candidates ecosystem))
    = detect_report finding_size (se_osv_lookup cfg) max_findings_default max_finding_bytes_default ecosystem (APackage <$> pc_detection_packages coverage) fresh_limit.
Proof.
  unfold osv_part. destruct (Z.leb_spec (se_osv_record_count cfg) 0); [done|].
  assert (Hpartial : forall r, op_status (osv_match cfg coverage ecosystem S_PARTIAL r) <> S_COMPLETE).
  { intros r. unfold osv_match. destruct (se_osv_error cfg) as [[]|]; [done|]. destruct (detect_report _ _ _ _ _ _ _).
    by repeat match goal with |- context [if ?b then _ else _] => destruct b end. }
  destruct ((pc_total coverage =? 0) && (candidates =? 0)); [|destruct (se_osv_synced cfg) as [known|]];
    (destruct (negb (pc_total coverage =? 0) && (pc_resolved coverage =? 0)); [done|]);
    (destruct ((pc_unsupported coverage =? pc_resolved coverage) && (0 <? pc_unsupported coverage)); [done|]);
    (destruct ((pc_uncovered coverage =? pc_resolved coverage) && (0 <? pc_uncovered coverage)); [done|]);
    intros E; try (by apply Hpartial in E).
  split; [done|]. split; [by exists known|]. unfold osv_match in *. destruct (se_osv_error cfg) as [[]|]; [done|].
  destruct (detect_report _ _ _ _ _ _ _) as [vulns l].
  destruct (Z.eqb_spec (pc_unsupported coverage) 0); cbn [negb] in E |- *; [|done].
  destruct (Z.eqb_spec (pc_uncovered coverage) 0); cbn [negb] in E |- *; [|done].
  destruct (Z.eqb_spec (pc_unresolved coverage) 0); cbn [negb] in E |- *; [|done].
  cbn in *. done.
Qed.

(** With nothing unresolved and nothing uncovered every package is matched. *)
Lemma all_covered dflt synced assets p : pc_unresolved (package_coverage dflt synced assets) = 0 -> pc_uncovered (package_coverage dflt synced assets) = 0 ->
  APackage p ∈ assets -> APackage p ∈ APackage <$> pc_detection_packages (package_coverage dflt synced assets) /\ package_ecosystem p dflt <> None.
Proof.
  unfold package_coverage. cbn [pc_unresolved pc_uncovered pc_detection_packages]. unfold count_class. intros Hu Hn Hp.
  assert (Hin : p ∈ packages_of assets) by (unfold packages_of; apply list_elem_of_omap; by exists (APackage p)).
  assert (Hnone : forall q : package_class -> bool, Z.of_nat (length (base.filter (fun p => q (classify dflt synced p).2 = true) (packages_of assets))) = 0 -> q (classify dflt synced p).2 = false).
  { intros q Hq. destruct (q (classify dflt synced p).2) eqn:E; [|done].
    assert (Hf : p ∈ base.filter (fun p => q (classify dflt synced p).2 = true) (packages_of assets)) by (by apply list_elem_of_filter).
    apply (Nat2Z.inj _ 0), nil_length_inv in Hq. rewrite Hq in Hf. by apply not_elem_of_nil in Hf. }
  apply Hnone in Hu. apply Hnone in Hn. split.
  - apply list_elem_of_fmap_2, list_elem_of_filter. split; [|done]. by destruct (classify dflt synced p).2.
  - unfold classify in Hu. by destruct (package_ecosystem p dflt).
Qed.
End Pass.

Section Truth.
Context {U : Unicode} `{Packaging} {D : Dumps} (class_name : exn -> str) (cfg : settings).

(** What a complete result promises of its report. *)
Definition covers (report : asset_report) (result : DetectionResult) : Prop :=
  let dflt := nonempty (default [] (resolve_ecosystem (rp_host_os report) (se_osv_ecosystem cfg))) in
  (forall v, v ∈ rp_vulnerabilities report -> v ∈ re_vulnerabilities result) /\
  (forall p, APackage p ∈ to_asset <$> remaining_assets (rp_host_os report) (rp_assets report) ->
     exists eco, package_ecosystem p dflt = Some eco /\
       forall r, r ∈ se_osv_lookup cfg eco (pk_name p) -> affects p eco r ->
         exists f, f ∈ re_vulnerabilities result /\ vu_affected_asset_id f = trim (pk_asset_id p) /\ vu_id f = trim (primary_id r)) /\
  (forall p, p ∈ kali_candidates (rp_host_os report) (rp_assets report) ->
     tracker_lookup (se_tracker cfg) (source_key p).1.2 (source_key p).2 <> [] /\
     forall row, affecting (se_tracker cfg) p row ->
       exists p' v, source_key p' = source_key p /\ v ∈ re_vulnerabilities result /\ names v p' row).

Lemma scanner_all vs malware l : scanner_findings finding_size max_findings_default max_finding_bytes_default vs fresh_limit = (malware, l) ->
  ls_truncated l = false -> truthy (ls_incomplete_reason l) = false -> malware = vs.
Proof.
  intros E Ht Hr. pose proof (explained_scanner finding_size max_findings_default max_finding_bytes_default vs [] 0 fresh_limit explained_fresh) as Hx.
  pose proof (scanner_loop_spec finding_size max_findings_default max_finding_bytes_default vs [] fresh_limit (fits_nil _ _ _)) as Hs.
  unfold scanner_findings in E. cbn [sum_bytes foldr] in Hs. rewrite E in Hx, Hs. apply explained_none in Hr; [|done].
  destruct Hs as (kept & rest & -> & -> & _ & Hi & [[-> _]|[_ Hc]]); [|congruence]. rewrite Hr in Hi. cbn [ls_incomplete fresh_limit orb] in Hi.
  apply eq_sym, negb_false_iff in Hi. rewrite app_nil_r. cbn [app]. apply filter_all. intros v Hv.
  rewrite forallb_forall in Hi. apply Hi. by apply list_elem_of_In.
Qed.

Lemma combine_all osv scanner out l : combine_findings finding_size MAX_DERIVED_VULNERABILITIES max_finding_bytes_default osv scanner fresh_limit = (out, l) ->
  ls_truncated l = false -> out = osv ++ scanner.
Proof.
  intros E Ht. pose proof (combine_loop_spec finding_size MAX_DERIVED_VULNERABILITIES max_finding_bytes_default (osv ++ scanner) [] fresh_limit (fits_nil _ _ _)) as Hc.
  unfold combine_findings in E. cbn [sum_bytes foldr] in Hc. rewrite E in Hc.
  destruct Hc as (kept & rest & -> & -> & _ & [[-> _]|[_ Hc]]); [by rewrite app_nil_r|congruence].
Qed.

(** An OSV pass without flags found every advisory that affects a package. *)
Lemma osv_all eco assets vulns l : detect_report finding_size (se_osv_lookup cfg) max_findings_default max_finding_bytes_default eco assets fresh_limit = (vulns, l) ->
  ls_truncated l = false -> truthy (ls_incomplete_reason l) = false ->
  forall p e r, APackage p ∈ assets -> package_ecosystem p eco = Some e -> r ∈ se_osv_lookup cfg e (pk_name p) -> affects p e r ->
    exists f, f ∈ vulns /\ vu_affected_asset_id f = trim (pk_asset_id p) /\ vu_id f = trim (primary_id r).
Proof.
  unfold detect_report. intros [= <- <-] Ht Hr p e r Hp He Hl Ha.
  pose proof (explained_assets finding_size (se_osv_lookup cfg) max_findings_default max_finding_bytes_default eco assets (no_detection fresh_limit) explained_fresh) as Hx.
  apply explained_none in Hr; [|done]. destruct (no_detection_ok finding_size max_findings_default max_finding_bytes_default fresh_limit) as [Hw Hs].
  destruct (match_assets_spec finding_size (se_osv_lookup cfg) max_findings_default max_finding_bytes_default eco assets (no_detection fresh_limit) Hw Hs) as (_ & _ & Hsf & _ & Hk).
  destruct Hk as [[?|?]|Hk]; [congruence..|]. destruct Hsf as [[?|?]|Hsf]; [congruence..|].
  rewrite List.Forall_forall in Hsf. exact (Hsf _ (proj1 (list_elem_of_In _ _) (Hk p e r Hp He Hl Ha))).
Qed.

Lemma pass_covers report result reason : detection_pass cfg report = Ok (result, reason) -> result_status result = R_COMPLETE -> covers report result.
Proof.
  intros E Hr. destruct (pass_complete cfg _ _ _ E Hr) as (malware & tracker & osv & limits & [Hm Ht Ho Hc Hl]).
  destruct Hm as (sl & Esl & Hsl). destruct (Hl _ Hsl) as [Hs1 Hs2]. apply scanner_all in Esl; [|done..]. subst malware.
  destruct Hc as (cl & Ecl & Hcl). destruct (Hl _ Hcl) as [Hc1 _]. apply combine_all in Ecl; [|done].
  destruct Ht as (tl & why & Et & Htl & Em). destruct (Hl _ Htl) as [Ht1 Ht2]. destruct Ho as [Eo Hol]. destruct (Hl _ Hol) as [Ho1 Ho2].
  set (dflt := nonempty (default [] (resolve_ecosystem (rp_host_os report) (se_osv_ecosystem cfg)))) in *.
  unfold covers. rewrite Ecl. fold dflt. split; [|split].
  - intros v Hv. apply elem_of_app. by right.
  - intros p Hp. assert (Hassets : kd_osv_assets tracker = remaining_assets (rp_host_os report) (rp_assets report)).
    { unfold detect_kali_packages in Et. apply bind_Ok_inv in Et as ([? ?] & _ & Et). by injection Et as <- _. }
    rewrite Hassets in Em, Eo. destruct (merge_from _ _ _ _ _ _ _ _ Em) as [Hst|[_ Htot]].
    + rewrite Eo in Hst. apply osv_part_complete in Hst as (_ & _ & Hu & Hn & _ & Ed). rewrite <-Eo in Ed.
      destruct (all_covered _ _ _ p Hu Hn Hp) as [Hp' He]. destruct (package_ecosystem p dflt) as [eco|] eqn:Ee; [|done].
      exists eco. split; [done|]. intros r Hr' Ha. destruct (osv_all _ _ _ _ (eq_sym Ed) Ho1 Ho2 p eco r Hp' Ee Hr' Ha) as (f & Hf & Hrest).
      exists f. split; [|done]. apply elem_of_app. left. apply elem_of_app. by left.
    + exfalso. unfold package_coverage in Htot. cbn [pc_total] in Htot.
      assert (Hin : p ∈ packages_of (to_asset <$> remaining_assets (rp_host_os report) (rp_assets report)))
        by (unfold packages_of; apply list_elem_of_omap; by exists (APackage p)).
      apply (Nat2Z.inj _ 0), nil_length_inv in Htot. rewrite Htot in Hin. by apply not_elem_of_nil in Hin.
  - intros p Hp. destruct (detect_kali_inv _ _ _ _ _ _ _ _ _ Et) as (stop & s & Hg & Ef & Ec & Ev & Eu & Ei & El). rewrite Ht1 in El.
    assert (Hcount : kd_candidate_count tracker <> 0).
    { rewrite Ec. destruct (kali_candidates _ _); [by apply not_elem_of_nil in Hp|cbn; lia]. }
    destruct (merge_complete _ _ _ _ _ _ _ _ Hcount Em) as (_ & _ & _ & Hi & Hu).
    pose proof Hg as (new & _ & _ & Hd). destruct stop; [by rewrite Hd in El|]. destruct Hd as (_ & Hk & _). cbn in Hk. split.
    + destruct (group_of p _ Hp) as (p' & rest & Hin & _ & _). eapply (known_all (se_tracker cfg)); [|exact Hin]. rewrite group_by_length. lia.
    + intros row Hrow. destruct (examined_row _ _ _ _ _ _ _ _ p row eq_refl Hg Hp (proj1 Hrow)) as [_ H2].
      destruct (H2 Hrow) as (p' & v & _ & Hk' & Hv & Hn & _). exists p', v. split; [done|]. split; [|done].
      rewrite Ef. apply elem_of_app. left. apply elem_of_app. by right.
Qed.

Lemma pass_report_id report result reason : detection_pass cfg report = Ok (result, reason) -> re_report_id result = trim (rp_report_id report).
Proof.
  unfold detection_pass. intros Ep. repeat (match type of Ep with (let '(_, _) := ?x in _) = _ => destruct x end || cbv zeta in Ep).
  apply bind_Ok_inv in Ep as ([? ?] & _ & Ep). cbv zeta in Ep.
  repeat match type of Ep with (let '(_, _) := ?x in _) = _ => destruct x end. cbv zeta in Ep. apply bind_Ok_inv in Ep as (r & Ev & Ep). injection Ep as <- _.
  unfold validate_result in Ev. cbv zeta in Ev. match type of Ev with (if ?b then _ else _) = _ => destruct b; [|done] end. by injection Ev as <-.
Qed.

(** A first processing that did not fail stored its result last. *)
Lemma store_new_report report s o s' : store_asset_report class_name cfg report true s = (Ok o, s') -> oc_status o <> R_FAILED ->
  exists result reason, detection_pass cfg report = Ok (result, reason) /\ rw_payload <$> last (st_rows (an_results s')) = Some result /\
    re_report_id result = trim (rp_report_id report) /\ oc_status o = result_status result.
Proof.
  intros E Ho. unfold store_asset_report, io_bind in E. destruct (append_to cfg report_table report s) as [[[]|e] s1]; [|done].
  unfold detect_or_fail, io_try in E. destruct (auto_detect cfg report s1) as [[o1|e] s2] eqn:Ea; injection E as <- <-; [|by destruct Ho].
  unfold auto_detect, io_bind, io_lift in Ea. destruct (detection_pass cfg report) as [[result reason]|e] eqn:Ep; [|done].
  unfold budget_append, io_bind, io_ret in Ea. cbv zeta in Ea. destruct (_ || _); [done|].
  unfold append_to in Ea. destruct (match an_disk s1 with [] => _ | _ => _ end) as [fate disk]. cbv zeta in Ea.
  destruct (RecordStore.append _ _ _ _ _) as [st|e] eqn:Est; [|done]. cbn [fst negb] in Ea. injection Ea as <- <-.
  apply append_rows_sublist in Est as (old & q & Eq & Hq & _). exists result, reason. split; [done|]. split; [|split; [by eapply pass_report_id|done]].
  assert (Hput : an_results (s1 <| an_disk := disk |> <| an_results := st |>) = st) by reflexivity. rewrite Hput, Eq, last_snoc. cbn. by rewrite Hq.
Qed.

End Truth.

(** ** Processing an envelope again *)

Section Replay.
Context {U : Unicode} `{Packaging} {D : Dumps} (class_name : exn -> str) (cfg : settings).

(** A known alert costs nothing. *)
Lemma append_known b a s : al_alert_id (sa_alert a) ∈ alert_ids (an_alerts s) -> append_alert cfg b a s = (Ok (true, b), s).
Proof.
  intros Hid. unfold append_alert, budget_append, find_in, io_bind, io_get.
  destruct (RecordStore.find_one _ _ _ _) as [q|] eqn:Ef; [done|]. by apply find_in_alerts in Ef.
Qed.

Lemma append_all_known alerts : forall b s, (forall a, a ∈ alerts -> al_alert_id (sa_alert a) ∈ alert_ids (an_alerts s)) ->
  append_alerts cfg b alerts s = (Ok (alerts, b), s).
Proof.
  induction alerts as [|a alerts IH]; intros b s Hk; cbn [append_alerts]; [done|].
  unfold io_bind. rewrite append_known by (apply Hk; by left). cbn [fst snd negb]. rewrite IH by (intros; apply Hk; by right). done.
Qed.

(** Replaying a complete trace batch changes nothing: processed again over the
    same stores it ends complete, and leaves the analyzer as it was. *)
Theorem trace_replay_idempotent batch persist s o s' :
  (forall a, 0 <= alert_bytes a) ->
  room (se_limits cfg) MAX_DERIVED_RECORDS_PER_INGEST MAX_DERIVED_BYTES_PER_INGEST (an_alerts s) ->
  store_trace_batch class_name cfg batch persist s = (Ok o, s') -> oc_status o = R_COMPLETE ->
  store_trace_batch class_name cfg batch false s' = (Ok (mkOutcome R_COMPLETE 0 false None), s').
Proof.
  intros Hsizes Hroom E Ho. unfold store_trace_batch, io_bind in E.
  destruct ((if persist then append_to cfg trace_table batch else io_ret tt) s) as [[[]|e] s1] eqn:E1; [|done].
  destruct (raw_trace_append _ _ _ _ _ _ E1) as (Ha & _ & _).
  unfold io_try in E. destruct (correlate cfg (so_body batch) s1) as [[o1|e] s2] eqn:Ec; injection E as <- <-; [|done].
  assert (Hleft : left_room cfg empty_budget s1).
  { split; [done|]. split; [done|]. cbn [bu_records bu_bytes empty_budget]. rewrite !Z.sub_0_r, Ha. exact Hroom. }
  destruct (correlate_complete cfg Hsizes _ _ _ _ Hleft Ec Ho) as ((_ & Hres & Hrep) & ioc & l & cross & l' & Et & Hl & Ex & Hl' & Hids).
  assert (Hindex : trace_index cfg s2 = trace_index cfg s1) by (unfold trace_index; by rewrite Hrep).
  unfold store_trace_batch. unfold io_bind at 1, io_ret at 1, io_try.
  assert (Hc : correlate cfg (so_body batch) s2 = (Ok (mkOutcome R_COMPLETE 0 false None), s2)); [|by rewrite Hc].
  unfold correlate, recent, io_bind at 1, io_get. cbv zeta.
  change (correlate_trace_batch (so_body batch) (Some _) fresh_corr) with (correlate_trace_batch (so_body batch) (Some (trace_index cfg s2)) fresh_corr).
  rewrite Hindex, Et. unfold append_new, note_limit. rewrite Hl.
  assert (Hknown : forall alerts, (forall a, a ∈ alerts -> a ∈ ioc ++ cross) -> append_alerts cfg empty_budget (new_alert <$> alerts) s2 = (Ok (new_alert <$> alerts, empty_budget), s2)).
  { intros alerts Hal. apply append_all_known. intros a (x & -> & Hx)%list_elem_of_fmap. by apply Hids, Hal. }
  unfold io_bind at 1. rewrite Hknown by (intros a Hin; apply elem_of_app; by left). cbv zeta. unfold io_bind at 1. cbn [ta_get result_table].
  rewrite Hres, <-list_fmap_compose. unfold compose. cbn [sa_alert new_alert]. rewrite list_fmap_id, Ex. unfold note_limit. rewrite Hl'.
  unfold io_bind. rewrite Hknown by (intros a Hin; apply elem_of_app; by right). done.
Qed.

(** The detection result of a replayed report is the newest stored under its id. *)
Lemma store_known report r s : RecordStore.find_one (ta_field result_table) (an_results s) (u "report_id") (rp_report_id report) = Some r ->
  re_detection_status r <> S_FAILED -> store_asset_report class_name cfg report false s = (Ok (replayed r), s).
Proof.
  intros Hf Hst. unfold store_asset_report, io_bind, find_in, io_get. cbn [ta_get ta_field result_table] in *. rewrite Hf.
  destruct (re_detection_status r); done.
Qed.

(** A replayed report is answered with a stored result of the same report id,
    whoever sent that report: when a report's raw copy is stored and its detection
    was not, but another source's report of the same id has a result, processing it
    again runs no detection, stores nothing and ends with the other result's
    outcome. *)
Theorem replay_takes_any_result report raw r s :
  RecordStore.find_one (ta_field report_table) (an_reports s) (u "report_id") (rp_report_id report) = Some raw ->
  source_or_legacy (rp_source_agent_id raw) = source_or_legacy (rp_source_agent_id report) ->
  RecordStore.find_one (ta_field result_table) (an_results s) (u "report_id") (rp_report_id report) = Some r ->
  re_detection_status r <> S_FAILED ->
  process_envelope class_name cfg (E_report report) s = (Ok (replayed r), s).
Proof.
  intros Hraw Hsrc Hr Hst. unfold process_envelope, raw_already_stored. unfold io_bind at 1 2. unfold find_in at 1, io_get at 1.
  cbn [ta_get report_table] in *. rewrite Hraw. unfold io_ret at 1. rewrite bool_decide_true by done. cbn [negb]. by apply store_known.
Qed.

(** A partial outcome becomes complete by being replayed: a report whose
    detection finished untruncated has the outcome partial when a row of its coverage
    matrix is not settled, but once the result is stored, replaying the report gives
    the outcome complete. *)
Theorem replay_upgrades_partial report s o s' : trim (rp_report_id report) = rp_report_id report ->
  store_asset_report class_name cfg report true s = (Ok o, s') -> oc_status o = R_PARTIAL ->
  exists result, rw_payload <$> last (st_rows (an_results s')) = Some result /\
    (re_detection_status result = S_COMPLETE -> re_truncated result = false ->
     exists o', store_asset_report class_name cfg report false s' = (Ok o', s') /\ oc_status o' = R_COMPLETE).
Proof.
  intros Htrim E Ho. destruct (store_new_report _ _ _ _ _ _ E) as (result & reason & _ & Hlast & Hid & _); [congruence|]. rewrite Htrim in Hid.
  exists result. split; [done|]. intros Hst Ht. exists (replayed result). split; [|unfold replayed; cbn; by rewrite Hst, Ht].
  apply store_known; [|by rewrite Hst]. unfold RecordStore.find_one. replace (field_name (u "report_id")) with true by (vm_compute; reflexivity).
  unfold select_one, select_where. destruct (st_rows (an_results s')) as [|x rows _] eqn:E' using rev_ind; [done|].
  rewrite last_snoc in Hlast. cbn in Hlast. injection Hlast as Hlast.
  rewrite rev_app_distr. cbn [rev app]. rewrite filter_cons_True; [by cbn; rewrite Hlast|].
  unfold field_is. cbn [ta_field result_table]. apply bool_decide_eq_true. unfold field_named. rewrite bool_decide_true by done. by rewrite Hlast, Hid.
Qed.

(** A host name of an operating system can make detection impossible: when the
    ecosystem derived from it, such as [Debian:] followed by a long run of digits, is
    longer than an identifier may be, every attempt to process the report fails and
    stores no result. *)
Theorem long_ecosystem_fails report s :
  (max_correlation_identifier < length (trim (default [] (resolve_ecosystem (rp_host_os report) (se_osv_ecosystem cfg)))))%nat ->
  exists e, detect_or_fail class_name cfg report s = (Ok (failed_outcome class_name e), s).
Proof.
  intros Hlong. unfold detect_or_fail, io_try, auto_detect, io_bind, io_lift.
  assert (Hno : exists e, detection_pass cfg report = Raise e); [|destruct Hno as [e ->]; by exists e].
  destruct (detection_pass cfg report) as [[result reason]|e] eqn:Ep; [|by exists e]. exfalso.
  unfold detection_pass in Ep. repeat (match type of Ep with (let '(_, _) := ?x in _) = _ => destruct x end || cbv zeta in Ep).
  apply bind_Ok_inv in Ep as ([? ?] & _ & Ep). cbv zeta in Ep.
  repeat match type of Ep with (let '(_, _) := ?x in _) = _ => destruct x end. cbv zeta in Ep. apply bind_Ok_inv in Ep as (r & Ev & _).
  unfold validate_result in Ev. cbv zeta in Ev. match type of Ev with (if ?b then _ else _) = _ => destruct b eqn:Eb; [|done] end.
  cbn [re_ecosystem] in Eb. repeat (apply andb_true_iff in Eb as [Eb ?]). unfold short in *. apply Nat.leb_gt in Hlong. congruence.
Qed.
End Replay.
