(* ===== verification/DerivedExamples.v ===== *)
(** * Concrete envelopes

    The theorems about derived records applied to a small analyzer: one report, one
    trace batch and a corpus of one advisory. *)

From stdpp Require Import base gmap sets strings numbers list.
From Stdlib Require Import ZArith Lia.
From S2P Require Import Prelude PyText PyFloat Tables Lineage RecordStore Compare Versioning Severity Osv Detect DetectProps Coverage KaliTracker Kali Correlate Guard Lifecycle Envelopes Derived Ingest Defender DerivedProps PassProps.

#[local] Open Scope Z_scope.

Module Example.
(** No text is a PEP 440 version, and every dump has 100 bytes. *)
#[export] Instance no_python : Packaging := {| pep_version := unit; pep_parse _ := None; pep_lt _ _ := false |}.
#[export] Instance hundred : Dumps := {|
  report_bytes _ := 100; trace_bytes _ := 100; guard_bytes _ := 100; result_bytes _ := 100; alert_bytes _ := 100;
  mde_bytes _ := 100; mdvm_bytes _ := 100; finding_size _ := 100 |}.

Definition class_of (_ : exn) : str := u "Exception".
Definition cfg : settings :=
  mkSettings (mkLimits 0 0 0 0) None (Some [u "Debian"]) 1 advisories None (no_tracker None) 0.
Definition nothing : analyzer := mkAnalyzer empty_store empty_store empty_store empty_store empty_store empty_store empty_store [].

Definition libssl : dpkg_package := mkDpkg openssl (Some (u "dpkg")) None None.
Definition report (source os : str) (runs : option (list detector_run)) : asset_report :=
  mkAssetReport (u "r1") (Some source) 5 (u "h1") os [u "10.0.0.1"] [I_package libssl] [] runs.
Definition a_report : asset_report := report (u "a") (u "Debian GNU/Linux 12") (Some []).
Definition legacy_report : asset_report := report (u "a") (u "Debian GNU/Linux 12") None.
Definition batch : sourced trace_batch :=
  mkSourced (Some (u "a")) (mkTraceBatch (u "b1") 5
    [mkTrace (u "t1") (u "h1") (u "10.0.0.1") (u "6.6.6.6") [mkMatch (u "6.6.6.6") IP (u "c2") HIGH (u "feed")]]).

Definition detected := store_asset_report class_of cfg a_report true nothing.
Definition legacy := store_asset_report class_of cfg legacy_report true nothing.
Definition correlated := store_trace_batch class_of cfg batch true nothing.
Definition outcome_of (r : res Derived.outcome * analyzer) : Derived.outcome :=
  match r.1 with Ok o => o | Raise _ => mkOutcome R_FAILED 0 false None end.
(** The raw copy of another source's report of the same id is stored last. *)
Definition other_report : asset_report := report (u "b") (u "Ubuntu 22.04") (Some []).
Definition mixed : analyzer := (append_to cfg report_table other_report detected.2).2.

Definition is_ok {A} (r : res A) : bool := match r with Ok _ => true | Raise _ => false end.
End Example.
Import Example.

Lemma alerts_stored_once_witness :
  NoDup (alert_ids (an_alerts (process_envelope class_of cfg (E_trace batch) (process_envelope class_of cfg (E_trace batch) nothing).2).2)).
Proof.
  apply (alerts_stored_once class_of nothing); [apply NoDup_nil_2|].
  eapply rtc_l; [by apply (D_envelope _ _ _ cfg (E_trace batch) [])|].
  eapply rtc_l; [|apply rtc_refl]. apply (D_envelope _ _ _ cfg (E_trace batch) []). vm_compute. reflexivity.
Defined.



Lemma trace_replay_idempotent_witness :
  store_trace_batch class_of cfg batch false correlated.2 = (Ok (mkOutcome R_COMPLETE 0 false None), correlated.2).
Proof.
  apply (trace_replay_idempotent class_of cfg batch true nothing (outcome_of correlated)).
  - intros a. vm_compute. discriminate.
  - split; left; reflexivity.
  - vm_compute. reflexivity.
  - vm_compute. reflexivity.
Defined.

Lemma replay_takes_any_result_witness :
  (outcome_of (process_envelope class_of cfg (E_report other_report) mixed)).(oc_status) = R_COMPLETE /\
  length (st_rows (an_results mixed)) = 1%nat.
Proof.
  split; [|vm_compute; reflexivity].
  rewrite (replay_takes_any_result class_of cfg other_report other_report
    (default (mkResult [] [] 0 [] [] S_FAILED None 0 0 0 false None [])
       (RecordStore.find_one (ta_field result_table) (an_results mixed) (u "report_id") (u "r1"))) mixed); try (vm_compute; reflexivity).
  vm_compute. discriminate.
Defined.

Lemma replay_upgrades_partial_witness :
  oc_status (outcome_of legacy) = R_PARTIAL /\
  exists o, store_asset_report class_of cfg legacy_report false legacy.2 = (Ok o, legacy.2) /\ oc_status o = R_COMPLETE.
Proof.
  split; [vm_compute; reflexivity|].
  destruct (replay_upgrades_partial class_of cfg legacy_report nothing (outcome_of legacy) legacy.2) as (result & Hl & H).
  - vm_compute. reflexivity.
  - vm_compute. reflexivity.
  - vm_compute. reflexivity.
  - vm_compute in Hl. injection Hl as <-. destruct H as (o & Ho & Hs); [reflexivity..|]. exists o. split; [exact Ho|exact Hs].
Defined.

Lemma long_ecosystem_fails_witness :
  exists e, detect_or_fail class_of cfg (report (u "a") (u "Debian " ++ replicate 300 49%N) (Some [])) nothing
    = (Ok (failed_outcome class_of e), nothing).
Proof. apply long_ecosystem_fails. apply Nat.ltb_lt. vm_compute. reflexivity. Defined.
