(* ===== verification/IngestProps.v ===== *)
(** * What an answer to an ingest request means

    The ledger after a request is the ledger after some of its calls, so everything
    proved of histories of calls holds of it.  An acknowledgement promises that the
    envelope is durable or that its outcome is recorded; any other answer leaves the
    task in the ledger, unless the ledger refused the envelope. *)

From stdpp Require Import base gmap sets strings numbers list.
From Stdlib Require Import ZArith Lia.
From S2P Require Import Prelude PyText PyHash PyFloat Compare Tables Versioning Severity Osv Detect Coverage Kali Correlate Guard IngestLedger LedgerProps Envelopes Derived Ingest DerivedExamples.

#[local] Open Scope Z_scope.

Section Ledger.
Context (max_completed : Z).

(** A completion that was accepted is recorded, unless it was pruned at once. *)
Lemma complete_true key token status records truncated reason now t t' : NoDup (keys t) ->
  complete max_completed key token status records truncated reason now t = (true, t') ->
  find_task key t' = None \/ exists row, find_task key t' = Some row /\ tk_state row = status_state status /\
    tk_derived_records row = records /\ tk_derived_truncated row = truncated /\ tk_derived_reason row = reason.
Proof.
  intros Hn E. pose proof (update_where_keys (held_by key token) (completed_row status records truncated reason now) t (fun _ => eq_refl)) as Hk.
  unfold complete in E. destruct (update_where _ _ t) as [t1 n] eqn:Eu. cbn [fst] in Hk. injection E as En <-. apply Nat.eqb_eq in En. subst n.
  cbn [Nat.eqb]. assert (Hr : exists r, r ∈ t /\ held_by key token r = true).
  { unfold update_where in Eu. injection Eu as _ En. destruct (select_where (held_by key token) t) as [|r l] eqn:Es; [done|].
    assert (Hin : r ∈ select_where (held_by key token) t) by (rewrite Es; by left). apply elem_select_where in Hin as [? ?]. by exists r. }
  destruct Hr as (r & Hr & Hh). pose proof (held_by_key _ _ _ Hh) as Hkey.
  assert (Hf : find_task key t = Some r) by (by apply find_task_elem).
  pose proof (update_where_find (held_by key token) (completed_row status records truncated reason now) t key Hn (fun _ => eq_refl)) as Hfu.
  rewrite Eu, Hf in Hfu. cbn [fst fmap option_fmap option_map] in Hfu. rewrite Hh in Hfu.
  rewrite prune_find by (by rewrite Hk). case_bool_decide; [by left|right]. rewrite Hfu. eexists. by split.
Qed.

(** A completion that was refused changed nothing. *)
Lemma complete_false key token status records truncated reason now t t' : NoDup (keys t) ->
  complete max_completed key token status records truncated reason now t = (false, t') -> t' = t.
Proof.
  intros Hn E. unfold complete in E.
  assert (Hlen : (length (select_where (held_by key token) t) <= 1)%nat).
  { assert (Hs : NoDup (tk_key <$> select_where (held_by key token) t)).
    { unfold select_where. eapply sublist_NoDup; [exact Hn|]. apply LedgerProps.fmap_sublist, sublist_filter. }
    assert (Hin : forall r, r ∈ select_where (held_by key token) t -> tk_key r = key) by (intros r [Hh _]%elem_select_where; by apply held_by_key in Hh).
    destruct (select_where (held_by key token) t) as [|a [|b l]]; cbn; [lia..|]. exfalso.
    rewrite !fmap_cons in Hs. apply NoDup_cons in Hs as [Hs _]. apply Hs. rewrite (Hin a), <-(Hin b) by set_solver. by left. }
  destruct (update_where _ _ t) as [t1 n] eqn:Eu. injection E as En <-. assert (n = 0%nat) as ->.
  { unfold update_where in Eu. injection Eu as _ <-. apply Nat.eqb_neq in En. lia. }
  cbn [Nat.eqb]. rewrite update_where_void in Eu; [by injection Eu as <-|]. intros r Hr. destruct (held_by key token r) eqn:Eh; [|done].
  unfold update_where in Eu. injection Eu as _ En'. assert (Hin : r ∈ select_where (held_by key token) t) by (by apply elem_select_where).
  destruct (select_where _ t); [by apply not_elem_of_nil in Hin|done].
Qed.

(** An open task is kept by a call that does not complete it. *)
Lemma open_kept_one c t key r : NoDup (keys t) -> find_task key t = Some r -> final_state (tk_state r) = false -> completes key c = false ->
  exists r', find_task key (exec max_completed c t) = Some r' /\ final_state (tk_state r') = false /\ tk_kind r' = tk_kind r /\
    tk_envelope_id r' = tk_envelope_id r /\ tk_payload r' = tk_payload r /\ tk_payload_sha256 r' = tk_payload_sha256 r.
Proof. intros Hn Hr Hf Hc. apply (open_kept max_completed [c] t key r Hn Hr Hf). by intros ? ->%list_elem_of_singleton. Qed.

(** What a submission leaves under its key. *)
Lemma submit_spec key kind id payload now room t task created t' : NoDup (keys t) ->
  submit key kind id payload now room t = (Ok (task, created), t') ->
  NoDup (keys t') /\ find_task key t' = Some task /\
  (final_state (tk_state task) = false -> tk_payload_sha256 task = sha256_hex payload /\ (created = true -> tk_payload task = payload)).
Proof.
  intros Hn E. pose proof (exec_keys max_completed (Submit key kind id payload now room) t Hn) as Hn'. cbn [exec] in Hn'. rewrite E in Hn'.
  split; [exact Hn'|]. unfold submit in E. destruct (find_task key t) as [row|] eqn:Ef.
  - destruct (negb (final_state (tk_state row)) && _) eqn:Ec; [done|]. injection E as <- <- <-. split; [done|]. intros Hfin.
    rewrite Hfin in Ec. cbn in Ec. apply negb_false_iff, bool_decide_eq_true in Ec. done.
  - destruct room; [|done]. cbn [negb] in E. injection E as <- <- <-. split; [|done].
    apply find_task_elem; [exact Hn'|]. split; [|done]. apply elem_of_app. right. by left.
Qed.
End Ledger.

Section Answers.
Context {U : Unicode} `{Packaging} {D : Dumps} {J : Payloads} (class_name : exn -> str) (cfg : settings)
  (max_completed : Z) (lease_seconds : float).

(** An acknowledgement repeats what the row of a finished task says. *)
Definition ack_of_row (a : IngestAck) (row : task_row) : Prop :=
  (tk_state row = T_COMPLETE /\ ak_derived_status a = Some A_COMPLETE \/ tk_state row = T_PARTIAL /\ ak_derived_status a = Some A_PARTIAL) /\
  ak_derived_records a = tk_derived_records row /\ ak_derived_truncated a = tk_derived_truncated row /\ ak_derived_reason a = tk_derived_reason row.

(** The task is in the ledger, unfinished, with the content that was sent. *)
Definition kept (key : str) (e : envelope) (t : IngestLedger.table) : Prop :=
  exists row, find_task key t = Some row /\ final_state (tk_state row) = false /\ tk_payload_sha256 row = sha256_hex (dump_json e).

Lemma task_outcome_ack row o id dup a : task_outcome row = Some o -> ack id o dup = Ok a -> ack_of_row a row /\ ak_queued a = false /\ ak_duplicate a = dup.
Proof.
  unfold task_outcome, ack, ack_of_row. destruct (tk_state row) eqn:E; intros [= <-]; cbn; intros [= <-]; cbn; split_and!; auto.
Qed.

Lemma task_outcome_none row : task_outcome row = None <-> final_state (tk_state row) = false.
Proof. unfold task_outcome. by destruct (tk_state row). Qed.

Lemma ack_raise id o dup e : ack id o dup = Raise e -> oc_status o = R_FAILED.
Proof. unfold ack. by destruct (oc_status o). Qed.

Lemma run_inline_spec task meanwhile now s r s' key e cs :
  meanwhile = run max_completed cs -> (forall c, c ∈ cs -> completes key c = false) -> NoDup (keys (sv_ledger s)) -> tk_key task = key ->
  run_inline class_name cfg max_completed task meanwhile now s = (r, s') ->
  match r with
  | Ok a => ak_queued a = false /\ (find_task key (sv_ledger s') = None \/ exists row, find_task key (sv_ledger s') = Some row /\ ack_of_row a row)
  | Raise _ => kept key e (sv_ledger s) -> kept key e (sv_ledger s')
  end.
Proof.
  intros -> Hcs Hn Hkey E. unfold run_inline in E. rewrite Hkey in E. destruct (process_task _ _ _ _) as [result an].
  set (t := run max_completed cs (sv_ledger s)) in *. assert (Hnt : NoDup (keys t)) by (by apply run_keys).
  assert (Hkept : kept key e (sv_ledger s) -> kept key e t).
  { intros (row & Hr & Hf & Hd). destruct (open_kept max_completed cs _ _ _ Hn Hr Hf Hcs) as (r' & ? & ? & _ & _ & _ & Hd').
    exists r'. split_and!; [done|done|by rewrite Hd']. }
  assert (Hretry : forall tok reason, kept key e (sv_ledger s) -> kept key e (retry key tok reason (fl_of_Z 0) now t).2).
  { intros tok reason Hk. destruct (Hkept Hk) as (row & Hr & Hf & Hd).
    destruct (open_kept_one max_completed (Retry key tok reason (fl_of_Z 0) now) t key row Hnt Hr Hf eq_refl) as (r' & ? & ? & _ & _ & _ & Hd').
    exists r'. split_and!; [done|done|by rewrite Hd']. }
  destruct result as [o|x].
  - assert (Hdone : forall b, (let '(committed, ledger) := complete max_completed key (default [] (tk_lease_token task)) b (oc_records o) (oc_truncated o) (oc_reason o) now t in
        ((if committed then ack (tk_envelope_id task) o false else Raise (HTTPException 503)) : res IngestAck, mkService ledger an)) = (r, s') ->
        (if b then oc_status o = R_COMPLETE else oc_status o = R_PARTIAL) ->
        match r with
        | Ok a => ak_queued a = false /\ (find_task key (sv_ledger s') = None \/ exists row, find_task key (sv_ledger s') = Some row /\ ack_of_row a row)
        | Raise _ => kept key e (sv_ledger s) -> kept key e (sv_ledger s')
        end).
    { intros b Eb Hst.
      destruct (complete max_completed key (default [] (tk_lease_token task)) b (oc_records o) (oc_truncated o) (oc_reason o) now t) as [[] ledger] eqn:Ec;
        cbv beta iota in Eb; injection Eb as <- <-; cbn [sv_ledger].
      - unfold ack. destruct b; rewrite Hst; cbv beta iota; cbn [ak_queued ack_status]; (split; [reflexivity|]); (destruct (complete_true _ _ _ _ _ _ _ _ _ _ Hnt Ec) as [?|(row & Hf & Hs & Hrec & Htr & Hre)]; [by left|right]);
          exists row; (split; [done|]); unfold ack_of_row; cbn; rewrite Hs, Hrec, Htr, Hre; (split; [auto|done]).
      - apply complete_false in Ec as ->; [|done]. exact Hkept. }
    destruct (oc_status o) eqn:Est; [by apply (Hdone true)|by apply (Hdone false)|].
    destruct (retry _ _ _ _ _ _) as [b ledger] eqn:Er. injection E as <- <-. unfold ack. rewrite Est. cbn [sv_ledger].
    intros Hk. specialize (Hretry (default [] (tk_lease_token task)) (default_failure (oc_reason o)) Hk). by rewrite Er in Hretry.
  - destruct (retry _ _ _ _ _ _) as [b ledger] eqn:Er. injection E as <- <-. cbn [sv_ledger].
    intros Hk. specialize (Hretry (default [] (tk_lease_token task)) (class_name x) Hk). by rewrite Er in Hretry.
Qed.

End Answers.

(** ** A request *)
Module RequestExample.
Import Example.
#[export] Instance fixed_payloads : Payloads := {| dump_json _ := u "{}"; validate_json _ _ := Ok (E_trace batch) |}.
Definition start : service := mkService [] nothing.
Definition key : str := base_key TRACE_BATCH (u "a") (u "b1").
Definition posted := ingest_envelope class_of cfg 100 (fl_of_Z 30) false key (E_trace batch) (fl_of_Z 1) (fl_of_Z 1) (fl_of_Z 2) (u "tok") true
  (run 100 []) (run 100 [Extend key (u "tok") (fl_of_Z 2) (fl_of_Z 30)]) start.
Lemma nobody_completes c : c ∈ [Extend key (u "tok") (fl_of_Z 2) (fl_of_Z 30)] -> completes key c = false.
Proof. intros Hc. apply list_elem_of_singleton in Hc as ->. reflexivity. Qed.
End RequestExample.

