(* ===== verification/DefenderProps.v ===== *)
(** * What the Defender batches become *)

From stdpp Require Import base gmap sets strings numbers list.
From Stdlib Require Import ZArith Lia.
From S2P Require Import Prelude PyText PyHash PyFloat PyTime Tables Lineage RecordStore Compare Versioning Severity Osv Detect Coverage KaliTracker Kali Correlate Guard CorrelateProps Lifecycle Envelopes Derived Ingest Defender DerivedProps.

#[local] Open Scope Z_scope.

#[local] Arguments mdvm_asset_id : simpl never.
#[local] Arguments MDVM_SOURCE : simpl never.

Section Mdvm.
Context {U : Unicode}.

Lemma sha256_hex_hex s : Forall (fun c => hex_c c = true) (sha256_hex s).
Proof.
  unfold sha256_hex, hexdigest. induction (sha256_words (utf8 s)) as [|w ws IH]; [constructor|].
  cbn [map concat]. apply Forall_app. split; [apply hex_word_hex|done].
Qed.

Lemma mdvm_asset_id_trim item : trim (mdvm_asset_id item) = mdvm_asset_id item.
Proof.
  unfold mdvm_asset_id. apply trim_none, Forall_app. split; [by repeat constructor|].
  eapply Forall_impl; [apply sha256_hex_hex|]. intros c. apply hex_not_white.
Qed.

(** The finding of an item. *)
Definition finding_of (item : MdvmSoftwareVulnerability) (f : vulnerability) : Prop :=
  vu_id f = trim (mv_cve_id item) /\ vu_severity f = mv_severity item /\ vu_cvss_score f = mv_cvss_score item /\
  vu_affected_asset_id f = mdvm_asset_id item /\ vu_source f = MDVM_SOURCE.

Lemma mdvm_finding_fields item f : mdvm_finding item = Ok f -> finding_of item f.
Proof.
  unfold mdvm_finding, validate_vulnerability. cbv zeta. match goal with |- (if ?b then _ else _) = _ -> _ => destruct b; [|done] end.
  intros [= <-]. unfold finding_of. cbn. rewrite mdvm_asset_id_trim. split_and!; done.
Qed.

(** The loop: the packages by their identifiers, the findings in order. *)
Lemma mdvm_rows_spec items : forall packages findings packages' findings',
  NoDup packages.*1 -> (forall k p, (k, p) ∈ packages -> pk_asset_id (kp_package p) = k) ->
  mdvm_rows items packages findings = Ok (packages', findings') ->
  NoDup packages'.*1 /\ (forall k p, (k, p) ∈ packages' -> pk_asset_id (kp_package p) = k) /\
  (forall k, k ∈ packages'.*1 <-> k ∈ packages.*1 \/ k ∈ mdvm_asset_id <$> items) /\
  exists new, findings' = findings ++ new /\ Forall2 finding_of items new.
Proof.
  induction items as [|item items IH]; intros packages findings packages' findings' Hn Hk E; cbn [mdvm_rows] in E.
  { injection E as <- <-. split; [done|]. split; [done|]. split; [intros k; rewrite fmap_nil, elem_of_nil; tauto|]. exists []. by rewrite app_nil_r. }
  apply bind_Ok_inv in E as (p & Ep & E). apply bind_Ok_inv in E as (f & Ef & E). apply mdvm_finding_fields in Ef.
  assert (Hp : pk_asset_id (kp_package p) = mdvm_asset_id item).
  { unfold mdvm_package in Ep. cbv zeta in Ep. destruct (_ && _); [|done]. by injection Ep as <-. }
  set (next := match od_get (mdvm_asset_id item) packages with Some _ => packages | None => od_set (mdvm_asset_id item) p packages end) in *.
  assert (Hnext : NoDup next.*1 /\ (forall k q, (k, q) ∈ next -> pk_asset_id (kp_package q) = k) /\
    forall k, k ∈ next.*1 <-> k ∈ packages.*1 \/ k = mdvm_asset_id item).
  { subst next. destruct (od_get (mdvm_asset_id item) packages) as [q|] eqn:Eg.
    - split; [done|]. split; [done|]. intros k. split; [by left|]. intros [?| ->]; [done|]. apply od_get_Some_elem in Eg. apply list_elem_of_fmap. by exists (mdvm_asset_id item, q).
    - split; [by apply od_set_NoDup|]. apply od_get_None in Eg. split.
      + intros k q Hin. apply od_elem_get in Hin; [|by apply od_set_NoDup]. rewrite od_get_set in Hin. case_decide; [by injection Hin as <-; subst k|].
        apply Hk. by apply od_get_Some_elem.
      + intros k. rewrite od_set_keys, decide_False by done. rewrite elem_of_app, list_elem_of_singleton. done. }
  destruct Hnext as (N1 & N2 & N3). destruct (IH _ _ _ _ N1 N2 E) as (H1 & H2 & H3 & new & -> & Hf).
  split; [done|]. split; [done|]. split.
  - intros k. rewrite H3, N3, fmap_cons, elem_of_cons. tauto.
  - exists (f :: new). split; [by rewrite <-app_assoc|by constructor].
Qed.

(** A Defender snapshot becomes a consistent report: its findings are those of
    its items, in order, and each names a package of the report by an identifier that
    no other package has; every package is one of an item; the run and the coverage
    declare as many findings as there are; and the detection result is a complete
    one of the same report, host and findings. *)
Theorem mdvm_snapshot_consistent snapshot report detection : derive_mdvm_snapshot snapshot = Ok (report, detection) ->
  let ids := omap (fun a => match a with I_package p => Some (pk_asset_id (kp_package p)) | I_other => None end) (rp_assets report) in
  Forall2 finding_of (ms_vulnerabilities snapshot) (rp_vulnerabilities report) /\
  NoDup ids /\ (forall id, id ∈ ids <-> exists f, f ∈ rp_vulnerabilities report /\ vu_affected_asset_id f = id) /\
  (exists run, rp_detector_runs report = Some [run] /\ run_finding_count run = Z.of_nat (length (rp_vulnerabilities report))) /\
  re_report_id detection = rp_report_id report /\ re_host_id detection = rp_host_id report /\ re_vulnerabilities detection = rp_vulnerabilities report /\
  re_detection_status detection = S_COMPLETE /\ re_truncated detection = false /\ re_scanned_package_count detection = Z.of_nat (length (rp_assets report)).
Proof.
  unfold derive_mdvm_snapshot. intros E. apply bind_Ok_inv in E as ([packages findings] & Er & E). cbv zeta in E. apply bind_Ok_inv in E as (? & _ & E).
  apply bind_Ok_inv in E as (d & Ed & E). injection E as <- <-.
  destruct (mdvm_rows_spec _ [] [] _ _ (NoDup_nil_2) ltac:(intros k p Hin; by apply not_elem_of_nil in Hin) Er) as (Hn & Hk & Hkeys & new & Hnew & Hf).
  cbn [app] in Hnew. subst new. cbv zeta. cbn [rp_assets rp_vulnerabilities rp_detector_runs rp_report_id rp_host_id].
  assert (Hids : omap (fun a => match a with I_package p => Some (pk_asset_id (kp_package p)) | I_other => None end) (I_package <$> (snd <$> packages)) = packages.*1).
  { clear -Hk. induction packages as [|[k p] packages IH]; [done|]. cbn [fmap list_fmap omap list_omap snd fst]. rewrite (Hk k p) by (by left).
    f_equal. apply IH. intros k' q Hin. apply Hk. by right. }
  rewrite Hids. split; [done|]. split; [done|]. split.
  { intros id. rewrite Hkeys. cbn [fmap list_fmap]. split.
    - intros [Hin|Hin]; [by apply not_elem_of_nil in Hin|]. apply list_elem_of_fmap in Hin as (item & -> & Hin). apply list_elem_of_lookup_1 in Hin as [i Hi].
      destruct (Forall2_lookup_l _ _ _ _ _ Hf Hi) as (f & Hfi & Hff). exists f. split; [by eapply list_elem_of_lookup_2|]. by destruct Hff as (_ & _ & _ & ? & _).
    - intros (f & Hin & <-). right. apply list_elem_of_lookup_1 in Hin as [i Hi]. destruct (Forall2_lookup_r _ _ _ _ _ Hf Hi) as (item & Hii & Hff).
      destruct Hff as (_ & _ & _ & -> & _). apply list_elem_of_fmap_2. by eapply list_elem_of_lookup_2. }
  split; [by eexists|]. unfold validate_result in Ed. cbv zeta in Ed.
  match type of Ed with (if ?b then _ else _) = _ => destruct b; [|done] end. injection Ed as <-. cbn. rewrite !length_fmap. done.
Qed.
End Mdvm.

Module SnapshotExample.
Definition item (cve : String.string) : MdvmSoftwareVulnerability :=
  mkMdvmVulnerability (u "rec") (u cve) (u "contoso") (u "editor") (u "1.2") HIGH (Some (fl_of_Z 8)) None None None None None None
    (Some 0) None None None None [] [] false.
Arguments item cve%_string.
Definition snapshot : MdvmDeviceSnapshot :=
  mkSnapshot (u "rep-1") (u "dev-1") (u "host-1") (u "pc-1") (u "Windows11") None None 5 1 1 [item "CVE-2024-1"; item "CVE-2024-2"].
End SnapshotExample.

Lemma mdvm_snapshot_consistent_witness : exists report detection,
  derive_mdvm_snapshot SnapshotExample.snapshot = Ok (report, detection) /\ length (rp_assets report) = 1%nat /\
  re_vulnerabilities detection = rp_vulnerabilities report.
Proof.
  destruct (derive_mdvm_snapshot SnapshotExample.snapshot) as [[report detection]|e] eqn:E; [|vm_compute in E; discriminate E].
  exists report, detection. split; [reflexivity|]. split; [vm_compute in E; injection E as <- <-; reflexivity|].
  apply (mdvm_snapshot_consistent SnapshotExample.snapshot report detection E).
Defined.
