(* ===== verification/DefenderClient.v ===== *)
(** * The Microsoft Graph and Defender clients ([mde.py], [mdvm.py])

    What the two connectors share: the bounded HTTP client with its cached token,
    retries and pagination, the readers of remote records and the mapping from cloud
    devices to hosts.

    The network is a script: every request takes the next answer, an exhausted script
    being a connection that fails, and is noted in [wb_sent] with the token it
    carried; [wb_clock] holds the readings of [time.monotonic] to come, [wb_slept] the
    pauses.  [urlsplit] and [response.json] are parameters, the file of the secret and
    the host map are data. *)

From stdpp Require Import base gmap strings list numbers.
From Stdlib Require Import ZArith Lia SpecFloat.
From S2P Require Import Prelude PyText Acts PyHash PyFloat PyJson Compare Versioning Severity Correlate PyTime.

#[local] Open Scope Z_scope.

(** [s.replace(c, by)] of one character *)
Definition replace_char (c : N) (by_ : str) (s : str) : str := concat ((fun d => if (d =? c)%N then by_ else [d]) <$> s).

(** ** Texts of remote records *)
Section Readers.
Context {U : Unicode} `{IsoForms}.

(** [_text] *)
Definition text_of (value : json) (otherwise : option str) : res str :=
  match value, otherwise with
  | JNull, Some d => Ok d
  | JString s, _ => if bool_decide (strip s = []) then Raise MdeUpstreamError else Ok (take 4096 (strip s))
  | _, _ => Raise MdeUpstreamError
  end.

(** [_optional_text] *)
Definition optional_text (value : json) : option str :=
  match value with
  | JString s => if bool_decide (strip s = []) then None else Some (take 4096 (strip s))
  | _ => None
  end.

(** [_timestamp]; a [ValueError] of the parser becomes an upstream error. *)
Definition timestamp (value : json) : res Z :=
  raw ← text_of value None;
  match fromisoformat (replace_char 90 (u "+00:00") raw) with
  | Raise ValueError => Raise MdeUpstreamError
  | r => r
  end.

(** [_optional_timestamp] *)
Definition optional_timestamp (value : json) : res (option Z) :=
  match value with JNull => Ok None | _ => Some <$> timestamp value end.

(** The strings of a list that are not blank, each cut to [width] *)
Definition strings_of (width limit : nat) (value : json) : list str :=
  match value with
  | JArray items =>
      take limit (omap (fun x => match x with
                                 | JString s => if bool_decide (strip s = []) then None else Some (take width (strip s))
                                 | _ => None
                                 end) items)
  | _ => []
  end.

(** [_string_list] *)
Definition MAX_RELATIONSHIPS : nat := 256.
Definition string_list (value : json) : list str := strings_of 4096 MAX_RELATIONSHIPS value.

(** [_severity]; the text of a value that is no string names no severity. *)
Definition severity_named (value : json) : Severity :=
  match value with
  | JString s =>
      default INFO (od_get (lower (strip s))
        [(u "informational", INFO); (u "info", INFO); (u "low", LOW); (u "medium", MEDIUM); (u "high", HIGH); (u "critical", CRITICAL)])
  | _ => INFO
  end.
(** [instant.isoformat().replace("+00:00", "Z")] of an instant in UTC *)
Definition zulu (t : Z) : str := let s := isoformat t in take (length s - 6) s ++ u "Z".
End Readers.

(** ** URLs *)

(** What the code reads of [urlsplit(url)]: its [scheme], [netloc], [path], [fragment]
    and [hostname]. *)
Record split_url := mkUrl { ur_scheme : str; ur_netloc : str; ur_path : str; ur_fragment : str; ur_hostname : option str }.
Class UrlSplit := { urlsplit : str -> res split_url }.

Section Urls.
Context {U : Unicode} `{UrlSplit}.

(** [_https_url] *)
Definition https_url (value : json) : res (option str) :=
  match optional_text value with
  | None => Ok None
  | Some text =>
      parsed ← urlsplit text;
      Ok (if bool_decide (ur_scheme parsed = u "https") && match ur_hostname parsed with Some (_ :: _) => true | _ => false end
          then Some text else None)
  end.

(** A page of the resource at [path] on one of the hosts *)
Definition valid_page_url (hosts : list str) (path url : str) : res unit :=
  parsed ← urlsplit url;
  raise_if (negb (bool_decide (ur_scheme parsed = u "https")) || negb (bool_decide (lower (ur_netloc parsed) ∈ hosts))
            || negb (bool_decide (ur_path parsed = path)) || negb (bool_decide (ur_fragment parsed = []))) MdeUpstreamError.
End Urls.

(** ** The client *)

(** An [httpx.Response]: its status, the length of its content, [response.json()] and
    the [retry-after] header. *)
Record response := mkResponse { rs_status : Z; rs_size : Z; rs_json : res json; rs_retry_after : str }.

(** A request for a token, or for a page with a token and parameters *)
Inductive request :=
| Post_token (url secret scope : str)
| Get_page (url : str) (params : option (list (str * str))) (token : str).

(** The network and the attributes of the client *)
Record web := mkWeb {
  wb_answers : list (option response);
  wb_clock : list float;
  wb_sent : list request;
  wb_slept : list float;
  wb_access_token : option str;
  wb_token_expires_at : float;
}.

#[global] Instance eta_web : Eta web := fun w =>
  mkWeb (wb_answers w) (wb_clock w) (wb_sent w) (wb_slept w) (wb_access_token w) (wb_token_expires_at w).

(** [httpx]: [None] is a [RequestError]. *)
Definition send (r : request) : act web (option response) := fun w =>
  let '(answer, rest) := match wb_answers w with [] => (None, []) | a :: rest => (a, rest) end in
  (Ok answer, w <| wb_answers := rest |> <| wb_sent := wb_sent w ++ [r] |>).

(** [time.monotonic()] *)
Definition monotonic : act web float := fun w =>
  match wb_clock w with
  | [] => (Ok (fl_of_Z 0), w)
  | t :: rest => (Ok t, w <| wb_clock := rest |>)
  end.

Definition sleep (seconds : float) : act web unit := act_do (fun w => w <| wb_slept := wb_slept w ++ [seconds] |>).

(** The file of the client secret: [stat().st_size], [is_file()] and the text, or the
    exception of reading it *)
Record secret_file := mkSecretFile { sf_size : Z; sf_is_file : bool; sf_text : res str }.

(** What the client reads of the configuration. *)
Record client_config := mkClientConfig {
  cc_tenant_id : str;
  cc_client_secret : res secret_file;
  cc_scope : str;
  cc_max_attempts : Z;
  cc_max_pages : Z;
  cc_max_items : Z;
}.

Section Client.
Context {U : Unicode} `{UrlSplit} (cfg : client_config) (valid_url : str -> res unit).

Definition MAX_SECRET_BYTES : Z := 16 * 1024.
Definition MAX_TOKEN_RESPONSE_BYTES : Z := 1024 * 1024.
Definition MAX_GRAPH_RESPONSE_BYTES : Z := 16 * 1024 * 1024.

(** [_read_secret]; an [OSError] is a configuration error. *)
Definition read_secret (file : res secret_file) : res str :=
  let result :=
    f ← file;
    _ ← raise_if (negb (sf_is_file f) || (sf_size f <=? 0) || (MAX_SECRET_BYTES <? sf_size f)) MdeConfigurationError;
    strip <$> sf_text f in
  secret ← match result with Raise OSError => Raise MdeConfigurationError | r => r end;
  _ ← raise_if (bool_decide (secret = []) || (MAX_SECRET_BYTES <? Z.of_nat (length (utf8 secret)))) MdeConfigurationError;
  Ok secret.

(** [_retry_after] *)
Definition retry_after (r : response) : float :=
  match float_of_text (strip (rs_retry_after r)) with
  | Some x => fl_min (fl_of_Z 60) (fl_max (fl_of_Z 0) x)
  | None => fl_of_Z 1
  end.

(** [int(payload.get("expires_in", 3600))]; [None] when it raises an exception that
    is caught *)
Definition int_value (value : option json) : res (option Z) :=
  match value with
  | None => Ok (Some 3600)
  | Some (JInt n) => Ok (Some n)
  | Some (JBool b) => Ok (Some (if b then 1 else 0))
  | Some (JFloat x) => if isfinite x then Ok (Some (fl_trunc x)) else match x with SpecFloat.S754_nan => Ok None | _ => Raise OverflowError end
  | Some (JString s) => Ok (int_of_text s)
  | Some _ => Ok None
  end.

(** The body of a token response: the token, and the seconds it is good for *)
Definition token_payload (payload : json) : res (json * Z) :=
  match payload with
  | JObject fields =>
      match od_get (u "access_token") fields with
      | None => Raise MdeUpstreamError
      | Some token =>
          seconds ← int_value (od_get (u "expires_in") fields);
          match seconds with Some n => Ok (token, n) | None => Raise MdeUpstreamError end
      end
  | _ => Raise MdeUpstreamError
  end.

Definition token_url : str := u "https://login.microsoftonline.com/" ++ cc_tenant_id cfg ++ u "/oauth2/v2.0/token".

(** [_token]; the instants are not modelled past the range of a float. *)
Definition token : act web str :=
  cached <~ act_get wb_access_token ;;
  expires <~ act_get wb_token_expires_at ;;
  fresh <~ match cached with
           | Some (_ :: _) => now <~ monotonic ;; act_ret (fl_ltb now (fl_sub expires (fl_of_Z 60)))
           | _ => act_ret false
           end ;;
  if fresh then act_ret (default [] cached)
  else
    secret <~ act_lift (read_secret (cc_client_secret cfg)) ;;
    answer <~ send (Post_token token_url secret (cc_scope cfg)) ;;
    match answer with
    | None => act_lift (Raise MdeUpstreamError)
    | Some r =>
        if negb (rs_status r =? 200) || (MAX_TOKEN_RESPONSE_BYTES <? rs_size r) then act_lift (Raise MdeUpstreamError)
        else
          payload <~ act_lift (match rs_json r with Raise ValueError => Raise MdeUpstreamError | j => j end) ;;
          parsed <~ act_lift (token_payload payload) ;;
          match (parsed : json * Z).1 with
          | JString ((_ :: _) as t) =>
              if (32768 <? Z.of_nat (length t)) then act_lift (Raise MdeUpstreamError)
              else
                now <~ monotonic ;;
                _ <~ act_do (fun w => w <| wb_access_token := Some t |>
                                        <| wb_token_expires_at := fl_add now (fl_of_Z (Z.max 60 parsed.2)) |>) ;;
                act_ret t
          | _ => act_lift (Raise MdeUpstreamError)
          end
    end.

(** [min(30.0, 2.0**attempt)] *)
Definition backoff (attempt : Z) : res float :=
  if 1024 <=? attempt then Raise OverflowError else Ok (fl_min (fl_of_Z 30) (fl_of_Z (2 ^ attempt))).

(** What an answer of the API means: the payload, another attempt after a pause, or
    the end *)
Inductive verdict := V_payload (fields : list (str * json)) | V_reset | V_pause (seconds : float) | V_fail (e : exn).

Definition judge (attempt : Z) (answer : option response) : verdict :=
  match answer with
  | None =>
      if attempt + 1 =? cc_max_attempts cfg then V_fail MdeUpstreamError
      else match backoff attempt with Ok s => V_pause s | Raise e => V_fail e end
  | Some r =>
      if (rs_status r =? 401) && (attempt =? 0) then V_reset
      else if ((rs_status r =? 429) || ((500 <=? rs_status r) && (rs_status r <? 600))) && (attempt + 1 <? cc_max_attempts cfg)
      then V_pause (retry_after r)
      else if negb (rs_status r =? 200) || (MAX_GRAPH_RESPONSE_BYTES <? rs_size r) then V_fail MdeUpstreamError
      else match rs_json r with
           | Ok (JObject fields) => V_payload fields
           | Ok _ | Raise ValueError => V_fail MdeUpstreamError
           | Raise e => V_fail e
           end
  end.

(** The loop of [_get] from an attempt on *)
Fixpoint get_loop (tries : nat) (attempt : Z) (url : str) (params : option (list (str * str))) : act web (list (str * json)) :=
  match tries with
  | O => act_lift (Raise MdeUpstreamError)
  | S tries =>
      t <~ token ;;
      answer <~ send (Get_page url params t) ;;
      match judge attempt answer with
      | V_payload fields => act_ret fields
      | V_fail e => act_lift (Raise e)
      | V_reset =>
          _ <~ act_do (fun w => w <| wb_access_token := None |> <| wb_token_expires_at := fl_of_Z 0 |>) ;;
          get_loop tries (attempt + 1) url params
      | V_pause seconds => _ <~ sleep seconds ;; get_loop tries (attempt + 1) url params
      end
  end.

(** [_get] *)
Definition get_page (url : str) (params : option (list (str * str))) : act web (list (str * json)) :=
  _ <~ act_lift (valid_url url) ;;
  get_loop (Z.to_nat (cc_max_attempts cfg)) 0 url params.

(** The objects in [payload["value"]] *)
Definition page_values (payload : list (str * json)) : res (list (list (str * json))) :=
  match get_value (u "value") payload with
  | JArray items => match mapM (fun x => match x with JObject f => Some f | _ => None end) items with
                    | Some rows => Ok rows
                    | None => Raise MdeUpstreamError
                    end
  | _ => Raise MdeUpstreamError
  end.

(** The loop over the pages *)
Fixpoint fetch_loop (pages : nat) (url : str) (params : option (list (str * str))) (records : list (list (str * json)))
    : act web (list (list (str * json))) :=
  match pages with
  | O => act_lift (Raise MdeUpstreamError)
  | S pages =>
      payload <~ get_page url params ;;
      values <~ act_lift (page_values payload) ;;
      if cc_max_items cfg <? Z.of_nat (length (records ++ values)) then act_lift (Raise MdeUpstreamError)
      else
        match get_value (u "@odata.nextLink") payload with
        | JNull => act_ret (records ++ values)
        | JString next => _ <~ act_lift (valid_url next) ;; fetch_loop pages next None (records ++ values)
        | _ => act_lift (Raise MdeUpstreamError)
        end
  end.

Definition fetch (url : str) (params : list (str * str)) : act web (list (list (str * json))) :=
  fetch_loop (Z.to_nat (cc_max_pages cfg)) url (Some params) [].
End Client.

(** ** Cloud devices and hosts *)

(** The host map file: [stat().st_size] and what reading and parsing it gives *)
Record map_file := mkMapFile { mf_size : Z; mf_json : res json }.

Section HostMapper.
Context {U : Unicode}.

(** [MdeHostMapper.__init__]: the entries, trimmed, by their key in lower case *)
Definition host_entries (entries : list (str * str)) : list (str * str) :=
  fold_left (fun d e => od_set (lower (strip e.1)) (strip e.2) d) entries [].

(** The validation of an entry of the file *)
Definition map_entry (e : str * json) : res (str * str) :=
  match e.2 with
  | JString value =>
      if bool_decide (strip e.1 = []) || bool_decide (strip value = []) || (4096 <? Z.of_nat (length e.1)) || (256 <? Z.of_nat (length value))
      then Raise MdeConfigurationError else Ok (e.1, value)
  | _ => Raise MdeConfigurationError
  end.

(** [MdeHostMapper.load]; no path is an empty map. *)
Definition load_host_map (file : option (res map_file)) : res (list (str * str)) :=
  match file with
  | None => Ok (host_entries [])
  | Some file =>
      let payload :=
        f ← file;
        _ ← raise_if (1024 * 1024 <? mf_size f) MdeConfigurationError;
        mf_json f in
      payload ← match payload with Raise OSError | Raise JSONDecodeError => Raise MdeConfigurationError | r => r end;
      match payload with
      | JObject fields =>
          if 20000 <? Z.of_nat (length fields) then Raise MdeConfigurationError
          else host_entries <$> mapM map_entry fields
      | _ => Raise MdeConfigurationError
      end
  end.

(** [_fallback] *)
Definition fallback_host (prefix value : str) : str :=
  let candidate := prefix ++ u ":" ++ lower (strip value) in
  if (length candidate <=? 256)%nat then candidate else prefix ++ u ":sha256:" ++ sha256_hex value.

(** [value and self.entries.get(f"{prefix}:{value}".lower())] *)
Definition mapped_host (entries : list (str * str)) (candidate : str * option str) : option str :=
  match candidate.2 with
  | Some ((_ :: _) as value) =>
      match od_get (lower (candidate.1 ++ u ":" ++ value)) entries with Some ((_ :: _) as host) => Some host | _ => None end
  | _ => None
  end.

(** [resolve] *)
Definition resolve_host (entries : list (str * str)) (mde_device_id azure_ad_device_id dns_name hostname : option str) : option str :=
  match omap (mapped_host entries) [(u "mde", mde_device_id); (u "aad", azure_ad_device_id); (u "dns", dns_name); (u "host", hostname)] with
  | host :: _ => Some host
  | [] =>
      match mde_device_id, azure_ad_device_id, dns_name with
      | Some ((_ :: _) as id), _, _ => Some (fallback_host (u "mde") id)
      | _, Some ((_ :: _) as id), _ => Some (fallback_host (u "aad") id)
      | _, _, Some ((_ :: _) as name) => Some (fallback_host (u "mde-dns") name)
      | _, _, _ => None
      end
  end.
End HostMapper.

(** ** The state row of a connector *)

Record sync_row (C : Type) := mkSync {
  sy_watermark : option str;
  sy_lease_owner : option str;
  sy_lease_until : option float;
  sy_last_attempt_at : option str;
  sy_last_success_at : option str;
  sy_last_error : option str;
  sy_columns : C;
}.
Arguments mkSync {C}.
Arguments sy_watermark {C}.
Arguments sy_lease_owner {C}.
Arguments sy_lease_until {C}.
Arguments sy_last_attempt_at {C}.
Arguments sy_last_success_at {C}.
Arguments sy_last_error {C}.
Arguments sy_columns {C}.

#[global] Instance eta_sync {C} : Eta (sync_row C) := fun r =>
  mkSync (sy_watermark r) (sy_lease_owner r) (sy_lease_until r) (sy_last_attempt_at r) (sy_last_success_at r)
    (sy_last_error r) (sy_columns r).

(** The row as the schema creates it *)
Definition fresh_row {C} (columns : C) : sync_row C := mkSync None None None None None None columns.

Section Rows.
Context {C : Type}.

(** Whether the lease can be taken: nobody's, run out, or one's own *)
Definition lease_free (owner : str) (now : Z) (r : sync_row C) : bool :=
  match sy_lease_owner r with
  | None => true
  | Some o => fl_leb (default (fl_of_Z 0) (sy_lease_until r)) (timestamp_of now) || bool_decide (o = owner)
  end.

(** [acquire] *)
Definition acquire_lease (owner : str) (now : Z) (lease_seconds : float) (r : sync_row C) : bool * sync_row C :=
  if lease_free owner now r then
    (true, r <| sy_lease_owner := Some owner |> <| sy_lease_until := Some (fl_add (timestamp_of now) lease_seconds) |>
             <| sy_last_attempt_at := Some (isoformat now) |>)
  else (false, r).

Definition owns (owner : str) (r : sync_row C) : bool := bool_decide (sy_lease_owner r = Some owner).

(** [success]: the watermark moves and the lease ends; [RuntimeError] for another owner *)
Definition record_success (owner : str) (watermark now : Z) (columns : C -> C) (r : sync_row C) : res (sync_row C) :=
  if owns owner r then
    Ok (r <| sy_watermark := Some (isoformat watermark) |> <| sy_last_success_at := Some (isoformat now) |> <| sy_last_error := None |>
          <| sy_lease_owner := None |> <| sy_lease_until := None |> <| sy_columns := columns (sy_columns r) |>)
  else Raise RuntimeError.

(** [failure] *)
Definition record_failure (owner error : str) (r : sync_row C) : sync_row C :=
  if owns owner r then
    r <| sy_last_error := Some (take 2048 error) |> <| sy_lease_owner := None |> <| sy_lease_until := None |>
  else r.

(** The status [readiness] reports of an enabled connector *)
Definition readiness_status (standby : bool) (r : option (sync_row C)) : str :=
  if match r with Some r => match sy_last_error r with Some (_ :: _) => true | _ => false end | None => false end then u "degraded"
  else if standby then u "standby"
  else if match r with Some r => match sy_last_success_at r with Some (_ :: _) => true | _ => false end | None => false end then u "ready"
  else u "starting".
(** A failure of the owner moves no watermark and ends its lease. *)
Lemma record_failure_owner owner error r : sy_lease_owner r = Some owner ->
  sy_watermark (record_failure owner error r) = sy_watermark r /\ sy_lease_owner (record_failure owner error r) = None.
Proof. intros Ho. unfold record_failure, owns. by rewrite Ho, bool_decide_true. Qed.
End Rows.
