(* ===== verification/DefenderClientProps.v ===== *)
(** * What the client of the connectors sends

    Tokens and pages are requested from the identity platform and from validated URLs
    only, and a fetch makes a bounded number of requests.  Then the texts of instants the
    connectors exchange, and where their order is not the order of the instants. *)

From stdpp Require Import base gmap strings list numbers sets.
From Stdlib Require Import ZArith Lia SpecFloat.
From S2P Require Import Prelude PyText PyHash PyFloat PyJson Compare PyTime TimeOrder Acts DefenderClient.

#[local] Open Scope Z_scope.

Section Client.
Context {U : Unicode} (cfg : client_config) (valid_url : str -> res unit).

(** A request the client may make *)
Definition proper (r : request) : Prop :=
  match r with
  | Post_token url _ scope => url = token_url cfg /\ scope = cc_scope cfg
  | Get_page url _ _ => valid_url url = Ok tt
  end.

(** A call sends at most [n] requests, all of them proper. *)
Definition sends {A} (n : Z) (m : act web A) : Prop := forall w r w', m w = (r, w') ->
  exists new, wb_sent w' = wb_sent w ++ new /\ Forall proper new /\ Z.of_nat (length new) <= n.

Lemma sends_mono {A} n n' (m : act web A) : n <= n' -> sends n m -> sends n' m.
Proof. intros Hn Hm w r w' E. destruct (Hm _ _ _ E) as (new & ? & ? & ?). exists new. split; [done|]. split; [done|]. lia. Qed.

Lemma sends_bind {A B} n k (m : act web A) (f : A -> act web B) : 0 <= k ->
  sends n m -> (forall a, sends k (f a)) -> sends (n + k) (act_bind m f).
Proof.
  intros Hk Hm Hf w r w' E. unfold act_bind in E. destruct (m w) as [[a|e] w1] eqn:Em.
  - destruct (Hm _ _ _ Em) as (n1 & E1 & F1 & L1), (Hf a _ _ _ E) as (n2 & E2 & F2 & L2). exists (n1 ++ n2).
    rewrite E2, E1, app_assoc. split; [done|]. split; [by apply Forall_app|]. rewrite length_app. lia.
  - injection E as <- <-. destruct (Hm _ _ _ Em) as (n1 & E1 & F1 & L1). exists n1. split; [done|]. split; [done|]. lia.
Qed.

Lemma sends_ok {A} n (m : act web A) : 0 <= n -> (forall w, wb_sent (m w).2 = wb_sent w) -> sends n m.
Proof. intros Hn Hm w r w' E. exists []. specialize (Hm w). rewrite E in Hm. cbn [snd] in Hm. rewrite app_nil_r. split; [done|]. split; [done|]. cbn. lia. Qed.

Lemma sends_ret {A} (a : A) : sends 0 (act_ret a).
Proof. by apply sends_ok. Qed.
Lemma sends_lift {A} (r : res A) : sends 0 (act_lift r).
Proof. by apply sends_ok. Qed.
Lemma sends_get {A} (f : web -> A) : sends 0 (act_get f).
Proof. by apply sends_ok. Qed.
Lemma sends_monotonic : sends 0 monotonic.
Proof. apply sends_ok; [done|]. intros w. unfold monotonic. by destruct (wb_clock w). Qed.
Lemma sends_do f : (forall w, wb_sent (f w) = wb_sent w) -> sends 0 (act_do f).
Proof. intros Hf. by apply sends_ok. Qed.
Lemma sends_sleep s : sends 0 (sleep s).
Proof. by apply sends_do. Qed.
Lemma sends_send r : proper r -> sends 1 (send r).
Proof. intros Hr w x w' E. unfold send in E. destruct (wb_answers w); injection E as <- <-; exists [r]; (split; [done|]); (split; [by constructor|done]). Qed.

(** One more step of a sequence *)
Ltac sends_step := first
  [ apply sends_ret | apply sends_lift | apply sends_get | apply sends_monotonic | apply sends_sleep | (apply sends_do; done)
  | (apply (sends_mono 0); [lia|]; first [apply sends_ret | apply sends_lift | apply sends_get | apply sends_monotonic | apply sends_sleep | (apply sends_do; done)]) ].

Lemma sends_token : sends 1 (token cfg).
Proof.
  unfold token. apply (sends_bind 0 1); [lia|sends_step|intros cached]. apply (sends_bind 0 1); [lia|sends_step|intros expires].
  apply (sends_bind 0 1); [lia| |intros fresh].
  { destruct cached as [[|]|]; try sends_step. apply (sends_bind 0 0); [lia|sends_step|intros]. sends_step. }
  destruct fresh; [sends_step|]. apply (sends_bind 0 1); [lia|sends_step|intros secret].
  apply (sends_bind 1 0); [lia|by apply sends_send|intros [r|]]; [|sends_step]. destruct (_ || _); [sends_step|].
  apply (sends_bind 0 0); [lia|sends_step|intros payload]. apply (sends_bind 0 0); [lia|sends_step|intros [j n]]. cbn [fst snd].
  destruct j as [| | | |[|c t]| |]; try sends_step. destruct (_ <? _); [sends_step|].
  apply (sends_bind 0 0); [lia|sends_step|intros now]. apply (sends_bind 0 0); [lia|sends_step|intros]. sends_step.
Qed.

Lemma sends_get_loop tries attempt url params : valid_url url = Ok tt -> sends (2 * Z.of_nat tries) (get_loop cfg tries attempt url params).
Proof.
  intros Hu. revert attempt. induction tries as [|tries IH]; intros attempt; cbn [get_loop]; [sends_step|].
  replace (2 * Z.of_nat (S tries)) with (1 + (1 + (0 + 2 * Z.of_nat tries))) by lia.
  apply sends_bind; [lia|apply sends_token|intros t]. apply sends_bind; [lia|by apply sends_send|intros answer].
  destruct (judge cfg attempt answer); try sends_step; (apply sends_bind; [lia|sends_step|intros; apply IH]).
Qed.

Lemma sends_get_page url params : sends (2 * Z.max 0 (cc_max_attempts cfg)) (get_page cfg valid_url url params).
Proof.
  intros w r w' E. unfold get_page in E. destruct (valid_url url) as [[]|e] eqn:Hu.
  - eapply (sends_bind 0 (2 * Z.of_nat (Z.to_nat (cc_max_attempts cfg)))) in E; [|lia|apply sends_lift|intros; by apply sends_get_loop].
    destruct E as (new & ? & ? & ?). exists new. split; [done|]. split; [done|]. lia.
  - injection E as <- <-. exists []. rewrite app_nil_r. split; [done|]. split; [done|]. cbn. lia.
Qed.

Lemma sends_fetch_loop pages url params records :
  sends (Z.of_nat pages * (2 * Z.max 0 (cc_max_attempts cfg))) (fetch_loop cfg valid_url pages url params records).
Proof.
  revert url params records. induction pages as [|pages IH]; intros url params records; cbn [fetch_loop]; [sends_step|].
  set (k := 2 * Z.max 0 (cc_max_attempts cfg)) in *. replace (Z.of_nat (S pages) * k) with (k + (0 + Z.of_nat pages * k)) by nia.
  apply sends_bind; [unfold k; lia|apply sends_get_page|intros payload]. apply sends_bind; [unfold k; lia|sends_step|intros values].
  assert (0 <= Z.of_nat pages * k) by (unfold k; lia).
  destruct (_ <? _); [sends_step|]. destruct (get_value _ payload); try sends_step.
  replace (Z.of_nat pages * k) with (0 + Z.of_nat pages * k) by lia. apply sends_bind; [done|sends_step|intros; apply IH].
Qed.

Lemma fetch_loop_items pages url params records w rows w' :
  fetch_loop cfg valid_url pages url params records w = (Ok rows, w') -> Z.of_nat (length rows) <= cc_max_items cfg.
Proof.
  revert url params records w. induction pages as [|pages IH]; intros url params records w E; [done|]. cbn [fetch_loop] in E.
  unfold act_bind at 1 in E. destruct (get_page _ _ _ _ w) as [[payload|] w1]; [|done]. unfold act_bind at 1, act_lift at 1 in E.
  destruct (page_values payload) as [values|]; [|done]. destruct (Z.ltb_spec (cc_max_items cfg) (Z.of_nat (length (records ++ values)))); [done|].
  destruct (get_value _ payload); try done.
  - by injection E as <- <-.
  - unfold act_bind, act_lift in E. destruct (valid_url s); [|done]. by eapply IH.
Qed.

(** C34. A fetch asks only where it may: every page it requests, with the access
    token, has a validated URL, and the secret goes to the token endpoint of the tenant
    alone; it makes at most two requests for each attempt on each page, whatever is
    answered, and returns no more records than the limit. *)
Theorem fetch_requests_bounded url params w r w' :
  0 <= cc_max_attempts cfg -> 0 <= cc_max_pages cfg ->
  fetch cfg valid_url url params w = (r, w') ->
  (exists new, wb_sent w' = wb_sent w ++ new /\ Forall proper new /\
     Z.of_nat (length new) <= 2 * cc_max_attempts cfg * cc_max_pages cfg) /\
  (forall rows, r = Ok rows -> Z.of_nat (length rows) <= cc_max_items cfg).
Proof.
  intros Ha Hp E. unfold fetch in E. split.
  - destruct (sends_fetch_loop _ _ _ _ _ _ _ E) as (new & ? & ? & ?). exists new. split; [done|]. split; [done|]. nia.
  - intros rows ->. by apply fetch_loop_items in E.
Qed.
End Client.

(** A failing page that is asked for again with a fresh token, then a second page *)
#[local] Instance example_urls : UrlSplit := {| urlsplit s := Ok (mkUrl (u "https") (u "graph.microsoft.com") s [] None) |}.
Definition example_client : client_config := mkClientConfig (u "t") (Ok (mkSecretFile 6 true (Ok (u "secret")))) (u "scope") 3 2 10.
Definition token_answer : response :=
  mkResponse 200 50 (Ok (JObject [(u "access_token", JString (u "abc")); (u "expires_in", JInt 3600)])) [].
Definition page_answer (next : json) : response :=
  mkResponse 200 50 (Ok (JObject [(u "value", JArray [JObject []]); (u "@odata.nextLink", next)])) [].
Definition example_web : web :=
  mkWeb [Some token_answer; Some (mkResponse 401 0 (Raise ValueError) []); Some token_answer; Some (page_answer (JString (u "p"))); Some (page_answer JNull)]
    [fl_of_Z 1; fl_of_Z 2; fl_of_Z 3; fl_of_Z 4; fl_of_Z 5] [] [] None (fl_of_Z 0).

Lemma fetch_requests_bounded_witness :
  (fetch example_client (fun s => Ok tt) (u "p") [] example_web).1 = Ok [[]; []] /\
  Z.of_nat (length (wb_sent (fetch example_client (fun s => Ok tt) (u "p") [] example_web).2)) = 5 /\
  exists new, wb_sent (fetch example_client (fun s => Ok tt) (u "p") [] example_web).2 = [] ++ new /\
    Forall (proper example_client (fun s => Ok tt)) new /\ Z.of_nat (length new) <= 12.
Proof.
  split; [vm_compute; reflexivity|]. split; [vm_compute; reflexivity|].
  destruct (fetch example_client (fun s => Ok tt) (u "p") [] example_web) as [r w'] eqn:E.
  destruct (fetch_requests_bounded example_client (fun s => Ok tt) (u "p") [] example_web r w') as [(new & H1 & H2 & H3) _]; [done|done|exact E|].
  exists new. split; [exact H1|]. split; [exact H2|exact H3].
Defined.

(** ** The texts of instants *)

(** ** The characters of a printed instant *)

(** A printed instant has digits and the marks [+ - . : T] only. *)
Definition clock_text (s : str) : Prop := Forall (fun c => (43 <= c <= 84)%N) s.

Lemma fixed_clock w n : 0 <= n < 10 ^ Z.of_nat w -> clock_text (fixed w n).
Proof. intros Hn. eapply List.Forall_impl; [|by apply fixed_digits]. intros c (d & Hd & ->). lia. Qed.

(** What is printed after the seconds, without the zone *)
Definition fraction_text (us : Z) : str := if us =? 0 then [] else u "." ++ fixed 6 us.

Lemma date_text_app d r s : date_text d (r ++ s) = date_text d r ++ s.
Proof. destruct d as [[y m] d]. unfold date_text. by rewrite !app_comm_cons, !app_assoc, ?app_comm_cons, ?app_assoc. Qed.

Lemma time_text_app n r s : time_text n (r ++ s) = time_text n r ++ s.
Proof. unfold time_text. by rewrite !app_comm_cons, !app_assoc, ?app_comm_cons, ?app_assoc. Qed.

Lemma fraction_clock us : 0 <= us < 1000000 -> clock_text (fraction_text us) /\ (length (fraction_text us) <= 7)%nat.
Proof.
  intros Hus. unfold fraction_text. case_match; [split; [constructor|cbn; lia]|]. split.
  - apply Forall_app. split; [by repeat constructor|]. by apply fixed_clock.
  - rewrite length_app, fixed_length. done.
Qed.

Lemma time_clock n r : 0 <= n < 86400 -> clock_text r -> clock_text (time_text n r) /\ length (time_text n r) = (8 + length r)%nat.
Proof.
  intros Hn Hr. unfold time_text, clock_text. split.
  - repeat (apply Forall_app; split; [apply fixed_clock; cbn [Z.of_nat Pos.of_succ_nat Pos.succ]; Z.div_mod_to_equations; lia|]; try (constructor; [lia|])). done.
  - repeat (rewrite length_app, fixed_length; cbn [length]). lia.
Qed.

Lemma date_clock y m d r : 1 <= y <= 9999 -> 1 <= m <= 12 -> 1 <= d <= 31 -> clock_text r ->
  clock_text (date_text (y, m, d) r) /\ length (date_text (y, m, d) r) = (10 + length r)%nat.
Proof.
  intros Hy Hm Hd Hr. unfold date_text, clock_text. split.
  - repeat (apply Forall_app; split; [apply fixed_clock; cbn [Z.of_nat Pos.of_succ_nat Pos.succ]; lia|]; try (constructor; [lia|])). done.
  - repeat (rewrite length_app, fixed_length; cbn [length]). lia.
Qed.

Section Clock.
Context {U : Unicode}.

(** An instant, less the zone *)
Definition clock_part (t : Z) : str := date_text (date_of t) (84%N :: time_text (second_of_day t) (fraction_text (t mod 1000000))).

Lemma isoformat_clock_part t : in_datetime_range t = true -> isoformat t = clock_part t ++ u "+00:00".
Proof.
  intros Ht. rewrite isoformat_text by done. unfold clock_part, micros_text. fold (fraction_text (t mod 1000000)).
  by rewrite time_text_app, app_comm_cons, date_text_app.
Qed.

Lemma clock_part_clock t : in_datetime_range t = true -> clock_text (clock_part t) /\ (length (clock_part t) <= 26)%nat.
Proof.
  intros Ht. pose proof (date_of_range t Ht) as Hd. pose proof (second_of_day_range t) as Hs. pose proof (Z.mod_pos_bound t 1000000 ltac:(lia)) as Hu.
  unfold clock_part. destruct (date_of t) as [[y m] d]. destruct (fraction_clock _ Hu) as [Hf Hl]. destruct (time_clock _ _ Hs Hf) as [Htc Htl].
  destruct (date_clock y m d (84%N :: time_text (second_of_day t) (fraction_text (t mod 1000000)))) as [Hc Hlen]; [tauto..|by constructor; [lia|]|].
  split; [done|]. rewrite Hlen. cbn [length]. lia.
Qed.

(** Nothing is stripped off a text without spaces. *)
Lemma strip_none s : Forall (fun c => isspace_c c = false) s -> strip s = s.
Proof. intros Hs. unfold strip, lstrip. rewrite (drop_while_none _ s) by done. rewrite drop_while_none by (by apply Forall_rev). apply rev_involutive. Qed.

Lemma graphic_nospace s : Forall (fun c => (33 <= c <= 126)%N) s -> Forall (fun c => isspace_c c = false) s.
Proof.
  intros Hs. eapply List.Forall_impl; [|exact Hs]. intros c Hc. cbn beta in *. unfold isspace_c, PyText.between. rewrite (proj2 (N.ltb_lt c 256)) by lia.
  rewrite !orb_false_iff, !andb_false_iff, !N.leb_gt, !N.eqb_neq. lia.
Qed.

Lemma replace_char_none c by_ s : Forall (fun d => d <> c) s -> replace_char c by_ s = s.
Proof.
  intros Hs. induction Hs as [|d s Hd Hs IH]; [done|]. unfold replace_char in *. cbn. rewrite (proj2 (N.eqb_neq d c)) by done. cbn. by rewrite IH.
Qed.

Lemma replace_char_app c by_ s t : replace_char c by_ (s ++ t) = replace_char c by_ s ++ replace_char c by_ t.
Proof. unfold replace_char. by rewrite fmap_app, concat_app. Qed.

(** The texts the connectors print of an instant, with and without [Z] *)
Lemma zulu_text t : in_datetime_range t = true -> zulu t = clock_part t ++ u "Z".
Proof.
  intros Ht. unfold zulu. rewrite isoformat_clock_part, length_app by done. change (length (u "+00:00")) with 6%nat.
  by rewrite Nat.add_sub, take_app_length.
Qed.

Lemma timestamp_clock `{IsoForms} t zone : in_datetime_range t = true -> zone = u "Z" \/ zone = u "+00:00" ->
  timestamp (JString (clock_part t ++ zone)) = Ok t.
Proof.
  intros Ht Hz. destruct (clock_part_clock t Ht) as [Hc Hl].
  assert (Hs : strip (clock_part t ++ zone) = clock_part t ++ zone).
  { apply strip_none, graphic_nospace, Forall_app. split; [eapply List.Forall_impl; [|exact Hc]; intros c; cbn beta; lia|].
    destruct Hz as [-> | ->]; [change (u "Z") with [90%N]|change (u "+00:00") with [43; 48; 48; 58; 48; 48]%N]; by repeat constructor. }
  assert (Hr : replace_char 90 (u "+00:00") (clock_part t ++ zone) = isoformat t).
  { rewrite replace_char_app, replace_char_none, isoformat_clock_part by (done || (eapply List.Forall_impl; [|exact Hc]; intros c; cbn beta; lia)).
    by destruct Hz as [-> | ->]. }
  unfold timestamp, text_of. rewrite Hs. rewrite bool_decide_false by (destruct Hz as [-> | ->]; intros E; by destruct (clock_part t)).
  rewrite take_ge by (rewrite length_app; destruct Hz as [-> | ->]; [change (length (u "Z")) with 1%nat|change (length (u "+00:00")) with 6%nat]; lia). cbn [mbind res_bind].
  rewrite Hr. by rewrite fromisoformat_isoformat.
Qed.

Lemma timestamp_zulu `{IsoForms} t : in_datetime_range t = true -> timestamp (JString (zulu t)) = Ok t.
Proof. intros Ht. rewrite zulu_text by done. apply timestamp_clock; [done|by left]. Qed.

Lemma timestamp_isoformat `{IsoForms} t : in_datetime_range t = true -> timestamp (JString (isoformat t)) = Ok t.
Proof. intros Ht. rewrite isoformat_clock_part by done. apply timestamp_clock; [done|by right]. Qed.

(** As texts an instant of a whole second comes after the others of that second. *)
Lemma zulu_fraction t us : in_datetime_range t = true -> in_datetime_range (t + us) = true -> t mod 1000000 = 0 -> 0 < us < 1000000 ->
  str_ltb (zulu (t + us)) (zulu t) = true.
Proof.
  intros Ht Ht' Hw Hus. rewrite !zulu_text by done. unfold clock_part.
  assert (Hd : date_of (t + us) = date_of t) by (unfold date_of; f_equal; Z.div_mod_to_equations; lia).
  assert (Hs : second_of_day (t + us) = second_of_day t) by (unfold second_of_day; Z.div_mod_to_equations; lia).
  assert (Hu : (t + us) mod 1000000 = us) by (Z.div_mod_to_equations; lia).
  rewrite Hd, Hs, Hu, Hw. rewrite <-!date_text_app, <-!app_comm_cons, <-!time_text_app.
  pose proof (date_of_range t Ht) as Hr. pose proof (second_of_day_range t) as Hsr. unfold date_text, time_text. destruct (date_of t) as [[y m] d].
  unfold fraction_text. rewrite (proj2 (Z.eqb_neq us 0)) by lia.
  repeat first [rewrite (fixed_ltb 4) by (cbn [Z.of_nat Pos.of_succ_nat Pos.succ]; lia)
               |rewrite (fixed_ltb 2) by (cbn [Z.of_nat Pos.of_succ_nat Pos.succ]; Z.div_mod_to_equations; lia)
               |rewrite str_ltb_cons|rewrite Z.ltb_irrefl, Z.eqb_refl; cbn [orb andb]]. reflexivity.
Qed.
Lemma str_ltb_same_suffix x y s : length x = length y -> str_ltb (x ++ s) (y ++ s) = str_ltb x y.
Proof.
  revert y. induction x as [|c x IH]; intros [|d y] Hl; try done; [cbn [app]; by rewrite str_ltb_irrefl|].
  injection Hl as Hl. cbn [app str_ltb]. by rewrite IH.
Qed.

Lemma clock_part_whole t : in_datetime_range t = true -> t mod 1000000 = 0 -> length (clock_part t) = 19%nat.
Proof.
  intros Ht Hw. pose proof (date_of_range t Ht) as Hd. pose proof (second_of_day_range t) as Hs. unfold clock_part. rewrite Hw.
  destruct (date_of t) as [[y m] d]. destruct (time_clock _ [] Hs) as [Htc Htl]; [constructor|].
  destruct (date_clock y m d (84%N :: time_text (second_of_day t) [])) as [_ Hlen]; [tauto..|by constructor; [lia|]|].
  change (fraction_text 0) with (@nil N). rewrite Hlen. cbn [length]. by rewrite Htl.
Qed.

(** The texts of whole seconds come in the order of the instants. *)
Lemma zulu_whole a b : in_datetime_range a = true -> in_datetime_range b = true -> a mod 1000000 = 0 -> b mod 1000000 = 0 ->
  str_ltb (zulu a) (zulu b) = (a <? b).
Proof.
  intros Ha Hb Hwa Hwb. rewrite <-isoformat_ltb, !zulu_text, !isoformat_clock_part by done.
  by rewrite !str_ltb_same_suffix by (by rewrite !clock_part_whole).
Qed.
End Clock.
