(* ===== verification/Mdvm.v ===== *)
(** * Microsoft Defender Vulnerability Management ([mdvm.py])

    The connector keeps the set of active findings it has been told of: a baseline
    replaces it, a delta applies the changes since the watermark, with an overlap.
    Every device a synchronisation touches is then sent to the analyzer as a complete
    snapshot, and the watermark moves only when all of them were derived.

    The two tables are maps from their keys.  A stored payload is the model it was
    dumped from; the texts of the dumps are parameters ([MdvmDumps]), of which the code
    uses the lengths and the hashes.  The identifier of a run and the instants are
    arguments, texts have no lone surrogates, and the metrics are not modelled. *)

From stdpp Require Import base gmap sets strings list numbers.
From Stdlib Require Import ZArith Lia SpecFloat.
From S2P Require Import Prelude PyText PyHash PyFloat PyJson PyTime Compare Versioning Severity Osv Detect Correlate Envelopes Acts DefenderClient.

#[local] Open Scope Z_scope.

(** [MdvmConfig], with what a synchronisation reads of it; the host map file is read
    in every run. *)
Record MdvmConfig := mkMdvmConfig {
  vc_client : client_config;
  vc_api_host : str;
  vc_poll_seconds : float;
  vc_baseline_refresh_hours : float;
  vc_delta_overlap_seconds : float;
  vc_page_size : Z;
  vc_findings_per_snapshot : Z;
  vc_snapshots_per_batch : Z;
  vc_batch_max_bytes : Z;
  vc_state_max_findings : Z;
  vc_state_max_bytes : Z;
}.

Definition _ALLOWED_API_HOSTS : list str :=
  [u "api.security.microsoft.com"; u "us.api.security.microsoft.com"; u "eu.api.security.microsoft.com";
   u "uk.api.security.microsoft.com"; u "au.api.security.microsoft.com"; u "swa.api.security.microsoft.com";
   u "ina.api.security.microsoft.com"; u "aea.api.security.microsoft.com"].
Definition _BASELINE_PATH : str := u "/api/machines/SoftwareVulnerabilitiesByMachine".
Definition _DELTA_PATH : str := u "/api/machines/SoftwareVulnerabilityChangesByMachine".

(** ** Remote records *)

(** [_MdvmChange] *)
Inductive change_action := UPSERT | FIXED.
#[global] Instance change_action_dec : EqDecision change_action.
Proof. solve_decision. Defined.

Record mdvm_change := mkChange {
  ch_record_key : str;
  ch_action : change_action;
  ch_device_id : str;
  ch_device_name : str;
  ch_os_platform : str;
  ch_os_version : option str;
  ch_os_architecture : option str;
  ch_observed_at : Z;
  ch_finding : MdvmSoftwareVulnerability;
}.

Section Records.
Context {U : Unicode} `{IsoForms} `{UrlSplit}.

(** [_identifier]; a [bool] is an [int] to Python. *)
Definition identifier (value : json) : option str :=
  let text s := if bool_decide (strip s = []) then None else Some (take 4096 (strip s)) in
  match value with
  | JString s => text s
  | JInt n => text (dec_Z n)
  | JBool b => Some (if b then u "True" else u "False")
  | _ => None
  end.

(** [_optional_time]; the text of a value that is no string is never blank. *)
Definition optional_time (value : json) : res (option Z) :=
  match value with
  | JNull => Ok None
  | JString s => if bool_decide (strip s = []) then Ok None else Some <$> timestamp value
  | _ => Some <$> timestamp value
  end.

(** [_cvss] *)
Definition cvss_score (value : json) : res (option float) :=
  let bounded x := if isfinite x && fl_leb (fl_of_Z 0) x && fl_leb x (fl_of_Z 10) then Ok (Some x) else Raise MdeUpstreamError in
  match value with
  | JNull => Ok None
  | JString s => match float_of_text s with Some x => bounded x | None => Raise MdeUpstreamError end
  | JInt n => if isfinite (fl_of_Z n) then bounded (fl_of_Z n) else Raise OverflowError
  | JFloat x => bounded x
  | JBool b => bounded (fl_of_Z (if b then 1 else 0))
  | _ => Raise MdeUpstreamError
  end.

(** [_path_list] *)
Definition path_list (value : json) : list str := strings_of 1024 64 value.

Definition is_digit_c (c : N) : bool := PyText.between 48 c 57.

(** [_CVE.fullmatch] *)
Definition is_cve (s : str) : bool :=
  match s with
  | c :: v :: e :: 45%N :: y1 :: y2 :: y3 :: y4 :: 45%N :: number =>
      bool_decide (c ∈ [67; 99]%N) && bool_decide (v ∈ [86; 118]%N) && bool_decide (e ∈ [69; 101]%N)
      && forallb is_digit_c [y1; y2; y3; y4] && (4 <=? length number)%nat && forallb is_digit_c number
  | _ => false
  end.

Definition short_texts (texts : list str) : bool := forallb (short max_wire_string) texts.
Definition optional_texts (texts : list (option str)) : list str := omap id texts.

(** Constructing a [MdvmSoftwareVulnerability] *)
Definition validate_finding (f : MdvmSoftwareVulnerability) : res MdvmSoftwareVulnerability :=
  let f := mkMdvmVulnerability (trim (mv_record_id f)) (trim (mv_cve_id f)) (trim (mv_software_vendor f)) (trim (mv_software_name f))
    (trim (mv_software_version f)) (mv_severity f) (mv_cvss_score f) (trim <$> mv_exploitability_level f)
    (trim <$> mv_recommended_security_update f) (trim <$> mv_recommended_security_update_id f)
    (trim <$> mv_recommended_security_update_url f) (trim <$> mv_recommendation_reference f) (mv_security_update_available f)
    (mv_first_seen_at f) (mv_last_seen_at f) (mv_last_event_at f) (trim <$> mv_rbac_group_id f) (trim <$> mv_rbac_group_name f)
    (trim <$> mv_disk_paths f) (trim <$> mv_registry_paths f) (mv_evidence_truncated f) in
  if short_texts ([mv_record_id f; mv_software_vendor f; mv_software_name f; mv_software_version f]
       ++ optional_texts [mv_exploitability_level f; mv_recommended_security_update f; mv_recommended_security_update_id f;
                          mv_recommended_security_update_url f; mv_recommendation_reference f; mv_rbac_group_id f; mv_rbac_group_name f]
       ++ mv_disk_paths f ++ mv_registry_paths f)
     && short max_correlation_identifier (mv_cve_id f)
     && (length (mv_disk_paths f) <=? 64)%nat && (length (mv_registry_paths f) <=? 64)%nat
  then Ok f else Raise ValueError.

(** [isinstance(value, list) and len(value) > len(paths)] *)
Definition paths_cut (value : json) (paths : list str) : bool :=
  match value with JArray items => (length paths <? length items)%nat | _ => false end.

(** [a or b] of optional strings that are not empty when present *)
Definition first_of {A} (xs : list (option A)) : option A := head (omap id xs).

(** [str(raw.get("status") or "").strip().lower()]; the text of a value that is no
    string is no status. *)
Definition status_text (value : json) : str := match value with JString s => lower (strip s) | _ => [] end.

(** [normalize_mdvm_record]; [None] is a record without a CVE. *)
Definition normalize_mdvm_record (raw : list (str * json)) (mode : mdvm_mode) (fallback_time : Z) : res (option mdvm_change) :=
  let get key := get_value key raw in
  match identifier (get (u "cveId")) with
  | None => Ok None
  | Some cve_id =>
      let cve_id := upper cve_id in
      _ ← raise_if (negb (is_cve cve_id)) MdeUpstreamError;
      match identifier (get (u "id")), identifier (get (u "deviceId")) with
      | Some record_id, Some device_id =>
          let status := status_text (get (u "status")) in
          _ ← raise_if (bool_decide (mode = DELTA) && negb (bool_decide (status ∈ [u "new"; u "updated"; u "fixed"]))) MdeUpstreamError;
          event_at ← optional_time (get (u "eventTimestamp"));
          last_seen ← optional_time (get (u "lastSeenTimestamp"));
          first_seen ← optional_time (get (u "firstSeenTimestamp"));
          let observed := default fallback_time (first_of [event_at; last_seen; first_seen]) in
          let rbac_id := identifier (get (u "rbacGroupId")) in
          let rbac_name := optional_text (get (u "rbacGroupName")) in
          let scope := default [] (first_of [rbac_id; rbac_name]) in
          let text key otherwise := default otherwise (optional_text (get key)) in
          let disk_paths := path_list (get (u "diskPaths")) in
          let registry_paths := path_list (get (u "registryPaths")) in
          score ← cvss_score (get (u "cvssScore"));
          url ← https_url (get (u "recommendedSecurityUpdateUrl"));
          finding ← validate_finding
            (mkMdvmVulnerability record_id cve_id (text (u "softwareVendor") (u "unknown")) (text (u "softwareName") (u "unknown"))
               (text (u "softwareVersion") (u "unknown")) (severity_named (get (u "vulnerabilitySeverityLevel"))) score
               (optional_text (get (u "exploitabilityLevel"))) (optional_text (get (u "recommendedSecurityUpdate")))
               (identifier (get (u "recommendedSecurityUpdateId"))) url (identifier (get (u "recommendationReference")))
               (match get (u "securityUpdateAvailable") with JBool b => Some b | _ => None end)
               first_seen last_seen event_at rbac_id rbac_name disk_paths registry_paths
               (paths_cut (get (u "diskPaths")) disk_paths || paths_cut (get (u "registryPaths")) registry_paths));
          Ok (Some (mkChange (sha256_hex (record_id ++ 0%N :: scope))
            (if bool_decide (mode = DELTA) && bool_decide (status = u "fixed") then FIXED else UPSERT)
            device_id (text (u "deviceName") device_id) (text (u "osPlatform") (u "Microsoft Defender device"))
            (optional_text (get (u "osVersion"))) (optional_text (get (u "osArchitecture"))) observed finding))
      | _, _ => Raise MdeUpstreamError
      end
  end.
End Records.

(** ** The materialised state *)

(** A row of [mdvm_devices] *)
Record device_row := mkDevice {
  dv_device_name : str;
  dv_os_platform : str;
  dv_os_version : option str;
  dv_os_architecture : option str;
  dv_observed_at : str;
}.

(** The columns of [mdvm_sync_state] that only this connector has *)
Record mdvm_columns := mkMdvmColumns {
  mc_last_baseline_at : option str;
  mc_active_device_count : Z;
  mc_active_finding_count : Z;
  mc_last_change_count : Z;
}.

(** The database: [mdvm_findings] maps a record to its device and payload. *)
Record mdvm_state := mkMdvmState {
  st_sync : sync_row mdvm_columns;
  st_devices : gmap str device_row;
  st_findings : gmap str (str * MdvmSoftwareVulnerability);
}.

#[global] Instance eta_mdvm_state : Eta mdvm_state := fun s => mkMdvmState (st_sync s) (st_devices s) (st_findings s).

(** The dumps of models: the characters of a payload, the bytes of a snapshot, and the
    two texts that are hashed *)
Class MdvmDumps := {
  payload_chars : MdvmSoftwareVulnerability -> Z;
  snapshot_bytes : MdvmDeviceSnapshot -> Z;
  part_content : str -> str -> str -> Z -> Z -> list MdvmSoftwareVulnerability -> str;
  batch_content : str -> mdvm_mode -> list MdvmDeviceSnapshot -> str;
}.

Section State.
Context {U : Unicode} `{IsoForms} {D : MdvmDumps} (max_findings max_bytes : Z).

(** [_upsert_device]: the latest text of the observations, the rest from the change *)
Definition upsert_device (c : mdvm_change) (devices : gmap str device_row) : gmap str device_row :=
  let observed := isoformat (ch_observed_at c) in
  let observed := match devices !! ch_device_id c with
                  | Some d => if str_ltb (dv_observed_at d) observed then observed else dv_observed_at d
                  | None => observed
                  end in
  <[ch_device_id c := mkDevice (ch_device_name c) (ch_os_platform c) (ch_os_version c) (ch_os_architecture c) observed]> devices.

(** [INSERT OR REPLACE INTO mdvm_findings] and [DELETE FROM mdvm_findings] *)
Definition apply_change (c : mdvm_change) (findings : gmap str (str * MdvmSoftwareVulnerability))
    : gmap str (str * MdvmSoftwareVulnerability) :=
  match ch_action c with
  | UPSERT => <[ch_record_key c := (ch_device_id c, ch_finding c)]> findings
  | FIXED => delete (ch_record_key c) findings
  end.

(** [_ensure_capacity] *)
Definition ensure_capacity (findings : gmap str (str * MdvmSoftwareVulnerability)) : res unit :=
  let sizes := (fun f => payload_chars f.2.2) <$> map_to_list findings in
  _ ← raise_if (max_findings <? Z.of_nat (length sizes)) MdeUpstreamError;
  raise_if (max_bytes <? foldr Z.add 0 sizes) MdeUpstreamError.

(** [_assert_owner] *)
Definition assert_owner (owner : str) (s : mdvm_state) : res unit := raise_if (negb (owns owner (st_sync s))) RuntimeError.

Definition touched (changes : list mdvm_change) : gset str := list_to_set (ch_device_id <$> changes).

(** The transaction of [replace_baseline]; every change is inserted, as a baseline has
    no fixed ones. *)
Definition replace_baseline (owner : str) (changes : list mdvm_change) (s : mdvm_state) : res (gset str * mdvm_state) :=
  _ ← assert_owner owner s;
  let devices := fold_left (fun d c => upsert_device c d) changes ∅ in
  let findings := fold_left (fun f c => <[ch_record_key c := (ch_device_id c, ch_finding c)]> f) changes ∅ in
  _ ← ensure_capacity findings;
  Ok (touched changes, s <| st_devices := devices |> <| st_findings := findings |>).

(** The check that no record is both fixed and active at one instant *)
Fixpoint check_actions (changes : list mdvm_change) (actions : list ((str * Z) * change_action)) : res unit :=
  match changes with
  | [] => Ok tt
  | c :: changes =>
      let key := (ch_record_key c, ch_observed_at c) in
      match od_get key actions with
      | Some previous => if bool_decide (previous = ch_action c) then check_actions changes (od_set key (ch_action c) actions) else Raise MdeUpstreamError
      | None => check_actions changes (od_set key (ch_action c) actions)
      end
  end.

Definition action_rank (a : change_action) : Z := match a with UPSERT => 0 | FIXED => 1 end.

(** The key of [sorted] *)
Definition change_ltb (a b : mdvm_change) : bool :=
  (ch_observed_at a <? ch_observed_at b)
  || ((ch_observed_at a =? ch_observed_at b) && (action_rank (ch_action a) <? action_rank (ch_action b))).

(** [apply_delta] *)
Definition apply_delta (owner : str) (changes : list mdvm_change) (s : mdvm_state) : res (gset str * mdvm_state) :=
  _ ← check_actions changes [];
  _ ← assert_owner owner s;
  let ordered := isort change_ltb changes in
  let devices := fold_left (fun d c => upsert_device c d) ordered (st_devices s) in
  let findings := fold_left (fun f c => apply_change c f) ordered (st_findings s) in
  _ ← ensure_capacity findings;
  Ok (touched changes, s <| st_devices := devices |> <| st_findings := findings |>).

(** ** Snapshots *)

(** Constructing a [MdvmDeviceSnapshot] *)
Definition validate_snapshot (s : MdvmDeviceSnapshot) : res MdvmDeviceSnapshot :=
  let s := mkSnapshot (trim (ms_report_id s)) (trim (ms_device_id s)) (trim (ms_host_id s)) (trim (ms_device_name s)) (trim (ms_os_platform s))
    (trim <$> ms_os_version s) (trim <$> ms_os_architecture s) (ms_observed_at s) (ms_part_index s) (ms_part_total s) (ms_vulnerabilities s) in
  if short max_correlation_identifier (ms_report_id s) && short max_correlation_identifier (ms_host_id s)
     && short_texts ([ms_device_id s; ms_device_name s; ms_os_platform s] ++ optional_texts [ms_os_version s; ms_os_architecture s])
     && (1 <=? ms_part_index s) && (1 <=? ms_part_total s) && (length (ms_vulnerabilities s) <=? 4096)%nat
  then Ok s else Raise ValueError.

(** [max(1, math.ceil(n / size))] *)
Definition part_count (n size : Z) : Z := Z.max 1 (fl_ceil (fl_div (fl_of_Z n) (fl_of_Z size))).

(** [rows[i * size : (i + 1) * size]] of a positive size *)
Definition part_of {A} (rows : list A) (size : Z) (index : nat) : list A :=
  take (Z.to_nat size) (drop (index * Z.to_nat size) rows).

(** [SELECT device_id, payload ... ORDER BY record_key], of one device *)
Definition device_findings (device_id : str) (s : mdvm_state) : list MdvmSoftwareVulnerability :=
  (fun r => r.2.2) <$> base.filter (fun r => r.2.1 = device_id) (isort (fun a b => str_ltb a.1 b.1) (map_to_list (st_findings s))).

(** [resolve(...) or _fallback("mde", device_id)] *)
Definition host_of_device (entries : list (str * str)) (device_id device_name : str) : str :=
  match resolve_host entries (Some device_id) None (Some device_name) (Some (take_while (fun c => negb (c =? 46)%N) device_name)) with
  | Some ((_ :: _) as host) => host
  | _ => fallback_host (u "mde") device_id
  end.

(** The parts of one device *)
Definition device_parts (tenant_id : str) (entries : list (str * str)) (findings_per_snapshot : Z)
    (device_id : str) (device : device_row) (rows : list MdvmSoftwareVulnerability) : res (list MdvmDeviceSnapshot) :=
  let parts := part_count (Z.of_nat (length rows)) findings_per_snapshot in
  mapM (fun index =>
    let part := part_of rows findings_per_snapshot index in
    let content := part_content tenant_id device_id (dv_observed_at device) (Z.of_nat index + 1) parts part in
    observed ← timestamp (JString (dv_observed_at device));
    validate_snapshot
      (mkSnapshot (u "mdvm-report-" ++ sha256_hex content) device_id (host_of_device entries device_id (dv_device_name device))
         (dv_device_name device) (dv_os_platform device) (dv_os_version device) (dv_os_architecture device) observed
         (Z.of_nat index + 1) parts part)) (seq 0 (Z.to_nat parts)).

(** [device_snapshots] *)
Definition device_snapshots (device_ids : gset str) (tenant_id : str) (entries : list (str * str)) (findings_per_snapshot : Z)
    (s : mdvm_state) : res (list MdvmDeviceSnapshot) :=
  let devices := isort (fun a b : str * device_row => str_ltb a.1 b.1)
    (base.filter (fun d : str * device_row => d.1 ∈ device_ids) (map_to_list (st_devices s))) in
  parts ← mapM (fun d : str * device_row => device_parts tenant_id entries findings_per_snapshot d.1 d.2 (device_findings d.1 s)) devices;
  Ok (List.concat parts).

(** [success] *)
Definition record_mdvm_success (owner : str) (watermark now : Z) (mode : mdvm_mode) (changes : Z) (s : mdvm_state) : res mdvm_state :=
  let device_count := Z.of_nat (size (list_to_set (C := gset str) ((fun r => r.2.1) <$> map_to_list (st_findings s)))) in
  let columns c := mkMdvmColumns (match mode with BASELINE => Some (isoformat watermark) | DELTA => mc_last_baseline_at c end)
                     device_count (Z.of_nat (size (st_findings s))) changes in
  row ← record_success owner watermark now columns (st_sync s);
  Ok (s <| st_sync := row |>).
End State.

(** ** A synchronisation *)

(** [MdvmSyncOutcome] *)
Record MdvmSyncOutcome := mkMdvmOutcome {
  mo_acquired : bool;
  mo_mode : option mdvm_mode;
  mo_changes : Z;
  mo_devices : Z;
  mo_findings : Z;
  mo_batches : Z;
}.

(** The network, the database and the analyzer *)
Record mdvm_world (A : Type) := mkMdvmWorld { mw_web : web; mw_state : mdvm_state; mw_analyzer : A }.
Arguments mkMdvmWorld {A}.
Arguments mw_web {A}.
Arguments mw_state {A}.
Arguments mw_analyzer {A}.

#[global] Instance eta_mdvm_world {A} : Eta (mdvm_world A) := fun w => mkMdvmWorld (mw_web w) (mw_state w) (mw_analyzer w).

Section Engine.
Context {U : Unicode} `{IsoForms} `{UrlSplit} {D : MdvmDumps} (cfg : MdvmConfig) (error_text : exn -> str).

(** The loop of [_batches] that fills the groups *)
Fixpoint fill_groups (snapshots current : list MdvmDeviceSnapshot) (current_bytes : Z) : res (list (list MdvmDeviceSnapshot)) :=
  match snapshots with
  | [] => Ok (match current with [] => [] | _ => [current] end)
  | s :: snapshots =>
      let size := snapshot_bytes s in
      _ ← raise_if (vc_batch_max_bytes cfg <? size) MdeUpstreamError;
      if negb (bool_decide (current = []))
         && ((vc_snapshots_per_batch cfg <=? Z.of_nat (length current)) || (vc_batch_max_bytes cfg <? current_bytes + size))
      then rest ← fill_groups snapshots [s] size; Ok (current :: rest)
      else fill_groups snapshots (current ++ [s]) (current_bytes + size)
  end.

(** Constructing a [MdvmVulnerabilityBatch] of a group, which is not empty *)
Definition mdvm_batch (mode : mdvm_mode) (group : list MdvmDeviceSnapshot) : res MdvmVulnerabilityBatch :=
  let tenant_id := cc_tenant_id (vc_client cfg) in
  let b := mkMdvmBatch (trim (u "mdvm-sync-" ++ sha256_hex (batch_content tenant_id mode group)))
             (match ms_observed_at <$> group with [] => 0 | t :: ts => fold_left Z.max ts t end) (trim tenant_id) mode group in
  if short max_correlation_identifier (vb_batch_id b) && short max_wire_string (vb_tenant_id b)
     && (length group <=? max_nested_items)%nat
  then Ok b else Raise ValueError.

(** [_batches] *)
Definition batches (mode : mdvm_mode) (snapshots : list MdvmDeviceSnapshot) : res (list MdvmVulnerabilityBatch) :=
  groups ← fill_groups snapshots [] 0;
  mapM (mdvm_batch mode) groups.

(** [_validate_api_url] *)
Definition valid_api_url (path url : str) : res unit := valid_page_url _ALLOWED_API_HOSTS path url.

(** [_fetch], with its [_get] *)
Definition fetch_export (path : str) (params : list (str * str)) : act web (list (list (str * json))) :=
  fetch (vc_client cfg) (valid_api_url path) (u "https://" ++ vc_api_host cfg ++ path) params.

Definition page_size_param : str * str := (u "pageSize", dec_Z (vc_page_size cfg)).

(** [baseline] and [delta] *)
Definition baseline : act web (list (list (str * json))) := fetch_export _BASELINE_PATH [page_size_param].
Definition delta (since : Z) : act web (list (list (str * json))) :=
  fetch_export _DELTA_PATH [page_size_param; (u "sinceTime", zulu since)].

(** An instant read back from a column; an empty one is none. *)
Definition stored_instant (column : option str) : res (option Z) :=
  match column with Some ((_ :: _) as s) => Some <$> timestamp (JString s) | _ => Ok None end.

(** Whether a complete baseline is due *)
Definition baseline_due (started : Z) (watermark last_baseline : option Z) : res bool :=
  match watermark, last_baseline with
  | Some w, Some b =>
      refresh ← hours_of (vc_baseline_refresh_hours cfg);
      Ok ((refresh <=? started - b) || (13 * 86400000000 <=? started - w))
  | _, _ => Ok true
  end.

(** [watermark - timedelta(seconds=overlap)] *)
Definition delta_since (watermark : Z) : res Z :=
  overlap ← seconds_of (vc_delta_overlap_seconds cfg);
  if in_datetime_range (watermark - overlap) then Ok (watermark - overlap) else Raise OverflowError.

(** The changes of the records that have a CVE *)
Definition normalize_all (mode : mdvm_mode) (started : Z) (raw : list (list (str * json))) : res (list mdvm_change) :=
  changes ← mapM (fun r => normalize_mdvm_record r mode started) raw;
  Ok (omap id changes).

Section Run.
Context {A : Type} (ingest : MdvmVulnerabilityBatch -> act A (option str)) (host_map : option (res map_file)).

Definition on_web {B} (m : act web B) : act (mdvm_world A) B := fun w => let '(r, x) := m (mw_web w) in (r, w <| mw_web := x |>).
Definition on_analyzer {B} (m : act A B) : act (mdvm_world A) B := fun w => let '(r, x) := m (mw_analyzer w) in (r, w <| mw_analyzer := x |>).
(** A transaction: what raises is rolled back. *)
Definition on_state {B} (m : mdvm_state -> res (B * mdvm_state)) : act (mdvm_world A) B := fun w =>
  match m (mw_state w) with
  | Ok (b, s) => (Ok b, w <| mw_state := s |>)
  | Raise e => (Raise e, w)
  end.

(** [for batch in batches: ...]: the analyzer derives each completely. *)
Fixpoint deliver (bs : list MdvmVulnerabilityBatch) : act (mdvm_world A) unit :=
  match bs with
  | [] => act_ret tt
  | b :: bs =>
      status <~ on_analyzer (ingest b) ;;
      if bool_decide (status = Some (u "complete")) then deliver bs else act_lift (Raise (AnalyzerUpstreamError None))
  end.

(** The [try] of [sync_once] *)
Definition sync_body (owner : str) (started finished : Z) : act (mdvm_world A) MdvmSyncOutcome :=
  row <~ act_get (fun w => st_sync (mw_state w)) ;;
  watermark <~ act_lift (stored_instant (sy_watermark row)) ;;
  last_baseline <~ act_lift (stored_instant (mc_last_baseline_at (sy_columns row))) ;;
  due <~ act_lift (baseline_due started watermark last_baseline) ;;
  let mode := if (due : bool) then BASELINE else DELTA in
  raw <~ match mode with
         | BASELINE => on_web baseline
         | DELTA => since <~ act_lift (delta_since (default 0 watermark)) ;; on_web (delta since)
         end ;;
  changes <~ act_lift (normalize_all mode started raw) ;;
  affected <~ on_state (match mode with
                        | BASELINE => replace_baseline (vc_state_max_findings cfg) (vc_state_max_bytes cfg) owner changes
                        | DELTA => apply_delta (vc_state_max_findings cfg) (vc_state_max_bytes cfg) owner changes
                        end) ;;
  entries <~ act_lift (load_host_map host_map) ;;
  state <~ act_get mw_state ;;
  snapshots <~ act_lift (device_snapshots affected (cc_tenant_id (vc_client cfg)) entries (vc_findings_per_snapshot cfg) state) ;;
  bs <~ act_lift (batches mode snapshots) ;;
  _ <~ deliver bs ;;
  _ <~ on_state (fun s => s ← record_mdvm_success owner started finished mode (Z.of_nat (length changes)) s; Ok (tt, s)) ;;
  act_ret (mkMdvmOutcome true (Some mode) (Z.of_nat (length changes)) (Z.of_nat (size (affected : gset str)))
             (foldr Z.add 0 ((fun s => Z.of_nat (length (ms_vulnerabilities s))) <$> snapshots)) (Z.of_nat (length bs))).

(** [sync_once] *)
Definition sync_once (owner : str) (started finished : Z) : act (mdvm_world A) MdvmSyncOutcome := fun w =>
  let lease_seconds := fl_max (fl_of_Z 900) (fl_mul (vc_poll_seconds cfg) (fl_of_Z 3)) in
  let '(acquired, row) := acquire_lease owner started lease_seconds (st_sync (mw_state w)) in
  let w := w <| mw_state := mw_state w <| st_sync := row |> |> in
  if negb acquired then (Ok (mkMdvmOutcome false None 0 0 0 0), w)
  else
    match sync_body owner started finished w with
    | (Ok o, w) => (Ok o, w)
    | (Raise e, w) =>
        (Raise e, w <| mw_state := mw_state w <| st_sync := record_failure owner (error_text e) (st_sync (mw_state w)) |> |>)
    end.
End Run.
End Engine.
