(* ===== verification/MdvmProps.v ===== *)
(** * What the vulnerability connector guarantees

    The active set follows the remote history: a delta with an overlap gives what the
    whole history gives.  A device a synchronisation touches is reported with exactly
    its active findings, in parts, and the watermark moves only when the analyzer
    derived everything. *)

From stdpp Require Import base gmap sets strings list numbers sorting.
From Stdlib Require Import ZArith Lia SpecFloat.
From S2P Require Import Prelude PyText PyHash PyFloat FloatRound PyJson PyTime TimeOrder Compare Versioning Severity Osv Detect Correlate Envelopes.
From S2P Require Import DefenderClient Acts Mdvm.

#[local] Open Scope Z_scope.

(** ** The newest change of a record *)

(** What a change leaves of its record *)
Definition effect (c : mdvm_change) : option (str * MdvmSoftwareVulnerability) :=
  match ch_action c with UPSERT => Some (ch_device_id c, ch_finding c) | FIXED => None end.

(** A change of the record with no later one *)
Definition newest (log : list mdvm_change) (key : str) (c : mdvm_change) : Prop :=
  c ∈ log /\ ch_record_key c = key /\ forall c', c' ∈ log -> ch_record_key c' = key -> ch_observed_at c' <= ch_observed_at c.

(** The active findings are those a history leaves. *)
Definition materialises (log : list mdvm_change) (findings : gmap str (str * MdvmSoftwareVulnerability)) : Prop :=
  forall key, (exists c, newest log key c /\ findings !! key = effect c) \/ ((forall c, c ∈ log -> ch_record_key c <> key) /\ findings !! key = None).

Lemma apply_change_lookup c f key : apply_change c f !! key = if decide (ch_record_key c = key) then effect c else f !! key.
Proof.
  unfold apply_change, effect. destruct (decide (ch_record_key c = key)) as [<-|Hne]; destruct (ch_action c).
  - by rewrite lookup_insert_eq.
  - by rewrite lookup_delete_eq.
  - by rewrite lookup_insert_ne.
  - by rewrite lookup_delete_ne.
Qed.

Definition changes_of (key : str) (l : list mdvm_change) : list mdvm_change := base.filter (fun c => ch_record_key c = key) l.

(** The last change of a record decides. *)
Lemma apply_changes_lookup l f key :
  fold_left (fun f c => apply_change c f) l f !! key = match last (changes_of key l) with Some c => effect c | None => f !! key end.
Proof.
  revert f. induction l as [|c l IH] using rev_ind; intros f; [done|]. rewrite fold_left_app. cbn [fold_left]. rewrite apply_change_lookup.
  unfold changes_of. rewrite filter_app. destruct (decide (ch_record_key c = key)) as [Hk|Hk].
  - rewrite (filter_cons_True _ c []) by done. rewrite filter_nil, last_snoc. done.
  - rewrite (filter_cons_False _ c []) by done. rewrite filter_nil, app_nil_r. apply IH.
Qed.

Lemma change_ltb_asym a b : change_ltb a b = true -> change_ltb b a = false.
Proof. unfold change_ltb. destruct (ch_action a), (ch_action b); cbn; lia. Qed.

Lemma change_nltb_trans a b c : change_ltb b a = false -> change_ltb c b = false -> change_ltb c a = false.
Proof. unfold change_ltb. destruct (ch_action a), (ch_action b), (ch_action c); cbn; lia. Qed.

Lemma change_nltb_le a b : change_ltb b a = false -> ch_observed_at a <= ch_observed_at b.
Proof. unfold change_ltb. lia. Qed.

Lemma sorted_last_newest l key c : StronglySorted (fun a b => change_ltb b a = false) l -> last (changes_of key l) = Some c -> newest l key c.
Proof.
  induction l as [|d l IH] using rev_ind; intros Hs; [done|]. unfold changes_of. rewrite filter_app.
  apply StronglySorted_app in Hs as (Hcross & Hl & _).
  destruct (decide (ch_record_key d = key)) as [Hk|Hk].
  - rewrite (filter_cons_True _ d []) by done. rewrite filter_nil, last_snoc. intros [= <-].
    split; [apply elem_of_app; right; by left|]. split; [done|].
    intros c' [Hc'|Hc'%list_elem_of_singleton]%elem_of_app _; [|subst; lia].
    apply change_nltb_le, Hcross; [done|by left].
  - rewrite (filter_cons_False _ d []) by done. rewrite filter_nil, app_nil_r. intros Hc.
    destruct (IH Hl Hc) as (Hin & Hkey & Hmax). split; [apply elem_of_app; by left|]. split; [done|].
    intros c' [Hc'|Hc'%list_elem_of_singleton]%elem_of_app Hk'; [by apply Hmax|]. by subst.
Qed.

Lemma newest_perm l l' key c : (forall x, x ∈ l <-> x ∈ l') -> newest l key c -> newest l' key c.
Proof. intros Hp (Hin & Hk & Hmax). split; [by apply Hp|]. split; [done|]. intros c' Hc'. by apply Hmax, Hp. Qed.

Section State.
Context {U : Unicode} `{IsoForms} {D : MdvmDumps} (max_findings max_bytes : Z).

Lemma apply_delta_ok owner changes s ids s' : apply_delta max_findings max_bytes owner changes s = Ok (ids, s') ->
  ids = touched changes /\ st_sync s' = st_sync s /\ owns owner (st_sync s) = true /\
  st_devices s' = fold_left (fun d c => upsert_device c d) (isort change_ltb changes) (st_devices s) /\
  st_findings s' = fold_left (fun f c => apply_change c f) (isort change_ltb changes) (st_findings s).
Proof.
  unfold apply_delta. intros E. apply bind_Ok_inv in E as (? & _ & E). apply bind_Ok_inv in E as (? & Eo & E).
  cbv zeta in E. apply bind_Ok_inv in E as (? & _ & E). injection E as <- <-. apply raise_if_Ok_inv, negb_false_iff in Eo. done.
Qed.

Lemma replace_baseline_ok owner changes s ids s' : replace_baseline max_findings max_bytes owner changes s = Ok (ids, s') ->
  ids = touched changes /\ st_sync s' = st_sync s /\ owns owner (st_sync s) = true /\
  st_devices s' = fold_left (fun d c => upsert_device c d) changes ∅ /\
  st_findings s' = fold_left (fun f c => <[ch_record_key c := (ch_device_id c, ch_finding c)]> f) changes ∅.
Proof.
  unfold replace_baseline. intros E. apply bind_Ok_inv in E as (? & Eo & E).
  cbv zeta in E. apply bind_Ok_inv in E as (? & _ & E). injection E as <- <-. apply raise_if_Ok_inv, negb_false_iff in Eo. done.
Qed.

Lemma ensure_capacity_ok f x : ensure_capacity max_findings max_bytes f = Ok x -> Z.of_nat (length (map_to_list f)) <= max_findings.
Proof.
  unfold ensure_capacity. cbv zeta. intros E. apply bind_Ok_inv in E as (? & E & _). apply raise_if_Ok_inv in E. rewrite length_fmap in E. lia.
Qed.

Lemma apply_delta_capacity owner changes s ids s' : apply_delta max_findings max_bytes owner changes s = Ok (ids, s') ->
  Z.of_nat (length (map_to_list (st_findings s'))) <= max_findings.
Proof.
  unfold apply_delta. intros E. apply bind_Ok_inv in E as (? & _ & E). apply bind_Ok_inv in E as (? & _ & E).
  cbv zeta in E. apply bind_Ok_inv in E as (? & Hc & E). injection E as _ <-. by apply ensure_capacity_ok in Hc.
Qed.

Lemma replace_baseline_capacity owner changes s ids s' : replace_baseline max_findings max_bytes owner changes s = Ok (ids, s') ->
  Z.of_nat (length (map_to_list (st_findings s'))) <= max_findings.
Proof.
  unfold replace_baseline. intros E. apply bind_Ok_inv in E as (? & _ & E).
  cbv zeta in E. apply bind_Ok_inv in E as (? & Hc & E). injection E as _ <-. by apply ensure_capacity_ok in Hc.
Qed.

(** What a delta leaves of each record *)
Lemma apply_delta_findings owner changes s ids s' : apply_delta max_findings max_bytes owner changes s = Ok (ids, s') ->
  forall key, (exists c, newest changes key c /\ st_findings s' !! key = effect c)
    \/ ((forall c, c ∈ changes -> ch_record_key c <> key) /\ st_findings s' !! key = st_findings s !! key).
Proof.
  intros E key. apply apply_delta_ok in E as (_ & _ & _ & _ & ->). rewrite apply_changes_lookup.
  destruct (last (changes_of key (isort change_ltb changes))) as [c|] eqn:El.
  - left. exists c. split; [|done]. apply (newest_perm (isort change_ltb changes)); [intros x; apply isort_elem|].
    apply sorted_last_newest; [|done]. apply isort_Sorted; [apply change_ltb_asym|apply change_nltb_trans].
  - right. split; [|done]. intros c Hc Hk. apply last_None in El. apply (isort_elem change_ltb) in Hc.
    assert (Hin : c ∈ changes_of key (isort change_ltb changes)) by (apply list_elem_of_filter; done). rewrite El in Hin. by apply not_elem_of_nil in Hin.
Qed.

(** C31. Deltas catch up with the remote history: when the active findings are those
    of the history seen so far, and a delta brings every change since an instant that
    is no later than any unseen change, applying it leaves exactly the findings of the
    whole history, however much of the delta had been seen before. *)
Theorem delta_catches_up owner seen log since changes s ids s' :
  (forall c, c ∈ seen -> c ∈ log) -> (forall c, c ∈ log -> c ∈ seen \/ since <= ch_observed_at c) ->
  (forall c, c ∈ changes <-> c ∈ log /\ since <= ch_observed_at c) ->
  materialises seen (st_findings s) ->
  apply_delta max_findings max_bytes owner changes s = Ok (ids, s') ->
  materialises log (st_findings s').
Proof.
  intros Hsub Hlate Hch Hm E key. destruct (apply_delta_findings _ _ _ _ _ E key) as [(c & (Hin & Hk & Hmax) & Hl)|[Hnone Hl]].
  - left. exists c. split; [|done]. apply Hch in Hin as [Hin Hc]. split; [done|]. split; [done|]. intros c' Hc' Hk'.
    destruct (Z.le_gt_cases since (ch_observed_at c')) as [Hs|Hs]; [by apply Hmax; [apply Hch|]|lia].
  - rewrite Hl. assert (Hold : forall c, c ∈ log -> ch_record_key c = key -> c ∈ seen).
    { intros c Hc Hk. destruct (Hlate c Hc) as [|Hs]; [done|]. destruct (Hnone c); [by apply Hch|done]. }
    destruct (Hm key) as [(c & (Hin & Hk & Hmax) & Hf)|[Hno Hf]].
    + left. exists c. split; [|done]. split; [by apply Hsub|]. split; [done|]. intros c' Hc' Hk'. apply Hmax; [by apply Hold|done].
    + right. split; [|done]. intros c Hc Hk. by apply (Hno c); [apply Hold|].
Qed.

(** ** Devices *)

Lemma upsert_device_lookup c devices id : upsert_device c devices !! id =
  if decide (ch_device_id c = id) then
    Some (mkDevice (ch_device_name c) (ch_os_platform c) (ch_os_version c) (ch_os_architecture c)
      (match devices !! id with
       | Some d => if str_ltb (dv_observed_at d) (isoformat (ch_observed_at c)) then isoformat (ch_observed_at c) else dv_observed_at d
       | None => isoformat (ch_observed_at c)
       end))
  else devices !! id.
Proof.
  unfold upsert_device. destruct (decide (ch_device_id c = id)) as [<-|Hne]; [by rewrite lookup_insert_eq|by rewrite lookup_insert_ne].
Qed.

(** The observation of a device is the text of an instant no change is later than. *)
Lemma upsert_devices_observed l devices id t : in_datetime_range t = true ->
  Forall (fun c => in_datetime_range (ch_observed_at c) = true) l ->
  (dv_observed_at <$> devices !! id = Some (isoformat t)) ->
  dv_observed_at <$> fold_left (fun d c => upsert_device c d) l devices !! id
  = Some (isoformat (fold_left (fun m c => if decide (ch_device_id c = id) then Z.max m (ch_observed_at c) else m) l t)).
Proof.
  revert devices t. induction l as [|c l IH]; intros devices t Ht Hl Hd; [done|]. cbn [fold_left].
  apply Forall_cons_1 in Hl as [Hc Hl]. apply IH; [|done|].
  - destruct (decide (ch_device_id c = id)); [|done]. by destruct (Z.max_spec t (ch_observed_at c)) as [[_ ->]|[_ ->]].
  - rewrite upsert_device_lookup. destruct (decide (ch_device_id c = id)); [|done]. destruct (devices !! id) as [d|]; [|done].
    cbn [fmap option_fmap option_map dv_observed_at] in Hd |- *. injection Hd as ->. rewrite isoformat_ltb by done. f_equal. destruct (Z.ltb_spec t (ch_observed_at c)).
    + by rewrite Z.max_r by lia.
    + by rewrite Z.max_l by lia.
Qed.

Lemma fold_upsert_touched l devices id : (exists c, c ∈ l /\ ch_device_id c = id) \/ is_Some (devices !! id) ->
  is_Some (fold_left (fun d c => upsert_device c d) l devices !! id).
Proof.
  revert devices. induction l as [|c l IH]; intros devices Hin; cbn; [destruct Hin as [(? & Hf & _)|]; [by apply not_elem_of_nil in Hf|done]|].
  apply IH. rewrite upsert_device_lookup. destruct Hin as [(d & [-> | Hd]%elem_of_cons & Hi)|Hs].
  - right. rewrite decide_True by done. by eexists.
  - left. by exists d.
  - right. destruct (decide _); [by eexists|done].
Qed.

Lemma fold_upsert_untouched l devices id : (forall c, c ∈ l -> ch_device_id c <> id) ->
  fold_left (fun d c => upsert_device c d) l devices !! id = devices !! id.
Proof.
  revert devices. induction l as [|c l IH]; intros devices Hno; cbn; [done|]. rewrite IH by (intros; apply Hno; by right).
  rewrite upsert_device_lookup, decide_False; [done|]. apply Hno. by left.
Qed.
End State.

(** ** Snapshots *)

Lemma part_count_spec n size : 0 <= n < 2 ^ 51 -> 0 < size < 2 ^ 51 ->
  1 <= part_count n size /\ n <= part_count n size * size /\ (1 < part_count n size -> (part_count n size - 1) * size < n).
Proof.
  intros Hn Hs. unfold part_count. rewrite ceil_of_quotient by done.
  pose proof (Z.div_mod (- n) size ltac:(lia)). pose proof (Z.mod_pos_bound (- n) size ltac:(lia)).
  set (q := - n / size) in *. split; [lia|]. split; [nia|]. intros. rewrite Z.max_r by lia. nia.
Qed.

Lemma concat_parts {A} (rows : list A) size p : concat (part_of rows size <$> seq 0 p) = take (p * Z.to_nat size) rows.
Proof.
  induction p as [|p IH]; [done|]. rewrite seq_S, fmap_app, concat_app, IH. cbn [fmap list_fmap concat Nat.add]. rewrite app_nil_r.
  unfold part_of. rewrite take_take_drop. f_equal. lia.
Qed.

(** The parts a device is sent in: together its findings, in order, each part within
    the limit and numbered. *)
Definition complete_parts (size : Z) (rows : list MdvmSoftwareVulnerability) (parts : list MdvmDeviceSnapshot) : Prop :=
  parts <> [] /\ concat (ms_vulnerabilities <$> parts) = rows /\
  Forall (fun s => Z.of_nat (length (ms_vulnerabilities s)) <= size) parts /\
  (forall i s, parts !! i = Some s -> ms_part_index s = Z.of_nat i + 1 /\ ms_part_total s = Z.of_nat (length parts)).

Section Parts.
Context {U : Unicode} `{IsoForms} {D : MdvmDumps}.

Lemma validate_snapshot_ok s s' : validate_snapshot s = Ok s' ->
  ms_vulnerabilities s' = ms_vulnerabilities s /\ ms_part_index s' = ms_part_index s /\ ms_part_total s' = ms_part_total s /\
  ms_device_id s' = trim (ms_device_id s) /\ ms_observed_at s' = ms_observed_at s.
Proof. unfold validate_snapshot. cbv zeta. intros E. destruct (_ && _); [|done]. injection E as <-. done. Qed.

Lemma device_parts_complete tenant entries size device_id device rows parts :
  Z.of_nat (length rows) < 2 ^ 51 -> 0 < size < 2 ^ 51 ->
  device_parts tenant entries size device_id device rows = Ok parts ->
  complete_parts size rows parts /\ Forall (fun s => ms_device_id s = trim device_id) parts.
Proof.
  intros Hrows Hsize E. unfold device_parts in E. cbv zeta in E. apply mapM_Ok in E.
  destruct (part_count_spec (Z.of_nat (length rows)) size ltac:(lia) Hsize) as (Hp1 & Hpn & _).
  set (p := part_count _ _) in *. clearbody p.
  assert (Hall : forall i s, parts !! i = Some s ->
    ms_vulnerabilities s = part_of rows size i /\ ms_part_index s = Z.of_nat i + 1 /\ ms_part_total s = p /\ ms_device_id s = trim device_id).
  { intros i s Hs. destruct (Forall2_lookup_r _ _ _ _ _ E Hs) as (j & Hj & Ej). apply lookup_seq in Hj as [-> _].
    apply bind_Ok_inv in Ej as (t & _ & Ev). apply validate_snapshot_ok in Ev as (? & ? & ? & ? & _). done. }
  pose proof (Forall2_length _ _ _ E) as Hlen. rewrite length_seq in Hlen.
  assert (Hv : ms_vulnerabilities <$> parts = part_of rows size <$> seq 0 (Z.to_nat p)).
  { apply list_eq. intros i. rewrite !list_lookup_fmap. destruct (parts !! i) as [s|] eqn:Es.
    - destruct (Hall i s Es) as (Hv & _). rewrite lookup_seq_lt by (apply lookup_lt_Some in Es; lia). cbn. by rewrite Hv.
    - rewrite lookup_seq_ge; [done|]. apply lookup_ge_None in Es. lia. }
  split; [split; [|split; [|split]]|].
  - intros ->. cbn in Hlen. lia.
  - rewrite Hv, concat_parts. apply take_ge. nia.
  - apply Forall_lookup. intros i s Hs. destruct (Hall i s Hs) as (-> & _). unfold part_of. rewrite length_take. lia.
  - intros i s Hs. destruct (Hall i s Hs) as (_ & -> & -> & _). split; [done|]. lia.
  - apply Forall_lookup. intros i s Hs. by destruct (Hall i s Hs) as (_ & _ & _ & ->).
Qed.

(** The findings of a device, whatever their order in the table *)
Lemma device_findings_perm id s :
  device_findings id s ≡ₚ (fun r => r.2.2) <$> base.filter (fun r : str * (str * MdvmSoftwareVulnerability) => r.2.1 = id) (map_to_list (st_findings s)).
Proof. unfold device_findings. apply fmap_Permutation, filter_Permutation, isort_perm. Qed.

Lemma elem_device_findings id f s : f ∈ device_findings id s <-> exists key, st_findings s !! key = Some (id, f).
Proof.
  rewrite device_findings_perm, list_elem_of_fmap. split.
  - intros ([key [d g]] & -> & Hin). apply list_elem_of_filter in Hin as [Hd Hin]. cbn in Hd |- *. subst d.
    exists key. by apply elem_of_map_to_list.
  - intros (key & Hk). exists (key, (id, f)). split; [done|]. apply list_elem_of_filter. split; [done|]. by apply elem_of_map_to_list.
Qed.

(** What is sent of the state, device by device *)
Definition reported (ids : gset str) (size : Z) (s : mdvm_state) (snapshots : list MdvmDeviceSnapshot) : Prop :=
  exists per : list (str * list MdvmDeviceSnapshot),
    snapshots = concat per.*2 /\ NoDup per.*1 /\ (forall id, id ∈ per.*1 <-> id ∈ ids /\ is_Some (st_devices s !! id)) /\
    forall id parts, (id, parts) ∈ per -> complete_parts size (device_findings id s) parts /\ Forall (fun p => ms_device_id p = trim id) parts.

Lemma device_snapshots_reported ids tenant entries size s snapshots :
  0 < size < 2 ^ 51 -> (forall id, Z.of_nat (length (device_findings id s)) < 2 ^ 51) ->
  device_snapshots ids tenant entries size s = Ok snapshots -> reported ids size s snapshots.
Proof.
  intros Hsize Hrows E. unfold device_snapshots in E. cbv zeta in E. apply bind_Ok_inv in E as (parts & Em & E). injection E as <-.
  apply mapM_Ok in Em. revert Em. set (devices := isort _ _). intros Em.
  assert (Hdev : devices ≡ₚ base.filter (fun d : str * device_row => d.1 ∈ ids) (map_to_list (st_devices s))) by apply isort_perm.
  exists (zip devices.*1 parts). pose proof (Forall2_length _ _ _ Em) as Hlen.
  assert (H1 : (zip devices.*1 parts).*1 = devices.*1) by (apply fst_zip; rewrite length_fmap; lia).
  assert (H2 : (zip devices.*1 parts).*2 = parts) by (apply snd_zip; rewrite length_fmap; lia).
  rewrite H1, H2. split; [done|]. split; [|split].
  - rewrite Hdev. apply (sublist_NoDup _ (map_to_list (st_devices s)).*1); [apply NoDup_fst_map_to_list|apply fmap_sublist, sublist_filter].
  - intros id. rewrite Hdev, list_elem_of_fmap. split.
    + intros ([i d] & -> & Hin). apply list_elem_of_filter in Hin as [Hi Hin]. split; [done|]. apply elem_of_map_to_list in Hin. by eexists.
    + intros [Hi [d Hd]]. exists (id, d). split; [done|]. apply list_elem_of_filter. split; [done|]. by apply elem_of_map_to_list.
  - intros id ps Hin. apply elem_of_lookup_zip_with in Hin as (i & id' & ps' & [= -> ->] & Hi & Hp).
    apply list_lookup_fmap_Some in Hi as ([id'' d] & -> & Hd).
    destruct (Forall2_lookup_l _ _ _ _ _ Em Hd) as (ps'' & Hp' & Eparts). assert (ps'' = ps') as -> by congruence.
    by apply device_parts_complete in Eparts.
Qed.
End Parts.

(** ** Batches *)

Section Groups.
Context {U : Unicode} {D : MdvmDumps} (cfg : MdvmConfig).

Definition total_bytes (g : list MdvmDeviceSnapshot) : Z := foldr Z.add 0 (snapshot_bytes <$> g).

Definition group_fits (g : list MdvmDeviceSnapshot) : Prop :=
  g <> [] /\ Z.of_nat (length g) <= vc_snapshots_per_batch cfg /\ total_bytes g <= vc_batch_max_bytes cfg.

Lemma total_bytes_snoc g s : total_bytes (g ++ [s]) = total_bytes g + snapshot_bytes s.
Proof. unfold total_bytes. rewrite fmap_app, foldr_app. cbn. induction (snapshot_bytes <$> g) as [|x l IH]; cbn; lia. Qed.

Lemma fill_groups_spec snapshots current gs : 1 <= vc_snapshots_per_batch cfg ->
  (current = [] \/ group_fits current) -> fill_groups cfg snapshots current (total_bytes current) = Ok gs ->
  concat gs = current ++ snapshots /\ Forall group_fits gs.
Proof.
  intros Hlim. revert current gs. induction snapshots as [|s snapshots IH]; intros current gs Hc; cbn [fill_groups].
  - intros [= <-]. destruct current; cbn; [by constructor|]. split; [by rewrite app_nil_r|]. constructor; [|done]. by destruct Hc.
  - intros E. apply bind_Ok_inv in E as (? & Hsz & E). apply raise_if_Ok_inv in Hsz.
    assert (Hone : group_fits [s]) by (split; [done|]; cbn; unfold total_bytes; cbn; lia).
    destruct (negb _ && _) eqn:Eb.
    + apply bind_Ok_inv in E as (rest & Er & E). injection E as <-.
      replace (snapshot_bytes s) with (total_bytes [s]) in Er by (unfold total_bytes; cbn; lia).
      destruct (IH _ _ (or_intror Hone) Er) as [Hcat Hf]. cbn [concat]. rewrite Hcat. split; [done|]. constructor; [|done].
      apply andb_prop in Eb as [Hne _]. rewrite negb_true_iff, bool_decide_eq_false in Hne. by destruct Hc.
    + rewrite <-total_bytes_snoc in E. apply IH in E; [by rewrite <-app_assoc in E|right].
      apply andb_false_iff in Eb as [Hem|Hfit].
      * rewrite negb_false_iff, bool_decide_eq_true in Hem. by subst.
      * apply orb_false_iff in Hfit as [H1 H2]. split; [by destruct current|]. rewrite length_app. cbn [length]. rewrite total_bytes_snoc. split; lia.
Qed.

Lemma batches_spec mode snapshots bs : 1 <= vc_snapshots_per_batch cfg -> batches cfg mode snapshots = Ok bs ->
  concat (vb_snapshots <$> bs) = snapshots /\ Forall group_fits (vb_snapshots <$> bs).
Proof.
  intros Hlim E. apply bind_Ok_inv in E as (gs & Eg & Em). apply mapM_Ok in Em.
  destruct (fill_groups_spec snapshots [] gs Hlim (or_introl eq_refl) Eg) as [Hcat Hf].
  assert (Hb : vb_snapshots <$> bs = gs).
  { clear Eg Hcat Hf. induction Em as [|g b gs bs Hb Em IH]; [done|]. cbn. rewrite IH. f_equal.
    unfold mdvm_batch in Hb. cbv zeta in Hb. destruct (_ && _); [|done]. by injection Hb as <-. }
  by rewrite Hb.
Qed.
End Groups.

(** ** A whole synchronisation *)

Section Sync.
Context {U : Unicode} `{IsoForms} `{UrlSplit} {D : MdvmDumps} (cfg : MdvmConfig) (error_text : exn -> str).
Context {A : Type} (ingest : MdvmVulnerabilityBatch -> act A (option str)) (host_map : option (res map_file)).

Lemma deliver_ok bs (w : mdvm_world A) w' : deliver ingest bs w = (Ok tt, w') ->
  delivered ingest bs (mw_analyzer w) (mw_analyzer w') /\ mw_state w' = mw_state w /\ mw_web w' = mw_web w.
Proof.
  revert w. induction bs as [|b bs IH]; intros w; cbn [deliver].
  - intros [= <-]. split; [constructor|done].
  - intros E. apply act_bind_ok in E as (status & w1 & Es & E). unfold on_analyzer in Es.
    destruct (ingest b (mw_analyzer w)) as [r a] eqn:Ei. injection Es as -> <-.
    case_bool_decide as Hst; [|done]. subst status. apply IH in E as (Hd & Hs & Hw). split; [|done]. by econstructor.
Qed.

Definition row_of (w : mdvm_world A) : sync_row mdvm_columns := st_sync (mw_state w).

Lemma deliver_keeps bs : keeps row_of (deliver ingest bs).
Proof.
  induction bs as [|b bs IH]; [done|]. cbn [deliver]. apply act_keeps_bind; [|intros st; by case_bool_decide].
  intros w. unfold on_analyzer. by destruct (ingest b (mw_analyzer w)).
Qed.

(** What a synchronisation that ends well has done *)
Definition synchronised (owner : str) (started finished : Z) (o : MdvmSyncOutcome) (w w' : mdvm_world A) : Prop :=
  exists mode raw changes bs,
    mo_mode o = Some mode /\
    (match mode with
     | BASELINE => baseline cfg (mw_web w) = (Ok raw, mw_web w')
     | DELTA => exists watermark since, stored_instant (sy_watermark (st_sync (mw_state w))) = Ok (Some watermark) /\
                  delta_since cfg watermark = Ok since /\ delta cfg since (mw_web w) = (Ok raw, mw_web w')
     end) /\
    normalize_all mode started raw = Ok changes /\
    (exists s1, (match mode with
                 | BASELINE => replace_baseline (vc_state_max_findings cfg) (vc_state_max_bytes cfg) owner changes
                 | DELTA => apply_delta (vc_state_max_findings cfg) (vc_state_max_bytes cfg) owner changes
                 end) (mw_state w) = Ok (touched changes, s1) /\
       st_devices (mw_state w') = st_devices s1 /\ st_findings (mw_state w') = st_findings s1) /\
    delivered ingest bs (mw_analyzer w) (mw_analyzer w') /\
    reported (touched changes) (vc_findings_per_snapshot cfg) (mw_state w') (concat (vb_snapshots <$> bs)) /\
    Forall (group_fits cfg) (vb_snapshots <$> bs) /\
    sy_watermark (st_sync (mw_state w')) = Some (isoformat started) /\ sy_lease_owner (st_sync (mw_state w')) = None.

Lemma record_mdvm_success_ok owner started finished mode n s s' : record_mdvm_success owner started finished mode n s = Ok s' ->
  st_devices s' = st_devices s /\ st_findings s' = st_findings s /\
  sy_watermark (st_sync s') = Some (isoformat started) /\ sy_lease_owner (st_sync s') = None.
Proof.
  unfold record_mdvm_success. cbv zeta. intros E. apply bind_Ok_inv in E as (row & Er & E). injection E as <-.
  unfold record_success in Er. destruct (owns _ _); [|done]. by injection Er as <-.
Qed.

Lemma reported_ext ids size s s' snapshots : st_devices s' = st_devices s -> st_findings s' = st_findings s ->
  reported ids size s snapshots -> reported ids size s' snapshots.
Proof. intros Hd Hf (per & Hc & Hn & Hin & Hp). exists per. unfold device_findings in *. rewrite Hd, Hf. done. Qed.

Lemma device_findings_length id s : (length (device_findings id s) <= length (map_to_list (st_findings s)))%nat.
Proof. rewrite device_findings_perm, length_fmap. apply length_filter. Qed.

Lemma on_web_ok {B} (m : act web B) (w : mdvm_world A) b w' : on_web m w = (Ok b, w') ->
  m (mw_web w) = (Ok b, mw_web w') /\ mw_state w' = mw_state w /\ mw_analyzer w' = mw_analyzer w.
Proof. unfold on_web. destruct (m (mw_web w)) as [r x]. by intros [= -> <-]. Qed.

Lemma on_state_ok {B} (m : mdvm_state -> res (B * mdvm_state)) (w : mdvm_world A) b w' : on_state m w = (Ok b, w') ->
  m (mw_state w) = Ok (b, mw_state w') /\ mw_web w' = mw_web w /\ mw_analyzer w' = mw_analyzer w.
Proof. unfold on_state. destruct (m (mw_state w)) as [[b' s]|e]; [|done]. by intros [= -> <-]. Qed.

Lemma sync_body_ok owner started finished w o w' :
  0 < vc_findings_per_snapshot cfg < 2 ^ 51 -> vc_state_max_findings cfg < 2 ^ 51 -> 1 <= vc_snapshots_per_batch cfg ->
  sync_body cfg ingest host_map owner started finished w = (Ok o, w') -> mo_acquired o = true /\ synchronised owner started finished o w w'.
Proof.
  intros Hsize Hmax Hlim E. unfold sync_body in E. apply act_bind_ok in E as (row & w1 & Er & E). injection Er as <- <-.
  apply act_bind_ok in E as (watermark & w1 & Ew & E). apply act_lift_ok in Ew as [Ew ->].
  apply act_bind_ok in E as (last_baseline & w1 & El & E). apply act_lift_ok in El as [El ->].
  apply act_bind_ok in E as (due & w1 & Ed & E). apply act_lift_ok in Ed as [Ed ->]. cbv zeta in E.
  set (mode := if due then BASELINE else DELTA) in *.
  apply act_bind_ok in E as (raw & w1 & Eraw & E).
  assert (Hraw : (match mode with
     | BASELINE => baseline cfg (mw_web w) = (Ok raw, mw_web w1)
     | DELTA => exists watermark since, stored_instant (sy_watermark (st_sync (mw_state w))) = Ok (Some watermark) /\
                  delta_since cfg watermark = Ok since /\ delta cfg since (mw_web w) = (Ok raw, mw_web w1)
     end) /\ mw_state w1 = mw_state w /\ mw_analyzer w1 = mw_analyzer w).
  { unfold mode in *. destruct due; [by apply on_web_ok in Eraw|].
    apply act_bind_ok in Eraw as (since & w2 & Es & Eraw). apply act_lift_ok in Es as [Es ->]. apply on_web_ok in Eraw as (Eraw & Hs & Ha).
    split; [|done]. destruct watermark as [wm|]; [|done]. by exists wm, since. }
  destruct Hraw as (Hraw & Hs1 & Ha1). clear Eraw.
  apply act_bind_ok in E as (changes & w2 & Ec & E). apply act_lift_ok in Ec as [Ec ->].
  apply act_bind_ok in E as (affected & w2 & Ea & E). apply on_state_ok in Ea as (Ea & Hw2 & Ha2). rewrite Hs1 in Ea.
  assert (Htx : affected = touched changes /\ Z.of_nat (length (map_to_list (st_findings (mw_state w2)))) <= vc_state_max_findings cfg).
  { unfold mode in *. destruct due; split; try (by eapply replace_baseline_capacity); try (by eapply apply_delta_capacity);
      [by apply replace_baseline_ok in Ea as [? _]|by apply apply_delta_ok in Ea as [? _]]. }
  destruct Htx as [-> Hcap].
  apply act_bind_ok in E as (entries & w3 & Ee & E). apply act_lift_ok in Ee as [_ ->].
  apply act_bind_ok in E as (state & w3 & Est & E). injection Est as <- <-.
  apply act_bind_ok in E as (snapshots & w3 & Esn & E). apply act_lift_ok in Esn as [Esn ->].
  apply act_bind_ok in E as (bs & w3 & Eb & E). apply act_lift_ok in Eb as [Eb ->].
  apply act_bind_ok in E as ([] & w3 & Edl & E). apply deliver_ok in Edl as (Hdl & Hs3 & Hw3).
  apply act_bind_ok in E as ([] & w4 & Efin & E). apply on_state_ok in Efin as (Efin & Hw4 & Ha4). injection E as <- <-.
  apply bind_Ok_inv in Efin as (s & Es & E). injection E as ->. rewrite Hs3 in Es. apply record_mdvm_success_ok in Es as (Hd & Hf & Hwm & Hlo).
  split; [done|]. apply device_snapshots_reported in Esn; [|done|intros id; pose proof (device_findings_length id (mw_state w2)); lia].
  apply batches_spec in Eb as [Hcat Hfit]; [|done].
  exists mode, raw, changes, bs. rewrite Hcat. split; [done|]. rewrite Hw4, Hw3, Hw2. split; [done|]. split; [done|]. split.
  { exists (mw_state w2). split; [|done]. by destruct mode. }
  rewrite Ha4. split; [by rewrite <-Ha1, <-Ha2|]. split; [by eapply reported_ext|]. done.
Qed.

Lemma on_web_keeps {B} (m : act web B) : keeps row_of (on_web m : act (mdvm_world A) B).
Proof. intros w. unfold on_web. by destruct (m _). Qed.

Lemma on_state_keeps {B} (m : mdvm_state -> res (B * mdvm_state)) : (forall s b s', m s = Ok (b, s') -> st_sync s' = st_sync s) ->
  keeps row_of (on_state m : act (mdvm_world A) B).
Proof. intros Hm w. unfold on_state. destruct (m (mw_state w)) as [[b s]|e] eqn:E; [|done]. by apply Hm in E. Qed.

Lemma apply_keeps mode owner changes : keeps row_of
  (on_state (match mode with
             | BASELINE => replace_baseline (vc_state_max_findings cfg) (vc_state_max_bytes cfg) owner changes
             | DELTA => apply_delta (vc_state_max_findings cfg) (vc_state_max_bytes cfg) owner changes
             end) : act (mdvm_world A) _).
Proof.
  apply on_state_keeps. intros s ids s' E.
  destruct mode; [by apply replace_baseline_ok in E as (_ & ? & _)|by apply apply_delta_ok in E as (_ & ? & _)].
Qed.

(** A call on the state and no more *)
Lemma on_state_last {B C} (m : mdvm_state -> res (B * mdvm_state)) (o : C) : keeps_raising row_of (act_bind (on_state m) (fun _ => act_ret o) : act (mdvm_world A) C).
Proof.
  intros w e w' E. apply act_bind_raises in E as [E|(b & w1 & _ & E)]; [|done].
  unfold on_state in E. destruct (m _) as [[? ?]|]; [done|]. by injection E as _ <-.
Qed.

(** Every step but the last leaves the state row. *)
Lemma sync_body_row owner started finished : keeps_raising row_of (sync_body cfg ingest host_map owner started finished).
Proof.
  unfold sync_body. repeat first [apply on_state_last|apply act_keeps_raising_bind; [try apply act_keeps_lift; try apply act_keeps_get|intros ?]; cbv zeta].
  - case_match; [apply on_web_keeps|]. apply act_keeps_bind; [apply act_keeps_lift|intros ?; apply on_web_keeps].
  - apply apply_keeps.
  - apply deliver_keeps.
Qed.
End Sync.

Section Outcome.
Context {U : Unicode} `{IsoForms} `{UrlSplit} {D : MdvmDumps} (cfg : MdvmConfig) (error_text : exn -> str).
Context {A : Type} (ingest : MdvmVulnerabilityBatch -> act A (option str)) (host_map : option (res map_file)).

(** The world after the lease was taken *)
Definition leased (owner : str) (started : Z) (w : mdvm_world A) : mdvm_world A :=
  w <| mw_state := mw_state w <| st_sync :=
    (acquire_lease owner started (fl_max (fl_of_Z 900) (fl_mul (vc_poll_seconds cfg) (fl_of_Z 3))) (st_sync (mw_state w))).2 |> |>.

(** C32. The watermark moves only when everything was delivered: a synchronisation
    that ends well has fetched the records since the watermark or a baseline, applied
    them, and had the analyzer derive completely, in batches within the limits, the
    snapshots of exactly the devices they touch, each with exactly its active findings
    in numbered parts; one that raises leaves the watermark and gives the lease back;
    one that does not get the lease changes nothing. *)
Theorem watermark_moves_when_delivered owner started finished w r w' :
  0 < vc_findings_per_snapshot cfg < 2 ^ 51 -> vc_state_max_findings cfg < 2 ^ 51 -> 1 <= vc_snapshots_per_batch cfg ->
  sync_once cfg error_text ingest host_map owner started finished w = (r, w') ->
  match r with
  | Ok o => if mo_acquired o then synchronised cfg ingest owner started finished o (leased owner started w) w' else w' = w
  | Raise _ => sy_watermark (st_sync (mw_state w')) = sy_watermark (st_sync (mw_state w)) /\ sy_lease_owner (st_sync (mw_state w')) = None
  end.
Proof.
  intros Hsize Hmax Hlim E. unfold sync_once in E. cbv zeta in E.
  destruct (acquire_lease _ _ _ _) as [acquired row] eqn:Ea. assert (Hl : leased owner started w = w <| mw_state := mw_state w <| st_sync := row |> |>) by (unfold leased; by rewrite Ea).
  rewrite <-Hl in E. unfold acquire_lease in Ea. destruct (lease_free _ _ _); injection Ea as <- <-; cbn [negb] in E.
  - assert (Hrow : sy_lease_owner (st_sync (mw_state (leased owner started w))) = Some owner
                   /\ sy_watermark (st_sync (mw_state (leased owner started w))) = sy_watermark (st_sync (mw_state w))) by (by rewrite Hl).
    destruct (sync_body _ _ _ _ _ _ _) as [[o|e] w1] eqn:Eb; injection E as <- <-.
    + apply sync_body_ok in Eb as [-> Hs]; done.
    + apply sync_body_row in Eb. unfold row_of in Eb. destruct Hrow as [Ho Hw].
      destruct (record_failure_owner owner (error_text e) (st_sync (mw_state w1))) as [Hw' Ho']; [by rewrite Eb|].
      split; [|exact Ho']. rewrite <-Hw, <-Eb. exact Hw'.
  - injection E as <- <-. cbn [mo_acquired]. rewrite Hl. destruct w as [? [] ?]. reflexivity.
Qed.
End Outcome.

(** ** Devices that a baseline does not list *)

Section Baselines.
Context {U : Unicode} `{IsoForms} {D : MdvmDumps} (max_findings max_bytes : Z).

(** A baseline forgets the devices it does not list without telling the analyzer:
    a device that had findings and is not among the records of the next baseline loses
    its row and its findings, and no snapshot is made for it, so the analyzer keeps
    its last report as the current one. *)
Theorem baseline_forgets_devices owner changes s ids s' tenant entries size snapshots id :
  replace_baseline max_findings max_bytes owner changes s = Ok (ids, s') ->
  (forall c, c ∈ changes -> ch_device_id c <> id /\ trim (ch_device_id c) = ch_device_id c) ->
  0 < size < 2 ^ 51 -> max_findings < 2 ^ 51 ->
  device_snapshots ids tenant entries size s' = Ok snapshots ->
  st_devices s' !! id = None /\ device_findings id s' = [] /\ forall p, p ∈ snapshots -> ms_device_id p <> id.
Proof.
  intros E Hno Hsize Hmax Esn. pose proof (replace_baseline_capacity _ _ _ _ _ _ _ E) as Hcap.
  destruct (replace_baseline_ok _ _ _ _ _ _ _ E) as (-> & _ & _ & Hd & Hf).
  assert (Hdev : st_devices s' !! id = None).
  { rewrite Hd, fold_upsert_untouched; [by rewrite lookup_empty|]. intros c Hc. by destruct (Hno c Hc). }
  split; [done|]. split.
  - destruct (device_findings id s') as [|f l] eqn:Ef; [done|]. exfalso.
    assert (Hin : f ∈ device_findings id s') by (rewrite Ef; by left). apply elem_device_findings in Hin as [key Hk]. rewrite Hf in Hk.
    assert (Hall : forall l f0, (forall c, c ∈ l -> ch_device_id c <> id) -> (forall k x, f0 !! k = Some x -> x.1 <> id) ->
      forall k x, fold_left (fun (f : gmap str (str * MdvmSoftwareVulnerability)) c => <[ch_record_key c := (ch_device_id c, ch_finding c)]> f) l f0 !! k = Some x -> x.1 <> id).
    { clear. induction l as [|c l IH]; intros f0 Hl Hf0; [exact Hf0|]. cbn. apply IH; [intros; apply Hl; by right|].
      intros k x. destruct (decide (ch_record_key c = k)) as [<-|Hne]; [rewrite lookup_insert_eq|rewrite lookup_insert_ne by done; apply Hf0].
      intros [= <-]. apply Hl. by left. }
    eapply Hall; [| |exact Hk|done]; [intros c Hc; by destruct (Hno c Hc)|]. intros k x. by rewrite lookup_empty.
  - intros p Hp Hid. apply device_snapshots_reported in Esn as (per & -> & _ & Hper & Hparts); [|done|intros i; pose proof (device_findings_length i s'); lia].
    apply list_elem_of_In, in_concat in Hp as (parts & Hps & Hp). apply list_elem_of_In in Hps, Hp.
    apply list_elem_of_fmap in Hps as ([i parts'] & -> & Hin). destruct (Hparts i parts' Hin) as [_ Hdi].
    rewrite Forall_forall in Hdi. specialize (Hdi p Hp). assert (Hi : i ∈ per.*1) by (apply list_elem_of_fmap; by exists (i, parts')).
    apply Hper in Hi as [Hi _]. unfold touched in Hi. apply elem_of_list_to_set, list_elem_of_fmap in Hi as (c & -> & Hc).
    destruct (Hno c Hc) as [Hne Ht]. congruence.
Qed.
End Baselines.

(** ** A run of the connector *)
Module Example.
#[export] Instance forms : IsoForms := {| other_form _ := Raise ValueError |}.
#[export] Instance dumps : MdvmDumps := {|
  payload_chars f := Z.of_nat (length (mv_record_id f ++ mv_cve_id f));
  snapshot_bytes s := 100 + Z.of_nat (length (ms_vulnerabilities s));
  part_content tenant device observed part total rows := tenant ++ device ++ observed ++ dec_Z part ++ concat (mv_record_id <$> rows);
  batch_content tenant mode snapshots := tenant ++ concat (ms_report_id <$> snapshots);
|}.
#[export] Instance urls : UrlSplit := {|
  urlsplit s := Ok (mkUrl (u "https") (u "api.security.microsoft.com") _BASELINE_PATH [] (Some (u "api.security.microsoft.com")))
|}.

Definition finding (record_id : str) : MdvmSoftwareVulnerability :=
  mkMdvmVulnerability record_id (u "CVE-2024-0001") (u "vendor") (u "tool") (u "1.0") HIGH None None None None None None None None None None
    None None [] [] false.
Definition change (key : str) (action : change_action) (device : str) (t : Z) : mdvm_change :=
  mkChange key action device device (u "Windows") None None t (finding key).

Definition first := change (u "r1") UPSERT (u "d1") 10.
Definition fixed := change (u "r1") FIXED (u "d1") 20.
Definition other := change (u "r2") UPSERT (u "d2") 20.

Definition row : sync_row mdvm_columns := mkSync None (Some (u "me")) None None None None (mkMdvmColumns None 0 0 0).
Definition state : mdvm_state :=
  mkMdvmState row (upsert_device first ∅) {[u "r1" := (u "d1", finding (u "r1"))]}.

Definition config : MdvmConfig :=
  mkMdvmConfig (mkClientConfig (u "t") (Ok (mkSecretFile 6 true (Ok (u "secret")))) (u "scope") 3 2 10) (u "api.security.microsoft.com")
    (fl_of_Z 60) (fl_of_Z 168) (fl_of_Z 60) 100 2 2 1000 100 1000.

Definition record (id device : str) : json :=
  JObject [(u "id", JString id); (u "deviceId", JString device); (u "cveId", JString (u "cve-2024-0001"));
           (u "vulnerabilitySeverityLevel", JString (u "High")); (u "cvssScore", JString (u "9.8"))].
Definition page : response := mkResponse 200 50 (Ok (JObject [(u "value", JArray [record (u "r1") (u "d1"); record (u "r2") (u "d1"); record (u "r3") (u "d1")])])) [].
Definition token_answer : response := mkResponse 200 50 (Ok (JObject [(u "access_token", JString (u "abc"))])) [].
Definition network : web := mkWeb [Some token_answer; Some page] [fl_of_Z 1; fl_of_Z 2] [] [] None (fl_of_Z 0).
Definition world : mdvm_world (list MdvmVulnerabilityBatch) :=
  mkMdvmWorld network (state <| st_sync := fresh_row (mkMdvmColumns None 0 0 0) |>) [].
Definition analyzer (b : MdvmVulnerabilityBatch) : act (list MdvmVulnerabilityBatch) (option str) := fun a => (Ok (Some (u "complete")), b :: a).
End Example.

#[local] Existing Instances Example.forms Example.dumps Example.urls.

Lemma delta_catches_up_witness : exists ids s',
  apply_delta 100 1000 (u "me") [Example.fixed; Example.first; Example.other] Example.state = Ok (ids, s') /\
  materialises [Example.first; Example.fixed; Example.other] (st_findings s').
Proof.
  destruct (apply_delta 100 1000 (u "me") [Example.fixed; Example.first; Example.other] Example.state) as [[ids s']|e] eqn:E;
    [|vm_compute in E; discriminate]. exists ids, s'. split; [exact eq_refl|].
  refine (delta_catches_up 100 1000 (u "me") [Example.first] [Example.first; Example.fixed; Example.other] 5 _ _ ids s' _ _ _ _ E).
  - intros c Hc. apply list_elem_of_singleton in Hc as ->. by left.
  - intros c Hc. apply elem_of_cons in Hc as [-> | Hc]; [by left; left|right].
    apply elem_of_cons in Hc as [-> | Hc]; [vm_compute; discriminate|]. apply list_elem_of_singleton in Hc as ->. vm_compute; discriminate.
  - intros c. rewrite !elem_of_cons, elem_of_nil. split.
    + intros [-> | [-> | [-> |[]]]]; (split; [tauto|vm_compute; discriminate]).
    + intros [[-> | [-> | [-> |[]]]] _]; tauto.
  - intros key. destruct (decide (key = u "r1")) as [->|Hne].
    + left. exists Example.first. split; [|vm_compute; reflexivity]. split; [by left|]. split; [done|].
      intros c Hc _. apply list_elem_of_singleton in Hc as ->. done.
    + right. split; [intros c Hc; apply list_elem_of_singleton in Hc as ->; by apply not_eq_sym|].
      unfold Example.state. cbn [st_findings]. by rewrite lookup_singleton_ne.
Defined.

Lemma watermark_moves_when_delivered_witness : exists o w',
  sync_once Example.config (fun _ => u "error") Example.analyzer None (u "me") 86400000000 86400000001 Example.world = (Ok o, w') /\
  mo_acquired o = true /\ length (mw_analyzer w') = 1%nat /\
  synchronised Example.config Example.analyzer (u "me") 86400000000 86400000001 o (leased Example.config (u "me") 86400000000 Example.world) w'.
Proof.
  destruct (sync_once Example.config (fun _ => u "error") Example.analyzer None (u "me") 86400000000 86400000001 Example.world) as [[o|e] w'] eqn:E.
  2: { exfalso. assert (H : match (sync_once Example.config (fun _ => u "error") Example.analyzer None (u "me") 86400000000 86400000001 Example.world).1 with
         Ok _ => true | Raise _ => false end = true) by (vm_compute; reflexivity). rewrite E in H. discriminate. }
  assert (Hacq : match (sync_once Example.config (fun _ => u "error") Example.analyzer None (u "me") 86400000000 86400000001 Example.world).1 with
         Ok o => mo_acquired o | Raise _ => false end = true) by (vm_compute; reflexivity).
  assert (Hlen : length (mw_analyzer (sync_once Example.config (fun _ => u "error") Example.analyzer None (u "me") 86400000000 86400000001 Example.world).2) = 1%nat)
    by (vm_compute; reflexivity).
  rewrite E in Hacq, Hlen. cbn [fst snd] in Hacq, Hlen. exists o, w'. split; [exact eq_refl|]. split; [exact Hacq|]. split; [exact Hlen|].
  pose proof (watermark_moves_when_delivered Example.config (fun _ => u "error") Example.analyzer None (u "me") 86400000000 86400000001 Example.world (Ok o) w'
    ltac:(vm_compute; split; reflexivity) ltac:(vm_compute; reflexivity) ltac:(vm_compute; discriminate) E) as H. cbn beta iota in H. by rewrite Hacq in H.
Defined.

Lemma baseline_forgets_devices_witness : exists ids s' snapshots,
  replace_baseline 100 1000 (u "me") [Example.other] Example.state = Ok (ids, s') /\
  device_snapshots ids (u "t") [] 2 s' = Ok snapshots /\
  st_devices s' !! u "d1" = None /\ device_findings (u "d1") s' = [] /\ forall p, p ∈ snapshots -> ms_device_id p <> u "d1".
Proof.
  destruct (replace_baseline 100 1000 (u "me") [Example.other] Example.state) as [[ids s']|e] eqn:E; [|vm_compute in E; discriminate].
  destruct (device_snapshots ids (u "t") [] 2 s') as [snapshots|e] eqn:Es.
  2: { exfalso. assert (H : match replace_baseline 100 1000 (u "me") [Example.other] Example.state with
         Ok (ids, s') => match device_snapshots ids (u "t") [] 2 s' with Ok _ => true | Raise _ => false end | Raise _ => false end = true) by (vm_compute; reflexivity).
       rewrite E, Es in H. discriminate. }
  exists ids, s', snapshots. split; [exact eq_refl|]. split; [exact Es|].
  refine (baseline_forgets_devices 100 1000 (u "me") [Example.other] Example.state ids s' (u "t") [] 2 snapshots (u "d1") E _ _ _ Es).
  - intros c Hc. apply list_elem_of_singleton in Hc as ->. vm_compute. split; [discriminate|reflexivity].
  - split; reflexivity.
  - reflexivity.
Defined.
