(* ===== verification/DefenderFlow.v ===== *)
(** * From the connector to the analyzer

    The connector cuts each text of a record at 4096 characters, the analyzer joins the
    vendor and the name of the software into the name of one package. *)

From stdpp Require Import base gmap sets strings numbers list.
From Stdlib Require Import ZArith Lia.
From S2P Require Import Prelude PyText PyHash PyFloat PyJson PyTime Tables Lineage RecordStore Compare Versioning Severity Osv Detect Coverage KaliTracker Kali.
From S2P Require Import Correlate Guard Lifecycle Envelopes Derived Ingest Defender DefenderProps DerivedProps DerivedExamples DefenderClient Acts Mdvm MdvmProps.

#[local] Open Scope Z_scope.

Section Flow.
Context {U : Unicode} {D : Dumps} (class_name : exn -> str) (cfg : settings).

(** The name of the package of a finding *)
Definition software_package (f : MdvmSoftwareVulnerability) : str := trim (mv_software_vendor f ++ u "/" ++ mv_software_name f).

Lemma long_rows_fail items packages findings item : item ∈ items -> (max_wire_string < length (software_package item))%nat ->
  exists e, mdvm_rows items packages findings = Raise e.
Proof.
  intros Hin Hlong. revert packages findings. induction items as [|i items IH]; [by apply not_elem_of_nil in Hin|].
  intros packages findings. cbn [mdvm_rows]. destruct (mdvm_package i) as [p|e] eqn:Ep; [|by exists e]. cbn [mbind res_bind].
  destruct (mdvm_finding i) as [f|e]; [|by exists e]. cbn [mbind res_bind]. apply elem_of_cons in Hin as [<-|Hin]; [|by apply IH].
  exfalso. unfold mdvm_package in Ep. cbv zeta in Ep. fold (software_package item) in Ep. unfold short in Ep.
  rewrite (proj2 (Nat.leb_gt (length (software_package item)) max_wire_string) Hlong) in Ep. cbn [andb] in Ep. discriminate Ep.
Qed.

Lemma long_snapshots_fail snapshots snapshot item n : snapshot ∈ snapshots -> item ∈ ms_vulnerabilities snapshot ->
  (max_wire_string < length (software_package item))%nat -> forall s, exists e s', store_snapshots cfg snapshots n s = (Raise e, s').
Proof.
  intros Hin Hitem Hlong. revert n. induction snapshots as [|x snapshots IH]; [by apply not_elem_of_nil in Hin|]. intros n s.
  cbn [store_snapshots]. unfold io_bind at 1, io_lift at 1. destruct (derive_mdvm_snapshot x) as [[report detection]|e] eqn:Ed; [|by exists e, s].
  apply elem_of_cons in Hin as [<-|Hin].
  - exfalso. unfold derive_mdvm_snapshot in Ed. destruct (long_rows_fail _ [] [] _ Hitem Hlong) as [e He]. by rewrite He in Ed.
  - unfold io_bind at 1. destruct (append_once _ _ _ _ _ s) as [[n1|e] s1]; [|by exists e, s1].
    unfold io_bind at 1. destruct (append_once _ _ _ _ _ s1) as [[n2|e] s2]; [|by exists e, s2]. by apply IH.
Qed.

(** A finding with a long vendor and name can never be delivered: no batch with
    one whose vendor and name, joined by a slash, are longer than a text may be is ever
    answered with an acknowledgement, so the connector repeats it in every run and its
    watermark stays. *)
Theorem long_software_name_fails batch snapshot item s r s' :
  snapshot ∈ vb_snapshots batch -> item ∈ ms_vulnerabilities snapshot ->
  (max_wire_string < length (software_package item))%nat ->
  ingest_mdvm_vulnerability_batch class_name cfg batch s = (r, s') -> exists e, r = Raise e.
Proof.
  intros Hs Hi Hlong E. unfold ingest_mdvm_vulnerability_batch, accept_batch in E. unfold io_bind at 1 in E.
  destruct (find_in _ _ _ s) as [[existing|e] s1]; [|injection E as <- <-; by exists e].
  assert (Hfail : forall persist s2, exists o s3, io_try (store_mdvm_vulnerability_batch cfg batch persist) (fun e => io_ret (failed_outcome class_name e)) s2 = (Ok o, s3)
            /\ oc_status o = R_FAILED).
  { intros persist s2. unfold io_try, store_mdvm_vulnerability_batch. unfold io_bind at 1.
    destruct ((if persist then append_to cfg mdvm_table batch else io_ret tt) s2) as [[[]|e] s3]; [|by exists (failed_outcome class_name e), s3].
    unfold io_bind at 1. destruct (long_snapshots_fail _ _ _ 0 Hs Hi Hlong s3) as (e & s4 & ->). by exists (failed_outcome class_name e), s4. }
  assert (Hack : forall persist s2 r2 s3, io_bind (io_try (store_mdvm_vulnerability_batch cfg batch persist) (fun e => io_ret (failed_outcome class_name e)))
      (fun o => io_lift (ack (vb_batch_id batch) o (negb persist))) s2 = (r2, s3) -> exists e, r2 = Raise e).
  { intros persist s2 r2 s3. unfold io_bind. destruct (Hfail persist s2) as (o & s4 & -> & Ho). unfold io_lift, ack. rewrite Ho.
    intros [= <- <-]. by eexists. }
  destruct existing as [stored|]; [|by apply (Hack true) in E].
  destruct (negb _); [injection E as <- <-; by eexists|]. by apply (Hack false) in E.
Qed.
End Flow.

#[local] Existing Instances DerivedExamples.Example.hundred MdvmProps.Example.forms MdvmProps.Example.urls.

(** A record the connector accepts, whose software name fills the text *)
Definition long_name : str := replicate 4096 97%N.
Definition long_record : list (str * json) :=
  [(u "id", JString (u "r1")); (u "deviceId", JString (u "d1")); (u "cveId", JString (u "CVE-2024-0001"));
   (u "softwareVendor", JString (u "v")); (u "softwareName", JString long_name)].
Definition finding_in (r : res (option mdvm_change)) : option MdvmSoftwareVulnerability :=
  match r with Ok (Some c) => Some (ch_finding c) | _ => None end.
Definition long_item : option MdvmSoftwareVulnerability := finding_in (normalize_mdvm_record long_record BASELINE 0).
Definition long_batch (f : MdvmSoftwareVulnerability) : MdvmVulnerabilityBatch :=
  mkMdvmBatch (u "b1") 5 (u "t") BASELINE [mkSnapshot (u "rep-1") (u "d1") (u "h1") (u "pc-1") (u "Windows11") None None 5 1 1 [f]].

Lemma long_software_name_fails_witness : exists f, long_item = Some f /\ exists e,
  (ingest_mdvm_vulnerability_batch DerivedExamples.Example.class_of DerivedExamples.Example.cfg (long_batch f) DerivedExamples.Example.nothing).1 = Raise e.
Proof.
  assert (Hlen : match long_item with Some f => (max_wire_string <? length (software_package f))%nat | None => false end = true) by (vm_compute; reflexivity).
  destruct long_item as [f|] eqn:Ef; [|discriminate Hlen]. exists f. split; [reflexivity|].
  apply Nat.ltb_lt in Hlen.
  destruct (ingest_mdvm_vulnerability_batch DerivedExamples.Example.class_of DerivedExamples.Example.cfg (long_batch f) DerivedExamples.Example.nothing) as [r s'] eqn:E.
  apply (long_software_name_fails DerivedExamples.Example.class_of DerivedExamples.Example.cfg (long_batch f) (mkSnapshot (u "rep-1") (u "d1") (u "h1") (u "pc-1") (u "Windows11") None None 5 1 1 [f]) f DerivedExamples.Example.nothing r s');
    [by left|by left|exact Hlen|exact E].
Defined.
