(* ===== verification/Mde.v ===== *)
(** * Microsoft Defender for Endpoint ([mde.py])

    The connector fetches the alerts and incidents updated since the watermark less an
    overlap, keeps the newest copy of each alert, attaches devices to hosts and sends
    everything to the analyzer in batches; the watermark moves when all were derived.
    Conventions are those of [Mdvm]. *)

From stdpp Require Import base gmap sets strings list numbers.
From Stdlib Require Import ZArith Lia SpecFloat.
From S2P Require Import Prelude PyText PyHash PyFloat PyJson PyTime Compare Versioning Severity Osv Detect Correlate Envelopes Acts DefenderClient Mdvm.

#[local] Open Scope Z_scope.

Abbreviation fields := (list (str * json)).

(** [MdeConfig], with what a synchronisation reads of it *)
Record MdeConfig := mkMdeConfig {
  ec_client : client_config;
  ec_poll_seconds : float;
  ec_initial_lookback_hours : float;
  ec_overlap_seconds : float;
  ec_page_size : Z;
  ec_chunk_size : Z;
}.

(** [resource] *)
Inductive resource := ALERTS_V2 | INCIDENTS.
Definition resource_name (r : resource) : str := match r with ALERTS_V2 => u "alerts_v2" | INCIDENTS => u "incidents" end.

Definition GRAPH_ROOT : str := u "https://graph.microsoft.com/v1.0/security".
Definition MAX_EVIDENCE : nat := 256.

(** [dict.fromkeys] of texts, as a list *)
Definition distinct_texts (values : list str) : list str := fst <$> fold_left (fun d v => od_set v tt d) values [].

Section Records.
Context {U : Unicode} `{IsoForms} `{UrlSplit}.

(** [_validate_graph_url] *)
Definition valid_graph_url (r : resource) (url : str) : res unit :=
  valid_page_url [u "graph.microsoft.com"] (u "/v1.0/security/" ++ resource_name r) url.

(** [value.rsplit(".", 1)[-1].lstrip("#")] *)
Definition evidence_type (raw : fields) : str :=
  let value := default (u "unknown") (optional_text (get_value (u "@odata.type") raw)) in
  drop_while (fun c => (c =? 35)%N) (match rpartition (u ".") value with Some (_, name) => name | None => value end).

(** Constructing a [MdeEvidence] *)
Definition validate_evidence (e : MdeEvidence) : res MdeEvidence :=
  let e := mkEvidence (trim (me_evidence_type e)) (me_created_at e) (trim <$> me_verdict e) (trim <$> me_remediation_status e)
    (trim <$> me_roles e) (trim <$> me_summary e) (trim <$> me_mde_device_id e) (trim <$> me_azure_ad_device_id e)
    (trim <$> me_device_dns_name e) (trim <$> me_hostname e) (trim <$> me_os_platform e) (trim <$> me_os_build e)
    (trim <$> me_ip_addresses e) (trim <$> me_canonical_host_id e) in
  if short_texts (me_evidence_type e :: me_roles e ++ me_ip_addresses e
       ++ optional_texts [me_verdict e; me_remediation_status e; me_summary e; me_mde_device_id e; me_azure_ad_device_id e;
                          me_device_dns_name e; me_hostname e; me_os_platform e; me_os_build e])
     && match me_canonical_host_id e with Some h => short max_correlation_identifier h | None => true end
     && (length (me_roles e) <=? max_nested_items)%nat && (length (me_ip_addresses e) <=? max_nested_items)%nat
  then Ok e else Raise ValueError.

Definition summary_keys : list str :=
  [u "displayName"; u "fileName"; u "accountName"; u "userPrincipalName"; u "processCommandLine"; u "url"].

(** [_normalize_evidence] *)
Definition normalize_evidence (raw : fields) (entries : list (str * str)) : res MdeEvidence :=
  let text key := optional_text (get_value key raw) in
  let ips := string_list (get_value (u "ipInterfaces") raw) in
  let ips := match text (u "ipAddress") with Some ip => take MAX_RELATIONSHIPS (distinct_texts (ip :: ips)) | None => ips end in
  created ← optional_timestamp (get_value (u "createdDateTime") raw);
  validate_evidence
    (mkEvidence (evidence_type raw) created (text (u "verdict")) (text (u "remediationStatus"))
       (string_list (get_value (u "roles") raw)) (head (omap text summary_keys)) (text (u "mdeDeviceId")) (text (u "azureAdDeviceId"))
       (text (u "deviceDnsName")) (text (u "hostName")) (text (u "osPlatform")) (text (u "osBuild")) ips
       (resolve_host entries (text (u "mdeDeviceId")) (text (u "azureAdDeviceId")) (text (u "deviceDnsName")) (text (u "hostName")))).

(** The items of a value that is a list *)
Definition items_of (value : json) : list json := match value with JArray items => items | _ => [] end.
Definition objects_of (items : list json) : list fields := omap (fun x => match x with JObject f => Some f | _ => None end) items.

(** Constructing a [MdeAlert] *)
Definition validate_alert (a : MdeAlert) : res MdeAlert :=
  let a := mkMdeAlert (trim (ma_alert_id a)) (trim <$> ma_provider_alert_id a) (trim <$> ma_incident_id a) (trim (ma_title a))
    (trim (ma_description a)) (ma_severity a) (trim (ma_provider_status a)) (trim <$> ma_classification a) (trim <$> ma_determination a)
    (trim <$> ma_service_source a) (trim <$> ma_product_name a) (trim <$> ma_detection_source a) (ma_created_at a)
    (ma_first_activity_at a) (ma_last_activity_at a) (ma_last_updated_at a) (ma_resolved_at a) (trim <$> ma_portal_url a)
    (trim <$> ma_mitre_techniques a) (trim <$> ma_related_asset_ids a) (ma_evidence a) (ma_evidence_truncated a) in
  if short_texts ([ma_alert_id a; ma_title a; ma_description a; ma_provider_status a] ++ ma_mitre_techniques a
       ++ optional_texts [ma_provider_alert_id a; ma_incident_id a; ma_classification a; ma_determination a; ma_service_source a;
                          ma_product_name a; ma_detection_source a; ma_portal_url a])
     && forallb (short max_correlation_identifier) (ma_related_asset_ids a)
     && (length (ma_mitre_techniques a) <=? max_nested_items)%nat && (length (ma_related_asset_ids a) <=? max_nested_items)%nat
     && (length (ma_evidence a) <=? max_nested_items)%nat
  then Ok a else Raise ValueError.

(** [normalize_alert] *)
Definition normalize_alert (raw : fields) (entries : list (str * str)) : res MdeAlert :=
  let get key := get_value key raw in
  let evidence_rows := items_of (get (u "evidence")) in
  evidence ← mapM (fun item => normalize_evidence item entries) (objects_of (take MAX_EVIDENCE evidence_rows));
  let assets := take MAX_RELATIONSHIPS (distinct_texts (omap (fun e => match me_canonical_host_id e with Some (_ :: _) as h => h | _ => None end) evidence)) in
  updated ← timestamp (get (u "lastUpdateDateTime"));
  alert_id ← text_of (get (u "id")) None;
  title ← text_of (get (u "title")) (Some (u "Untitled Microsoft alert"));
  status ← text_of (get (u "status")) (Some (u "unknown"));
  created ← optional_timestamp (get (u "createdDateTime"));
  first_activity ← optional_timestamp (get (u "firstActivityDateTime"));
  last_activity ← optional_timestamp (get (u "lastActivityDateTime"));
  resolved ← optional_timestamp (get (u "resolvedDateTime"));
  url ← https_url (get (u "alertWebUrl"));
  validate_alert
    (mkMdeAlert alert_id (optional_text (get (u "providerAlertId"))) (optional_text (get (u "incidentId"))) title
       (default [] (optional_text (get (u "description")))) (severity_named (get (u "severity"))) status
       (optional_text (get (u "classification"))) (optional_text (get (u "determination"))) (optional_text (get (u "serviceSource")))
       (optional_text (get (u "productName"))) (optional_text (get (u "detectionSource"))) (default updated created)
       first_activity last_activity updated resolved url (string_list (get (u "mitreTechniques"))) assets evidence
       (MAX_EVIDENCE <? length evidence_rows)%nat).

(** Constructing a [MdeIncident] *)
Definition validate_incident (i : MdeIncident) : res MdeIncident :=
  let i := mkMdeIncident (trim (mi_incident_id i)) (trim (mi_display_name i)) (trim (mi_description i)) (mi_severity i)
    (trim (mi_provider_status i)) (trim <$> mi_classification i) (trim <$> mi_determination i) (mi_created_at i) (mi_last_updated_at i)
    (mi_resolved_at i) (trim <$> mi_portal_url i) (trim <$> mi_alert_ids i) (trim <$> mi_related_asset_ids i) (mi_relationships_truncated i) in
  if short_texts ([mi_incident_id i; mi_display_name i; mi_description i; mi_provider_status i] ++ mi_alert_ids i
       ++ optional_texts [mi_classification i; mi_determination i; mi_portal_url i])
     && forallb (short max_correlation_identifier) (mi_related_asset_ids i)
     && (length (mi_alert_ids i) <=? max_nested_items)%nat && (length (mi_related_asset_ids i) <=? max_nested_items)%nat
  then Ok i else Raise ValueError.

(** [normalize_incident]; [alerts_by_id] is a dict. *)
Definition normalize_incident (raw : fields) (alerts_by_id : list (str * MdeAlert)) : res MdeIncident :=
  let get key := get_value key raw in
  let ids := omap (fun item => optional_text (get_value (u "id") item)) (objects_of (items_of (get (u "alerts")))) in
  incident_id ← text_of (get (u "id")) None;
  let ids := match ids with
             | [] => ma_alert_id <$> base.filter (fun a => ma_incident_id a = Some incident_id) (snd <$> alerts_by_id)
             | _ => ids
             end in
  let ids := distinct_texts ids in
  let assets := concat ((fun id => match od_get id alerts_by_id with Some a => ma_related_asset_ids a | None => [] end) <$> ids) in
  updated ← timestamp (get (u "lastUpdateDateTime"));
  name ← text_of (get (u "displayName")) (Some (u "Untitled Microsoft incident"));
  status ← text_of (get (u "status")) (Some (u "unknown"));
  created ← optional_timestamp (get (u "createdDateTime"));
  resolved ← optional_timestamp (get (u "resolvedDateTime"));
  url ← https_url (get (u "incidentWebUrl"));
  validate_incident
    (mkMdeIncident incident_id name (default [] (optional_text (get (u "description")))) (severity_named (get (u "severity"))) status
       (optional_text (get (u "classification"))) (optional_text (get (u "determination"))) (default updated created) updated resolved url
       (take MAX_RELATIONSHIPS ids) (take MAX_RELATIONSHIPS (distinct_texts assets))
       ((MAX_RELATIONSHIPS <? length ids)%nat || (MAX_RELATIONSHIPS <? length (distinct_texts assets))%nat)).

(** ** The newest copy of each alert *)

(** The rank of a copy: whether it has an update time, its text and its width *)
Definition copy_rank (row : fields) : bool * str * Z :=
  match get_value (u "lastUpdateDateTime") row with
  | JString s => (true, s, Z.of_nat (length row))
  | _ => (false, [], Z.of_nat (length row))
  end.

(** The order of tuples *)
Definition rank_ltb (a b : bool * str * Z) : bool :=
  let '(a1, a2, a3) := a in
  let '(b1, b2, b3) := b in
  (negb a1 && b1) || (Bool.eqb a1 b1 && (str_ltb a2 b2 || (bool_decide (a2 = b2) && (a3 <? b3)))).

Definition keep_copy (by_id : list (str * fields)) (row : fields) : list (str * fields) :=
  match optional_text (get_value (u "id") row) with
  | None => by_id
  | Some item_id =>
      match od_get item_id by_id with
      | Some current => if rank_ltb (copy_rank current) (copy_rank row) then od_set item_id row by_id else by_id
      | None => od_set item_id row by_id
      end
  end.

(** [_dedupe_alert_rows] *)
Definition dedupe_alert_rows (rows : list fields) : list fields := snd <$> fold_left keep_copy rows [].
End Records.

(** ** A synchronisation *)

(** The two columns of [mde_sync_state] that only this connector has *)
Record mde_columns := mkMdeColumns { mk_alert_count : Z; mk_incident_count : Z }.

(** [MdeSyncOutcome] *)
Record MdeSyncOutcome := mkMdeOutcome { eo_acquired : bool; eo_alerts : Z; eo_incidents : Z; eo_batches : Z }.

(** The network, the state row and the analyzer *)
Record mde_world (A : Type) := mkMdeWorld { ew_web : web; ew_state : sync_row mde_columns; ew_analyzer : A }.
Arguments mkMdeWorld {A}.
Arguments ew_web {A}.
Arguments ew_state {A}.
Arguments ew_analyzer {A}.

#[global] Instance eta_mde_world {A} : Eta (mde_world A) := fun w => mkMdeWorld (ew_web w) (ew_state w) (ew_analyzer w).

(** The text that is hashed for the identifier of a batch *)
Class MdeDumps := { sync_content : str -> str -> list MdeAlert -> list MdeIncident -> str }.

Section Engine.
Context {U : Unicode} `{IsoForms} `{UrlSplit} {D : MdeDumps} (cfg : MdeConfig) (error_text : exn -> str).

(** [fetch] *)
Definition fetch_graph (r : resource) (since : Z) : act web (list fields) :=
  fetch (ec_client cfg) (valid_graph_url r) (GRAPH_ROOT ++ u "/" ++ resource_name r)
    ([(u "$filter", u "lastUpdateDateTime ge " ++ zulu since); (u "$top", dec_Z (ec_page_size cfg))]
     ++ match r with INCIDENTS => [(u "$expand", u "alerts")] | ALERTS_V2 => [] end).

(** An alert or an incident *)
Inductive item := I_alert (a : MdeAlert) | I_incident (i : MdeIncident).
Definition item_alert (x : item) : option MdeAlert := match x with I_alert a => Some a | _ => None end.
Definition item_incident (x : item) : option MdeIncident := match x with I_incident i => Some i | _ => None end.
Definition item_updated (x : item) : Z := match x with I_alert a => ma_last_updated_at a | I_incident i => mi_last_updated_at i end.

(** [items[index : index + size]] for index in [range(0, len(items), size)]; the fuel
    is the number of items. *)
Fixpoint chunked {X} (fuel : nat) (size : nat) (items : list X) : list (list X) :=
  match fuel, items with
  | S fuel, _ :: _ => take size items :: chunked fuel size (drop size items)
  | _, _ => []
  end.

(** Constructing the [MdeSecurityBatch] of a part, which is not empty *)
Definition mde_batch (since : Z) (part : list item) : res MdeSecurityBatch :=
  let tenant_id := cc_tenant_id (ec_client cfg) in
  let alerts := omap item_alert part in
  let incidents := omap item_incident part in
  let b := mkMdeBatch (trim (u "mde-sync-" ++ sha256_hex (sync_content tenant_id (isoformat since) alerts incidents)))
             (match item_updated <$> part with [] => 0 | t :: ts => fold_left Z.max ts t end) (trim tenant_id) since alerts incidents in
  if short max_correlation_identifier (mb_batch_id b) && short max_wire_string (mb_tenant_id b)
     && (length alerts <=? 4096)%nat && (length incidents <=? 4096)%nat
  then Ok b else Raise ValueError.

(** [_batches] *)
Definition mde_batches (since : Z) (alerts : list MdeAlert) (incidents : list MdeIncident) : res (list MdeSecurityBatch) :=
  let items := (I_alert <$> alerts) ++ (I_incident <$> incidents) in
  mapM (mde_batch since) (chunked (length items) (Z.to_nat (ec_chunk_size cfg)) items).

(** The keys of the two sorts *)
Definition alert_ltb (a b : MdeAlert) : bool :=
  (ma_last_updated_at a <? ma_last_updated_at b)
  || ((ma_last_updated_at a =? ma_last_updated_at b) && str_ltb (ma_alert_id a) (ma_alert_id b)).
Definition incident_ltb (a b : MdeIncident) : bool :=
  (mi_last_updated_at a <? mi_last_updated_at b)
  || ((mi_last_updated_at a =? mi_last_updated_at b) && str_ltb (mi_incident_id a) (mi_incident_id b)).

(** The alerts inside incidents *)
Definition embedded_alerts (incidents : list fields) : list fields :=
  concat ((fun i => objects_of (items_of (get_value (u "alerts") i))) <$> incidents).

(** From the fetched rows to what is sent: the alerts and the incidents, in order *)
Definition normalize_rows (entries : list (str * str)) (raw_alerts raw_incidents : list fields) : res (list MdeAlert * list MdeIncident) :=
  let alert_rows := dedupe_alert_rows (raw_alerts ++ embedded_alerts raw_incidents) in
  _ ← raise_if (cc_max_items (ec_client cfg) <? Z.of_nat (length alert_rows + length raw_incidents)) MdeUpstreamError;
  alerts ← mapM (fun row => normalize_alert row entries) alert_rows;
  let alerts := isort alert_ltb alerts in
  let by_id := fold_left (fun d a => od_set (ma_alert_id a) a d) alerts [] in
  incidents ← mapM (fun row => normalize_incident row by_id) raw_incidents;
  Ok (alerts, isort incident_ltb incidents).

(** The instant to fetch from *)
Definition graph_since (started : Z) (watermark : option Z) : res Z :=
  since ← match watermark with
          | None => lookback ← hours_of (ec_initial_lookback_hours cfg); Ok (started - lookback)
          | Some w => overlap ← seconds_of (ec_overlap_seconds cfg); Ok (w - overlap)
          end;
  if in_datetime_range since then Ok since else Raise OverflowError.

Section Run.
Context {A : Type} (ingest : MdeSecurityBatch -> act A (option str)) (host_map : option (res map_file)).

Definition on_graph {B} (m : act web B) : act (mde_world A) B := fun w => let '(r, x) := m (ew_web w) in (r, w <| ew_web := x |>).

(** [for batch in batches: ...] *)
Fixpoint deliver_mde (bs : list MdeSecurityBatch) : act (mde_world A) unit :=
  match bs with
  | [] => act_ret tt
  | b :: bs =>
      status <~ (fun w => let '(r, x) := ingest b (ew_analyzer w) in (r, w <| ew_analyzer := x |>)) ;;
      if bool_decide (status = Some (u "complete")) then deliver_mde bs else act_lift (Raise (AnalyzerUpstreamError None))
  end.

(** The [try] of [sync_once] *)
Definition mde_sync_body (owner : str) (started finished : Z) : act (mde_world A) MdeSyncOutcome :=
  row <~ act_get ew_state ;;
  watermark <~ act_lift (stored_instant (sy_watermark row)) ;;
  since <~ act_lift (graph_since started watermark) ;;
  entries <~ act_lift (load_host_map host_map) ;;
  raw_alerts <~ on_graph (fetch_graph ALERTS_V2 since) ;;
  raw_incidents <~ on_graph (fetch_graph INCIDENTS since) ;;
  rows <~ act_lift (normalize_rows entries raw_alerts raw_incidents) ;;
  let '(alerts, incidents) := (rows : list MdeAlert * list MdeIncident) in
  bs <~ act_lift (mde_batches since alerts incidents) ;;
  _ <~ deliver_mde bs ;;
  _ <~ (fun w => match record_success owner started finished
                        (fun _ => mkMdeColumns (Z.of_nat (length alerts)) (Z.of_nat (length incidents))) (ew_state w) with
                 | Ok s => (Ok tt, w <| ew_state := s |>)
                 | Raise e => (Raise e, w)
                 end) ;;
  act_ret (mkMdeOutcome true (Z.of_nat (length alerts)) (Z.of_nat (length incidents)) (Z.of_nat (length bs))).

(** [sync_once] *)
Definition mde_sync_once (owner : str) (started finished : Z) : act (mde_world A) MdeSyncOutcome := fun w =>
  let lease_seconds := fl_max (fl_of_Z 300) (fl_mul (ec_poll_seconds cfg) (fl_of_Z 3)) in
  let '(acquired, row) := acquire_lease owner started lease_seconds (ew_state w) in
  let w := w <| ew_state := row |> in
  if negb acquired then (Ok (mkMdeOutcome false 0 0 0), w)
  else
    match mde_sync_body owner started finished w with
    | (Ok o, w) => (Ok o, w)
    | (Raise e, w) => (Raise e, w <| ew_state := record_failure owner (error_text e) (ew_state w) |>)
    end.
End Run.
End Engine.
