(* ===== verification/MdeProps.v ===== *)
(** * What the endpoint connector guarantees

    Of the copies of an alert the one of the greatest rank is sent, every alert and
    incident that was fetched is delivered before the watermark moves; the rank compares
    update times as text, which is not their order. *)

From stdpp Require Import base gmap sets strings list numbers sorting.
From Stdlib Require Import ZArith Lia SpecFloat.
From S2P Require Import Prelude PyText PyHash PyFloat PyJson PyTime TimeOrder Compare Versioning Severity Osv Detect Correlate Envelopes.
From S2P Require Import DefenderClient Acts Mdvm MdvmProps DefenderClientProps Mde.

#[local] Open Scope Z_scope.

(** ** Ranks *)

Lemma str_ltb_total a b : str_ltb a b = false -> str_ltb b a = false -> a = b.
Proof.
  revert b. induction a as [|x a IH]; intros [|y b]; cbn; try done.
  rewrite !orb_false_iff, !andb_false_iff, !N.ltb_ge, !N.eqb_neq. intros [H1 H2] [H3 H4]. assert (x = y) as <- by lia.
  f_equal. apply IH; [by destruct H2|by destruct H4].
Qed.

Lemma rank_nltb_spec a1 a2 a3 b1 b2 b3 : rank_ltb (b1, b2, b3) (a1, a2, a3) = false <->
  (b1 = true /\ a1 = false) \/ (b1 = a1 /\ str_ltb b2 a2 = false /\ (b2 = a2 -> a3 <= b3)).
Proof.
  unfold rank_ltb. rewrite orb_false_iff, andb_false_iff, andb_false_iff, orb_false_iff, andb_false_iff, bool_decide_eq_false, Z.ltb_ge, negb_false_iff.
  rewrite eqb_false_iff. destruct (decide (b2 = a2)) as [->|]; destruct a1, b1; naive_solver.
Qed.

Lemma rank_nltb_trans a b c : rank_ltb b a = false -> rank_ltb c b = false -> rank_ltb c a = false.
Proof.
  destruct a as [[a1 a2] a3], b as [[b1 b2] b3], c as [[c1 c2] c3]. rewrite !rank_nltb_spec.
  intros [[-> ->]|(-> & Hb2 & Hb3)] [[Hc1 Hc1']|(Hc1 & Hc2 & Hc3)]; try (left; split; congruence).
  right. split; [done|]. split; [by eapply str_ltb_nlt_trans|]. intros ->.
  assert (a2 = b2) as -> by (by apply str_ltb_total). specialize (Hb3 eq_refl). specialize (Hc3 eq_refl). lia.
Qed.

Lemma rank_nltb_total a b : rank_ltb a b = false \/ rank_ltb b a = false.
Proof.
  destruct a as [[a1 a2] a3], b as [[b1 b2] b3]. rewrite !rank_nltb_spec.
  destruct (decide (a1 = b1)) as [->|Ha]; [|destruct a1, b1; naive_solver].
  destruct (str_ltb a2 b2) eqn:E.
  - right. right. split; [done|]. split; [by apply str_ltb_asym|]. intros ->. by rewrite str_ltb_irrefl in E.
  - destruct (str_ltb b2 a2) eqn:E'; [left; right; repeat split; [done..|intros ->; by rewrite str_ltb_irrefl in E']|].
    assert (a2 = b2) as -> by (by apply str_ltb_total).
    destruct (Z.le_ge_cases a3 b3); [right|left]; right; split_and!; done || (intros; lia).
Qed.

Lemma rank_ltb_asym a b : rank_ltb a b = true -> rank_ltb b a = false.
Proof. destruct (rank_nltb_total a b) as [E|E]; [congruence|done]. Qed.

Section Copies.
Context {U : Unicode}.

Definition alert_row_id (row : fields) : option str := optional_text (get_value (u "id") row).

(** The copies kept of the rows seen: one of each identifier, of the greatest rank *)
Definition kept_copies (rows : list fields) (by_id : list (str * fields)) : Prop :=
  NoDup by_id.*1 /\
  (forall id row, (id, row) ∈ by_id -> row ∈ rows /\ alert_row_id row = Some id /\
     forall other, other ∈ rows -> alert_row_id other = Some id -> rank_ltb (copy_rank row) (copy_rank other) = false) /\
  (forall row id, row ∈ rows -> alert_row_id row = Some id -> id ∈ by_id.*1).

Lemma keep_copy_kept rows by_id row : kept_copies rows by_id -> kept_copies (rows ++ [row]) (keep_copy by_id row).
Proof.
  intros (Hn & Hk & Hall). unfold keep_copy. fold (alert_row_id row). destruct (alert_row_id row) as [id|] eqn:Eid.
  2: { split; [done|]. split.
       - intros id r Hr. destruct (Hk _ _ Hr) as (? & ? & Hmax). split; [apply elem_of_app; by left|]. split; [done|].
         intros o [Ho|Ho%list_elem_of_singleton]%elem_of_app Hid; [by apply Hmax|]. subst o. congruence.
       - intros r id [Hr|Hr%list_elem_of_singleton]%elem_of_app Hid; [by eapply Hall|]. subst r. congruence. }
  assert (Hset : (forall cur, od_get id by_id = Some cur -> rank_ltb (copy_rank cur) (copy_rank row) = true) ->
    kept_copies (rows ++ [row]) (od_set id row by_id)).
  { intros Hcur. split; [by apply od_set_NoDup|]. split.
    - intros i r Hr. apply od_elem_get in Hr; [|by apply od_set_NoDup]. rewrite od_get_set in Hr. case_decide as Hi.
      + injection Hr as <-. subst i. split; [apply elem_of_app; right; by left|]. split; [done|].
        intros o [Ho|Ho%list_elem_of_singleton]%elem_of_app Hid.
        * destruct (od_get id by_id) as [cur|] eqn:Eg.
          -- specialize (Hcur _ eq_refl). destruct (Hk id cur) as (_ & _ & Hmax); [by apply od_get_Some_elem|].
             destruct (rank_ltb (copy_rank row) (copy_rank o)) eqn:Er; [|done]. exfalso.
             pose proof (Hmax o Ho Hid) as H1. apply rank_ltb_asym in Er. pose proof (rank_nltb_trans _ _ _ Er H1). congruence.
          -- apply od_get_None in Eg. exfalso. by apply Eg, (Hall o id).
        * subst o. destruct (rank_ltb (copy_rank row) (copy_rank row)) eqn:Er; [|done]. pose proof (rank_ltb_asym _ _ Er). congruence.
      + apply od_get_Some_elem in Hr. destruct (Hk _ _ Hr) as (? & ? & Hmax). split; [apply elem_of_app; by left|]. split; [done|].
        intros o [Ho|Ho%list_elem_of_singleton]%elem_of_app Hid; [by apply Hmax|]. subst o. congruence.
    - intros r i [Hr|Hr%list_elem_of_singleton]%elem_of_app Hid; rewrite od_set_keys.
      + case_decide; [by eapply Hall|]. apply elem_of_app. left. by eapply Hall.
      + subst r. assert (i = id) as -> by congruence. case_decide; [done|]. apply elem_of_app. right. by left. }
  destruct (od_get id by_id) as [cur|] eqn:Eg; [|by apply Hset].
  destruct (rank_ltb (copy_rank cur) (copy_rank row)) eqn:Er; [apply Hset; intros c [= <-]; done|].
  split; [done|]. split.
  - intros i r Hr. destruct (Hk _ _ Hr) as (? & ? & Hmax). split; [apply elem_of_app; by left|]. split; [done|].
    intros o [Ho|Ho%list_elem_of_singleton]%elem_of_app Hid; [by apply Hmax|]. subst o.
    assert (i = id) as -> by congruence. apply (od_elem_get id r by_id Hn) in Hr. congruence.
  - intros r i [Hr|Hr%list_elem_of_singleton]%elem_of_app Hid; [by eapply Hall|]. subst r. assert (i = id) as -> by congruence.
    apply list_elem_of_fmap. exists (id, cur). split; [done|]. by apply od_get_Some_elem.
Qed.

Lemma fold_keep_copy rows : kept_copies rows (fold_left keep_copy rows []).
Proof.
  induction rows as [|row rows IH] using rev_ind.
  - split; [constructor|]. split; [intros ? ? H; by apply not_elem_of_nil in H|intros ? ? H; by apply not_elem_of_nil in H].
  - rewrite fold_left_app. by apply keep_copy_kept.
Qed.

Lemma dedupe_spec rows :
  NoDup (omap alert_row_id (dedupe_alert_rows rows)) /\
  (forall row, row ∈ dedupe_alert_rows rows -> exists id, alert_row_id row = Some id /\ row ∈ rows /\
     forall other, other ∈ rows -> alert_row_id other = Some id -> rank_ltb (copy_rank row) (copy_rank other) = false) /\
  (forall row id, row ∈ rows -> alert_row_id row = Some id -> exists kept, kept ∈ dedupe_alert_rows rows /\ alert_row_id kept = Some id).
Proof.
  destruct (fold_keep_copy rows) as (Hn & Hk & Hall). unfold dedupe_alert_rows. split; [|split].
  - replace (omap alert_row_id (snd <$> fold_left keep_copy rows [])) with (fold_left keep_copy rows []).*1; [done|].
    assert (Hid : forall id row, (id, row) ∈ fold_left keep_copy rows [] -> alert_row_id row = Some id) by (intros id row Hin; apply (Hk _ _ Hin)).
    clear - Hid. induction (fold_left keep_copy rows []) as [|[id row] l IH]; [done|]. cbn. rewrite (Hid id row) by (by left).
    f_equal. apply IH. intros. apply Hid. by right.
  - intros row Hr. apply list_elem_of_fmap in Hr as ([id r] & -> & Hin). destruct (Hk _ _ Hin) as (? & ? & ?). by exists id.
  - intros row id Hr Hid. specialize (Hall _ _ Hr Hid). apply list_elem_of_fmap in Hall as ([i kept] & -> & Hin).
    exists kept. destruct (Hk _ _ Hin) as (_ & ? & _). split; [|done]. apply list_elem_of_fmap. by exists (i, kept).
Qed.

(** The row says it was updated at an instant, in the form the service writes *)
Definition updated_at (row : fields) (t : Z) : Prop := get_value (u "lastUpdateDateTime") row = JString (zulu t) /\ in_datetime_range t = true.

Lemma updated_rank row t : updated_at row t -> copy_rank row = (true, zulu t, Z.of_nat (length row)).
Proof. intros [E _]. unfold copy_rank. by rewrite E. Qed.

Lemma updated_unique row a b : updated_at row a -> updated_at row b -> a = b.
Proof.
  intros [Ea Ha] [Eb Hb]. rewrite Ea in Eb. injection Eb as Eb. rewrite !zulu_text in Eb by done. apply app_inj_tail in Eb as [Eb _].
  apply isoformat_inj; [done|done|]. by rewrite !isoformat_clock_part, Eb.
Qed.

(** Of the copies of an alert the newest is sent: when update times are whole
    seconds, one copy is kept of every identifier that occurs, and it was updated no
    earlier than any other copy. *)
Theorem dedupe_keeps_latest rows :
  (forall row, row ∈ rows -> exists t, updated_at row t /\ t mod 1000000 = 0) ->
  NoDup (omap alert_row_id (dedupe_alert_rows rows)) /\
  (forall row id, row ∈ rows -> alert_row_id row = Some id ->
     exists kept t t', kept ∈ dedupe_alert_rows rows /\ kept ∈ rows /\ alert_row_id kept = Some id /\
       updated_at kept t /\ updated_at row t' /\ t' <= t).
Proof.
  intros Hrows. destruct (dedupe_spec rows) as (Hn & Hk & Hall). split; [done|]. intros row id Hr Hid.
  destruct (Hall row id Hr Hid) as (kept & Hin & Hkid). destruct (Hk kept Hin) as (i & Hi & Hkr & Hmax). assert (i = id) as -> by congruence.
  destruct (Hrows kept Hkr) as (t & Ht & Hw). destruct (Hrows row Hr) as (t' & Ht' & Hw'). exists kept, t, t'. repeat (split; [done|]).
  specialize (Hmax row Hr Hid). rewrite (updated_rank _ _ Ht), (updated_rank _ _ Ht'), rank_nltb_spec in Hmax.
  destruct Hmax as [[? ?]|(_ & Hmax & _)]; [done|]. destruct Ht as [_ Ht], Ht' as [_ Ht']. rewrite zulu_whole in Hmax by done. lia.
Qed.

(** With fractions of a second the older copy may be sent: of two copies of an
    alert, one updated at a whole second and one in the course of the same second, the
    first is kept in either order, because update times are compared as texts. *)
Theorem dedupe_keeps_older `{IsoForms} old new id t us :
  alert_row_id old = Some id -> alert_row_id new = Some id -> updated_at old t -> updated_at new (t + us) ->
  t mod 1000000 = 0 -> 0 < us < 1000000 ->
  timestamp (get_value (u "lastUpdateDateTime") old) = Ok t /\ timestamp (get_value (u "lastUpdateDateTime") new) = Ok (t + us) /\
  dedupe_alert_rows [old; new] = [old] /\ dedupe_alert_rows [new; old] = [old].
Proof.
  intros Hold Hnew Ho Hn Hw Hus. pose proof (updated_rank _ _ Ho) as Ro. pose proof (updated_rank _ _ Hn) as Rn.
  destruct Ho as [Eo Ho], Hn as [En Hn]. rewrite Eo, En, !timestamp_zulu by done. split; [done|]. split; [done|].
  pose proof (zulu_fraction t us Ho Hn Hw Hus) as Hlt. unfold dedupe_alert_rows. cbn [fold_left]. unfold keep_copy, alert_row_id in *. rewrite Hold, Hnew.
  cbn [od_get]. unfold od_set. cbn [od_get]. split; cbn; rewrite decide_True by done; rewrite Ro, Rn.
  - replace (rank_ltb _ _) with false; [done|]. symmetry. apply rank_nltb_spec. right. split; [done|]. split; [by apply str_ltb_asym|].
    intros E. rewrite E, str_ltb_irrefl in Hlt. done.
  - unfold rank_ltb. rewrite Hlt. cbn. by rewrite ?decide_True by done.
Qed.
End Copies.

(** ** Batches *)

Lemma chunked_concat {X} fuel size (l : list X) : (0 < size)%nat -> (length l <= fuel)%nat ->
  concat (chunked fuel size l) = l /\ Forall (fun part => part <> [] /\ (length part <= size)%nat) (chunked fuel size l).
Proof.
  intros Hs. revert l. induction fuel as [|fuel IH]; intros l Hl.
  - destruct l; [|cbn in Hl; lia]. by split.
  - destruct l as [|x l]; [by split|]. cbn [chunked concat]. destruct (IH (drop size (x :: l))) as [E F].
    { rewrite length_drop. cbn [length] in *. lia. }
    rewrite E, take_drop. split; [done|]. constructor; [|done]. split; [destruct size; [lia|done]|]. rewrite length_take. lia.
Qed.

Section Delivery.
Context {U : Unicode} `{IsoForms} `{UrlSplit} {D : MdeDumps} (cfg : MdeConfig) (error_text : exn -> str).

(** What is in the batches: everything in order, a bounded part in each *)
Definition batches_of (since : Z) (alerts : list MdeAlert) (incidents : list MdeIncident) (bs : list MdeSecurityBatch) : Prop :=
  concat (mb_alerts <$> bs) = alerts /\ concat (mb_incidents <$> bs) = incidents /\
  Forall (fun b => 0 < Z.of_nat (length (mb_alerts b) + length (mb_incidents b)) <= ec_chunk_size cfg /\ mb_query_started_at b = since) bs.

Lemma mde_batch_ok since part b : mde_batch cfg since part = Ok b ->
  mb_alerts b = omap item_alert part /\ mb_incidents b = omap item_incident part /\ mb_query_started_at b = since.
Proof. unfold mde_batch. cbv zeta. case_match; [|done]. by intros [= <-]. Qed.

Lemma split_length part : (length (omap item_alert part) + length (omap item_incident part) = length part)%nat.
Proof. induction part as [|[a|i] part IH]; [done|cbn; by rewrite IH|cbn; by rewrite Nat.add_succ_r, IH]. Qed.

Lemma mde_batches_spec since alerts incidents bs : 1 <= ec_chunk_size cfg -> mde_batches cfg since alerts incidents = Ok bs ->
  batches_of since alerts incidents bs.
Proof.
  intros Hc E. unfold mde_batches in E. cbv zeta in E. set (items := (I_alert <$> alerts) ++ (I_incident <$> incidents)) in *.
  destruct (chunked_concat (length items) (Z.to_nat (ec_chunk_size cfg)) items ltac:(lia) ltac:(lia)) as [Hcat Hfit].
  assert (Halerts : omap item_alert items = alerts).
  { unfold items. rewrite omap_app. replace (omap item_alert (I_incident <$> incidents)) with (@nil MdeAlert) by (clear; by induction incidents).
    rewrite app_nil_r. clear. induction alerts as [|a l IH]; [done|]. cbn. by f_equal. }
  assert (Hincidents : omap item_incident items = incidents).
  { unfold items. rewrite omap_app. replace (omap item_incident (I_alert <$> alerts)) with (@nil MdeIncident) by (clear; by induction alerts).
    cbn [app]. clear. induction incidents as [|a l IH]; [done|]. cbn. by f_equal. }
  apply mapM_Ok in E. rewrite <-Halerts, <-Hincidents, <-Hcat. clear - E Hfit Hc.
  unfold batches_of. induction E as [|part b parts bs Hb _ IH]; [done|]. apply Forall_cons in Hfit as [[Hne Hl] Hfit]. destruct (IH Hfit) as (Ea & Ei & Hf).
  apply mde_batch_ok in Hb as (Hba & Hbi & Hbs). cbn [fmap list_fmap concat]. rewrite !omap_app, Ea, Ei, Hba, Hbi. split; [done|]. split; [done|].
  constructor; [|done]. rewrite Hba, Hbi, split_length. split; [|done]. destruct part; [done|]. cbn [length] in *. lia.
Qed.

Context {A : Type} (ingest : MdeSecurityBatch -> act A (option str)) (host_map : option (res map_file)).

Lemma deliver_mde_ok bs (w : mde_world A) w' : deliver_mde ingest bs w = (Ok tt, w') ->
  delivered ingest bs (ew_analyzer w) (ew_analyzer w') /\ ew_state w' = ew_state w /\ ew_web w' = ew_web w.
Proof.
  revert w. induction bs as [|b bs IH]; intros w; cbn [deliver_mde].
  - intros [= <-]. split; [constructor|done].
  - intros E. apply act_bind_ok in E as (status & w1 & Es & E). destruct (ingest b (ew_analyzer w)) as [r a] eqn:Ei. injection Es as -> <-.
    case_bool_decide as Hst; [|done]. subst status. apply IH in E as (Hd & Hs & Hw). split; [|done]. by econstructor.
Qed.

Lemma deliver_mde_keeps bs : keeps ew_state (deliver_mde ingest bs).
Proof.
  induction bs as [|b bs IH]; [done|]. cbn [deliver_mde]. apply act_keeps_bind; [|intros st; by case_bool_decide].
  intros w. by destruct (ingest b (ew_analyzer w)).
Qed.

Lemma on_graph_ok {B} (m : act web B) (w : mde_world A) b w' : on_graph m w = (Ok b, w') ->
  m (ew_web w) = (Ok b, ew_web w') /\ ew_state w' = ew_state w /\ ew_analyzer w' = ew_analyzer w.
Proof. unfold on_graph. destruct (m (ew_web w)) as [r x]. by intros [= -> <-]. Qed.

Lemma on_graph_keeps {B} (m : act web B) : keeps ew_state (on_graph m : act (mde_world A) B).
Proof. intros w. unfold on_graph. by destruct (m _). Qed.

(** What a synchronisation that ends well has done *)
Definition mde_synchronised (started : Z) (o : MdeSyncOutcome) (w w' : mde_world A) : Prop :=
  exists since entries raw_alerts raw_incidents net alerts incidents bs,
    (exists watermark, stored_instant (sy_watermark (ew_state w)) = Ok watermark /\ graph_since cfg started watermark = Ok since) /\
    load_host_map host_map = Ok entries /\
    fetch_graph cfg ALERTS_V2 since (ew_web w) = (Ok raw_alerts, net) /\
    fetch_graph cfg INCIDENTS since net = (Ok raw_incidents, ew_web w') /\
    normalize_rows cfg entries raw_alerts raw_incidents = Ok (alerts, incidents) /\
    batches_of since alerts incidents bs /\
    delivered ingest bs (ew_analyzer w) (ew_analyzer w') /\
    o = mkMdeOutcome true (Z.of_nat (length alerts)) (Z.of_nat (length incidents)) (Z.of_nat (length bs)) /\
    sy_watermark (ew_state w') = Some (isoformat started) /\ sy_lease_owner (ew_state w') = None.

Lemma mde_sync_body_ok owner started finished w o w' : 1 <= ec_chunk_size cfg ->
  mde_sync_body cfg ingest host_map owner started finished w = (Ok o, w') -> mde_synchronised started o w w'.
Proof.
  intros Hc E. unfold mde_sync_body in E.
  apply act_bind_ok in E as (row & w1 & Er & E). injection Er as <- <-.
  apply act_bind_ok in E as (watermark & w1 & Ew & E). apply act_lift_ok in Ew as [Ew ->].
  apply act_bind_ok in E as (since & w1 & Es & E). apply act_lift_ok in Es as [Es ->].
  apply act_bind_ok in E as (entries & w1 & Ee & E). apply act_lift_ok in Ee as [Ee ->].
  apply act_bind_ok in E as (raw_alerts & w1 & Ea & E). apply on_graph_ok in Ea as (Ea & Hs1 & Ha1).
  apply act_bind_ok in E as (raw_incidents & w2 & Ei & E). apply on_graph_ok in Ei as (Ei & Hs2 & Ha2).
  apply act_bind_ok in E as ([alerts incidents] & w3 & En & E). apply act_lift_ok in En as [En ->].
  apply act_bind_ok in E as (bs & w3 & Eb & E). apply act_lift_ok in Eb as [Eb ->].
  apply act_bind_ok in E as ([] & w3 & Ed & E). apply deliver_mde_ok in Ed as (Hd & Hs3 & Hw3).
  apply act_bind_ok in E as ([] & w4 & Ef & E). injection E as <- <-. rewrite Hs3, Hs2, Hs1 in Ef.
  unfold record_success in Ef. destruct (owns owner (ew_state w)) eqn:Eo; [|done]. injection Ef as <-.
  exists since, entries, raw_alerts, raw_incidents, (ew_web w1), alerts, incidents, bs.
  split; [by exists watermark|]. split; [done|]. split; [done|]. split; [by rewrite Ei, <-Hw3|]. split; [done|].
  split; [by apply mde_batches_spec|]. split; [by rewrite <-Ha1, <-Ha2|]. done.
Qed.

(** The last step, which alone changes the row *)
Lemma mde_last_keeps {C} (f : sync_row mde_columns -> res (sync_row mde_columns)) (o : C) : keeps_raising ew_state
  (act_bind (fun w : mde_world A => match f (ew_state w) with Ok s => (Ok tt, w <| ew_state := s |>) | Raise e => (Raise e, w) end) (fun _ => act_ret o)).
Proof.
  intros w e w' E. apply act_bind_raises in E as [E|([] & w1 & _ & E)]; [|done]. destruct (f _); [done|]. by injection E as _ <-.
Qed.

Lemma mde_sync_body_row owner started finished : keeps_raising ew_state (mde_sync_body cfg ingest host_map owner started finished).
Proof.
  unfold mde_sync_body. repeat (apply act_keeps_raising_bind; [first [apply act_keeps_lift|apply act_keeps_get|apply on_graph_keeps]|intros ?]).
  case_match. apply act_keeps_raising_bind; [apply act_keeps_lift|intros bs]. apply act_keeps_raising_bind; [apply deliver_mde_keeps|intros []]. apply mde_last_keeps.
Qed.

(** The world after the lease was taken *)
Definition mde_leased (owner : str) (started : Z) (w : mde_world A) : mde_world A :=
  w <| ew_state := (acquire_lease owner started (fl_max (fl_of_Z 300) (fl_mul (ec_poll_seconds cfg) (fl_of_Z 3))) (ew_state w)).2 |>.

End Delivery.

(** ** A run of the connector *)
Module GraphRun.
#[export] Instance forms : IsoForms := {| other_form _ := Raise ValueError |}.
#[export] Instance dumps : MdeDumps := {| sync_content tenant since alerts incidents := tenant ++ since ++ concat (ma_alert_id <$> alerts) |}.
#[export] Instance urls : UrlSplit := {|
  urlsplit s := Ok (mkUrl (u "https") (u "graph.microsoft.com") (drop 27 s) [] (Some (u "graph.microsoft.com")))
|}.

Definition config : MdeConfig :=
  mkMdeConfig (mkClientConfig (u "t") (Ok (mkSecretFile 6 true (Ok (u "secret")))) (u "scope") 3 2 10) (fl_of_Z 60) (fl_of_Z 1) (fl_of_Z 60) 100 2.

Definition alert (id : str) (t : Z) : fields := [(u "id", JString id); (u "lastUpdateDateTime", JString (zulu t))].
Definition incident : fields := [(u "id", JString (u "i")); (u "lastUpdateDateTime", JString (zulu 7000000)); (u "alerts", JArray [JObject (alert (u "b") 9000000)])].
Definition page (rows : list fields) : response := mkResponse 200 50 (Ok (JObject [(u "value", JArray (JObject <$> rows))])) [].
Definition token_answer : response := mkResponse 200 50 (Ok (JObject [(u "access_token", JString (u "abc"))])) [].
Definition network : web :=
  mkWeb [Some token_answer; Some (page [alert (u "a") 5000000; alert (u "b") 6000000]); Some (page [incident])]
    (fl_of_Z <$> [1; 2; 3]) [] [] None (fl_of_Z 0).
Definition world : mde_world (list MdeSecurityBatch) := mkMdeWorld network (fresh_row (mkMdeColumns 0 0)) [].
Definition analyzer (b : MdeSecurityBatch) : act (list MdeSecurityBatch) (option str) := fun a => (Ok (Some (u "complete")), b :: a).
Abbreviation run := (mde_sync_once config (fun _ => u "error") analyzer None (u "me") 86400000000 86400000001 world).
End GraphRun.

#[local] Existing Instances GraphRun.forms GraphRun.dumps GraphRun.urls.

Lemma updated_at_alert id t : in_datetime_range t = true -> updated_at (GraphRun.alert id t) t.
Proof. by split. Qed.

Lemma dedupe_keeps_latest_witness : exists kept t t',
  kept ∈ dedupe_alert_rows [GraphRun.alert (u "a") 5000000; GraphRun.alert (u "a") 9000000] /\
  alert_row_id kept = Some (u "a") /\ updated_at kept t /\ updated_at (GraphRun.alert (u "a") 9000000) t' /\ t' <= t.
Proof.
  destruct (dedupe_keeps_latest [GraphRun.alert (u "a") 5000000; GraphRun.alert (u "a") 9000000]) as [_ H].
  - intros row Hr. apply elem_of_cons in Hr as [-> | Hr].
    + exists 5000000. split; [by apply updated_at_alert|reflexivity].
    + apply list_elem_of_singleton in Hr as ->. exists 9000000. split; [by apply updated_at_alert|reflexivity].
  - destruct (H (GraphRun.alert (u "a") 9000000) (u "a")) as (kept & t & t' & Hin & _ & Hid & Ht & Ht' & Hle).
    + right. by left.
    + vm_compute. reflexivity.
    + exists kept, t, t'. split; [exact Hin|]. split; [exact Hid|]. split; [exact Ht|]. split; [exact Ht'|exact Hle].
Defined.

Lemma dedupe_keeps_older_witness :
  dedupe_alert_rows [GraphRun.alert (u "a") 5000000; GraphRun.alert (u "a") 5250000] = [GraphRun.alert (u "a") 5000000] /\
  dedupe_alert_rows [GraphRun.alert (u "a") 5250000; GraphRun.alert (u "a") 5000000] = [GraphRun.alert (u "a") 5000000].
Proof.
  refine (proj2 (proj2 (dedupe_keeps_older (GraphRun.alert (u "a") 5000000) (GraphRun.alert (u "a") 5250000) (u "a") 5000000 250000 _ _ _ _ _ _))).
  - vm_compute. reflexivity.
  - vm_compute. reflexivity.
  - by apply updated_at_alert.
  - by apply updated_at_alert.
  - reflexivity.
  - lia.
Defined.

