(* ===== verification/Settings.v ===== *)
(** * Settings read from the environment ([mde.py], [mdvm.py], [scan_worker.py])

    The environment is a function from names to texts.  The connectors refuse a value
    they cannot use, the scan worker takes the default instead and refuses combinations
    only.  A default is not printed and parsed: [str] and [float] are inverse. *)

From stdpp Require Import base gmap strings list numbers.
From Stdlib Require Import ZArith Lia SpecFloat.
From S2P Require Import Prelude PyText Acts PyHash PyFloat PyJson PyTime Compare Versioning Severity Osv Detect Correlate Envelopes DefenderClient Mdvm Mde.

#[local] Open Scope Z_scope.

Definition environment := str -> option str.

Section Readers.
Context {U : Unicode} (env : environment).

(** [os.getenv(name, "").strip()] *)
Definition env_text (name : str) : str := strip (default [] (env name)).

(** The first that is set and not blank: [a or b] *)
Definition env_first (names : list str) : str := default [] (head (base.filter (fun s => s <> []) (env_text <$> names))).

(** [Path(raw) if raw else None] *)
Definition env_path (raw : str) : option str := match raw with [] => None | _ => Some raw end.

(** [_bool_env] and [_env_bool] *)
Definition bool_env (name : str) (otherwise : bool) : res bool :=
  match env name with
  | None => Ok otherwise
  | Some raw =>
      let value := lower (strip raw) in
      if bool_decide (value ∈ [u "1"; u "true"; u "yes"; u "on"]) then Ok true
      else if bool_decide (value ∈ [u "0"; u "false"; u "no"; u "off"]) then Ok false
      else Raise MdeConfigurationError
  end.

Definition positive_float_value (x : float) : bool := isfinite x && negb (fl_leb x (fl_of_Z 0)).

(** [_positive_int] and [_positive_float] *)
Definition positive_int (name : str) (otherwise : Z) : res Z :=
  match match env name with None => Some otherwise | Some raw => int_of_text raw end with
  | Some n => if n <=? 0 then Raise MdeConfigurationError else Ok n
  | None => Raise MdeConfigurationError
  end.
Definition positive_float (name : str) (otherwise : float) : res float :=
  match match env name with None => Some otherwise | Some raw => float_of_text raw end with
  | Some x => if positive_float_value x then Ok x else Raise MdeConfigurationError
  | None => Raise MdeConfigurationError
  end.

(** [_SAFE_DIRECTORY_ID.fullmatch] and [_SAFE_ID.fullmatch] *)
Definition safe_id (s : str) : bool :=
  (1 <=? length s)%nat && (length s <=? 256)%nat
  && forallb (fun c => PyText.between 65 c 90 || PyText.between 97 c 122 || PyText.between 48 c 57 || (c =? 46)%N || (c =? 45)%N) s.

(** ** The endpoint connector *)

(** [MdeConfig]; no state path is the file in the data directory. *)
Record mde_settings := mkMdeSettings {
  es_enabled : bool;
  es_tenant_id : str;
  es_client_id : str;
  es_client_secret_file : option str;
  es_host_map_file : option str;
  es_state_path : option str;
  es_poll_seconds : float;
  es_initial_lookback_hours : float;
  es_overlap_seconds : float;
  es_timeout_seconds : float;
  es_page_size : Z;
  es_max_pages : Z;
  es_max_items : Z;
  es_chunk_size : Z;
  es_max_attempts : Z;
}.

(** [cls(enabled=False, ...)] *)
Definition mde_disabled : mde_settings :=
  mkMdeSettings false [] [] None None None (fl_of_Z 300) (fl_of_Z 48) (fl_of_Z 300) (fl_of_Z 30) 100 200 20000 128 4.

(** [MdeConfig.from_env] of an enabled connector *)
Definition mde_enabled_from_env : res mde_settings :=
  poll ← positive_float (u "FORM_MDE_POLL_SECONDS") (fl_of_Z 300);
  lookback ← positive_float (u "FORM_MDE_INITIAL_LOOKBACK_HOURS") (fl_of_Z 48);
  overlap ← positive_float (u "FORM_MDE_OVERLAP_SECONDS") (fl_of_Z 300);
  timeout ← positive_float (u "FORM_MDE_TIMEOUT_SECONDS") (fl_of_Z 30);
  page_size ← positive_int (u "FORM_MDE_PAGE_SIZE") 100;
  max_pages ← positive_int (u "FORM_MDE_MAX_PAGES") 200;
  max_items ← positive_int (u "FORM_MDE_MAX_ITEMS") 20000;
  chunk_size ← positive_int (u "FORM_MDE_CHUNK_SIZE") 128;
  max_attempts ← positive_int (u "FORM_MDE_MAX_ATTEMPTS") 4;
  let c := mkMdeSettings true (env_text (u "FORM_MDE_TENANT_ID")) (env_text (u "FORM_MDE_CLIENT_ID"))
             (env_path (env_text (u "FORM_MDE_CLIENT_SECRET_FILE"))) (env_path (env_text (u "FORM_MDE_HOST_MAP_FILE")))
             (env_path (env_text (u "FORM_MDE_STATE_PATH"))) poll lookback overlap timeout page_size max_pages max_items chunk_size max_attempts in
  _ ← raise_if (100 <? page_size) MdeConfigurationError;
  _ ← raise_if (200 <? chunk_size) MdeConfigurationError;
  _ ← raise_if (negb (safe_id (es_tenant_id c))) MdeConfigurationError;
  _ ← raise_if (negb (safe_id (es_client_id c))) MdeConfigurationError;
  _ ← raise_if (match es_client_secret_file c with None => true | Some _ => false end) MdeConfigurationError;
  Ok c.

(** [MdeConfig.from_env] *)
Definition mde_from_env : res mde_settings :=
  enabled ← bool_env (u "FORM_MDE_ENABLED") false; if negb enabled then Ok mde_disabled else mde_enabled_from_env.

(** ** The vulnerability connector *)

(** [MdvmConfig] *)
Record mdvm_settings := mkMdvmSettings {
  vs_enabled : bool;
  vs_tenant_id : str;
  vs_client_id : str;
  vs_client_secret_file : option str;
  vs_host_map_file : option str;
  vs_state_path : option str;
  vs_api_host : str;
  vs_poll_seconds : float;
  vs_baseline_refresh_hours : float;
  vs_delta_overlap_seconds : float;
  vs_timeout_seconds : float;
  vs_page_size : Z;
  vs_max_pages : Z;
  vs_max_items : Z;
  vs_findings_per_snapshot : Z;
  vs_snapshots_per_batch : Z;
  vs_batch_max_bytes : Z;
  vs_state_max_findings : Z;
  vs_state_max_bytes : Z;
  vs_max_attempts : Z;
}.

Definition mdvm_disabled : mdvm_settings :=
  mkMdvmSettings false [] [] None None None (u "api.security.microsoft.com") (fl_of_Z 21600) (fl_of_Z 168) (fl_of_Z 21600) (fl_of_Z 60)
    1000 200 50000 512 32 (3 * 1024 * 1024) 200000 (256 * 1024 * 1024) 4.

(** [MdvmConfig.from_env] of an enabled connector *)
Definition mdvm_enabled_from_env : res mdvm_settings :=
  let api_host := lower (strip (default (u "api.security.microsoft.com") (env (u "FORM_MDVM_API_HOST")))) in
  poll ← positive_float (u "FORM_MDVM_POLL_SECONDS") (fl_of_Z 21600);
  refresh ← positive_float (u "FORM_MDVM_BASELINE_REFRESH_HOURS") (fl_of_Z 168);
  overlap ← positive_float (u "FORM_MDVM_DELTA_OVERLAP_SECONDS") (fl_of_Z 21600);
  timeout ← positive_float (u "FORM_MDVM_TIMEOUT_SECONDS") (fl_of_Z 60);
  page_size ← positive_int (u "FORM_MDVM_PAGE_SIZE") 1000;
  max_pages ← positive_int (u "FORM_MDVM_MAX_PAGES") 200;
  max_items ← positive_int (u "FORM_MDVM_MAX_ITEMS") 50000;
  per_snapshot ← positive_int (u "FORM_MDVM_FINDINGS_PER_SNAPSHOT") 512;
  per_batch ← positive_int (u "FORM_MDVM_SNAPSHOTS_PER_BATCH") 32;
  batch_bytes ← positive_int (u "FORM_MDVM_BATCH_MAX_BYTES") (3 * 1024 * 1024);
  state_findings ← positive_int (u "FORM_MDVM_STATE_MAX_FINDINGS") 200000;
  state_bytes ← positive_int (u "FORM_MDVM_STATE_MAX_BYTES") (256 * 1024 * 1024);
  max_attempts ← positive_int (u "FORM_MDVM_MAX_ATTEMPTS") 4;
  let c := mkMdvmSettings true (env_first [u "FORM_MDVM_TENANT_ID"; u "FORM_MDE_TENANT_ID"])
             (env_first [u "FORM_MDVM_CLIENT_ID"; u "FORM_MDE_CLIENT_ID"])
             (env_path (env_first [u "FORM_MDVM_CLIENT_SECRET_FILE"; u "FORM_MDE_CLIENT_SECRET_FILE"]))
             (env_path (env_first [u "FORM_MDVM_HOST_MAP_FILE"; u "FORM_MDE_HOST_MAP_FILE"]))
             (env_path (env_text (u "FORM_MDVM_STATE_PATH"))) api_host poll refresh overlap timeout page_size max_pages max_items
             per_snapshot per_batch batch_bytes state_findings state_bytes max_attempts in
  _ ← raise_if (negb (safe_id (vs_tenant_id c))) MdeConfigurationError;
  _ ← raise_if (negb (safe_id (vs_client_id c))) MdeConfigurationError;
  _ ← raise_if (match vs_client_secret_file c with None => true | Some _ => false end) MdeConfigurationError;
  _ ← raise_if (negb (bool_decide (api_host ∈ _ALLOWED_API_HOSTS))) MdeConfigurationError;
  _ ← raise_if (10000 <? page_size) MdeConfigurationError;
  _ ← raise_if (4096 <? per_snapshot) MdeConfigurationError;
  _ ← raise_if (256 <? per_batch) MdeConfigurationError;
  _ ← raise_if (8 * 1024 * 1024 <? batch_bytes) MdeConfigurationError;
  _ ← raise_if (fl_ltb (fl_of_Z 86400) overlap) MdeConfigurationError;
  Ok c.

(** [MdvmConfig.from_env] *)
Definition mdvm_from_env : res mdvm_settings :=
  enabled ← bool_env (u "FORM_MDVM_ENABLED") false; if negb enabled then Ok mdvm_disabled else mdvm_enabled_from_env.

(** ** The scan worker *)

(** [_positive_int_env] and [_positive_float_env] *)
Definition positive_int_env (name : str) (otherwise : Z) (maximum : option Z) : Z :=
  let value := match env name with None => otherwise | Some raw => default otherwise (int_of_text raw) end in
  let value := if value <=? 0 then otherwise else value in
  match maximum with Some m => Z.min value m | None => value end.
Definition positive_float_env (name : str) (otherwise : float) : float :=
  let value := match env name with None => otherwise | Some raw => default otherwise (float_of_text raw) end in
  if positive_float_value value then value else otherwise.

(** [ScanWorkerConfig] *)
Record ScanWorkerConfig := mkWorkerConfig {
  wc_concurrency : Z;
  wc_job_timeout_seconds : float;
  wc_lease_seconds : float;
  wc_heartbeat_seconds : float;
  wc_poll_seconds : float;
  wc_max_attempts : Z;
  wc_retry_base_seconds : float;
  wc_retry_max_seconds : float;
  wc_shutdown_grace_seconds : float;
}.

(** The first of the least, as Python's [min] takes it *)
Definition fl_least (x : float) (xs : list float) : float := fold_left (fun m y => if fl_ltb y m then y else m) xs x.

(** [__post_init__] *)
Definition validate_worker_config (c : ScanWorkerConfig) : res ScanWorkerConfig :=
  _ ← raise_if ((wc_concurrency c <=? 0) || (wc_max_attempts c <=? 0)) ValueError;
  _ ← raise_if (20 <? wc_max_attempts c) ValueError;
  _ ← raise_if (fl_leb (fl_least (wc_job_timeout_seconds c)
        [wc_lease_seconds c; wc_heartbeat_seconds c; wc_poll_seconds c; wc_retry_base_seconds c; wc_retry_max_seconds c; wc_shutdown_grace_seconds c])
        (fl_of_Z 0)) ValueError;
  _ ← raise_if (fl_leb (wc_lease_seconds c) (wc_heartbeat_seconds c)) ValueError;
  _ ← raise_if (fl_ltb (wc_retry_max_seconds c) (wc_retry_base_seconds c)) ValueError;
  Ok c.

(** [ScanWorkerConfig.from_env] *)
Definition worker_from_env : res ScanWorkerConfig :=
  let lease := positive_float_env (u "FORM_SCAN_LEASE_SECONDS") (fl_of_Z 60) in
  let heartbeat_default := fl_min (fl_of_Z 15) (fl_div lease (fl_of_Z 3)) in
  validate_worker_config
    (mkWorkerConfig (positive_int_env (u "FORM_MAX_CONCURRENT_SCANS") 4 None)
       (positive_float_env (u "FORM_SCAN_JOB_TIMEOUT_SECONDS") (fl_of_Z 1800)) lease
       (positive_float_env (u "FORM_SCAN_HEARTBEAT_SECONDS") heartbeat_default)
       (positive_float_env (u "FORM_SCAN_POLL_SECONDS") (fl_of_Z 1))
       (positive_int_env (u "FORM_SCAN_MAX_ATTEMPTS") 3 (Some 20))
       (positive_float_env (u "FORM_SCAN_RETRY_BASE_SECONDS") (fl_of_Z 5))
       (positive_float_env (u "FORM_SCAN_RETRY_MAX_SECONDS") (fl_of_Z 300))
       (positive_float_env (u "FORM_SCAN_SHUTDOWN_GRACE_SECONDS") (fl_of_Z 15))).
End Readers.

(** ** What the connectors use of their settings; a path is read when it is needed. *)

Definition GRAPH_SCOPE : str := u "https://graph.microsoft.com/.default".
Definition MDVM_SCOPE : str := u "https://api.securitycenter.microsoft.com/.default".

Definition mde_config (c : mde_settings) (secret : res secret_file) : MdeConfig :=
  mkMdeConfig (mkClientConfig (es_tenant_id c) secret GRAPH_SCOPE (es_max_attempts c) (es_max_pages c) (es_max_items c))
    (es_poll_seconds c) (es_initial_lookback_hours c) (es_overlap_seconds c) (es_page_size c) (es_chunk_size c).

Definition mdvm_config (c : mdvm_settings) (secret : res secret_file) : MdvmConfig :=
  mkMdvmConfig (mkClientConfig (vs_tenant_id c) secret MDVM_SCOPE (vs_max_attempts c) (vs_max_pages c) (vs_max_items c))
    (vs_api_host c) (vs_poll_seconds c) (vs_baseline_refresh_hours c) (vs_delta_overlap_seconds c) (vs_page_size c)
    (vs_findings_per_snapshot c) (vs_snapshots_per_batch c) (vs_batch_max_bytes c) (vs_state_max_findings c) (vs_state_max_bytes c).

(** ** Accepted settings are usable *)
Section Accepted.
Context {U : Unicode} (env : environment).

(** The computation raises the configuration error or its result has [Q]. *)
Definition refused_or {A} (Q : A -> Prop) (r : res A) : Prop := r = Raise MdeConfigurationError \/ exists a, r = Ok a /\ Q a.

Lemma refused_positive_int {A} (Q : A -> Prop) name otherwise k :
  (forall n, 1 <= n -> refused_or Q (k n)) -> refused_or Q (n ← positive_int env name otherwise; k n).
Proof.
  intros Hk. unfold positive_int. destruct (match env name with None => _ | Some _ => _ end) as [n|]; [|by left].
  destruct (Z.leb_spec n 0); [by left|apply Hk; lia].
Qed.

Lemma refused_positive_float {A} (Q : A -> Prop) name otherwise k :
  (forall x, positive_float_value x = true -> refused_or Q (k x)) -> refused_or Q (x ← positive_float env name otherwise; k x).
Proof.
  intros Hk. unfold positive_float. destruct (match env name with None => _ | Some _ => _ end) as [x|]; [|by left].
  destruct (positive_float_value x) eqn:E; [by apply Hk|by left].
Qed.

Lemma refused_raise_if {A} (Q : A -> Prop) (c : bool) (k : res A) :
  (c = false -> refused_or Q k) -> refused_or Q (_ ← raise_if c MdeConfigurationError; k).
Proof. intros Hk. destruct c; [by left|by apply Hk]. Qed.

Lemma refused_ok {A} (Q : A -> Prop) a : Q a -> refused_or Q (Ok a).
Proof. right. eauto. Qed.

Lemma bool_env_inv name otherwise r : bool_env env name otherwise = r -> r = Raise MdeConfigurationError \/ exists b, r = Ok b.
Proof. intros <-. unfold bool_env. repeat case_match; eauto. Qed.

(** One setting read or one check made *)
Ltac setting := first [apply refused_positive_int; intros ? ? | apply refused_positive_float; intros ? ? | apply refused_raise_if; intros ?].

Definition usable_mde (c : mde_settings) : Prop :=
  safe_id (es_tenant_id c) = true /\ safe_id (es_client_id c) = true /\ is_Some (es_client_secret_file c) /\
  1 <= es_page_size c <= 100 /\ 1 <= es_chunk_size c <= 200 /\ 1 <= es_max_pages c /\ 1 <= es_max_items c /\ 1 <= es_max_attempts c /\
  Forall (fun x => positive_float_value x = true) [es_poll_seconds c; es_initial_lookback_hours c; es_overlap_seconds c; es_timeout_seconds c].

Definition usable_mdvm (c : mdvm_settings) : Prop :=
  safe_id (vs_tenant_id c) = true /\ safe_id (vs_client_id c) = true /\ is_Some (vs_client_secret_file c) /\ vs_api_host c ∈ _ALLOWED_API_HOSTS /\
  1 <= vs_page_size c <= 10000 /\ 1 <= vs_findings_per_snapshot c <= 4096 /\ 1 <= vs_snapshots_per_batch c <= 256 /\
  1 <= vs_batch_max_bytes c <= 8 * 1024 * 1024 /\ 1 <= vs_max_pages c /\ 1 <= vs_max_items c /\ 1 <= vs_max_attempts c /\
  1 <= vs_state_max_findings c /\ 1 <= vs_state_max_bytes c /\ fl_ltb (fl_of_Z 86400) (vs_delta_overlap_seconds c) = false /\
  Forall (fun x => positive_float_value x = true) [vs_poll_seconds c; vs_baseline_refresh_hours c; vs_delta_overlap_seconds c; vs_timeout_seconds c].

Lemma mde_enabled_settings : refused_or (fun c => es_enabled c = true /\ usable_mde c) (mde_enabled_from_env env).
Proof.
  unfold mde_enabled_from_env. cbv zeta. repeat setting. apply refused_ok. split; [done|].
  unfold usable_mde. cbn in *. rewrite ?negb_false_iff in *. split_and!; try done; try lia; [by case_match|by repeat constructor].
Qed.

Lemma mdvm_enabled_settings : refused_or (fun c => vs_enabled c = true /\ usable_mdvm c) (mdvm_enabled_from_env env).
Proof.
  unfold mdvm_enabled_from_env. cbv zeta. repeat setting. apply refused_ok. split; [done|].
  unfold usable_mdvm. cbn in *. rewrite ?negb_false_iff, ?bool_decide_eq_true in *. split_and!; try done; try lia; [by case_match|by repeat constructor].
Qed.

End Accepted.

(** An environment that both connectors accept *)
Example accepted_environment :
  let env : environment := fun name => od_get name
    [(u "FORM_MDE_ENABLED", u " Yes"); (u "FORM_MDE_TENANT_ID", u "tenant-1"); (u "FORM_MDE_CLIENT_ID", u "client"); (u "FORM_MDE_CLIENT_SECRET_FILE", u "/run/secret");
     (u "FORM_MDE_PAGE_SIZE", u "50"); (u "FORM_MDE_POLL_SECONDS", u "1e2"); (u "FORM_MDVM_ENABLED", u "1"); (u "FORM_MDVM_API_HOST", u "EU.api.security.microsoft.com")] in
  match mde_from_env env, mdvm_from_env env with
  | Ok e, Ok v => es_page_size e = 50 /\ es_poll_seconds e = fl_of_Z 100 /\ es_chunk_size e = 128 /\
      vs_tenant_id v = u "tenant-1" /\ vs_client_secret_file v = Some (u "/run/secret") /\ vs_api_host v = u "eu.api.security.microsoft.com"
  | _, _ => False
  end.
Proof. vm_compute. repeat split. Qed.
