(* ===== verification/ScanWorker.v ===== *)
(** * The scan worker ([scan_worker.py], [scan_artifacts.py], [provenance.py], [agent_pki.py])

    One claimed job from its claim to the change of its row that ends the claim: the
    execution with the durable artifact, the deployment of a guard and its certificate,
    the compensation of a cancelled deployment, and the choice of the state to record.

    Other things happen while the worker waits.  Every call that the code awaits is made
    between two batches of a [schedule] ([await]): the clock moves, the lease is renewed
    by the heartbeat, the deadline passes, the form shuts down, an operator cancels,
    another replica or the API calls the repository or the identity registry, stale
    artifacts are removed, or the targets and the analyzer change by themselves.

    The deployment layer, the targets, the analyzer behind the network, the store of the
    targets and the certificate authority are a state [O] with the operations of
    [Outside].  A file of the spool is its envelope, which keeps the payload as its JSON
    text; links and locks of the file system are not represented, nor is the
    cancellation of the task itself when the grace period of a shutdown is over. *)

From stdpp Require Import base gmap strings list numbers.
From Stdlib Require Import ZArith Lia SpecFloat.
From S2P Require Import Prelude PyText Acts PyHash PyFloat PyJson AgentIdentity AgentSteps ScanSchemas JobStore JobSteps Severity Osv Detect Coverage Chunks AnalyzerClient Settings.

#[local] Open Scope Z_scope.

(** ** Provenance *)
Module Provenance.

(** The fields of the headers and events that attribution reads and writes; [_bind]
    copies the model and updates them. *)
Class ReportHeader (H : Type) := {
  rh_host_id : H -> str;
  rh_source_agent_id : H -> option str;
  rh_source_target_id : H -> option str;
  rh_bind : option str -> str -> str -> H -> H;
  rh_bound a t h x : rh_source_agent_id (rh_bind a t h x) = a /\ rh_source_target_id (rh_bind a t h x) = Some t /\ rh_host_id (rh_bind a t h x) = h;
}.
Class BatchHeader (H : Type) := {
  bh_source_agent_id : H -> option str;
  bh_source_target_id : H -> option str;
  bh_bind : option str -> str -> H -> H;
  bh_bound a t x : bh_source_agent_id (bh_bind a t x) = a /\ bh_source_target_id (bh_bind a t x) = Some t;
}.
Class HostEvent (E : Type) := {
  he_host_id : E -> str;
  he_bind : str -> E -> E;
  he_bound h x : he_host_id (he_bind h x) = h;
}.

(** [_reject_claim_conflict] *)
Definition reject_claim_conflict (claimed : option str) (expected : str) : res unit :=
  raise_if (match claimed with Some c => negb (bool_decide (c = expected)) | None => false end) ProvenanceConflict.

Definition bound_vulnerability (previous_host_id canonical_host_id : str) (v : vulnerability) : vulnerability :=
  if bool_decide (vu_affected_asset_id v = previous_host_id) then
    mkVuln (vu_id v) (vu_severity v) (vu_cvss_score v) canonical_host_id (vu_parent_asset_id v) (vu_source v) (vu_evidence v) (vu_references v)
  else v.

Section Bind.
Context {H I HT E F P : Type} `{ReportHeader H} `{BatchHeader HT} `{HostEvent E} `{HostEvent F} `{HostEvent P}.

(** [_bind] *)
Definition bind_report (source_agent_id : option str) (source_target_id canonical_host_id : str) (r : AssetReport H I) : AssetReport H I :=
  mkReport (ar_report_id r) (rh_bind source_agent_id source_target_id canonical_host_id (ar_header r)) (ar_assets r)
    (bound_vulnerability (rh_host_id (ar_header r)) canonical_host_id <$> ar_vulnerabilities r) (ar_detector_runs r).
Definition bind_batch (source_agent_id : option str) (source_target_id canonical_host_id : str) (b : TraceBatch HT E F P) : TraceBatch HT E F P :=
  mkBatch (tb_batch_id b) (bh_bind source_agent_id source_target_id (tb_header b)) (he_bind canonical_host_id <$> tb_events b)
    (he_bind canonical_host_id <$> tb_file_events b) (he_bind canonical_host_id <$> tb_process_events b).

(** [bind_agent_envelope] *)
Definition bind_agent_report (agent_id target_id canonical_host_id : str) (r : AssetReport H I) : res (AssetReport H I) :=
  _ ← reject_claim_conflict (rh_source_agent_id (ar_header r)) agent_id;
  _ ← reject_claim_conflict (rh_source_target_id (ar_header r)) target_id;
  Ok (bind_report (Some agent_id) target_id canonical_host_id r).
Definition bind_agent_batch (agent_id target_id canonical_host_id : str) (b : TraceBatch HT E F P) : res (TraceBatch HT E F P) :=
  _ ← reject_claim_conflict (bh_source_agent_id (tb_header b)) agent_id;
  _ ← reject_claim_conflict (bh_source_target_id (tb_header b)) target_id;
  Ok (bind_batch (Some agent_id) target_id canonical_host_id b).
End Bind.
End Provenance.
Import Provenance.

(** ** The spool of artifacts *)

Inductive artifact (R T : Type) :=
| ReportArtifact (r : R)
| TraceArtifact (b : T)
| ResultArtifact (r : ScanResult).
Arguments ReportArtifact {R T}.
Arguments TraceArtifact {R T}.
Arguments ResultArtifact {R T}.

(** [ArtifactKind] of a model *)
Definition kind_of {R T} (a : artifact R T) : str :=
  match a with ReportArtifact _ => u "asset-report" | TraceArtifact _ => u "trace-batch" | ResultArtifact _ => u "scan-result" end.

Module Spool.

(** The JSON object of a file; a field that is missing or of another type is [None]. *)
Record envelope := mkEnvelope {
  se_version : option Z;
  se_job_id : option str;
  se_kind : option str;
  se_payload_sha256 : option str;
  se_payload : str;
}.

(** A file: its bytes, and the envelope unless it holds no object with a payload *)
Record file := mkFile { sf_bytes : Z; sf_envelope : option envelope }.

(** The files by job, the sizes of left-over temporary files, and the bytes of others *)
Record spool := mkSpool { sp_files : gmap str file; sp_temporaries : list Z; sp_other : Z }.
#[global] Instance eta_spool : Eta spool := fun s => mkSpool (sp_files s) (sp_temporaries s) (sp_other s).

(** The JSON of a model and its reading back, which Pydantic does, and the bytes of an
    envelope around it *)
Class ArtifactText (R T : Type) := {
  model_text : artifact R T -> str;
  parse_unbounded_asset_report : str -> res R;
  parse_unbounded_trace_batch : str -> res T;
  parse_scan_result : str -> res ScanResult;
  envelope_bytes : envelope -> Z;
  text_read a : match a with
                | ReportArtifact r => parse_unbounded_asset_report (model_text a) = Ok r
                | TraceArtifact b => parse_unbounded_trace_batch (model_text a) = Ok b
                | ResultArtifact r => parse_scan_result (model_text a) = Ok r
                end;
  bytes_positive e : 0 <= envelope_bytes e;
}.

(** [_JOB_ID] *)
Definition safe_job_id (s : str) : bool :=
  (1 <=? length s)%nat && (length s <=? 256)%nat
  && forallb (fun c => PyText.between 65 c 90 || PyText.between 97 c 122 || PyText.between 48 c 57 || (c =? 46) || (c =? 95) || (c =? 45))%N s.

(** [_path] *)
Definition check_job_id (job_id : str) : res unit := raise_if (negb (safe_job_id job_id)) ValueError.

(** [_spool_bytes_locked] *)
Definition spool_bytes (s : spool) : Z :=
  map_fold (fun _ f n => sf_bytes f + n) 0 (sp_files s) + foldr Z.add 0 (sp_temporaries s) + sp_other s.

(** [_cleanup_temporary_files_locked] *)
Definition cleanup_temporary_files (s : spool) : Z * spool := (Z.of_nat (length (sp_temporaries s)), s <| sp_temporaries := [] |>).

Section Store.
Context {R T : Type} `{!ArtifactText R T} (max_artifact_bytes max_total_bytes : Z).

Definition envelope_of (job_id : str) (a : artifact R T) : envelope :=
  mkEnvelope (Some 1) (Some job_id) (Some (kind_of a)) (Some (sha256_hex (model_text a))) (model_text a).

(** [save] *)
Definition save (job_id kind : str) (payload : artifact R T) : act spool unit := fun s =>
  match (_ ← check_job_id job_id; raise_if (negb (bool_decide (kind = kind_of payload))) TypeError) with
  | Raise e => (Raise e, s)
  | Ok _ =>
      let envelope := envelope_of job_id payload in
      let encoded := envelope_bytes envelope in
      if max_artifact_bytes <? encoded then (Raise StorageCapacityError, s)
      else
        let '(_, s) := cleanup_temporary_files s in
        let existing_size := match sp_files s !! job_id with Some f => sf_bytes f | None => 0 end in
        if max_total_bytes <? spool_bytes s - existing_size + encoded then (Raise StorageCapacityError, s)
        else (Ok tt, s <| sp_files := <[job_id := mkFile encoded (Some envelope)]> (sp_files s) |>)
  end.

(** What [load] accepts of an envelope *)
Definition open_envelope (job_id : str) (e : envelope) : res (artifact R T) :=
  _ ← raise_if (negb (bool_decide (se_version e = Some 1)) || negb (bool_decide (se_job_id e = Some job_id))) ValueError;
  _ ← raise_if (negb (bool_decide (se_payload_sha256 e = Some (sha256_hex (se_payload e))))) ValueError;
  let tagged kind := bool_decide (se_kind e = Some kind) in
  if tagged (u "asset-report") then ReportArtifact <$> parse_unbounded_asset_report (se_payload e)
  else if tagged (u "trace-batch") then TraceArtifact <$> parse_unbounded_trace_batch (se_payload e)
  else if tagged (u "scan-result") then ResultArtifact <$> parse_scan_result (se_payload e)
  else Raise ValueError.

(** [load] *)
Definition load (job_id : str) (s : spool) : res (option (artifact R T)) :=
  _ ← check_job_id job_id;
  match sp_files s !! job_id with
  | None => Ok None
  | Some f =>
      _ ← raise_if (max_artifact_bytes <? sf_bytes f) StorageCapacityError;
      match sf_envelope f with
      | None => Raise ValueError
      | Some e => Some <$> open_envelope job_id e
      end
  end.

(** [delete] *)
Definition delete (job_id : str) : act spool unit := fun s =>
  match check_job_id job_id with
  | Raise e => (Raise e, s)
  | Ok _ => (Ok tt, s <| sp_files := base.delete job_id (sp_files s) |>)
  end.

(** [reconcile] *)
Definition reconcile (retain : str -> bool) (s : spool) : Z * spool :=
  let '(temporaries, s) := cleanup_temporary_files s in
  let kept := base.filter (fun f => safe_job_id f.1 && retain f.1 = true) (sp_files s) in
  (temporaries + Z.of_nat (size (sp_files s)) - Z.of_nat (size kept), s <| sp_files := kept |>).
End Store.
End Spool.
(** ** Outside of the form *)

Inductive Transport := SSH | WINRM | LOCAL.
#[global] Instance transport_eq_dec : EqDecision Transport.
Proof. solve_decision. Defined.

(** [ScanTarget], without what only the transports read *)
Record ScanTarget := mkTarget {
  tg_target_id : str;
  tg_address : str;
  tg_transport : Transport;
  tg_canonical_host_id : option str;
}.

(** [target.canonical_host_id or target.target_id] *)
Definition host_of_target (t : ScanTarget) : str := match tg_canonical_host_id t with Some ((_ :: _) as h) => h | _ => tg_target_id t end.

(** [GuardDeploymentManifest], [GuardStatus] and [GuardDeploymentProof] *)
Record GuardDeploymentManifest := mkManifest {
  gm_deployment_id : str;
  gm_identity_generation : option str;
  gm_binary_sha256 : str;
  gm_config_sha256 : option str;
  gm_pid : str;
  gm_unit_name : str;
  gm_binary_path : str;
  gm_config_path : option str;
}.
Record GuardStatus := mkStatus { gs_alive : bool; gs_supervisor : str; gs_detail : str; gs_pid : option str }.
Record GuardDeploymentProof := mkProof { gp_manifest : option GuardDeploymentManifest; gp_status : GuardStatus }.

(** [IssuedAgentCertificate] and [AgentCertificateBundle] *)
Record issued_certificate := mkIssued { is_material : material; is_private_key_pem : str; is_ca_certificate_pem : str }.
Record certificate_bundle := mkBundle { cb_identity : AgentIdentity; cb_certificate : AgentCertificate; cb_issued : issued_certificate }.

(** What the form asks of the targets, the analyzer, its target store and its
    certificate authority; [X] is what they do by themselves.  A deployment of a guard
    is prepared until the activation callback is called, and concluded with what the
    callback returned or raised. *)
Class Outside (O R T X : Type) := {
  run_host_local : ScanJobOptions -> float -> act O R;
  run_host_winrm : ScanTarget -> ScanJobOptions -> act O R;
  run_host : ScanTarget -> ScanJobOptions -> act O R;
  run_trace : ScanTarget -> ScanJobOptions -> act O T;
  guard_prepare : ScanTarget -> str -> option str -> option certificate_bundle -> ScanJobOptions -> act O unit;
  guard_conclude : res unit -> act O ScanResult;
  guard_deployment_proof_for : ScanTarget -> act O GuardDeploymentProof;
  stop_guard_for : ScanTarget -> GuardDeploymentManifest -> act O GuardStatus;
  find_target : str -> act O (option (res ScanTarget));
  issue_agent_certificate : str -> Z -> act O issued_certificate;
  new_agent_id : act O str;
  post_report : str -> R -> act O (option answer);
  post_batch : str -> T -> act O (option answer);
  outside_step : X -> O -> O;
}.

(** ** The state of one claimed job *)

(** [ExecutionControl] *)
Record ExecutionControl := mkControl {
  ct_cancel_requested : bool;
  ct_timed_out : bool;
  ct_shutting_down : bool;
  ct_lease_lost : bool;
  ct_guard_side_effect_committed : bool;
  ct_guard_agent_id : option str;
  ct_guard_generation : option Z;
  ct_guard_deployment_manifest : option GuardDeploymentManifest;
  ct_guard_cleanup_pending : bool;
  ct_guard_side_effect_compensated : bool;
}.
#[global] Instance eta_control : Eta ExecutionControl := fun c =>
  mkControl (ct_cancel_requested c) (ct_timed_out c) (ct_shutting_down c) (ct_lease_lost c) (ct_guard_side_effect_committed c)
    (ct_guard_agent_id c) (ct_guard_generation c) (ct_guard_deployment_manifest c) (ct_guard_cleanup_pending c)
    (ct_guard_side_effect_compensated c).

(** [ExecutionControl()], with the cancellation of a claim that is cancelling *)
Definition fresh_control (cancelling : bool) : ExecutionControl := mkControl cancelling false false false false None None None false false.

(** [interrupted] *)
Definition interrupted (c : ExecutionControl) : bool :=
  ct_cancel_requested c || ct_timed_out c || ct_shutting_down c || ct_lease_lost c.

(** What happens while a call is awaited *)
Inductive happening (X : Type) :=
| Clock (us : N)
| Heartbeat
| Deadline
| Shutdown
| NotifyCancel
| SpoolReconcile
| OnRepository (c : JobSteps.call)
| OnIdentities (c : AgentSteps.call)
| OnOutside (x : X).
Arguments Clock {X}.
Arguments Heartbeat {X}.
Arguments Deadline {X}.
Arguments Shutdown {X}.
Arguments NotifyCancel {X}.
Arguments SpoolReconcile {X}.
Arguments OnRepository {X}.
Arguments OnIdentities {X}.
Arguments OnOutside {X}.

(** [w_monitored] says whether the heartbeat runs; [w_claim] is the claim as it was last
    renewed; [w_agents] is [None] when the form manages no agent identities. *)
Record world (O X : Type) := mkWorld {
  w_jobs : JobStore.db;
  w_agents : option AgentIdentity.db;
  w_spool : Spool.spool;
  w_control : ExecutionControl;
  w_claim : claimed;
  w_monitored : bool;
  w_now : Z;
  w_schedule : list (list (happening X));
  w_random : list float;
  w_outside : O;
}.
Arguments mkWorld {O X}.
Arguments w_jobs {O X}.
Arguments w_agents {O X}.
Arguments w_spool {O X}.
Arguments w_control {O X}.
Arguments w_claim {O X}.
Arguments w_monitored {O X}.
Arguments w_now {O X}.
Arguments w_schedule {O X}.
Arguments w_random {O X}.
Arguments w_outside {O X}.
#[global] Instance eta_world {O X} : Eta (world O X) := fun w =>
  mkWorld (w_jobs w) (w_agents w) (w_spool w) (w_control w) (w_claim w) (w_monitored w) (w_now w) (w_schedule w) (w_random w) (w_outside w).

(** ** Which errors are worth another attempt *)

(** [isinstance(error, OSError)] and the like, over the classes of the exceptions *)
Definition is_os_error (e : exn) : bool :=
  match e with OSError | TimeoutError | ConnectionError | FileNotFoundError | PermissionError | InterruptedError => true | _ => false end.
Definition is_value_error (e : exn) : bool :=
  match e with ValueError | JSONDecodeError | StorageCursorError | LedgerConflictError | ProvenanceConflict => true | _ => false end.
Definition is_runtime_error (e : exn) : bool :=
  match e with
  | RuntimeError | StorageCapacityError | JobNotFoundError | JobConflictError | LeaseLostError | AgentIdentityNotFoundError
  | AgentCertificateNotFoundError | AgentIdentityConflictError | AgentPkiError | MdeConfigurationError | MdeUpstreamError
  | AnalyzerUpstreamError _ | ScanExecutionInterrupted | GuardReconciliationRequired | GuardDeploymentUncertainError => true
  | _ => false
  end.

(** [_TRANSIENT_ANALYZER_STATUSES] *)
Definition _TRANSIENT_ANALYZER_STATUSES : list Z := [408; 425; 429; 500; 502; 503; 504; 507].

(** [_retryable] *)
Definition _retryable (error : exn) : bool :=
  match error with
  | AnalyzerUpstreamError None => true
  | AnalyzerUpstreamError (Some status) => bool_decide (status ∈ _TRANSIENT_ANALYZER_STATUSES)
  | StorageCapacityError => true
  | FileNotFoundError | PermissionError => false
  | _ =>
      if is_os_error error then true
      else if is_value_error error || bool_decide (error = TypeError) then false
      else is_runtime_error error
  end.

(** [_bounded_error] *)
Definition _bounded_error (value : str) : str :=
  if (length value <=? 4096)%nat then value
  else let suffix := u "~sha256:" ++ sha256_hex value in take (4096 - length suffix) value ++ suffix.

(** The parts of [ScanJobWorker] that do not change: the repository's limits and the bytes
    of a job in it, the settings, the limits of the spool, [public_url_resolver], the
    ingest token, and the text of an exception *)
Record ScanJobWorker := mkWorker {
  wk_json_bytes : ScanJob -> Z;
  wk_limits : limits;
  wk_config : ScanWorkerConfig;
  wk_max_artifact_bytes : Z;
  wk_max_total_bytes : Z;
  wk_public_url : bool -> res str;
  wk_ingest_token : option str;
  wk_error_text : exn -> str;
}.

Section Worker.
Context {U : Unicode} {O H I HT E F P X : Type} `{!ReportWire H I} `{!BatchWire HT E F P}.
Context `{!ReportHeader H} `{!BatchHeader HT} `{!HostEvent E} `{!HostEvent F} `{!HostEvent P}.

Abbreviation report := (AssetReport H I).
Abbreviation batch := (TraceBatch HT E F P).
Abbreviation artifact := (artifact report batch).
Abbreviation W := (world O X).

Context `{!Spool.ArtifactText report batch} `{!Outside O report batch X}.
Context (wk : ScanJobWorker).

Abbreviation json_bytes := (wk_json_bytes wk).
Abbreviation lim := (wk_limits wk).
Abbreviation cfg := (wk_config wk).
Abbreviation max_artifact_bytes := (wk_max_artifact_bytes wk).
Abbreviation max_total_bytes := (wk_max_total_bytes wk).

(** [timedelta(seconds=lease_seconds)]; settings that are accepted have one. *)
Definition lease_ttl : res Z := seconds_of (wc_lease_seconds cfg).

(** ** Calls on the parts of the state *)
Definition on_control (f : ExecutionControl -> ExecutionControl) : act W unit := act_do (fun w => w <| w_control := f (w_control w) |>).
Definition on_spool {A} (f : act Spool.spool A) : act W A := fun w => let '(r, s) := f (w_spool w) in (r, w <| w_spool := s |>).
Definition on_outside {A} (f : act O A) : act W A := fun w => let '(r, o) := f (w_outside w) in (r, w <| w_outside := o |>).
(** Without an identity service there is nothing to call. *)
Definition on_agents {A} (f : Z -> AgentIdentity.db -> res A * AgentIdentity.db) : act W A := fun w =>
  match w_agents w with
  | Some d => let '(r, d) := f (w_now w) d in (r, w <| w_agents := Some d |>)
  | None => (Raise RuntimeError, w)
  end.
Definition read_agents {A} (f : AgentIdentity.db -> res A) : act W A := on_agents (fun _ d => (f d, d)).
Definition has_identities (w : W) : bool := match w_agents w with Some _ => true | None => false end.

(** [try: ... except Exception]; a cancellation is no [Exception]. *)
Definition attempt {A} (m : act W A) : act W (res A) := fun w =>
  match m w with
  | (Raise CancelledError, w) => (Raise CancelledError, w)
  | (r, w) => (Ok r, w)
  end.
(** [except Exception as exc: raise e from exc] *)
Definition or_raise {A} (m : act W A) (e : exn) : act W A :=
  r <~ attempt m ;; match r with Ok a => act_ret a | Raise _ => act_lift (Raise e) end.

(** ** What happens meanwhile *)

(** [renew] with the claim, at this instant *)
Definition renew_claim : act W claimed := fun w =>
  match lease_ttl with
  | Raise e => (Raise e, w)
  | Ok ttl =>
      let '(r, d) := renew (w_claim w) (w_now w) ttl (w_jobs w) in
      let w := w <| w_jobs := d |> in
      match r with Ok claim => (Ok claim, w <| w_claim := claim |>) | Raise e => (Raise e, w) end
  end.

Definition lose_lease (w : W) : W := w <| w_control := w_control w <| ct_lease_lost := true |> |>.
Definition cancel (w : W) : W := w <| w_control := w_control w <| ct_cancel_requested := true |> |>.

(** [if claim.job.state == CANCELLING: control.cancel_requested.set()] *)
Definition note_cancelling (w : W) : W := if bool_decide (sj_state (cl_job (w_claim w)) = CANCELLING) then cancel w else w.

(** One round of [_heartbeat_until_done] *)
Definition heartbeat (w : W) : W :=
  let '(r, w) := renew_claim w in
  note_cancelling match r with
    | Ok _ => w
    | Raise LeaseLostError => lose_lease w
    | Raise _ => if cl_lease_expires_at (w_claim w) <=? w_now w then lose_lease w else w
    end.

Definition happens (w : W) (h : happening X) : W :=
  match h with
  | Clock us => w <| w_now := w_now w + Z.of_N us |>
  | Heartbeat => if w_monitored w then heartbeat w else w
  | Deadline => w <| w_control := w_control w <| ct_timed_out := true |> |>
  | Shutdown => w <| w_control := w_control w <| ct_shutting_down := true |> |>
  | NotifyCancel => cancel w
  | SpoolReconcile => w <| w_spool := (Spool.reconcile (fun id => retains_artifact id (w_jobs w)) (w_spool w)).2 |>
  | OnRepository c => w <| w_jobs := JobSteps.exec json_bytes lim c (w_jobs w) |>
  | OnIdentities c => w <| w_agents := AgentSteps.exec c <$> w_agents w |>
  | OnOutside x => w <| w_outside := outside_step x (w_outside w) |>
  end.

(** The next batch of the schedule, before and after an awaited call *)
Definition pause (w : W) : W :=
  match w_schedule w with
  | [] => w
  | batch :: rest => fold_left happens batch (w <| w_schedule := rest |>)
  end.
Definition await {A} (m : act W A) : act W A := fun w => let '(r, w) := m (pause w) in (r, pause w).

(** A task with the heartbeat beside it *)
Definition monitored {A} (m : act W A) : act W A := fun w =>
  let '(r, w) := m (w <| w_monitored := true |>) in (r, w <| w_monitored := false |>).

(** [_refresh_cancellation] *)
Definition refresh_cancellation (job_id : str) : act W unit :=
  latest <~ await (act_get (fun w => JobStore.get job_id (w_jobs w))) ;;
  match latest with
  | Some job => if bool_decide (sj_state job ∈ [CANCELLING; CANCELLED]) then act_do cancel else act_ret tt
  | None => act_ret tt
  end.

(** ** The certificates of the agents ([AgentIdentityService]) *)

(** [ensure_identity] *)
Definition ensure_identity (target_id canonical_host_id : str) (scopes : list AgentScope) : act W AgentIdentity :=
  fresh <~ await (on_outside new_agent_id) ;;
  created <~ await (on_agents (fun now => get_or_create target_id canonical_host_id (scope_value <$> scopes) None fresh now)) ;;
  act_ret created.1.

(** [StagedAgentCertificateResult] *)
Record staged_certificate := mkStagedCertificate {
  sc_identity : AgentIdentity;
  sc_certificate : AgentCertificate;
  sc_created : bool;
  sc_bundle : option certificate_bundle;
}.

Definition certificate_of (generation : Z) (i : AgentIdentity) : res AgentCertificate :=
  match base.filter (fun c => ac_generation c = generation) (ai_certificates i) with
  | c :: _ => Ok c
  | [] => Raise StopIteration
  end.

(** [stage_for_target] with an idempotency key *)
Definition stage_for_target (target_id canonical_host_id : str) (scopes : list AgentScope) (idempotency_key : str) : act W staged_certificate :=
  identity <~ ensure_identity target_id canonical_host_id scopes ;;
  staged <~ await (read_agents (get_by_idempotency_key (ai_agent_id identity) idempotency_key)) ;;
  match staged with
  | Some certificate =>
      current <~ await (read_agents (AgentIdentity.get (ai_agent_id identity))) ;;
      act_ret (mkStagedCertificate current certificate false None)
  | None =>
      let generation := ai_generation identity + 1 in
      now <~ act_get w_now ;;
      issued <~ await (on_outside (issue_agent_certificate (ai_agent_id identity) now)) ;;
      stage <~ await (on_agents (fun now => stage_certificate (ai_agent_id identity) generation (is_material issued) (Some idempotency_key) now)) ;;
      let '(staged_identity, created) := stage in
      if (created : bool) then
        certificate <~ act_lift (certificate_of generation staged_identity) ;;
        act_ret (mkStagedCertificate staged_identity certificate true (Some (mkBundle staged_identity certificate issued)))
      else
        replayed <~ await (read_agents (get_by_idempotency_key (ai_agent_id identity) idempotency_key)) ;;
        match replayed with
        | None => act_lift (Raise AgentPkiError)
        | Some certificate => act_ret (mkStagedCertificate staged_identity certificate false None)
        end
  end.

(** [activate], [abort] and [revoke] of the service, at this instant *)
Definition activate_generation (agent_id : str) (generation : Z) : act W AgentIdentity :=
  on_agents (fun now => AgentIdentity.activate agent_id generation DEFAULT_ROTATION_OVERLAP now).
Definition abort_generation (agent_id : str) (generation : Z) : act W AgentIdentity :=
  on_agents (fun now => AgentIdentity.abort agent_id generation now).
Definition revoke_generation (agent_id : str) (generation : Z) : act W AgentIdentity :=
  on_agents (fun now => AgentIdentity.revoke agent_id (Some generation) now).

(** ** The guard of a job *)

(** [_compensate_guard_if_needed]: whether something is left to clean up *)
Definition compensate_guard_if_needed (job : ScanJob) : act W bool :=
  if negb (bool_decide (sj_capability job = GUARD)) then act_ret false
  else
    control <~ act_get w_control ;;
    match ct_guard_deployment_manifest control with
    | None => act_ret true
    | Some manifest =>
        identities <~ act_get has_identities ;;
        unproven_or_failed <~
          (if (identities : bool) then
             match ct_guard_agent_id control, ct_guard_generation control with
             | Some agent_id, Some generation =>
                 r <~ attempt (await (revoke_generation agent_id generation)) ;;
                 act_ret match r with Ok _ => false | Raise _ => true end
             | _, _ => act_ret true
             end
           else act_ret false) ;;
        if (unproven_or_failed : bool) then act_ret true
        else
          target_record <~ attempt (await (on_outside (find_target (sj_target_id job)))) ;;
          match target_record with
          | Raise _ | Ok None => act_ret true
          | Ok (Some record) =>
              status <~ attempt (target <~ act_lift record ;; await (on_outside (stop_guard_for target manifest))) ;;
              match status with
              | Raise _ => act_ret true
              | Ok status =>
                  if gs_alive status then act_ret true
                  else
                    _ <~ on_control (fun c => c <| ct_guard_cleanup_pending := false |> <| ct_guard_side_effect_compensated := true |>) ;;
                    act_ret false
              end
          end
    end.

(** The name of a generation in a manifest *)
Definition generation_name (c : AgentCertificate) : str :=
  u "generation-" ++ dec_Z (ac_generation c) ++ u "-" ++ take 16 (ac_cert_sha256 c).

Definition attempt_key (job : ScanJob) (n : Z) : str := sj_job_id job ++ u ":attempt:" ++ dec_Z n.

(** [range(last_attempt, 0, -1)] *)
Definition attempts_from (last_attempt : Z) : list Z := rev (Z.of_nat <$> seq 1 (Z.to_nat last_attempt)).

(** The loop that collects the job's certificates *)
Fixpoint job_certificates (agent_id : str) (job : ScanJob) (allowed : list AgentCertificateState) (attempts : list Z) : act W (list AgentCertificate) :=
  match attempts with
  | [] => act_ret []
  | n :: attempts =>
      certificate <~ await (read_agents (get_by_idempotency_key agent_id (attempt_key job n))) ;;
      rest <~ job_certificates agent_id job allowed attempts ;;
      act_ret match certificate with
        | Some c => if bool_decide (ac_state c ∈ allowed) then c :: rest else rest
        | None => rest
        end
  end.

Definition staged (c : AgentCertificate) : bool := bool_decide (ac_state c = STAGED).

(** [str(status.pid or "")] *)
Definition pid_text (pid : option str) : str := default [] pid.

(** The certificate, among the job's, that the live manifest names *)
Definition live_certificate (manifest : GuardDeploymentManifest) (status : GuardStatus) (candidates : list AgentCertificate) : option AgentCertificate :=
  match base.filter (fun c => gm_identity_generation manifest = Some (generation_name c)) candidates with
  | matched :: _ =>
      let live_pid := pid_text (gs_pid status) in
      if negb (gs_alive status) || bool_decide (live_pid = []) || negb (bool_decide (gm_pid manifest = live_pid)) then None
      else Some matched
  | [] => None
  end.

Definition guard_result (host_id pid detail : str) : ScanResult :=
  mkResult GUARD None None (Some host_id) (Some pid) (Some detail) None 0 false None 0 None.

(** The part of [_reconcile_guard_deployment] after the job's certificates are known *)
Definition reconcile_candidates (target : ScanTarget) (agent_id : str) (candidates : list AgentCertificate) (activate_staged : bool)
    : act W (option ScanResult * bool) :=
  proof <~ or_raise (await (on_outside (guard_deployment_proof_for target))) GuardReconciliationRequired ;;
  let status := gp_status proof in
  match gp_manifest proof with
  | None =>
      if gs_alive status then act_ret (None, true)
      else
        _ <~ or_raise (act_iter (fun c => _ <~ await (abort_generation agent_id (ac_generation c)) ;; act_ret tt) (base.filter (fun c => staged c = true) candidates))
               GuardReconciliationRequired ;;
        act_ret (None, existsb (fun c => negb (staged c)) candidates)
  | Some manifest =>
      match live_certificate manifest status candidates with
      | None => act_ret (None, true)
      | Some matched =>
          _ <~ on_control (fun c => c <| ct_guard_side_effect_committed := true |> <| ct_guard_agent_id := Some agent_id |>
                 <| ct_guard_generation := Some (ac_generation matched) |> <| ct_guard_deployment_manifest := Some manifest |>
                 <| ct_guard_cleanup_pending := bool_decide (ac_state matched = REVOKED) |>) ;;
          _ <~ (if staged matched && activate_staged then
                  _ <~ or_raise (await (activate_generation agent_id (ac_generation matched))) GuardReconciliationRequired ;; act_ret tt
                else act_ret tt) ;;
          act_ret (Some (guard_result (host_of_target target) (gm_pid manifest) (u "guard deployment recovered from its validated remote manifest")), false)
      end
  end.

(** [_reconcile_guard_deployment]: the recovered result, and whether it is unresolved *)
Definition reconcile_guard_deployment (job : ScanJob) (target : ScanTarget) (include_current_attempt activate_staged allow_revoked : bool)
    : act W (option ScanResult * bool) :=
  identities <~ act_get has_identities ;;
  if negb identities then act_ret (None, false)
  else
    identity <~ attempt (await (read_agents (get_by_target (sj_target_id job)))) ;;
    match identity with
    | Raise AgentIdentityNotFoundError => act_ret (None, false)
    | Raise _ => act_lift (Raise GuardReconciliationRequired)
    | Ok identity =>
        let last_attempt := if include_current_attempt then sj_attempt job else sj_attempt job - 1 in
        let allowed := [STAGED; ACTIVE] ++ (if allow_revoked then [REVOKED] else []) in
        candidates <~ or_raise (job_certificates (ai_agent_id identity) job allowed (attempts_from last_attempt)) GuardReconciliationRequired ;;
        match candidates with
        | [] => act_ret (None, false)
        | _ => reconcile_candidates target (ai_agent_id identity) candidates activate_staged
        end
    end.

(** [_bind_legacy_guard_deployment] *)
Definition bind_legacy_guard_deployment (target : ScanTarget) (artifact : ScanResult) : act W unit :=
  proof <~ await (on_outside (guard_deployment_proof_for target)) ;;
  let artifact_pid := pid_text (sr_pid artifact) in
  match gp_manifest proof with
  | Some manifest =>
      if bool_decide (sr_kind artifact = GUARD) && bool_decide (gm_identity_generation manifest = None) && gs_alive (gp_status proof)
         && negb (bool_decide (artifact_pid = [])) && bool_decide (gm_pid manifest = artifact_pid)
         && bool_decide (pid_text (gs_pid (gp_status proof)) = artifact_pid)
      then on_control (fun c => c <| ct_guard_side_effect_committed := true |> <| ct_guard_deployment_manifest := Some manifest |>)
      else act_lift (Raise GuardReconciliationRequired)
  | None => act_lift (Raise GuardReconciliationRequired)
  end.

(** ** Collection *)

(** [except BaseException] *)
Definition outcome {A} (m : act W A) : act W (res A) := fun w => let '(r, w) := m w in (Ok r, w).

(** [_run_blocking_deploy] of [run_guard] *)
Definition deploy_guard (target : ScanTarget) (url : str) (token : option str) (bundle : option certificate_bundle) (activation_callback : act W unit)
    (options : ScanJobOptions) : act W ScanResult :=
  _ <~ await (on_outside (guard_prepare target url token bundle options)) ;;
  called <~ outcome activation_callback ;;
  await (on_outside (guard_conclude called)).

Definition exhausted_attempts (job : ScanJob) : bool := sj_max_attempts job <? sj_attempt job.

(** The deployment of a new generation, whose certificate is aborted unless the remote
    side may have committed *)
Definition deploy_staged_guard (job : ScanJob) (target : ScanTarget) (url : str) (staged : staged_certificate) (bundle : certificate_bundle) : act W ScanResult :=
  let agent_id := ai_agent_id (sc_identity staged) in
  let generation := ac_generation (sc_certificate staged) in
  let activation :=
    control <~ act_get w_control ;;
    if interrupted control then act_lift (Raise ScanExecutionInterrupted)
    else _ <~ activate_generation agent_id generation ;; act_ret tt in
  r <~ outcome (
    artifact <~ deploy_guard target url None (Some bundle) activation (sj_options job) ;;
    recovered <~ reconcile_guard_deployment job target true false false ;;
    match recovered with
    | (Some _, false) => act_ret artifact
    | _ => act_lift (Raise GuardReconciliationRequired)
    end) ;;
  match r with
  | Ok artifact => act_ret artifact
  | Raise GuardDeploymentUncertainError => act_lift (Raise GuardDeploymentUncertainError)
  | Raise e => _ <~ outcome (await (abort_generation agent_id generation)) ;; act_lift (Raise e)
  end.

(** The guard branch of [_collect_and_spool] *)
Definition collect_guard (job : ScanJob) (target : ScanTarget) : act W ScanResult :=
  identities <~ act_get has_identities ;;
  url <~ act_lift (wk_public_url wk identities) ;;
  if (identities : bool) then
    _ <~ ensure_identity (tg_target_id target) (host_of_target target) [GUARD_EVENT] ;;
    prior <~ reconcile_guard_deployment job target false true (exhausted_attempts job) ;;
    control <~ act_get w_control ;;
    match prior with
    | (_, true) => act_lift (Raise GuardReconciliationRequired)
    | (Some artifact, false) =>
        if ct_guard_cleanup_pending control then
          failed <~ compensate_guard_if_needed job ;;
          act_lift (Raise (if (failed : bool) then GuardReconciliationRequired else ValueError))
        else act_ret artifact
    | (None, false) =>
        if exhausted_attempts job then act_lift (Raise ValueError)
        else
          staged <~ stage_for_target (tg_target_id target) (host_of_target target) [GUARD_EVENT] (attempt_key job (sj_attempt job)) ;;
          match sc_bundle staged with
          | None => act_lift (Raise RuntimeError)
          | Some bundle => deploy_staged_guard job target url staged bundle
          end
    end
  else if exhausted_attempts job then act_lift (Raise ValueError)
  else
    match wk_ingest_token wk with
    | Some ((_ :: _) as token) =>
        artifact <~ deploy_guard target url (Some token) None (act_ret tt) (sj_options job) ;;
        _ <~ bind_legacy_guard_deployment target artifact ;;
        act_ret artifact
    | _ => act_lift (Raise ValueError)
    end.

(** The artifact of a job and its kind *)
Definition collect (job : ScanJob) (target : ScanTarget) : act W (str * artifact) :=
  match sj_capability job with
  | HOST =>
      r <~ await (on_outside (match tg_transport target with
             | LOCAL => run_host_local (sj_options job) (wc_job_timeout_seconds cfg)
             | WINRM => run_host_winrm target (sj_options job)
             | SSH => run_host target (sj_options job)
             end)) ;;
      act_ret (u "asset-report", ReportArtifact r)
  | TRACE => b <~ await (on_outside (run_trace target (sj_options job))) ;; act_ret (u "trace-batch", TraceArtifact b)
  | GUARD => r <~ collect_guard job target ;; act_ret (u "scan-result", ResultArtifact r)
  end.

Definition is_guard_result (a : artifact) : bool :=
  match a with ResultArtifact r => bool_decide (sr_kind r = GUARD) | _ => false end.

(** The attribution of an artifact to its target; a guard that runs is noted. *)
Definition attribute_artifact (target : ScanTarget) (a : artifact) : act W artifact :=
  match a with
  | ReportArtifact r => act_ret (ReportArtifact (bind_report None (tg_target_id target) (host_of_target target) r))
  | TraceArtifact b => act_ret (TraceArtifact (bind_batch None (tg_target_id target) (host_of_target target) b))
  | ResultArtifact r =>
      if bool_decide (sr_kind r = GUARD) then
        _ <~ on_control (fun c => c <| ct_guard_side_effect_committed := true |>) ;;
        act_ret (ResultArtifact (r <| sr_host_id := Some (host_of_target target) |>))
      else act_ret a
  end.

(** What an interruption does to an artifact that is there: a guard may complete unless
    it is cancelled or its lease is lost. *)
Definition stop_if_interrupted (job : ScanJob) (a : artifact) : act W unit :=
  control <~ act_get w_control ;;
  if negb (interrupted control) then act_ret tt
  else if ct_cancel_requested control && ct_guard_side_effect_committed control then
    failed <~ compensate_guard_if_needed job ;;
    act_lift (Raise (if (failed : bool) then GuardReconciliationRequired else ScanExecutionInterrupted))
  else if is_guard_result a && negb (ct_cancel_requested control) && negb (ct_lease_lost control) then act_ret tt
  else act_lift (Raise ScanExecutionInterrupted).

(** [_collect_and_spool] *)
Definition collect_and_spool (job : ScanJob) (target : ScanTarget) : act W artifact :=
  if negb (bool_decide (tg_transport target = SSH)) && negb (bool_decide (sj_capability job = HOST)) then act_lift (Raise ValueError)
  else
    collected <~ collect job target ;;
    let '(kind, a) := collected in
    a <~ attribute_artifact target a ;;
    _ <~ stop_if_interrupted job a ;;
    saved <~ outcome (await (on_spool (Spool.save max_artifact_bytes max_total_bytes (sj_job_id job) kind a))) ;;
    match saved with
    | Ok _ => act_ret a
    | Raise e =>
        control <~ act_get w_control ;;
        if bool_decide (sj_capability job = GUARD) && ct_guard_side_effect_committed control && (sj_max_attempts job <=? sj_attempt job)
           && negb (ct_lease_lost control)
        then
          failed <~ compensate_guard_if_needed job ;;
          act_lift (Raise (if (failed : bool) then GuardReconciliationRequired else e))
        else act_lift (Raise e)
    end.

(** ** Execution *)

(** The target of a job; [missing] is raised when it is not registered any more. *)
Definition target_of (job : ScanJob) (missing : exn) : act W ScanTarget :=
  target_record <~ await (on_outside (find_target (sj_target_id job))) ;;
  match target_record with
  | None => act_lift (Raise missing)
  | Some record => act_lift record
  end.

(** The part of [_execute] for a guard that is cancelled or has an artifact already: what
    is stored is replaced by what the live deployment proves, and a cancelled guard goes
    no further. *)
Definition recover_guard (job : ScanJob) (stored : option artifact) : act W (option artifact * option ScanTarget) :=
  target <~ target_of job GuardReconciliationRequired ;;
  identities <~ act_get has_identities ;;
  recovered <~
    match stored, (identities : bool) with
    | Some (ResultArtifact r), false => _ <~ bind_legacy_guard_deployment target r ;; act_ret (stored, false)
    | _, _ =>
        control <~ act_get w_control ;;
        result <~ reconcile_guard_deployment job target true (negb (ct_cancel_requested control)) (ct_cancel_requested control) ;;
        match stored, result with
        | Some _, (Some r, unresolved) => act_ret (Some (ResultArtifact r), unresolved)
        | Some _, (None, _) => act_lift (Raise GuardReconciliationRequired)
        | None, (_, unresolved) => act_ret (None, unresolved)
        end
    end ;;
  control <~ act_get w_control ;;
  if ct_cancel_requested control then
    if ct_guard_side_effect_committed control then
      failed <~ compensate_guard_if_needed job ;;
      act_lift (Raise (if (failed : bool) then GuardReconciliationRequired else ScanExecutionInterrupted))
    else act_lift (Raise (if (recovered.2 : bool) then GuardReconciliationRequired else ScanExecutionInterrupted))
  else act_ret (recovered.1, Some target).

(** [DerivedState(derived_status) if derived_status else None] *)
Definition derived_state_of (status : option str) : res (option DerivedState) :=
  match status with
  | None | Some [] => Ok None
  | Some s =>
      match od_get s [(u "pending", D_PENDING); (u "processing", D_PROCESSING); (u "complete", D_COMPLETE); (u "partial", D_PARTIAL)] with
      | Some st => Ok (Some st)
      | None => Raise ValueError
      end
  end.

(** The detail and the reason of a result *)
Definition ingest_detail (prefix suffix : str) (o : ingest_outcome) : option str :=
  if bool_decide (io_derived_status o = Some (u "partial")) then
    Some (prefix ++ suffix ++ u " is partial" ++ match io_derived_reasons o with [] => [] | reasons => u " (" ++ join (u ", ") reasons ++ u ")" end)
  else if bool_decide (io_derived_status o = Some (u "pending")) then Some (prefix ++ suffix ++ u " is queued")
  else None.
Definition ingest_reason (o : ingest_outcome) : option str := match join (u ", ") (io_derived_reasons o) with [] => None | s => Some s end.
Definition non_empty_or (s otherwise : str) : str := match s with [] => otherwise | _ => s end.

(** The results of a report and of a trace batch that the analyzer has taken *)
Definition report_result (r : report) (o : ingest_outcome) (now : Z) : res ScanResult :=
  state ← derived_state_of (io_derived_status o);
  Ok (mkResult HOST (Some (non_empty_or (io_lineage_id o) (ar_report_id r))) None (Some (rh_host_id (ar_header r))) None
        (ingest_detail (u "asset report stored; Analyzer ") (u "detection") o) state (io_derived_records o) (io_derived_truncated o) (ingest_reason o) 0 (Some now)).
Definition batch_result (b : batch) (o : ingest_outcome) (now : Z) : res ScanResult :=
  state ← derived_state_of (io_derived_status o);
  Ok (mkResult TRACE None (Some (non_empty_or (io_lineage_id o) (tb_batch_id b))) None None
        (ingest_detail (u "trace batch stored; Analyzer ") (u "correlation") o) state (io_derived_records o) (io_derived_truncated o) (ingest_reason o) 0 (Some now)).

(** The end of [_execute]: the artifact is handed to the analyzer. *)
Definition forward (a : artifact) : act W ScanResult :=
  match a with
  | ReportArtifact r => o <~ await (on_outside (ingest_asset_report post_report r)) ;; now <~ act_get w_now ;; act_lift (report_result r o now)
  | TraceArtifact b => o <~ await (on_outside (ingest_trace_batch post_batch b)) ;; now <~ act_get w_now ;; act_lift (batch_result b o now)
  | ResultArtifact r => act_ret r
  end.

(** [_execute], with the collection it uses when nothing is stored *)
Definition execute_with (collection : ScanJob -> ScanTarget -> act W artifact) (job : ScanJob) : act W ScanResult :=
  stored <~ await (on_spool (fun s => (Spool.load max_artifact_bytes (sj_job_id job) s, s))) ;;
  _ <~ refresh_cancellation (sj_job_id job) ;;
  control <~ act_get w_control ;;
  prepared <~
    (if bool_decide (sj_capability job = GUARD)
        && (ct_cancel_requested control || match stored with Some a => is_guard_result a | None => false end)
     then recover_guard job stored
     else act_ret (stored, None)) ;;
  control <~ act_get w_control ;;
  if interrupted control then act_lift (Raise ScanExecutionInterrupted)
  else
    a <~
      match prepared with
      | (Some a, _) => act_ret a
      | (None, target) =>
          if exhausted_attempts job && negb (bool_decide (sj_capability job = GUARD)) then act_lift (Raise ValueError)
          else
            target <~ match target with Some t => act_ret t | None => target_of job ValueError end ;;
            collection job target
      end ;;
    _ <~ refresh_cancellation (sj_job_id job) ;;
    _ <~ stop_if_interrupted job a ;;
    forward a.

Definition execute : ScanJob -> act W ScanResult := execute_with collect_and_spool.

(** ** The end of a claim *)

(** The delay before the next attempt: exponential, at most the configured maximum, and
    within a fifth of it at random ([Random.uniform(0.8, 1.2)]) *)
Definition retry_delay (attempt : Z) (random : float) : float :=
  let exponent := Z.max 0 (attempt - 1) in
  let delay := fl_min (wc_retry_max_seconds cfg) (fl_mul (wc_retry_base_seconds cfg) (fl_of_Z (2 ^ exponent))) in
  fl_mul delay (fl_add (fl_lit 4 5) (fl_mul (fl_sub (fl_lit 6 5) (fl_lit 4 5)) random)).

(** The next number of the random source *)
Definition next_random : act W float := fun w =>
  match w_random w with
  | x :: rest => (Ok x, w <| w_random := rest |>)
  | [] => (Ok (fl_of_Z 0), w)
  end.

(** [_set_failure_or_retry] *)
Definition set_failure_or_retry (job : ScanJob) (now : Z) (error : str) (retryable : bool) : act W ScanJob :=
  let job := job <| sj_error := Some (_bounded_error error) |> <| sj_result := None |> in
  if retryable && (sj_attempt job <? sj_max_attempts job) then
    random <~ next_random ;;
    delay <~ act_lift (seconds_of (retry_delay (sj_attempt job) random)) ;;
    act_ret (job <| sj_state := RETRYING |> <| sj_available_at := Some (now + delay) |> <| sj_finished_at := None |>)
  else act_ret (job <| sj_state := FAILED |> <| sj_available_at := None |> <| sj_finished_at := Some now |>).

Definition succeeded (job : ScanJob) (now : Z) (result : ScanResult) : ScanJob :=
  job <| sj_state := SUCCEEDED |> <| sj_result := Some result |> <| sj_error := None |> <| sj_finished_at := Some now |>.
Definition cancelled (job : ScanJob) (now : Z) : ScanJob :=
  job <| sj_finished_at := Some now |> <| sj_state := CANCELLED |> <| sj_error := Some (u "scan cancelled by operator") |>.

(** The state to record, and whether the artifact goes when it is *)
Definition choose (job : ScanJob) (now : Z) (control : ExecutionControl) (result : res ScanResult) : act W (ScanJob * bool) :=
  let latest := job <| sj_updated_at := Some now |> <| sj_available_at := None |> in
  let failure error retryable :=
    job <~ set_failure_or_retry latest now error retryable ;; act_ret (job, bool_decide (sj_state job = FAILED)) in
  match result with
  | Ok r =>
      if negb (bool_decide (sj_capability latest = GUARD)) then act_ret (succeeded latest now r, true)
      else if ct_cancel_requested control || bool_decide (sj_state latest = CANCELLING) then act_ret (cancelled latest now, true)
      else act_ret (succeeded latest now r, true)
  | Raise e =>
      if ct_cancel_requested control || bool_decide (sj_state latest = CANCELLING) then act_ret (cancelled latest now, true)
      else if ct_timed_out control then failure (u "scan job exceeded its execution timeout") true
      else failure (_bounded_error (wk_error_text wk e)) (_retryable e)
  end.

(** [self.repository.complete], at this instant *)
Definition complete_claim (job : ScanJob) : act W ScanJob := fun w =>
  let '(r, d) := complete json_bytes lim (w_claim w) job (w_now w) (w_jobs w) in (r, w <| w_jobs := d |>).

Definition delete_artifact (job_id : str) : act W unit := await (on_spool (Spool.delete job_id)).

(** A cancelled deployment is compensated while the heartbeat goes on: whether the claim
    may be ended. *)
Definition compensated (job : ScanJob) : act W bool :=
  failed <~ monitored (await (compensate_guard_if_needed job)) ;;
  control <~ act_get w_control ;;
  act_ret (negb (ct_lease_lost control) && negb (failed : bool)).

(** [commit] is the call that records a state ([complete_claim]). *)
Section Ending.
Context (commit : ScanJob -> act W ScanJob).

(** [_handle_completion_cancel_race] *)
Definition handle_completion_cancel_race : act W unit :=
  renewed <~ outcome (await renew_claim) ;;
  match renewed with
  | Raise LeaseLostError => act_ret tt
  | Raise e => act_lift (Raise e)
  | Ok claim =>
      if negb (bool_decide (sj_state (cl_job claim) = CANCELLING)) then act_ret tt
      else
        _ <~ act_do cancel ;;
        control <~ act_get w_control ;;
        proceed <~ (if ct_guard_side_effect_committed control && negb (ct_guard_side_effect_compensated control) then compensated (cl_job claim) else act_ret true) ;;
        if negb (proceed : bool) then act_ret tt
        else
          job <~ act_get (fun w => cl_job (w_claim w)) ;;
          now <~ act_get w_now ;;
          let job := job <| sj_state := CANCELLED |> <| sj_result := None |> <| sj_error := Some (u "scan cancelled by operator") |>
                         <| sj_updated_at := Some now |> <| sj_finished_at := Some now |> <| sj_available_at := None |> in
          completed <~ outcome (await (commit job)) ;;
          match completed with
          | Raise LeaseLostError => act_ret tt
          | Raise e => act_lift (Raise e)
          | Ok _ => delete_artifact (sj_job_id job)
          end
  end.

(** The end of [_finish_claim]: the state is recorded if the claim still holds. *)
Definition record_outcome (result : res ScanResult) : act W unit :=
  job <~ act_get (fun w => cl_job (w_claim w)) ;;
  now <~ act_get w_now ;;
  control <~ act_get w_control ;;
  choice <~ choose job now control result ;;
  let '(latest, delete_artifact_after_commit) := choice in
  completed <~ outcome (await (commit latest)) ;;
  match completed with
  | Raise LeaseLostError => handle_completion_cancel_race
  | Raise e => act_lift (Raise e)
  | Ok _ => if (delete_artifact_after_commit : bool) then delete_artifact (sj_job_id latest) else act_ret tt
  end.

(** An uncertain deployment leaves the job to its next owner, who looks at the manifest
    first. *)
Definition needs_reconciliation (result : res ScanResult) : bool :=
  match result with Raise (GuardDeploymentUncertainError | GuardReconciliationRequired) => true | _ => false end.

(** [_finish_claim] after the execution: the lease is proved once more, a cancelled
    deployment is compensated, and a shutdown without a result leaves the job to its next
    owner. *)
Definition finish_claim (result : res ScanResult) : act W unit :=
  if needs_reconciliation result then act_ret tt
  else
    control <~ act_get w_control ;;
    if ct_lease_lost control then act_ret tt
    else
      renewed <~ outcome (await renew_claim) ;;
      match renewed with
      | Raise LeaseLostError => act_do lose_lease
      | Raise _ => act_ret tt
      | Ok claim =>
          _ <~ act_do note_cancelling ;;
          control <~ act_get w_control ;;
          proceed <~
            (if ct_cancel_requested control && ct_guard_side_effect_committed control && negb (ct_guard_side_effect_compensated control)
             then compensated (cl_job claim) else act_ret true) ;;
          if negb (proceed : bool) then act_ret tt
          else
            control <~ act_get w_control ;;
            if ct_shutting_down control && negb (ct_cancel_requested control) && match result with Ok _ => false | Raise _ => true end then act_ret tt
            else record_outcome result
      end.

(** [_process_claim] *)
Definition process_claim (job : ScanJob) : act W unit :=
  result <~ outcome (monitored (execute job)) ;;
  finish_claim result.
End Ending.

(** ** Dispatch *)

(** [_dispatch_available]: the claims that are started, how the loop ends, and the
    repository; [draws] are the instant and the token of each round. *)
Fixpoint dispatch_available (worker_id : str) (stopping : bool) (draws : list (Z * str)) (active : list str) (d : JobStore.db)
    : list claimed * res unit * JobStore.db :=
  match draws with
  | [] => ([], Ok tt, d)
  | (now, token) :: draws =>
      if stopping || (wc_concurrency cfg <=? Z.of_nat (length active)) then ([], Ok tt, d)
      else
        match lease_ttl with
        | Raise e => ([], Raise e, d)
        | Ok ttl =>
            match claim_next json_bytes lim worker_id now ttl (wc_concurrency cfg) active token d with
            | (Raise e, d) => ([], Raise e, d)
            | (Ok None, d) => ([], Ok tt, d)
            | (Ok (Some claim), d) =>
                let job_id := sj_job_id (cl_job claim) in
                if bool_decide (job_id ∈ active) then ([], Ok tt, d)
                else
                  let '(claims, r, d) := dispatch_available worker_id stopping draws (active ++ [job_id]) d in
                  (claim :: claims, r, d)
            end
        end
  end.

(** The state a claim is processed in *)
Definition start_claim (claim : claimed) (jobs : JobStore.db) (agents : option AgentIdentity.db) (files : Spool.spool) (now : Z)
    (schedule : list (list (happening X))) (random : list float) (out : O) : W :=
  mkWorld jobs agents files (fresh_control (bool_decide (sj_state (cl_job claim) = CANCELLING))) claim false now schedule random out.

(** The wait of [_run_loop] after a number of failures *)
Definition poll_delay (failures : Z) : float :=
  fl_min (fl_of_Z 30) (fl_mul (wc_poll_seconds cfg) (fl_of_Z (2 ^ Z.min (failures - 1) 10))).
End Worker.
