(* ===== verification/WorkerProps.v ===== *)
(** * What the scan worker guarantees

    Artifacts are kept and not collected again, a job succeeds only with what the
    analyzer took, and a state is recorded only when it is justified: under a lease that
    is held, with a cancelled guard compensated. *)

From stdpp Require Import base gmap strings list numbers.
From Stdlib Require Import ZArith Lia SpecFloat.
From S2P Require Import Prelude PyText Acts PyHash PyFloat PyJson AgentIdentity AgentSteps ScanSchemas JobStore JobSteps JobLease JobProps Severity Osv Detect Coverage Chunks ChunkProps AnalyzerClient AnalyzerClientProps Settings ScanWorker.
Import Provenance.

#[local] Open Scope Z_scope.

(** ** Attribution *)
Section Attribution.
Context {H I HT E F P : Type} `{!ReportHeader H} `{!BatchHeader HT} `{!HostEvent E} `{!HostEvent F} `{!HostEvent P}.

(** The artifact is attributed to a target under its host. *)
Definition attributed (target host : str) (a : artifact (AssetReport H I) (TraceBatch HT E F P)) : Prop :=
  match a with
  | ReportArtifact r =>
      rh_source_agent_id (ar_header r) = None /\ rh_source_target_id (ar_header r) = Some target /\ rh_host_id (ar_header r) = host
  | TraceArtifact b =>
      bh_source_agent_id (tb_header b) = None /\ bh_source_target_id (tb_header b) = Some target /\
      Forall (fun e => he_host_id e = host) (tb_events b) /\ Forall (fun e => he_host_id e = host) (tb_file_events b) /\
      Forall (fun e => he_host_id e = host) (tb_process_events b)
  | ResultArtifact r => sr_kind r = GUARD -> sr_host_id r = Some host
  end.

Lemma bound_events {A} `{!HostEvent A} host (es : list A) : Forall (fun e => he_host_id e = host) (he_bind host <$> es).
Proof. apply Forall_fmap, Forall_forall. intros e _. apply he_bound. Qed.

Lemma bind_report_attributed target host (r : AssetReport H I) : attributed target host (ReportArtifact (bind_report None target host r)).
Proof. cbn. apply rh_bound. Qed.

Lemma bind_batch_attributed target host (b : TraceBatch HT E F P) : attributed target host (TraceArtifact (bind_batch None target host b)).
Proof. cbn. destruct (bh_bound None target (tb_header b)) as [-> ->]. split_and!; [done|done|..]; apply bound_events. Qed.
End Attribution.

(** ** The spool *)
Module SpoolProps.
Import Spool.

Definition files_bytes (files : gmap str file) : Z := map_fold (fun _ f n => sf_bytes f + n) 0 files.

Lemma spool_bytes_files s : spool_bytes s = files_bytes (sp_files s) + foldr Z.add 0 (sp_temporaries s) + sp_other s.
Proof. done. Qed.

Lemma files_bytes_delete files id f : files !! id = Some f -> files_bytes files = sf_bytes f + files_bytes (base.delete id files).
Proof. intros Hf. unfold files_bytes. rewrite (map_fold_delete_L _ _ id f files); [done| |done]. intros. lia. Qed.

Lemma files_bytes_insert files id f :
  files_bytes (<[id := f]> files) = files_bytes files - match files !! id with Some g => sf_bytes g | None => 0 end + sf_bytes f.
Proof.
  rewrite (files_bytes_delete (<[id := f]> files) id f) by (by rewrite lookup_insert_eq). rewrite delete_insert_eq.
  destruct (files !! id) as [g|] eqn:Eg; [rewrite (files_bytes_delete files id g) by done; lia|rewrite delete_id by done; lia].
Qed.

Section Store.
Context {R T : Type} `{!ArtifactText R T} (max_artifact_bytes max_total_bytes : Z).

Lemma open_envelope_of job_id (a : artifact R T) : open_envelope job_id (envelope_of job_id a) = Ok a.
Proof.
  unfold open_envelope, envelope_of. cbn [se_version se_job_id se_payload_sha256 se_payload se_kind]. pose proof (text_read a) as Ht.
  destruct a as [r|b|r]; cbn [kind_of];
    repeat first [rewrite bool_decide_true by done | rewrite bool_decide_false by (intros Hk; vm_compute in Hk; discriminate Hk)];
    cbn [negb orb raise_if mbind res_bind]; by rewrite Ht.
Qed.

(** A save that succeeds *)
Lemma save_ok job_id kind (a : artifact R T) s s' : save max_artifact_bytes max_total_bytes job_id kind a s = (Ok tt, s') ->
  check_job_id job_id = Ok tt /\ envelope_bytes (envelope_of job_id a) <= max_artifact_bytes /\
  spool_bytes (mkSpool (sp_files s) [] (sp_other s)) - match sp_files s !! job_id with Some f => sf_bytes f | None => 0 end + envelope_bytes (envelope_of job_id a) <= max_total_bytes /\
  s' = mkSpool (<[job_id := mkFile (envelope_bytes (envelope_of job_id a)) (Some (envelope_of job_id a))]> (sp_files s)) [] (sp_other s).
Proof.
  unfold save. intros E. destruct (check_job_id job_id) as [[]|] eqn:Ec; cbn [mbind res_bind] in E; [|done].
  destruct (raise_if _ _); [|done]. cbv zeta in E. destruct (Z.ltb_spec max_artifact_bytes (envelope_bytes (envelope_of job_id a))); [done|].
  cbn [cleanup_temporary_files] in E. destruct (Z.ltb_spec max_total_bytes (spool_bytes (s <| sp_temporaries := [] |>) - match sp_files (s <| sp_temporaries := [] |>) !! job_id with Some f => sf_bytes f | None => 0 end + envelope_bytes (envelope_of job_id a))) as [|Hb]; [done|].
  injection E as <-. split_and!; try done.
Qed.

Lemma load_saved job_id kind (a : artifact R T) s s' : save max_artifact_bytes max_total_bytes job_id kind a s = (Ok tt, s') ->
  load max_artifact_bytes job_id s' = Ok (Some a).
Proof.
  intros (Hc & Hb & _ & ->)%save_ok. unfold load. rewrite Hc. cbn [mbind res_bind sp_files]. rewrite lookup_insert_eq. cbn [sf_bytes sf_envelope].
  rewrite (proj2 (Z.ltb_ge _ _)) by done. cbn [raise_if mbind res_bind]. by rewrite open_envelope_of.
Qed.

End Store.
End SpoolProps.

(** ** The row of a claim *)
Section Row.
Context {U : Unicode} (json_bytes : ScanJob -> Z) (lim : limits) (id : str) (epoch : Z) (capability : ScanCapability).

(** The row is not older than the claim, and in flight under it has its capability. *)
Definition row_of_claim (h : job_head) : Prop :=
  epoch <= hd_lease_epoch h /\ (hd_lease_epoch h = epoch -> active (hd_state h) = true -> sj_capability (hd_payload h) = capability).

Lemma encode_capability j j' b : JobStore.encode json_bytes lim j = Ok (j', b) -> sj_capability j' = sj_capability j.
Proof. intros (_ & -> & _)%encode_Ok. by destruct j as [? ? ? ? [] [] ? ? [] []]. Qed.

Lemma row_step_of_claim allow o h' : ~ allow ByCreate -> (forall h, o = Some h -> row_ok id h /\ row_of_claim h) ->
  row_step json_bytes lim allow id o (Some h') -> row_of_claim h'.
Proof.
  intros Hn Ho Hs. unfold row_of_claim in *. inversion Hs; subst; clear Hs; [done|..]; destruct (Ho _ eq_refl) as [(_ & Hst & _) [He Hk]]; cbn in *;
    repeat match goal with H : JobStore.encode _ _ _ = Ok _ |- _ => pose proof (encode_capability _ _ _ H); apply encode_facts in H as (Hs & _) end; cbn in *.
  - split; [done|]. intros _ Ha. by match goal with E : hd_state h = SUCCEEDED |- _ => rewrite E in Ha end.
  - split; [done|]. intros _ Ha. by rewrite Hs in Ha.
  - split; [lia|]. intros E. lia.
  - unfold fence_row. case_match; cbn; [|done]. split; [lia|]. intros E. lia.
  - done.
  - split; [done|]. intros _ Ha. exfalso. match goal with N : _ ∉ _ |- _ => apply N end. rewrite !elem_of_cons. revert Ha. destruct (sj_state job); cbn; intros Ha; try discriminate Ha; auto.
  - split; [done|]. intros E Ha. assert (Hc : sj_capability (cancel_job now (hd_payload h)) = sj_capability (hd_payload h)) by (unfold cancel_job; by case_match).
    match goal with C : sj_capability job = _ |- _ => rewrite C end. rewrite Hc. apply Hk; [done|]. rewrite <-Hst. rewrite Hs in Ha. unfold cancel_job in Ha. cbn in Ha.
    match goal with N : sj_state (hd_payload h) ∉ _ |- _ => rewrite !not_elem_of_cons in N end. revert Ha. destruct (sj_state (hd_payload h)); cbn; intros Ha; naive_solver.
  - split; [done|]. intros _ Ha. by rewrite Hs in Ha.
Qed.

Lemma exec_of_claim c d : consistent d -> ~ restarts c id ByCreate -> (forall h, heads d !! id = Some h -> row_of_claim h) ->
  forall h, heads (JobSteps.exec json_bytes lim c d) !! id = Some h -> row_of_claim h.
Proof.
  intros Hd Hn Ho. pose proof (exec_refines_machine json_bytes lim c d Hd id) as Hr.
  assert (Hall : forall h, heads d !! id = Some h -> row_ok id h /\ row_of_claim h) by (intros h Hh; split; [by apply Hd|by apply Ho]). clear Ho.
  revert Hall. induction Hr as [o|o1 o2 o3 Hs _ IH]; intros Hall h ->; [by apply Hall|]. apply IH; [|done].
  intros h2 ->. split; [eapply row_step_ok; [|exact Hs]; intros; by apply Hall|by eapply row_step_of_claim].
Qed.
End Row.

(** ** Sequences of calls *)
Section Calls.
Context {S : Type}.

(** Two sequences agree when their first calls do and their continuations agree on what
    the first call returns. *)
Lemma act_bind_agree {A B} (m m' : act S A) (k k' : A -> act S B) s :
  m s = m' s -> (forall a s', m s = (Ok a, s') -> k a s' = k' a s') -> act_bind m k s = act_bind m' k' s.
Proof. intros Em Ek. unfold act_bind. rewrite <-Em. destruct (m s) as [[a|e] s']; [by apply Ek|done]. Qed.

Lemma act_bind_same {A B} (m : act S A) (k k' : A -> act S B) s :
  (forall a s', m s = (Ok a, s') -> k a s' = k' a s') -> act_bind m k s = act_bind m k' s.
Proof. by apply act_bind_agree. Qed.

Lemma act_get_ok {A} (f : S -> A) s a s' : act_get f s = (Ok a, s') <-> a = f s /\ s' = s.
Proof. unfold act_get. split; [by intros [= <- <-]|by intros [-> ->]]. Qed.
Lemma act_ret_ok {A} (a b : A) (s s' : S) : act_ret a s = (Ok b, s') <-> b = a /\ s' = s.
Proof. unfold act_ret. split; [by intros [= <- <-]|by intros [-> ->]]. Qed.
Lemma act_do_ok (f : S -> S) s u s' : act_do f s = (Ok u, s') <-> s' = f s.
Proof. unfold act_do. destruct u. split; [by intros [= <-]|by intros ->]. Qed.
End Calls.

(** One call of a sequence that succeeds *)
Tactic Notation "step" hyp(E) ident(a) ident(w) := let Em := fresh "E" a in apply act_bind_ok in E as (a & w & Em & E).

Section Worker.
Context {U : Unicode} {O H I HT E F P X : Type} `{!ReportWire H I} `{!BatchWire HT E F P}.
Context `{!ReportHeader H} `{!BatchHeader HT} `{!HostEvent E} `{!HostEvent F} `{!HostEvent P}.
Context `{!Spool.ArtifactText (AssetReport H I) (TraceBatch HT E F P)} `{!Outside O (AssetReport H I) (TraceBatch HT E F P) X}.
Context (wk : ScanJobWorker).

Abbreviation W := (world O X).
Abbreviation artifact := (artifact (AssetReport H I) (TraceBatch HT E F P)).

(** ** Nothing is collected twice *)

Lemma recover_guard_keeps job (a : artifact) w p w' : recover_guard wk job (Some a) w = (Ok p, w') -> exists b, p.1 = Some b.
Proof.
  unfold recover_guard. intros E0. step E0 target w1. step E0 identities w2. step E0 recovered w3. step E0 control w4.
  assert (Hr : exists b, recovered.1 = Some b).
  { destruct a as [r|b|r], (identities : bool);
      try (step Erecovered c w5; step Erecovered result w6; destruct result as [[r'|] u']; [|done]; apply act_ret_ok in Erecovered as [-> _]; by eexists).
    step Erecovered x w5. apply act_ret_ok in Erecovered as [-> _]. by eexists. }
  destruct (ct_cancel_requested control).
  - destruct (ct_guard_side_effect_committed control); [|done]. by step E0 failed w5.
  - by apply act_ret_ok in E0 as [-> _].
Qed.

(** C7. A collected artifact is never collected again: when the spool holds one that
    can be read, an execution does not use the collection at all, and neither does an
    attempt beyond the last of a host or trace job. *)
Theorem artifact_not_recollected c1 c2 job (w : W) :
  (exists a : artifact, Spool.load (wk_max_artifact_bytes wk) (sj_job_id job) (w_spool (pause wk w)) = Ok (Some a)) \/
  (sj_capability job <> GUARD /\ sj_max_attempts job < sj_attempt job) ->
  execute_with wk c1 job w = execute_with wk c2 job w.
Proof.
  intros Hc. unfold execute_with. apply act_bind_same. intros stored w1 Es. apply act_bind_same. intros [] w2 _.
  apply act_bind_same. intros control w3 _. apply act_bind_same. intros prepared w4 Ep. apply act_bind_same. intros control' w5 _.
  destruct (interrupted control'); [done|]. apply act_bind_agree; [|done]. destruct Hc as [[a Ha]|[Hg Hx]].
  - assert (stored = Some a) as -> by (unfold await, on_spool in Es; rewrite Ha in Es; by injection Es).
    assert (exists b, prepared.1 = Some b) as [b Hb].
    { destruct (bool_decide (sj_capability job = GUARD) && _); [by eapply recover_guard_keeps|]. apply act_ret_ok in Ep as [-> _]. by eexists. }
    destruct prepared as [[?|] ?]; [done|discriminate].
  - destruct prepared as [[b|] target]; [done|]. unfold exhausted_attempts. rewrite (proj2 (Z.ltb_lt _ _) Hx), bool_decide_false by done. done.
Qed.

(** ** What a job succeeds with *)

Lemma await_ok {A} (m : act W A) w r w' : await wk m w = (r, w') -> exists w1, m (pause wk w) = (r, w1) /\ w' = pause wk w1.
Proof. unfold await. destruct (m (pause wk w)) as [r1 w1] eqn:E0. intros [= -> <-]. by exists w1. Qed.

Lemma outcome_ok {A} (m : act W A) w r w' : outcome m w = (Ok r, w') <-> m w = (r, w').
Proof. unfold outcome. destruct (m w). split; [by intros [= -> ->]|by intros [= -> ->]]. Qed.

Lemma on_outside_ok {A} (f : act O A) (w : W) r w' : on_outside f w = (r, w') -> exists o, f (w_outside w) = (r, o).
Proof. unfold on_outside. destruct (f (w_outside w)) as [r1 o] eqn:E0. intros [= -> _]. by exists o. Qed.

Lemma attribute_artifact_ok target (a b : artifact) (w w' : W) : attribute_artifact target a w = (Ok b, w') ->
  attributed (tg_target_id target) (host_of_target target) b.
Proof.
  destruct a as [r|r|r]; cbn [attribute_artifact]; intros E0.
  - apply act_ret_ok in E0 as [-> _]. apply bind_report_attributed.
  - apply act_ret_ok in E0 as [-> _]. apply bind_batch_attributed.
  - case_bool_decide as Hk; [step E0 x w1|]; apply act_ret_ok in E0 as [-> _]; by cbn.
Qed.

(** A collected artifact is attributed to its target and in the spool. *)
Lemma collect_and_spool_ok job target w (a : artifact) w' : collect_and_spool wk job target w = (Ok a, w') ->
  attributed (tg_target_id target) (host_of_target target) a /\
  exists w1 : W, Spool.load (wk_max_artifact_bytes wk) (sj_job_id job) (w_spool w1) = Ok (Some a) /\ w' = pause wk w1.
Proof.
  unfold collect_and_spool. destruct (_ && _); [done|]. intros E0. step E0 collected w1. destruct collected as [kind b]. step E0 c w2. step E0 u1 w3.
  step E0 saved w4. destruct saved as [[]|e]; [|step E0 control w5; destruct (_ && _); [by step E0 failed w6|done]].
  apply act_ret_ok in E0 as [-> ->]. split; [by eapply attribute_artifact_ok|].
  apply outcome_ok, await_ok in Esaved as (w5 & Es & ->). exists w5. split; [|done]. unfold on_spool in Es.
  destruct (Spool.save _ _ _ _ _ _) as [r s'] eqn:Ev. injection Es as -> <-. by eapply SpoolProps.load_saved.
Qed.

(** The analyzer has taken every chunk of the artifact, and the result is made of its
    answers. *)
Definition acknowledged (a : artifact) (result : ScanResult) : Prop :=
  match a with
  | ReportArtifact r => exists chunks answers o o1 o2 now, split_asset_report r MAX_FORWARD_BODY_BYTES = Ok chunks /\
      accepted post_report (u "/ingest/asset-report") chunks answers o1 o2 /\ worst_of o answers /\ report_result r o now = Ok result
  | TraceArtifact b => exists chunks answers o o1 o2 now, split_trace_batch b MAX_FORWARD_BODY_BYTES = Ok chunks /\
      accepted post_batch (u "/ingest/trace-batch") chunks answers o1 o2 /\ worst_of o answers /\ batch_result b o now = Ok result
  | ResultArtifact r => result = r
  end.

Lemma forward_ok (a : artifact) w r w' : forward wk a w = (Ok r, w') -> acknowledged a r.
Proof.
  destruct a as [rep|b|r0]; cbn [forward acknowledged]; intros E0.
  - step E0 o w1. step E0 now w2. apply act_lift_ok in E0 as [E0 _]. apply await_ok in Eo as (w3 & Eo & _). apply on_outside_ok in Eo as (out & Eo).
    unfold ingest_asset_report in Eo. apply act_bind_ok in Eo as (chunks & a1 & Es & Eo). apply act_lift_ok in Es as [Es ->].
    apply ingest_chunks_accepted in Eo as (answers & Ha & _ & Hw). exists chunks, answers, o, (w_outside (pause wk w)), out, now. by split_and!.
  - step E0 o w1. step E0 now w2. apply act_lift_ok in E0 as [E0 _]. apply await_ok in Eo as (w3 & Eo & _). apply on_outside_ok in Eo as (out & Eo).
    unfold ingest_trace_batch in Eo. apply act_bind_ok in Eo as (chunks & a1 & Es & Eo). apply act_lift_ok in Es as [Es ->].
    apply ingest_chunks_accepted in Eo as (answers & Ha & _ & Hw). exists chunks, answers, o, (w_outside (pause wk w)), out, now. by split_and!.
  - by apply act_ret_ok in E0 as [-> _].
Qed.

Lemma stop_if_interrupted_ok job (a : artifact) (w w' : W) : stop_if_interrupted wk job a w = (Ok tt, w') ->
  w' = w /\ (interrupted (w_control w) = false \/ is_guard_result a = true /\ ct_cancel_requested (w_control w) = false /\ ct_lease_lost (w_control w) = false).
Proof.
  unfold stop_if_interrupted. intros E0. step E0 control w1. apply act_get_ok in Econtrol as [-> ->].
  destruct (interrupted (w_control w)); cbn [negb] in E0; [|apply act_ret_ok in E0 as [_ ->]; by split; [|left]].
  destruct (_ && _); [by step E0 failed w1|]. destruct (is_guard_result a), (ct_cancel_requested (w_control w)), (ct_lease_lost (w_control w)); try done.
  apply act_ret_ok in E0 as [_ ->]. split; [done|]. by right.
Qed.


(** ** What every step of an execution keeps *)

(** [Inv] speaks of the repository, the claim, the schedule and a request to cancel. *)
Definition stable (Inv : W -> Prop) {A} (m : act W A) : Prop := forall w, Inv w -> Inv (m w).2.

Section Stable.
Context (Inv : W -> Prop).
Context (Inv_pause : forall w, Inv w -> Inv (pause wk w)).
Context (Inv_same : forall w w', w_jobs w' = w_jobs w -> w_claim w' = w_claim w -> w_schedule w' = w_schedule w ->
  (ct_cancel_requested (w_control w) = true -> ct_cancel_requested (w_control w') = true) -> Inv w -> Inv w').

Lemma stable_bind {A B} (m : act W A) (k : A -> act W B) : stable Inv m -> (forall a, stable Inv (k a)) -> stable Inv (act_bind m k).
Proof. intros Hm Hk w Hw. unfold act_bind. specialize (Hm w Hw). destruct (m w) as [[a|e] w1]; [by apply Hk|done]. Qed.
Lemma stable_ret {A} (a : A) : stable Inv (act_ret a).
Proof. by intros w. Qed.
Lemma stable_lift {A} (r : res A) : stable Inv (act_lift r).
Proof. by intros w. Qed.
Lemma stable_get {A} (f : W -> A) : stable Inv (act_get f).
Proof. by intros w. Qed.
Lemma stable_control f : (forall c, ct_cancel_requested c = true -> ct_cancel_requested (f c) = true) -> stable Inv (on_control f).
Proof. intros Hf w. apply (Inv_same w); [done..|apply Hf]. Qed.
Lemma stable_cancel : stable Inv (act_do cancel).
Proof. intros w. by apply (Inv_same w). Qed.
Lemma stable_spool {A} (f : act Spool.spool A) : stable Inv (on_spool f).
Proof. intros w Hw. unfold on_spool. destruct (f (w_spool w)). by apply (Inv_same w). Qed.
Lemma stable_outside {A} (f : act O A) : stable Inv (on_outside f).
Proof. intros w Hw. unfold on_outside. destruct (f (w_outside w)). by apply (Inv_same w). Qed.
Lemma stable_agents {A} (f : Z -> AgentIdentity.db -> res A * AgentIdentity.db) : stable Inv (on_agents f).
Proof. intros w Hw. unfold on_agents. destruct (w_agents w); [|done]. destruct (f _ _). by apply (Inv_same w). Qed.
Lemma stable_await {A} (m : act W A) : stable Inv m -> stable Inv (await wk m).
Proof. intros Hm w Hw. unfold await. specialize (Hm _ (Inv_pause _ Hw)). destruct (m (pause wk w)). by apply Inv_pause. Qed.
Lemma stable_outcome {A} (m : act W A) : stable Inv m -> stable Inv (outcome m).
Proof. intros Hm w Hw. unfold outcome. specialize (Hm w Hw). by destruct (m w). Qed.
Lemma stable_attempt {A} (m : act W A) : stable Inv m -> stable Inv (attempt m).
Proof. intros Hm w Hw. unfold attempt. specialize (Hm w Hw). destruct (m w) as [[a|e] w1]; [done|by destruct e]. Qed.
Lemma stable_monitored {A} (m : act W A) : stable Inv m -> stable Inv (monitored m).
Proof.
  intros Hm w Hw. unfold monitored. specialize (Hm (w <| w_monitored := true |>)). destruct (m (w <| w_monitored := true |>)) as [r w1]. cbn [snd] in *.
  apply (Inv_same w1); [done..|]. apply Hm. by apply (Inv_same w).
Qed.
Lemma stable_if {A} (b : bool) (m k : act W A) : stable Inv m -> stable Inv k -> stable Inv (if b then m else k).
Proof. by destruct b. Qed.
Lemma stable_or_raise {A} (m : act W A) e : stable Inv m -> stable Inv (or_raise m e).
Proof. intros Hm. apply stable_bind; [by apply stable_attempt|]. intros [a|e']; [apply stable_ret|apply stable_lift]. Qed.
Lemma stable_iter {A} (f : A -> act W unit) xs : (forall x, stable Inv (f x)) -> stable Inv (act_iter f xs).
Proof. intros Hf. induction xs as [|x xs IH]; cbn [act_iter]; [apply stable_ret|]. apply stable_bind; [done|by intros []]. Qed.

(** The calls are composed of these. *)
Ltac keep_step := first
  [ apply stable_bind; [|intros ?] | apply stable_ret | apply stable_lift | apply stable_get | apply stable_control; done | apply stable_cancel
  | apply stable_spool | apply stable_outside | apply stable_agents | apply stable_await | apply stable_outcome | apply stable_attempt
  | apply stable_monitored | apply stable_or_raise | apply stable_iter; intros ? | apply stable_if | assumption | progress cbv zeta | case_match ].
Ltac keep := repeat keep_step.

Lemma compensate_stable job : stable Inv (compensate_guard_if_needed wk job).
Proof. unfold compensate_guard_if_needed, revoke_generation. keep. Qed.
Lemma refresh_stable id : stable Inv (refresh_cancellation wk id).
Proof. unfold refresh_cancellation. keep. Qed.
Lemma job_certificates_stable a job allowed ns : stable Inv (job_certificates wk a job allowed ns).
Proof. induction ns as [|n ns IH]; cbn [job_certificates]; [apply stable_ret|]. unfold read_agents. keep. Qed.
Lemma reconcile_stable job target b1 b2 b3 : stable Inv (reconcile_guard_deployment wk job target b1 b2 b3).
Proof.
  pose proof (job_certificates_stable) as Hj. unfold reconcile_guard_deployment, reconcile_candidates, abort_generation, activate_generation, read_agents.
  keep. all: try apply Hj.
Qed.
Lemma bind_legacy_stable target r : stable Inv (bind_legacy_guard_deployment wk target r).
Proof. unfold bind_legacy_guard_deployment. keep. Qed.
Lemma target_of_stable job e : stable Inv (target_of wk job e).
Proof. unfold target_of. keep. Qed.
Lemma stage_stable t h sc key : stable Inv (stage_for_target wk t h sc key).
Proof. unfold stage_for_target, ensure_identity, read_agents. keep. Qed.

Ltac keep_call := first
  [ apply compensate_stable | apply refresh_stable | apply reconcile_stable | apply bind_legacy_stable | apply target_of_stable | apply stage_stable | keep_step ].
Ltac keep_calls := repeat keep_call.

Lemma collect_stable job target : stable Inv (collect_and_spool wk job target).
Proof.
  unfold collect_and_spool, collect, collect_guard, deploy_staged_guard, deploy_guard, attribute_artifact, stop_if_interrupted, ensure_identity, activate_generation, abort_generation.
  keep_calls.
Qed.

Lemma execute_stable job : stable Inv (execute wk job).
Proof.
  unfold execute, execute_with, recover_guard, stop_if_interrupted, forward. repeat first [apply collect_stable | keep_call].
Qed.
End Stable.

(** ** The claim of a job, whatever happens *)
Section Claim.
Context (id : str) (epoch : Z) (capability : ScanCapability).

(** Nobody creates the job anew. *)
Definition harmless (h : happening X) : Prop := match h with OnRepository c => ~ restarts c id ByCreate | _ => True end.

Definition claim_of_job (w : W) : Prop :=
  consistent (w_jobs w) /\ (forall h, heads (w_jobs w) !! id = Some h -> row_of_claim epoch capability h) /\
  sj_job_id (cl_job (w_claim w)) = id /\ cl_lease_epoch (w_claim w) = epoch /\ sj_capability (cl_job (w_claim w)) = capability /\
  Forall (Forall harmless) (w_schedule w).

Lemma claim_of_job_same w w' : w_jobs w' = w_jobs w -> w_claim w' = w_claim w -> w_schedule w' = w_schedule w ->
  (ct_cancel_requested (w_control w) = true -> ct_cancel_requested (w_control w') = true) -> claim_of_job w -> claim_of_job w'.
Proof. intros Ej Ec Es _. unfold claim_of_job. by rewrite Ej, Ec, Es. Qed.

Lemma claim_of_job_exec c w : ~ restarts c id ByCreate -> claim_of_job w ->
  claim_of_job (w <| w_jobs := JobSteps.exec (wk_json_bytes wk) (wk_limits wk) c (w_jobs w) |>).
Proof.
  intros Hn (Hd & Hr & Hc). split; [by apply exec_consistent|]. split; [|done]. intros h Hh. eapply exec_of_claim; [exact Hd|exact Hn|exact Hr|exact Hh].
Qed.

Lemma renew_claim_of_job : stable claim_of_job (renew_claim wk).
Proof.
  intros w Hw. unfold renew_claim. destruct (lease_ttl wk) as [ttl|e]; [|done].
  pose proof (claim_of_job_exec (Renew (w_claim w) (w_now w) ttl) w ltac:(by intros []) Hw) as Hx. cbn [JobSteps.exec] in Hx.
  destruct (renew (w_claim w) (w_now w) ttl (w_jobs w)) as [r d] eqn:Er. cbn [snd] in Hx. destruct r as [c|e]; cbn [snd]; [|exact Hx].
  destruct Hx as (Hd & Hr & Hi & He & _ & Hs). unfold renew in Er. destruct (ttl <=? 0); [done|]. unfold transaction, renew_tx in Er.
  destruct (leased_row (w_claim w) (w_now w) (w_jobs w)) as [row|] eqn:Hl; cbn [mbind res_bind] in Er; [|done]. injection Er as <- <-. apply leased_row_spec in Hl as (Hh & _ & _ & Hep & Hlive & _).
  destruct Hw as (Hd0 & Hr0 & Hi0 & He0 & _). rewrite Hi0 in Hh. destruct (Hr0 _ Hh) as [_ Hk]. destruct (Hd0 _ _ Hh) as [Hid _].
  split; [exact Hd|]. split; [exact Hr|]. split; [exact Hid|]. split; [exact He0|]. split; [|exact Hs].
  apply Hk; [by rewrite Hep|]. unfold live in Hlive. by apply andb_true_iff in Hlive as [? _].
Qed.

Lemma happens_of_job w h : harmless h -> claim_of_job w -> claim_of_job (happens wk w h).
Proof.
  intros Hh Hw. destruct h; cbn [happens]; try (by apply (claim_of_job_same w)).
  - destruct (w_monitored w); [|done]. unfold heartbeat. pose proof (renew_claim_of_job w Hw) as Hr. destruct (renew_claim wk w) as [r w1]. cbn [snd] in Hr.
    assert (Hn : forall v, claim_of_job v -> claim_of_job (note_cancelling v)) by (intros v Hv; unfold note_cancelling; case_bool_decide; [by apply (claim_of_job_same v)|done]).
    apply Hn. destruct r as [|[]]; try done; try case_match; try done; by apply (claim_of_job_same w1).
  - by apply claim_of_job_exec.
Qed.

Lemma batch_of_job batch : Forall harmless batch -> forall w, claim_of_job w -> claim_of_job (fold_left (happens wk) batch w).
Proof. induction 1 as [|h hs Hh _ IH]; intros w Hw; cbn [fold_left]; [done|]. by apply IH, happens_of_job. Qed.

Lemma pause_of_job w : claim_of_job w -> claim_of_job (pause wk w).
Proof.
  unfold pause. destruct (w_schedule w) as [|batch rest] eqn:Es; [done|]. intros (? & ? & ? & ? & ? & Hs).
  rewrite Es in Hs. apply Forall_cons_1 in Hs as [? ?]. apply batch_of_job; [done|]. by split_and!.
Qed.

Lemma execute_of_job job w : claim_of_job w -> claim_of_job (monitored (execute wk job) w).2.
Proof.
  apply (stable_monitored claim_of_job claim_of_job_same). apply execute_stable; [exact pause_of_job|exact claim_of_job_same].
Qed.
End Claim.

(** ** While no heartbeat runs *)

Definition guard_flags (w : W) : bool * bool := (ct_guard_side_effect_committed (w_control w), ct_guard_side_effect_compensated (w_control w)).

(** The claim and the lease are as they were; signals are only set. *)
Definition quiet (w w' : W) : Prop :=
  w_monitored w' = false /\ w_claim w' = w_claim w /\ guard_flags w' = guard_flags w /\ ct_lease_lost (w_control w') = ct_lease_lost (w_control w) /\
  (ct_cancel_requested (w_control w) = true -> ct_cancel_requested (w_control w') = true) /\
  (ct_timed_out (w_control w) = true -> ct_timed_out (w_control w') = true).

Lemma quiet_trans w1 w2 w3 : quiet w1 w2 -> quiet w2 w3 -> quiet w1 w3.
Proof. unfold quiet. intros (? & ? & ? & ? & ? & ?) (? & ? & ? & ? & ? & ?). split_and!; try congruence; auto. Qed.

Lemma batch_quiet batch w : w_monitored w = false -> quiet w (fold_left (happens wk) batch w).
Proof.
  revert w. induction batch as [|h batch IH]; intros w Hm; cbn [fold_left]; [by split_and!|].
  assert (Hq : quiet w (happens wk w h)) by (destruct h; cbn [happens]; rewrite ?Hm; by split_and!).
  eapply quiet_trans; [exact Hq|]. apply IH, Hq.
Qed.

Lemma pause_quiet w : w_monitored w = false -> quiet w (pause wk w).
Proof.
  intros Hm. unfold pause. destruct (w_schedule w) as [|batch rest]; [by split_and!|].
  match goal with |- quiet w (fold_left _ _ ?v) => destruct (batch_quiet batch v Hm) as (Q1 & Q2 & Q3 & Q4 & Q5 & Q6) end. by split_and!.
Qed.

(** ... and when one does, it has no part in the deployment. *)
Lemma pause_guard_flags w : guard_flags (pause wk w) = guard_flags w.
Proof.
  assert (Hh : forall h v, guard_flags (happens wk v h) = guard_flags v).
  { intros h v. destruct h; try done. cbn [happens]. destruct (w_monitored v); [|done]. unfold heartbeat, renew_claim.
    assert (Hn : forall x : W, guard_flags (note_cancelling x) = guard_flags x) by (intros x; unfold note_cancelling; by case_bool_decide).
    destruct (lease_ttl wk) as [ttl|e]; [destruct (renew _ _ _ _) as [[c|e] d]|]; cbv beta iota zeta; rewrite Hn; try done;
      destruct e; try done; case_match; done. }
  unfold pause. destruct (w_schedule w) as [|batch rest]; [done|].
  assert (Hb : forall b v, guard_flags (fold_left (happens wk) b v) = guard_flags v) by (induction b as [|h b IH]; intros v; cbn [fold_left]; [done|by rewrite IH]).
  by rewrite Hb.
Qed.

(** ** Compensation *)

Lemma compensate_done job (w w' : W) : sj_capability job = GUARD -> compensate_guard_if_needed wk job w = (Ok false, w') ->
  (guard_flags w').2 = true.
Proof.
  intros Hg E0. unfold compensate_guard_if_needed in E0. rewrite bool_decide_true in E0 by done. cbn [negb] in E0.
  step E0 control w1. destruct (ct_guard_deployment_manifest control); [|done]. step E0 identities w2. step E0 failed w3. destruct (failed : bool); [done|].
  step E0 found w4. destruct found as [[record|]|e]; [|done..]. step E0 status w5. destruct status as [status|e]; [|done]. destruct (gs_alive status); [done|].
  step E0 x w6. apply act_ret_ok in E0 as [_ ->]. unfold on_control in Ex. by apply act_do_ok in Ex as ->.
Qed.

Lemma compensated_ok job (w w' : W) : compensated wk job w = (Ok true, w') ->
  w_monitored w' = false /\ ct_lease_lost (w_control w') = false /\ (sj_capability job = GUARD -> (guard_flags w').2 = true).
Proof.
  unfold compensated. intros E0. step E0 failed w1. step E0 control w2. apply act_get_ok in Econtrol as [-> ->]. apply act_ret_ok in E0 as [E0 ->].
  symmetry in E0. apply andb_true_iff in E0 as [Hl%negb_true_iff Hf%negb_true_iff]. subst failed. unfold monitored in Efailed.
  destruct (await wk _ _) as [r w3] eqn:Ea. injection Efailed as -> <-. split; [done|]. split; [done|]. intros Hg.
  apply await_ok in Ea as (w4 & Ec & ->). apply compensate_done in Ec; [|done]. change (guard_flags (pause wk w4 <| w_monitored := false |>)) with (guard_flags (pause wk w4)).
  by rewrite pause_guard_flags.
Qed.

(** ** Recording a state *)

(** What justifies recording [latest] for an execution that ended with [result]: the
    lease is not known to be lost, and a cancelled guard was compensated. *)
Definition justified (result : res ScanResult) (latest : ScanJob) (w : W) : Prop :=
  let control := w_control w in
  ct_lease_lost control = false /\ sj_job_id latest = sj_job_id (cl_job (w_claim w)) /\
  match sj_state latest with
  | SUCCEEDED => exists r, result = Ok r /\ sj_result latest = Some r /\ (sj_capability latest = GUARD -> sj_state (cl_job (w_claim w)) <> CANCELLING)
  | CANCELLED => ct_cancel_requested control = true /\
      (sj_capability latest = GUARD -> ct_guard_side_effect_committed control = false \/ ct_guard_side_effect_compensated control = true)
  | RETRYING => exists e, result = Raise e /\ (ct_timed_out control = true \/ _retryable e = true) /\ sj_attempt latest < sj_max_attempts latest /\ sj_result latest = None
  | FAILED => exists e, result = Raise e /\ (_retryable e = false \/ sj_max_attempts latest <= sj_attempt latest) /\ sj_result latest = None
  | _ => False
  end.

(** What was decided stays justified while the call that records it is awaited. *)
Lemma justified_quiet result latest w w' : quiet w w' -> justified result latest w -> justified result latest w'.
Proof.
  intros (_ & Hc & Hg & Hl & Hca & Hti) (Jl & Jid & Js). unfold justified. rewrite Hl, Hc. split; [done|]. split; [done|].
  injection Hg as Hg1 Hg2. destruct (sj_state latest); rewrite ?Hg1, ?Hg2; try done.
  - destruct Js as (e & -> & [?|?] & ? & ?); exists e; auto.
  - destruct Js as [? ?]. auto.
Qed.

(** The job and the deployment of a claim that may be ended *)
Definition endable (w : W) : Prop :=
  w_monitored w = false /\ ct_lease_lost (w_control w) = false /\
  (sj_state (cl_job (w_claim w)) = CANCELLING -> ct_cancel_requested (w_control w) = true) /\
  (ct_cancel_requested (w_control w) = true -> sj_capability (cl_job (w_claim w)) = GUARD ->
     ct_guard_side_effect_committed (w_control w) = false \/ ct_guard_side_effect_compensated (w_control w) = true).

Lemma set_failure_or_retry_ok job now error retryable (w w' : W) latest : set_failure_or_retry wk job now error retryable w = (Ok latest, w') ->
  sj_job_id latest = sj_job_id job /\ sj_capability latest = sj_capability job /\ sj_result latest = None /\
  (sj_state latest = RETRYING /\ retryable = true /\ sj_attempt latest < sj_max_attempts latest \/
   sj_state latest = FAILED /\ (retryable = false \/ sj_max_attempts latest <= sj_attempt latest)) /\
  exists random, w' = w <| w_random := random |>.
Proof.
  unfold set_failure_or_retry. cbv zeta. intros E0. destruct (retryable && _) eqn:Er.
  - apply andb_true_iff in Er as [-> Ha%Z.ltb_lt]. step E0 x w1. step E0 d w2. apply act_lift_ok in Ed as [_ ->]. apply act_ret_ok in E0 as [-> ->].
    cbn in Ha |- *. split_and!; try done; [by left|]. unfold next_random in Ex. destruct (w_random w) as [|y ys] eqn:Ew; injection Ex as _ <-; [|by exists ys].
    exists []. destruct w; cbn in *; by subst.
  - apply act_ret_ok in E0 as [-> ->]. cbn in Er |- *. split_and!; try done; [|exists (w_random w); by destruct w].
    right. split; [done|]. apply andb_false_iff in Er as [?|?%Z.ltb_ge]; auto.
Qed.

Lemma choose_justified result now (w w' : W) latest del : endable w ->
  choose wk (cl_job (w_claim w)) now (w_control w) result w = (Ok (latest, del), w') ->
  justified result latest w /\ exists random, w' = w <| w_random := random |>.
Proof.
  intros (Hm & Hl & Hst & Hc) E0. unfold choose in E0. cbv zeta in E0.
  assert (Hsame : exists random, w = w <| w_random := random |>) by (exists (w_random w); by destruct w).
  assert (Hcan : ct_cancel_requested (w_control w) || bool_decide (sj_state (cl_job (w_claim w)) = CANCELLING) = true -> ct_cancel_requested (w_control w) = true).
  { intros [?|?%bool_decide_eq_true]%orb_true_iff; auto. }
  destruct result as [r|e].
  - destruct (decide (sj_capability (cl_job (w_claim w)) = GUARD)) as [Hg|Hg];
      [rewrite (bool_decide_true (_ = GUARD)) in E0 by exact Hg|rewrite (bool_decide_false (_ = GUARD)) in E0 by exact Hg]; cbn [negb] in E0.
    + destruct (_ || _) eqn:Ecan; apply act_ret_ok in E0 as [[= -> ->] ->]; (split; [|exact Hsame]).
      * split; [done|]. split; [done|]. cbn. split; [by apply Hcan|]. intros ?. apply Hc; [by apply Hcan|done].
      * split; [done|]. split; [done|]. cbn. exists r. split; [done|]. split; [done|]. intros _ Hx. apply orb_false_iff in Ecan as [_ Ecan]. by apply bool_decide_eq_false in Ecan.
    + apply act_ret_ok in E0 as [[= -> ->] ->]. split; [|exact Hsame]. split; [done|]. split; [done|]. cbn. exists r. by split_and!.
  - destruct (_ || _) eqn:Ecan.
    + apply act_ret_ok in E0 as [[= -> ->] ->]. split; [|exact Hsame]. split; [done|]. split; [done|]. cbn. split; [by apply Hcan|]. intros ?. apply Hc; [by apply Hcan|done].
    + assert (Hf : forall error retryable, (retryable = true -> ct_timed_out (w_control w) = true \/ _retryable e = true) -> (retryable = false -> _retryable e = false) ->
        act_bind (set_failure_or_retry wk (cl_job (w_claim w) <| sj_updated_at := Some now |> <| sj_available_at := None |>) now error retryable)
          (fun job => act_ret (job, bool_decide (sj_state job = FAILED))) w = (Ok (latest, del), w') -> justified (Raise e) latest w /\ exists random, w' = w <| w_random := random |>).
      { intros error retryable H1 H2 E1. step E1 job w1. apply act_ret_ok in E1 as [[= -> ->] ->].
        apply set_failure_or_retry_ok in Ejob as (Hid & _ & Hr & Hs & Hw). split; [|exact Hw]. split; [done|]. split; [exact Hid|].
        destruct Hs as [(-> & Hret & Ha)|(-> & [Hret|Ha])]; exists e; split_and!; auto. }
      destruct (ct_timed_out (w_control w)); [eapply Hf; [| |exact E0]; [by left|done]|eapply Hf; [| |exact E0]; auto].
Qed.

(** A request to cancel stays. *)
Lemma pause_cancel w : ct_cancel_requested (w_control w) = true -> ct_cancel_requested (w_control (pause wk w)) = true.
Proof.
  assert (Hh : forall h v, ct_cancel_requested (w_control v) = true -> ct_cancel_requested (w_control (happens wk v h)) = true).
  { intros h v Hv. destruct h; try done. cbn [happens]. destruct (w_monitored v); [|done]. unfold heartbeat, renew_claim.
    assert (Hn : forall x : W, ct_cancel_requested (w_control x) = true -> ct_cancel_requested (w_control (note_cancelling x)) = true) by (intros x; unfold note_cancelling; by case_bool_decide).
    destruct (lease_ttl wk) as [ttl|e]; [destruct (renew _ _ _ _) as [[c|e] d]|]; cbv beta iota zeta; apply Hn; try done;
      destruct e; try done; case_match; done. }
  assert (Hb : forall b v, ct_cancel_requested (w_control v) = true -> ct_cancel_requested (w_control (fold_left (happens wk) b v)) = true)
    by (induction b as [|h b IH]; intros v Hv; cbn [fold_left]; [done|by apply IH, Hh]).
  intros Hw. unfold pause. destruct (w_schedule w) as [|batch rest]; [done|]. by apply Hb.
Qed.

Lemma compensated_keeps Inv job : (forall w, Inv w -> Inv (pause wk w)) ->
  (forall w w', w_jobs w' = w_jobs w -> w_claim w' = w_claim w -> w_schedule w' = w_schedule w ->
     (ct_cancel_requested (w_control w) = true -> ct_cancel_requested (w_control w') = true) -> Inv w -> Inv w') ->
  stable Inv (compensated wk job).
Proof.
  intros Hp Hs. unfold compensated. apply stable_bind; [|intros failed; apply stable_bind; [apply stable_get|intros c; apply stable_ret]].
  by apply stable_monitored, stable_await, compensate_stable.
Qed.

Section Recording.
Context (id : str) (epoch : Z) (capability : ScanCapability) (result : res ScanResult) (commit : ScanJob -> act W ScanJob).
Context (commit_justified : forall latest w, justified result latest w -> commit latest w = complete_claim wk latest w).

Lemma commit_agrees latest w : w_monitored w = false -> justified result latest w ->
  outcome (await wk (commit latest)) w = outcome (await wk (complete_claim wk latest)) w.
Proof. intros Hm Hj. unfold outcome, await. rewrite commit_justified; [done|]. by eapply justified_quiet; [apply pause_quiet|]. Qed.

Lemma commit_quiet latest w r w' : w_monitored w = false -> claim_of_job id epoch capability w -> await wk (complete_claim wk latest) w = (r, w') ->
  quiet w w' /\ claim_of_job id epoch capability w'.
Proof.
  intros Hm Hw E0. apply await_ok in E0 as (w1 & Ec & ->). pose proof (pause_quiet w Hm) as Hq. pose proof (pause_of_job id epoch capability w Hw) as Hp.
  pose proof (claim_of_job_exec id epoch capability (Complete (w_claim (pause wk w)) latest (w_now (pause wk w))) _ ltac:(by intros []) Hp) as Hx.
  cbn [JobSteps.exec] in Hx. unfold complete_claim in Ec. destruct (complete _ _ _ _ _ _) as [r1 d]. cbn [snd] in Hx. injection Ec as _ <-.
  split; [|by apply pause_of_job]. eapply quiet_trans; [exact Hq|]. destruct Hq as (Hm' & _).
  match goal with |- quiet ?a (pause wk ?b) => assert (Hs : quiet a b) by (by split_and!) end. eapply quiet_trans; [exact Hs|]. apply pause_quiet, Hs.
Qed.

Lemma renew_quiet w r w' : w_monitored w = false -> claim_of_job id epoch capability w -> outcome (await wk (renew_claim wk)) w = (Ok r, w') ->
  w_monitored w' = false /\ guard_flags w' = guard_flags w /\ ct_lease_lost (w_control w') = ct_lease_lost (w_control w) /\ claim_of_job id epoch capability w' /\
  (forall c, r = Ok c -> w_claim w' = c).
Proof.
  intros Hm Hw E0. apply outcome_ok, await_ok in E0 as (w1 & Er & ->). pose proof (pause_quiet w Hm) as (Hm1 & _ & Hg1 & Hl1 & _).
  pose proof (renew_claim_of_job id epoch capability _ (pause_of_job id epoch capability w Hw)) as Hj. rewrite Er in Hj. cbn [snd] in Hj.
  assert (Hs : w_monitored w1 = false /\ guard_flags w1 = guard_flags (pause wk w) /\ ct_lease_lost (w_control w1) = ct_lease_lost (w_control (pause wk w)) /\ (forall c, r = Ok c -> w_claim w1 = c)).
  { unfold renew_claim in Er. destruct (lease_ttl wk) as [ttl|e]; [|injection Er as <- <-; by split_and!].
    destruct (renew _ _ _ _) as [[c|e] d]; injection Er as <- <-; split_and!; try done. by intros c' [= <-]. }
  destruct Hs as (Hm2 & Hg2 & Hl2 & Hc2). pose proof (pause_quiet w1 Hm2) as (Hm3 & Hc3 & Hg3 & Hl3 & _). split_and!; try congruence; [by apply pause_of_job|].
  intros c Hc. rewrite Hc3. by apply Hc2.
Qed.

(** The job may be cancelled once its deployment, if there is one, was compensated. *)
Lemma compensated_endable job w w' : claim_of_job id epoch capability w -> sj_capability job = capability -> compensated wk job w = (Ok true, w') ->
  w_monitored w' = false /\ ct_lease_lost (w_control w') = false /\ claim_of_job id epoch capability w' /\
  (ct_cancel_requested (w_control w) = true -> ct_cancel_requested (w_control w') = true) /\
  (sj_capability (cl_job (w_claim w')) = GUARD -> ct_guard_side_effect_compensated (w_control w') = true).
Proof.
  intros Hw Hc E0. destruct (compensated_ok _ _ _ E0) as (Hm & Hl & Hg).
  assert (Hj : claim_of_job id epoch capability w').
  { pose proof (compensated_keeps (claim_of_job id epoch capability) job (pause_of_job id epoch capability) (claim_of_job_same id epoch capability) w Hw) as Hk. by rewrite E0 in Hk. }
  split; [done|]. split; [done|]. split; [done|]. split.
  - intros Hcan. pose proof (compensated_keeps (fun w => ct_cancel_requested (w_control w) = true) job pause_cancel ltac:(by intros ? ? _ _ _ Hk ?; apply Hk) w Hcan) as Hk. by rewrite E0 in Hk.
  - destruct Hj as (_ & _ & _ & _ & Hcap & _). intros Hgu. apply Hg. congruence.
Qed.

Lemma handle_race_agrees w : w_monitored w = false -> ct_lease_lost (w_control w) = false -> claim_of_job id epoch capability w ->
  handle_completion_cancel_race wk commit w = handle_completion_cancel_race wk (complete_claim wk) w.
Proof.
  intros Hm Hl Hw. unfold handle_completion_cancel_race. apply act_bind_same. intros renewed w1 E1. apply renew_quiet in E1 as (Hm1 & Hg1 & Hl1 & Hw1 & Hc1); [|done..].
  destruct renewed as [claim|e]; [|done]. specialize (Hc1 _ eq_refl). destruct (negb _); [done|]. apply act_bind_same. intros [] w2 E2. apply act_do_ok in E2 as ->.
  apply act_bind_same. intros control w3 E3. apply act_get_ok in E3 as [-> ->]. apply act_bind_same. intros proceed w3 Ep. destruct (negb proceed) eqn:Epr; [done|]. apply negb_false_iff in Epr as ->.
  assert (Hend : w_monitored w3 = false /\ ct_lease_lost (w_control w3) = false /\ ct_cancel_requested (w_control w3) = true /\
    (sj_capability (cl_job (w_claim w3)) = GUARD -> ct_guard_side_effect_committed (w_control w3) = false \/ ct_guard_side_effect_compensated (w_control w3) = true)).
  { destruct (ct_guard_side_effect_committed (w_control (cancel w1)) && _) eqn:Eg.
    - apply compensated_endable in Ep as (Hm3 & Hl3 & _ & Hcan & Hco); [|by apply (claim_of_job_same _ _ _ w1)|rewrite <-Hc1; by destruct Hw1 as (_ & _ & _ & _ & Hcap & _)].
      split_and!; [done|done|by apply Hcan|auto].
    - apply act_ret_ok in Ep as [_ ->]. split_and!; [done|by cbn; congruence|done|]. intros _. apply andb_false_iff in Eg as [?|?%negb_false_iff]; auto. }
  destruct Hend as (Hm3 & Hl3 & Hcan & Hgu). apply act_bind_same. intros job w4 E4. apply act_get_ok in E4 as [-> ->]. apply act_bind_same. intros now w4 E4. apply act_get_ok in E4 as [-> ->].
  cbv zeta. apply act_bind_agree; [|done]. apply commit_agrees; [done|]. split; [done|]. split; [done|]. cbn. by split.
Qed.

Lemma record_agrees w : endable w -> claim_of_job id epoch capability w ->
  record_outcome wk commit result w = record_outcome wk (complete_claim wk) result w.
Proof.
  intros He Hw. unfold record_outcome. apply act_bind_same. intros job w1 E1. apply act_get_ok in E1 as [-> ->]. apply act_bind_same. intros now w1 E1. apply act_get_ok in E1 as [-> ->].
  apply act_bind_same. intros control w1 E1. apply act_get_ok in E1 as [-> ->]. apply act_bind_same. intros [latest del] w1 Ec. apply choose_justified in Ec as [Hj [random ->]]; [|done].
  destruct He as (Hm & Hl & _). set (w1 := w <| w_random := random |>).
  assert (Hj1 : justified result latest w1) by exact Hj. assert (Hw1 : claim_of_job id epoch capability w1) by exact Hw.
  apply act_bind_agree; [by apply commit_agrees|]. intros completed w2 E2. rewrite commit_agrees in E2 by done. apply outcome_ok, commit_quiet in E2 as [(Hm2 & _ & _ & Hl2 & _) Hw2]; [|done..].
  destruct completed as [?|[]]; try done. apply handle_race_agrees; [done| |done]. by rewrite Hl2.
Qed.

Lemma finish_agrees w : w_monitored w = false -> claim_of_job id epoch capability w ->
  finish_claim wk commit result w = finish_claim wk (complete_claim wk) result w.
Proof.
  intros Hm Hw. unfold finish_claim. destruct (needs_reconciliation result); [done|]. apply act_bind_same. intros control w1 E1. apply act_get_ok in E1 as [-> ->].
  destruct (ct_lease_lost (w_control w)) eqn:Hl; [done|]. apply act_bind_same. intros renewed w1 E1. apply renew_quiet in E1 as (Hm1 & Hg1 & Hl1 & Hw1 & Hc1); [|done..].
  destruct renewed as [claim|e]; [|done]. specialize (Hc1 _ eq_refl). apply act_bind_same. intros [] w2 E2. apply act_do_ok in E2.
  assert (Hw2 : w_monitored w2 = false /\ ct_lease_lost (w_control w2) = false /\ claim_of_job id epoch capability w2 /\ w_claim w2 = claim /\
    (sj_state (cl_job (w_claim w2)) = CANCELLING -> ct_cancel_requested (w_control w2) = true)).
  { subst w2. unfold note_cancelling. rewrite Hc1. case_bool_decide as Hcs.
    - split; [done|]. split; [by cbn; congruence|]. split; [by apply (claim_of_job_same _ _ _ w1)|]. by split.
    - split; [done|]. split; [congruence|]. split; [done|]. split; [done|]. by rewrite Hc1. }
  clear E2. destruct Hw2 as (Hm2 & Hl2 & Hw2 & Hc2 & Hs2). apply act_bind_same. intros control w3 E3. apply act_get_ok in E3 as [-> ->].
  apply act_bind_same. intros proceed w3 Ep. destruct (negb proceed) eqn:Epr; [done|]. apply negb_false_iff in Epr as ->.
  assert (Hend : endable w3 /\ claim_of_job id epoch capability w3).
  { destruct (_ && _) eqn:Eg.
    - apply andb_true_iff in Eg as [[Hcan _]%andb_true_iff _]. apply compensated_endable in Ep as (Hm3 & Hl3 & Hw3 & Hcan3 & Hco); [|done|rewrite <-Hc2; by destruct Hw2 as (_ & _ & _ & _ & Hcap & _)].
      split; [|done]. split; [done|]. split; [done|]. split; [intros _; by apply Hcan3|]. intros _ Hg. right. by apply Hco.
    - apply act_ret_ok in Ep as [_ ->]. split; [split; [exact Hm2|split; [exact Hl2|split; [exact Hs2|]]]|exact Hw2]. intros Hcan _. rewrite Hcan in Eg. cbn [andb] in Eg. apply andb_false_iff in Eg as [?|?%negb_false_iff]; auto. }
  destruct Hend as [He Hw3]. apply act_bind_same. intros control w4 E4. apply act_get_ok in E4 as [-> ->].
  match goal with |- (if ?b then _ else _) _ = _ => destruct b; [done|] end. by apply record_agrees.
Qed.
End Recording.

End Worker.

(** ** Dispatch *)
Section Dispatch.
Context {U : Unicode} (wk : ScanJobWorker).

(** The claims that are started are of different jobs, none of them active, and with the
    active ones no more than the configured number. *)
Lemma dispatch_bounded worker_id stopping draws active d : NoDup active ->
  let claims := (dispatch_available wk worker_id stopping draws active d).1.1 in
  NoDup (active ++ ((fun c => sj_job_id (cl_job c)) <$> claims)) /\
  (claims <> [] -> stopping = false /\ Z.of_nat (length active + length claims) <= wc_concurrency (wk_config wk)).
Proof.
  assert (Hnil : forall active : list str, NoDup active -> NoDup (active ++ ((fun c => sj_job_id (cl_job c)) <$> [])) /\ (@nil claimed <> [] -> stopping = false /\ Z.of_nat (length active + 0) <= wc_concurrency (wk_config wk)))
    by (intros a Ha; rewrite app_nil_r; done).
  revert active d. induction draws as [|[now token] draws IH]; intros active d Hnd; cbn [dispatch_available]; [by apply Hnil|].
  destruct (stopping || _) eqn:Es; [by apply Hnil|]. apply orb_false_iff in Es as [Es Hn%Z.leb_gt].
  destruct (lease_ttl wk) as [ttl|]; [|by apply Hnil]. destruct (claim_next _ _ _ _ _ _ _ _ _) as [[[claim|]|] d1]; [|by apply Hnil..].
  case_bool_decide as Hin; [by apply Hnil|]. specialize (IH (active ++ [sj_job_id (cl_job claim)]) d1).
  destruct (dispatch_available _ _ _ _ _ _) as [[claims r] d2]. cbn [fst] in IH |- *. destruct IH as [H1 H2].
  { apply list.NoDup_app. split; [done|]. split; [|apply NoDup_singleton]. intros x Hx ->%list_elem_of_singleton. by apply Hin. }
  csimpl. rewrite <-app_assoc in H1. split; [exact H1|]. intros _. split; [done|]. destruct claims as [|c cs]; [cbn [length]; lia|].
  destruct (H2 ltac:(done)) as [_ Hl]. rewrite length_app in Hl. cbn [length] in Hl |- *. lia.
Qed.
End Dispatch.

(** ** A form with one target *)
Module WorkerRun.

(** The text of a model is the number that stands for it. *)
#[local] Instance float_countable : Countable float.
Proof.
  refine (inj_countable' (A := bool + bool + unit + bool * positive * Z)
    (fun x => match x with S754_zero s => inl (inl (inl s)) | S754_infinity s => inl (inl (inr s)) | S754_nan => inl (inr tt) | S754_finite s m e => inr (s, m, e) end)
    (fun y => match y with inl (inl (inl s)) => S754_zero s | inl (inl (inr s)) => S754_infinity s | inl (inr _) => S754_nan | inr (s, m, e) => S754_finite s m e end) _).
  by intros [].
Defined.
#[local] Instance severity_countable : Countable Severity.
Proof. refine (inj_countable' (fun s => match s with INFO => 0 | LOW => 1 | MEDIUM => 2 | HIGH => 3 | CRITICAL => 4 end)
  (fun n => match n with 0 => INFO | 1 => LOW | 2 => MEDIUM | 3 => HIGH | _ => CRITICAL end) _). by intros []. Defined.
#[local] Instance detector_countable : Countable DetectorKind.
Proof. refine (inj_countable' (fun s => match s with OSV => 0 | DEBIAN_TRACKER => 1 | DEFENDER => 2 | MALWARE => 3 | POSTURE => 4 | SECRET => 5 end)
  (fun n => match n with 0 => OSV | 1 => DEBIAN_TRACKER | 2 => DEFENDER | 3 => MALWARE | 4 => POSTURE | _ => SECRET end) _). by intros []. Defined.
#[local] Instance status_countable : Countable CoverageStatus.
Proof. refine (inj_countable' (fun s => match s with C_COMPLETE => 0 | C_PARTIAL => 1 | C_DISABLED => 2 | C_FAILED => 3 | C_UNKNOWN => 4 end)
  (fun n => match n with 0 => C_COMPLETE | 1 => C_PARTIAL | 2 => C_DISABLED | 3 => C_FAILED | _ => C_UNKNOWN end) _). by intros []. Defined.
#[local] Instance capability_countable : Countable ScanCapability.
Proof. refine (inj_countable' (fun s => match s with HOST => 0 | TRACE => 1 | GUARD => 2 end) (fun n => match n with 0 => HOST | 1 => TRACE | _ => GUARD end) _). by intros []. Defined.
#[local] Instance derived_countable : Countable DerivedState.
Proof. refine (inj_countable' (fun s => match s with D_PENDING => 0 | D_PROCESSING => 1 | D_COMPLETE => 2 | D_PARTIAL => 3 end)
  (fun n => match n with 0 => D_PENDING | 1 => D_PROCESSING | 2 => D_COMPLETE | _ => D_PARTIAL end) _). by intros []. Defined.
#[local] Instance vulnerability_dec : EqDecision vulnerability.
Proof. solve_decision. Defined.
#[local] Instance vulnerability_countable : Countable vulnerability.
Proof. refine (inj_countable' (fun v => (vu_id v, vu_severity v, vu_cvss_score v, vu_affected_asset_id v, (vu_parent_asset_id v, vu_source v, vu_evidence v, vu_references v)))
  (fun '(a, b, c, d, (e, f, g, h)) => mkVuln a b c d e f g h) _). by intros []. Defined.
#[local] Instance run_dec : EqDecision detector_run.
Proof. solve_decision. Defined.
#[local] Instance run_countable : Countable detector_run.
Proof. refine (inj_countable' (fun r => (run_detector r, run_status r, run_finding_count r, run_reason r)) (fun '(a, b, c, d) => mkRun a b c d) _). by intros []. Defined.
#[local] Instance result_dec : EqDecision ScanResult.
Proof. solve_decision. Defined.
#[local] Instance result_countable : Countable ScanResult.
Proof. refine (inj_countable' (fun r => (sr_kind r, sr_report_id r, sr_batch_id r, sr_host_id r, (sr_pid r, sr_detail r, sr_derived_state r, sr_derived_records r),
    (sr_derived_truncated r, sr_derived_reason r, sr_derived_attempts r, sr_derived_updated_at r)))
  (fun '(a, b, c, d, (e, f, g, h), (i, j, k, l)) => mkResult a b c d e f g h i j k l) _). by intros []. Defined.

(** The header of a report and of a batch: the agent, the target and the host *)
Abbreviation header := (option str * option str * str)%type.
Abbreviation report := (AssetReport header Z).
Abbreviation batch := (TraceBatch header str str str).
#[local] Instance report_dec : EqDecision report.
Proof. solve_decision. Defined.
#[local] Instance report_countable : Countable report.
Proof. refine (inj_countable' (fun r : report => (ar_report_id r, ar_header r, ar_assets r, ar_vulnerabilities r, ar_detector_runs r)) (fun '(a, b, c, d, e) => mkReport a b c d e) _). by intros []. Defined.
#[local] Instance batch_dec : EqDecision batch.
Proof. solve_decision. Defined.
#[local] Instance batch_countable : Countable batch.
Proof. refine (inj_countable' (fun b : batch => (tb_batch_id b, tb_header b, tb_events b, tb_file_events b, tb_process_events b)) (fun '(a, b, c, d, e) => mkBatch a b c d e) _). by intros []. Defined.

#[local, program] Instance report_header : ReportHeader header := {|
  rh_host_id h := h.2; rh_source_agent_id h := h.1.1; rh_source_target_id h := h.1.2; rh_bind a t h _ := (a, Some t, h) |}.
Next Obligation. done. Qed.
#[local, program] Instance batch_header : BatchHeader header := {|
  bh_source_agent_id h := h.1.1; bh_source_target_id h := h.1.2; bh_bind a t h := (a, Some t, h.2) |}.
Next Obligation. done. Qed.
#[local, program] Instance host_event : HostEvent str := {| he_host_id e := e; he_bind h _ := h |}.
Next Obligation. done. Qed.

#[local, program] Instance report_wire : ReportWire header Z := {|
  wr_header _ := 50; wr_id := Example_wire.id_size; wr_asset := Example_wire.asset_size; wr_vulnerability := Example_wire.finding_size; wr_runs := Example_wire.runs_size;
  wr_encoded r := 50 + Example_wire.id_size (ar_report_id r) + array_content (Example_wire.asset_size <$> ar_assets r)
    + array_content (Example_wire.finding_size <$> ar_vulnerabilities r) + Example_wire.runs_size (ar_detector_runs r) |}.
Next Obligation. split; intros; [unfold Example_wire.asset_size|unfold Example_wire.finding_size]; lia. Qed.
Next Obligation. done. Qed.
#[local, program] Instance trace_wire : BatchWire header str str str := {|
  bw_header _ := 50; bw_id := Example_wire.id_size; bw_event := Example_wire.id_size; bw_file_event := Example_wire.id_size; bw_process_event := Example_wire.id_size;
  bw_encoded b := 50 + Example_wire.id_size (tb_batch_id b) + array_content (Example_wire.id_size <$> tb_events b)
    + array_content (Example_wire.id_size <$> tb_file_events b) + array_content (Example_wire.id_size <$> tb_process_events b) |}.
Next Obligation. unfold Example_wire.id_size. split_and!; intros; lia. Qed.
Next Obligation. done. Qed.

Definition text_of {A} `{Countable A} (a : A) : str := [Npos (countable.encode a)].
Definition read_text {A} `{Countable A} (s : str) : res A :=
  match s with [Npos p] => match countable.decode p with Some a => Ok a | None => Raise ValueError end | _ => Raise ValueError end.
Lemma read_text_of {A} `{Countable A} (a : A) : read_text (text_of a) = Ok a.
Proof. unfold read_text, text_of. by rewrite decode_encode. Qed.

#[local, program] Instance artifact_text : Spool.ArtifactText report batch := {|
  Spool.model_text a := match a with ReportArtifact r => text_of r | TraceArtifact b => text_of b | ResultArtifact r => text_of r end;
  Spool.parse_unbounded_asset_report := read_text; Spool.parse_unbounded_trace_batch := read_text; Spool.parse_scan_result := read_text;
  Spool.envelope_bytes e := 100 + Z.of_nat (length (Spool.se_payload e)) |}.
Next Obligation. intros [r|b|r]; apply read_text_of. Qed.
Next Obligation. intros e. cbn. lia. Qed.

(** The target keeps the generation that was prepared for it and the guard that runs. *)
Record target_state := mkTargetState { ts_prepared : option (option str); ts_guard : option GuardDeploymentManifest }.
Definition form_target : ScanTarget := mkTarget (u "host-1") (u "10.0.0.1") SSH None.
Definition manifest (generation : option str) : GuardDeploymentManifest :=
  mkManifest (u "d") generation (u "b") None (u "42") (u "unit") (u "bin") None.
Definition accepted_answer : answer := mkAnswer 202 (Ok (JObject [(u "derived_status", JString (u "complete")); (u "derived_records", JInt 2)])).
Definition collected_report : report := mkReport (u "r") (Some (u "forged"), Some (u "other"), u "elsewhere") [300; 200] [] None.
Definition collected_batch : batch := mkBatch (u "b") (None, None, u "elsewhere") [u "x"; u "y"] [] [].

#[local] Instance one_target : Outside target_state report batch unit := {|
  run_host_local _ _ := act_ret collected_report; run_host_winrm _ _ := act_ret collected_report; run_host _ _ := act_ret collected_report;
  run_trace _ _ := act_ret collected_batch;
  guard_prepare _ _ _ b _ := act_do (fun o => mkTargetState (Some ((fun b => generation_name (cb_certificate b)) <$> b)) (ts_guard o));
  guard_conclude called o :=
    match called, ts_prepared o with
    | Ok _, Some generation => (Ok (guard_result (u "elsewhere") (u "42") (u "running")), mkTargetState None (Some (manifest generation)))
    | Ok _, None => (Raise RuntimeError, o)
    | Raise e, _ => (Raise e, mkTargetState None (ts_guard o))
    end;
  guard_deployment_proof_for _ := act_get (fun o => mkProof (ts_guard o) (mkStatus (bool_decide (ts_guard o <> None)) [] [] (gm_pid <$> ts_guard o)));
  stop_guard_for _ _ := fun o => (Ok (mkStatus false [] [] None), mkTargetState (ts_prepared o) None);
  find_target id := act_ret (if bool_decide (id = u "host-1") then Some (Ok form_target) else None);
  issue_agent_certificate _ now := act_ret (mkIssued (mkMaterial (u "c1") (repeat 97%N 64) (repeat 97%N 64) (u "PEM") now (now + 86400000000)) [] []);
  new_agent_id := act_ret (u "1");
  post_report _ _ := act_ret (Some accepted_answer); post_batch _ _ := act_ret (Some accepted_answer);
  outside_step _ o := o |}.

Definition second : Z := 1000000.
(** Thirty seconds of lease; a spool of the given size *)
Definition form_worker (max_total_bytes : Z) : ScanJobWorker :=
  mkWorker (fun _ => 200) (mkLimits 65536 10 100) (mkWorkerConfig 4 (fl_of_Z 900) (fl_of_Z 30) (fl_of_Z 10) (fl_of_Z 1) 3 (fl_of_Z 1) (fl_of_Z 60) (fl_of_Z 5))
    1000 max_total_bytes (fun _ => Ok (u "https://form")) None (fun _ => u "error").

Definition scan_job (capability : ScanCapability) : ScanJob :=
  mkJob (u "a") (u "host-1") (u "10.0.0.1") capability None PENDING default_options 0 None None None None None 0 3 None None.

Definition no_claim : claimed := mkClaim (scan_job HOST) [] 0 [] 0.
Definition claimed_job (capability : ScanCapability) (wk : ScanJobWorker) : claimed * JobStore.db :=
  let d := JobSteps.exec (wk_json_bytes wk) (wk_limits wk) (Create (scan_job capability) None None) JobStore.empty_db in
  match claim_next (wk_json_bytes wk) (wk_limits wk) (u "w") second (30 * second) 4 [] (u "t") d with
  | (Ok (Some claim), d) => (claim, d)
  | (_, d) => (no_claim, d)
  end.

(** The state in which the claim of a job is processed *)
Definition started (capability : ScanCapability) (wk : ScanJobWorker) (schedule : list (list (happening unit))) : world target_state unit :=
  let '(claim, d) := claimed_job capability wk in
  start_claim claim d (Some AgentIdentity.empty_db) (Spool.mkSpool ∅ [] 0) second schedule [] (mkTargetState None None).

Definition job_of (w : world target_state unit) : ScanJob := cl_job (w_claim w).
Definition processed (capability : ScanCapability) (wk : ScanJobWorker) (schedule : list (list (happening unit))) : res unit * world target_state unit :=
  let w := started capability wk schedule in process_claim wk (complete_claim wk) (job_of w) w.
Definition recorded (w : world target_state unit) : option ScanJobState := hd_state <$> heads (w_jobs w) !! u "a".

(** An operator cancels at the [n]-th awaited call. *)
Definition cancelled_at (n : nat) : option ScanJobState * bool :=
  let w := (processed GUARD (form_worker 10000) (repeat [] n ++ [[OnRepository (RequestCancel (u "a") (2 * second)); NotifyCancel]])).2 in
  (recorded w, bool_decide (ts_guard (w_outside w) = None)).
End WorkerRun.
Import WorkerRun.
#[local] Existing Instances report_header batch_header host_event report_wire trace_wire artifact_text one_target.

(** A job is cancelled with its guard taken down, before, during and after the deployment;
    once the success is recorded, the guard stays. *)
Example cancelled_guards : cancelled_at <$> [0; 16; 30; 38; 39]%nat =
  [(Some CANCELLED, true); (Some CANCELLED, true); (Some CANCELLED, true); (Some CANCELLED, true); (Some SUCCEEDED, false)].
Proof. vm_compute. reflexivity. Qed.

(** A job between two attempts is cancelled at once, and nothing takes down the guard that
    the first attempt has started: it was deployed, its artifact could not be stored, and
    the job waits for another attempt.  The row is final then, no claim is granted for it,
    the guard runs, and its certificate is active. *)
Theorem cancelled_retry_leaves_guard :
  let w := (processed GUARD (form_worker 10) []).2 in
  let after := JobStore.request_cancel (fun _ => 200) (mkLimits 65536 10 100) (u "a") (2 * second) (w_jobs w) in
  recorded w = Some RETRYING /\ (sj_state <$> after.1) = Ok CANCELLED /\
  (forall now, now ∈ [2 * second; 1000 * second] -> (claim_next (fun _ => 200) (mkLimits 65536 10 100) (u "w") now (30 * second) 4 [] (u "t2") after.2).1 = Ok None) /\
  ts_guard (w_outside w) <> None /\
  (d ← (match w_agents w with Some d => Ok d | None => Raise RuntimeError end); i ← get_by_target (u "host-1") d; Ok (ac_state <$> ai_certificates i)) = Ok [ACTIVE].
Proof.
  split; [vm_compute; reflexivity|]. split; [vm_compute; reflexivity|]. split; [|split; [vm_compute; discriminate|vm_compute; reflexivity]].
  intros now Hn. repeat (apply elem_of_cons in Hn as [->|Hn]; [vm_compute; reflexivity|]). by apply not_elem_of_nil in Hn.
Qed.


Lemma artifact_not_recollected_witness :
  let w := started HOST (form_worker 10000) [] <| w_spool := (Spool.save 1000 10000 (u "a") (u "asset-report") (ReportArtifact (T := batch) collected_report) (Spool.mkSpool ∅ [] 0)).2 |> in
  execute_with (form_worker 10000) (collect_and_spool (form_worker 10000)) (job_of w) w =
  execute_with (form_worker 10000) (fun _ _ => act_lift (Raise RuntimeError)) (job_of w) w.
Proof.
  intros w. apply (artifact_not_recollected (form_worker 10000)). left. exists (ReportArtifact collected_report). vm_compute. reflexivity.
Defined.


(** The repository of a started claim is what the calls have made of an empty one. *)
Lemma started_consistent capability wk schedule : consistent (w_jobs (started capability wk schedule)).
Proof.
  assert (Hd : w_jobs (started capability wk schedule) = JobSteps.exec (wk_json_bytes wk) (wk_limits wk) (ClaimNext (u "w") second (30 * second) 4 [] (u "t"))
      (JobSteps.exec (wk_json_bytes wk) (wk_limits wk) (Create (scan_job capability) None None) JobStore.empty_db)).
  { unfold started, claimed_job. cbn [JobSteps.exec]. destruct (claim_next _ _ _ _ _ _ _ _ _) as [[[c|]|e] d]; reflexivity. }
  rewrite Hd. by apply exec_consistent, exec_consistent, JobProps.empty_consistent.
Qed.

(** A worker that records nothing once its lease is known to be lost *)
Definition strict_commit (latest : ScanJob) : act (world target_state unit) ScanJob := fun v =>
  if ct_lease_lost (w_control v) || negb (bool_decide (sj_state latest ∈ [SUCCEEDED; CANCELLED; RETRYING; FAILED])) then (Raise RuntimeError, v)
  else complete_claim (form_worker 10000) latest v.

